(* ===== verification/_CoqProject ===== *)
-Q . S2P
Prelude.v
GoStrings.v
NetIP.v
NetIPText.v
Network.v
Errors.v
Sha256.v
Feed.v
Ops.v
StateDB.v
StateEnforce.v
StatePlan.v
StateFeeds.v
StateSnapshot.v
StateHistory.v
StateRuns.v
StatePrune.v
GoTime.v
Lapi.v
Notify.v
NotifyStore.v
StateAll.v
LapiSession.v
MockServer.v
Reconcile.v
ReconcileProtocol.v
ReconcileRun.v
Backoff.v
Config.v
Syncer.v
SyncerRun.v
SyncerStore.v
SyncerExamples.v
AppResult.v
LogSafe.v
SyncJob.v
JobExamples.v
Scheduler.v
SchedulerRun.v
ConfigReady.v
NotifyRun.v
NotifyStreak.v
NotifyExamples.v
Readiness.v
HttpDate.v
Fetcher.v
FetcherRun.v
FetcherExamples.v
Metrics.v
MetricsRun.v
MetricsText.v
Runtime.v
RuntimeRun.v
RuntimeStore.v
Migrate.v
MigrateRun.v
Operator.v
OperatorRun.v
OperatorStore.v
OperatorExamples.v
Credentials.v
NotifyTransport.v
HealthServer.v
HealthServerRun.v
Healthcheck.v
StoreOpen.v
StoreOpenRun.v
Production.v
Logged.v
ProductionRun.v
ProductionReady.v
ProductionExamples.v
ConfigEnv.v
ConfigEnvRun.v
ConfigLoad.v
ConfigLoadRun.v
OneShot.v
OneShotRun.v
Cli.v
CliRun.v
