(* ===== verification/Prelude.v ===== *)
(** * Crowdshield

    Crowdshield downloads block lists ("feeds"), turns them into a set of
    network prefixes, and keeps a CrowdSec local API (LAPI) enforcing exactly
    that set, by decisions it owns.  This library is a shallow embedding of the
    Go code under [src/internal] and [src/cmd], with the theorems that make it
    correct.

    ** The program and how its parts meet

    A scheduler ([scheduler]) runs a synchronisation job ([app/job.go]).  The
    job opens a run in the history ([state/sync_repository.go]) and lets the
    engine ([syncer]) work.  For every feed that is due the engine fetches
    ([feed/fetcher.go]), parses ([feed/parser.go]), validates
    ([feed/validate.go]) and stores a snapshot ([state/feed_repository.go]).  It
    then computes the desired objects ([network]) and hands them to the
    reconciler ([reconcile]), which stores the plan and journals operations
    ([state/enforcement_repository.go]) around the calls of the LAPI client
    ([lapi]).  The report becomes a result ([app/result.go]), which closes the
    run and reaches the metrics, the readiness tracker ([health]) and the
    notifications ([notify]).  All settings come from a validated configuration
    ([config]).

    The command line ([cli], [cmd/crowdshield]) loads that configuration and calls
    one action: the service, which [app/production.go] builds from credentials
    ([credentials]), an opened and migrated store ([state/store.go],
    [state/migrate.go]) and the parts above, and [app/runtime.go] runs next to the
    HTTP server ([health]); one synchronisation ([app/operator.go]); a question or
    a pruning ([app/operator_read.go], [operator_maintenance.go]); or the check of
    a running service.

    ** Files

    - [Prelude] (this file): results, the state-and-error monad [M] with its
      notations, machine integers, comparison functions and sorting, shared
      tactics and list lemmas.
    - The Go standard library as far as the program uses it: [GoStrings] (byte
      strings, [strconv], UTF-8, the regular expressions), [NetIP] and
      [NetIPText] ([net/netip]), [GoTime] (texts of instants and durations),
      [HttpDate] (dates of HTTP), [Sha256].  [Errors] has the errors of every
      package, instants and [float64].
    - [Network]: [network/normalize.go], [safety.go], [dedupe.go].
    - [Feed]: [feed/types.go], [parser.go], [validate.go].  [Fetcher],
      [FetcherRun], [FetcherExamples]: [feed/fetcher.go].
    - [Ops]: [ops/event.go], the vocabulary of events and results.
    - [StateDB]: the tables of [migrations/*.sql] and the statements on them.
      [StateEnforce], [StatePlan]: the enforcement repository.  [StateFeeds],
      [StateSnapshot], [StateHistory]: the feed repository.  [StateRuns]: the
      run repository.  [StatePrune]: the pruning.  [StateAll]: all of them, and
      the notification repository, in any order.
    - [Lapi], [LapiSession]: [lapi/models.go], [client.go].  [MockServer]:
      [lapi/mock/server.go].
    - [Reconcile], [ReconcileProtocol], [ReconcileRun]: [reconcile/reconcile.go].
    - [Backoff]: the delay the engine and the scheduler share.
    - [Config], [ConfigReady]: [config/types.go], [validate.go] and the settings
      [app/production.go] passes on.  [ConfigEnv], [ConfigEnvRun]: [config/env.go].
      [ConfigLoad], [ConfigLoadRun]: [config/load.go], [errors.go], [secret.go]
      and the methods that decode durations and prefixes.
    - [Syncer], [SyncerRun], [SyncerStore], [SyncerExamples]: [syncer].
    - [AppResult], [SyncJob], [JobExamples]: [app/result.go], [app/job.go].
    - [Scheduler], [SchedulerRun]: [scheduler/scheduler.go].
    - [Notify], [NotifyStore], [NotifyRun], [NotifyStreak], [NotifyExamples]:
      [notify/manager.go], [notice.go], [state/notification_repository.go].
      [NotifyTransport]: [notify/transport.go].
    - [Readiness]: [health/readiness.go].  [HealthServer], [HealthServerRun]:
      [health/handler.go], [server.go].
    - [Metrics], [MetricsRun], [MetricsText]: [metrics/metrics.go].  [LogSafe]:
      [logsafe/logger.go], [app/observer.go].
    - [Credentials]: [credentials].
    - [Migrate], [MigrateRun]: [state/migrate.go], [migrations/embed.go].
      [StoreOpen], [StoreOpenRun]: [state/store.go].
    - [Runtime], [RuntimeRun], [RuntimeStore]: [app/runtime.go].
    - [Production], [ProductionRun], [ProductionReady], [ProductionExamples]:
      [app/production.go].  [Logged]: worlds with a log, for the files that state
      what is done to the outside.
    - [OneShot], [OneShotRun]: [app/operator.go], [operator_dry_store.go].
    - [Operator], [OperatorRun], [OperatorStore], [OperatorExamples]:
      [app/operator_read.go], [operator_maintenance.go], [cli/types.go].
    - [Cli], [CliRun]: the flag parser and the JSON encoder as the commands use
      them, and the commands of [cli], [buildinfo], [cmd/crowdshield].
      [Healthcheck]: [cli/healthcheck.go].

    The definitions have the names of the Go functions, with the name of the
    type or package in front where several share one.  A file [X] that models
    code holds its data and operations; [XRun], [XStore] and the like hold
    theorems that need more of the program, [XExamples] evaluated runs.

    ** How code is translated

    Pure functions are functions; [(value, error)] is [result error value];
    code that changes state is [M S error A], which returns the state also when
    it fails.  The interfaces a Go component takes are classes over a world
    ([StateStore], [FeedStore], [FetchClient], [LapiClient], [TokenSource],
    [SchedulerWorld], [JobWorld], [NotifyWorld], [RuntimeWorld], [OperatorState],
    [OneShotWorld]), and so are the file system, the database driver, the network
    and the two streams ([FileSystem], [SqlDriver], [BuildWorld], [HttpNet],
    [DialNet], [PostNet], [HealthcheckNet], [Transport], [Console]); the theorems
    on a component hold for every instance, and the [*Run] and [*Store] files give
    the instances made of the other components or a log of what is done.
    Goroutines of the runtime are operations of its world, the calls of the HTTP
    server are threads of a step relation.  A pointer to a setting is a lens
    ([Field], [Lens]).  Integers that can
    overflow are kept at their width ([int64_wrap], [in_int64], [time_Sub]
    saturates, SHA-256 is modulo [2^32]); where a sum is written without a
    wrap, a guard of the code bounds it.  An iteration over a Go map is a fold
    over [map_to_list], and the results that matter are proved independent of
    that order.

    The database is a record of finite maps.  Every statement may fail, by a
    constraint of the schema or by a fault of the list the world carries, at
    any point of any call; a transaction that fails restores the tables.  The
    theorems on the store quantify over all fault lists, the theorems on the
    reconciler, the engine and the job also over all answers of the remote
    side.

    ** Parameters

    Code that is not in the repository is a parameter: the JSON decoders of the
    Spamhaus format ([SpamhausCodec]), of the LAPI ([Codec]) and of the health
    check ([HealthcheckLibrary]), the encoder of feed definitions
    ([DefinitionCodec]), the YAML decoder of the credentials ([CredentialsCodec])
    and of the configuration ([ConfigCodec], whose laws say which values a
    decoded field can have), parsing of URLs and media types and case folding
    beyond ASCII ([TextLibrary], [HttpLibrary], [UrlLibrary]), parsing of floats
    ([ConvLibrary]) and their shortest text ([FloatText]), the time zone names of
    [time.Parse] ([LocalZone]), the effect of a migration script ([Scripts]), the
    HTTP transports, the resolver and the sockets, clocks, random sources and
    contexts.  The examples instantiate them by concrete functions.

    ** What is proved

    - Safety of the lists: no object touches a special-purpose range or the
      allowlist, for every input ([Network]); what the feeds contribute is
      exactly what they hold, within the policy ([Feed]).
    - The store: each operation has its exact effect on the tables and none on
      the rest, failing calls change nothing, invariants of all tables survive
      any history of calls and faults ([StatePlan], [StateHistory], [StateRuns],
      [StatePrune], [StateAll]).
    - The reconciler: a decision is deleted only right after its ownership was
      shown, an alert is created only for a journaled operation, decisions are
      recorded only from an alert that verifies, removals happen only when
      nothing failed ([ReconcileProtocol], [ReconcileRun]).
    - The engine and the job: last-known-good feeds survive every failure, dry
      runs store nothing, reports account for every feed, results are always
      valid ([SyncerRun], [SyncerStore], [AppResult], [SyncJob]).
    - The fetcher reaches only public hosts, bounds its requests, and what it
      returns can be stored and sent again ([FetcherRun]).
    - The scheduler refines an abstract specification with bounded attempts and
      delays; its deadlines stay on one grid ([SchedulerRun]).
    - Notices are sent only when they are due ([NotifyRun]).  Failures, readiness
      and metrics refine abstract accounts of what was told: a counter that tells
      once, a predicate on the history of the reports, saturated sums, the latest
      times and the last values; the exposition text reads back ([NotifyStreak],
      [Readiness], [MetricsRun], [MetricsText]).
    - Validation of the configuration establishes what every component built
      from it checks ([ConfigReady]), and a validated configuration is built unless
      the environment refuses, but for the texts that only the constructors check,
      which the theorem lists ([ProductionReady]).  What is loaded comes from one
      bounded file and the environment alone, each variable changes one setting,
      and every number lies within its bounds ([ConfigEnvRun], [ConfigLoadRun]).
    - What is acquired is released, once and in order, whether a build, an
      opening, a start-up, a run of the service or a one-shot synchronisation
      succeeds or fails ([ProductionRun], [StoreOpenRun], [RuntimeRun],
      [OneShotRun]); a credentials file is checked before and after it is opened
      ([Credentials]); notices stay on their host ([NotifyTransport]); the log
      and the error stream have fixed vocabularies ([LogSafe], [CliRun]).
    - A migration runs what is missing, once and in order, or changes nothing
      ([MigrateRun]), and a store is given out only after it ([StoreOpenRun]).  The
      start-up leaves a recovered store ([RuntimeStore]).
    - The operator's answers are what the stored rows say; all but a confirmed
      pruning leave the store as it is ([OperatorRun], [OperatorStore]).
    - The HTTP server serves one listener at a time and is shut down once, however
      its calls interleave, and its endpoints tell the state of the tracker
      ([HealthServerRun]).
    - A command line calls at most the one action it asks for, with a validated
      configuration, prints only valid answers, and deletes history only with the
      exact confirmation ([CliRun]).

    ** Bounds and fuel

    - [skip_missed] gets [missed] turns, and [next_deadline_spec] shows that more
      change nothing.  [Scheduler_Run] takes the number of turns of a loop that
      only its context ends; [None] says it is still going, and the
      theorems hold for every number.
    - [backoff_loop] runs as often as attempts failed.  [attempts] runs at most
      [MaxAttempts] times, which the validated policy bounds by 10.
    - The redirect loop of the fetcher gets [maxRedirects + 1] turns;
      [Fetch_requests] shows that its own guard ends it.  The redirect loop of the
      notices gets any number of turns, and [Send_stays] shows that three are enough.
    - Decoding of UTF-8, reading of labels and of the exposition, and the
      readers of dates are given the length of their text; the round-trip
      theorems show that it is enough for all the program writes.  The month of
      a day is found within eleven steps.

    ** What is not modelled

    - The decoders of YAML and JSON, SQLite and what its scripts do to the data
      (the schema they lead to is [StateDB]; the programs of [Migrate] only keep
      the table of the versions), and [net/http] below the transport: TLS,
      proxies, connection reuse, the options of its servers and dialers.
    - The scheduling of goroutines, the signals that cancel the context of the
      program, and mutexes, which the modelled calls hold from their start to
      their end.  Except where it is an argument, a context that is nil is not
      given.
    - The encoding of a log record as a line of JSON, which is the handler's.
    - [lapi/mock/cmd/mock-lapi/main.go], the main function of a test server. *)

From Stdlib Require String.
From Stdlib Require Export ZArith Lia Ascii.
From stdpp Require Export base gmap list sorting strings numbers.

#[global] Open Scope Z_scope.
#[export] Set Warnings "-clear-no-such-hyp".
#[global] Set Default Goal Selector "!".

(** ** The result of a fallible Go function: [(value, nil)] or [(zero, err)] *)

Inductive result (E A : Type) : Type :=
| Ok (a : A)
| Err (e : E).
Arguments Ok {E A} a.
Arguments Err {E A} e.

Declare Scope go_scope.
Delimit Scope go_scope with go.
#[global] Open Scope go_scope.

(** Sequencing of fallible pure code. *)
Definition rbind {E A B} (c : result E A) (k : A -> result E B) : result E B :=
  match c with Ok a => k a | Err e => Err e end.

(** A computation over a world [S]: every call returns its result and the
    world it leaves behind, also when it fails. *)
Definition M (S E A : Type) : Type := S -> result E A * S.

Definition mok {S E A} (a : A) : M S E A := fun s => (Ok a, s).
Definition mfail {S E A} (e : E) : M S E A := fun s => (Err e, s).
Definition mthen {S E A B} (c : M S E A) (k : A -> M S E B) : M S E B :=
  fun s => match c s with (Ok a, s') => k a s' | (Err e, s') => (Err e, s') end.

(** [mtry c k]: run [c] and continue with its result, error or not (Go code
    that inspects [err]). *)
Definition mtry {S E A B} (c : M S E A) (k : result E A -> M S E B) : M S E B :=
  fun s => let '(r, s') := c s in k r s'.

Notation "'let!' x ':=' c 'in' k" := (mthen c (fun x => k))
  (at level 10, x pattern, c at level 200, k at level 200) : go_scope.
Notation "'let?' x ':=' c 'in' k" := (rbind c (fun x => k))
  (at level 10, x pattern, c at level 200, k at level 200) : go_scope.
Notation "'let~' x ':=' c 'in' k" := (mtry c (fun x => k))
  (at level 10, x pattern, c at level 200, k at level 200) : go_scope.

(** [for _, x := range xs { body }] where [body] may return an error. *)
Fixpoint mfor {S E A} (body : A -> M S E unit) (xs : list A) : M S E unit :=
  match xs with
  | [] => mok tt
  | x :: rest => let! _ := body x in mfor body rest
  end.

(** The same with a local accumulator threaded through the iterations. *)
Fixpoint mfold {S E A B} (body : B -> A -> M S E B) (acc : B) (xs : list A) : M S E B :=
  match xs with
  | [] => mok acc
  | x :: rest => let! acc' := body acc x in mfold body acc' rest
  end.

(** ** Machine integers *)

Definition max_int64 : Z := 2 ^ 63 - 1.
Definition min_int64 : Z := - 2 ^ 63.

(** Two's complement wrap-around of a 64-bit signed result. *)
Definition int64_wrap (z : Z) : Z := (z + 2 ^ 63) mod 2 ^ 64 - 2 ^ 63.

Definition in_int64 (z : Z) : Prop := min_int64 <= z <= max_int64.

(** ** [cmp.Compare] and [slices.SortFunc] *)

Definition cmp_of (c : comparison) : Z :=
  match c with Lt => -1 | Eq => 0 | Gt => 1 end.

Definition cmp_int (a b : Z) : Z := cmp_of (a ?= b).
Definition cmp_string (a b : string) : Z := cmp_of (String.compare a b).

(** [if v := c1; v != 0 { return v }; return c2] *)
Definition cmp_then (v next : Z) : Z := if v =? 0 then next else v.

(** The laws of a comparison function of the [cmp] style. *)
Class CmpLaws {A} (cmp : A -> A -> Z) : Prop := {
  cmp_sym : forall x y, cmp y x = - cmp x y;
  cmp_trans : forall x y z, cmp x y <= 0 -> cmp y z <= 0 -> cmp x z <= 0;
}.

Definition cmp_le {A} (cmp : A -> A -> Z) (x y : A) : Prop := cmp x y <= 0.

#[global] Instance cmp_le_dec {A} (cmp : A -> A -> Z) : RelDecision (cmp_le cmp).
Proof. intros x y. unfold cmp_le. apply Z_le_dec. Defined.

(** [slices.SortFunc(xs, cmp)]: the sorted permutation of the slice.  Every
    call site of the program sorts values on which [cmp] separates any two
    different elements, so the unstable sort has one possible result
    ([sort_func_unique]); the list of the feeds is refused otherwise. *)
Definition sort_func {A} (cmp : A -> A -> Z) (xs : list A) : list A :=
  merge_sort (cmp_le cmp) xs.

(** ** Tactics *)

(** Case analysis on the innermost test of the goal or of [H]. *)
Ltac break_goal :=
  match goal with
  | |- context [match ?x with _ => _ end] =>
      lazymatch x with
      | context [match _ with _ => _ end] => fail
      | _ => let E := fresh "E" in destruct x eqn:E
      end
  end.

Ltac break_in H :=
  match type of H with
  | context [match ?x with _ => _ end] =>
      lazymatch x with
      | context [match _ with _ => _ end] => fail
      | _ => let E := fresh "E" in destruct x eqn:E
      end
  end.

(** Boolean connectives and comparisons to propositions. *)
Ltac to_prop :=
  repeat match goal with
  | H : _ && _ = true |- _ => apply andb_true_iff in H; destruct H
  | H : _ || _ = false |- _ => apply orb_false_iff in H; destruct H
  | H : negb _ = true |- _ => apply negb_true_iff in H
  | H : negb _ = false |- _ => apply negb_false_iff in H
  | H : (_ =? _) = true |- _ => apply Z.eqb_eq in H
  | H : (_ =? _) = false |- _ => apply Z.eqb_neq in H
  | H : (_ <? _) = true |- _ => apply Z.ltb_lt in H
  | H : (_ <? _) = false |- _ => apply Z.ltb_ge in H
  | H : (_ <=? _) = true |- _ => apply Z.leb_le in H
  | H : (_ <=? _) = false |- _ => apply Z.leb_gt in H
  | H : bool_decide _ = true |- _ => apply bool_decide_eq_true in H
  | H : bool_decide _ = false |- _ => apply bool_decide_eq_false in H
  end.

Create HintDb go discriminated.

(** ** Lemmas on the monad *)

Section MonadLemmas.
Context {S E : Type}.

Lemma mthen_ok {A B} (c : M S E A) (k : A -> M S E B) s b s' :
  mthen c k s = (Ok b, s') <->
  exists a s1, c s = (Ok a, s1) /\ k a s1 = (Ok b, s').
Proof.
  unfold mthen. destruct (c s) as [[a|e] s1]; split.
  - intros H. eauto.
  - by intros (a' & s1' & [= <- <-] & H).
  - intros [=].
  - by intros (a' & s1' & [=] & H).
Qed.

Lemma mthen_err {A B} (c : M S E A) (k : A -> M S E B) s e s' :
  mthen c k s = (Err e, s') <->
  c s = (Err e, s') \/ exists a s1, c s = (Ok a, s1) /\ k a s1 = (Err e, s').
Proof.
  unfold mthen. destruct (c s) as [[a|e'] s1]; split.
  - intros H. eauto.
  - by intros [[=]|(a' & s1' & [= <- <-] & H)].
  - intros [= -> ->]. by left.
  - by intros [[= -> ->]|(a' & s1' & [=] & H)].
Qed.

(** A property of the world that every step of a loop keeps holds after
    the loop, whether it ends or stops at an error. *)
Lemma mfor_invariant {A} (I : S -> Prop) (body : A -> M S E unit) xs :
  (forall x s, x ∈ xs -> I s -> I (body x s).2) ->
  forall s, I s -> I (mfor body xs s).2.
Proof.
  induction xs as [|x xs IH]; intros Hb s Hs; cbn; [done|].
  unfold mthen. specialize (Hb x s) as Hx.
  destruct (body x s) as [[u|e] s1] eqn:Eb; cbn in *.
  - apply IH; [|apply Hx; [left|done]].
    intros y s0 Hy. apply Hb. by right.
  - apply Hx; [left|done].
Qed.
End MonadLemmas.

(** ** Comparison functions *)

Lemma cmp_of_le c : cmp_of c <= 0 <-> c <> Gt.
Proof. destruct c; cbn; split; intros; try lia; congruence. Qed.

Lemma cmp_of_opp c : cmp_of (CompOpp c) = - cmp_of c.
Proof. by destruct c. Qed.

#[export] Instance cmp_int_laws : CmpLaws cmp_int.
Proof.
  split.
  - intros x y. unfold cmp_int. by rewrite Z.compare_antisym, cmp_of_opp.
  - intros x y z. unfold cmp_int. rewrite !cmp_of_le. fold (x <= y) (y <= z) (x <= z).
    lia.
Qed.

Lemma cmp_int_eq a b : cmp_int a b = 0 -> a = b.
Proof.
  unfold cmp_int. destruct (a ?= b) eqn:E; cbn; try discriminate.
  by apply Z.compare_eq in E.
Qed.

Lemma ascii_compare_trans a b c :
  Ascii.compare a b <> Gt -> Ascii.compare b c <> Gt -> Ascii.compare a c <> Gt.
Proof. unfold Ascii.compare. rewrite !N.compare_le_iff. lia. Qed.

Lemma ascii_compare_eq a b : Ascii.compare a b = Eq <-> a = b.
Proof.
  unfold Ascii.compare. rewrite N.compare_eq_iff. split; [|by intros ->].
  intros H. rewrite <- (ascii_N_embedding a), H. apply ascii_N_embedding.
Qed.

Lemma string_compare_trans a b c :
  String.compare a b <> Gt -> String.compare b c <> Gt -> String.compare a c <> Gt.
Proof.
  revert b c. induction a as [|x a IH]; intros [|y b] [|z c]; cbn; try congruence.
  destruct (Ascii.compare x y) eqn:E1; destruct (Ascii.compare y z) eqn:E2;
    try congruence; intros H1 H2.
  - apply ascii_compare_eq in E1, E2. subst.
    rewrite (proj2 (ascii_compare_eq z z) eq_refl). eauto.
  - apply ascii_compare_eq in E1. subst. by rewrite E2.
  - apply ascii_compare_eq in E2. subst. by rewrite E1.
  - unfold Ascii.compare in *. rewrite N.compare_lt_iff in E1, E2.
    rewrite (proj2 (N.compare_lt_iff _ _)); [done|lia].
Qed.

#[export] Instance cmp_string_laws : CmpLaws cmp_string.
Proof.
  split.
  - intros x y. unfold cmp_string. by rewrite String.compare_antisym, cmp_of_opp.
  - intros x y z. unfold cmp_string. rewrite !cmp_of_le. apply string_compare_trans.
Qed.

Lemma cmp_string_eq a b : cmp_string a b = 0 -> a = b.
Proof.
  unfold cmp_string. destruct (String.compare a b) eqn:E; cbn; try discriminate.
  by apply String.compare_eq_iff in E.
Qed.

Lemma cmp_refl {A} (cmp : A -> A -> Z) `{!CmpLaws cmp} x : cmp x x = 0.
Proof. pose proof (cmp_sym (cmp:=cmp) x x). lia. Qed.

(** The order on a projection. *)
Lemma cmp_on_laws {A B} (f : A -> B) (cmp : B -> B -> Z) :
  CmpLaws cmp -> CmpLaws (fun x y => cmp (f x) (f y)).
Proof.
  intros H. split.
  - intros x y. apply cmp_sym.
  - intros x y z. apply cmp_trans.
Qed.

(** Lexicographic composition of two comparisons. *)
Lemma cmp_then_laws {A} (c1 c2 : A -> A -> Z) :
  CmpLaws c1 -> CmpLaws c2 -> CmpLaws (fun x y => cmp_then (c1 x y) (c2 x y)).
Proof.
  intros H1 H2. split.
  - intros x y. unfold cmp_then. rewrite (cmp_sym (cmp:=c1) x y), (cmp_sym (cmp:=c2) x y).
    destruct (Z.eqb_spec (c1 x y) 0); destruct (Z.eqb_spec (- c1 x y) 0); lia.
  - intros x y z. unfold cmp_then.
    pose proof (cmp_trans (cmp:=c1) x y z). pose proof (cmp_trans (cmp:=c1) z x y).
    pose proof (cmp_trans (cmp:=c1) y z x). pose proof (cmp_trans (cmp:=c2) x y z).
    pose proof (cmp_sym (cmp:=c1) x y). pose proof (cmp_sym (cmp:=c1) y z).
    pose proof (cmp_sym (cmp:=c1) x z).
    destruct (Z.eqb_spec (c1 x y) 0), (Z.eqb_spec (c1 y z) 0), (Z.eqb_spec (c1 x z) 0); lia.
Qed.

Lemma cmp_then_0 v w : cmp_then v w = 0 -> v = 0 /\ w = 0.
Proof. unfold cmp_then. destruct (Z.eqb_spec v 0); lia. Qed.

(** A comparison that agrees with a lawful one is lawful. *)
Lemma cmp_ext_laws {A} (c1 c2 : A -> A -> Z) :
  (forall x y, c1 x y = c2 x y) -> CmpLaws c2 -> CmpLaws c1.
Proof.
  intros Heq H. split; intros; rewrite !Heq in *; [apply cmp_sym|].
  by eapply cmp_trans.
Qed.

(** ** Sorting *)

Section SortFunc.
Context {A : Type} (cmp : A -> A -> Z) `{!CmpLaws cmp}.

#[local] Instance cmp_le_trans : Transitive (cmp_le cmp).
Proof. intros x y z. apply cmp_trans. Qed.

#[local] Instance cmp_le_total : Total (cmp_le cmp).
Proof.
  intros x y. unfold cmp_le. pose proof (cmp_sym (cmp:=cmp) x y). lia.
Qed.

Lemma sort_func_perm xs : sort_func cmp xs ≡ₚ xs.
Proof. apply merge_sort_Permutation. Qed.

Lemma sort_func_sorted xs : StronglySorted (cmp_le cmp) (sort_func cmp xs).
Proof. apply StronglySorted_merge_sort; apply _. Qed.

Lemma elem_of_sort_func x xs : x ∈ sort_func cmp xs <-> x ∈ xs.
Proof. by rewrite sort_func_perm. Qed.

Lemma length_sort_func xs : List.length (sort_func cmp xs) = List.length xs.
Proof. by rewrite sort_func_perm. Qed.

Lemma NoDup_sort_func xs : NoDup (sort_func cmp xs) <-> NoDup xs.
Proof. by rewrite sort_func_perm. Qed.

(** The result of the sort does not depend on the order of its input when
    [cmp] tells its elements apart. *)
Lemma sort_func_unique xs ys :
  (forall x y, x ∈ xs -> y ∈ xs -> cmp x y = 0 -> x = y) ->
  xs ≡ₚ ys -> sort_func cmp xs = sort_func cmp ys.
Proof.
  intros Heq Hp. apply (StronglySorted_unique_strong (cmp_le cmp)).
  - intros x y Hx Hy. rewrite elem_of_sort_func in Hx, Hy. unfold cmp_le.
    intros H1 H2. apply Heq; [done|by rewrite Hp|].
    pose proof (cmp_sym (cmp:=cmp) x y). lia.
  - apply sort_func_sorted.
  - apply sort_func_sorted.
  - by rewrite !sort_func_perm.
Qed.
End SortFunc.

(** ** Lists *)

Lemma Forall2_In_l {A B} (P : A -> B -> Prop) xs ys x : Forall2 P xs ys -> In x xs -> exists y, In y ys /\ P x y.
Proof.
  induction 1 as [|a b xs ys Hab Hall IH]; [by intros []|]. intros [<-|Hx]; [exists b; cbn; auto|].
  destruct (IH Hx) as (y & Hy & H). exists y. cbn. auto.
Qed.

Lemma Forall2_In_r {A B} (P : A -> B -> Prop) xs ys y : Forall2 P xs ys -> In y ys -> exists x, In x xs /\ P x y.
Proof.
  induction 1 as [|a b xs ys Hab Hall IH]; [by intros []|]. intros [<-|Hy]; [exists a; cbn; auto|].
  destruct (IH Hy) as (x & Hx & H). exists x. cbn. auto.
Qed.

Lemma Forall2_impl_In {A B} (P Q : A -> B -> Prop) xs ys :
  Forall2 P xs ys -> (forall x y, In x xs -> P x y -> Q x y) -> Forall2 Q xs ys.
Proof.
  induction 1 as [|a b xs ys Hab Hall IH]; intros H; constructor; [apply H; [by left|done]|].
  apply IH. intros x y Hx. apply H. by right.
Qed.
