(* ===== verification/GoStrings.v ===== *)
(** * Go strings

    A Go [string] is a sequence of bytes: here Rocq's [string], one [ascii] per
    byte.  This file holds the functions of the packages [strings], [strconv],
    [unicode], [unicode/utf8] and [encoding/hex] the program uses, and its
    regular expressions as Boolean matchers. *)

From S2P Require Export Prelude.
From Stdlib Require Import DecimalString DecimalZ DecimalPos.

(** ** Bytes *)

Definition byte_of (c : ascii) : Z := Z.of_N (N_of_ascii c).
Definition chr (z : Z) : ascii := ascii_of_N (Z.to_N z).

Definition in_range (lo hi z : Z) : bool := (lo <=? z) && (z <=? hi).

Definition is_digit (c : ascii) : bool := in_range 48 57 (byte_of c).
Definition is_lower (c : ascii) : bool := in_range 97 122 (byte_of c).

Fixpoint all_chars (p : ascii -> bool) (s : string) : bool :=
  match s with
  | EmptyString => true
  | String c s' => p c && all_chars p s'
  end.

Fixpoint last_char (s : string) : option ascii :=
  match s with
  | EmptyString => None
  | String c EmptyString => Some c
  | String _ s' => last_char s'
  end.

Definition len (s : string) : Z := Z.of_nat (String.length s).

(** [strings.IndexByte]: the text before the first [c] and the text after it. *)
Fixpoint cut_byte (c : ascii) (s : string) : option (string * string) :=
  match s with
  | EmptyString => None
  | String d s' =>
      if Ascii.eqb d c then Some (EmptyString, s')
      else match cut_byte c s' with
           | Some (a, b) => Some (String d a, b)
           | None => None
           end
  end.

(** [strings.LastIndexByte], as the text before and after the last [c]. *)
Fixpoint cut_last_byte (c : ascii) (s : string) : option (string * string) :=
  match s with
  | EmptyString => None
  | String d s' =>
      match cut_last_byte c s' with
      | Some (a, b) => Some (String d a, b)
      | None => if Ascii.eqb d c then Some (EmptyString, s') else None
      end
  end.

Definition contains_byte (c : ascii) (s : string) : bool :=
  match cut_byte c s with Some _ => true | None => false end.

(** [strings.ContainsAny] for a set of ASCII bytes. *)
Definition contains_any (cs : list ascii) (s : string) : bool :=
  existsb (fun c => contains_byte c s) cs.

(** ** UTF-8 *)

Definition RuneError : Z := 65533.

Definition cont_byte (c : ascii) : bool := in_range 128 191 (byte_of c).
Definition cont_bits (c : ascii) : Z := byte_of c - 128.

(** [utf8.DecodeRune]: the first rune and what follows it; an invalid
    encoding is [RuneError] of width one. *)
Definition decode_rune (l : list ascii) : option (Z * bool * list ascii) :=
  match l with
  | [] => None
  | a :: r1 =>
      let x := byte_of a in
      let bad := Some (RuneError, false, r1) in
      if x <? 128 then Some (x, true, r1)
      else if in_range 194 223 x then
        match r1 with
        | b :: r2 => if cont_byte b then Some ((x - 192) * 64 + cont_bits b, true, r2) else bad
        | _ => bad
        end
      else if in_range 224 239 x then
        match r1 with
        | b :: c :: r3 =>
            let lo := if x =? 224 then 160 else 128 in
            let hi := if x =? 237 then 159 else 191 in
            if in_range lo hi (byte_of b) && cont_byte c
            then Some ((x - 224) * 4096 + cont_bits b * 64 + cont_bits c, true, r3) else bad
        | _ => bad
        end
      else if in_range 240 244 x then
        match r1 with
        | b :: c :: d :: r4 =>
            let lo := if x =? 240 then 144 else 128 in
            let hi := if x =? 244 then 143 else 191 in
            if in_range lo hi (byte_of b) && cont_byte c && cont_byte d
            then Some ((x - 240) * 262144 + cont_bits b * 4096 + cont_bits c * 64 + cont_bits d, true, r4)
            else bad
        | _ => bad
        end
      else bad
  end.

(** The runes of a byte sequence, each with the bytes that encode it; the
    fuel is the number of bytes, and each rune takes at least one. *)
Fixpoint runes_fuel (n : nat) (l : list ascii) : list (Z * bool * list ascii) :=
  match n with
  | O => []
  | S n' =>
      match decode_rune l with
      | None => []
      | Some (r, ok, rest) =>
          (r, ok, take (List.length l - List.length rest)%nat l) :: runes_fuel n' rest
      end
  end.

Definition runes (s : string) : list (Z * bool * list ascii) :=
  let l := String.list_ascii_of_string s in runes_fuel (List.length l) l.

Definition unrunes (rs : list (Z * bool * list ascii)) : string :=
  String.string_of_list_ascii (List.concat (map snd rs)).

(** [utf8.ValidString] *)
Definition valid_utf8 (s : string) : bool := forallb (fun r => r.1.2) (runes s).

(** [unicode.IsSpace] *)
Definition is_space (r : Z) : bool :=
  in_range 9 13 r || (r =? 32) || (r =? 133) || (r =? 160) || (r =? 5760) ||
  in_range 8192 8202 r || (r =? 8232) || (r =? 8233) || (r =? 8239) || (r =? 8287) ||
  (r =? 12288).

(** [unicode.IsControl] *)
Definition is_control (r : Z) : bool := in_range 0 31 r || in_range 127 159 r.

Definition has_control (s : string) : bool := existsb (fun r => is_control r.1.1) (runes s).

Fixpoint drop_spaces (rs : list (Z * bool * list ascii)) : list (Z * bool * list ascii) :=
  match rs with
  | r :: rs' => if is_space r.1.1 then drop_spaces rs' else rs
  | [] => []
  end.

(** [strings.TrimSpace] *)
Definition trim_space (s : string) : string :=
  unrunes (rev (drop_spaces (rev (drop_spaces (runes s))))).

(** [strings.Fields] *)
Fixpoint fields_loop (cur : list (Z * bool * list ascii)) (rs : list (Z * bool * list ascii))
  : list string :=
  let flush := match cur with [] => [] | _ => [unrunes (rev cur)] end in
  match rs with
  | [] => flush
  | r :: rs' =>
      if is_space r.1.1 then flush ++ fields_loop [] rs' else fields_loop (r :: cur) rs'
  end.

Definition fields (s : string) : list string := fields_loop [] (runes s).

(** ** Numbers *)

(** [strings.CutPrefix]; [strings.Contains]; [strings.HasSuffix]; [strings.TrimRight] of one byte. *)
Fixpoint cut_prefix (p s : string) : option string :=
  match p, s with
  | "", _ => Some s
  | String a p', String b s' => if Ascii.eqb a b then cut_prefix p' s' else None
  | String _ _, "" => None
  end.

Fixpoint contains_text (p s : string) : bool :=
  match cut_prefix p s with
  | Some _ => true
  | None => match s with String _ s' => contains_text p s' | EmptyString => false end
  end.

Fixpoint has_suffix (p s : string) : bool :=
  String.eqb p s || match s with "" => false | String _ s' => has_suffix p s' end.

Fixpoint trim_right (c : ascii) (s : string) : string :=
  match s with
  | "" => ""
  | String a s' =>
      let t := trim_right c s' in
      if String.eqb t "" && Ascii.eqb a c then "" else String a t
  end.

(** [strconv.Itoa] and [strconv.FormatInt(_, 10)] *)
Definition itoa (z : Z) : string := NilZero.string_of_int (Z.to_int z).

(** The value of a non-empty run of decimal digits. *)
Definition digits_value (s : string) : option Z :=
  match s with
  | EmptyString => None
  | _ =>
      if all_chars is_digit s then
        Some (fold_left (fun acc c => acc * 10 + (byte_of c - 48)) (String.list_ascii_of_string s) 0)
      else None
  end.

(** [strconv.Atoi] and [strconv.ParseInt(_, 10, 64)]: an optional sign, then
    digits, in the range of an [int64]. *)
Definition atoi (s : string) : option Z :=
  let check z := if (min_int64 <=? z) && (z <=? max_int64) then Some z else None in
  match s with
  | String "-" s' => match digits_value s' with Some z => check (- z) | None => None end
  | String "+" s' => match digits_value s' with Some z => check z | None => None end
  | _ => match digits_value s with Some z => check z | None => None end
  end.

Definition hex_value (c : ascii) : option Z :=
  let x := byte_of c in
  if in_range 48 57 x then Some (x - 48)
  else if in_range 97 102 x then Some (x - 87)
  else if in_range 65 70 x then Some (x - 55)
  else None.

Definition hex_digit (z : Z) : ascii := if z <? 10 then chr (48 + z) else chr (87 + z).

(** [hex.EncodeToString] *)
Definition hex_encode (bs : list Z) : string :=
  String.string_of_list_ascii (flat_map (fun b => [hex_digit (b / 16); hex_digit (b mod 16)]) bs).

(** ** The program's regular expressions *)

Definition is_name_char (c : ascii) : bool := is_digit c || is_lower c.

(** [^[a-z0-9](?:[a-z0-9-]*[a-z0-9])?$] *)
Definition match_feed_name (s : string) : bool :=
  match s, last_char s with
  | String c _, Some d =>
      is_name_char c && is_name_char d &&
      all_chars (fun c => is_name_char c || Ascii.eqb c "-") s
  | _, _ => false
  end.

(** [^[a-z][a-z0-9_]{0,63}$] *)
Definition match_category (s : string) : bool :=
  match s with
  | String c s' =>
      is_lower c && all_chars (fun c => is_name_char c || Ascii.eqb c "_") s' && (len s' <=? 63)
  | EmptyString => false
  end.

(** [^[a-f0-9]{32}$] *)
Definition match_token (s : string) : bool :=
  (len s =? 32) && all_chars (fun c => is_digit c || in_range 97 102 (byte_of c)) s.

(** ** Facts *)

Lemma byte_of_range c : 0 <= byte_of c <= 255.
Proof.
  unfold byte_of. pose proof (N_ascii_bounded c). lia.
Qed.

Lemma chr_byte z : 0 <= z < 256 -> byte_of (chr z) = z.
Proof.
  intros H. unfold byte_of, chr. rewrite N_ascii_embedding by lia. lia.
Qed.

Lemma all_chars_app p s t : all_chars p (s +:+ t) = all_chars p s && all_chars p t.
Proof. induction s as [|c s IH]; simpl; [done|]. by rewrite IH, andb_assoc. Qed.

Lemma cut_byte_none c s : all_chars (fun d => negb (Ascii.eqb d c)) s = true -> cut_byte c s = None.
Proof.
  induction s as [|d s IH]; simpl; [done|]. intros [H1 H2]%andb_true_iff.
  apply negb_true_iff in H1. by rewrite H1, IH.
Qed.

Lemma cut_byte_app c s t :
  all_chars (fun d => negb (Ascii.eqb d c)) s = true ->
  cut_byte c (s +:+ String c t) = Some (s, t).
Proof.
  induction s as [|d s IH]; simpl.
  - by rewrite Ascii.eqb_refl.
  - intros [H1 H2]%andb_true_iff. apply negb_true_iff in H1. by rewrite H1, IH.
Qed.

Lemma cut_last_byte_none c s :
  all_chars (fun d => negb (Ascii.eqb d c)) s = true -> cut_last_byte c s = None.
Proof.
  induction s as [|d s IH]; simpl; [done|]. intros [H1 H2]%andb_true_iff.
  apply negb_true_iff in H1. by rewrite IH, H1.
Qed.

Lemma cut_last_byte_app c s t :
  all_chars (fun d => negb (Ascii.eqb d c)) t = true ->
  cut_last_byte c (s +:+ String c t) = Some (s, t).
Proof.
  intros Ht. induction s as [|d s IH]; simpl.
  - by rewrite cut_last_byte_none, Ascii.eqb_refl.
  - by rewrite IH.
Qed.

(** ** [strconv.ParseInt] inverts [strconv.FormatInt] *)

Definition add_digit (acc : Z) (c : ascii) : Z := acc * 10 + (byte_of c - 48).

Lemma fold_digits_acc u : forall p,
  fold_left add_digit (String.list_ascii_of_string (NilEmpty.string_of_uint u)) (Zpos p) =
  Zpos (Pos.of_uint_acc u p).
Proof.
  induction u as [|u IH|u IH|u IH|u IH|u IH|u IH|u IH|u IH|u IH|u IH]; intros p; [done|..];
    cbn [NilEmpty.string_of_uint String.list_ascii_of_string fold_left Pos.of_uint_acc]; rewrite <- IH; f_equal;
    unfold add_digit; match goal with |- context [byte_of ?c] => let b := eval vm_compute in (byte_of c) in
      change (byte_of c) with b end; lia.
Qed.

Lemma fold_digits u :
  fold_left add_digit (String.list_ascii_of_string (NilEmpty.string_of_uint u)) 0 = Z.of_N (Pos.of_uint u).
Proof.
  induction u as [|u IH|u IH|u IH|u IH|u IH|u IH|u IH|u IH|u IH|u IH]; [done|exact IH|..]; apply fold_digits_acc.
Qed.

Lemma string_of_uint_digits u : all_chars is_digit (NilEmpty.string_of_uint u) = true.
Proof. by induction u. Qed.

Lemma digits_value_uint u : u <> Decimal.Nil ->
  digits_value (NilEmpty.string_of_uint u) = Some (Z.of_N (Pos.of_uint u)).
Proof.
  intros Hu. unfold digits_value. rewrite string_of_uint_digits. fold add_digit. rewrite fold_digits.
  by destruct u.
Qed.

Lemma atoi_itoa z : 0 <= z <= max_int64 -> atoi (itoa z) = Some z.
Proof.
  intros Hz. destruct z as [|p|p]; [done| |lia].
  assert (itoa (Zpos p) = NilEmpty.string_of_uint (Pos.to_uint p)) as ->.
  { unfold itoa, Z.to_int, NilZero.string_of_int. unfold NilZero.string_of_uint.
    pose proof (DecimalPos.Unsigned.to_uint_nonnil p). by destruct (Pos.to_uint p). }
  pose proof (DecimalPos.Unsigned.to_uint_nonnil p) as Hn.
  pose proof (digits_value_uint _ Hn) as Hd. rewrite DecimalPos.Unsigned.of_to in Hd. cbn [Z.of_N] in Hd.
  assert (atoi (NilEmpty.string_of_uint (Pos.to_uint p)) =
          match digits_value (NilEmpty.string_of_uint (Pos.to_uint p)) with
          | Some z => if (min_int64 <=? z) && (z <=? max_int64) then Some z else None
          | None => None
          end) as ->.
  { destruct (Pos.to_uint p); [by exfalso|..]; reflexivity. }
  rewrite Hd. unfold min_int64 in *.
  destruct (Z.leb_spec (- 2 ^ 63) (Zpos p)); [|lia]. destruct (Z.leb_spec (Zpos p) max_int64); [done|lia].
Qed.
