(* ===== verification/NetIP.v ===== *)
(** * The package [net/netip]

    The values and functions of the Go standard library package [net/netip]
    that the program uses: addresses, prefixes, masking, overlap, containment,
    comparison, parsing and printing.  [Addr] is the union the Go type encodes:
    the zero value, an IPv4 address, or an IPv6 address with its zone.  The
    second half proves that [Overlaps] and [Contains] mean what they say on the
    sets of addresses the prefixes denote. *)

From S2P Require Export GoStrings.

(** ** Addresses *)

Inductive Addr : Type :=
| AddrZero
| Addr4 (v : Z)
| Addr6 (v : Z) (zone : string).

#[export] Instance Addr_eq_dec : EqDecision Addr.
Proof. solve_decision. Defined.

#[export] Instance Addr_countable : Countable Addr.
Proof.
  refine (inj_countable'
    (fun a => match a with
              | AddrZero => inl tt | Addr4 v => inr (inl v) | Addr6 v z => inr (inr (v, z)) end)
    (fun x => match x with
              | inl _ => AddrZero | inr (inl v) => Addr4 v | inr (inr (v, z)) => Addr6 v z end) _).
  by intros [].
Defined.

Definition Is4 (a : Addr) : bool := match a with Addr4 _ => true | _ => false end.
Definition Is6 (a : Addr) : bool := match a with Addr6 _ _ => true | _ => false end.
Definition BitLen (a : Addr) : Z :=
  match a with AddrZero => 0 | Addr4 _ => 32 | Addr6 _ _ => 128 end.
Definition Zone (a : Addr) : string := match a with Addr6 _ z => z | _ => "" end.
Definition addr_value (a : Addr) : Z :=
  match a with AddrZero => 0 | Addr4 v => v | Addr6 v _ => v end.

(** An IPv4-mapped IPv6 address: [::ffff:0:0/96]. *)
Definition Is4In6 (a : Addr) : bool :=
  match a with Addr6 v _ => Z.shiftr v 32 =? 65535 | _ => false end.

Definition Unmap (a : Addr) : Addr :=
  if Is4In6 a then Addr4 (Z.land (addr_value a) (Z.ones 32)) else a.

Definition withoutZone (a : Addr) : Addr :=
  match a with Addr6 v _ => Addr6 v "" | _ => a end.

(** [Addr.Compare]: by bit length, then address, then zone. *)
Definition addr_compare (a b : Addr) : Z :=
  cmp_then (cmp_int (BitLen a) (BitLen b))
    (cmp_then (cmp_int (addr_value a) (addr_value b)) (cmp_string (Zone a) (Zone b))).

(** The 16-bit group [i] of an IPv6 address, and the byte [i] of an IPv4 one. *)
Definition v6u16 (v i : Z) : Z := Z.land (Z.shiftr v (16 * (7 - i))) 65535.
Definition v4u8 (v i : Z) : Z := Z.land (Z.shiftr v (8 * (3 - i))) 255.

(** Each predicate first unmaps an IPv4-mapped address, as the library does. *)
Definition IsLoopback (a : Addr) : bool :=
  match Unmap a with
  | Addr4 v => v4u8 v 0 =? 127
  | Addr6 v _ => v =? 1
  | AddrZero => false
  end.

Definition IsMulticast (a : Addr) : bool :=
  match Unmap a with
  | Addr4 v => Z.land (v4u8 v 0) 240 =? 224
  | Addr6 v _ => Z.shiftr (v6u16 v 0) 8 =? 255
  | AddrZero => false
  end.

Definition IsLinkLocalUnicast (a : Addr) : bool :=
  match Unmap a with
  | Addr4 v => (v4u8 v 0 =? 169) && (v4u8 v 1 =? 254)
  | Addr6 v _ => Z.land (v6u16 v 0) 65472 =? 65152
  | AddrZero => false
  end.

Definition IsGlobalUnicast (a : Addr) : bool :=
  match a with
  | AddrZero => false
  | _ =>
      let a' := Unmap a in
      if Is4 a' && ((addr_value a' =? 0) || (addr_value a' =? Z.ones 32)) then false
      else negb (bool_decide (a' = Addr6 0 "")) && negb (IsLoopback a') &&
           negb (IsMulticast a') && negb (IsLinkLocalUnicast a')
  end.

(** ** Prefixes *)

(** [p_bits] is [Prefix.Bits()]: -1 in an invalid prefix. *)
Record Prefix : Type := MkPrefix { p_addr : Addr; p_bits : Z }.

#[export] Instance Prefix_eq_dec : EqDecision Prefix.
Proof. solve_decision. Defined.

#[export] Instance Prefix_countable : Countable Prefix.
Proof.
  refine (inj_countable' (fun p => (p_addr p, p_bits p)) (fun x => MkPrefix x.1 x.2) _).
  by intros [].
Defined.

Definition ZeroPrefix : Prefix := MkPrefix AddrZero (-1).

Definition IsValid (p : Prefix) : bool := 0 <=? p_bits p.

Definition PrefixFrom (a : Addr) (bits : Z) : Prefix :=
  if negb (bool_decide (a = AddrZero)) && (0 <=? bits) && (bits <=? BitLen a)
  then MkPrefix (withoutZone a) bits
  else MkPrefix (withoutZone a) (-1).

(** [mask6]: the [n] leading ones of a word of [w] bits. *)
Definition mask (w n : Z) : Z := Z.shiftl (Z.ones n) (w - n).

(** [Addr.Prefix(bits)]: the address masked to [bits]; [None] when [bits] is
    out of range. *)
Definition addr_Prefix (a : Addr) (bits : Z) : option Prefix :=
  if bits <? 0 then None
  else match a with
  | AddrZero => Some ZeroPrefix
  | Addr4 v => if 32 <? bits then None
               else Some (PrefixFrom (Addr4 (Z.land v (mask 32 bits))) bits)
  | Addr6 v _ => if 128 <? bits then None
                 else Some (PrefixFrom (Addr6 (Z.land v (mask 128 bits)) "") bits)
  end.

Definition Masked (p : Prefix) : Prefix := default ZeroPrefix (addr_Prefix (p_addr p) (p_bits p)).

Definition Overlaps (p o : Prefix) : bool :=
  if negb (IsValid p) || negb (IsValid o) then false
  else if bool_decide (p = o) then true
  else if negb (Bool.eqb (Is4 (p_addr p)) (Is4 (p_addr o))) then false
  else
    let minBits := if p_bits p <? p_bits o then p_bits p else p_bits o in
    if minBits =? 0 then true
    else match addr_Prefix (p_addr p) minBits, addr_Prefix (p_addr o) minBits with
         | Some p', Some o' => bool_decide (p' = o')
         | _, _ => false
         end.

Definition Contains (p : Prefix) (ip : Addr) : bool :=
  if negb (IsValid p) || negb (String.eqb (Zone ip) "") then false
  else
    let f1 := BitLen (p_addr p) in
    let f2 := BitLen ip in
    if (f1 =? 0) || (f2 =? 0) || negb (f1 =? f2) then false
    else if Is4 ip then
      Z.shiftr (Z.lxor (addr_value ip) (addr_value (p_addr p))) (32 - p_bits p) =? 0
    else
      Z.land (Z.lxor (addr_value ip) (addr_value (p_addr p))) (mask 128 (p_bits p)) =? 0.

(** ** Parsing *)

(** [parseIPv4Fields]: four decimal octets; [val] and [digLen] are the octet
    being read, [fs] the octets read so far, most recent first. *)
Fixpoint parse_v4_loop (s : string) (val : Z) (digLen : Z) (fs : list Z) : option (list Z) :=
  match s with
  | EmptyString =>
      if (digLen =? 0) || negb (Z.of_nat (List.length fs) =? 3) then None
      else Some (rev (val :: fs))
  | String c s' =>
      if is_digit c then
        if (digLen =? 1) && (val =? 0) then None
        else
          let val' := val * 10 + (byte_of c - 48) in
          if 255 <? val' then None else parse_v4_loop s' val' (digLen + 1) fs
      else if Ascii.eqb c "." then
        if (digLen =? 0) || (Z.of_nat (List.length fs) =? 3) then None
        else parse_v4_loop s' 0 0 (val :: fs)
      else None
  end.

Definition parse_v4_fields (s : string) : option (list Z) := parse_v4_loop s 0 0 [].

(** Big-endian assembly of digits in base [2^w]. *)
Definition assemble (w : Z) (fs : list Z) : Z := fold_left (fun acc f => acc * 2 ^ w + f) fs 0.

Definition parseIPv4 (s : string) : option Addr :=
  match parse_v4_fields s with Some fs => Some (Addr4 (assemble 8 fs)) | None => None end.

(** The hexadecimal number at the head of [s]: its value, its number of
    digits and the rest; [None] after more than four digits. *)
Fixpoint hex_group (s : string) (off acc : Z) : option (Z * Z * string) :=
  match s with
  | String c s' =>
      match hex_value c with
      | Some d => if 3 <? off then None else hex_group s' (off + 1) (acc * 16 + d)
      | None => Some (acc, off, s)
      end
  | EmptyString => Some (acc, off, s)
  end.

(** The loop of [parseIPv6].  [gs] holds the 16-bit groups read so far, most
    recent first (the Go code counts bytes, [i = 2 * length gs]); [ell] is the
    number of groups before the [::], if one was read.  The result is the
    groups, the position of the ellipsis and the unread text. *)
Fixpoint parse_v6_loop (n : nat) (s : string) (gs : list Z) (ell : option nat)
  : option (list Z * option nat * string) :=
  match n with
  | O => Some (gs, ell, s)
  | S n' =>
      match hex_group s 0 0 with
      | None => None
      | Some (acc, off, rest) =>
          if off =? 0 then None
          else match rest with
          | String "." _ =>
              if bool_decide (ell = None) && negb (bool_decide (List.length gs = 6%nat)) then None
              else if bool_decide (6 < List.length gs)%nat then None
              else match parse_v4_fields s with
                   | Some [a; b; c; d] => Some (c * 256 + d :: a * 256 + b :: gs, ell, ""%string)
                   | _ => None
                   end
          | EmptyString => Some (acc :: gs, ell, ""%string)
          | String ":" (String ":" rest') =>
              match ell with
              | Some _ => None
              | None =>
                  match rest' with
                  | EmptyString => Some (acc :: gs, Some (S (List.length gs)), ""%string)
                  | _ => parse_v6_loop n' rest' (acc :: gs) (Some (S (List.length gs)))
                  end
              end
          | String ":" EmptyString => None
          | String ":" rest' => parse_v6_loop n' rest' (acc :: gs) ell
          | _ => None
          end
      end
  end.

(** Expand the ellipsis of a complete parse to eight groups. *)
Definition expand_v6 (gs : list Z) (ell : option nat) (rest : string) : option (list Z) :=
  match rest with
  | String _ _ => None
  | EmptyString =>
      let fs := rev gs in
      if bool_decide (List.length fs < 8)%nat then
        match ell with
        | None => None
        | Some e => Some (take e fs ++ replicate (8 - List.length fs) 0 ++ drop e fs)
        end
      else match ell with Some _ => None | None => Some fs end
  end.

Definition parse_v6_tail (s : string) (ell : option nat) : option (list Z) :=
  match parse_v6_loop 8 s [] ell with
  | Some (gs, ell', rest) => expand_v6 gs ell' rest
  | None => None
  end.

Definition parse_v6_groups (s : string) : option (list Z) :=
  match s with
  | String ":" (String ":" s') =>
      match s' with
      | EmptyString => Some (replicate 8 0)
      | _ => parse_v6_tail s' (Some O)
      end
  | _ => parse_v6_tail s None
  end.

Definition parseIPv6 (s : string) : option Addr :=
  let '(body, zone) := match cut_byte "%" s with
                       | Some (a, b) => (a, Some b) | None => (s, None) end in
  match zone with
  | Some EmptyString => None
  | _ => match parse_v6_groups body with
         | Some fs => Some (Addr6 (assemble 16 fs) (default ""%string zone))
         | None => None
         end
  end.

(** [ParseAddr]: the first of [.], [:] and [%] in the text decides. *)
Fixpoint parse_addr_kind (s : string) : option ascii :=
  match s with
  | EmptyString => None
  | String c s' =>
      if Ascii.eqb c "." || Ascii.eqb c ":" || Ascii.eqb c "%" then Some c
      else parse_addr_kind s'
  end.

Definition ParseAddr (s : string) : option Addr :=
  match parse_addr_kind s with
  | Some "."%char => parseIPv4 s
  | Some ":"%char => parseIPv6 s
  | _ => None
  end.

(** The prefix length of a CIDR: no sign, no leading zero. *)
Definition parse_bits (s : string) : option Z :=
  match s with
  | String c (String _ _) => if in_range 49 57 (byte_of c) then atoi s else None
  | _ => atoi s
  end.

Definition ParsePrefix (s : string) : option Prefix :=
  match cut_last_byte "/" s with
  | None => None
  | Some (addr, bitsStr) =>
      match ParseAddr addr with
      | None => None
      | Some ip =>
          if Is6 ip && negb (String.eqb (Zone ip) "") then None
          else match parse_bits bitsStr with
               | None => None
               | Some bits =>
                   let maxBits := if Is6 ip then 128 else 32 in
                   if (bits <? 0) || (maxBits <? bits) then None
                   else Some (PrefixFrom ip bits)
               end
      end
  end.

(** [MustParsePrefix] panics on an error; the program applies it to constants. *)
Definition MustParsePrefix (s : string) : Prefix := default ZeroPrefix (ParsePrefix s).

(** ** Printing *)

Definition string4 (v : Z) : string :=
  itoa (v4u8 v 0) +:+ "." +:+ itoa (v4u8 v 1) +:+ "." +:+ itoa (v4u8 v 2) +:+ "." +:+ itoa (v4u8 v 3).

(** Lower-case hexadecimal of a 16-bit group, without leading zeros. *)
Definition hex16 (g : Z) : string :=
  let d i := hex_digit (Z.land (Z.shiftr g (4 * i)) 15) in
  if 4095 <? g then String.string_of_list_ascii [d 3; d 2; d 1; d 0]
  else if 255 <? g then String.string_of_list_ascii [d 2; d 1; d 0]
  else if 15 <? g then String.string_of_list_ascii [d 1; d 0]
  else String.string_of_list_ascii [d 0].

(** The number of leading zero groups. *)
Fixpoint zero_run (gs : list Z) : nat :=
  match gs with
  | g :: gs' => if g =? 0 then S (zero_run gs') else O
  | [] => O
  end.

(** The leftmost longest run of at least two zero groups: start and length.
    [best] is the run found so far. *)
Fixpoint best_run (gs : list Z) (i : nat) (best : nat * nat) : nat * nat :=
  match gs with
  | [] => best
  | _ :: gs' =>
      let l := zero_run gs in
      let best' := if (2 <=? l)%nat && (snd best <? l)%nat then (i, l) else best in
      best_run gs' (S i) best'
  end.

(** The groups separated by colons. *)
Fixpoint join_groups (gs : list Z) : string :=
  match gs with
  | [] => ""
  | [g] => hex16 g
  | g :: gs' => hex16 g +:+ ":" +:+ join_groups gs'
  end.

Definition groups6 (v : Z) : list Z := map (fun i => v6u16 v (Z.of_nat i)) (seq 0 8).

Definition string6 (v : Z) : string :=
  let gs := groups6 v in
  let '(start, l) := best_run gs 0 (0%nat, 0%nat) in
  if (l =? 0)%nat then join_groups gs
  else join_groups (take start gs) +:+ "::" +:+ join_groups (drop (start + l) gs).

Definition zone_suffix (z : string) : string :=
  match z with EmptyString => ""%string | _ => ("%" +:+ z)%string end.

Definition addr_String (a : Addr) : string :=
  match a with
  | AddrZero => "invalid IP"
  | Addr4 v => string4 v
  | Addr6 v z =>
      if Is4In6 a then ("::ffff:" +:+ string4 (Z.land v (Z.ones 32)) +:+ zone_suffix z)%string
      else (string6 v +:+ zone_suffix z)%string
  end.

Definition prefix_String (p : Prefix) : string :=
  if IsValid p then (addr_String (p_addr p) +:+ "/" +:+ itoa (p_bits p))%string
  else "invalid Prefix".

(** ** Well-formed addresses and prefixes

    The values the Go types can hold: a 32-bit or a 128-bit address, and a
    prefix whose address has no zone and whose length fits the address. *)

Definition addr_wf (a : Addr) : Prop := 0 <= addr_value a < 2 ^ BitLen a.

Definition prefix_wf (p : Prefix) : Prop :=
  addr_wf (p_addr p) /\ p_addr p <> AddrZero /\ Zone (p_addr p) = ""%string /\
  0 <= p_bits p <= BitLen (p_addr p).

(** The network number: the leading [p_bits] bits of the address. *)
Definition net (bits : Z) (a : Addr) : Z := Z.shiftr (addr_value a) (BitLen a - bits).

(** The address [v] of the family of [a], without zone. *)
Definition with_value (a : Addr) (v : Z) : Addr :=
  match a with AddrZero => AddrZero | Addr4 _ => Addr4 v | Addr6 _ _ => Addr6 v "" end.

Lemma BitLen_cases a : a <> AddrZero -> BitLen a = 32 \/ BitLen a = 128.
Proof. destruct a; cbn; auto; congruence. Qed.

Lemma BitLen_with_value a v : BitLen (with_value a v) = BitLen a.
Proof. by destruct a. Qed.

Lemma addr_eq a b :
  a <> AddrZero -> Zone a = Zone b -> BitLen a = BitLen b -> addr_value a = addr_value b -> a = b.
Proof. destruct a, b; cbn; congruence. Qed.

(** Masking keeps the leading bits and clears the others. *)
Lemma land_mask w n v :
  0 <= n <= w -> 0 <= v < 2 ^ w -> Z.land v (mask w n) = Z.shiftl (Z.shiftr v (w - n)) (w - n).
Proof.
  intros Hn Hv. apply Z.bits_inj'. intros k Hk. unfold mask.
  rewrite Z.land_spec, !Z.shiftl_spec by lia.
  destruct (Z.lt_ge_cases k (w - n)) as [Hlt|Hge].
  - rewrite (Z.testbit_neg_r _ (k - (w - n))), (Z.testbit_neg_r _ (k - (w - n))) by lia.
    apply andb_false_r.
  - rewrite Z.shiftr_spec by lia. replace (k - (w - n) + (w - n)) with k by lia.
    destruct (Z.lt_ge_cases k w) as [Hkw|Hkw].
    + rewrite Z.ones_spec_low by lia. apply andb_true_r.
    + assert (Z.testbit v k = false) as ->; [|done].
      destruct (Z.eq_dec v 0) as [->|]; [apply Z.bits_0|].
      apply Z.bits_above_log2; [lia|]. apply Z.lt_le_trans with w; [|lia].
      by apply Z.log2_lt_pow2; lia.
Qed.

Lemma shiftl_shiftr_bound w n v :
  0 <= n <= w -> 0 <= v < 2 ^ w -> 0 <= Z.shiftl (Z.shiftr v (w - n)) (w - n) <= v.
Proof.
  intros Hn Hv. rewrite Z.shiftl_mul_pow2, Z.shiftr_div_pow2 by lia.
  assert (0 < 2 ^ (w - n)) by (apply Z.pow_pos_nonneg; lia).
  pose proof (Z.mul_div_le v (2 ^ (w - n))). pose proof (Z.div_pos v (2 ^ (w - n))). nia.
Qed.

Lemma addr_Prefix_eq a n :
  addr_wf a -> a <> AddrZero -> 0 <= n <= BitLen a ->
  addr_Prefix a n = Some (MkPrefix (with_value a (Z.shiftl (net n a) (BitLen a - n))) n).
Proof.
  intros Hwf Hz Hn. unfold addr_Prefix. rewrite (proj2 (Z.ltb_ge n 0)) by lia.
  destruct a as [|v|v z]; [done| |]; cbn [BitLen] in *;
    unfold addr_wf in Hwf; cbn in Hwf; rewrite (proj2 (Z.ltb_ge _ n)) by lia;
    rewrite land_mask by lia; unfold PrefixFrom; cbn [BitLen with_value withoutZone];
    rewrite (proj2 (Z.leb_le 0 n)), (proj2 (Z.leb_le n _)) by lia; done.
Qed.

Lemma Masked_eq p :
  prefix_wf p ->
  Masked p = MkPrefix (with_value (p_addr p)
    (Z.shiftl (net (p_bits p) (p_addr p)) (BitLen (p_addr p) - p_bits p))) (p_bits p).
Proof.
  intros (Hwf & Hz & _ & Hb). unfold Masked. by rewrite addr_Prefix_eq.
Qed.

Lemma shiftr_shiftl_shiftr v k : 0 <= k -> Z.shiftr (Z.shiftl (Z.shiftr v k) k) k = Z.shiftr v k.
Proof. intros Hk. rewrite (Z.shiftr_shiftl_l _ k k) by lia. by rewrite Z.sub_diag, Z.shiftl_0_r. Qed.

Lemma Masked_wf p : prefix_wf p -> prefix_wf (Masked p).
Proof.
  intros Hp. rewrite Masked_eq by done. destruct Hp as (Hwf & Hz & Hzone & Hb).
  unfold prefix_wf, addr_wf, net in *. cbn.
  pose proof (shiftl_shiftr_bound (BitLen (p_addr p)) (p_bits p) (addr_value (p_addr p)) Hb Hwf).
  destruct (p_addr p); cbn in *; repeat split; try lia; congruence.
Qed.

Lemma Masked_idemp p : prefix_wf p -> Masked (Masked p) = Masked p.
Proof.
  intros Hp. rewrite (Masked_eq (Masked p)) by by apply Masked_wf.
  rewrite (Masked_eq p) by done. cbn. destruct Hp as (Hwf & Hz & _ & Hb). f_equal.
  unfold net. rewrite BitLen_with_value. destruct (p_addr p); cbn in *; [done| |];
    by rewrite shiftr_shiftl_shiftr by lia.
Qed.

(** ** Containment and overlap *)

Lemma lxor_shiftr_0 a b k : 0 <= k -> Z.shiftr (Z.lxor a b) k = 0 <-> Z.shiftr a k = Z.shiftr b k.
Proof.
  intros Hk. rewrite Z.shiftr_lxor. split; [apply Z.lxor_eq|intros ->; apply Z.lxor_nilpotent].
Qed.

Lemma lxor_bound w a b : 0 <= w -> 0 <= a < 2 ^ w -> 0 <= b < 2 ^ w -> 0 <= Z.lxor a b < 2 ^ w.
Proof.
  intros Hw Ha Hb. split; [apply Z.lxor_nonneg; lia|].
  destruct (Z.eq_dec (Z.lxor a b) 0) as [->|Hne]; [lia|].
  apply Z.log2_lt_pow2; [pose proof (proj2 (Z.lxor_nonneg a b)); lia|].
  pose proof (Z.log2_lxor a b ltac:(lia) ltac:(lia)).
  assert (forall x, 0 <= x < 2 ^ w -> x <> 0 -> Z.log2 x < w) as Hl.
  { intros x Hx ?. apply Z.log2_lt_pow2; lia. }
  destruct (Z.eq_dec a 0) as [->|], (Z.eq_dec b 0) as [->|].
  - done.
  - rewrite Z.lxor_0_l. auto.
  - rewrite Z.lxor_0_r. auto.
  - pose proof (Hl a Ha). pose proof (Hl b Hb). lia.
Qed.

(** [Contains]: the address is of the prefix's family, has no zone and the
    same leading bits. *)
Lemma Contains_spec p a :
  prefix_wf p -> addr_wf a -> a <> AddrZero ->
  Contains p a = true <->
  Zone a = ""%string /\ BitLen a = BitLen (p_addr p) /\ net (p_bits p) a = net (p_bits p) (p_addr p).
Proof.
  intros (Hwf & Hz & Hzone & Hb) Ha Haz. unfold Contains, IsValid, net.
  rewrite (proj2 (Z.leb_le 0 (p_bits p))) by lia. cbn [negb orb].
  destruct (String.eqb_spec (Zone a) ""); cbn [negb]; [|naive_solver].
  destruct (BitLen_cases _ Hz) as [E1|E1]; destruct (BitLen_cases _ Haz) as [E2|E2];
    rewrite E1, E2; cbn [Z.eqb Pos.eqb orb negb].
  - assert (Is4 a = true) as -> by (by destruct a).
    rewrite Z.eqb_eq. rewrite E1 in Hb. rewrite lxor_shiftr_0 by lia. naive_solver.
  - naive_solver lia.
  - naive_solver lia.
  - assert (Is4 a = false) as -> by (by destruct a). rewrite Z.eqb_eq.
    unfold addr_wf in *. rewrite E1 in *. rewrite E2 in *.
    rewrite land_mask by (try apply lxor_bound; lia).
    rewrite Z.shiftl_eq_0_iff, lxor_shiftr_0 by lia. naive_solver.
Qed.

Lemma with_value_self a : Zone a = ""%string -> with_value a (addr_value a) = a.
Proof. destruct a; cbn; congruence. Qed.

Lemma net_coarser m n v w :
  0 <= m <= n -> n <= w -> Z.shiftr (Z.shiftr v (w - n)) (n - m) = Z.shiftr v (w - m).
Proof. intros. rewrite Z.shiftr_shiftr by lia. f_equal. lia. Qed.

(** [Overlaps] compares the leading bits both prefixes have. *)
Lemma Overlaps_net p o :
  prefix_wf p -> prefix_wf o ->
  Overlaps p o = true <->
  BitLen (p_addr p) = BitLen (p_addr o) /\
  net (Z.min (p_bits p) (p_bits o)) (p_addr p) = net (Z.min (p_bits p) (p_bits o)) (p_addr o).
Proof.
  intros (Hwf & Hz & Hzone & Hb) (Hwf' & Hz' & Hzone' & Hb'). unfold Overlaps, IsValid.
  rewrite !(proj2 (Z.leb_le 0 _)) by lia. cbn [negb orb].
  case_bool_decide as Heq; [naive_solver|].
  assert ((if p_bits p <? p_bits o then p_bits p else p_bits o) = Z.min (p_bits p) (p_bits o))
    as -> by (destruct (Z.ltb_spec (p_bits p) (p_bits o)); lia).
  set (m := Z.min _ _). assert (0 <= m <= BitLen (p_addr p) /\ m <= BitLen (p_addr o)) as [Hm Hm'] by lia.
  assert (Bool.eqb (Is4 (p_addr p)) (Is4 (p_addr o)) = true <-> BitLen (p_addr p) = BitLen (p_addr o)) as HE
    by (destruct (p_addr p), (p_addr o); cbn; split; congruence).
  destruct (Bool.eqb _ _); cbn [negb]; [|naive_solver].
  assert (BitLen (p_addr p) = BitLen (p_addr o)) as HL by naive_solver.
  destruct (Z.eqb_spec m 0) as [Hm0|Hm0].
  - split; [intros _|done]. split; [done|]. unfold net. rewrite Hm0, !Z.sub_0_r, !Z.shiftr_div_pow2 by lia.
    unfold addr_wf in *. by rewrite !Z.div_small by lia.
  - rewrite !addr_Prefix_eq by (done || lia). rewrite bool_decide_eq_true. split.
    + intros [= Hv]. split; [done|]. rewrite HL in Hv. unfold net in *.
      destruct (p_addr p), (p_addr o); cbn in *; try done; injection Hv as Hv;
        (apply (f_equal (fun x => Z.shiftr x (32 - m))) in Hv;
         rewrite !shiftr_shiftl_shiftr in Hv by lia; exact Hv) ||
        (apply (f_equal (fun x => Z.shiftr x (128 - m))) in Hv;
         rewrite !shiftr_shiftl_shiftr in Hv by lia; exact Hv).
    + intros [_ Hn]. rewrite <- HL, Hn. f_equal. destruct (p_addr p), (p_addr o); cbn in *; done || congruence.
Qed.

(** [Overlaps] means what it says: the prefixes share an address. *)
Lemma Overlaps_iff_shared p o :
  prefix_wf p -> prefix_wf o ->
  Overlaps p o = true <->
  exists a, addr_wf a /\ a <> AddrZero /\ Contains p a = true /\ Contains o a = true.
Proof.
  intros Hp Ho. rewrite Overlaps_net by done.
  pose proof Hp as (Hwf & Hz & Hzone & Hb). pose proof Ho as (Hwf' & Hz' & Hzone' & Hb').
  split.
  - intros [HL Hn].
    destruct (Z.le_gt_cases (p_bits p) (p_bits o)) as [Hle|Hgt].
    + exists (p_addr o). rewrite !Contains_spec by done.
      rewrite Z.min_l in Hn by lia. naive_solver.
    + exists (p_addr p). rewrite !Contains_spec by done.
      rewrite Z.min_r in Hn by lia. naive_solver.
  - intros (a & Ha & Haz & H1 & H2). rewrite Contains_spec in H1, H2 by done.
    destruct H1 as (_ & E1 & N1), H2 as (_ & E2 & N2). split; [congruence|].
    set (m := Z.min _ _). unfold net in *. rewrite E1 in N1. rewrite E2 in N2.
    rewrite <- E2, E1, <- (net_coarser m (p_bits p)), <- N1 by lia.
    rewrite (net_coarser m (p_bits p)) by lia.
    rewrite <- E1, E2, <- (net_coarser m (p_bits o) (addr_value (p_addr o))), <- N2 by lia.
    by rewrite (net_coarser m (p_bits o)) by lia.
Qed.

Lemma Contains_self p : prefix_wf p -> Contains p (p_addr p) = true.
Proof. intros Hp. pose proof Hp as (? & ? & ? & ?). apply Contains_spec; naive_solver. Qed.

(** [Masked] does not change what a prefix contains. *)
Lemma Contains_Masked p a :
  prefix_wf p -> addr_wf a -> a <> AddrZero -> Contains (Masked p) a = Contains p a.
Proof.
  intros Hp Ha Haz. apply Bool.eq_iff_eq_true.
  rewrite (Contains_spec (Masked p)), (Contains_spec p) by (done || by apply Masked_wf).
  rewrite Masked_eq by done. destruct Hp as (Hwf & Hz & Hzone & Hb). cbn.
  rewrite BitLen_with_value. unfold net at 2. rewrite BitLen_with_value. unfold net at 2.
  destruct (p_addr p); cbn in *; [done| |]; by rewrite shiftr_shiftl_shiftr by lia.
Qed.
