(* ===== verification/NetIPText.v ===== *)
(** * Parsing what [net/netip] prints

    [ParsePrefix] inverts [prefix_String] on every well-formed prefix the
    program can hold; the proofs for IPv4 enumerate the octets, those for IPv6
    go through the groups and the longest run of zero groups. *)

From S2P Require Export NetIP.

Lemma string_app_assoc (a b c : string) : (a +:+ b) +:+ c = a +:+ (b +:+ c).
Proof. induction a as [|x a IH]; [done|]. exact (f_equal (String x) IH). Qed.

Lemma string_app_nil (a : string) : a +:+ "" = a.
Proof. induction a as [|x a IH]; [done|]. exact (f_equal (String x) IH). Qed.

Lemma string_cons_app c (a b : string) : String c a +:+ b = String c (a +:+ b).
Proof. done. Qed.

(** ** IPv4 *)

Lemma octet_facts o :
  0 <= o < 256 ->
  (forall rest fs, parse_v4_loop (itoa o +:+ rest) 0 0 fs = parse_v4_loop rest o (len (itoa o)) fs) /\
  (forall rest, parse_addr_kind (itoa o +:+ rest) = parse_addr_kind rest) /\
  len (itoa o) <> 0.
Proof.
  intros Ho. assert (Forall (fun o =>
    (forall rest fs, parse_v4_loop (itoa o +:+ rest) 0 0 fs = parse_v4_loop rest o (len (itoa o)) fs) /\
    (forall rest, parse_addr_kind (itoa o +:+ rest) = parse_addr_kind rest) /\
    len (itoa o) <> 0) (seqZ 0 256)) as HF.
  { let l := eval vm_compute in (seqZ 0 256) in change (seqZ 0 256) with l.
    repeat constructor; try (intros; reflexivity); discriminate. }
  rewrite List.Forall_forall in HF. apply HF, list_elem_of_In, elem_of_seqZ. lia.
Qed.

Lemma v4u8_range v i : 0 <= v4u8 v i < 256.
Proof.
  unfold v4u8. change 255 with (Z.ones 8). rewrite Z.land_ones by lia.
  apply Z.mod_pos_bound. lia.
Qed.

Lemma parse_v4_dot rest o d fs :
  d <> 0 -> (List.length fs < 3)%nat ->
  parse_v4_loop ("." +:+ rest) o d fs = parse_v4_loop rest 0 0 (o :: fs).
Proof.
  intros Hd Hl. simpl. rewrite (proj2 (Z.eqb_neq d 0)), (proj2 (Z.eqb_neq _ 3)) by lia. done.
Qed.

Lemma parse_v4_end o d fs :
  d <> 0 -> List.length fs = 3%nat -> parse_v4_loop "" o d fs = Some (rev (o :: fs)).
Proof. intros Hd Hl. simpl. by rewrite (proj2 (Z.eqb_neq d 0)), Hl by lia. Qed.

Lemma parse_v4_fields_string4 v :
  parse_v4_fields (string4 v) = Some [v4u8 v 0; v4u8 v 1; v4u8 v 2; v4u8 v 3].
Proof.
  unfold string4, parse_v4_fields.
  destruct (octet_facts (v4u8 v 0) (v4u8_range _ _)) as (E0 & _ & N0).
  destruct (octet_facts (v4u8 v 1) (v4u8_range _ _)) as (E1 & _ & N1).
  destruct (octet_facts (v4u8 v 2) (v4u8_range _ _)) as (E2 & _ & N2).
  destruct (octet_facts (v4u8 v 3) (v4u8_range _ _)) as (E3 & _ & N3).
  rewrite E0, parse_v4_dot, E1, parse_v4_dot, E2, parse_v4_dot by (done || (cbn; lia)).
  rewrite <- (string_app_nil (itoa (v4u8 v 3))), E3, parse_v4_end by done. done.
Qed.

Lemma assemble_v4 v :
  0 <= v < 2 ^ 32 -> assemble 8 [v4u8 v 0; v4u8 v 1; v4u8 v 2; v4u8 v 3] = v.
Proof.
  intros Hv. unfold assemble, v4u8. cbn [fold_left]. change 255 with (Z.ones 8).
  rewrite !Z.land_ones, !Z.shiftr_div_pow2 by lia.
  change (2 ^ (8 * (3 - 0))) with 16777216. change (2 ^ (8 * (3 - 1))) with 65536.
  change (2 ^ (8 * (3 - 2))) with 256. change (2 ^ (8 * (3 - 3))) with 1.
  change (2 ^ 8) with 256. change (2 ^ 32) with 4294967296 in Hv. Z.div_mod_to_equations. lia.
Qed.

Lemma parseIPv4_string4 v : 0 <= v < 2 ^ 32 -> parseIPv4 (string4 v) = Some (Addr4 v).
Proof. intros Hv. unfold parseIPv4. by rewrite parse_v4_fields_string4, assemble_v4. Qed.

Lemma ParseAddr_string4 v : 0 <= v < 2 ^ 32 -> ParseAddr (string4 v) = Some (Addr4 v).
Proof.
  intros Hv. unfold ParseAddr.
  assert (parse_addr_kind (string4 v) = Some "."%char) as ->; [|by apply parseIPv4_string4].
  unfold string4. destruct (octet_facts (v4u8 v 0) (v4u8_range _ _)) as (_ & -> & _). done.
Qed.

(** ** The groups of an IPv6 address *)

Lemma v6u16_range v i : 0 <= v6u16 v i < 65536.
Proof.
  unfold v6u16. change 65535 with (Z.ones 16). rewrite Z.land_ones by lia.
  apply Z.mod_pos_bound. lia.
Qed.

Lemma groups6_range v : Forall (fun g => 0 <= g < 65536) (groups6 v).
Proof. unfold groups6. apply Forall_map, List.Forall_forall. intros i _. apply v6u16_range. Qed.

Lemma length_groups6 v : List.length (groups6 v) = 8%nat.
Proof. done. Qed.

Lemma assemble_groups6 v : 0 <= v < 2 ^ 128 -> assemble 16 (groups6 v) = v.
Proof.
  intros Hv. unfold groups6, assemble. cbn [seq map fold_left]. unfold v6u16.
  change 65535 with (Z.ones 16). rewrite !Z.land_ones, !Z.shiftr_div_pow2 by lia.
  change (2 ^ 16) with 65536. change (Z.of_nat 0) with 0. change (Z.of_nat 7) with 7.
  change (16 * (7 - 7)) with 0. change (16 * (7 - 0)) with (96 + 16).
  change (16 * (7 - Z.of_nat 1)) with (80 + 16). change (16 * (7 - Z.of_nat 2)) with (64 + 16).
  change (16 * (7 - Z.of_nat 3)) with (48 + 16). change (16 * (7 - Z.of_nat 4)) with (32 + 16).
  change (16 * (7 - Z.of_nat 5)) with (16 + 16). change (16 * (7 - Z.of_nat 6)) with (0 + 16).
  rewrite Z.pow_0_r, Z.div_1_r.
  assert (forall k, 0 <= k -> v / 2 ^ (k + 16) = v / 2 ^ k / 65536) as Hd.
  { intros k Hk. by rewrite Z.pow_add_r, Z.div_div by lia. }
  rewrite (Hd 96), (Hd 80), (Hd 64), (Hd 48), (Hd 32), (Hd 16), (Hd 0) by lia.
  change 96 with (80 + 16). rewrite Hd by lia. change 80 with (64 + 16). rewrite Hd by lia.
  change 64 with (48 + 16). rewrite Hd by lia. change 48 with (32 + 16). rewrite Hd by lia.
  change 32 with (16 + 16). rewrite Hd by lia. change 16 with (0 + 16) at 1 2 3 4 5 6. rewrite Hd by lia.
  rewrite Z.pow_0_r, Z.div_1_r. change (2 ^ 128) with 340282366920938463463374607431768211456 in Hv.
  Z.div_mod_to_equations. lia.
Qed.

(** ** Hexadecimal groups *)

Lemma hex_digit_facts d :
  0 <= d < 16 ->
  hex_value (hex_digit d) = Some d /\ Ascii.eqb (hex_digit d) "."%char = false /\
  Ascii.eqb (hex_digit d) ":"%char = false /\ Ascii.eqb (hex_digit d) "%"%char = false.
Proof.
  intros Hd. assert (List.Forall (fun d => hex_value (hex_digit d) = Some d /\
    Ascii.eqb (hex_digit d) "."%char = false /\ Ascii.eqb (hex_digit d) ":"%char = false /\
    Ascii.eqb (hex_digit d) "%"%char = false) (seqZ 0 16)) as HF.
  { let l := eval vm_compute in (seqZ 0 16) in change (seqZ 0 16) with l.
    repeat constructor. }
  rewrite List.Forall_forall in HF. apply HF, list_elem_of_In, elem_of_seqZ. lia.
Qed.

(** The text that may follow a group: its end, or a colon. *)
Definition group_end (rest : string) : Prop :=
  rest = ""%string \/ exists t, rest = (":" +:+ t)%string.

Lemma hex_group_end rest off acc : group_end rest -> hex_group rest off acc = Some (acc, off, rest).
Proof. by intros [->|[t ->]]. Qed.

Lemma hex_group_digit d s off acc :
  0 <= d < 16 -> off <= 3 ->
  hex_group (String (hex_digit d) s) off acc = hex_group s (off + 1) (acc * 16 + d).
Proof.
  intros Hd Ho. cbn. destruct (hex_digit_facts d Hd) as [-> _].
  by rewrite (proj2 (Z.ltb_ge 3 off)).
Qed.

Lemma nibble_range g i : 0 <= Z.land (Z.shiftr g (4 * i)) 15 < 16.
Proof. change 15 with (Z.ones 4). rewrite Z.land_ones by lia. apply Z.mod_pos_bound. lia. Qed.

Lemma nibbles g :
  0 <= g < 65536 ->
  g = ((Z.land (Z.shiftr g (4 * 3)) 15 * 16 + Z.land (Z.shiftr g (4 * 2)) 15) * 16 +
       Z.land (Z.shiftr g (4 * 1)) 15) * 16 + Z.land (Z.shiftr g (4 * 0)) 15.
Proof.
  intros Hg. change 15 with (Z.ones 4). rewrite !Z.land_ones, !Z.shiftr_div_pow2 by lia.
  change (2 ^ (4 * 3)) with 4096. change (2 ^ (4 * 2)) with 256.
  change (2 ^ (4 * 1)) with 16. change (2 ^ (4 * 0)) with 1. change (2 ^ 4) with 16.
  Z.div_mod_to_equations. lia.
Qed.

Lemma hex_group_hex16 g rest :
  0 <= g < 65536 -> group_end rest ->
  exists off, off <> 0 /\ hex_group (hex16 g +:+ rest) 0 0 = Some (g, off, rest).
Proof.
  intros Hg Hr. pose proof (nibbles g Hg) as Hn.
  pose proof (nibble_range g 3) as H3. pose proof (nibble_range g 2) as H2.
  pose proof (nibble_range g 1) as H1. pose proof (nibble_range g 0) as H0.
  unfold hex16. set (d3 := Z.land (Z.shiftr g (4 * 3)) 15) in *.
  set (d2 := Z.land (Z.shiftr g (4 * 2)) 15) in *. set (d1 := Z.land (Z.shiftr g (4 * 1)) 15) in *.
  set (d0 := Z.land (Z.shiftr g (4 * 0)) 15) in *. clearbody d0 d1 d2 d3.
  destruct (Z.ltb_spec 4095 g); [|destruct (Z.ltb_spec 255 g); [|destruct (Z.ltb_spec 15 g)]].
  - exists 4. split; [done|]. cbn [String.string_of_list_ascii].
    rewrite !string_cons_app, !hex_group_digit, hex_group_end by (done || lia).
    do 3 f_equal. lia.
  - exists 3. split; [done|]. cbn [String.string_of_list_ascii].
    rewrite !string_cons_app, !hex_group_digit, hex_group_end by (done || lia).
    do 3 f_equal. lia.
  - exists 2. split; [done|]. cbn [String.string_of_list_ascii].
    rewrite !string_cons_app, !hex_group_digit, hex_group_end by (done || lia).
    do 3 f_equal. lia.
  - exists 1. split; [done|]. cbn [String.string_of_list_ascii].
    rewrite !string_cons_app, !hex_group_digit, hex_group_end by (done || lia).
    do 3 f_equal. lia.
Qed.

(** A printed group starts with a hexadecimal digit. *)
Lemma hex16_head g : exists d s, 0 <= d < 16 /\ hex16 g = String (hex_digit d) s.
Proof.
  unfold hex16. destruct (4095 <? g); [|destruct (255 <? g); [|destruct (15 <? g)]];
    simpl; eexists _, _; (split; [|done]); apply nibble_range.
Qed.

Lemma hex_digit_not_special d c :
  0 <= d < 16 -> c = "."%char \/ c = ":"%char \/ c = "%"%char -> hex_digit d <> c.
Proof.
  intros Hd Hc Heq. destruct (hex_digit_facts d Hd) as (_ & H1 & H2 & H3).
  destruct Hc as [->|[->| ->]]; rewrite Heq in *; done.
Qed.

(** ** The loop of [parseIPv6] on printed groups *)

Lemma parse_v6_last n g gs ell :
  0 <= g < 65536 -> parse_v6_loop (S n) (hex16 g) gs ell = Some (g :: gs, ell, ""%string).
Proof.
  intros Hg. destruct (hex_group_hex16 g "" Hg (or_introl eq_refl)) as (off & Ho & E).
  rewrite string_app_nil in E. cbn [parse_v6_loop]. rewrite E.
  by rewrite (proj2 (Z.eqb_neq off 0)).
Qed.

Lemma parse_v6_colon n g c s gs ell :
  0 <= g < 65536 -> c <> ":"%char ->
  parse_v6_loop (S n) (hex16 g +:+ ":" +:+ String c s) gs ell
  = parse_v6_loop n (String c s) (g :: gs) ell.
Proof.
  intros Hg Hc. destruct (hex_group_hex16 g (":" +:+ String c s) Hg) as (off & Ho & E);
    [by right; eexists|]. cbn [parse_v6_loop]. rewrite E, (proj2 (Z.eqb_neq off 0)) by done.
  simpl. destruct c as [[] [] [] [] [] [] [] []]; done.
Qed.

Lemma parse_v6_ellipsis n g s gs :
  0 <= g < 65536 ->
  parse_v6_loop (S n) (hex16 g +:+ "::" +:+ s) gs None =
  match s with
  | EmptyString => Some (g :: gs, Some (S (List.length gs)), ""%string)
  | _ => parse_v6_loop n s (g :: gs) (Some (S (List.length gs)))
  end.
Proof.
  intros Hg. destruct (hex_group_hex16 g ("::" +:+ s) Hg) as (off & Ho & E);
    [by right; exists (":" +:+ s)%string|]. cbn [parse_v6_loop]. rewrite E, (proj2 (Z.eqb_neq off 0)) by done.
  done.
Qed.

Definition groups_ok (gs : list Z) : Prop := List.Forall (fun g => 0 <= g < 65536) gs.

Lemma join_groups_head g l t :
  exists c s, join_groups (g :: l) +:+ t = String c s /\ c <> ":"%char /\ c <> "."%char /\ c <> "%"%char.
Proof.
  destruct (hex16_head g) as (d & s & Hd & E).
  exists (hex_digit d), (match l with [] => s | _ => s +:+ ":" +:+ join_groups l end +:+ t)%string.
  split.
  - cbn [join_groups]. rewrite E. by destruct l.
  - repeat split; apply hex_digit_not_special; auto.
Qed.

Lemma parse_v6_join l n gs ell :
  l <> [] -> groups_ok l -> (List.length l <= n)%nat ->
  parse_v6_loop n (join_groups l) gs ell = Some (rev l ++ gs, ell, ""%string).
Proof.
  revert n gs. induction l as [|g l IH]; intros n gs Hl Hok Hn; [done|].
  apply List.Forall_cons_iff in Hok as [Hg Hok]. destruct n as [|n]; [cbn in Hn; lia|].
  destruct l as [|h l].
  - by apply parse_v6_last.
  - change (join_groups (g :: h :: l)) with (hex16 g +:+ ":" +:+ join_groups (h :: l)).
    destruct (join_groups_head h l "") as (c & s & E & Hc & _). rewrite string_app_nil in E.
    rewrite E, parse_v6_colon, <- E, IH by (done || (cbn in *; lia)).
    cbn [rev]. by rewrite <- !app_assoc.
Qed.

Lemma parse_v6_join_ellipsis l n gs s :
  l <> [] -> groups_ok l -> (List.length l <= n)%nat ->
  parse_v6_loop n (join_groups l +:+ "::" +:+ s) gs None =
  match s with
  | EmptyString => Some (rev l ++ gs, Some (List.length gs + List.length l)%nat, ""%string)
  | _ => parse_v6_loop (n - List.length l) s (rev l ++ gs) (Some (List.length gs + List.length l)%nat)
  end.
Proof.
  revert n gs. induction l as [|g l IH]; intros n gs Hl Hok Hn; [done|].
  apply List.Forall_cons_iff in Hok as [Hg Hok]. destruct n as [|n]; [cbn in Hn; lia|].
  destruct l as [|h l].
  - cbn [join_groups rev List.length app]. rewrite parse_v6_ellipsis by done.
    rewrite Nat.add_1_r. cbn [Nat.sub]. by rewrite Nat.sub_0_r.
  - change (join_groups (g :: h :: l)) with (hex16 g +:+ ":" +:+ join_groups (h :: l)).
    rewrite !string_app_assoc.
    destruct (join_groups_head h l ("::" +:+ s)) as (c & s' & E & Hc & _).
    rewrite E, parse_v6_colon, <- E, IH by (done || (cbn in *; lia)).
    replace (List.length (g :: gs) + List.length (h :: l))%nat
      with (List.length gs + List.length (g :: h :: l))%nat by (cbn; lia).
    change (S n - List.length (g :: h :: l))%nat with (n - List.length (h :: l))%nat.
    cbn [rev]. by rewrite <- !app_assoc.
Qed.

(** ** The run of zero groups that [string6] leaves out *)

Lemma zero_run_spec gs :
  (zero_run gs <= List.length gs)%nat /\ take (zero_run gs) gs = replicate (zero_run gs) 0.
Proof.
  induction gs as [|g gs IH]; cbn; [done|]. destruct (Z.eqb_spec g 0) as [->|]; cbn.
  - destruct IH as [H1 H2]. split; [lia|]. by f_equal.
  - split; [lia|done].
Qed.

Definition run_ok (all : list Z) (b : nat * nat) : Prop :=
  (b.1 + b.2 <= List.length all)%nat /\ take b.2 (drop b.1 all) = replicate b.2 0.

Lemma best_run_ok all i best :
  run_ok all best -> run_ok all (best_run (drop i all) i best).
Proof.
  intros Hb. remember (drop i all) as gs eqn:E. revert i best Hb E.
  induction gs as [|g gs IH]; intros i best Hb E; cbn [best_run]; [done|].
  assert (gs = drop (S i) all) as E'.
  { rewrite <- Nat.add_1_r, <- drop_drop, <- E. done. }
  apply IH; [|done]. destruct (_ && _); [|done].
  destruct (zero_run_spec (g :: gs)) as [H1 H2]. split; cbn [fst snd].
  - apply (f_equal (@List.length _)) in E. rewrite length_drop in E. cbn [List.length] in *. lia.
  - by rewrite <- E.
Qed.

Lemma run_ok_split all b :
  run_ok all b -> all = take b.1 all ++ replicate b.2 0 ++ drop (b.1 + b.2) all.
Proof.
  intros [H1 H2]. rewrite <- H2, <- drop_drop, (take_drop b.2 (drop b.1 all)). by rewrite take_drop.
Qed.

(** ** IPv6 round trip *)

Lemma expand_v6_eq fs ell : (List.length fs = 8 -> ell = None)%nat -> (List.length fs <= 8)%nat ->
  expand_v6 (rev fs) ell "" =
  match ell with
  | None => if bool_decide (List.length fs < 8)%nat then None else Some fs
  | Some e => Some (take e fs ++ replicate (8 - List.length fs) 0 ++ drop e fs)
  end.
Proof.
  intros H1 H2. unfold expand_v6. rewrite rev_involutive.
  case_bool_decide; destruct ell; try done. assert (List.length fs = 8)%nat by lia.
  by specialize (H1 H0).
Qed.

Lemma parse_v6_groups_default s c t :
  s = String c t -> c <> ":"%char ->
  parse_v6_groups s = parse_v6_tail s None.
Proof.
  intros -> Hc. unfold parse_v6_groups. destruct c as [[] [] [] [] [] [] [] []]; done.
Qed.

Lemma groups_ok_take n l : groups_ok l -> groups_ok (take n l).
Proof. apply Forall_take. Qed.

Lemma groups_ok_drop n l : groups_ok l -> groups_ok (drop n l).
Proof. apply Forall_drop. Qed.

Lemma parse_v6_groups_compressed l b :
  groups_ok l -> List.length l = 8%nat -> run_ok l b -> b.2 <> 0%nat ->
  parse_v6_groups (join_groups (take b.1 l) +:+ "::" +:+ join_groups (drop (b.1 + b.2) l)) = Some l.
Proof.
  intros Hok Hl Hrun Hb. pose proof (run_ok_split l b Hrun) as Hsplit.
  destruct Hrun as [Hlen _]. destruct b as [st k]. cbn [fst snd] in *.
  assert (List.length (take st l) = st /\ List.length (drop (st + k) l) = (8 - (st + k))%nat) as [HA HB]
    by (rewrite length_take, length_drop; lia).
  assert (groups_ok (take st l) /\ groups_ok (drop (st + k) l)) as [HokA HokB]
    by (split; [by apply groups_ok_take|by apply groups_ok_drop]).
  revert Hsplit HA HB HokA HokB. generalize (take st l) as A, (drop (st + k) l) as B.
  intros A B Hsplit HA HB HokA HokB.
  assert (forall fs, fs = A ++ B -> take st fs ++ replicate (8 - List.length fs) 0 ++ drop st fs = l) as Hex.
  { intros fs ->. rewrite take_app_le, take_ge, drop_app_ge by lia.
    rewrite length_app, HA, HB, Nat.sub_diag, drop_0, Hsplit. do 3 f_equal. lia. }
  destruct A as [|a A].
  - cbn [join_groups]. change ("" +:+ "::" +:+ ?x)%string with ("::" +:+ x)%string.
    assert (st = 0%nat) as -> by done.
    destruct B as [|b B].
    + assert (k = 8)%nat as -> by (cbn in HB; lia). by rewrite Hsplit.
    + destruct (join_groups_head b B "") as (c & s & E & _). rewrite string_app_nil in E.
      transitivity (parse_v6_tail (join_groups (b :: B)) (Some 0%nat)); [by rewrite E|].
      unfold parse_v6_tail. rewrite parse_v6_join by (done || lia). rewrite app_nil_r, expand_v6_eq by lia.
      f_equal. by apply (Hex (b :: B)).
  - destruct (join_groups_head a A ("::" +:+ join_groups B)) as (c & s & E & Hc & _).
    rewrite (parse_v6_groups_default _ c s) by done. unfold parse_v6_tail.
    rewrite parse_v6_join_ellipsis by (done || (cbn in *; lia)). rewrite app_nil_r, Nat.add_0_l.
    destruct B as [|b B].
    + cbn [join_groups]. rewrite expand_v6_eq by (cbn in *; lia). f_equal.
      rewrite <- (Hex (a :: A)) by by rewrite app_nil_r. by rewrite HA.
    + destruct (join_groups_head b B "") as (c' & s' & E' & _). rewrite string_app_nil in E'.
      rewrite E', <- E', parse_v6_join by (done || (cbn in *; lia)).
      rewrite <- rev_app_distr, expand_v6_eq by (rewrite length_app; cbn in *; lia).
      f_equal. rewrite HA. by apply Hex.
Qed.

Lemma parse_v6_groups_string6 v : parse_v6_groups (string6 v) = Some (groups6 v).
Proof.
  unfold string6. pose proof (best_run_ok (groups6 v) 0 (0, 0)%nat) as Hrun.
  rewrite drop_0 in Hrun. specialize (Hrun ltac:(split; cbn; [lia|done])).
  assert (groups_ok (groups6 v)) as Hok by apply groups6_range.
  destruct (best_run _ _ _) as [st k] eqn:Eb. destruct (Nat.eqb_spec k 0) as [->|Hk].
  - destruct (join_groups_head (v6u16 v 0) (tail (groups6 v)) "") as (c & s & E & Hc & _).
    rewrite string_app_nil in E. rewrite (parse_v6_groups_default _ c s) by done. unfold parse_v6_tail.
    rewrite parse_v6_join by (done || rewrite length_groups6; lia).
    rewrite app_nil_r, expand_v6_eq by (rewrite length_groups6; done || lia). done.
  - by apply (parse_v6_groups_compressed (groups6 v) (st, k)).
Qed.

(** ** Whole addresses and prefixes *)

Definition plain (c : ascii) : bool :=
  negb (Ascii.eqb c "."%char || Ascii.eqb c ":"%char || Ascii.eqb c "%"%char).

Definition no_zone (c : ascii) : bool := negb (Ascii.eqb c "%"%char).

Lemma all_chars_impl (p q : ascii -> bool) s :
  (forall c, p c = true -> q c = true) -> all_chars p s = true -> all_chars q s = true.
Proof.
  intros H. induction s as [|c s IH]; cbn; [done|].
  intros [H1 H2]%andb_true_iff. by rewrite (H c H1), IH.
Qed.

Lemma hex16_plain g : all_chars plain (hex16 g) = true.
Proof.
  assert (forall i, plain (hex_digit (Z.land (Z.shiftr g (4 * i)) 15)) = true) as Hp.
  { intros i. destruct (hex_digit_facts _ (nibble_range g i)) as (_ & H1 & H2 & H3).
    unfold plain. by rewrite H1, H2, H3. }
  unfold hex16. destruct (4095 <? g); [|destruct (255 <? g); [|destruct (15 <? g)]];
    cbn [String.string_of_list_ascii all_chars]; by rewrite !Hp.
Qed.

Lemma parse_addr_kind_plain s rest :
  all_chars plain s = true -> parse_addr_kind (s +:+ rest) = parse_addr_kind rest.
Proof.
  induction s as [|c s IH]; [done|]. cbn [all_chars]. intros [H1 H2]%andb_true_iff.
  apply negb_true_iff in H1. rewrite string_cons_app. cbn [parse_addr_kind]. rewrite H1. auto.
Qed.

Lemma join_groups_no_zone l : all_chars no_zone (join_groups l) = true.
Proof.
  assert (forall g, all_chars no_zone (hex16 g) = true) as Hh.
  { intros g. eapply all_chars_impl, hex16_plain. unfold plain, no_zone. intros c.
    rewrite !negb_true_iff, !orb_false_iff. naive_solver. }
  induction l as [|g l IH]; [done|]. destruct l as [|h l]; [apply Hh|].
  change (join_groups (g :: h :: l)) with (hex16 g +:+ ":" +:+ join_groups (h :: l)).
  by rewrite !all_chars_app, Hh, IH.
Qed.

Lemma string6_facts v :
  parse_addr_kind (string6 v) = Some ":"%char /\ cut_byte "%" (string6 v) = None.
Proof.
  unfold string6. destruct (best_run _ _ _) as [st k]. destruct (k =? 0)%nat.
  - split; [|apply cut_byte_none, join_groups_no_zone].
    change (join_groups (groups6 v))
      with (hex16 (v6u16 v 0) +:+ ":" +:+ join_groups (tail (groups6 v))).
    by rewrite parse_addr_kind_plain by apply hex16_plain.
  - split.
    + destruct (take st (groups6 v)) as [|g [|h l]]; [done| |].
      * by rewrite parse_addr_kind_plain by apply hex16_plain.
      * change (join_groups (g :: h :: l)) with (hex16 g +:+ ":" +:+ join_groups (h :: l)).
        by rewrite string_app_assoc, parse_addr_kind_plain by apply hex16_plain.
    + apply cut_byte_none. change (all_chars no_zone (join_groups (take st (groups6 v)) +:+ "::" +:+
        join_groups (drop (st + k) (groups6 v))) = true).
      by rewrite !all_chars_app, !join_groups_no_zone.
Qed.

Lemma ParseAddr_string6 v : 0 <= v < 2 ^ 128 -> ParseAddr (string6 v) = Some (Addr6 v "").
Proof.
  intros Hv. destruct (string6_facts v) as [E1 E2]. unfold ParseAddr. rewrite E1.
  unfold parseIPv6. by rewrite E2, parse_v6_groups_string6, assemble_groups6.
Qed.

(** The zoneless addresses that [addr_String] prints in their own family. *)
Lemma ParseAddr_String a :
  addr_wf a -> a <> AddrZero -> Zone a = ""%string -> Is4In6 a = false ->
  ParseAddr (addr_String a) = Some a.
Proof.
  intros Hwf Hz Hzone H46. destruct a as [|v|v z]; [done|by apply ParseAddr_string4|].
  cbn [Zone] in Hzone. subst z. unfold addr_String. rewrite H46. cbn [zone_suffix].
  rewrite string_app_nil. by apply ParseAddr_string6.
Qed.

Lemma bits_text b :
  0 <= b <= 128 ->
  parse_bits (itoa b) = Some b /\ all_chars (fun d => negb (Ascii.eqb d "/"%char)) (itoa b) = true.
Proof.
  intros Hb. assert (List.Forall (fun b => parse_bits (itoa b) = Some b /\
    all_chars (fun d => negb (Ascii.eqb d "/"%char)) (itoa b) = true) (seqZ 0 129)) as HF.
  { let l := eval vm_compute in (seqZ 0 129) in change (seqZ 0 129) with l. repeat constructor. }
  rewrite List.Forall_forall in HF. apply HF, list_elem_of_In, elem_of_seqZ. lia.
Qed.

Lemma ParsePrefix_String p :
  prefix_wf p -> Is4In6 (p_addr p) = false -> ParsePrefix (prefix_String p) = Some p.
Proof.
  intros (Hwf & Hz & Hzone & Hb) H46. unfold prefix_String, IsValid.
  rewrite (proj2 (Z.leb_le 0 (p_bits p))) by lia.
  assert (0 <= p_bits p <= 128) as Hb' by (destruct (BitLen_cases _ Hz); lia).
  destruct (bits_text _ Hb') as [E1 E2]. unfold ParsePrefix.
  change ("/" +:+ itoa (p_bits p)) with (String "/" (itoa (p_bits p))).
  rewrite cut_last_byte_app, ParseAddr_String by done.
  rewrite Hzone, String.eqb_refl, andb_false_r, E1.
  assert ((if Is6 (p_addr p) then 128 else 32) = BitLen (p_addr p)) as -> by (by destruct (p_addr p)).
  rewrite (proj2 (Z.ltb_ge _ _)), (proj2 (Z.ltb_ge _ _)) by lia. cbn [orb]. unfold PrefixFrom.
  rewrite bool_decide_eq_false_2 by done.
  rewrite !(proj2 (Z.leb_le _ _)) by lia. cbn [negb andb].
  destruct p as [[|v|v z] b]; cbn in *; congruence.
Qed.

(** ** Parsing only yields well-formed values *)

Definition digits_ok (b : Z) (fs : list Z) : Prop := List.Forall (fun f => 0 <= f < b) fs.

Lemma assemble_snoc w fs g : assemble w (fs ++ [g]) = assemble w fs * 2 ^ w + g.
Proof. unfold assemble. by rewrite fold_left_app. Qed.

Lemma assemble_bound w fs :
  0 <= w -> digits_ok (2 ^ w) fs -> 0 <= assemble w fs < 2 ^ (w * Z.of_nat (List.length fs)).
Proof.
  intros Hw. induction fs as [|f fs IH] using rev_ind; intros Hok.
  - cbn. by rewrite Z.mul_0_r.
  - apply List.Forall_app in Hok as [Hok Hf]. apply List.Forall_cons_iff in Hf as [Hf _].
    specialize (IH Hok). rewrite assemble_snoc, length_app. cbn [List.length].
    replace (w * Z.of_nat (List.length fs + 1)) with (w * Z.of_nat (List.length fs) + w) by lia.
    rewrite Z.pow_add_r by lia. nia.
Qed.

Lemma digits_ok_rev b fs : digits_ok b fs -> digits_ok b (rev fs).
Proof. apply List.Forall_rev. Qed.

Lemma parse_v4_loop_ok s val d fs r :
  digits_ok 256 fs -> 0 <= val < 256 -> parse_v4_loop s val d fs = Some r ->
  digits_ok 256 r /\ List.length r = 4%nat.
Proof.
  revert val d fs. induction s as [|c s IH]; intros val d fs Hfs Hv; cbn [parse_v4_loop].
  - destruct (_ || _) eqn:E; intros [= <-]. to_prop. split.
    + apply (digits_ok_rev _ (val :: fs)). by constructor.
    + rewrite length_app, length_rev. cbn [List.length]. lia.
  - destruct (is_digit c) eqn:Ed.
    + destruct (_ && _); [done|]. destruct (Z.ltb_spec 255 (val * 10 + (byte_of c - 48))); [done|].
      apply IH; [done|]. unfold is_digit, in_range in Ed. to_prop. lia.
    + destruct (Ascii.eqb c "."); [|done]. destruct (_ || _); [done|].
      apply IH; [by constructor|lia].
Qed.

Lemma hex_value_range c d : hex_value c = Some d -> 0 <= d < 16.
Proof.
  unfold hex_value, in_range. intros H. repeat (break_in H; [to_prop; injection H; lia|]). done.
Qed.

Lemma hex_group_ok s off acc a o r :
  0 <= off -> 0 <= acc < 16 ^ off -> off <= 4 -> hex_group s off acc = Some (a, o, r) ->
  0 <= a < 65536.
Proof.
  revert off acc. induction s as [|c s IH]; intros off acc Ho Ha Ho4; cbn [hex_group].
  - intros [= <- <- <-]. pose proof (Z.pow_le_mono_r 16 off 4). lia.
  - destruct (hex_value c) as [d|] eqn:E.
    + destruct (Z.ltb_spec 3 off); [done|]. apply hex_value_range in E. apply IH; try lia.
      rewrite Z.pow_add_r by lia. lia.
    + intros [= <- <- <-]. pose proof (Z.pow_le_mono_r 16 off 4). lia.
Qed.

Lemma parse_v6_loop_ok n s gs ell gs' ell' rest :
  digits_ok 65536 gs -> (n + List.length gs <= 8)%nat ->
  parse_v6_loop n s gs ell = Some (gs', ell', rest) ->
  digits_ok 65536 gs' /\ (List.length gs' <= 8)%nat.
Proof.
  revert s gs ell. induction n as [|n IH]; intros s gs ell Hgs Hn; cbn [parse_v6_loop].
  - intros [= <- <- <-]. split; [done|lia].
  - destruct (hex_group s 0 0) as [[[acc off] r]|] eqn:E; [|done].
    apply hex_group_ok in E; [|lia..]. destruct (off =? 0); [done|].
    assert (digits_ok 65536 (acc :: gs)) as Hacc by by constructor.
    assert (n + List.length (acc :: gs) <= 8)%nat as Hn' by (cbn; lia).
    intros H. repeat break_in H; try done; try (by eapply IH in H);
      injection H as <- <- <-; try (split; [done|cbn in *; lia]).
    to_prop. match goal with H : parse_v4_fields _ = _ |- _ =>
      apply parse_v4_loop_ok in H as [H4 _]; [|by constructor|lia] end.
    unfold digits_ok in *. repeat match goal with H : List.Forall _ (_ :: _) |- _ =>
      apply List.Forall_cons_iff in H as [? H] end.
    split; [|cbn in *; lia]. do 2 (apply List.Forall_cons; [lia|]). done.
Qed.

Lemma expand_v6_ok gs ell rest fs :
  digits_ok 65536 gs -> (List.length gs <= 8)%nat ->
  (forall e, ell = Some e -> e <= List.length gs)%nat ->
  expand_v6 gs ell rest = Some fs -> digits_ok 65536 fs /\ List.length fs = 8%nat.
Proof.
  intros Hgs Hl He. unfold expand_v6. destruct rest; [|done].
  apply digits_ok_rev in Hgs. rewrite <- length_rev in Hl. rewrite <- length_rev in He.
  case_bool_decide; destruct ell as [e|]; intros [= <-].
  - split.
    + apply List.Forall_app; split; [by apply Forall_take|].
      apply List.Forall_app; split; [|by apply Forall_drop].
      apply List.Forall_forall. intros x Hx. apply list_elem_of_In, elem_of_replicate in Hx. lia.
    + rewrite !length_app, length_replicate, length_take, length_drop.
      specialize (He e eq_refl). lia.
  - split; [done|lia].
Qed.

Lemma parse_v6_loop_ell n s gs ell gs' ell' rest :
  (forall e, ell = Some e -> e <= List.length gs)%nat ->
  parse_v6_loop n s gs ell = Some (gs', ell', rest) ->
  (forall e, ell' = Some e -> e <= List.length gs')%nat.
Proof.
  revert s gs ell. induction n as [|n IH]; intros s gs ell He; cbn [parse_v6_loop].
  - by intros [= <- <- <-].
  - destruct (hex_group s 0 0) as [[[acc off] r]|]; [|done]. destruct (off =? 0); [done|].
    assert (forall e, ell = Some e -> e <= List.length (acc :: gs))%nat as He'
      by (intros e Hell; specialize (He e Hell); cbn; lia).
    assert (forall e, Some (S (List.length gs)) = Some e -> e <= List.length (acc :: gs))%nat as He''
      by (intros e [= <-]; cbn; lia).
    intros H. repeat break_in H; try done;
      try (eapply IH; [|exact H]; done);
      injection H as <- <- <-; try done. intros e' Hell. specialize (He e' Hell). cbn. lia.
Qed.

Lemma parse_v6_tail_ok s ell fs :
  (forall e : nat, ell = Some e -> e = O) ->
  parse_v6_tail s ell = Some fs -> digits_ok 65536 fs /\ List.length fs = 8%nat.
Proof.
  unfold parse_v6_tail. intros Hell H.
  destruct (parse_v6_loop 8 s [] ell) as [[[gs ell'] rest]|] eqn:E; [|done].
  assert (digits_ok 65536 gs /\ (List.length gs <= 8)%nat) as [H1 H2]
    by (eapply parse_v6_loop_ok; [| |exact E]; [constructor|cbn; lia]).
  eapply expand_v6_ok; [exact H1|exact H2| |exact H].
  eapply parse_v6_loop_ell; [|exact E]. intros e ->%Hell. cbn. lia.
Qed.

Lemma parse_v6_groups_cases s :
  parse_v6_groups s = parse_v6_tail s None \/
  parse_v6_groups s = Some (replicate 8 0) \/
  exists s', parse_v6_groups s = parse_v6_tail s' (Some O).
Proof.
  destruct s as [|c s]; [by left|].
  destruct (Ascii.eqb_spec c ":"%char) as [->|Hc];
    [|left; by apply (parse_v6_groups_default _ c s)].
  destruct s as [|c s]; [by left|].
  destruct (Ascii.eqb_spec c ":"%char) as [->|Hc].
  - destruct s as [|c s]; [by right; left|]. right. right. by exists (String c s).
  - left. cbn. destruct c as [[] [] [] [] [] [] [] []]; done.
Qed.

Lemma parse_v6_groups_ok s fs :
  parse_v6_groups s = Some fs -> digits_ok 65536 fs /\ List.length fs = 8%nat.
Proof.
  destruct (parse_v6_groups_cases s) as [->|[->|[s' ->]]].
  - by apply parse_v6_tail_ok.
  - intros [= <-]. split; [|done]. apply (Forall_replicate (fun f => 0 <= f < 65536) 8 0). lia.
  - apply parse_v6_tail_ok. by intros e [= <-].
Qed.

Lemma ParseAddr_wf s a : ParseAddr s = Some a -> addr_wf a /\ a <> AddrZero.
Proof.
  unfold ParseAddr. intros H. destruct (parse_addr_kind s) as [c|]; [|done].
  assert (parseIPv4 s = Some a \/ parseIPv6 s = Some a) as [H4|H6]
    by (clear -H; destruct c as [[] [] [] [] [] [] [] []]; auto; done).
  - unfold parseIPv4 in H4. destruct (parse_v4_fields s) as [fs|] eqn:E; [|done].
    injection H4 as <-. apply parse_v4_loop_ok in E as [Hok Hl]; [|by constructor|lia].
    split; [|done]. pose proof (assemble_bound 8 fs ltac:(lia) Hok) as Hb.
    by rewrite Hl in Hb.
  - unfold parseIPv6 in H6. destruct (cut_byte "%" s) as [[body zone]|].
    + destruct zone as [|c' zone]; [done|]. destruct (parse_v6_groups body) as [fs|] eqn:E; [|done].
      injection H6 as <-. apply parse_v6_groups_ok in E as [Hok Hl]. split; [|done].
      pose proof (assemble_bound 16 fs ltac:(lia) Hok) as Hb. by rewrite Hl in Hb.
    + destruct (parse_v6_groups s) as [fs|] eqn:E; [|done].
      injection H6 as <-. apply parse_v6_groups_ok in E as [Hok Hl]. split; [|done].
      pose proof (assemble_bound 16 fs ltac:(lia) Hok) as Hb. by rewrite Hl in Hb.
Qed.

Lemma PrefixFrom_wf a b :
  addr_wf a -> a <> AddrZero -> 0 <= b <= BitLen a -> prefix_wf (PrefixFrom a b).
Proof.
  intros Hwf Hz Hb. unfold PrefixFrom. rewrite bool_decide_eq_false_2 by done.
  rewrite !(proj2 (Z.leb_le _ _)) by lia. by destruct a.
Qed.

Lemma ParsePrefix_wf s p : ParsePrefix s = Some p -> prefix_wf p.
Proof.
  unfold ParsePrefix. destruct (cut_last_byte "/" s) as [[addr bits]|]; [|done].
  destruct (ParseAddr addr) as [a|] eqn:E; [|done]. apply ParseAddr_wf in E as [Hwf Hz].
  destruct (Is6 a && _); [done|]. destruct (parse_bits bits) as [b|]; [|done].
  destruct ((b <? 0) || _) eqn:Eb; intros [= <-]. to_prop. apply PrefixFrom_wf; [done..|].
  destruct a; cbn in *; done || lia.
Qed.
