(* ===== verification/Network.v ===== *)
(** * The package [internal/network]

    Normalisation of network indicators ([normalize.go]), the special-purpose
    ranges no feed may touch ([safety.go]) and the construction of the desired
    enforcement objects from the feeds' candidates ([dedupe.go]).

    [BuildDesired] is written as the code has it: a map of builders filled in
    the order of the candidates, an iteration over that map in an arbitrary
    order, a sort, and a pass that withdraws the hosts a desired range covers.
    The lemmas give each phase its meaning, independent of the map order. *)

From S2P Require Export NetIPText.

(** ** [normalize.go] *)

Inductive Kind : Type := KindInvalid | KindIP | KindRange.

#[export] Instance Kind_eq_dec : EqDecision Kind.
Proof. solve_decision. Defined.

#[export] Instance Kind_countable : Countable Kind.
Proof.
  refine (inj_countable'
    (fun k => match k with KindInvalid => 0%nat | KindIP => 1%nat | KindRange => 2%nat end)
    (fun n => match n with 0%nat => KindInvalid | 1%nat => KindIP | _ => KindRange end) _).
  by intros [].
Defined.

(** The [uint8] of a kind. *)
Definition kind_value (k : Kind) : Z :=
  match k with KindInvalid => 0 | KindIP => 1 | KindRange => 2 end.

Inductive network_error : Type := ErrInvalidNetwork.

Definition NormalizeAddress (raw : string) : result network_error Addr :=
  if String.eqb raw "" || negb (String.eqb raw (trim_space raw)) then Err ErrInvalidNetwork
  else match ParseAddr raw with
  | None => Err ErrInvalidNetwork
  | Some addr =>
      if negb (String.eqb (Zone addr) "") then Err ErrInvalidNetwork else Ok (Unmap addr)
  end.

Definition NormalizePrefix (raw : string) : result network_error Prefix :=
  if String.eqb raw "" || negb (String.eqb raw (trim_space raw)) then Err ErrInvalidNetwork
  else match ParsePrefix raw with
  | None => Err ErrInvalidNetwork
  | Some prefix =>
      if negb (IsValid prefix) || negb (String.eqb (Zone (p_addr prefix)) "") then Err ErrInvalidNetwork
      else
        let addr := p_addr prefix in
        let bits := p_bits prefix in
        if Is4In6 addr then
          if bits <? 96 then Err ErrInvalidNetwork
          else Ok (Masked (PrefixFrom (Unmap addr) (bits - 96)))
        else Ok (Masked prefix)
  end.

Definition ParseValue (raw : string) : result network_error (Prefix * Kind) :=
  if contains_byte "/" raw then
    let? prefix := NormalizePrefix raw in Ok (prefix, KindRange)
  else
    let? addr := NormalizeAddress raw in Ok (PrefixFrom addr (BitLen addr), KindIP).

(** [ValidateKind]: [true] for a nil error. *)
Definition ValidateKind (prefix : Prefix) (kind : Kind) : bool :=
  if negb (IsValid prefix) || negb (bool_decide (prefix = Masked prefix)) then false
  else match kind with
  | KindIP => p_bits prefix =? BitLen (p_addr prefix)
  | KindRange => true
  | KindInvalid => false
  end.

(** ** [safety.go] *)

Inductive SafetyReason : Type := SafetyNone | SafetyInvalid | SafetySpecial.

Definition safetyPrefixes : list Prefix := Eval vm_compute in map MustParsePrefix
  ["0.0.0.0/8"; "10.0.0.0/8"; "100.64.0.0/10"; "127.0.0.0/8"; "169.254.0.0/16"; "172.16.0.0/12";
   "192.0.0.0/24"; "192.0.2.0/24"; "192.31.196.0/24"; "192.52.193.0/24"; "192.88.99.0/24";
   "192.168.0.0/16"; "192.175.48.0/24"; "198.18.0.0/15"; "198.51.100.0/24"; "203.0.113.0/24";
   "224.0.0.0/4"; "240.0.0.0/4";
   "::/128"; "::1/128"; "::ffff:0:0/96"; "64:ff9b::/96"; "64:ff9b:1::/48"; "100::/64"; "2001::/23";
   "2001:db8::/32"; "2002::/16"; "2620:4f:8000::/48"; "3fff::/20"; "5f00::/16"; "fc00::/7";
   "fe80::/10"; "ff00::/8"].

Fixpoint overlaps_special (prefix : Prefix) (specials : list Prefix) : bool * SafetyReason :=
  match specials with
  | [] => (true, SafetyNone)
  | special :: rest =>
      if Overlaps prefix special then (false, SafetySpecial) else overlaps_special prefix rest
  end.

Definition IsSafePrefix (prefix : Prefix) : bool * SafetyReason :=
  if negb (IsValid prefix) || negb (bool_decide (prefix = Masked prefix)) ||
     negb (IsGlobalUnicast (p_addr prefix))
  then (false, SafetyInvalid)
  else overlaps_special prefix safetyPrefixes.

(** ** [dedupe.go] *)

Inductive Scope : Type := ScopeIP | ScopeRange.
Inductive Suppression : Type := SuppressedNone | SuppressedAllowlist | SuppressedCovered.

#[export] Instance Scope_eq_dec : EqDecision Scope.
Proof. solve_decision. Defined.
#[export] Instance Suppression_eq_dec : EqDecision Suppression.
Proof. solve_decision. Defined.

Record Candidate : Type := MkCandidate {
  cd_Prefix : Prefix; cd_Kind : Kind; cd_FeedID : Z; cd_FeedName : string; cd_FeedOrder : Z }.

Record Contributor : Type := MkContributor {
  ct_FeedID : Z; ct_FeedName : string; ct_FeedOrder : Z; ct_Kind : Kind }.

#[export] Instance Contributor_eq_dec : EqDecision Contributor.
Proof. solve_decision. Defined.

Record Object : Type := MkObject {
  ob_Prefix : Prefix; ob_Scope : Scope; ob_Contributors : list Contributor;
  ob_Primary : Contributor; ob_Desired : bool; ob_Suppression : Suppression;
  ob_CoveredBy : option Prefix }.

Record Summary : Type := MkSummary {
  sm_Input : Z; sm_Objects : Z; sm_Desired : Z; sm_ExactDuplicates : Z;
  sm_RejectedSafety : Z; sm_Allowlisted : Z; sm_CoveredHosts : Z }.

Definition contributorKey : Type := Z * string * Kind.

Record objectBuilder : Type := MkBuilder {
  bd_prefix : Prefix; bd_contributors : list Contributor; bd_seen : gset contributorKey }.

Definition compareContributor (a b : Contributor) : Z :=
  cmp_then (cmp_int (ct_FeedOrder a) (ct_FeedOrder b))
    (cmp_then (cmp_string (ct_FeedName a) (ct_FeedName b))
      (cmp_then (cmp_int (ct_FeedID a) (ct_FeedID b))
        (cmp_int (kind_value (ct_Kind a)) (kind_value (ct_Kind b))))).

Definition compare_prefix (a b : Prefix) : Z :=
  if negb (Bool.eqb (Is4 (p_addr a)) (Is4 (p_addr b))) then
    if Is4 (p_addr a) then -1 else 1
  else cmp_then (addr_compare (p_addr a) (p_addr b)) (cmp_int (p_bits a) (p_bits b)).

Definition compareObject (a b : Object) : Z := compare_prefix (ob_Prefix a) (ob_Prefix b).

Fixpoint overlapsAllowlist (prefix : Prefix) (allowlist : list Prefix) : bool :=
  match allowlist with
  | [] => false
  | allowed :: rest =>
      if IsValid allowed && Overlaps prefix (Masked allowed) then true
      else overlapsAllowlist prefix rest
  end.

(** *** The loop over the candidates *)

Definition candidate_key (c : Candidate) : contributorKey := (cd_FeedID c, cd_FeedName c, cd_Kind c).

Definition candidate_contributor (c : Candidate) : Contributor :=
  MkContributor (cd_FeedID c) (cd_FeedName c) (cd_FeedOrder c) (cd_Kind c).

Definition acceptable (c : Candidate) : bool :=
  let prefix := Masked (cd_Prefix c) in
  fst (IsSafePrefix prefix) && ValidateKind prefix (cd_Kind c) && (1 <=? cd_FeedID c) &&
  negb (String.eqb (cd_FeedName c) "").

Definition add_rejected (s : Summary) : Summary :=
  MkSummary (sm_Input s) (sm_Objects s) (sm_Desired s) (sm_ExactDuplicates s)
    (sm_RejectedSafety s + 1) (sm_Allowlisted s) (sm_CoveredHosts s).
Definition add_duplicate (s : Summary) : Summary :=
  MkSummary (sm_Input s) (sm_Objects s) (sm_Desired s) (sm_ExactDuplicates s + 1)
    (sm_RejectedSafety s) (sm_Allowlisted s) (sm_CoveredHosts s).
Definition add_allowlisted (s : Summary) : Summary :=
  MkSummary (sm_Input s) (sm_Objects s) (sm_Desired s) (sm_ExactDuplicates s)
    (sm_RejectedSafety s) (sm_Allowlisted s + 1) (sm_CoveredHosts s).
Definition add_covered (s : Summary) : Summary :=
  MkSummary (sm_Input s) (sm_Objects s) (sm_Desired s) (sm_ExactDuplicates s)
    (sm_RejectedSafety s) (sm_Allowlisted s) (sm_CoveredHosts s + 1).
Definition set_totals (objects desired : Z) (s : Summary) : Summary :=
  MkSummary (sm_Input s) objects desired (sm_ExactDuplicates s)
    (sm_RejectedSafety s) (sm_Allowlisted s) (sm_CoveredHosts s).

Definition new_builder (prefix : Prefix) : objectBuilder := MkBuilder prefix [] ∅.

Definition builder_add (b : objectBuilder) (c : Candidate) : objectBuilder :=
  if bool_decide (candidate_key c ∈ bd_seen b) then b
  else MkBuilder (bd_prefix b) (bd_contributors b ++ [candidate_contributor c])
         ({[candidate_key c]} ∪ bd_seen b).

Definition add_candidate (st : gmap Prefix objectBuilder * Summary) (c : Candidate)
  : gmap Prefix objectBuilder * Summary :=
  let '(builders, summary) := st in
  let prefix := Masked (cd_Prefix c) in
  if negb (acceptable c) then (builders, add_rejected summary)
  else match builders !! prefix with
  | None => (<[prefix := builder_add (new_builder prefix) c]> builders, summary)
  | Some builder => (<[prefix := builder_add builder c]> builders, add_duplicate summary)
  end.

Definition new_summary (n : Z) : Summary := MkSummary n 0 0 0 0 0 0.

Definition build_builders (candidates : list Candidate) : gmap Prefix objectBuilder * Summary :=
  fold_left add_candidate candidates (∅, new_summary (Z.of_nat (List.length candidates))).

(** *** The loop over the map of builders *)

Definition no_contributor : Contributor := MkContributor 0 "" 0 KindInvalid.

Definition scope_of (contributors : list Contributor) : Scope :=
  if existsb (fun c => bool_decide (ct_Kind c = KindIP)) contributors then ScopeIP else ScopeRange.

(** [builder.contributors[0]] exists: a builder is made with its first
    contributor ([build_builders_lookup]). *)
Definition base_object (b : objectBuilder) : Object :=
  let contributors := sort_func compareContributor (bd_contributors b) in
  MkObject (bd_prefix b) (scope_of contributors) contributors
    (default no_contributor (head contributors)) true SuppressedNone None.

Definition suppress_allowlisted (o : Object) : Object :=
  MkObject (ob_Prefix o) (ob_Scope o) (ob_Contributors o) (ob_Primary o) false
    SuppressedAllowlist (ob_CoveredBy o).

Definition add_object (allowlist : list Prefix) (st : list Object * Summary) (b : objectBuilder)
  : list Object * Summary :=
  let '(objects, summary) := st in
  let object := base_object b in
  if overlapsAllowlist (ob_Prefix object) allowlist
  then (objects ++ [suppress_allowlisted object], add_allowlisted summary)
  else (objects ++ [object], summary).

(** *** The pass over the hosts that a range covers *)

(** Whether the object [o], desired, is a range that strictly contains the
    host [h]. *)
Definition covers (o h : Object) : bool :=
  ob_Desired o && bool_decide (ob_Scope o = ScopeRange) &&
  (p_bits (ob_Prefix o) <? BitLen (p_addr (ob_Prefix h))) &&
  Contains (ob_Prefix o) (p_addr (ob_Prefix h)).

Definition better_cover (p : Prefix) (covering : option Prefix) : bool :=
  match covering with
  | None => true
  | Some c => (p_bits c <? p_bits p) ||
              ((p_bits p =? p_bits c) && (addr_compare (p_addr p) (p_addr c) <? 0))
  end.

(** The inner loop over [j], for the host [h] at index [i]. *)
Fixpoint find_covering (i : nat) (h : Object) (j : nat) (objects : list Object)
    (covering : option Prefix) : option Prefix :=
  match objects with
  | [] => covering
  | o :: rest =>
      let covering' :=
        if negb (Nat.eqb i j) && covers o h && better_cover (ob_Prefix o) covering
        then Some (ob_Prefix o) else covering in
      find_covering i h (S j) rest covering'
  end.

Definition suppress_covered (o : Object) (covering : Prefix) : Object :=
  MkObject (ob_Prefix o) (ob_Scope o) (ob_Contributors o) (ob_Primary o) false
    SuppressedCovered (Some covering).

Definition is_host (o : Object) : bool := ob_Desired o && bool_decide (ob_Scope o = ScopeIP).

(** One iteration of the outer loop; [objects[i]] is changed in place. *)
Definition cover_step (st : list Object * Summary) (i : nat) : list Object * Summary :=
  let '(objects, summary) := st in
  match objects !! i with
  | None => st
  | Some h =>
      if negb (is_host h) then st
      else match find_covering i h 0 objects None with
      | None => st
      | Some covering => (<[i := suppress_covered h covering]> objects, add_covered summary)
      end
  end.

Definition cover_hosts (st : list Object * Summary) : list Object * Summary :=
  fold_left cover_step (seq 0 (List.length st.1)) st.

Definition count_desired (objects : list Object) : Z :=
  Z.of_nat (List.length (List.filter ob_Desired objects)).

(** [BuildDesired], where [order] is the order in which the [range] over the
    map yields its builders. *)
Definition BuildDesired_order (order : list objectBuilder) (allowlist : list Prefix)
    (summary : Summary) : list Object * Summary :=
  let '(objects, summary) := fold_left (add_object allowlist) order ([], summary) in
  let objects := sort_func compareObject objects in
  let '(objects, summary) := cover_hosts (objects, summary) in
  (objects, set_totals (Z.of_nat (List.length objects)) (count_desired objects) summary).

Definition BuildDesired (candidates : list Candidate) (allowlist : list Prefix)
  : list Object * Summary :=
  let '(builders, summary) := build_builders candidates in
  BuildDesired_order (map snd (map_to_list builders)) allowlist summary.

(** ** Safety *)

Definition prefix_wfb (p : Prefix) : bool :=
  (0 <=? addr_value (p_addr p)) && (addr_value (p_addr p) <? 2 ^ BitLen (p_addr p)) &&
  negb (BitLen (p_addr p) =? 0) && String.eqb (Zone (p_addr p)) "" &&
  (0 <=? p_bits p) && (p_bits p <=? BitLen (p_addr p)).

Lemma prefix_wfb_true p : prefix_wfb p = true -> prefix_wf p.
Proof.
  unfold prefix_wfb. intros H. to_prop. repeat split; try lia.
  - by destruct (p_addr p).
  - by apply String.eqb_eq.
Qed.

Lemma safetyPrefixes_wf s : In s safetyPrefixes -> prefix_wf s.
Proof.
  intros Hs. apply prefix_wfb_true. revert s Hs. by apply List.forallb_forall.
Qed.

Lemma overlaps_special_spec p l :
  (overlaps_special p l = (true, SafetyNone) /\ forall s, In s l -> Overlaps p s = false) \/
  (overlaps_special p l = (false, SafetySpecial) /\ exists s, In s l /\ Overlaps p s = true).
Proof.
  induction l as [|s l IH]; [left; split; [done|intros ? []]|].
  cbn [overlaps_special]. destruct (Overlaps p s) eqn:E.
  - right. split; [done|]. exists s. split; [by left|done].
  - destruct IH as [[-> H]|[-> (s' & Hs & H)]].
    + left. split; [done|]. intros s' [<-|Hin]; auto.
    + right. split; [done|]. exists s'. split; [by right|done].
Qed.

Lemma IsSafePrefix_true p :
  fst (IsSafePrefix p) = true <->
  IsValid p = true /\ p = Masked p /\ IsGlobalUnicast (p_addr p) = true /\
  forall s, In s safetyPrefixes -> Overlaps p s = false.
Proof.
  unfold IsSafePrefix. destruct (IsValid p); cbn [negb orb]; [|split; [done|by intros [? _]]].
  case_bool_decide as Hm; cbn [negb orb]; [|split; [done|by intros (_ & ? & _)]].
  destruct (IsGlobalUnicast _); cbn [negb]; [|split; [done|by intros (_ & _ & ? & _)]].
  destruct (overlaps_special_spec p safetyPrefixes) as [[-> H']|[-> (s & Hs & H')]]; cbn.
  - done.
  - split; [done|]. intros (_ & _ & _ & Hno). by rewrite Hno in H'.
Qed.

(** ** The allowlist *)

Lemma overlapsAllowlist_true p l :
  overlapsAllowlist p l = true <->
  exists a, In a l /\ IsValid a = true /\ Overlaps p (Masked a) = true.
Proof.
  induction l as [|a l IH]; cbn [overlapsAllowlist In].
  - split; [done|by intros (a & [] & _)].
  - destruct (IsValid a && Overlaps p (Masked a)) eqn:E; to_prop.
    + split; [intros _; exists a; auto|done].
    + rewrite IH. split; intros (b & Hb & Hv & Ho); exists b; [auto|].
      destruct Hb as [<-|Hb]; [|auto]. by rewrite Hv, Ho in E.
Qed.

(** ** The builders *)

Definition accepted (cs : list Candidate) : list Candidate := List.filter acceptable cs.

(** The accepted candidates of one prefix, in the order of the input. *)
Definition of_prefix (p : Prefix) (cs : list Candidate) : list Candidate :=
  List.filter (fun c => acceptable c && bool_decide (Masked (cd_Prefix c) = p)) cs.

Definition build_of (p : Prefix) (cs : list Candidate) : objectBuilder :=
  fold_left builder_add cs (new_builder p).

Lemma filter_snoc {A} (f : A -> bool) xs x :
  List.filter f (xs ++ [x]) = List.filter f xs ++ (if f x then [x] else []).
Proof. rewrite List.filter_app. cbn. by destruct (f x). Qed.

Lemma bd_prefix_add b c : bd_prefix (builder_add b c) = bd_prefix b.
Proof. unfold builder_add. by case_bool_decide. Qed.

Lemma bd_prefix_build p cs : bd_prefix (build_of p cs) = p.
Proof.
  unfold build_of. induction cs as [|c cs IH] using rev_ind; [done|].
  by rewrite fold_left_app; cbn; rewrite bd_prefix_add.
Qed.

Lemma build_of_snoc p cs c : build_of p (cs ++ [c]) = builder_add (build_of p cs) c.
Proof. unfold build_of. by rewrite fold_left_app. Qed.

(** The state of the loop after the candidates [cs]. *)
Record builders_inv (n : Z) (cs : list Candidate) (st : gmap Prefix objectBuilder * Summary) : Prop := {
  bi_lookup : forall p, st.1 !! p =
    match of_prefix p cs with [] => None | l => Some (build_of p l) end;
  bi_summary : exists dup rej, st.2 = MkSummary n 0 0 dup rej 0 0 /\
    dup + Z.of_nat (size st.1) = Z.of_nat (List.length (accepted cs)) /\
    rej + Z.of_nat (List.length (accepted cs)) = Z.of_nat (List.length cs) }.

Lemma builders_inv_step n cs st c :
  builders_inv n cs st -> builders_inv n (cs ++ [c]) (add_candidate st c).
Proof.
  intros [Hl (dup & rej & Hs & H1 & H2)]. destruct st as [m s]. cbn [fst snd] in *. subst s.
  unfold add_candidate. set (p := Masked (cd_Prefix c)).
  assert (accepted (cs ++ [c]) = accepted cs ++ if acceptable c then [c] else []) as Hacc
    by apply filter_snoc.
  destruct (acceptable c) eqn:Ea; cbn [negb].
  - assert (of_prefix p (cs ++ [c]) = of_prefix p cs ++ [c]) as Hp.
    { unfold of_prefix. rewrite filter_snoc, Ea. by rewrite bool_decide_eq_true_2. }
    assert (forall q, q <> p -> of_prefix q (cs ++ [c]) = of_prefix q cs) as Hq.
    { intros q Hq. unfold of_prefix. rewrite filter_snoc, Ea. unfold p in Hq.
      rewrite bool_decide_eq_false_2 by congruence. cbn. by rewrite app_nil_r. }
    destruct (m !! p) as [b|] eqn:Em; rewrite (Hl p) in Em.
    + assert (b = build_of p (of_prefix p cs)) as -> by (destruct (of_prefix p cs); congruence).
      split; cbn [fst snd].
      * intros q. destruct (decide (q = p)) as [->|Hne].
        -- rewrite lookup_insert_eq, Hp, <- build_of_snoc. by destruct (of_prefix p cs).
        -- by rewrite lookup_insert_ne, Hl, Hq by done.
      * eexists (dup + 1), rej. split; [done|]. rewrite Hacc, !length_app. cbn [List.length].
        rewrite map_size_insert_Some; [lia|].
        rewrite Hl. destruct (of_prefix p cs); [done|by eexists].
    + assert (of_prefix p cs = []) as E0 by (destruct (of_prefix p cs); congruence).
      split; cbn [fst snd].
      * intros q. destruct (decide (q = p)) as [->|Hne].
        -- by rewrite lookup_insert_eq, Hp, E0.
        -- by rewrite lookup_insert_ne, Hl, Hq by done.
      * eexists dup, rej. split; [done|]. rewrite Hacc, !length_app. cbn [List.length].
        rewrite map_size_insert_None by by rewrite Hl, E0. lia.
  - split; cbn [fst snd].
    + intros q. rewrite Hl. f_equal. unfold of_prefix. rewrite filter_snoc, Ea. cbn.
      by rewrite app_nil_r.
    + eexists dup, (rej + 1). split; [done|]. rewrite Hacc, app_nil_r, length_app. cbn [List.length].
      lia.
Qed.

Lemma build_builders_inv cs :
  builders_inv (Z.of_nat (List.length cs)) cs (build_builders cs).
Proof.
  unfold build_builders. generalize (Z.of_nat (List.length cs)) as n. intros n.
  induction cs as [|c cs IH] using rev_ind.
  - split; [done|]. exists 0, 0. repeat split; cbn; by rewrite ?map_size_empty.
  - rewrite fold_left_app. by apply builders_inv_step.
Qed.

(** What a builder holds: one contributor per feed, name and kind, the first
    one seen. *)
Record builder_ok (p : Prefix) (cs : list Candidate) (b : objectBuilder) : Prop := {
  bo_prefix : bd_prefix b = p;
  bo_seen : forall k, k ∈ bd_seen b <-> exists c, In c cs /\ candidate_key c = k;
  bo_complete : forall c, In c cs -> exists t, In t (bd_contributors b) /\
    ct_FeedID t = cd_FeedID c /\ ct_FeedName t = cd_FeedName c /\ ct_Kind t = cd_Kind c;
  bo_sound : forall t, In t (bd_contributors b) -> exists c, In c cs /\ t = candidate_contributor c;
  bo_nodup : NoDup (map (fun t => (ct_FeedID t, ct_FeedName t, ct_Kind t)) (bd_contributors b)) }.

Lemma build_of_ok p cs : builder_ok p cs (build_of p cs).
Proof.
  induction cs as [|c cs IH] using rev_ind.
  - split; cbn; try done; try (intros ? []). + set_solver. + constructor.
  - rewrite build_of_snoc. destruct IH as [Hp Hseen Hc Hs Hn]. unfold builder_add.
    case_bool_decide as Hin; split; cbn [bd_prefix bd_contributors bd_seen]; try done.
    + intros k. rewrite Hseen. apply Hseen in Hin as (c' & Hc' & E'). split.
      * intros (d & Hd & <-). exists d. split; [apply in_or_app; by left|done].
      * intros (d & [Hd|[<-|[]]]%in_app_or & <-); eauto.
    + apply Hseen in Hin as (c' & Hc' & E'). intros d [Hd|[<-|[]]]%in_app_or; [by apply Hc|].
      destruct (Hc c' Hc') as (t & Ht & E1 & E2 & E3). exists t. unfold candidate_key in E'.
      naive_solver congruence.
    + intros t (d & Hd & ->)%Hs. exists d. split; [apply in_or_app; by left|done].
    + intros k. rewrite elem_of_union, elem_of_singleton, Hseen. split.
      * intros [->|(d & Hd & <-)]; [exists c|exists d]; (split; [apply in_or_app; cbn; auto|done]).
      * intros (d & [Hd|[<-|[]]]%in_app_or & <-); eauto.
    + intros d [Hd|[<-|[]]]%in_app_or.
      * destruct (Hc d Hd) as (t & Ht & Ht'). exists t. split; [apply in_or_app; by left|done].
      * exists (candidate_contributor c). split; [apply in_or_app; cbn; auto|done].
    + intros t [(d & Hd & ->)%Hs|[<-|[]]]%in_app_or.
      * exists d. split; [apply in_or_app; by left|done].
      * exists c. split; [apply in_or_app; cbn; auto|done].
    + rewrite map_app. apply list.NoDup_app. split; [done|]. split; [|apply NoDup_singleton].
      intros k Hk ->%list_elem_of_singleton. apply Hin, Hseen.
      apply list_elem_of_fmap in Hk as (t & E & Ht). apply list_elem_of_In, Hs in Ht as (d & Hd & ->).
      exists d. split; [done|]. unfold candidate_key. cbn in E. congruence.
Qed.

(** ** The comparisons *)

#[export] Instance compareContributor_laws : CmpLaws compareContributor.
Proof.
  unfold compareContributor. repeat apply cmp_then_laws; apply cmp_on_laws; apply _.
Qed.

Lemma kind_value_inj a b : kind_value a = kind_value b -> a = b.
Proof. by destruct a, b. Qed.

Lemma compareContributor_eq a b : compareContributor a b = 0 -> a = b.
Proof.
  unfold compareContributor. intros H.
  apply cmp_then_0 in H as [H1%cmp_int_eq H]. apply cmp_then_0 in H as [H2%cmp_string_eq H].
  apply cmp_then_0 in H as [H3%cmp_int_eq H4%cmp_int_eq%kind_value_inj].
  destruct a, b; cbn in *; congruence.
Qed.

Lemma addr_compare_laws : CmpLaws addr_compare.
Proof.
  unfold addr_compare. apply cmp_then_laws; [apply (cmp_on_laws BitLen cmp_int); apply _|].
  apply cmp_then_laws; apply cmp_on_laws; apply _.
Qed.

Lemma addr_compare_eq a b : addr_compare a b = 0 -> a = b.
Proof.
  unfold addr_compare. intros H. apply cmp_then_0 in H as [H1%cmp_int_eq H].
  apply cmp_then_0 in H as [H2%cmp_int_eq H3%cmp_string_eq].
  destruct a, b; cbn in *; congruence.
Qed.

(** IPv4 before everything else. *)
Definition family_rank (p : Prefix) : Z := if Is4 (p_addr p) then 0 else 1.

Lemma compare_prefix_rank a b :
  compare_prefix a b = cmp_then (cmp_int (family_rank a) (family_rank b))
    (cmp_then (addr_compare (p_addr a) (p_addr b)) (cmp_int (p_bits a) (p_bits b))).
Proof.
  unfold compare_prefix, family_rank. by destruct (Is4 (p_addr a)), (Is4 (p_addr b)).
Qed.

#[export] Instance compare_prefix_laws : CmpLaws compare_prefix.
Proof.
  eapply cmp_ext_laws; [apply compare_prefix_rank|].
  apply cmp_then_laws; [apply (cmp_on_laws family_rank cmp_int); apply _|].
  apply cmp_then_laws; [apply cmp_on_laws, addr_compare_laws|].
  apply (cmp_on_laws p_bits cmp_int). apply _.
Qed.

Lemma compare_prefix_eq a b : compare_prefix a b = 0 -> a = b.
Proof.
  rewrite compare_prefix_rank. intros H. apply cmp_then_0 in H as [_ H].
  apply cmp_then_0 in H as [H1%addr_compare_eq H2%cmp_int_eq].
  destruct a, b; cbn in *; congruence.
Qed.

#[export] Instance compareObject_laws : CmpLaws compareObject.
Proof. unfold compareObject. apply (cmp_on_laws ob_Prefix compare_prefix). apply _. Qed.

(** ** The loop over the builders *)

Definition object_of (allowlist : list Prefix) (b : objectBuilder) : Object :=
  let o := base_object b in
  if overlapsAllowlist (ob_Prefix o) allowlist then suppress_allowlisted o else o.

Lemma ob_Prefix_object_of al b : ob_Prefix (object_of al b) = bd_prefix b.
Proof. unfold object_of. by destruct (overlapsAllowlist _ _). Qed.

Definition count_allowlisted (al : list Prefix) (order : list objectBuilder) : Z :=
  Z.of_nat (List.length (List.filter (fun b => overlapsAllowlist (bd_prefix b) al) order)).

Lemma add_objects al order n dup rej :
  fold_left (add_object al) order ([], MkSummary n 0 0 dup rej 0 0) =
  (map (object_of al) order, MkSummary n 0 0 dup rej (count_allowlisted al order) 0).
Proof.
  unfold count_allowlisted. induction order as [|b order IH] using rev_ind; [done|].
  rewrite fold_left_app, IH, map_app, filter_snoc. cbn [fold_left add_object map].
  unfold object_of. change (ob_Prefix (base_object b)) with (bd_prefix b).
  destruct (overlapsAllowlist (bd_prefix b) al).
  - rewrite length_app. cbn [List.length]. unfold add_allowlisted. cbn. f_equal. f_equal. lia.
  - by rewrite app_nil_r.
Qed.

(** ** The pass over the hosts *)

(** The inner loop without its index test: a host does not cover itself. *)
Fixpoint find_cover (h : Object) (objects : list Object) (covering : option Prefix) : option Prefix :=
  match objects with
  | [] => covering
  | o :: rest =>
      find_cover h rest
        (if covers o h && better_cover (ob_Prefix o) covering then Some (ob_Prefix o) else covering)
  end.

Definition cover_one (objects : list Object) (o : Object) : Object :=
  if is_host o then
    match find_cover o objects None with Some c => suppress_covered o c | None => o end
  else o.

Definition covered (objects : list Object) (o : Object) : bool :=
  is_host o && match find_cover o objects None with Some _ => true | None => false end.

Lemma host_covers_nothing o h : is_host o = true -> covers o h = false.
Proof.
  unfold is_host, covers. intros H. to_prop.
  destruct (ob_Desired o); [|done]. rewrite (bool_decide_eq_false_2 (ob_Scope o = ScopeRange)); [done|congruence].
Qed.

Lemma covers_cover_one all o h : covers (cover_one all o) h = covers o h.
Proof.
  unfold cover_one. destruct (is_host o) eqn:E; [|done].
  destruct (find_cover o all None); [|done]. by rewrite (host_covers_nothing o) by done.
Qed.

Lemma ob_Prefix_cover_one all o : ob_Prefix (cover_one all o) = ob_Prefix o.
Proof. unfold cover_one. destruct (is_host o); [|done]. by destruct (find_cover o all None). Qed.

Lemma find_covering_eq i h j objects cov :
  (forall k o, objects !! k = Some o -> (j + k)%nat = i -> covers o h = false) ->
  find_covering i h j objects cov = find_cover h objects cov.
Proof.
  revert j cov. induction objects as [|o objects IH]; intros j cov Hi; cbn; [done|].
  rewrite IH.
  - destruct (Nat.eqb_spec i j) as [->|]; cbn [negb andb]; [|done].
    by rewrite (Hi 0%nat o) by (done || lia).
  - intros k o' Hk Hjk. apply (Hi (S k) o'); [done|lia].
Qed.

Lemma find_cover_ext h xs ys cov :
  Forall2 (fun x y => covers x h = covers y h /\ ob_Prefix x = ob_Prefix y) xs ys ->
  find_cover h xs cov = find_cover h ys cov.
Proof.
  intros H. revert cov. induction H as [|x y xs ys [H1 H2] H IH]; intros cov; cbn; [done|].
  by rewrite H1, H2.
Qed.

Lemma find_cover_partial all h xs ys cov :
  find_cover h (map (cover_one all) xs ++ ys) cov = find_cover h (xs ++ ys) cov.
Proof.
  apply find_cover_ext. apply Forall2_app; [|by apply Reflexive_instance_0].
  apply Forall2_fmap_l, Forall_Forall2_diag, list.Forall_forall. intros x _.
  split; [apply covers_cover_one|apply ob_Prefix_cover_one].
Qed.

Definition count_covered (all xs : list Object) : Z :=
  Z.of_nat (List.length (List.filter (covered all) xs)).

Definition set_covered (s : Summary) (n : Z) : Summary :=
  MkSummary (sm_Input s) (sm_Objects s) (sm_Desired s) (sm_ExactDuplicates s)
    (sm_RejectedSafety s) (sm_Allowlisted s) n.

Lemma cover_step_eq all done h todo s :
  all = done ++ h :: todo ->
  cover_step (map (cover_one all) done ++ h :: todo, s) (List.length done) =
  (map (cover_one all) (done ++ [h]) ++ todo,
   if covered all h then add_covered s else s).
Proof.
  intros Eall. unfold cover_step.
  assert (List.length done = List.length (map (cover_one all) done)) as El by by rewrite length_map.
  rewrite list_lookup_middle by done. unfold covered.
  assert (map (cover_one all) (done ++ [h]) ++ todo
          = map (cover_one all) done ++ cover_one all h :: todo) as ->
    by by rewrite map_app, <- app_assoc.
  assert (cover_one all h = if is_host h then
      match find_cover h all None with Some c => suppress_covered h c | None => h end else h)
    as -> by done.
  destruct (is_host h) eqn:Eh; cbn [negb andb]; [|done].
  rewrite find_covering_eq, find_cover_partial.
  - rewrite <- Eall. destruct (find_cover h all None); [|done].
    f_equal. rewrite El, <- (Nat.add_0_r (List.length (map _ done))). by rewrite insert_app_r.
  - intros k o Ho Hk. rewrite list_lookup_middle in Ho by lia. injection Ho as <-.
    by apply host_covers_nothing.
Qed.

Lemma cover_hosts_eq objects s :
  cover_hosts (objects, s) =
  (map (cover_one objects) objects,
   set_covered s (sm_CoveredHosts s + count_covered objects objects)).
Proof.
  unfold cover_hosts. cbn [fst].
  assert (forall todo don s, objects = don ++ todo ->
    fold_left cover_step (seq (List.length don) (List.length todo))
      (map (cover_one objects) don ++ todo, s) =
    (map (cover_one objects) objects,
     set_covered s (sm_CoveredHosts s + count_covered objects todo))) as H.
  { induction todo as [|h todo IH]; intros don s' Eq.
    - rewrite !app_nil_r in *. subst don. cbn. f_equal. destruct s'. cbn.
      unfold set_covered, count_covered. cbn. f_equal. lia.
    - cbn [List.length seq fold_left]. rewrite cover_step_eq by done.
      replace (S (List.length don)) with (List.length (don ++ [h])) by (rewrite length_app; cbn; lia).
      rewrite IH by by rewrite <- app_assoc. f_equal.
      unfold count_covered. cbn [List.filter]. destruct (covered objects h); [|done].
      cbn [List.length]. unfold set_covered, add_covered. cbn. f_equal. lia. }
  by apply (H objects []).
Qed.

(** ** The objects [BuildDesired] returns *)

Definition base_objects (al : list Prefix) (order : list objectBuilder) : list Object :=
  sort_func compareObject (map (object_of al) order).

Definition builders_of (cs : list Candidate) : list objectBuilder :=
  map snd (map_to_list (build_builders cs).1).

Lemma BuildDesired_order_eq order al n dup rej :
  BuildDesired_order order al (MkSummary n 0 0 dup rej 0 0) =
  let base := base_objects al order in
  let objs := map (cover_one base) base in
  (objs, MkSummary n (Z.of_nat (List.length order)) (count_desired objs) dup rej
           (count_allowlisted al order) (count_covered base base)).
Proof.
  unfold BuildDesired_order. rewrite add_objects. fold (base_objects al order).
  rewrite cover_hosts_eq. cbv zeta. f_equal. unfold set_totals, set_covered. cbn. f_equal.
  unfold base_objects. by rewrite length_map, length_sort_func, length_map.
Qed.

Lemma BuildDesired_eq cs al :
  exists dup rej,
  BuildDesired cs al = BuildDesired_order (builders_of cs) al
    (MkSummary (Z.of_nat (List.length cs)) 0 0 dup rej 0 0) /\
  dup + Z.of_nat (List.length (builders_of cs)) = Z.of_nat (List.length (accepted cs)) /\
  rej + Z.of_nat (List.length (accepted cs)) = Z.of_nat (List.length cs).
Proof.
  destruct (build_builders_inv cs) as [_ (dup & rej & Hs & H1 & H2)].
  exists dup, rej. unfold BuildDesired, builders_of. destruct (build_builders cs) as [m s].
  cbn [fst snd] in *. subst s. by rewrite length_map, length_map_to_list.
Qed.

Lemma in_builders_of cs b :
  In b (builders_of cs) <-> exists p, of_prefix p cs <> [] /\ b = build_of p (of_prefix p cs).
Proof.
  destruct (build_builders_inv cs) as [Hl _]. unfold builders_of. rewrite in_map_iff. split.
  - intros ([p b'] & <- & Hin). apply list_elem_of_In, elem_of_map_to_list in Hin.
    exists p. rewrite Hl in Hin. destruct (of_prefix p cs); naive_solver.
  - intros (p & Hne & ->). exists (p, build_of p (of_prefix p cs)). split; [done|].
    apply list_elem_of_In, elem_of_map_to_list. rewrite Hl. by destruct (of_prefix p cs).
Qed.

Lemma builders_of_prefix_inj cs a b :
  In a (builders_of cs) -> In b (builders_of cs) -> bd_prefix a = bd_prefix b -> a = b.
Proof.
  intros (p & _ & ->)%in_builders_of (q & _ & ->)%in_builders_of.
  rewrite !bd_prefix_build. by intros ->.
Qed.

Lemma builders_of_NoDup cs : NoDup (map bd_prefix (builders_of cs)).
Proof.
  unfold builders_of. rewrite map_map.
  replace (map (fun x => bd_prefix x.2) (map_to_list (build_builders cs).1))
    with (map fst (map_to_list (build_builders cs).1)); [apply NoDup_fst_map_to_list|].
  apply map_ext_in. intros [p b] Hin. cbn.
  apply list_elem_of_In, elem_of_map_to_list in Hin.
  destruct (build_builders_inv cs) as [Hl _]. rewrite Hl in Hin.
  destruct (of_prefix p cs); [done|]. injection Hin as <-. by rewrite bd_prefix_build.
Qed.

Lemma base_objects_perm cs al order :
  order ≡ₚ builders_of cs -> base_objects al order = base_objects al (builders_of cs).
Proof.
  intros Hp. unfold base_objects. apply sort_func_unique; [apply _| |by rewrite Hp].
  intros x y (b & -> & Hb)%list_elem_of_fmap (b' & -> & Hb')%list_elem_of_fmap Heq.
  apply compare_prefix_eq in Heq. rewrite !ob_Prefix_object_of in Heq. f_equal.
  rewrite Hp in Hb, Hb'. apply list_elem_of_In in Hb, Hb'. by eapply builders_of_prefix_inj.
Qed.

Lemma BuildDesired_objects cs al :
  (BuildDesired cs al).1 =
  map (cover_one (base_objects al (builders_of cs))) (base_objects al (builders_of cs)).
Proof. destruct (BuildDesired_eq cs al) as (dup & rej & -> & _). by rewrite BuildDesired_order_eq. Qed.

Lemma in_base_objects al order o :
  In o (base_objects al order) <-> exists b, In b order /\ o = object_of al b.
Proof.
  unfold base_objects. rewrite <- list_elem_of_In, elem_of_sort_func, list_elem_of_fmap.
  split; intros (b & H1 & H2); exists b; rewrite ?list_elem_of_In in *; done.
Qed.

Lemma in_BuildDesired cs al o :
  In o (BuildDesired cs al).1 <->
  exists p, of_prefix p cs <> [] /\
    o = cover_one (base_objects al (builders_of cs)) (object_of al (build_of p (of_prefix p cs))).
Proof.
  rewrite BuildDesired_objects, in_map_iff. split.
  - intros (o' & <- & (b & (p & Hp & ->)%in_builders_of & ->)%in_base_objects). by exists p.
  - intros (p & Hp & ->). eexists. split; [done|]. apply in_base_objects. eexists. split; [|done].
    apply in_builders_of. by exists p.
Qed.

Lemma of_prefix_ne p cs :
  of_prefix p cs <> [] <-> exists c, In c cs /\ acceptable c = true /\ Masked (cd_Prefix c) = p.
Proof.
  unfold of_prefix. split.
  - intros H. destruct (List.filter _ cs) as [|c l] eqn:E; [done|].
    assert (In c (c :: l)) as Hc by by left. rewrite <- E in Hc.
    apply filter_In in Hc as [Hc Ha]. to_prop. eauto.
  - intros (c & Hc & Ha & Hp) E. assert (In c []) as []. rewrite <- E. apply filter_In.
    rewrite Ha, bool_decide_eq_true_2 by done. done.
Qed.

(** ** The most specific covering range *)

Definition is_cover (h : Object) (objects : list Object) (p : Prefix) : Prop :=
  exists o, In o objects /\ covers o h = true /\ ob_Prefix o = p.

Lemma find_cover_spec h objects cov :
  match find_cover h objects cov with
  | None => cov = None /\ forall p, ~ is_cover h objects p
  | Some c => (cov = Some c \/ is_cover h objects c) /\
              forall p, cov = Some p \/ is_cover h objects p -> p_bits p <= p_bits c
  end.
Proof.
  revert cov. induction objects as [|o objects IH]; intros cov; cbn [find_cover].
  - destruct cov as [c|]; [|by split; [done|intros p (? & [] & _)]].
    split; [by left|]. by intros p [[= <-]|(? & [] & _)].
  - assert (forall p, is_cover h (o :: objects) p <->
      (covers o h = true /\ ob_Prefix o = p) \/ is_cover h objects p) as Hc.
    { intros p. unfold is_cover. cbn [In]. naive_solver. }
    specialize (IH (if covers o h && better_cover (ob_Prefix o) cov then Some (ob_Prefix o) else cov)).
    destruct (find_cover h objects _) as [c|].
    + destruct IH as [H1 H2]. split.
      * rewrite Hc. destruct (covers o h) eqn:E; cbn [andb] in H1; [|naive_solver].
        destruct (better_cover _ _); naive_solver.
      * intros p Hp. rewrite Hc in Hp. destruct (covers o h) eqn:E; cbn [andb] in H2.
        -- destruct (better_cover (ob_Prefix o) cov) eqn:Eb.
           ++ destruct Hp as [->|[[_ <-]|Hp]]; [|by apply H2; left|by apply H2; right].
              cbn in Eb. specialize (H2 (ob_Prefix o) (or_introl eq_refl)).
              apply orb_true_iff in Eb as [Eb|Eb]; to_prop; lia.
           ++ destruct Hp as [->|[[_ <-]|Hp]]; [by apply H2; left| |by apply H2; right].
              destruct cov as [c'|]; [|done]. specialize (H2 c' (or_introl eq_refl)).
              cbn in Eb. to_prop. lia.
        -- destruct Hp as [->|[[[=] _]|Hp]]; [by apply H2; left|by apply H2; right].
    + destruct IH as [H1 H2]. destruct (covers o h) eqn:E; cbn [andb] in H1.
      * destruct cov as [c'|]; cbn in H1; [|done]. by destruct (_ || _).
      * split; [done|]. intros p [[[=] _]|Hp]%Hc. by apply (H2 p).
Qed.

(** ** Printable text is trimmed *)

Definition printable (c : ascii) : bool := in_range 33 126 (byte_of c).

Lemma runes_fuel_printable l n :
  List.forallb printable l = true -> (List.length l <= n)%nat ->
  runes_fuel n l = map (fun c => (byte_of c, true, [c])) l.
Proof.
  revert n. induction l as [|c l IH]; intros n Hp Hn; [by destruct n|].
  destruct n as [|n]; [cbn in Hn; lia|]. cbn [forallb] in Hp. apply andb_true_iff in Hp as [Hc Hp].
  unfold printable, in_range in Hc. to_prop. cbn [runes_fuel decode_rune].
  rewrite (proj2 (Z.ltb_lt _ _)) by lia. cbn [List.length map].
  replace (S (List.length l) - List.length l)%nat with 1%nat by lia.
  rewrite IH by (done || (cbn in Hn; lia)). done.
Qed.

Lemma not_space_printable c : printable c = true -> is_space (byte_of c) = false.
Proof.
  unfold printable, in_range. intros H. to_prop. unfold is_space, in_range.
  apply not_true_iff_false. rewrite !orb_true_iff, !andb_true_iff, !Z.leb_le, !Z.eqb_eq. lia.
Qed.

Lemma drop_spaces_id rs : existsb (fun r => is_space r.1.1) rs = false -> drop_spaces rs = rs.
Proof. destruct rs as [|r rs]; cbn; [done|]. intros [H _]%orb_false_iff. by rewrite H. Qed.

Lemma all_chars_forallb p s : all_chars p s = List.forallb p (String.list_ascii_of_string s).
Proof. induction s as [|c s IH]; cbn; [done|]. by rewrite IH. Qed.

Lemma trim_space_printable s : all_chars printable s = true -> trim_space s = s.
Proof.
  rewrite all_chars_forallb. intros Hp. unfold trim_space, runes.
  rewrite runes_fuel_printable by done. set (l := String.list_ascii_of_string s) in *.
  assert (forall l', (forall c, In c l' -> In c l) ->
    existsb (fun r => is_space r.1.1) (map (fun c => (byte_of c, true, [c])) l') = false) as Hn.
  { intros l' Hl'. apply not_true_iff_false. intros (r & (c & <- & Hc)%in_map_iff & Hs)%existsb_exists.
    apply Hl' in Hc. rewrite List.forallb_forall in Hp. cbn in Hs.
    by rewrite not_space_printable in Hs by auto. }
  rewrite (drop_spaces_id (map _ l)) by by apply Hn.
  rewrite <- map_rev, drop_spaces_id by (apply Hn; intros c; by rewrite <- in_rev).
  rewrite map_rev, rev_involutive. unfold unrunes. rewrite map_map. cbn.
  replace (List.concat (map (fun x => [x]) l)) with l by (clear; induction l; cbn; congruence).
  apply String.string_of_list_ascii_of_string.
Qed.

Lemma itoa_printable z : 0 <= z < 256 -> all_chars printable (itoa z) = true.
Proof.
  intros Hz. assert (forallb (fun z => all_chars printable (itoa z)) (seqZ 0 256) = true) as H
    by by vm_compute.
  rewrite List.forallb_forall in H. apply H, list_elem_of_In, elem_of_seqZ. lia.
Qed.

Lemma hex16_printable g : all_chars printable (hex16 g) = true.
Proof.
  assert (forall i, printable (hex_digit (Z.land (Z.shiftr g (4 * i)) 15)) = true) as Hp.
  { intros i. assert (forallb (fun d => printable (hex_digit d)) (seqZ 0 16) = true) as H
      by by vm_compute.
    rewrite List.forallb_forall in H. apply H, list_elem_of_In, elem_of_seqZ.
    pose proof (nibble_range g i). lia. }
  unfold hex16. destruct (4095 <? g); [|destruct (255 <? g); [|destruct (15 <? g)]];
    cbn [String.string_of_list_ascii all_chars]; by rewrite !Hp.
Qed.

Lemma join_groups_printable l : all_chars printable (join_groups l) = true.
Proof.
  induction l as [|g l IH]; [done|]. destruct l as [|h l]; [apply hex16_printable|].
  change (join_groups (g :: h :: l)) with (hex16 g +:+ ":" +:+ join_groups (h :: l)).
  by rewrite !all_chars_app, hex16_printable, IH.
Qed.

Lemma prefix_String_printable p :
  prefix_wf p -> Is4In6 (p_addr p) = false -> all_chars printable (prefix_String p) = true.
Proof.
  intros (Hwf & Hz & Hzone & Hb) H46. unfold prefix_String, IsValid.
  rewrite (proj2 (Z.leb_le 0 _)), !all_chars_app by lia.
  rewrite (itoa_printable (p_bits p)) by (destruct (BitLen_cases _ Hz); lia).
  rewrite andb_true_r. destruct (p_addr p) as [|v|v z]; [done| |]; cbn [addr_String Zone] in *.
  - unfold string4. rewrite !all_chars_app, !itoa_printable by apply v4u8_range. done.
  - subst z. rewrite H46. cbn [zone_suffix]. rewrite all_chars_app.
    unfold string6. destruct (best_run _ _ _) as [st k].
    destruct (k =? 0)%nat; rewrite ?all_chars_app, !join_groups_printable; done.
Qed.

(** ** Normalised prefixes *)

Record canonical (p : Prefix) : Prop := {
  can_wf : prefix_wf p;
  can_masked : Masked p = p;
  can_family : Is4In6 (p_addr p) = false }.

Lemma Unmap_not_4In6 a : Is4In6 (Unmap a) = false.
Proof. unfold Unmap. destruct (Is4In6 a) eqn:E; [done|exact E]. Qed.

(** Masking an IPv6 prefix does not make it IPv4-mapped: bit 32 of a mapped
    address is one, so at least 96 bits survived. *)
Lemma Masked_not_4In6 p :
  prefix_wf p -> Is4In6 (p_addr p) = false -> Is4In6 (p_addr (Masked p)) = false.
Proof.
  intros Hp H. rewrite Masked_eq by done. destruct Hp as (Hwf & Hz & Hzone & Hb).
  destruct (p_addr p) as [|v|v z] eqn:Ea; [done..|]. cbn in *. unfold net. cbn.
  set (b := p_bits p) in *. apply Z.eqb_neq in H. apply Z.eqb_neq.
  destruct (Z.le_gt_cases 96 b) as [Hge|Hlt].
  - replace (Z.shiftr (Z.shiftl (Z.shiftr v (128 - b)) (128 - b)) 32) with (Z.shiftr v 32); [done|].
    apply Z.bits_inj'. intros n Hn. rewrite !Z.shiftr_spec by lia.
    rewrite Z.shiftl_spec by lia. rewrite Z.shiftr_spec by lia. f_equal. lia.
  - intros E. assert (Z.testbit 65535 0 = true) as Hbit by done. rewrite <- E in Hbit.
    rewrite Z.shiftr_spec, Z.shiftl_spec in Hbit by lia.
    rewrite Z.testbit_neg_r in Hbit by lia. done.
Qed.

Lemma Masked_canonical p : prefix_wf p -> Is4In6 (p_addr p) = false -> canonical (Masked p).
Proof.
  intros Hp H. split; [by apply Masked_wf|by apply Masked_idemp|by apply Masked_not_4In6].
Qed.

Lemma Unmap_wf a : addr_wf a -> a <> AddrZero -> addr_wf (Unmap a) /\ Unmap a <> AddrZero.
Proof.
  intros Hwf Hz. unfold Unmap. destruct (Is4In6 a); [|done]. split; [|done].
  unfold addr_wf. cbn [addr_value BitLen]. rewrite Z.land_ones by lia. apply Z.mod_pos_bound. lia.
Qed.

Lemma NormalizePrefix_Ok raw p : NormalizePrefix raw = Ok p -> canonical p.
Proof.
  unfold NormalizePrefix. destruct (_ || _); [done|].
  destruct (ParsePrefix raw) as [q|] eqn:E; [|done]. apply ParsePrefix_wf in E as Hq.
  destruct (_ || _); [done|]. pose proof Hq as (Hwf & Hz & Hzone & Hb).
  destruct (Is4In6 (p_addr q)) eqn:E4.
  - destruct (Z.ltb_spec (p_bits q) 96); [done|]. intros [= <-].
    assert (exists v, Unmap (p_addr q) = Addr4 v /\ BitLen (p_addr q) = 128) as (v & Ev & El).
    { unfold Unmap. rewrite E4. eexists. split; [done|]. by destruct (p_addr q). }
    destruct (Unmap_wf (p_addr q)) as [Hu Hu']; [done..|]. rewrite Ev in *.
    assert (prefix_wf (PrefixFrom (Addr4 v) (p_bits q - 96))) as Hpf
      by (apply PrefixFrom_wf; [done..|cbn; lia]).
    apply Masked_canonical; [done|]. unfold PrefixFrom. by destruct (_ && _).
  - intros [= <-]. by apply Masked_canonical.
Qed.

Lemma NormalizeAddress_Ok raw a :
  NormalizeAddress raw = Ok a ->
  addr_wf a /\ a <> AddrZero /\ Is4In6 a = false /\ Zone a = ""%string.
Proof.
  unfold NormalizeAddress. destruct (_ || _); [done|].
  destruct (ParseAddr raw) as [b|] eqn:E; [|done]. apply ParseAddr_wf in E as [Hwf Hz].
  destruct (String.eqb_spec (Zone b) ""); cbn [negb]; [|done]. intros [= <-].
  destruct (Unmap_wf b) as [H1 H2]; [done..|]. split_and!; [done..|apply Unmap_not_4In6|].
  unfold Unmap. by destruct (Is4In6 b).
Qed.

Lemma host_canonical a :
  addr_wf a -> a <> AddrZero -> Is4In6 a = false -> Zone a = ""%string ->
  canonical (PrefixFrom a (BitLen a)) /\ p_bits (PrefixFrom a (BitLen a)) = BitLen a /\
  p_addr (PrefixFrom a (BitLen a)) = a.
Proof.
  intros Hwf Hz H46 Hzone.
  assert (PrefixFrom a (BitLen a) = MkPrefix a (BitLen a)) as E.
  { unfold PrefixFrom. rewrite bool_decide_eq_false_2 by done.
    rewrite !(proj2 (Z.leb_le _ _)) by (destruct (BitLen_cases _ Hz); lia).
    destruct a as [|v|v z]; cbn in *; [done..|]. by subst z. }
  rewrite E. split; [|done]. split; cbn; [|..|done].
  - split_and!; cbn; try done; destruct (BitLen_cases _ Hz); lia.
  - rewrite Masked_eq; cbn.
    + unfold net. rewrite Z.sub_diag, Z.shiftr_0_r, Z.shiftl_0_r. by rewrite with_value_self.
    + split_and!; cbn; try done; destruct (BitLen_cases _ Hz); lia.
Qed.

Lemma canonical_round_trip p : canonical p -> NormalizePrefix (prefix_String p) = Ok p.
Proof.
  intros [Hwf Hm H46]. unfold NormalizePrefix.
  assert (String.eqb (prefix_String p) "" = false) as ->.
  { pose proof (ParsePrefix_String p Hwf H46) as E. by destruct (prefix_String p). }
  rewrite trim_space_printable, String.eqb_refl by by apply prefix_String_printable.
  cbn [negb orb]. rewrite ParsePrefix_String by done.
  destruct Hwf as (_ & _ & -> & Hb). unfold IsValid. rewrite (proj2 (Z.leb_le 0 _)) by lia.
  cbn [negb orb String.eqb]. by rewrite H46, Hm.
Qed.

(** ** Properties *)

(** C37: [IsSafePrefix] accepts a well-formed prefix exactly when it is masked,
    its network address is global unicast, and none of its addresses lies in
    any of the special-purpose ranges. *)
Theorem IsSafePrefix_sound_complete p :
  prefix_wf p ->
  fst (IsSafePrefix p) = true <->
  Masked p = p /\ IsGlobalUnicast (p_addr p) = true /\
  forall s a, In s safetyPrefixes -> addr_wf a -> a <> AddrZero ->
    Contains p a = true -> Contains s a = false.
Proof.
  intros Hp. rewrite IsSafePrefix_true. unfold IsValid.
  rewrite (proj2 (Z.leb_le 0 (p_bits p))) by apply Hp. split.
  - intros (_ & Hm & Hg & Hs). split_and!; [done..|]. intros s a Hin Ha Haz Hc.
    apply not_true_is_false. intros Hcs. specialize (Hs s Hin).
    rewrite (proj2 (Overlaps_iff_shared p s Hp (safetyPrefixes_wf s Hin))) in Hs; [done|eauto].
  - intros (Hm & Hg & Hs). split_and!; [done..|]. intros s Hin. apply not_true_is_false.
    intros (a & Ha & Haz & Hc & Hcs)%Overlaps_iff_shared; [|done|by apply safetyPrefixes_wf].
    by rewrite (Hs s a) in Hcs.
Qed.

Lemma IsSafePrefix_sound_complete_witness :
  let p := MkPrefix (Addr4 134744064) 24 in
  prefix_wf p /\ Contains p (Addr4 134744072) = true /\
  Contains (MkPrefix (Addr4 134217728) 7) (Addr4 134744072) = true /\
  forall s, In s safetyPrefixes -> Contains s (Addr4 134744072) = false.
Proof.
  assert (prefix_wf (MkPrefix (Addr4 134744064) 24)) as Hp by by apply prefix_wfb_true.
  cbv zeta. split_and!; [done..|]. intros s Hs.
  eapply (proj1 (IsSafePrefix_sound_complete _ Hp)); [by vm_compute|done| |done|by vm_compute].
  split; cbn; lia.
Defined.

(** [NormalizePrefix] returns only canonical prefixes (well-formed,
    masked, never IPv4-mapped), and it reads back the text of any canonical
    prefix as that prefix: normalising is idempotent through text. *)
Theorem NormalizePrefix_round_trip p :
  canonical p <-> exists raw, NormalizePrefix raw = Ok p /\ NormalizePrefix (prefix_String p) = Ok p.
Proof.
  split.
  - intros Hp. exists (prefix_String p). split; by apply canonical_round_trip.
  - intros (raw & H & _). by eapply NormalizePrefix_Ok.
Qed.

(** An accepted feed value is canonical, of the kind its text shows, and
    passes [ValidateKind] with it: a bare address is a full-length prefix and
    text with a slash is a range. *)
Theorem ParseValue_kind raw p k :
  ParseValue raw = Ok (p, k) ->
  canonical p /\ ValidateKind p k = true /\
  k = (if contains_byte "/" raw then KindRange else KindIP) /\
  (k = KindIP -> p_bits p = BitLen (p_addr p)).
Proof.
  unfold ParseValue. destruct (contains_byte "/" raw).
  - destruct (NormalizePrefix raw) as [q|] eqn:E; [|done]. intros [= <- <-].
    apply NormalizePrefix_Ok in E as Hc. pose proof Hc as [Hwf Hm H46].
    split_and!; [done| |done|done]. unfold ValidateKind, IsValid.
    rewrite (proj2 (Z.leb_le 0 _)) by apply Hwf. by rewrite bool_decide_eq_true_2.
  - destruct (NormalizeAddress raw) as [a|] eqn:E; [|done]. intros [= <- <-].
    apply NormalizeAddress_Ok in E as (Hwf & Hz & H46 & Hzone).
    destruct (host_canonical a) as (Hc & Hb & Ha); [done..|]. pose proof Hc as [Hwf' Hm _].
    split_and!; [done| |done|by rewrite Ha]. unfold ValidateKind, IsValid.
    rewrite Hm, bool_decide_eq_true_2, Hb, Ha, Z.eqb_refl by done.
    by rewrite (proj2 (Z.leb_le 0 _)) by (destruct (BitLen_cases _ Hz); lia).
Qed.

Lemma ParseValue_kind_witness :
  ParseValue "8.8.8.8" = Ok (MkPrefix (Addr4 134744072) 32, KindIP) /\
  ValidateKind (MkPrefix (Addr4 134744072) 32) KindIP = true.
Proof.
  split; [by vm_compute|]. apply (ParseValue_kind "8.8.8.8"). by vm_compute.
Defined.

(** the objects of [BuildDesired] are in strictly increasing order, and
    there is one for exactly the masked prefixes of the candidates that are
    safe, of a valid kind and attributed to a feed: nothing is merged,
    expanded or invented. *)
Theorem BuildDesired_prefixes cs al :
  let objs := (BuildDesired cs al).1 in
  StronglySorted (fun a b => compareObject a b < 0) objs /\
  forall p, (exists o, In o objs /\ ob_Prefix o = p) <->
            (exists c, In c cs /\ acceptable c = true /\ Masked (cd_Prefix c) = p).
Proof.
  intros objs. split.
  - unfold objs. rewrite BuildDesired_objects.
    set (base := base_objects al (builders_of cs)). set (f := cover_one base).
    assert (NoDup (map ob_Prefix base)) as Hnd.
    { unfold base, base_objects. rewrite sort_func_perm, map_map.
      erewrite map_ext; [apply builders_of_NoDup|]. intros b. apply ob_Prefix_object_of. }
    assert (StronglySorted (cmp_le compareObject) base) as Hs by apply sort_func_sorted, _.
    assert (forall o, ob_Prefix (f o) = ob_Prefix o) as Hf by apply ob_Prefix_cover_one.
    clearbody f base. revert Hnd. induction Hs as [|o l Hl IH Hle]; cbn; intros Hnd; [constructor|].
    apply list.NoDup_cons in Hnd as [Hnin Hnd]. constructor; [by apply IH|].
    apply List.Forall_map, List.Forall_forall. intros x Hx.
    rewrite List.Forall_forall in Hle. specialize (Hle x Hx). unfold cmp_le, compareObject in *.
    rewrite !Hf.
    destruct (Z.eq_dec (compare_prefix (ob_Prefix o) (ob_Prefix x)) 0) as [E|]; [|lia].
    apply compare_prefix_eq in E. contradict Hnin. rewrite E.
    apply list_elem_of_fmap. exists x. by rewrite list_elem_of_In.
  - intros p. rewrite <- of_prefix_ne. unfold objs. split.
    + intros (o & (q & Hq & ->)%in_BuildDesired & <-).
      by rewrite ob_Prefix_cover_one, ob_Prefix_object_of, bd_prefix_build.
    + intros Hp. eexists. split; [apply in_BuildDesired; by exists p|].
      by rewrite ob_Prefix_cover_one, ob_Prefix_object_of, bd_prefix_build.
Qed.

Lemma ob_Contributors_built al base p cs :
  let o := cover_one base (object_of al (build_of p cs)) in
  ob_Prefix o = p /\
  ob_Contributors o = sort_func compareContributor (bd_contributors (build_of p cs)) /\
  ob_Primary o = default no_contributor (head (ob_Contributors o)) /\
  ob_Scope o = scope_of (ob_Contributors o).
Proof.
  cbv zeta. unfold cover_one, object_of.
  assert (bd_prefix (build_of p cs) = p) by apply bd_prefix_build.
  destruct (overlapsAllowlist _ _); destruct (is_host _); try destruct (find_cover _ _ _); done.
Qed.

(** provenance.  An object's contributors are the distinct feeds, names
    and kinds of the accepted candidates of its prefix, in the contributors'
    order; the primary is the first of them, and the scope is [Ip] as soon as
    one of them is a bare address. *)
Theorem BuildDesired_provenance cs al o :
  In o (BuildDesired cs al).1 ->
  (forall t, In t (ob_Contributors o) -> exists c, In c cs /\ acceptable c = true /\
     Masked (cd_Prefix c) = ob_Prefix o /\ t = candidate_contributor c) /\
  (forall c, In c cs -> acceptable c = true -> Masked (cd_Prefix c) = ob_Prefix o ->
     exists t, In t (ob_Contributors o) /\ ct_FeedID t = cd_FeedID c /\
       ct_FeedName t = cd_FeedName c /\ ct_Kind t = cd_Kind c) /\
  NoDup (map (fun t => (ct_FeedID t, ct_FeedName t, ct_Kind t)) (ob_Contributors o)) /\
  StronglySorted (cmp_le compareContributor) (ob_Contributors o) /\
  head (ob_Contributors o) = Some (ob_Primary o) /\
  (ob_Scope o = ScopeIP <-> exists t, In t (ob_Contributors o) /\ ct_Kind t = KindIP).
Proof.
  intros (p & Hp & ->)%in_BuildDesired.
  destruct (ob_Contributors_built al (base_objects al (builders_of cs)) p (of_prefix p cs))
    as (Ep & Ec & Epr & Es).
  revert Ep Ec Epr Es. generalize (cover_one (base_objects al (builders_of cs))
    (object_of al (build_of p (of_prefix p cs)))) as o. intros o Ep Ec Epr Es.
  destruct (build_of_ok p (of_prefix p cs)) as [_ _ Hc Hs Hn].
  assert (forall t, In t (ob_Contributors o) <-> In t (bd_contributors (build_of p (of_prefix p cs)))) as Hin.
  { intros t. rewrite Ec, <- !list_elem_of_In. by rewrite elem_of_sort_func. }
  assert (forall c, In c (of_prefix p cs) <-> In c cs /\ acceptable c = true /\ Masked (cd_Prefix c) = p) as Hof.
  { intros c. unfold of_prefix. rewrite filter_In, andb_true_iff, bool_decide_eq_true. naive_solver. }
  split_and!.
  - intros t (c & Hc' & ->)%Hin%Hs. exists c. apply Hof in Hc'. rewrite Ep. naive_solver.
  - intros c Hc1 Hc2 Hc3. rewrite Ep in Hc3. destruct (Hc c) as (t & Ht & Heq).
    { by apply Hof. } exists t. by rewrite Hin.
  - rewrite Ec, sort_func_perm. exact Hn.
  - rewrite Ec. apply sort_func_sorted, _.
  - destruct (ob_Contributors o) as [|t l] eqn:E; [|by rewrite Epr].
    apply of_prefix_ne in Hp as (c & Hc1 & Hc2 & Hc3). destruct (Hc c) as (t & Ht & _).
    { by apply Hof. } by apply Hin in Ht.
  - rewrite Es. unfold scope_of. destruct (existsb _ _) eqn:E.
    + split; [|done]. intros _. apply existsb_exists in E as (t & Ht & Hk). exists t. by to_prop.
    + split; [done|]. intros (t & Ht & Hk). rewrite <- not_true_iff_false, existsb_exists in E.
      destruct E. exists t. by rewrite bool_decide_eq_true_2.
Qed.

Definition ex_candidates : list Candidate :=
  [MkCandidate (MkPrefix (Addr4 134744072) 32) KindIP 1 "ips" 1;
   MkCandidate (MkPrefix (Addr4 134744064) 24) KindRange 2 "ranges" 2;
   MkCandidate (MkPrefix (Addr4 134744072) 32) KindRange 2 "ranges" 2;
   MkCandidate (MkPrefix (Addr4 151587072) 24) KindRange 2 "ranges" 2].
Definition ex_allowlist : list Prefix := [MkPrefix (Addr4 151587081) 32].

Lemma BuildDesired_provenance_witness :
  exists o, In o (BuildDesired ex_candidates ex_allowlist).1 /\
    ob_Scope o = ScopeIP /\ exists t, In t (ob_Contributors o) /\ ct_Kind t = KindIP.
Proof.
  pose (o := nth 1 (BuildDesired ex_candidates ex_allowlist).1
    (MkObject ZeroPrefix ScopeIP [] no_contributor false SuppressedNone None)).
  assert (In o (BuildDesired ex_candidates ex_allowlist).1) as Ho by (vm_compute; auto).
  exists o. split; [exact Ho|]. split; [by vm_compute|].
  apply (BuildDesired_provenance _ _ _ Ho). by vm_compute.
Defined.

Lemma object_of_suppression al base b :
  let o := cover_one base (object_of al b) in
  let allowed := overlapsAllowlist (bd_prefix b) al in
  let host := bool_decide (ob_Scope o = ScopeIP) in
  match allowed, host, find_cover (object_of al b) base None with
  | true, _, _ => ob_Suppression o = SuppressedAllowlist /\ ob_Desired o = false /\ ob_CoveredBy o = None
  | false, true, Some c => ob_Suppression o = SuppressedCovered /\ ob_Desired o = false /\ ob_CoveredBy o = Some c
  | false, _, _ => ob_Suppression o = SuppressedNone /\ ob_Desired o = true /\ ob_CoveredBy o = None
  end.
Proof.
  cbv zeta. unfold cover_one.
  assert (is_host (object_of al b) =
    negb (overlapsAllowlist (bd_prefix b) al) && bool_decide (ob_Scope (object_of al b) = ScopeIP)) as ->.
  { unfold is_host, object_of. change (ob_Prefix (base_object b)) with (bd_prefix b).
    by destruct (overlapsAllowlist _ _). }
  destruct (overlapsAllowlist (bd_prefix b) al) eqn:Ea; cbn [negb andb].
  - unfold object_of. change (ob_Prefix (base_object b)) with (bd_prefix b). by rewrite Ea.
  - assert (object_of al b = base_object b) as ->.
    { unfold object_of. change (ob_Prefix (base_object b)) with (bd_prefix b). by rewrite Ea. }
    destruct (bool_decide (ob_Scope (base_object b) = ScopeIP)) eqn:Eb; [|by rewrite Eb].
    destruct (find_cover (base_object b) base None) as [c|].
    + change (ob_Scope (suppress_covered (base_object b) c)) with (ob_Scope (base_object b)).
      by rewrite Eb.
    + by rewrite Eb.
Qed.

(** A range of the result that is desired and contains a host. *)
Definition desired_range_over (objs : list Object) (h : Object) (p : Prefix) : Prop :=
  exists r, In r objs /\ ob_Desired r = true /\ ob_Scope r = ScopeRange /\ ob_Prefix r = p /\
    p_bits p < BitLen (p_addr (ob_Prefix h)) /\ Contains p (p_addr (ob_Prefix h)) = true.

Lemma covers_true o h :
  covers o h = true <-> ob_Desired o = true /\ ob_Scope o = ScopeRange /\
    p_bits (ob_Prefix o) < BitLen (p_addr (ob_Prefix h)) /\
    Contains (ob_Prefix o) (p_addr (ob_Prefix h)) = true.
Proof.
  unfold covers. rewrite !andb_true_iff, Z.ltb_lt, bool_decide_eq_true. tauto.
Qed.

Lemma is_cover_result cs al h h' p :
  ob_Prefix h' = ob_Prefix h ->
  is_cover h (base_objects al (builders_of cs)) p <->
  desired_range_over (BuildDesired cs al).1 h' p.
Proof.
  intros Hp. rewrite BuildDesired_objects. unfold is_cover, desired_range_over.
  set (base := base_objects al (builders_of cs)). rewrite Hp. split.
  - intros (o & Ho & Hc & <-). exists (cover_one base o).
    assert (covers (cover_one base o) h = true) as Hc' by by rewrite covers_cover_one.
    apply covers_true in Hc' as (H1 & H2 & H3 & H4). rewrite ob_Prefix_cover_one in *.
    split_and!; [by apply in_map|done..].
  - intros (r & (o & <- & Ho)%in_map_iff & H1 & H2 & <- & H3 & H4).
    exists o. rewrite ob_Prefix_cover_one. split_and!; [done| |done].
    rewrite <- (covers_cover_one base), covers_true. split_and!; try done; by rewrite ob_Prefix_cover_one.
Qed.

(** Why an object of the result is withheld, if it is. *)
Lemma suppression_facts cs al o : In o (BuildDesired cs al).1 ->
  let over := desired_range_over (BuildDesired cs al).1 o in
  match ob_Suppression o with
  | SuppressedAllowlist =>
      overlapsAllowlist (ob_Prefix o) al = true /\ ob_Desired o = false /\ ob_CoveredBy o = None
  | SuppressedCovered =>
      overlapsAllowlist (ob_Prefix o) al = false /\ ob_Desired o = false /\ ob_Scope o = ScopeIP /\
      exists c, ob_CoveredBy o = Some c /\ over c /\ forall p, over p -> p_bits p <= p_bits c
  | SuppressedNone =>
      overlapsAllowlist (ob_Prefix o) al = false /\ ob_Desired o = true /\ ob_CoveredBy o = None /\
      ~ (ob_Scope o = ScopeIP /\ exists p, over p)
  end.
Proof.
  intros (p & Hp & ->)%in_BuildDesired. cbv zeta.
  set (base := base_objects al (builders_of cs)). set (b := build_of p (of_prefix p cs)).
  set (o := cover_one base (object_of al b)).
  pose proof (object_of_suppression al base b) as Hsup. cbv zeta in Hsup. fold o in Hsup.
  assert (ob_Prefix o = bd_prefix b) as Epo
    by (unfold o; by rewrite ob_Prefix_cover_one, ob_Prefix_object_of).
  assert (forall q, is_cover (object_of al b) base q <-> desired_range_over (BuildDesired cs al).1 o q)
    as Hcov by (intros q; apply is_cover_result; by rewrite Epo, ob_Prefix_object_of).
  pose proof (find_cover_spec (object_of al b) base None) as Hf. rewrite <- Epo in Hsup.
  destruct (overlapsAllowlist (ob_Prefix o) al); [by destruct Hsup as (-> & -> & ->)|].
  case_bool_decide as Hsc; [destruct (find_cover (object_of al b) base None) as [c|]|].
  - destruct Hsup as (-> & -> & ->). destruct Hf as [[?|Hc] Hmax]; [done|]. split_and!; try done.
    exists c. split_and!; [done|by apply Hcov|]. intros q Hq. apply Hmax. right. by apply Hcov.
  - destruct Hsup as (-> & -> & ->). destruct Hf as [_ Hno]. split_and!; try done.
    intros (_ & q & Hq). by apply Hcov, Hno in Hq.
  - destruct Hsup as (-> & -> & ->). split_and!; try done. by intros (? & _).
Qed.

(** precedence of the suppressions.  An object is withheld for the
    allowlist exactly when its prefix shares addresses with a valid allowlist
    entry; otherwise it is withheld as covered exactly when it is a host and a
    range of the result that is itself desired contains it, and then
    [CoveredBy] is the most specific such range; every other object is
    desired. *)
Theorem BuildDesired_suppression cs al o :
  In o (BuildDesired cs al).1 ->
  let objs := (BuildDesired cs al).1 in
  let allowed := exists a, In a al /\ IsValid a = true /\ Overlaps (ob_Prefix o) (Masked a) = true in
  let coverable := ob_Scope o = ScopeIP /\ exists p, desired_range_over objs o p in
  (ob_Suppression o = SuppressedAllowlist <-> allowed) /\
  (ob_Suppression o = SuppressedCovered <-> ~ allowed /\ coverable) /\
  (ob_Desired o = true <-> ob_Suppression o = SuppressedNone) /\
  (forall c, ob_CoveredBy o = Some c <->
     ob_Suppression o = SuppressedCovered /\ ob_CoveredBy o = Some c /\
     desired_range_over objs o c /\
     forall p, desired_range_over objs o p -> p_bits p <= p_bits c).
Proof.
  intros Ho. pose proof (suppression_facts cs al o Ho) as H. cbv zeta in *. rewrite <- overlapsAllowlist_true.
  destruct (ob_Suppression o).
  - destruct H as (-> & -> & -> & Hn). split_and!; try done.
    + split; [done|]. by intros [_ ?]. + intros c. by split; [|intros (? & _)].
  - destruct H as (-> & -> & ->). split_and!; try done.
    + split; [done|]. by intros [? _]. + intros c. by split; [|intros (? & _)].
  - destruct H as (-> & -> & Hs & c & -> & Hc & Hmax). split_and!; try done.
    + split; [|done]. intros _. split; [done|]. split; [done|]. by exists c.
    + intros c'. split; [|by intros (_ & -> & _)]. by intros [= <-].
Qed.

Lemma BuildDesired_suppression_witness :
  exists o, In o (BuildDesired ex_candidates ex_allowlist).1 /\
    ob_Suppression o = SuppressedCovered /\
    desired_range_over (BuildDesired ex_candidates ex_allowlist).1 o (MkPrefix (Addr4 134744064) 24).
Proof.
  pose (o := nth 1 (BuildDesired ex_candidates ex_allowlist).1
    (MkObject ZeroPrefix ScopeIP [] no_contributor false SuppressedNone None)).
  assert (In o (BuildDesired ex_candidates ex_allowlist).1) as Ho by (vm_compute; auto).
  exists o. split; [exact Ho|]. split; [by vm_compute|].
  destruct (BuildDesired_suppression _ _ _ Ho) as (_ & _ & _ & H).
  apply (H (MkPrefix (Addr4 134744064) 24)). by vm_compute.
Defined.

Lemma count_split3 {A} (f g h : A -> bool) (xs : list A) :
  (forall x, In x xs -> (f x = true /\ g x = false /\ h x = false) \/
     (f x = false /\ g x = true /\ h x = false) \/ (f x = false /\ g x = false /\ h x = true)) ->
  List.length xs = (List.length (List.filter f xs) + List.length (List.filter g xs) +
                    List.length (List.filter h xs))%nat.
Proof.
  induction xs as [|x xs IH]; intros H; [done|]. cbn [List.filter].
  specialize (IH (fun y Hy => H y (or_intror Hy))).
  destruct (H x (or_introl eq_refl)) as [(-> & -> & ->)|[(-> & -> & ->)|(-> & -> & ->)]];
    cbn [List.length]; lia.
Qed.

Lemma length_filter_map {A B} (f : A -> B) (p : B -> bool) xs :
  List.length (List.filter p (map f xs)) = List.length (List.filter (fun x => p (f x)) xs).
Proof. induction xs as [|x xs IH]; cbn; [done|]. destruct (p (f x)); cbn; by rewrite IH. Qed.

Lemma length_filter_perm {A} (p : A -> bool) xs ys :
  xs ≡ₚ ys -> List.length (List.filter p xs) = List.length (List.filter p ys).
Proof. induction 1; cbn; repeat destruct (p _); cbn; lia. Qed.

Lemma length_filter_ext {A} (p q : A -> bool) xs :
  (forall x, In x xs -> p x = q x) -> List.length (List.filter p xs) = List.length (List.filter q xs).
Proof. intros H. by rewrite (filter_ext_in p q) by done. Qed.

Definition suppressed_as (s : Suppression) (objs : list Object) : Z :=
  Z.of_nat (List.length (List.filter (fun o => bool_decide (ob_Suppression o = s)) objs)).

(** The summary accounts for every candidate and every object: the input
    splits into rejected candidates, exact duplicates and objects, and the
    objects into desired, allowlisted and covered ones, each counter being the
    number of objects in that state. *)
Theorem BuildDesired_summary cs al :
  let '(objs, s) := BuildDesired cs al in
  sm_Input s = Z.of_nat (List.length cs) /\
  sm_Objects s = Z.of_nat (List.length objs) /\
  sm_Input s = sm_RejectedSafety s + sm_ExactDuplicates s + sm_Objects s /\
  sm_Objects s = sm_Desired s + sm_Allowlisted s + sm_CoveredHosts s /\
  sm_RejectedSafety s = Z.of_nat (List.length (List.filter (fun c => negb (acceptable c)) cs)) /\
  sm_Desired s = suppressed_as SuppressedNone objs /\
  sm_Allowlisted s = suppressed_as SuppressedAllowlist objs /\
  sm_CoveredHosts s = suppressed_as SuppressedCovered objs.
Proof.
  destruct (BuildDesired_eq cs al) as (dup & rej & -> & Hd & Hr).
  rewrite BuildDesired_order_eq. cbv zeta. cbn [sm_Input sm_Objects sm_Desired sm_ExactDuplicates
    sm_RejectedSafety sm_Allowlisted sm_CoveredHosts].
  set (order := builders_of cs) in *. set (base := base_objects al order).
  set (objs := map (cover_one base) base).
  assert (forall b, ob_Desired (cover_one base (object_of al b)) =
    bool_decide (ob_Suppression (cover_one base (object_of al b)) = SuppressedNone)) as Hdes.
  { intros b. pose proof (object_of_suppression al base b) as H. cbv zeta in H.
    destruct (overlapsAllowlist _ _); [|destruct (bool_decide _); [destruct (find_cover _ _ _)|]];
      by destruct H as (-> & -> & _). }
  assert (base ≡ₚ map (object_of al) order) as Hperm by apply sort_func_perm.
  assert (forall f, List.length (List.filter f objs) =
    List.length (List.filter (fun b => f (cover_one base (object_of al b))) order)) as Hcount.
  { intros f. unfold objs. rewrite length_filter_map, (length_filter_perm _ _ _ Hperm).
    by rewrite length_filter_map. }
  assert (count_desired objs = suppressed_as SuppressedNone objs) as E1.
  { unfold count_desired, suppressed_as. rewrite !Hcount. f_equal. apply length_filter_ext. auto. }
  assert (count_allowlisted al order = suppressed_as SuppressedAllowlist objs) as E2.
  { unfold count_allowlisted, suppressed_as. rewrite Hcount. f_equal. apply length_filter_ext.
    intros b _. pose proof (object_of_suppression al base b) as H. cbv zeta in H.
    destruct (overlapsAllowlist _ _); [|destruct (bool_decide _); [destruct (find_cover _ _ _)|]];
      by destruct H as (-> & _). }
  assert (count_covered base base = suppressed_as SuppressedCovered objs) as E3.
  { unfold count_covered, suppressed_as. rewrite Hcount. rewrite (length_filter_perm _ _ _ Hperm).
    rewrite length_filter_map. f_equal. apply length_filter_ext.
    intros b _. pose proof (object_of_suppression al base b) as H. cbv zeta in H.
    unfold covered. assert (is_host (object_of al b) =
      negb (overlapsAllowlist (bd_prefix b) al) &&
      bool_decide (ob_Scope (cover_one base (object_of al b)) = ScopeIP)) as ->.
    { unfold cover_one. destruct (is_host (object_of al b)) eqn:E.
      - unfold is_host, object_of in *. change (ob_Prefix (base_object b)) with (bd_prefix b) in *.
        destruct (overlapsAllowlist (bd_prefix b) al); [done|].
        by destruct (find_cover (base_object b) base None).
      - unfold is_host, object_of in *. change (ob_Prefix (base_object b)) with (bd_prefix b) in *.
        by destruct (overlapsAllowlist (bd_prefix b) al). }
    destruct (overlapsAllowlist _ _); [by destruct H as (-> & _)|].
    destruct (bool_decide _); [|by destruct H as (-> & _)].
    by destruct (find_cover _ _ _); destruct H as (-> & _). }
  assert (List.length objs = List.length order) as El.
  { unfold objs. rewrite length_map. rewrite (Permutation_length Hperm). apply length_map. }
  pose proof (count_split3 (fun o => bool_decide (ob_Suppression o = SuppressedNone))
    (fun o => bool_decide (ob_Suppression o = SuppressedAllowlist))
    (fun o => bool_decide (ob_Suppression o = SuppressedCovered)) objs) as H3.
  pose proof (count_split3 acceptable (fun c => negb (acceptable c)) (fun _ => false) cs) as H4.
  assert (forall l : list Candidate, List.filter (fun _ => false) l = []) as Hnil by (by intros l; induction l).
  rewrite Hnil in H4. cbn [List.length] in H4. unfold accepted in *.
  unfold suppressed_as in *. rewrite El in *.
  split_and!; try done.
  - lia.
  - rewrite E1, E2, E3. rewrite H3; [lia|].
    intros x _. destruct (ob_Suppression x); [left|right; left|right; right]; done.
  - rewrite H4 in Hr; [lia|]. intros x _. destruct (acceptable x); auto.
Qed.

(** the result does not depend on the order in which the [range] over the
    map of builders yields them. *)
Theorem BuildDesired_map_order cs al order :
  order ≡ₚ map snd (map_to_list (build_builders cs).1) ->
  BuildDesired_order order al (build_builders cs).2 = BuildDesired cs al.
Proof.
  intros Hp. unfold BuildDesired. destruct (build_builders_inv cs) as [_ (dup & rej & Hs & _)].
  assert (BuildDesired_order order al (build_builders cs).2 =
          BuildDesired_order (builders_of cs) al (build_builders cs).2) as ->.
  { rewrite Hs, !BuildDesired_order_eq. cbv zeta. rewrite (base_objects_perm cs al order Hp).
    unfold count_allowlisted. rewrite (length_filter_perm _ _ _ Hp). fold (builders_of cs).
    by rewrite (Permutation_length Hp). }
  unfold builders_of. by destruct (build_builders cs).
Qed.

Lemma BuildDesired_map_order_witness :
  let order := rev (map snd (map_to_list (build_builders ex_candidates).1)) in
  BuildDesired_order order ex_allowlist (build_builders ex_candidates).2 =
  BuildDesired ex_candidates ex_allowlist.
Proof. apply BuildDesired_map_order. symmetry. apply Permutation_rev. Defined.

(** C1: no object, enforced or not, contains an address of a special-purpose
    range, and no desired object contains an address of a valid allowlist
    entry, when the prefixes handed in are values of the type. *)
Theorem BuildDesired_safe cs al o a :
  (forall c, In c cs -> IsValid (cd_Prefix c) = true -> prefix_wf (cd_Prefix c)) ->
  (forall p, In p al -> IsValid p = true -> prefix_wf p) ->
  In o (BuildDesired cs al).1 -> addr_wf a -> a <> AddrZero -> Contains (ob_Prefix o) a = true ->
  (forall s, In s safetyPrefixes -> Contains s a = false) /\
  (ob_Desired o = true -> forall p, In p al -> Contains p a = false).
Proof.
  intros Hcs Hal Ho Ha Haz Hc.
  assert (exists p, prefix_wf p /\ ob_Prefix o = p /\ fst (IsSafePrefix p) = true) as (p & Hwf & Ep & Hsafe).
  { apply in_BuildDesired in Ho as (p & (c & Hin & Hacc & <-)%of_prefix_ne & ->).
    rewrite ob_Prefix_cover_one, ob_Prefix_object_of, bd_prefix_build.
    unfold acceptable in Hacc. to_prop. eexists. split_and!; [|done..]. apply Masked_wf, Hcs; [done|].
    match goal with H : fst (IsSafePrefix _) = true |- _ => apply IsSafePrefix_true in H as (Hv & _) end.
    unfold IsValid, Masked, addr_Prefix in *. destruct (Z.ltb_spec (p_bits (cd_Prefix c)) 0); [done|].
    by apply Z.leb_le. }
  rewrite Ep in *. apply IsSafePrefix_true in Hsafe as (_ & _ & _ & Hs). split.
  - intros s Hin. apply not_true_is_false. intros Hcs'. specialize (Hs s Hin).
    rewrite (proj2 (Overlaps_iff_shared p s Hwf (safetyPrefixes_wf s Hin))) in Hs; [done|eauto].
  - intros Hd q Hq. apply not_true_is_false. intros Hcq.
    assert (IsValid q = true) as Hv by (unfold Contains in Hcq; by destruct (IsValid q)).
    specialize (Hal q Hq Hv). rewrite <- Contains_Masked in Hcq by done.
    apply in_BuildDesired in Ho as (p' & _ & Eo).
    pose proof (object_of_suppression al (base_objects al (builders_of cs))
      (build_of p' (of_prefix p' cs))) as Hsup. cbv zeta in Hsup. rewrite <- Eo in Hsup.
    assert (overlapsAllowlist (bd_prefix (build_of p' (of_prefix p' cs))) al = true) as Hover.
    { apply overlapsAllowlist_true. exists q. split_and!; [done..|].
      apply (f_equal ob_Prefix) in Eo. rewrite ob_Prefix_cover_one, ob_Prefix_object_of, Ep in Eo.
      rewrite <- Eo. apply Overlaps_iff_shared; [done|by apply Masked_wf|eauto]. }
    rewrite Hover in Hsup. destruct Hsup as (_ & Hd' & _). congruence.
Qed.

Lemma BuildDesired_safe_witness :
  List.Forall (fun s => Contains s (Addr4 134744072) = false) safetyPrefixes.
Proof.
  apply List.Forall_forall. apply (BuildDesired_safe ex_candidates ex_allowlist
    (nth 0 (BuildDesired ex_candidates ex_allowlist).1
       (MkObject ZeroPrefix ScopeIP [] no_contributor false SuppressedNone None))).
  - intros c Hc _. apply prefix_wfb_true. revert c Hc.
    apply (List.forallb_forall (fun c => prefix_wfb (cd_Prefix c))). by vm_compute.
  - intros p Hp _. apply prefix_wfb_true. revert p Hp. apply List.forallb_forall. by vm_compute.
  - vm_compute. auto.
  - split; cbn; lia.
  - done.
  - by vm_compute.
Defined.
