(* ===== verification/Errors.v ===== *)
(** * Errors, instants and floats

    The error values of the packages ([internal/*/errors.go]): a value of a
    category with an optional cause, the errors of [context], and [errors.Is]
    and [errors.As] along the causes.  [time.Time] is the number of
    nanoseconds since the zero time, a [time.Duration] a 64-bit number of
    nanoseconds, and a [float64] the Standard Library's IEEE 754 [spec_float]. *)

From S2P Require Export GoStrings.
From Stdlib Require Export SpecFloat.

(** ** Error values *)

Module feed.
Inductive ErrorCategory : Type :=
| ErrFormat | ErrPolicy | ErrEmpty | ErrLineTooLong | ErrTruncated | ErrMetadata
| ErrMalformedThreshold | ErrEntryCount | ErrSuspiciousChange | ErrRequest | ErrSSRF
| ErrRedirect | ErrHTTPStatus | ErrBodySize | ErrContentType | ErrHTML | ErrResponseHeader.
End feed.

Module lapi.
Inductive ErrorCategory : Type :=
| ErrAuth | ErrRequest | ErrStatus | ErrResponseSize | ErrContentType | ErrDecode
| ErrContract | ErrNotFound.
End lapi.

Module reconcile.
Inductive ErrorCategory : Type :=
| ErrBusy | ErrContract | ErrState | ErrLAPI | ErrOwnership | ErrToken.
End reconcile.

Module state.
Inductive ErrorCategory : Type :=
| ErrOpen | ErrMigration | ErrIntegrity | ErrQuery | ErrTransaction | ErrNotFound
| ErrConstraint.
End state.

Module syncer.
Inductive ErrorCategory : Type :=
| ErrConfig | ErrState | ErrFeed | ErrReconcile | ErrSelection | ErrDegraded.
End syncer.

#[export] Instance feed_category_eq_dec : EqDecision feed.ErrorCategory.
Proof. solve_decision. Defined.
#[export] Instance lapi_category_eq_dec : EqDecision lapi.ErrorCategory.
Proof. solve_decision. Defined.
#[export] Instance reconcile_category_eq_dec : EqDecision reconcile.ErrorCategory.
Proof. solve_decision. Defined.
#[export] Instance state_category_eq_dec : EqDecision state.ErrorCategory.
Proof. solve_decision. Defined.
#[export] Instance syncer_category_eq_dec : EqDecision syncer.ErrorCategory.
Proof. solve_decision. Defined.

(** A non-nil [error].  [Foreign] is an error of a library, known by name;
    each package's [*Error] has its category and its cause ([Unwrap]). *)
Inductive error : Type :=
| Canceled
| DeadlineExceeded
| Foreign (name : string)
| FeedError (c : feed.ErrorCategory) (cause : option error) (retryAfter : Z)
| LapiError (c : lapi.ErrorCategory) (cause : option error) (status : Z)
| ReconcileError (c : reconcile.ErrorCategory) (cause : option error)
| StateError (c : state.ErrorCategory) (cause : option error)
| SyncError (c : syncer.ErrorCategory) (cause : option error).

Definition feedError (c : feed.ErrorCategory) (cause : option error) : error := FeedError c cause 0.
Definition statusError (retryAfter : Z) : error := FeedError feed.ErrHTTPStatus None retryAfter.
Definition lapiError (c : lapi.ErrorCategory) (cause : option error) : error := LapiError c cause 0.
Definition lapiStatusError (c : lapi.ErrorCategory) (status : Z) (cause : option error) : error :=
  LapiError c cause status.
Definition reconcileError (c : reconcile.ErrorCategory) (cause : option error) : error :=
  ReconcileError c cause.
Definition stateError (c : state.ErrorCategory) (cause : option error) : error := StateError c cause.
Definition syncError (c : syncer.ErrorCategory) (cause : option error) : error := SyncError c cause.

(** The first error of the chain of causes that [f] accepts. *)
Fixpoint chain_find {A} (f : error -> option A) (e : error) : option A :=
  match f e with
  | Some a => Some a
  | None =>
      let next (cause : option error) := match cause with Some e' => chain_find f e' | None => None end in
      match e with
      | FeedError _ cause _ | LapiError _ cause _ | ReconcileError _ cause
      | StateError _ cause | SyncError _ cause => next cause
      | Canceled | DeadlineExceeded | Foreign _ => None
      end
  end.

(** [errors.Is] for the sentinel errors of [context]. *)
Definition is_Canceled (e : error) : bool :=
  match chain_find (fun e => match e with Canceled => Some tt | _ => None end) e with
  | Some _ => true | None => false end.
Definition is_DeadlineExceeded (e : error) : bool :=
  match chain_find (fun e => match e with DeadlineExceeded => Some tt | _ => None end) e with
  | Some _ => true | None => false end.

(** [errors.As] with the packages' error types: the first of the type. *)
Definition as_feed (e : error) : option (feed.ErrorCategory * Z) :=
  chain_find (fun e => match e with FeedError c _ r => Some (c, r) | _ => None end) e.
Definition as_lapi (e : error) : option (lapi.ErrorCategory * Z) :=
  chain_find (fun e => match e with LapiError c _ s => Some (c, s) | _ => None end) e.
Definition as_reconcile (e : error) : option reconcile.ErrorCategory :=
  chain_find (fun e => match e with ReconcileError c _ => Some c | _ => None end) e.
Definition as_state (e : error) : option state.ErrorCategory :=
  chain_find (fun e => match e with StateError c _ => Some c | _ => None end) e.
Definition as_syncer (e : error) : option syncer.ErrorCategory :=
  chain_find (fun e => match e with SyncError c _ => Some c | _ => None end) e.

(** [IsCategory] of each package. *)
Definition feed_IsCategory (e : error) (c : feed.ErrorCategory) : bool :=
  match as_feed e with Some (c', _) => bool_decide (c' = c) | None => false end.
Definition lapi_IsCategory (e : error) (c : lapi.ErrorCategory) : bool :=
  match as_lapi e with Some (c', _) => bool_decide (c' = c) | None => false end.
Definition reconcile_IsCategory (e : error) (c : reconcile.ErrorCategory) : bool :=
  match as_reconcile e with Some c' => bool_decide (c' = c) | None => false end.
Definition state_IsCategory (e : error) (c : state.ErrorCategory) : bool :=
  match as_state e with Some c' => bool_decide (c' = c) | None => false end.
Definition syncer_IsCategory (e : error) (c : syncer.ErrorCategory) : bool :=
  match as_syncer e with Some c' => bool_decide (c' = c) | None => false end.

(** [feed.RetryAfter] *)
Definition RetryAfter (e : error) : Z :=
  match as_feed e with Some (_, r) => r | None => 0 end.

(** ** Instants and durations *)

Definition Time : Type := Z.
Definition Duration : Type := Z.

Definition Microsecond : Duration := 1000.
Definition Millisecond : Duration := 1000000.
Definition Second : Duration := 1000000000.
Definition Minute : Duration := 60 * Second.
Definition Hour : Duration := 60 * Minute.

(** The zero [time.Time]: January 1 of year 1, UTC. *)
Definition time_IsZero (t : Time) : bool := t =? 0.

(** The seconds from the zero time to the Unix epoch. *)
Definition unix_epoch : Z := 62135596800.

Definition time_Unix (t : Time) : Z := t / Second - unix_epoch.
Definition Unix (sec : Z) : Time := (sec + unix_epoch) * Second.
(** The same of any 64-bit number, whose seconds from the zero time wrap around;
    the seconds that the program reads back from its own store are those of [Unix]. *)
Definition Unix_wrapped (sec : Z) : Time := int64_wrap (sec + unix_epoch) * Second.

Definition time_Add (t : Time) (d : Duration) : Time := t + d.
Definition After (t u : Time) : bool := u <? t.
Definition Before (t u : Time) : bool := t <? u.

(** [Time.Sub] saturates at the extreme durations. *)
Definition time_Sub (t u : Time) : Duration :=
  if max_int64 <? t - u then max_int64 else if t - u <? min_int64 then min_int64 else t - u.

(** ** [float64] *)

Definition float64 : Type := spec_float.

(** The conversion of an [int], and division, rounded to nearest even. *)
Definition float_of_int (z : Z) : float64 := binary_normalize 53 1024 z 0 false.
Definition float_div (a b : float64) : float64 := SFdiv 53 1024 a b.
Definition float_lt (a b : float64) : bool := SFltb a b.
Definition float_le (a b : float64) : bool := SFleb a b.
Definition IsNaN (a : float64) : bool := match a with S754_nan => true | _ => false end.
Definition IsInf (a : float64) : bool := match a with S754_infinity _ => true | _ => false end.
