(* ===== verification/Sha256.v ===== *)
(** * The package [crypto/sha256]

    SHA-256 (FIPS 180-4) on byte strings: [Sum256] pads the message, folds the
    compression function over its 64-byte blocks and returns the 32 bytes of
    the digest.  Words are 32-bit integers; additions wrap around. *)

From S2P Require Export GoStrings.

Definition w32 (z : Z) : Z := z mod 4294967296.
Definition rotr (n x : Z) : Z := Z.lor (Z.shiftr x n) (w32 (Z.shiftl x (32 - n))).

Definition round_constants : list Z :=
  [1116352408; 1899447441; 3049323471; 3921009573; 961987163; 1508970993; 2453635748; 2870763221;
   3624381080; 310598401; 607225278; 1426881987; 1925078388; 2162078206; 2614888103; 3248222580;
   3835390401; 4022224774; 264347078; 604807628; 770255983; 1249150122; 1555081692; 1996064986;
   2554220882; 2821834349; 2952996808; 3210313671; 3336571891; 3584528711; 113926993; 338241895;
   666307205; 773529912; 1294757372; 1396182291; 1695183700; 1986661051; 2177026350; 2456956037;
   2730485921; 2820302411; 3259730800; 3345764771; 3516065817; 3600352804; 4094571909; 275423344;
   430227734; 506948616; 659060556; 883997877; 958139571; 1322822218; 1537002063; 1747873779;
   1955562222; 2024104815; 2227730452; 2361852424; 2428436474; 2756734187; 3204031479; 3329325298].

Definition initial_hash : list Z :=
  [1779033703; 3144134277; 1013904242; 2773480762; 1359893119; 2600822924; 528734635; 1541459225].

(** Big-endian words of a byte sequence. *)
Fixpoint words_of (bs : list Z) : list Z :=
  match bs with
  | a :: b :: c :: d :: rest => (((a * 256 + b) * 256 + c) * 256 + d) :: words_of rest
  | _ => []
  end.

Definition bytes_of_word (w : Z) : list Z :=
  [Z.shiftr w 24 mod 256; Z.shiftr w 16 mod 256; Z.shiftr w 8 mod 256; w mod 256].

(** The message schedule: [window] is the last sixteen words, oldest first. *)
Fixpoint schedule (n : nat) (window : list Z) : list Z :=
  match n with
  | O => []
  | S n' =>
      match window with
      | [w0; w1; w2; w3; w4; w5; w6; w7; w8; w9; w10; w11; w12; w13; w14; w15] =>
          let s0 := Z.lxor (Z.lxor (rotr 7 w1) (rotr 18 w1)) (Z.shiftr w1 3) in
          let s1 := Z.lxor (Z.lxor (rotr 17 w14) (rotr 19 w14)) (Z.shiftr w14 10) in
          let w := w32 (w0 + s0 + w9 + s1) in
          w :: schedule n' [w1; w2; w3; w4; w5; w6; w7; w8; w9; w10; w11; w12; w13; w14; w15; w]
      | _ => []
      end
  end.

Definition sha_round (st : list Z) (kw : Z * Z) : list Z :=
  match st with
  | [a; b; c; d; e; f; g; h] =>
      let s1 := Z.lxor (Z.lxor (rotr 6 e) (rotr 11 e)) (rotr 25 e) in
      let ch := Z.lxor (Z.land e f) (Z.land (4294967295 - e) g) in
      let t1 := w32 (h + s1 + ch + kw.1 + kw.2) in
      let s0 := Z.lxor (Z.lxor (rotr 2 a) (rotr 13 a)) (rotr 22 a) in
      let maj := Z.lxor (Z.lxor (Z.land a b) (Z.land a c)) (Z.land b c) in
      [w32 (t1 + s0 + maj); a; b; c; w32 (d + t1); e; f; g]
  | _ => st
  end.

Definition compress (hash block : list Z) : list Z :=
  let ws := block ++ schedule 48 block in
  let out := fold_left sha_round (combine round_constants ws) hash in
  map (fun p => w32 (p.1 + p.2)) (combine hash out).

Fixpoint blocks (n : nat) (ws : list Z) : list (list Z) :=
  match n with
  | O => []
  | S n' => take 16 ws :: blocks n' (drop 16 ws)
  end.

Definition pad (bs : list Z) : list Z :=
  let n := Z.of_nat (List.length bs) in
  bs ++ 128 :: repeat 0 (Z.to_nat ((55 - n) mod 64)) ++
  bytes_of_word (Z.shiftr (8 * n) 32) ++ bytes_of_word (w32 (8 * n)).

Definition Sum256 (message : string) : list Z :=
  let bs := pad (map byte_of (String.list_ascii_of_string message)) in
  let ws := words_of bs in
  let out := fold_left compress (blocks (List.length ws / 16)%nat ws) initial_hash in
  flat_map bytes_of_word out.

(** [hex.EncodeToString(hash[:])], the form the program stores. *)
Definition sha256_hex (message : string) : string := hex_encode (Sum256 message).

Example sha256_abc : sha256_hex "abc" =
  "ba7816bf8f01cfea414140de5dae2223b00361a396177a9cb410ff61f20015ad"%string.
Proof. by vm_compute. Qed.

Example sha256_two_blocks :
  sha256_hex "abcdbcdecdefdefgefghfghighijhijkijkljklmklmnlmnomnopnopq" =
  "248d6a61d20638b8e5c026930c3e6039a33ce45964ff2167f6ecedd419db06c1"%string.
Proof. by vm_compute. Qed.

Lemma schedule_length n window :
  List.length window = 16%nat -> List.length (schedule n window) = n.
Proof.
  revert window. induction n as [|n IH]; intros window H; [done|].
  do 17 (destruct window as [|? window]; try done). cbn. by rewrite IH.
Qed.

Lemma sha_rounds_length kws st :
  List.length st = 8%nat -> List.length (fold_left sha_round kws st) = 8%nat.
Proof.
  revert st. induction kws as [|kw kws IH]; intros st H; [done|]. apply IH.
  by do 9 (destruct st as [|? st]; try done).
Qed.

Lemma compress_length hash block :
  List.length hash = 8%nat -> List.length (compress hash block) = 8%nat.
Proof.
  intros H. unfold compress. rewrite length_map, length_combine.
  by rewrite sha_rounds_length, H.
Qed.

Lemma Sum256_length message : List.length (Sum256 message) = 32%nat.
Proof.
  unfold Sum256. set (bl := blocks _ _).
  assert (List.length (fold_left compress bl initial_hash) = 8%nat) as H.
  { assert (forall bl h, List.length h = 8%nat -> List.length (fold_left compress bl h) = 8%nat) as Hf.
    { clear. induction bl as [|b bl IH]; intros h H; [done|]. by apply IH, compress_length. }
    by apply Hf. }
  revert H. generalize (fold_left compress bl initial_hash) as l. intros l H.
  by do 9 (destruct l as [|? l]; try done).
Qed.
