(* ===== verification/Feed.v ===== *)
(** * The package [internal/feed]: parsing and validation

    [parser.go] reads a feed body line by line in one of two formats;
    [validate.go] turns the parsed records into a snapshot.  The reader is the
    whole body, as every caller passes one from memory.  The JSON and URL
    decoders of the Spamhaus format are the class [SpamhausCodec]: the parser
    is proved against any decoder. *)

From S2P Require Export Network Errors Sha256.

(** ** [types.go] *)

Inductive Format : Type :=
| FormatSpamhausDROPJSONL | FormatFireHOLNetset | FormatPlain | FormatOther (name : string).
Inductive Family : Type := FamilyAny | FamilyIPv4 | FamilyIPv6 | FamilyOther (name : string).

Record Limits : Type := MkLimits {
  lm_Family : Family; lm_MaxLineBytes : Z; lm_MaxMalformedLines : Z;
  lm_MaxMalformedRatio : float64; lm_RequireFinalNewline : bool }.

Record Entry : Type := MkEntry { en_Prefix : Prefix; en_Kind : Kind }.

#[export] Instance Entry_eq_dec : EqDecision Entry.
Proof. solve_decision. Defined.

Record Metadata : Type := MkMetadata {
  md_GeneratedAt : Time; md_DeclaredRecords : Z; md_Copyright : string; md_TermsURL : string }.

Definition no_metadata : Metadata := MkMetadata 0 0 "" "".

Record Result : Type := MkResult {
  rs_Entries : list Entry; rs_TotalRecords : Z; rs_Malformed : Z; rs_Metadata : Metadata }.

Definition no_result : Result := MkResult [] 0 0 no_metadata.

Record ValidationPolicy : Type := MkPolicy {
  vp_ExpectedMinEntries : Z; vp_ExpectedMaxEntries : Z;
  vp_MaxGrowthRatio : float64; vp_MaxShrinkRatio : float64;
  vp_PreviousAcceptedEntries : Z; vp_Now : Time;
  vp_MaxMetadataAge : Duration; vp_MaxFutureSkew : Duration }.

Record Snapshot : Type := MkSnapshot {
  sn_Entries : list Entry; sn_Version : string; sn_RawEntries : Z;
  sn_RejectedSafety : Z; sn_Duplicates : Z; sn_Metadata : Metadata }.

(** ** [parser.go] *)

Definition validLimits (l : Limits) : bool :=
  match lm_Family l with FamilyOther _ => false | _ => true end &&
  (0 <? lm_MaxLineBytes l) && (0 <=? lm_MaxMalformedLines l) &&
  negb (IsNaN (lm_MaxMalformedRatio l)) &&
  float_le (float_of_int 0) (lm_MaxMalformedRatio l) &&
  float_le (lm_MaxMalformedRatio l) (float_of_int 1).

Definition familyMatches (prefixIs4 : bool) (family : Family) : bool :=
  match family with
  | FamilyAny => true
  | FamilyIPv4 => prefixIs4
  | FamilyIPv6 => negb prefixIs4
  | FamilyOther _ => false
  end.

Definition malformedAllowed (result : Result) (limits : Limits) : bool :=
  if lm_MaxMalformedLines limits <? rs_Malformed result then false
  else if rs_TotalRecords result =? 0 then rs_Malformed result =? 0
  else float_le (float_div (float_of_int (rs_Malformed result)) (float_of_int (rs_TotalRecords result)))
         (lm_MaxMalformedRatio limits).

(** The tokens of [bufio.ScanLines], before the carriage return is dropped:
    the text between newlines; the last one only if it is not empty. *)
Fixpoint split_lines (cur : string) (body : string) : list string :=
  match body with
  | EmptyString => match cur with EmptyString => [] | _ => [cur] end
  | String c rest =>
      if Ascii.eqb c "010" then cur :: split_lines "" rest
      else split_lines (cur +:+ String c "") rest
  end.

Definition ends_with (c : ascii) (s : string) : bool :=
  match last_char s with Some d => Ascii.eqb d c | None => false end.

Fixpoint drop_last (s : string) : string :=
  match s with
  | EmptyString | String _ EmptyString => ""
  | String c s' => String c (drop_last s')
  end.

Definition dropCR (s : string) : string := if ends_with "013" s then drop_last s else s.

(** [strings.TrimPrefix(text, "\ufeff")]: the UTF-8 byte order mark. *)
Definition trim_bom (s : string) : string :=
  match s with
  | String a (String b (String c rest)) =>
      if (byte_of a =? 239) && (byte_of b =? 187) && (byte_of c =? 191) then rest else s
  | _ => s
  end.

(** The scanner's loop.  A line that does not fit, with its end, in
    [MaxLineBytes] bytes ends the scan with [bufio.ErrTooLong]; [first] tells
    the first line, whose byte order mark is dropped.  [consume] acts on the
    caller's variables [S]. *)
Fixpoint scan_lines {S} (max : Z) (consume : S -> string -> result error S)
    (lines : list string) (first : bool) (s : S) : result error S :=
  match lines with
  | [] => Ok s
  | raw :: rest =>
      if max <=? len raw then
        Err (feedError feed.ErrLineTooLong (Some (Foreign "bufio.ErrTooLong")))
      else
        let text := dropCR raw in
        let text := if first then trim_bom text else text in
        if negb (valid_utf8 text) then Err (feedError feed.ErrFormat None)
        else
          let? s := consume s text in scan_lines max consume rest false s
  end.

Definition scan {S} (body : string) (limits : Limits) (consume : S -> string -> result error S)
    (s : S) : result error S :=
  let? s := scan_lines (lm_MaxLineBytes limits) consume (split_lines "" body) true s in
  if len body =? 0 then Err (feedError feed.ErrEmpty None)
  else if lm_RequireFinalNewline limits && negb (ends_with "010" body)
  then Err (feedError feed.ErrTruncated None)
  else Ok s.

(** Updates of the result the [consume] functions share. *)
Definition count_record (r : Result) : Result :=
  MkResult (rs_Entries r) (rs_TotalRecords r + 1) (rs_Malformed r) (rs_Metadata r).
Definition count_malformed (r : Result) : Result :=
  MkResult (rs_Entries r) (rs_TotalRecords r) (rs_Malformed r + 1) (rs_Metadata r).
Definition add_entry (r : Result) (e : Entry) : Result :=
  MkResult (rs_Entries r ++ [e]) (rs_TotalRecords r) (rs_Malformed r) (rs_Metadata r).
Definition set_metadata (r : Result) (m : Metadata) : Result :=
  MkResult (rs_Entries r) (rs_TotalRecords r) (rs_Malformed r) m.

Definition stripComment (line : string) : string :=
  let cut c s := match cut_byte c s with Some (a, _) => a | None => s end in
  trim_space (cut ";"%char (cut "#"%char line)).

Definition consume_netset (limits : Limits) (result : Result) (line : string) : Prelude.result error Result :=
  let line := stripComment line in
  if String.eqb line "" then Ok result
  else
    let result := count_record result in
    match fields line with
    | [field] =>
        match ParseValue field with
        | Ok (prefix, kind) =>
            if familyMatches (Is4 (p_addr prefix)) (lm_Family limits)
            then Ok (add_entry result (MkEntry prefix kind))
            else Ok (count_malformed result)
        | Err _ => Ok (count_malformed result)
        end
    | _ => Ok (count_malformed result)
    end.

Definition parseNetset (body : string) (limits : Limits) : Prelude.result error Result :=
  let? result := scan body limits (consume_netset limits) no_result in
  if rs_TotalRecords result =? 0 then Err (feedError feed.ErrEmpty None)
  else if negb (malformedAllowed result limits) then Err (feedError feed.ErrMalformedThreshold None)
  else Ok result.

Record spamhausMetadata : Type := MkSpamhausMetadata {
  sp_Timestamp : Z; sp_Copyright : string; sp_Terms : string; sp_Records : Z }.

(** [json.Unmarshal] of a line into the envelope (its type), the metadata and
    the record (its CIDR), and [url.Parse]: the scheme and the host name.
    [None] is an error. *)
Class SpamhausCodec : Type := {
  json_envelope : string -> option string;
  json_metadata : string -> option spamhausMetadata;
  json_record : string -> option string;
  url_Parse : string -> option (string * string) }.

Section Spamhaus.
Context {codec : SpamhausCodec}.

Definition metadata_ok (m : spamhausMetadata) : bool :=
  match url_Parse (sp_Terms m) with
  | None => false
  | Some (scheme, hostname) =>
      String.eqb scheme "https" && negb (String.eqb hostname "") && (0 <? sp_Timestamp m) &&
      (1 <=? sp_Records m) && negb (String.eqb (trim_space (sp_Copyright m)) "") &&
      (len (sp_Copyright m) <=? 2048) && (len (sp_Terms m) <=? 2048)
  end.

Definition metadata_of (m : spamhausMetadata) : Metadata :=
  MkMetadata (Unix_wrapped (sp_Timestamp m)) (sp_Records m) (sp_Copyright m) (sp_Terms m).

Definition err_metadata : error := feedError feed.ErrMetadata None.
Definition err_metadata_json : error := feedError feed.ErrMetadata (Some (Foreign "json")).

(** The state is [result] and [metadataSeen]. *)
Definition consume_spamhaus (limits : Limits) (st : Result * bool) (line : string)
  : Prelude.result error (Result * bool) :=
  let '(result, metadataSeen) := st in
  let line := trim_space line in
  if String.eqb line "" then Ok st
  else match json_envelope line with
  | None => Ok (count_malformed (count_record result), metadataSeen)
  | Some type =>
      if String.eqb type "metadata" then
        if metadataSeen then Err err_metadata
        else match json_metadata line with
        | None => Err err_metadata_json
        | Some metadata =>
            if negb (metadata_ok metadata) then
              Err (feedError feed.ErrMetadata
                     match url_Parse (sp_Terms metadata) with
                     | None => Some (Foreign "url") | Some _ => None end)
            else Ok (set_metadata result (metadata_of metadata), true)
        end
      else if metadataSeen then Err err_metadata
      else
        let result := count_record result in
        if negb (String.eqb type "") then Ok (count_malformed result, metadataSeen)
        else match json_record line with
        | None => Ok (count_malformed result, metadataSeen)
        | Some cidr =>
            match NormalizePrefix cidr with
            | Ok prefix =>
                if familyMatches (Is4 (p_addr prefix)) (lm_Family limits)
                then Ok (add_entry result (MkEntry prefix KindRange), metadataSeen)
                else Ok (count_malformed result, metadataSeen)
            | Err _ => Ok (count_malformed result, metadataSeen)
            end
        end
  end.

Definition parseSpamhaus (body : string) (limits : Limits) : Prelude.result error Result :=
  let? st := scan body limits (consume_spamhaus limits) (no_result, false) in
  let '(result, metadataSeen) := st in
  if negb metadataSeen || negb (md_DeclaredRecords (rs_Metadata result) =? rs_TotalRecords result)
  then Err err_metadata
  else if negb (malformedAllowed result limits) then Err (feedError feed.ErrMalformedThreshold None)
  else Ok result.

Definition Parse (format : Format) (body : string) (limits : Limits) : Prelude.result error Result :=
  if negb (validLimits limits) then Err (feedError feed.ErrPolicy None)
  else match format with
  | FormatSpamhausDROPJSONL => parseSpamhaus body limits
  | FormatFireHOLNetset | FormatPlain => parseNetset body limits
  | FormatOther _ => Err (feedError feed.ErrFormat None)
  end.
End Spamhaus.

(** ** [validate.go] *)

Definition compareEntry (a b : Entry) : Z :=
  cmp_then (compare_prefix (en_Prefix a) (en_Prefix b))
    (cmp_int (kind_value (en_Kind a)) (kind_value (en_Kind b))).

Definition validValidationPolicy (p : ValidationPolicy) : bool :=
  (1 <=? vp_ExpectedMinEntries p) && (vp_ExpectedMinEntries p <=? vp_ExpectedMaxEntries p) &&
  (0 <=? vp_PreviousAcceptedEntries p) &&
  float_le (float_of_int 1) (vp_MaxGrowthRatio p) && float_le (vp_MaxGrowthRatio p) (float_of_int 100) &&
  float_lt (float_of_int 0) (vp_MaxShrinkRatio p) && float_le (vp_MaxShrinkRatio p) (float_of_int 1) &&
  negb (IsNaN (vp_MaxGrowthRatio p)) && negb (IsNaN (vp_MaxShrinkRatio p)) &&
  negb (IsInf (vp_MaxGrowthRatio p)) && negb (IsInf (vp_MaxShrinkRatio p)) &&
  negb (time_IsZero (vp_Now p)) && (0 <=? vp_MaxMetadataAge p) && (0 <=? vp_MaxFutureSkew p).

(** The bytes written to the hash. *)
Definition newline : string := String "010" "".

Definition entry_text (e : Entry) : string :=
  itoa (kind_value (en_Kind e)) +:+ ":" +:+ prefix_String (en_Prefix e) +:+ newline.

Fixpoint snapshot_text (entries : list Entry) : string :=
  match entries with
  | [] => ""
  | e :: rest => entry_text e +:+ snapshot_text rest
  end.

Definition snapshotVersion (entries : list Entry) : string := sha256_hex (snapshot_text entries).

(** The variables of the loop over the entries. *)
Record filter_state : Type := MkFilter {
  fs_entries : list Entry; fs_rejected : Z; fs_duplicates : Z; fs_seen : gset (Prefix * Kind) }.

Definition entry_key (e : Entry) : Prefix * Kind := (Masked (en_Prefix e), en_Kind e).

Definition entry_accepted (e : Entry) : bool :=
  let prefix := Masked (en_Prefix e) in fst (IsSafePrefix prefix) && ValidateKind prefix (en_Kind e).

Definition filter_entry (s : filter_state) (e : Entry) : filter_state :=
  if negb (entry_accepted e)
  then MkFilter (fs_entries s) (fs_rejected s + 1) (fs_duplicates s) (fs_seen s)
  else if bool_decide (entry_key e ∈ fs_seen s)
  then MkFilter (fs_entries s) (fs_rejected s) (fs_duplicates s + 1) (fs_seen s)
  else MkFilter (fs_entries s ++ [MkEntry (Masked (en_Prefix e)) (en_Kind e)])
         (fs_rejected s) (fs_duplicates s) ({[entry_key e]} ∪ fs_seen s).

Definition metadata_fresh (m : Metadata) (p : ValidationPolicy) : bool :=
  time_IsZero (md_GeneratedAt m) ||
  negb (After (md_GeneratedAt m) (time_Add (vp_Now p) (vp_MaxFutureSkew p)) ||
        ((0 <? vp_MaxMetadataAge p) &&
         Before (md_GeneratedAt m) (time_Add (vp_Now p) (- vp_MaxMetadataAge p)))).

(** The change against the previous accepted count, rejected outside the
    policy's ratios. *)
Definition suspicious_change (count : Z) (p : ValidationPolicy) : bool :=
  if 0 <? vp_PreviousAcceptedEntries p then
    let ratio := float_div (float_of_int count) (float_of_int (vp_PreviousAcceptedEntries p)) in
    float_lt (vp_MaxGrowthRatio p) ratio || float_lt ratio (vp_MaxShrinkRatio p)
  else false.

Definition Validate (r : Result) (policy : ValidationPolicy) : result error Snapshot :=
  if negb (validValidationPolicy policy) then Err (feedError feed.ErrPolicy None)
  else if negb (metadata_fresh (rs_Metadata r) policy) then Err (feedError feed.ErrMetadata None)
  else
    let s := fold_left filter_entry (rs_Entries r) (MkFilter [] 0 0 ∅) in
    let entries := sort_func compareEntry (fs_entries s) in
    let count := Z.of_nat (List.length entries) in
    if (count <? vp_ExpectedMinEntries policy) || (vp_ExpectedMaxEntries policy <? count)
    then Err (feedError feed.ErrEntryCount None)
    else if suspicious_change count policy then Err (feedError feed.ErrSuspiciousChange None)
    else Ok (MkSnapshot entries (snapshotVersion entries) (Z.of_nat (List.length (rs_Entries r)))
               (fs_rejected s) (fs_duplicates s) (rs_Metadata r)).

(** ** The scan *)

Lemma scan_lines_invariant {S} (I : S -> Prop) max consume lines first s s' :
  (forall s line s', I s -> consume s line = Ok s' -> I s') ->
  I s -> scan_lines max consume lines first s = Ok s' -> I s'.
Proof.
  intros Hc. revert first s. induction lines as [|raw lines IH]; intros first s Hs; cbn [scan_lines].
  - by intros [= <-].
  - destruct (max <=? len raw); [done|]. destruct (valid_utf8 _); cbn [negb]; [|done].
    destruct (consume s _) as [s1|] eqn:E; cbn [rbind]; [|done]. eauto.
Qed.

Lemma scan_lines_short {S} max (consume : S -> string -> result error S) lines first s s' :
  scan_lines max consume lines first s = Ok s' ->
  List.Forall (fun raw => len raw < max) lines.
Proof.
  revert first s. induction lines as [|raw lines IH]; intros first s; cbn [scan_lines]; [constructor|].
  destruct (Z.leb_spec max (len raw)); [done|]. destruct (valid_utf8 _); cbn [negb]; [|done].
  destruct (consume s _) as [s1|] eqn:E; cbn [rbind]; [|done]. constructor; eauto.
Qed.

Lemma scan_Ok {S} body limits (consume : S -> string -> result error S) s s' :
  scan body limits consume s = Ok s' ->
  scan_lines (lm_MaxLineBytes limits) consume (split_lines "" body) true s = Ok s' /\
  body <> ""%string /\ (lm_RequireFinalNewline limits = true -> ends_with "010" body = true).
Proof.
  unfold scan. destruct (scan_lines _ _ _ _ _) as [s1|]; cbn [rbind]; [|done].
  destruct (Z.eqb_spec (len body) 0) as [|Hb]; [done|].
  destruct (_ && _) eqn:E; [done|]. intros [= <-]. split_and!; [done| |].
  - by intros ->.
  - intros H. rewrite H in E. by destruct (ends_with _ _).
Qed.

(** What every parser keeps: the records are its entries and the malformed
    ones, and the entries are canonical, of a valid kind and of the
    configured family. *)
Record result_inv (limits : Limits) (r : Result) : Prop := {
  ri_total : rs_TotalRecords r = Z.of_nat (List.length (rs_Entries r)) + rs_Malformed r;
  ri_malformed : 0 <= rs_Malformed r;
  ri_entries : forall e, In e (rs_Entries r) -> canonical (en_Prefix e) /\
    ValidateKind (en_Prefix e) (en_Kind e) = true /\
    familyMatches (Is4 (p_addr (en_Prefix e))) (lm_Family limits) = true }.

Lemma result_inv_malformed l r : result_inv l r -> result_inv l (count_malformed (count_record r)).
Proof. intros [H1 H2 H3]. split; cbn; [lia|lia|exact H3]. Qed.

Lemma result_inv_entry l r p k :
  result_inv l r -> canonical p -> ValidateKind p k = true ->
  familyMatches (Is4 (p_addr p)) (lm_Family l) = true ->
  result_inv l (add_entry (count_record r) (MkEntry p k)).
Proof.
  intros [H1 H2 H3] Hc Hk Hf. split; cbn; [rewrite length_app; cbn; lia|done|].
  intros e [He|[<-|[]]]%in_app_or; auto.
Qed.

#[export] Hint Resolve result_inv_malformed result_inv_entry : go.

Lemma canonical_ValidateKind_range p : canonical p -> ValidateKind p KindRange = true.
Proof.
  intros [Hwf Hm _]. unfold ValidateKind, IsValid.
  rewrite (proj2 (Z.leb_le 0 _)) by apply Hwf. by rewrite bool_decide_eq_true_2.
Qed.

Lemma ParseValue_canonical raw p k :
  ParseValue raw = Ok (p, k) -> canonical p /\ ValidateKind p k = true.
Proof.
  unfold ParseValue. destruct (contains_byte "/" raw).
  - destruct (NormalizePrefix raw) as [q|] eqn:E; [|done]. intros [= <- <-].
    apply NormalizePrefix_Ok in E. split; [done|by apply canonical_ValidateKind_range].
  - destruct (NormalizeAddress raw) as [a|] eqn:E; [|done]. intros [= <- <-].
    apply NormalizeAddress_Ok in E as (Hwf & Hz & H46 & Hzone).
    destruct (host_canonical a) as (Hc & Hb & Ha); [done..|]. split; [done|].
    pose proof Hc as [Hwf' Hm _]. unfold ValidateKind, IsValid.
    rewrite Hm, bool_decide_eq_true_2, Hb, Ha, Z.eqb_refl by done.
    by rewrite (proj2 (Z.leb_le 0 _)) by (destruct (BitLen_cases _ Hz); lia).
Qed.

Lemma consume_netset_inv l r line r' :
  result_inv l r -> consume_netset l r line = Ok r' -> result_inv l r'.
Proof.
  intros Hr. unfold consume_netset. destruct (String.eqb _ _); [by intros [= <-]|].
  destruct (fields _) as [|field [|]]; try (intros [= <-]; auto with go; fail).
  destruct (ParseValue field) as [[p k]|] eqn:E; [|intros [= <-]; auto with go].
  destruct (familyMatches _ _) eqn:Ef; intros [= <-]; [|auto with go].
  apply ParseValue_canonical in E as [Hc Hk]. auto with go.
Qed.

Lemma consume_spamhaus_inv {codec : SpamhausCodec} l st line st' :
  result_inv l st.1 -> consume_spamhaus l st line = Ok st' -> result_inv l st'.1.
Proof.
  destruct st as [r seen]. cbn [fst]. intros Hr. unfold consume_spamhaus.
  destruct (String.eqb _ _); [by intros [= <-]|].
  destruct (json_envelope _) as [ty|]; [|intros [= <-]; cbn; auto with go].
  destruct (String.eqb ty "metadata").
  { destruct seen; [done|]. destruct (json_metadata _) as [m|]; [|done].
    destruct (metadata_ok m); cbn [negb]; [|done]. intros [= <-].
    destruct Hr as [H1 H2 H3]. split; [exact H1|exact H2|exact H3]. }
  destruct seen; [done|]. destruct (String.eqb ty ""); cbn [negb]; [|intros [= <-]; cbn; auto with go].
  destruct (json_record _) as [cidr|]; [|intros [= <-]; cbn; auto with go].
  destruct (NormalizePrefix cidr) as [p|] eqn:E; [|intros [= <-]; cbn; auto with go].
  apply NormalizePrefix_Ok in E as Hc.
  destruct (familyMatches _ _) eqn:Ef; intros [= <-]; cbn; [|auto with go].
  apply result_inv_entry; auto using canonical_ValidateKind_range.
Qed.

(** ** The filter of [Validate] *)

Definition masked_entry (e : Entry) : Entry := MkEntry (Masked (en_Prefix e)) (en_Kind e).

Record filter_inv (es : list Entry) (s : filter_state) : Prop := {
  fi_entries : forall e, In e (fs_entries s) <->
    exists e0, In e0 es /\ entry_accepted e0 = true /\ e = masked_entry e0;
  fi_seen : forall k, k ∈ fs_seen s <-> exists e, In e (fs_entries s) /\ k = (en_Prefix e, en_Kind e);
  fi_nodup : NoDup (fs_entries s);
  fi_rejected : fs_rejected s = Z.of_nat (List.length (List.filter (fun e => negb (entry_accepted e)) es));
  fi_count : Z.of_nat (List.length es) =
    fs_rejected s + fs_duplicates s + Z.of_nat (List.length (fs_entries s)) }.

Lemma entry_key_masked e : entry_key e = (en_Prefix (masked_entry e), en_Kind (masked_entry e)).
Proof. done. Qed.

Lemma filter_inv_step es s e : filter_inv es s -> filter_inv (es ++ [e]) (filter_entry s e).
Proof.
  intros [He Hs Hn Hr Hc]. unfold filter_entry.
  assert (forall x, (exists e0, In e0 (es ++ [e]) /\ entry_accepted e0 = true /\ x = masked_entry e0) <->
    (exists e0, In e0 es /\ entry_accepted e0 = true /\ x = masked_entry e0) \/
    (entry_accepted e = true /\ x = masked_entry e)) as Hsnoc.
  { intros x. setoid_rewrite in_app_iff. cbn [In]. naive_solver. }
  destruct (entry_accepted e) eqn:Ea; cbn [negb].
  - case_bool_decide as Hin; rewrite entry_key_masked in Hin.
    + assert (In (masked_entry e) (fs_entries s)) as Hine.
      { apply Hs in Hin as (x & Hx & E). destruct x as [p k]. cbn in E.
        injection E as <- <-. exact Hx. }
      split; cbn [fs_entries fs_seen fs_rejected fs_duplicates]; [|exact Hs|exact Hn| |].
      * intros x. rewrite Hsnoc, <- He. naive_solver.
      * by rewrite filter_snoc, Ea, app_nil_r.
      * rewrite length_app. cbn [List.length]. lia.
    + assert (~ In (masked_entry e) (fs_entries s)) as Hnin by (intros Hx; apply Hin, Hs; eauto).
      split; cbn [fs_entries fs_seen fs_rejected fs_duplicates].
      * intros x. rewrite Hsnoc, <- He, in_app_iff. fold (masked_entry e). cbn [In]. naive_solver.
      * intros k. rewrite elem_of_union, elem_of_singleton, Hs. setoid_rewrite in_app_iff. cbn [In].
        rewrite entry_key_masked. fold (masked_entry e). naive_solver.
      * apply list.NoDup_app. split_and!; [done| |apply NoDup_singleton].
        intros x Hx ->%list_elem_of_singleton. by apply Hnin, list_elem_of_In.
      * by rewrite filter_snoc, Ea, app_nil_r.
      * rewrite !length_app. cbn [List.length]. lia.
  - split; cbn [fs_entries fs_seen fs_rejected fs_duplicates]; [|exact Hs|exact Hn| |].
    + intros x. rewrite Hsnoc, <- He. naive_solver.
    + rewrite filter_snoc, Ea, length_app. cbn [negb List.length]. lia.
    + rewrite length_app. cbn [List.length]. lia.
Qed.

Lemma filter_entries_inv es : filter_inv es (fold_left filter_entry es (MkFilter [] 0 0 ∅)).
Proof.
  induction es as [|e es IH] using rev_ind.
  - split; cbn; try done; try naive_solver; [set_solver|constructor].
  - rewrite fold_left_app. by apply filter_inv_step.
Qed.

#[export] Instance compareEntry_laws : CmpLaws compareEntry.
Proof.
  unfold compareEntry. apply cmp_then_laws; [apply (cmp_on_laws en_Prefix compare_prefix); apply _|].
  apply (cmp_on_laws (fun e => kind_value (en_Kind e)) cmp_int). apply _.
Qed.

Lemma compareEntry_eq a b : compareEntry a b = 0 -> a = b.
Proof.
  unfold compareEntry. intros H. apply cmp_then_0 in H as [H1%compare_prefix_eq H2%cmp_int_eq%kind_value_inj].
  destruct a, b; cbn in *; congruence.
Qed.

(** A sorted list without repetition is strictly sorted. *)
Lemma sort_func_strict {A} (cmp : A -> A -> Z) `{!CmpLaws cmp} xs :
  (forall x y, cmp x y = 0 -> x = y) -> NoDup xs ->
  StronglySorted (fun a b => cmp a b < 0) (sort_func cmp xs).
Proof.
  intros Heq Hnd. apply (NoDup_sort_func cmp) in Hnd.
  pose proof (sort_func_sorted cmp xs) as Hs. revert Hnd.
  induction Hs as [|x l Hl IH Hx]; intros Hnd; [constructor|].
  apply list.NoDup_cons in Hnd as [Hnin Hnd]. constructor; [by apply IH|].
  apply List.Forall_forall. intros y Hy. rewrite List.Forall_forall in Hx. specialize (Hx y Hy).
  unfold cmp_le in Hx. destruct (Z.eq_dec (cmp x y) 0) as [->%Heq|]; [|lia].
  by apply list_elem_of_In in Hy.
Qed.

(** ** Properties *)

(** every record a parser accepts is counted once, as an entry or as
    malformed; the entries are canonical prefixes of the configured family
    whose kind is valid; the malformed ones stay within both limits; and no
    line of the body is longer than the limit. *)
Theorem Parse_accounting {codec : SpamhausCodec} format body limits r :
  Parse format body limits = Ok r ->
  rs_TotalRecords r = Z.of_nat (List.length (rs_Entries r)) + rs_Malformed r /\
  (forall e, In e (rs_Entries r) -> canonical (en_Prefix e) /\
     ValidateKind (en_Prefix e) (en_Kind e) = true /\
     familyMatches (Is4 (p_addr (en_Prefix e))) (lm_Family limits) = true) /\
  0 <= rs_Malformed r <= lm_MaxMalformedLines limits /\
  (0 < rs_TotalRecords r ->
     float_le (float_div (float_of_int (rs_Malformed r)) (float_of_int (rs_TotalRecords r)))
       (lm_MaxMalformedRatio limits) = true) /\
  List.Forall (fun raw => len raw < lm_MaxLineBytes limits) (split_lines "" body).
Proof.
  intros H.
  assert (result_inv limits r /\ malformedAllowed r limits = true /\
    List.Forall (fun raw => len raw < lm_MaxLineBytes limits) (split_lines "" body))
    as ([H1 H2 H3] & Hm & Hlen).
  { assert (result_inv limits no_result) as H0 by (split; cbn; done).
    unfold Parse in H. destruct (validLimits limits); cbn [negb] in H; [|done].
    assert (parseSpamhaus body limits = Ok r \/ parseNetset body limits = Ok r) as [Hp|Hp]
      by (destruct format; auto; done).
    - unfold parseSpamhaus in Hp.
      destruct (scan body limits (consume_spamhaus limits) (no_result, false)) as [[r' seen]|] eqn:E;
        cbn [rbind] in Hp; [|done].
      apply scan_Ok in E as (E & _). destruct (_ || _); [done|].
      destruct (malformedAllowed r' limits) eqn:Em; cbn [negb] in Hp; [|done]. injection Hp as <-.
      split_and!; [|done|by eapply scan_lines_short].
      refine (scan_lines_invariant (fun st => result_inv limits st.1) _ _ _ _ _ _ _ _ E); [|done].
      intros s line s' Hs Hc. by eapply consume_spamhaus_inv.
    - unfold parseNetset in Hp.
      destruct (scan body limits (consume_netset limits) no_result) as [r'|] eqn:E; cbn [rbind] in Hp; [|done].
      apply scan_Ok in E as (E & _). destruct (_ =? _); [done|].
      destruct (malformedAllowed r' limits) eqn:Em; cbn [negb] in Hp; [|done]. injection Hp as <-.
      split_and!; [|done|by eapply scan_lines_short].
      refine (scan_lines_invariant (result_inv limits) _ _ _ _ _ _ _ _ E); [|done].
      intros s line s' Hs Hc. by eapply consume_netset_inv. }
  unfold malformedAllowed in Hm.
  destruct (Z.ltb_spec (lm_MaxMalformedLines limits) (rs_Malformed r)); [done|].
  split_and!; [done|done|done|done| |done]. intros Ht.
  by rewrite (proj2 (Z.eqb_neq _ 0)) in Hm by lia.
Qed.

Definition no_codec : SpamhausCodec :=
  {| json_envelope _ := None; json_metadata _ := None; json_record _ := None; url_Parse _ := None |}.

Definition ex_half : float64 := float_div (float_of_int 1) (float_of_int 2).
Definition ex_limits : Limits := MkLimits FamilyAny 64 2 ex_half true.
Definition ex_body : string :=
  "# comment" +:+ newline +:+ "8.8.8.8 ; x" +:+ newline +:+ "9.9.0.0/16" +:+ newline +:+
  "bad line" +:+ newline.
Definition ex_result : Result :=
  MkResult [MkEntry (MkPrefix (Addr4 134744072) 32) KindIP; MkEntry (MkPrefix (Addr4 151584768) 16) KindRange]
    3 1 no_metadata.

Lemma Parse_accounting_witness :
  Parse (codec:=no_codec) FormatPlain ex_body ex_limits = Ok ex_result /\ rs_TotalRecords ex_result = 2 + 1.
Proof.
  assert (Parse (codec:=no_codec) FormatPlain ex_body ex_limits = Ok ex_result) as H by by vm_compute.
  split; [exact H|]. apply (Parse_accounting (codec:=no_codec) _ _ _ _ H).
Defined.

(** An accepted Spamhaus feed carries its metadata: the declared number of
    records is the number of records seen, the generation time is that of a
    positive number of seconds (after the Unix epoch, unless it wraps around),
    and the texts it keeps are bounded. *)
Theorem parseSpamhaus_metadata {codec : SpamhausCodec} body limits r :
  parseSpamhaus body limits = Ok r ->
  let m := rs_Metadata r in
  md_DeclaredRecords m = rs_TotalRecords r /\ 1 <= rs_TotalRecords r /\
  (exists seconds, 0 < seconds /\ md_GeneratedAt m = Unix_wrapped seconds /\
     (seconds + unix_epoch <= max_int64 -> unix_epoch * Second < md_GeneratedAt m)) /\ len (md_Copyright m) <= 2048 /\
  len (md_TermsURL m) <= 2048 /\
  exists host, url_Parse (md_TermsURL m) = Some ("https"%string, host) /\ host <> ""%string.
Proof.
  unfold parseSpamhaus. intros H.
  destruct (scan body limits (consume_spamhaus limits) (no_result, false)) as [[r' seen]|] eqn:E;
    cbn [rbind] in H; [|done].
  apply scan_Ok in E as (E & _). destruct seen; cbn [negb orb] in H; [|done].
  destruct (Z.eqb_spec (md_DeclaredRecords (rs_Metadata r')) (rs_TotalRecords r')) as [Ed|];
    cbn [negb orb] in H; [|done].
  destruct (malformedAllowed r' limits); cbn [negb] in H; [|done]. injection H as <-.
  set (I := fun st : Result * bool => st.2 = true ->
    exists m, metadata_ok m = true /\ rs_Metadata st.1 = metadata_of m).
  assert (I (r', true)) as HI.
  { refine (scan_lines_invariant I _ _ _ _ _ _ _ _ E); [|done].
    intros [s b] line [s' b'] Hs Hc Hb. cbn [fst snd] in *. subst b'. unfold consume_spamhaus in Hc.
    destruct (String.eqb _ _); [injection Hc as -> ->; by apply Hs|].
    destruct (json_envelope _) as [ty|]; [|injection Hc as <- ->; by apply Hs].
    destruct (String.eqb ty "metadata").
    { destruct b; [done|]. destruct (json_metadata _) as [m|]; [|done].
      destruct (metadata_ok m) eqn:Em; cbn [negb] in Hc; [|done]. injection Hc as <-.
      by exists m. }
    destruct b; [done|].
    repeat (break_in Hc; try done). }
  destruct (HI eq_refl) as (m & Hm & Emeta). cbn [fst] in Emeta. rewrite Emeta in *.
  unfold metadata_ok in Hm. destruct (url_Parse (sp_Terms m)) as [[scheme host]|] eqn:Eu; [|done].
  to_prop. cbn in *. apply String.eqb_eq in H. apply String.eqb_neq in H5. subst scheme.
  split_and!; try lia; [|by eexists]. exists (sp_Timestamp m). split_and!; [lia|done|]. intros Hmax. unfold Unix_wrapped.
  assert (int64_wrap (sp_Timestamp m + unix_epoch) = sp_Timestamp m + unix_epoch) as ->.
  { unfold int64_wrap, max_int64, unix_epoch in *. rewrite Z.mod_small; lia. }
  unfold Second. lia.
Qed.

Definition ex_codec : SpamhausCodec :=
  {| json_envelope s := Some (if String.eqb s "m" then "metadata"%string else ""%string);
     json_metadata _ := Some (MkSpamhausMetadata 1700000000 "(c)" "https://example.org/terms" 1);
     json_record s := Some s;
     url_Parse _ := Some ("https"%string, "example.org"%string) |}.

Lemma parseSpamhaus_metadata_witness :
  exists r, parseSpamhaus (codec:=ex_codec) ("9.9.0.0/16" +:+ newline +:+ "m" +:+ newline) ex_limits = Ok r /\
    md_DeclaredRecords (rs_Metadata r) = rs_TotalRecords r.
Proof.
  eexists. split; [by vm_compute|].
  apply (parseSpamhaus_metadata (codec:=ex_codec) ("9.9.0.0/16" +:+ newline +:+ "m" +:+ newline) ex_limits).
  by vm_compute.
Defined.

(** C13: an accepted snapshot holds exactly the masked safe entries of the
    feed, once each and in strictly increasing order; the counters account
    for every record; the count is within the policy's bounds and the change
    against the previous run within its ratios; the version is the hash of
    the entries. *)
Theorem Validate_snapshot r policy snap :
  Validate r policy = Ok snap ->
  StronglySorted (fun a b => compareEntry a b < 0) (sn_Entries snap) /\
  (forall e, In e (sn_Entries snap) <->
     exists e0, In e0 (rs_Entries r) /\ entry_accepted e0 = true /\ e = masked_entry e0) /\
  sn_RawEntries snap = sn_RejectedSafety snap + sn_Duplicates snap + Z.of_nat (List.length (sn_Entries snap)) /\
  sn_RejectedSafety snap =
    Z.of_nat (List.length (List.filter (fun e => negb (entry_accepted e)) (rs_Entries r))) /\
  vp_ExpectedMinEntries policy <= Z.of_nat (List.length (sn_Entries snap)) <= vp_ExpectedMaxEntries policy /\
  suspicious_change (Z.of_nat (List.length (sn_Entries snap))) policy = false /\
  metadata_fresh (rs_Metadata r) policy = true /\
  sn_Version snap = sha256_hex (snapshot_text (sn_Entries snap)).
Proof.
  unfold Validate. destruct (validValidationPolicy policy); cbn [negb]; [|done].
  destruct (metadata_fresh _ _) eqn:Em; cbn [negb]; [|done].
  destruct (filter_entries_inv (rs_Entries r)) as [He Hs Hn Hr Hc].
  set (s := fold_left _ _ _) in *. destruct (_ || _) eqn:Eb; [done|].
  destruct (suspicious_change _ _) eqn:Ec; [done|]. intros [= <-]. to_prop. cbn.
  split_and!; try done; try lia.
  - apply sort_func_strict; [apply _|apply compareEntry_eq|done].
  - intros e. rewrite <- He, <- !list_elem_of_In. by rewrite elem_of_sort_func.
  - rewrite length_sort_func. lia.
Qed.

Definition ex_policy : ValidationPolicy :=
  MkPolicy 1 10 (float_of_int 2) ex_half 3 unix_epoch 0 0.

Lemma Validate_snapshot_witness :
  exists snap, Validate ex_result ex_policy = Ok snap /\
    vp_ExpectedMinEntries ex_policy <= Z.of_nat (List.length (sn_Entries snap)).
Proof.
  eexists. split; [by vm_compute|]. apply (Validate_snapshot ex_result ex_policy). by vm_compute.
Defined.

(** validation does not depend on the order of the feed's records: the
    same records in another order give the same snapshot, version included,
    or the same error. *)
Theorem Validate_order_independent es es' total bad m policy :
  es ≡ₚ es' ->
  Validate (MkResult es total bad m) policy = Validate (MkResult es' total bad m) policy.
Proof.
  intros Hp. unfold Validate. cbn [rs_Entries rs_Metadata].
  destruct (filter_entries_inv es) as [He _ Hn Hr Hc].
  destruct (filter_entries_inv es') as [He' _ Hn' Hr' Hc'].
  set (s := fold_left _ es _) in *. set (s' := fold_left _ es' _) in *.
  assert (fs_entries s ≡ₚ fs_entries s') as Hpe.
  { apply NoDup_Permutation; [done..|]. intros e. rewrite !list_elem_of_In, He, He'.
    split; intros (e0 & H0 & H1); exists e0; (split; [|done]); apply list_elem_of_In;
      apply list_elem_of_In in H0; by rewrite ?Hp in *; rewrite <- ?Hp in *. }
  assert (sort_func compareEntry (fs_entries s) = sort_func compareEntry (fs_entries s')) as ->.
  { apply sort_func_unique; [apply _| |done]. intros x y _ _. apply compareEntry_eq. }
  assert (fs_rejected s = fs_rejected s') as Er.
  { rewrite Hr, Hr'. by rewrite (length_filter_perm _ _ _ Hp). }
  pose proof (Permutation_length Hp) as El. pose proof (Permutation_length Hpe) as Ele.
  assert (fs_duplicates s = fs_duplicates s') as Ed by lia.
  by rewrite Er, Ed, El.
Qed.

Lemma Validate_order_independent_witness :
  Validate (MkResult (rev (rs_Entries ex_result)) 3 1 no_metadata) ex_policy = Validate ex_result ex_policy.
Proof. apply Validate_order_independent. symmetry. apply Permutation_rev. Defined.

Lemma entry_text_cut e rest :
  canonical (en_Prefix e) ->
  cut_byte "010" (entry_text e +:+ rest) =
  Some (itoa (kind_value (en_Kind e)) +:+ ":" +:+ prefix_String (en_Prefix e), rest).
Proof.
  intros [Hwf _ H46]. unfold entry_text, newline. rewrite !string_app_assoc.
  change (String "010" "" +:+ rest) with (String "010" rest).
  rewrite <- (string_app_assoc ":" _ (String _ _)), <- string_app_assoc. apply cut_byte_app.
  apply (all_chars_impl printable).
  - intros c. destruct (Ascii.eqb_spec c "010"%char) as [->|]; done.
  - rewrite !all_chars_app, prefix_String_printable by done. by destruct (en_Kind e).
Qed.

Lemma prefix_String_inj p q : canonical p -> canonical q -> prefix_String p = prefix_String q -> p = q.
Proof.
  intros Hp Hq E. apply canonical_round_trip in Hp, Hq. rewrite E in Hp. congruence.
Qed.

(** the text a snapshot version hashes determines the entries, so two
    snapshots have the same version only if they are equal or SHA-256
    collides. *)
Theorem snapshot_text_injective es es' :
  List.Forall (fun e => canonical (en_Prefix e)) es ->
  List.Forall (fun e => canonical (en_Prefix e)) es' ->
  snapshot_text es = snapshot_text es' -> es = es'.
Proof.
  intros H. revert es'. induction H as [|e es He Hes IH]; intros es' Hes' E.
  - destruct Hes' as [|e' es' He' _]; [done|].
    apply (f_equal (cut_byte "010")) in E. cbn [snapshot_text] in E. by rewrite entry_text_cut in E.
  - destruct Hes' as [|e' es' He' Hes'].
    + apply (f_equal (cut_byte "010")) in E. cbn [snapshot_text] in E. by rewrite entry_text_cut in E.
    + apply (f_equal (cut_byte "010")) in E. cbn [snapshot_text] in E.
      rewrite !entry_text_cut in E by done. injection E as E1 E2. f_equal; [|by apply IH].
      destruct e as [p k], e' as [p' k']. cbn in *.
      assert (k = k' /\ prefix_String p = prefix_String p') as [-> Ep%prefix_String_inj]
        by (destruct k, k'; cbn in E1; (discriminate || by injection E1)); [by subst|done..].
Qed.

Lemma snapshot_text_injective_witness :
  snapshot_text (rs_Entries ex_result) = snapshot_text (rs_Entries ex_result) /\
  rs_Entries ex_result = rs_Entries ex_result.
Proof.
  split; [reflexivity|]. apply snapshot_text_injective; [| |reflexivity].
  all: repeat constructor; cbn; try done; try lia; try discriminate.
Defined.
