(* ===== verification/Ops.v ===== *)
(** * The operational vocabulary ([internal/ops/event.go])

    Events and results with their validation.  The Go types are strings of a
    closed vocabulary that [Validate] enforces, so they are strings here. *)

From S2P Require Export Errors.

Definition ErrInvalidEvent : error := Foreign "invalid operational event".
Definition ErrInvalidResult : error := Foreign "invalid operational result".

Definition maxCount : Z := 100000000.
Definition ops_maxDuration : Duration := 7 * 24 * Hour.
Definition maxFeedResults : Z := 256.

(** [switch value { case xs...: true }] *)
Definition one_of (value : string) (xs : list string) : bool := existsb (String.eqb value) xs.

(** ** Vocabulary *)

Definition Code : Type := string.
Definition CodeServiceStarting : Code := "service_starting".
Definition CodeServiceStarted : Code := "service_started".
Definition CodeServiceStopping : Code := "service_stopping".
Definition CodeServiceStopped : Code := "service_stopped".
Definition CodeRuntimeFatal : Code := "runtime_fatal".
Definition CodeSyncStarted : Code := "sync_started".
Definition CodeSyncCompleted : Code := "sync_completed".
Definition CodeFeedResult : Code := "feed_result".
Definition CodeLAPIStateChanged : Code := "lapi_state_changed".
Definition CodeSchedulerStarted : Code := "scheduler_started".
Definition CodeSchedulerRetry : Code := "scheduler_retry".
Definition CodeSchedulerRecovered : Code := "scheduler_recovered".
Definition CodeSchedulerStopped : Code := "scheduler_stopped".
Definition CodeHTTPStarted : Code := "http_started".
Definition CodeHTTPStopped : Code := "http_stopped".
Definition CodeNotificationResult : Code := "notification_result".
Definition CodeDatabaseStateChange : Code := "database_state_changed".
Definition CodePruneCompleted : Code := "prune_completed".

Definition ops_Operation : Type := string.
Definition OperationService : ops_Operation := "service".
Definition OperationSync : ops_Operation := "sync".
Definition OperationFeed : ops_Operation := "feed".
Definition OperationLAPI : ops_Operation := "lapi".
Definition OperationScheduler : ops_Operation := "scheduler".
Definition OperationHTTP : ops_Operation := "http".
Definition OperationNotification : ops_Operation := "notification".
Definition OperationDatabase : ops_Operation := "database".
Definition OperationPrune : ops_Operation := "prune".

Definition Outcome : Type := string.
Definition OutcomeStarted : Outcome := "started".
Definition OutcomeSuccess : Outcome := "success".
Definition OutcomeDegraded : Outcome := "degraded".
Definition OutcomeFailed : Outcome := "failed".
Definition OutcomeCancelled : Outcome := "cancelled".
Definition OutcomeNotDue : Outcome := "not_due".
Definition OutcomeNotModified : Outcome := "not_modified".
Definition OutcomeRetrying : Outcome := "retrying".
Definition OutcomeRecovered : Outcome := "recovered".
Definition OutcomeAvailable : Outcome := "available".
Definition OutcomeUnavailable : Outcome := "unavailable".
Definition OutcomeStale : Outcome := "stale".
Definition OutcomeStopped : Outcome := "stopped".

Definition Severity : Type := string.
Definition SeverityInfo : Severity := "info".
Definition SeverityWarning : Severity := "warning".
Definition SeverityError : Severity := "error".

(** The empty string is the absence of a failure. *)
Definition FailureCategory : Type := string.
Definition FailureConfig : FailureCategory := "config".
Definition FailureCredential : FailureCategory := "credential".
Definition FailureFeedDownload : FailureCategory := "feed_download".
Definition FailureFeedValidation : FailureCategory := "feed_validation".
Definition FailureLAPIAuth : FailureCategory := "lapi_auth".
Definition FailureLAPI : FailureCategory := "lapi".
Definition FailureDatabase : FailureCategory := "database".
Definition FailureNotification : FailureCategory := "notification".
Definition FailureOwnership : FailureCategory := "ownership".
Definition FailureTimeout : FailureCategory := "timeout".
Definition FailureCancelled : FailureCategory := "cancelled".
Definition FailureRuntime : FailureCategory := "runtime".
Definition FailureInternal : FailureCategory := "internal".

(** ** Counts *)

Record Counts : Type := MkCounts {
  cn_FeedsSucceeded : Z; cn_FeedsFailed : Z; cn_FeedsUnchanged : Z; cn_FeedsNotDue : Z; cn_Added : Z;
  cn_Refreshed : Z; cn_Removed : Z; cn_Rejected : Z; cn_Skipped : Z; cn_LAPIRequests : Z; cn_ActiveDecisions : Z }.

Definition no_counts : Counts := MkCounts 0 0 0 0 0 0 0 0 0 0 0.

Definition count_values (c : Counts) : list Z :=
  [cn_FeedsSucceeded c; cn_FeedsFailed c; cn_FeedsUnchanged c; cn_FeedsNotDue c; cn_Added c; cn_Refreshed c;
   cn_Removed c; cn_Rejected c; cn_Skipped c; cn_LAPIRequests c; cn_ActiveDecisions c].

Definition count_valid (value : Z) : bool := negb ((value <? 0) || (maxCount <? value)).

Definition Counts_valid (c : Counts) : bool := forallb count_valid (count_values c).

Definition Counts_Validate (c : Counts) : option error :=
  if Counts_valid c then None else Some ErrInvalidResult.

(** ** Validation *)

Definition ValidFeedName (value : string) : bool := (len value <=? 64) && match_feed_name value.

Definition ValidFailureCategory (value : FailureCategory) : bool :=
  one_of value [FailureConfig; FailureCredential; FailureFeedDownload; FailureFeedValidation;
    FailureLAPIAuth; FailureLAPI; FailureDatabase; FailureNotification; FailureOwnership;
    FailureTimeout; FailureCancelled; FailureRuntime; FailureInternal].

Definition validOutcome (value : Outcome) : bool :=
  one_of value [OutcomeStarted; OutcomeSuccess; OutcomeDegraded; OutcomeFailed; OutcomeCancelled;
    OutcomeNotDue; OutcomeNotModified; OutcomeRetrying; OutcomeRecovered; OutcomeAvailable;
    OutcomeUnavailable; OutcomeStale; OutcomeStopped].

Definition validSeverity (value : Severity) : bool :=
  one_of value [SeverityInfo; SeverityWarning; SeverityError].

Definition codeOperation (code : Code) : option ops_Operation :=
  if one_of code [CodeServiceStarting; CodeServiceStarted; CodeServiceStopping; CodeServiceStopped;
                  CodeRuntimeFatal] then Some OperationService
  else if one_of code [CodeSyncStarted; CodeSyncCompleted] then Some OperationSync
  else if one_of code [CodeFeedResult] then Some OperationFeed
  else if one_of code [CodeLAPIStateChanged] then Some OperationLAPI
  else if one_of code [CodeSchedulerStarted; CodeSchedulerRetry; CodeSchedulerRecovered;
                       CodeSchedulerStopped] then Some OperationScheduler
  else if one_of code [CodeHTTPStarted; CodeHTTPStopped] then Some OperationHTTP
  else if one_of code [CodeNotificationResult] then Some OperationNotification
  else if one_of code [CodeDatabaseStateChange] then Some OperationDatabase
  else if one_of code [CodePruneCompleted] then Some OperationPrune
  else None.

Definition outcomeNeedsFailure (value : Outcome) : bool :=
  one_of value [OutcomeDegraded; OutcomeFailed; OutcomeRetrying; OutcomeUnavailable; OutcomeStale;
    OutcomeCancelled].

Record Event : Type := MkEvent {
  ev_Code : Code; ev_Operation : ops_Operation; ev_Feed : string; ev_Outcome : Outcome;
  ev_Severity : Severity; ev_Failure : FailureCategory; ev_At : Time; ev_Duration : Duration;
  ev_Attempt : Z; ev_Counts : Counts }.

Definition event_failure_ok (e : Event) : bool :=
  if outcomeNeedsFailure (ev_Outcome e) then
    ValidFailureCategory (ev_Failure e) &&
    negb (String.eqb (ev_Outcome e) OutcomeCancelled && negb (String.eqb (ev_Failure e) FailureCancelled))
  else String.eqb (ev_Failure e) "".

Definition event_feed_ok (e : Event) : bool :=
  if negb (String.eqb (ev_Feed e) "")
  then ValidFeedName (ev_Feed e) && one_of (ev_Operation e) [OperationFeed; OperationNotification]
  else negb (String.eqb (ev_Code e) CodeFeedResult).

Definition Event_Validate (e : Event) : option error :=
  match codeOperation (ev_Code e) with
  | None => Some ErrInvalidEvent
  | Some expected =>
      if negb (String.eqb (ev_Operation e) expected) || negb (validOutcome (ev_Outcome e)) ||
         negb (validSeverity (ev_Severity e)) || time_IsZero (ev_At e) then Some ErrInvalidEvent
      else if (ev_Duration e <? 0) || (ops_maxDuration <? ev_Duration e) || (ev_Attempt e <? 0) ||
              (10 <? ev_Attempt e) || negb (Counts_valid (ev_Counts e)) then Some ErrInvalidEvent
      else if String.eqb (ev_Code e) CodeSchedulerRetry && (ev_Attempt e <? 1) then Some ErrInvalidEvent
      else if negb (event_failure_ok e) then Some ErrInvalidEvent
      else if negb (event_feed_ok e) then Some ErrInvalidEvent
      else None
  end.

Record ops_FeedResult : Type := MkOpsFeedResult {
  fres_Name : string; fres_Outcome : Outcome; fres_Failure : FailureCategory;
  fres_Accepted : Z; fres_Rejected : Z }.

Definition FeedResult_valid (r : ops_FeedResult) : bool :=
  ValidFeedName (fres_Name r) && count_valid (fres_Accepted r) && count_valid (fres_Rejected r) &&
  (if one_of (fres_Outcome r) [OutcomeSuccess; OutcomeNotDue; OutcomeNotModified]
   then String.eqb (fres_Failure r) ""
   else one_of (fres_Outcome r) [OutcomeFailed; OutcomeDegraded] && ValidFailureCategory (fres_Failure r)).

Record ops_Result : Type := MkOpsResult {
  rs_Outcome : Outcome; rs_Failure : FailureCategory; rs_Retryable : bool; rs_StartedAt : Time;
  rs_CompletedAt : Time; rs_Counts : Counts; rs_Feeds : list ops_FeedResult }.

Definition result_outcome_ok (r : ops_Result) : bool :=
  if String.eqb (rs_Outcome r) OutcomeSuccess
  then negb (negb (String.eqb (rs_Failure r) "") || rs_Retryable r)
  else if one_of (rs_Outcome r) [OutcomeDegraded; OutcomeFailed] then ValidFailureCategory (rs_Failure r)
  else if String.eqb (rs_Outcome r) OutcomeCancelled
  then negb (negb (String.eqb (rs_Failure r) FailureCancelled) || rs_Retryable r)
  else false.

Fixpoint feeds_valid (seen : gset string) (feeds : list ops_FeedResult) : bool :=
  match feeds with
  | [] => true
  | feed :: rest =>
      if negb (FeedResult_valid feed) then false
      else if bool_decide (fres_Name feed ∈ seen) then false
      else feeds_valid ({[fres_Name feed]} ∪ seen) rest
  end.

Definition Result_Validate (r : ops_Result) : option error :=
  if negb (result_outcome_ok r) then Some ErrInvalidResult
  else if time_IsZero (rs_StartedAt r) || Before (rs_CompletedAt r) (rs_StartedAt r) ||
          (ops_maxDuration <? time_Sub (rs_CompletedAt r) (rs_StartedAt r)) ||
          negb (Counts_valid (rs_Counts r)) || (maxFeedResults <? Z.of_nat (List.length (rs_Feeds r)))
  then Some ErrInvalidResult
  else if feeds_valid ∅ (rs_Feeds r) then None else Some ErrInvalidResult.

(** ** Lemmas *)

Lemma one_of_In value xs : one_of value xs = true <-> In value xs.
Proof.
  unfold one_of. rewrite existsb_exists. split.
  - by intros (x & Hx & ->%String.eqb_eq).
  - intros Hx. exists value. split; [done|apply String.eqb_refl].
Qed.

Lemma count_valid_true z : count_valid z = true <-> 0 <= z <= maxCount.
Proof. unfold count_valid. rewrite negb_true_iff, orb_false_iff, Z.ltb_ge, Z.ltb_ge. lia. Qed.

Lemma Counts_valid_true c : Counts_valid c = true <-> List.Forall (fun z => 0 <= z <= maxCount) (count_values c).
Proof.
  unfold Counts_valid. rewrite forallb_forall, List.Forall_forall.
  split; intros H z Hz; apply count_valid_true; auto.
Qed.

Lemma feeds_valid_true seen feeds :
  feeds_valid seen feeds = true <->
  List.Forall (fun f => FeedResult_valid f = true) feeds /\ NoDup (map fres_Name feeds) /\
  (forall f, In f feeds -> fres_Name f ∉ seen).
Proof.
  revert seen. induction feeds as [|f feeds IH]; intros seen; cbn [feeds_valid map].
  - split; [|done]. intros _. split_and!; [constructor|constructor|by intros f []].
  - destruct (FeedResult_valid f) eqn:Ef; cbn [negb].
    2:{ split; [done|]. intros (H & _). inv H. congruence. }
    case_bool_decide as Hs.
    + split; [done|]. intros (_ & _ & H). exfalso. by apply (H f); [left|].
    + rewrite IH. split.
      * intros (H1 & H2 & H3). split_and!; [by constructor| |].
        -- apply list.NoDup_cons. split; [|done]. rewrite list_elem_of_fmap. intros (g & E & Hg).
           apply list_elem_of_In in Hg. apply (H3 g Hg). rewrite E. set_solver.
        -- intros g [<-|Hg]; [done|]. specialize (H3 g Hg). set_solver.
      * intros (H1 & H2 & H3). inv H1. apply list.NoDup_cons in H2 as [H2 H2'].
        split_and!; [done|done|]. intros g Hg [Hin%elem_of_singleton|Hin]%elem_of_union.
        -- apply H2. rewrite list_elem_of_fmap. exists g. split; [done|]. by apply list_elem_of_In.
        -- by apply (H3 g); [right|].
Qed.
