(* ===== verification/StateDB.v ===== *)
(** * The database of [internal/state]

    The tables of [migrations/*.sql] as finite maps from their primary key,
    and the statements the repositories run on them.  A statement either
    fails, leaving the database as it was, or does all of its changes; the
    constraints of the schema (primary keys, [UNIQUE], foreign keys) are
    checks that make it fail.  Any statement may also fail for a reason
    outside the database (a closed context, an I/O error): the world holds the
    faults that the next statements will meet.

    A transaction restores the database when its body or its commit fails. *)

From S2P Require Export Feed Ops.

(** ** Rows *)

Record feed_row : Type := MkFeedRow {
  fr_name : string; fr_url_hash : string; fr_definition_hash : string; fr_enabled : bool;
  fr_etag : string; fr_last_modified : string; fr_last_attempt : option Z;
  fr_last_success : option Z; fr_last_good_version : string; fr_accepted : Z; fr_rejected : Z;
  fr_failures : Z; fr_next_attempt : option Z; fr_error : string; fr_created : Z; fr_updated : Z }.

Record entry_row : Type := MkEntryRow {
  ey_family : Z; ey_bits : Z; ey_first_seen : Z; ey_last_seen : Z; ey_missing : Z; ey_active : bool }.

Record object_row : Type := MkObjectRow {
  ow_prefix : string; ow_family : Z; ow_bits : Z; ow_scope : Scope; ow_desired : bool;
  ow_suppression : string; ow_primary : option Z; ow_created : Z; ow_updated : Z }.

Record alert_row : Type := MkAlertRow {
  aw_alert_id : Z; aw_token : string; aw_machine : string; aw_origin : string;
  aw_scenario : string; aw_verified : Z; aw_created : Z }.

Inductive DecisionStatus : Type :=
| DecisionActive | DecisionExpiring | DecisionExpired | DecisionOrphaned.

#[export] Instance DecisionStatus_eq_dec : EqDecision DecisionStatus.
Proof. solve_decision. Defined.

Record decision_row : Type := MkDecisionRow {
  dw_object : Z; dw_alert_row : Z; dw_decision_id : Z; dw_origin : string; dw_scenario : string;
  dw_scope : Scope; dw_value : string; dw_created : Z; dw_expires : Z; dw_verified : Z;
  dw_status : DecisionStatus; dw_replaced_by : option Z }.

Inductive OperationKind : Type :=
| OperationCreate | OperationRefresh | OperationExpire | OperationRecover.
Inductive OperationStatus : Type :=
| OperationPending | OperationVerified | OperationCompleted | OperationFailed | OperationAmbiguous.

#[export] Instance OperationKind_eq_dec : EqDecision OperationKind.
Proof. solve_decision. Defined.
#[export] Instance OperationStatus_eq_dec : EqDecision OperationStatus.
Proof. solve_decision. Defined.

Record operation_row : Type := MkOperationRow {
  pw_kind : OperationKind; pw_feed : Z; pw_duration : Z; pw_hash : string;
  pw_status : OperationStatus; pw_started : Z; pw_completed : option Z; pw_error : string }.

Definition SyncMode : Type := string.
Definition RunStatus : Type := string.

Record run_row : Type := MkRunRow {
  rr_started : Z; rr_completed : option Z; rr_mode : SyncMode; rr_requested : string;
  rr_status : RunStatus; rr_succeeded : Z; rr_failed : Z; rr_added : Z; rr_refreshed : Z;
  rr_removed : Z; rr_rejected : Z; rr_skipped : Z; rr_lapi : Z; rr_error : string }.

Record feed_run_row : Type := MkFeedRunRow {
  frr_status : string; frr_accepted : Z; frr_rejected : Z; frr_error : string }.

Record delivery_row : Type := MkDeliveryRow {
  dl_failure : string; dl_feed : string; dl_consecutive : Z; dl_notified : bool;
  dl_recovery_pending : bool; dl_sent : bool; dl_last_attempt : option Z; dl_updated : Z }.

(** The tables; [feed_entries] is keyed by feed, prefix and kind,
    [enforcement_sources] is its key (object, feed, kind), and the items of an
    operation are keyed by token and object and hold the old decision; the
    results of a run are keyed by run and feed, [runtime_state] by its key
    (with its value and the time of its update), and the delivery states of
    the notifications by kind and feed. *)
Record DB : Type := MkDB {
  db_feeds : gmap Z feed_row;
  db_entries : gmap (Z * string * Z) entry_row;
  db_objects : gmap Z object_row;
  db_sources : gset (Z * Z * Z);
  db_alerts : gmap Z alert_row;
  db_decisions : gmap Z decision_row;
  db_operations : gmap string operation_row;
  db_items : gmap (string * Z) (option Z);
  db_runs : gmap Z run_row;
  db_results : gmap (Z * Z) feed_run_row;
  db_runtime : gmap string (string * Z);
  db_delivery : gmap (string * string) delivery_row }.

Definition empty_db : DB := MkDB ∅ ∅ ∅ ∅ ∅ ∅ ∅ ∅ ∅ ∅ ∅ ∅.

Definition set_feeds (t : gmap Z feed_row) (d : DB) : DB :=
  MkDB t (db_entries d) (db_objects d) (db_sources d)
    (db_alerts d) (db_decisions d) (db_operations d) (db_items d)
    (db_runs d) (db_results d) (db_runtime d) (db_delivery d).
Definition set_entries (t : gmap (Z * string * Z) entry_row) (d : DB) : DB :=
  MkDB (db_feeds d) t (db_objects d) (db_sources d)
    (db_alerts d) (db_decisions d) (db_operations d) (db_items d)
    (db_runs d) (db_results d) (db_runtime d) (db_delivery d).
Definition set_objects (t : gmap Z object_row) (d : DB) : DB :=
  MkDB (db_feeds d) (db_entries d) t (db_sources d)
    (db_alerts d) (db_decisions d) (db_operations d) (db_items d)
    (db_runs d) (db_results d) (db_runtime d) (db_delivery d).
Definition set_sources (t : gset (Z * Z * Z)) (d : DB) : DB :=
  MkDB (db_feeds d) (db_entries d) (db_objects d) t
    (db_alerts d) (db_decisions d) (db_operations d) (db_items d)
    (db_runs d) (db_results d) (db_runtime d) (db_delivery d).
Definition set_alerts (t : gmap Z alert_row) (d : DB) : DB :=
  MkDB (db_feeds d) (db_entries d) (db_objects d) (db_sources d)
    t (db_decisions d) (db_operations d) (db_items d)
    (db_runs d) (db_results d) (db_runtime d) (db_delivery d).
Definition set_decisions (t : gmap Z decision_row) (d : DB) : DB :=
  MkDB (db_feeds d) (db_entries d) (db_objects d) (db_sources d)
    (db_alerts d) t (db_operations d) (db_items d)
    (db_runs d) (db_results d) (db_runtime d) (db_delivery d).
Definition set_operations (t : gmap string operation_row) (d : DB) : DB :=
  MkDB (db_feeds d) (db_entries d) (db_objects d) (db_sources d)
    (db_alerts d) (db_decisions d) t (db_items d)
    (db_runs d) (db_results d) (db_runtime d) (db_delivery d).
Definition set_items (t : gmap (string * Z) (option Z)) (d : DB) : DB :=
  MkDB (db_feeds d) (db_entries d) (db_objects d) (db_sources d)
    (db_alerts d) (db_decisions d) (db_operations d) t
    (db_runs d) (db_results d) (db_runtime d) (db_delivery d).
Definition set_runs (t : gmap Z run_row) (d : DB) : DB :=
  MkDB (db_feeds d) (db_entries d) (db_objects d) (db_sources d)
    (db_alerts d) (db_decisions d) (db_operations d) (db_items d)
    t (db_results d) (db_runtime d) (db_delivery d).
Definition set_results (t : gmap (Z * Z) feed_run_row) (d : DB) : DB :=
  MkDB (db_feeds d) (db_entries d) (db_objects d) (db_sources d)
    (db_alerts d) (db_decisions d) (db_operations d) (db_items d)
    (db_runs d) t (db_runtime d) (db_delivery d).
Definition set_runtime (t : gmap string (string * Z)) (d : DB) : DB :=
  MkDB (db_feeds d) (db_entries d) (db_objects d) (db_sources d)
    (db_alerts d) (db_decisions d) (db_operations d) (db_items d)
    (db_runs d) (db_results d) t (db_delivery d).
Definition set_delivery (t : gmap (string * string) delivery_row) (d : DB) : DB :=
  MkDB (db_feeds d) (db_entries d) (db_objects d) (db_sources d)
    (db_alerts d) (db_decisions d) (db_operations d) (db_items d)
    (db_runs d) (db_results d) (db_runtime d) t.

(** ** Statements *)

(** The database and the faults of the statements to come: [Some e] makes the
    next statement fail with [e]; an exhausted list is a run without faults. *)
Record SW : Type := MkSW { sw_db : DB; sw_faults : list (option error) }.

Definition Store (A : Type) : Type := M SW error A.

(** A statement: [run] is what the database does with it. *)
Definition stmt {A} (run : DB -> Prelude.result error (A * DB)) : Store A :=
  fun w =>
    match sw_faults w with
    | Some e :: rest => (Err e, MkSW (sw_db w) rest)
    | fs =>
        let rest := tail fs in
        match run (sw_db w) with
        | Ok (a, d) => (Ok a, MkSW d rest)
        | Err e => (Err e, MkSW (sw_db w) rest)
        end
    end.

Definition query {A} (f : DB -> A) : Store A := stmt (fun d => Ok (f d, d)).
Definition update (f : DB -> DB) : Store unit := stmt (fun d => Ok (tt, f d)).

(** An error of the database engine. *)
Definition sqlite (what : string) : error := Foreign ("sqlite: " +:+ what).
Definition ErrNoRows : error := Foreign "sql: no rows in result set".

(** [return stateError(category, err)] for any error of [m]. *)
Definition wrap {A} (c : state.ErrorCategory) (m : Store A) : Store A :=
  fun w => match m w with
           | (Err e, w') => (Err (stateError c (Some e)), w')
           | r => r
           end.

(** A transaction: begin, body, commit; a failure of any of them restores the
    database. *)
Definition tx {A} (body : Store A) : Store A :=
  fun w =>
    let rollback {B} (r : Prelude.result error B * SW) : Prelude.result error B * SW :=
      (r.1, MkSW (sw_db w) (sw_faults r.2)) in
    match wrap state.ErrTransaction (query (fun _ => tt)) w with
    | (Err e, w1) => (Err e, w1)
    | (Ok _, w1) =>
        match body w1 with
        | (Err e, w2) => rollback (Err e, w2)
        | (Ok a, w2) =>
            match wrap state.ErrTransaction (query (fun _ => tt)) w2 with
            | (Err e, w3) => rollback (Err e, w3)
            | (Ok _, w3) => (Ok a, w3)
            end
        end
    end.

Definition constraint : error := stateError state.ErrConstraint None.
Definition integrity : error := stateError state.ErrIntegrity None.

(** [if !ok { return stateError(ErrConstraint, nil) }] *)
Definition require (ok : bool) (e : error) : Store unit := if ok then mok tt else mfail e.

(** The call for its effect. *)
Definition void {A} (m : Store A) : Store unit := let! _ := m in mok tt.

(** A computation that does not touch the database. *)
Definition lift {A} (r : Prelude.result error A) : Store A :=
  match r with Ok a => mok a | Err e => mfail e end.

(** ** Common queries *)

(** The next [INTEGER PRIMARY KEY]: one more than the largest. *)
Definition next_id {V} (t : gmap Z V) : Z := 1 + foldr Z.max 0 (map fst (map_to_list t)).

(** The keys of the rows that satisfy [p]. *)
Definition counted `{Countable K} {V} (p : K -> V -> bool) (t : gmap K V) : list K :=
  map fst (List.filter (fun kv => p kv.1 kv.2) (map_to_list t)).

(** [SELECT COUNT( * )] of these rows. *)
Definition count_rows `{Countable K} {V} (p : K -> V -> bool) (t : gmap K V) : Z :=
  Z.of_nat (List.length (counted p t)).

(** [SELECT id] of these rows, in increasing order. *)
Definition ids_where {V} (p : Z -> V -> bool) (t : gmap Z V) : list Z :=
  sort_func cmp_int (counted p t).

(** The row with a value of a unique column. *)
Definition find_row {V} (p : V -> bool) (t : gmap Z V) : option Z :=
  head (ids_where (fun _ v => p v) t).

Definition feed_by_name (name : string) (d : DB) : option Z :=
  find_row (fun r => String.eqb (fr_name r) name) (db_feeds d).

Definition object_by_prefix (prefix : string) (d : DB) : option Z :=
  find_row (fun r => String.eqb (ow_prefix r) prefix) (db_objects d).

Definition unix (t : Time) : Z := time_Unix t.

Definition family_of (p : Prefix) : Z := if Is4 (p_addr p) then 4 else 6.

(** [validHash]: 64 hexadecimal digits. *)
Definition validHash (value : string) : bool :=
  (len value =? 64) && all_chars (fun c => match hex_value c with Some _ => true | None => false end) value.

Definition checkedNetworkKind (value : Z) : Prelude.result error Kind :=
  if value =? 1 then Ok KindIP
  else if value =? 2 then Ok KindRange
  else Err (stateError state.ErrIntegrity None).

(** ** Lemmas on statements and transactions *)

(** What a statement of the store may do to the database: nothing, or what
    its [run] does. *)
Lemma stmt_db {A} (run : DB -> Prelude.result error (A * DB)) w r w' :
  stmt run w = (r, w') ->
  (exists e, r = Err e /\ sw_db w' = sw_db w) \/
  (exists a, r = Ok a /\ run (sw_db w) = Ok (a, sw_db w')).
Proof.
  unfold stmt. destruct (sw_faults w) as [|[e|] rest]; cbn;
    try (intros [= <- <-]; left; by eexists);
    (destruct (run (sw_db w)) as [[a d]|e] eqn:E; intros [= <- <-]; [right|left]; cbn; eauto).
Qed.

Lemma query_db {A} (f : DB -> A) w r w' :
  query f w = (r, w') -> sw_db w' = sw_db w /\ (forall a, r = Ok a -> a = f (sw_db w)).
Proof.
  intros [(e & -> & H)|(a & -> & H)]%stmt_db; [by split|].
  injection H as <- H2. split; [by rewrite H2|]. by intros b [= <-].
Qed.

Lemma update_db (f : DB -> DB) w r w' :
  update f w = (r, w') -> (r = Ok tt /\ sw_db w' = f (sw_db w)) \/ ((exists e, r = Err e) /\ sw_db w' = sw_db w).
Proof.
  intros [(e & -> & H)|(a & -> & H)]%stmt_db; [right; eauto|].
  left. injection H as <- <-. done.
Qed.

Lemma wrap_Ok {A} c (m : Store A) w a w' : wrap c m w = (Ok a, w') <-> m w = (Ok a, w').
Proof. unfold wrap. destruct (m w) as [[b|e] w1]; naive_solver. Qed.

Lemma wrap_db {A} c (m : Store A) w : sw_db (wrap c m w).2 = sw_db (m w).2.
Proof. unfold wrap. by destruct (m w) as [[b|e] w1]. Qed.

(** [if !ok { return err }] *)
Lemma require_Ok {A} b e0 (m : Store A) w a w' :
  (let! _ := require b e0 in m) w = (Ok a, w') -> b = true /\ m w = (Ok a, w').
Proof. unfold mthen, require. by destruct b. Qed.

Lemma require_Err {A} b e0 (m : Store A) w e w' :
  (let! _ := require b e0 in m) w = (Err e, w') -> w' = w \/ m w = (Err e, w').
Proof.
  unfold mthen, require. destruct b; cbn; [by right|]. intros [= _ <-]. by left.
Qed.

(** A transaction that fails leaves the database as it was. *)
Lemma tx_Err {A} (body : Store A) w e w' : tx body w = (Err e, w') -> sw_db w' = sw_db w.
Proof.
  unfold tx. destruct (wrap _ _ w) as [[u|e1] w1] eqn:E1.
  - destruct (body w1) as [[a|e2] w2]; [|by intros [= _ <-]].
    destruct (wrap _ _ w2) as [[u3|e3] w3]; [done|by intros [= _ <-]].
  - intros [= _ <-]. pose proof (wrap_db state.ErrTransaction (query (fun _ => tt)) w) as H.
    rewrite E1 in H. cbn in H. rewrite H. by destruct (query_db (fun _ => tt) w _ _ (surjective_pairing _)).
Qed.

(** A transaction that succeeds did what its body did. *)
Lemma tx_Ok {A} (body : Store A) w a w' :
  tx body w = (Ok a, w') ->
  exists w1 w2, sw_db w1 = sw_db w /\ body w1 = (Ok a, w2) /\ sw_db w' = sw_db w2.
Proof.
  unfold tx. destruct (wrap _ _ w) as [[u|e1] w1] eqn:E1; [|done].
  destruct (body w1) as [[b|e2] w2] eqn:E2; [|done].
  destruct (wrap _ _ w2) as [[u3|e3] w3] eqn:E3; [|done]. intros [= <- <-].
  exists w1, w2. apply wrap_Ok, query_db in E1 as [E1 _]. apply wrap_Ok, query_db in E3 as [E3 _].
  done.
Qed.

Lemma tx_invariant {A} (I : DB -> Prop) (body : Store A) w :
  (forall w1 a w2, I (sw_db w1) -> body w1 = (Ok a, w2) -> I (sw_db w2)) ->
  I (sw_db w) -> I (sw_db (tx body w).2).
Proof.
  intros Hb HI. destruct (tx body w) as [[a|e] w'] eqn:E; cbn.
  - apply tx_Ok in E as (w1 & w2 & H1 & H2 & ->). eapply Hb; [|exact H2]. by rewrite H1.
  - apply tx_Err in E. by rewrite E.
Qed.

(** ** Lemmas on queries *)

Lemma next_id_fresh {V} (t : gmap Z V) : t !! next_id t = None.
Proof.
  apply eq_None_not_Some. intros [v Hv].
  assert (forall l (k : Z), k ∈ l -> k <= foldr Z.max 0 l) as Hmax.
  { induction l as [|x l IH]; intros k; cbn; [by intros ?%elem_of_nil|].
    intros [->|H%IH]%elem_of_cons; lia. }
  specialize (Hmax (map fst (map_to_list t)) (next_id t)). unfold next_id in Hmax at 2.
  assert (next_id t ∈ map fst (map_to_list t)) as Hin.
  { apply list_elem_of_fmap. exists (next_id t, v). split; [done|]. by apply elem_of_map_to_list. }
  apply Hmax in Hin. lia.
Qed.

Lemma next_id_pos {V} (t : gmap Z V) : 0 < next_id t.
Proof.
  unfold next_id. assert (forall l, 0 <= foldr Z.max 0 l) as H by (induction l; cbn; lia).
  specialize (H (map fst (map_to_list t))). lia.
Qed.

Lemma elem_of_counted `{Countable K} {V} (p : K -> V -> bool) t k :
  k ∈ counted p t <-> exists v, t !! k = Some v /\ p k v = true.
Proof.
  unfold counted. rewrite list_elem_of_fmap. split.
  - intros ([k' v] & -> & Hk). apply list_elem_of_In, filter_In in Hk as [Hk Hp].
    apply list_elem_of_In, elem_of_map_to_list in Hk. eauto.
  - intros (v & Hk & Hp). exists (k, v). split; [done|]. apply list_elem_of_In, filter_In.
    split; [|done]. by apply list_elem_of_In, elem_of_map_to_list.
Qed.

Lemma NoDup_counted `{Countable K} {V} (p : K -> V -> bool) (t : gmap K V) : NoDup (counted p t).
Proof.
  unfold counted. pose proof (NoDup_fst_map_to_list t) as Hd.
  revert Hd. generalize (map_to_list t) as l. induction l as [|[k v] l IH]; cbn; [done|].
  intros [Hnin Hnd]%list.NoDup_cons. destruct (p k v); cbn; [|by apply IH].
  apply list.NoDup_cons. split; [|by apply IH]. contradict Hnin.
  apply list_elem_of_fmap in Hnin as (x & -> & Hx). apply list_elem_of_fmap. exists x.
  split; [done|]. apply list_elem_of_In in Hx. apply filter_In in Hx as [Hx _]. by apply list_elem_of_In.
Qed.

(** Two counts agree when an injection maps the counted keys of the first
    table onto those of the second. *)
Lemma count_rows_map `{Countable K1} `{Countable K2} {V1 V2} (g : K1 -> K2)
    (p1 : K1 -> V1 -> bool) (p2 : K2 -> V2 -> bool) t1 t2 :
  (forall k, k ∈ counted p1 t1 -> g k ∈ counted p2 t2) ->
  (forall k2, k2 ∈ counted p2 t2 -> exists k, k ∈ counted p1 t1 /\ g k = k2) ->
  (forall k k', k ∈ counted p1 t1 -> k' ∈ counted p1 t1 -> g k = g k' -> k = k') ->
  count_rows p1 t1 = count_rows p2 t2.
Proof.
  intros H1 H2 Hinj. unfold count_rows. f_equal.
  rewrite <- (length_map g (counted p1 t1)).
  apply Permutation_length, NoDup_Permutation; [|apply NoDup_counted|].
  - assert (forall l, NoDup l -> (forall k, k ∈ l -> k ∈ counted p1 t1) -> NoDup (map g l)) as Hl.
    { induction l as [|k l IH]; cbn; [constructor|]. intros [Hk Hl]%list.NoDup_cons Hin.
      apply list.NoDup_cons. split; [|apply IH; [done|]; intros k' Hk'; apply Hin; by right].
      intros (k' & E & Hk')%list_elem_of_fmap. apply Hinj in E; [by subst|apply Hin; by left|apply Hin; by right]. }
    by apply Hl; [apply NoDup_counted|].
  - intros k. rewrite list_elem_of_fmap. split.
    + intros (k1 & -> & Hk). by apply H1.
    + intros Hk. apply H2 in Hk as (k1 & Hk & <-). eauto.
Qed.

Lemma elem_of_ids_where {V} (p : Z -> V -> bool) t k :
  k ∈ ids_where p t <-> exists v, t !! k = Some v /\ p k v = true.
Proof. unfold ids_where. by rewrite elem_of_sort_func, elem_of_counted. Qed.

Lemma NoDup_ids_where {V} (p : Z -> V -> bool) t : NoDup (ids_where p t).
Proof. unfold ids_where. rewrite NoDup_sort_func. apply NoDup_counted. Qed.

Lemma find_row_Some {V} (p : V -> bool) t k :
  find_row p t = Some k -> exists v, t !! k = Some v /\ p v = true.
Proof.
  unfold find_row. intros H. apply (elem_of_ids_where (fun _ v => p v) t k).
  destruct (ids_where _ t); [done|]. injection H as ->. by left.
Qed.

Lemma find_row_None {V} (p : V -> bool) t :
  find_row p t = None -> forall k v, t !! k = Some v -> p v = false.
Proof.
  unfold find_row. intros H k v Hk. apply not_true_is_false. intros Hp.
  assert (k ∈ ids_where (fun _ v => p v) t) as Hin by (apply elem_of_ids_where; eauto).
  destruct (ids_where _ t); [by apply elem_of_nil in Hin|done].
Qed.

(** On a column without repetitions [find_row] finds the row. *)
Lemma find_row_unique {V} (p : V -> bool) t k v :
  t !! k = Some v -> p v = true ->
  (forall k' v', t !! k' = Some v' -> p v' = true -> k' = k) -> find_row p t = Some k.
Proof.
  intros Hk Hp Hu. destruct (find_row p t) as [k'|] eqn:E.
  - apply find_row_Some in E as (v' & Hk' & Hp'). f_equal. eauto.
  - by rewrite (find_row_None p t E k v) in Hp.
Qed.

Lemma alter_as_insert `{Countable K} {V} (f : V -> V) (k : K) (m : gmap K V) v :
  m !! k = Some v -> alter f k m = <[k := f v]> m.
Proof.
  intros Hk. apply map_eq. intros i. destruct (decide (i = k)) as [->|Hne].
  - by rewrite lookup_alter_eq, lookup_insert_eq, Hk.
  - by rewrite lookup_alter_ne, lookup_insert_ne.
Qed.

Lemma alter_as_nothing `{Countable K} {V} (f : V -> V) (k : K) (m : gmap K V) :
  m !! k = None -> alter f k m = m.
Proof.
  intros Hk. apply map_eq. intros i. destruct (decide (i = k)) as [->|Hne].
  - by rewrite lookup_alter_eq, Hk.
  - by rewrite lookup_alter_ne.
Qed.

(** ** A lemma on prefixes *)

(** A safe prefix is not IPv4-mapped: [::ffff:0:0/96] is a special range. *)
Lemma safe_canonical p :
  prefix_wf p -> fst (IsSafePrefix p) = true -> canonical p.
Proof.
  intros Hp Hs. apply IsSafePrefix_true in Hs as (_ & Hm & _ & Hs). split; [done|done|].
  apply not_true_is_false. intros H4.
  set (s := MkPrefix (Addr6 281470681743360 "") 96).
  assert (In s safetyPrefixes) as Hin by (unfold safetyPrefixes, s; cbn; tauto).
  specialize (Hs s Hin). apply not_true_iff_false in Hs. apply Hs.
  pose proof Hp as (Hwf & Hz & Hzone & Hb).
  apply Overlaps_iff_shared; [done|by apply safetyPrefixes_wf|].
  exists (p_addr p). split_and!; [done|done|by apply Contains_self|].
  apply Contains_spec; [by apply safetyPrefixes_wf|done|done|].
  destruct (p_addr p) as [|v|v z]; [done..|]. cbn in H4. apply Z.eqb_eq in H4.
  split_and!; [done|done|].
  change (Z.shiftr v 32 = Z.shiftr 281470681743360 32). by rewrite H4.
Qed.

(** ** What a computation may do to the database

    [does R m]: whatever [m] returns, and whatever statement fails, the
    databases before and after are related by the preorder [R]. *)

Section Does.
Context (R : DB -> DB -> Prop) `{!PreOrder R}.

Definition does {A} (m : Store A) : Prop :=
  forall w r w', m w = (r, w') -> R (sw_db w) (sw_db w').

Lemma does_mok {A} (a : A) : does (mok a).
Proof. intros w r w' [= _ <-]. reflexivity. Qed.

Lemma does_mfail {A} e : does (mfail (A:=A) e).
Proof. intros w r w' [= _ <-]. reflexivity. Qed.

Lemma does_require b e : does (require b e).
Proof. unfold require. destruct b; [apply does_mok|apply does_mfail]. Qed.

Lemma does_lift {A} (r : Prelude.result error A) : does (lift r).
Proof. unfold lift. destruct r; [apply does_mok|apply does_mfail]. Qed.

Lemma does_then {A B} (m : Store A) (k : A -> Store B) :
  does m -> (forall a, does (k a)) -> does (mthen m k).
Proof.
  intros Hm Hk w r w'. unfold mthen. destruct (m w) as [[a|e] w1] eqn:E; intros H.
  - transitivity (sw_db w1); [by eapply Hm|by eapply Hk].
  - injection H as _ <-. by eapply Hm.
Qed.

Lemma does_for {A} (body : A -> Store unit) xs : (forall x, does (body x)) -> does (mfor body xs).
Proof.
  intros Hb. induction xs as [|x xs IH]; cbn [mfor]; [apply does_mok|]. by apply does_then.
Qed.

Lemma does_fold {A B} (body : B -> A -> Store B) acc xs :
  (forall b x, does (body b x)) -> does (mfold body acc xs).
Proof.
  intros Hb. revert acc. induction xs as [|x xs IH]; intros acc; cbn [mfold]; [apply does_mok|].
  apply does_then; [apply Hb|intros b; apply IH].
Qed.

Lemma does_wrap {A} c (m : Store A) : does m -> does (wrap c m).
Proof.
  intros Hm w r w' H. pose proof (wrap_db c m w) as Hw. rewrite H in Hw. cbn in Hw. rewrite Hw.
  by eapply Hm, surjective_pairing.
Qed.

Lemma does_stmt {A} (run : DB -> Prelude.result error (A * DB)) :
  (forall d a d', run d = Ok (a, d') -> R d d') -> does (stmt run).
Proof.
  intros Hr w r w' [(e & -> & ->)|(a & -> & H)]%stmt_db; [reflexivity|by eapply Hr].
Qed.

Lemma does_query {A} (f : DB -> A) : does (query f).
Proof. apply does_stmt. intros d a d' [= _ <-]. reflexivity. Qed.

Lemma does_update (f : DB -> DB) : (forall d, R d (f d)) -> does (update f).
Proof. intros Hf. apply does_stmt. intros d a d' [= _ <-]. apply Hf. Qed.

Lemma does_tx {A} (body : Store A) : does body -> does (tx body).
Proof.
  intros Hb w r w' H. destruct r as [a|e].
  - apply tx_Ok in H as (w1 & w2 & <- & H & ->). by eapply Hb.
  - apply tx_Err in H as ->. reflexivity.
Qed.

(** A transaction only has to respect [R] as a whole. *)
Lemma does_tx_Ok {A} (body : Store A) :
  (forall w a w', body w = (Ok a, w') -> R (sw_db w) (sw_db w')) -> does (tx body).
Proof.
  intros Hb w r w' H. destruct r as [a|e].
  - apply tx_Ok in H as (w1 & w2 & <- & H & ->). by eapply Hb.
  - apply tx_Err in H as ->. reflexivity.
Qed.
End Does.

(** Decompose a computation into its statements. *)
Ltac does_tac :=
  repeat first
    [ apply does_mok; apply _ | apply does_mfail; apply _ | apply does_require; apply _
    | apply does_lift; apply _ | apply does_query; apply _
    | apply does_then; [apply _| |intros ?] | apply does_for; [apply _|intros ?]
    | apply does_fold; [apply _|intros ? ?] | apply does_wrap
    | apply does_tx; [apply _|] ].

Lemma require_then R `{!PreOrder R} {A} b e (m : Store A) :
  (b = true -> does R m) -> does R (let! _ := require b e in m).
Proof.
  intros Hm w r w'. unfold mthen, require. destruct b; cbn; [by apply Hm|].
  intros [= _ <-]. reflexivity.
Qed.

(** Keeping an invariant is a preorder. *)
Definition keeps (I : DB -> Prop) (d d' : DB) : Prop := I d -> I d'.

#[export] Instance keeps_preorder I : PreOrder (keeps I).
Proof. split; [intros d; exact id|intros a b c H1 H2; unfold keeps in *; auto]. Qed.

(** Leaving a table alone is a preorder. *)
Definition same {T} (table : DB -> T) (d d' : DB) : Prop := table d' = table d.

#[export] Instance same_preorder {T} (table : DB -> T) : PreOrder (same table).
Proof. split; [done|intros a b c H1 H2; unfold same in *; congruence]. Qed.
