(* ===== verification/StateEnforce.v ===== *)
(** * The enforcement repository ([internal/state/enforcement_repository.go])

    The plan of enforcement objects, and the journal of LAPI operations with
    the decisions they own.  Every operation of the repository is a function
    of the store of [StateDB]; the lemmas give the effect of each statement and
    the invariants the operations keep. *)

From S2P Require Export StateDB.

(** ** Records *)

Definition SuppressionStale : string := "stale".

Definition scope_text (s : Scope) : string :=
  match s with ScopeIP => "Ip" | ScopeRange => "Range" end.
Definition suppression_text (s : Suppression) : string :=
  match s with
  | SuppressedNone => "" | SuppressedAllowlist => "allowlist" | SuppressedCovered => "covered_by_range"
  end.

Record EnforcementRecord : Type := MkEnforcementRecord {
  er_ID : Z; er_Prefix : Prefix; er_Scope : Scope; er_Desired : bool; er_Suppression : string;
  er_PrimaryFeedID : option Z; er_Sources : list Contributor }.

Record OperationItem : Type := MkOperationItem { oi_ObjectID : Z; oi_OldDecisionRowID : option Z }.

Record Operation : Type := MkOperation {
  op_Token : string; op_Kind : OperationKind; op_FeedID : Z; op_FeedName : string;
  op_Duration : Duration; op_PayloadHash : string; op_Status : OperationStatus;
  op_Items : list OperationItem; op_StartedAt : Time; op_CompletedAt : option Time }.

Record VerifiedDecision : Type := MkVerifiedDecision {
  vd_ObjectID : Z; vd_DecisionID : Z; vd_Origin : string; vd_Scenario : string;
  vd_Scope : string; vd_Value : string; vd_ExpiresAt : Time }.

Record VerifiedAlert : Type := MkVerifiedAlert {
  va_AlertID : Z; va_MachineID : string; va_Origin : string; va_Scenario : string;
  va_Decisions : list VerifiedDecision }.

Record DecisionRecord : Type := MkDecisionRecord {
  dr_ID : Z; dr_ObjectID : Z; dr_AlertID : Z; dr_DecisionID : Z; dr_OperationToken : string;
  dr_MachineID : string; dr_Origin : string; dr_Scenario : string; dr_Scope : Scope;
  dr_Value : string; dr_CreatedAt : Time; dr_ExpiresAt : Time; dr_VerifiedAt : Time;
  dr_Status : DecisionStatus; dr_ReplacedByID : option Z }.

(** ** Validation *)

Definition validBoundedText (value : string) (min max : Z) : bool :=
  (min <=? len value) && (len value <=? max) && negb (has_control value).

Definition valid_source (c : Contributor) : bool :=
  (0 <? ct_FeedID c) && match_feed_name (ct_FeedName c) &&
  match ct_Kind c with KindIP | KindRange => true | KindInvalid => false end.

Definition validateEnforcementObject (o : Object) : bool :=
  let prefix := Masked (ob_Prefix o) in
  fst (IsSafePrefix prefix) && bool_decide (prefix = ob_Prefix o) &&
  negb (match ob_Contributors o with [] => true | _ => false end) &&
  match ob_Scope o with ScopeIP => p_bits prefix =? BitLen (p_addr prefix) | ScopeRange => true end &&
  Bool.eqb (ob_Desired o) (bool_decide (ob_Suppression o = SuppressedNone)) &&
  forallb valid_source (ob_Contributors o) &&
  existsb (fun c => (ct_FeedID c =? ct_FeedID (ob_Primary o)) &&
                    bool_decide (ct_Kind c = ct_Kind (ob_Primary o))) (ob_Contributors o).

Fixpoint validate_plan (seen : gset Prefix) (objects : list Object) : bool :=
  match objects with
  | [] => true
  | o :: rest =>
      if negb (validateEnforcementObject o) then false
      else if bool_decide (ob_Prefix o ∈ seen) then false
      else validate_plan ({[ob_Prefix o]} ∪ seen) rest
  end.

(** ** The plan *)

(** [UPDATE enforcement_objects SET desired=0, suppression='stale',
    primary_feed_id=NULL, updated_at=?] *)
Definition stale_row (now : Z) (r : object_row) : object_row :=
  MkObjectRow (ow_prefix r) (ow_family r) (ow_bits r) (ow_scope r) false SuppressionStale None
    (ow_created r) now.

Definition mark_stale (now : Z) (d : DB) : DB := set_objects (stale_row now <$> db_objects d) d.

(** The upsert of an object by its prefix; the primary feed must exist. *)
Definition object_row_of (o : Object) (created now : Z) : object_row :=
  MkObjectRow (prefix_String (ob_Prefix o)) (family_of (ob_Prefix o)) (p_bits (ob_Prefix o))
    (ob_Scope o) (ob_Desired o) (suppression_text (ob_Suppression o))
    (Some (ct_FeedID (ob_Primary o))) created now.

Definition upsert_object (o : Object) (now : Z) (d : DB) : Prelude.result error (unit * DB) :=
  match db_feeds d !! ct_FeedID (ob_Primary o) with
  | None => Err (sqlite "foreign key")
  | Some _ =>
      match object_by_prefix (prefix_String (ob_Prefix o)) d with
      | None =>
          Ok (tt, set_objects (<[next_id (db_objects d) := object_row_of o now now]> (db_objects d)) d)
      | Some id =>
          let created := match db_objects d !! id with Some r => ow_created r | None => now end in
          Ok (tt, set_objects (<[id := object_row_of o created now]> (db_objects d)) d)
      end
  end.

(** [SELECT id FROM enforcement_objects WHERE prefix=?] *)
Definition select_object (prefix : string) (d : DB) : Prelude.result error (Z * DB) :=
  match object_by_prefix prefix d with Some id => Ok (id, d) | None => Err ErrNoRows end.

Definition delete_sources (object : Z) (d : DB) : DB :=
  set_sources (filter (fun k : Z * Z * Z => k.1.1 <> object) (db_sources d)) d.

Definition insert_source (object : Z) (c : Contributor) (d : DB) : Prelude.result error (unit * DB) :=
  let key := (object, ct_FeedID c, kind_value (ct_Kind c)) in
  match db_feeds d !! ct_FeedID c with
  | None => Err (sqlite "foreign key")
  | Some _ =>
      if bool_decide (key ∈ db_sources d) then Err (sqlite "primary key")
      else Ok (tt, set_sources ({[key]} ∪ db_sources d) d)
  end.

Definition apply_object (now : Z) (o : Object) : Store unit :=
  let! _ := wrap state.ErrQuery (stmt (upsert_object o now)) in
  let! objectID := wrap state.ErrQuery (stmt (select_object (prefix_String (ob_Prefix o)))) in
  let! _ := wrap state.ErrQuery (update (delete_sources objectID)) in
  mfor (fun source => wrap state.ErrQuery (stmt (insert_source objectID source))) (ob_Contributors o).

Definition apply_plan (objects : list Object) (now : Z) : Store unit :=
  let! _ := wrap state.ErrQuery (update (mark_stale now)) in
  mfor (apply_object now) objects.

(** The rows of [enforcement_objects] by family, prefix length and prefix. *)
Definition compare_object_row (a b : Z * object_row) : Z :=
  cmp_then (cmp_int (ow_family a.2) (ow_family b.2))
    (cmp_then (cmp_int (ow_bits a.2) (ow_bits b.2)) (cmp_string (ow_prefix a.2) (ow_prefix b.2))).

Definition objects_in_order (d : DB) : list (Z * object_row) :=
  sort_func compare_object_row (map_to_list (db_objects d)).

(** One row of the listing, without its sources. *)
Definition scan_object (kr : Z * object_row) : Prelude.result error EnforcementRecord :=
  let '(id, r) := kr in
  match NormalizePrefix (ow_prefix r) with
  | Err _ => Err (stateError state.ErrIntegrity (Some (Foreign "invalid network indicator")))
  | Ok prefix =>
      if negb (p_bits prefix =? ow_bits r) || negb (Bool.eqb (ow_family r =? 4) (Is4 (p_addr prefix)))
      then Err integrity
      else Ok (MkEnforcementRecord id prefix (ow_scope r) (ow_desired r) (ow_suppression r)
                 (ow_primary r) [])
  end.

Fixpoint scan_objects (rows : list (Z * object_row)) : Prelude.result error (list EnforcementRecord) :=
  match rows with
  | [] => Ok []
  | kr :: rest =>
      let? r := scan_object kr in
      let? rs := scan_objects rest in
      Ok (r :: rs)
  end.

(** The sources of an object joined with their feeds, by feed name and kind. *)
Definition sources_of (object : Z) (d : DB) : list (Z * string * Z) :=
  sort_func (fun a b => cmp_then (cmp_string a.1.2 b.1.2) (cmp_int a.2 b.2))
    (omap (fun k : Z * Z * Z =>
       if k.1.1 =? object
       then match db_feeds d !! k.1.2 with Some f => Some (k.1.2, fr_name f, k.2) | None => None end
       else None) (elements (db_sources d))).

Fixpoint scan_sources (rows : list (Z * string * Z)) : Prelude.result error (list Contributor) :=
  match rows with
  | [] => Ok []
  | (feed, name, kind) :: rest =>
      let? k := checkedNetworkKind kind in
      let? cs := scan_sources rest in
      Ok (MkContributor feed name 0 k :: cs)
  end.

Definition with_sources (r : EnforcementRecord) (cs : list Contributor) : EnforcementRecord :=
  MkEnforcementRecord (er_ID r) (er_Prefix r) (er_Scope r) (er_Desired r) (er_Suppression r)
    (er_PrimaryFeedID r) cs.

Definition ListEnforcementObjects : Store (list EnforcementRecord) :=
  let! rows := wrap state.ErrQuery (query objects_in_order) in
  let! records := lift (scan_objects rows) in
  mfold (fun acc r =>
    let! rows := wrap state.ErrQuery (query (sources_of (er_ID r))) in
    let! cs := lift (scan_sources rows) in
    mok (acc ++ [with_sources r cs])) [] records.

Definition ApplyEnforcementPlan (objects : list Object) (now : Time) : Store (list EnforcementRecord) :=
  let! _ := require (negb (time_IsZero now)) constraint in
  let! _ := require (validate_plan ∅ objects) constraint in
  let! _ := tx (apply_plan objects (unix now)) in
  ListEnforcementObjects.

(** ** The journal of operations *)

Definition valid_item (kind : OperationKind) (item : OperationItem) : bool :=
  (0 <? oi_ObjectID item) &&
  match kind, oi_OldDecisionRowID item with
  | OperationCreate, Some _ => false
  | OperationRefresh, None => false
  | _, _ => true
  end.

Fixpoint valid_items (kind : OperationKind) (seen : gset Z) (items : list OperationItem) : bool :=
  match items with
  | [] => true
  | item :: rest =>
      (0 <? oi_ObjectID item) && negb (bool_decide (oi_ObjectID item ∈ seen)) &&
      valid_item kind item && valid_items kind ({[oi_ObjectID item]} ∪ seen) rest
  end.

Definition validOperation (o : Operation) : bool :=
  match_token (op_Token o) && (0 <? op_FeedID o) && (Second <=? op_Duration o) &&
  (op_Duration o <=? 7 * 24 * Hour) && validHash (op_PayloadHash o) &&
  negb (match op_Items o with [] => true | _ => false end) && negb (time_IsZero (op_StartedAt o)) &&
  valid_items (op_Kind o) ∅ (op_Items o).

Definition select_primary (object : Z) (d : DB) : Prelude.result error (option Z * DB) :=
  match db_objects d !! object with Some r => Ok (ow_primary r, d) | None => Err ErrNoRows end.

Definition select_decision (row : Z) (d : DB) : Prelude.result error (decision_row * DB) :=
  match db_decisions d !! row with Some r => Ok (r, d) | None => Err ErrNoRows end.

Definition begin_item (feed : Z) (item : OperationItem) : Store unit :=
  let! primary := wrap state.ErrConstraint (stmt (select_primary (oi_ObjectID item))) in
  let! _ := require (bool_decide (primary = Some feed)) constraint in
  match oi_OldDecisionRowID item with
  | None => mok tt
  | Some old =>
      let! r := wrap state.ErrConstraint (stmt (select_decision old)) in
      require ((dw_object r =? oi_ObjectID item) && bool_decide (dw_status r = DecisionActive)) constraint
  end.

Definition insert_operation (o : Operation) (d : DB) : Prelude.result error (unit * DB) :=
  match db_operations d !! op_Token o, db_feeds d !! op_FeedID o with
  | Some _, _ => Err (sqlite "primary key")
  | None, None => Err (sqlite "foreign key")
  | None, Some _ =>
      Ok (tt, set_operations (<[op_Token o := MkOperationRow (op_Kind o) (op_FeedID o)
               (op_Duration o / Second) (op_PayloadHash o) OperationPending (unix (op_StartedAt o))
               None ""]> (db_operations d)) d)
  end.

Definition insert_item (token : string) (item : OperationItem) (d : DB) : Prelude.result error (unit * DB) :=
  match db_items d !! (token, oi_ObjectID item), db_operations d !! token,
        db_objects d !! oi_ObjectID item with
  | Some _, _, _ => Err (sqlite "primary key")
  | None, Some _, Some _ =>
      match oi_OldDecisionRowID item with
      | Some old =>
          match db_decisions d !! old with
          | None => Err (sqlite "foreign key")
          | Some _ => Ok (tt, set_items (<[(token, oi_ObjectID item) := Some old]> (db_items d)) d)
          end
      | None => Ok (tt, set_items (<[(token, oi_ObjectID item) := None]> (db_items d)) d)
      end
  | None, _, _ => Err (sqlite "foreign key")
  end.

Definition begin_body (o : Operation) : Store unit :=
  let! feeds := wrap state.ErrConstraint (query (fun d => bool_decide (is_Some (db_feeds d !! op_FeedID o)))) in
  let! _ := require feeds constraint in
  let! _ := mfor (begin_item (op_FeedID o)) (op_Items o) in
  let! _ := wrap state.ErrQuery (stmt (insert_operation o)) in
  mfor (fun item => wrap state.ErrQuery (stmt (insert_item (op_Token o) item))) (op_Items o).

Definition BeginOperation (o : Operation) : Store unit :=
  let! _ := require (validOperation o) constraint in tx (begin_body o).

(** The items of an operation, by object. *)
Definition items_of (token : string) (d : DB) : list (Z * option Z) :=
  sort_func (fun a b => cmp_int a.1 b.1)
    (omap (fun kv : (string * Z) * option Z =>
       if String.eqb kv.1.1 token then Some (kv.1.2, kv.2) else None) (map_to_list (db_items d))).

Definition is_open (s : OperationStatus) : bool :=
  match s with OperationPending | OperationVerified | OperationAmbiguous => true | _ => false end.

(** [SELECT ... FROM lapi_operations o JOIN feeds f ... WHERE o.status IN
    ('pending', 'verified', 'ambiguous') ORDER BY o.started_at, o.token] *)
Definition open_operations (d : DB) : list Operation :=
  map (fun tr : string * operation_row * string =>
    let '(token, r, name) := tr in
    MkOperation token (pw_kind r) (pw_feed r) name (pw_duration r * Second) (pw_hash r)
      (pw_status r) [] (Unix (pw_started r)) (Unix <$> pw_completed r))
  (sort_func (fun a b => cmp_then (cmp_int (pw_started a.1.2) (pw_started b.1.2)) (cmp_string a.1.1 b.1.1))
    (omap (fun kv : string * operation_row =>
       if is_open (pw_status kv.2)
       then match db_feeds d !! pw_feed kv.2 with
            | Some f => Some (kv.1, kv.2, fr_name f) | None => None end
       else None) (map_to_list (db_operations d)))).

Definition with_items (o : Operation) (items : list OperationItem) : Operation :=
  MkOperation (op_Token o) (op_Kind o) (op_FeedID o) (op_FeedName o) (op_Duration o)
    (op_PayloadHash o) (op_Status o) items (op_StartedAt o) (op_CompletedAt o).

Definition OpenOperations : Store (list Operation) :=
  let! ops := wrap state.ErrQuery (query open_operations) in
  mfold (fun acc o =>
    let! items := wrap state.ErrQuery (query (items_of (op_Token o))) in
    mok (acc ++ [with_items o (map (fun i => MkOperationItem i.1 i.2) items)])) [] ops.

Definition expectedObjectValue (prefix : Prefix) (scope : Scope) : string :=
  match scope with ScopeIP => addr_String (p_addr prefix) | ScopeRange => prefix_String prefix end.

(** *** Decisions *)

Definition decision_record (id : Z) (r : decision_row) (a : alert_row) : DecisionRecord :=
  MkDecisionRecord id (dw_object r) (aw_alert_id a) (dw_decision_id r) (aw_token a) (aw_machine a)
    (dw_origin r) (dw_scenario r) (dw_scope r) (dw_value r) (Unix (dw_created r))
    (Unix (dw_expires r)) (Unix (dw_verified r)) (dw_status r) (dw_replaced_by r).

(** [decisionSelect] with a condition, ordered by object and row. *)
Definition decisions_where (p : decision_row -> alert_row -> bool) (d : DB) : list DecisionRecord :=
  sort_func (fun a b => cmp_then (cmp_int (dr_ObjectID a) (dr_ObjectID b)) (cmp_int (dr_ID a) (dr_ID b)))
    (omap (fun kv : Z * decision_row =>
       match db_alerts d !! dw_alert_row kv.2 with
       | Some a => if p kv.2 a then Some (decision_record kv.1 kv.2 a) else None
       | None => None
       end) (map_to_list (db_decisions d))).

Definition operation_decisions (token : string) (d : DB) : list DecisionRecord :=
  decisions_where (fun _ a => String.eqb (aw_token a) token) d.

Definition queryOperationDecisions (token : string) : Store (list DecisionRecord) :=
  query (operation_decisions token).

Definition DecisionsForOperation (token : string) : Store (list DecisionRecord) :=
  let! _ := require (match_token token) constraint in
  wrap state.ErrQuery (queryOperationDecisions token).

Definition is_live (s : DecisionStatus) : bool :=
  match s with DecisionActive | DecisionExpiring => true | _ => false end.

Definition ListActiveDecisions : Store (list DecisionRecord) :=
  wrap state.ErrQuery (query (decisions_where (fun r _ => bool_decide (dw_status r = DecisionActive)))).
Definition ListLiveDecisions : Store (list DecisionRecord) :=
  wrap state.ErrQuery (query (decisions_where (fun r _ => is_live (dw_status r)))).

Definition DecisionByRowID (rowID : Z) : Store DecisionRecord :=
  let! _ := require (0 <? rowID) constraint in
  let! r := wrap state.ErrQuery (query (fun d =>
    match db_decisions d !! rowID with
    | Some r => match db_alerts d !! dw_alert_row r with
                | Some a => Some (decision_record rowID r a) | None => None end
    | None => None end)) in
  match r with
  | Some record => mok record
  | None => mfail (stateError state.ErrNotFound (Some ErrNoRows))
  end.

Definition set_decision_status (s : DecisionStatus) (r : decision_row) : decision_row :=
  MkDecisionRow (dw_object r) (dw_alert_row r) (dw_decision_id r) (dw_origin r) (dw_scenario r)
    (dw_scope r) (dw_value r) (dw_created r) (dw_expires r) (dw_verified r) s (dw_replaced_by r).

Definition expire_row (now : Z) (r : decision_row) : decision_row :=
  MkDecisionRow (dw_object r) (dw_alert_row r) (dw_decision_id r) (dw_origin r) (dw_scenario r)
    (dw_scope r) (dw_value r) (dw_created r) (dw_expires r) now DecisionExpired (dw_replaced_by r).

(** An [UPDATE] of at most one row by its key: the number of rows changed. *)
Definition mark_expired (rowID now : Z) (d : DB) : Prelude.result error (Z * DB) :=
  match db_decisions d !! rowID with
  | Some r =>
      if is_live (dw_status r)
      then Ok (1, set_decisions (<[rowID := expire_row now r]> (db_decisions d)) d)
      else Ok (0, d)
  | None => Ok (0, d)
  end.

Definition MarkDecisionExpired (rowID : Z) (now : Time) : Store unit :=
  let! _ := require ((0 <? rowID) && negb (time_IsZero now)) constraint in
  let! changed := wrap state.ErrQuery (stmt (mark_expired rowID (unix now))) in
  require (changed =? 1) constraint.

(** *** Recording a verified alert *)

Definition select_operation (token : string) (d : DB)
  : option (OperationKind * string * Z * OperationStatus) :=
  match db_operations d !! token with
  | Some r => match db_feeds d !! pw_feed r with
              | Some f => Some (pw_kind r, fr_name f, pw_duration r, pw_status r) | None => None end
  | None => None
  end.

Record expectedItem : Type := MkExpectedItem {
  ei_object : Z; ei_prefix : Prefix; ei_scope : Scope; ei_old : option Z }.

(** The items joined with their objects, with the prefix parsed. *)
Fixpoint scan_items (rows : list (Z * option Z)) (d : DB) : Prelude.result error (list expectedItem) :=
  match rows with
  | [] => Ok []
  | (object, old) :: rest =>
      match db_objects d !! object with
      | None => scan_items rest d
      | Some r =>
          match NormalizePrefix (ow_prefix r) with
          | Err _ => Err (stateError state.ErrIntegrity (Some (Foreign "invalid network indicator")))
          | Ok prefix =>
              let? es := scan_items rest d in
              Ok (MkExpectedItem object prefix (ow_scope r) old :: es)
          end
      end
  end.

Definition find_item (object : Z) (es : list expectedItem) : option expectedItem :=
  List.find (fun e => ei_object e =? object) es.

Definition verified_matches (scenario : string) (now : Time) (seconds : Z) (e : expectedItem)
    (vd : VerifiedDecision) : bool :=
  (0 <? vd_DecisionID vd) && String.eqb (vd_Origin vd) "crowdshield" &&
  String.eqb (vd_Scenario vd) scenario && String.eqb (vd_Scope vd) (scope_text (ei_scope e)) &&
  String.eqb (vd_Value vd) (expectedObjectValue (ei_prefix e) (ei_scope e)) &&
  After (vd_ExpiresAt vd) now &&
  negb (After (vd_ExpiresAt vd) (time_Add now (seconds * Second + 10 * Minute))).

Fixpoint check_decisions (scenario : string) (now : Time) (seconds : Z) (es : list expectedItem)
    (seenObjects seenDecisions : gset Z) (vds : list VerifiedDecision) : bool :=
  match vds with
  | [] => true
  | vd :: rest =>
      match find_item (vd_ObjectID vd) es with
      | None => false
      | Some e =>
          verified_matches scenario now seconds e vd &&
          negb (bool_decide (vd_ObjectID vd ∈ seenObjects)) &&
          negb (bool_decide (vd_DecisionID vd ∈ seenDecisions)) &&
          check_decisions scenario now seconds es ({[vd_ObjectID vd]} ∪ seenObjects)
            ({[vd_DecisionID vd]} ∪ seenDecisions) rest
      end
  end.

Definition insert_alert (token : string) (a : VerifiedAlert) (now : Z) (d : DB)
  : Prelude.result error (Z * DB) :=
  if bool_decide (map_Forall (fun _ r => aw_alert_id r <> va_AlertID a /\ aw_token r <> token) (db_alerts d))
  then let id := next_id (db_alerts d) in
       Ok (id, set_alerts (<[id := MkAlertRow (va_AlertID a) token (va_MachineID a) (va_Origin a)
                              (va_Scenario a) now now]> (db_alerts d)) d)
  else Err (sqlite "unique").

(** The scope of a decision that was checked against its object. *)
Definition parse_scope (s : string) : Scope := if String.eqb s "Ip" then ScopeIP else ScopeRange.

Definition insert_decision (alertRow now : Z) (vd : VerifiedDecision) (d : DB)
  : Prelude.result error (Z * DB) :=
  match db_objects d !! vd_ObjectID vd, db_alerts d !! alertRow with
  | Some _, Some _ =>
      if bool_decide (map_Forall (fun _ r => dw_decision_id r <> vd_DecisionID vd) (db_decisions d))
      then let id := next_id (db_decisions d) in
           Ok (id, set_decisions (<[id := MkDecisionRow (vd_ObjectID vd) alertRow (vd_DecisionID vd)
                     (vd_Origin vd) (vd_Scenario vd) (parse_scope (vd_Scope vd)) (vd_Value vd) now
                     (unix (vd_ExpiresAt vd)) now DecisionActive None]> (db_decisions d)) d)
      else Err (sqlite "unique")
  | _, _ => Err (sqlite "foreign key")
  end.

Definition replace_row (new : option Z) (r : decision_row) : decision_row :=
  MkDecisionRow (dw_object r) (dw_alert_row r) (dw_decision_id r) (dw_origin r) (dw_scenario r)
    (dw_scope r) (dw_value r) (dw_created r) (dw_expires r) (dw_verified r) DecisionExpiring new.

(** [UPDATE lapi_decisions SET status='expiring', replaced_by_id=? WHERE id=?
    AND object_id=? AND status='active'] *)
Definition replace_decision (new old object : Z) (d : DB) : Prelude.result error (Z * DB) :=
  match db_decisions d !! old with
  | Some r =>
      if (dw_object r =? object) && bool_decide (dw_status r = DecisionActive) then
        match db_decisions d !! new with
        | Some _ => Ok (1, set_decisions (<[old := replace_row (Some new) r]> (db_decisions d)) d)
        | None => Err (sqlite "foreign key")
        end
      else Ok (0, d)
  | None => Ok (0, d)
  end.

Definition set_operation_row (s : OperationStatus) (completed : option Z) (category : string)
    (r : operation_row) : operation_row :=
  MkOperationRow (pw_kind r) (pw_feed r) (pw_duration r) (pw_hash r) s (pw_started r) completed category.

Definition mark_verified (token : string) (d : DB) : DB :=
  set_operations (alter (fun r => set_operation_row OperationVerified (pw_completed r) (pw_error r) r)
                    token (db_operations d)) d.

(** [newRows[objectID]]: zero for an object without a new decision. *)
Definition new_row (object : Z) (newRows : gmap Z Z) : Z := default 0 (newRows !! object).

Definition replace_old (newRows : gmap Z Z) (e : expectedItem) : Store unit :=
  match ei_old e with
  | None => mok tt
  | Some old =>
      let! changed := wrap state.ErrQuery
        (stmt (replace_decision (new_row (ei_object e) newRows) old (ei_object e))) in
      require (changed =? 1) constraint
  end.

(** The [range] over the map of expected items is in the order of the query:
    each iteration changes the decision of another object. *)
Definition record_rows (token : string) (alert : VerifiedAlert) (now : Time) (es : list expectedItem)
  : Store unit :=
  let! alertRow := wrap state.ErrQuery (stmt (insert_alert token alert (unix now))) in
  let! newRows := mfold (fun rows vd =>
      let! id := wrap state.ErrQuery (stmt (insert_decision alertRow (unix now) vd)) in
      mok (<[vd_ObjectID vd := id]> rows)) ∅ (va_Decisions alert) in
  mfor (replace_old newRows) es.

Definition record_new (token : string) (alert : VerifiedAlert) (now : Time) (es : list expectedItem)
  : Store (list DecisionRecord) :=
  let! _ := record_rows token alert now es in
  let! _ := wrap state.ErrQuery (update (mark_verified token)) in
  wrap state.ErrQuery (queryOperationDecisions token).

Definition record_body (token : string) (alert : VerifiedAlert) (now : Time) : Store (list DecisionRecord) :=
  let! op := wrap state.ErrQuery (query (select_operation token)) in
  match op with
  | None => mfail (stateError state.ErrNotFound (Some ErrNoRows))
  | Some (kind, feedName, seconds, status) =>
      match status with
      | OperationVerified | OperationCompleted =>
          let! records := wrap state.ErrIntegrity (queryOperationDecisions token) in
          let! _ := require (negb (match records with [] => true | _ => false end)) integrity in
          mok records
      | OperationFailed => mfail constraint
      | OperationPending | OperationAmbiguous =>
          let scenario := "crowdshield/" +:+ feedName in
          let! _ := require (String.eqb (va_Scenario alert) scenario &&
                             negb (match va_Decisions alert with [] => true | _ => false end)) constraint in
          let! rows := wrap state.ErrQuery (query (fun d => (items_of token d, d))) in
          let! es := lift (scan_items rows.1 rows.2) in
          let! _ := require (List.length es =? List.length (va_Decisions alert))%nat constraint in
          let! _ := require (check_decisions scenario now seconds es ∅ ∅ (va_Decisions alert)) constraint in
          record_new token alert now es
      end
  end.

Definition RecordVerifiedOperation (token : string) (alert : VerifiedAlert) (now : Time)
  : Store (list DecisionRecord) :=
  let! _ := require (match_token token && negb (time_IsZero now) && (0 <? va_AlertID alert) &&
                     String.eqb (va_Origin alert) "crowdshield" &&
                     validBoundedText (va_MachineID alert) 1 128) constraint in
  tx (record_body token alert now).

(** *** Closing an operation *)

Definition update_operation (token : string) (from : OperationStatus -> bool)
    (f : operation_row -> operation_row) (d : DB) : Prelude.result error (Z * DB) :=
  match db_operations d !! token with
  | Some r =>
      if from (pw_status r)
      then Ok (1, set_operations (<[token := f r]> (db_operations d)) d)
      else Ok (0, d)
  | None => Ok (0, d)
  end.

Definition is_done (s : OperationStatus) : bool :=
  match s with OperationVerified | OperationCompleted => true | _ => false end.
Definition is_unverified (s : OperationStatus) : bool :=
  match s with OperationPending | OperationAmbiguous => true | _ => false end.

Definition CompleteOperation (token : string) (now : Time) : Store unit :=
  let! _ := require (match_token token && negb (time_IsZero now)) constraint in
  let! changed := wrap state.ErrQuery (stmt (update_operation token is_done
    (fun r => set_operation_row OperationCompleted (Some (unix now)) (pw_error r) r))) in
  require (changed =? 1) constraint.

Definition SetOperationStatus (token : string) (status : OperationStatus) (category : string) (now : Time)
  : Store unit :=
  let! _ := require (match_token token && negb (time_IsZero now) &&
    match status with OperationAmbiguous | OperationFailed => true | _ => false end &&
    (String.eqb category "" || match_category category)) constraint in
  let completed := match status with OperationFailed => Some (unix now) | _ => None end in
  let! changed := wrap state.ErrQuery (stmt (update_operation token is_unverified
    (set_operation_row status completed category))) in
  require (changed =? 1) constraint.

(** ** Calls and histories *)

Inductive call : Type :=
| CallApplyEnforcementPlan (objects : list Object) (now : Time)
| CallListEnforcementObjects
| CallBeginOperation (o : Operation)
| CallOpenOperations
| CallRecordVerifiedOperation (token : string) (alert : VerifiedAlert) (now : Time)
| CallCompleteOperation (token : string) (now : Time)
| CallSetOperationStatus (token : string) (status : OperationStatus) (category : string) (now : Time)
| CallDecisionsForOperation (token : string)
| CallListActiveDecisions
| CallListLiveDecisions
| CallDecisionByRowID (rowID : Z)
| CallMarkDecisionExpired (rowID : Z) (now : Time).

Definition exec (c : call) : Store unit :=
  match c with
  | CallApplyEnforcementPlan objects now => void (ApplyEnforcementPlan objects now)
  | CallListEnforcementObjects => void ListEnforcementObjects
  | CallBeginOperation o => BeginOperation o
  | CallOpenOperations => void OpenOperations
  | CallRecordVerifiedOperation token alert now => void (RecordVerifiedOperation token alert now)
  | CallCompleteOperation token now => CompleteOperation token now
  | CallSetOperationStatus token status category now => SetOperationStatus token status category now
  | CallDecisionsForOperation token => void (DecisionsForOperation token)
  | CallListActiveDecisions => void ListActiveDecisions
  | CallListLiveDecisions => void ListLiveDecisions
  | CallDecisionByRowID rowID => void (DecisionByRowID rowID)
  | CallMarkDecisionExpired rowID now => MarkDecisionExpired rowID now
  end.

(** A history: the calls one after the other, each ending with success or
    with an error, and any statement failing. *)
Fixpoint history (cs : list call) (w : SW) : SW :=
  match cs with [] => w | c :: rest => history rest (exec c w).2 end.

(** The statements that change the database, in any call. *)
Record statements_do (R : DB -> DB -> Prop) : Prop := {
  sd_stale : forall now d, R d (mark_stale now d);
  sd_upsert : forall o now d a d', validateEnforcementObject o = true -> prefix_wf (ob_Prefix o) ->
    upsert_object o now d = Ok (a, d') -> R d d';
  sd_delete : forall id d, R d (delete_sources id d);
  sd_source : forall id c d a d', valid_source c = true ->
    is_Some (db_objects d !! id) -> insert_source id c d = Ok (a, d') -> R d d';
  sd_operation : forall o d a d', validOperation o = true ->
    insert_operation o d = Ok (a, d') -> R d d';
  sd_item : forall t i d a d', insert_item t i d = Ok (a, d') -> R d d';
  sd_alert : forall t al now d a d', insert_alert t al now d = Ok (a, d') -> R d d';
  sd_decision : forall ar now vd d a d', insert_decision ar now vd d = Ok (a, d') -> R d d';
  sd_replace : forall new old o d a d', replace_decision new old o d = Ok (a, d') -> R d d';
  sd_verified : forall t d, (forall r, db_operations d !! t = Some r -> is_unverified (pw_status r) = true) ->
    R d (mark_verified t d);
  sd_complete : forall t now d a d',
    update_operation t is_done (fun r => set_operation_row OperationCompleted (Some now) (pw_error r) r) d
      = Ok (a, d') -> R d d';
  sd_status : forall t s completed category d a d', s = OperationAmbiguous \/ s = OperationFailed ->
    (is_Some completed <-> s = OperationFailed) ->
    update_operation t is_unverified (set_operation_row s completed category) d = Ok (a, d') -> R d d';
  sd_expired : forall row now d a d', mark_expired row now d = Ok (a, d') -> R d d' }.

Lemma validate_plan_all seen objects :
  validate_plan seen objects = true ->
  List.Forall (fun o => validateEnforcementObject o = true) objects /\
  NoDup (map ob_Prefix objects) /\ (forall o, In o objects -> ob_Prefix o ∉ seen).
Proof.
  revert seen. induction objects as [|o objects IH]; intros seen; cbn [validate_plan].
  - intros _. split_and!; [constructor|constructor|by intros ? []].
  - destruct (validateEnforcementObject o) eqn:Ev; cbn [negb]; [|done].
    case_bool_decide as Hin; [done|]. intros (H1 & H2 & H3)%IH. split_and!.
    + by constructor.
    + cbn. apply list.NoDup_cons. split; [|done].
      intros (x & E & Hx)%list_elem_of_fmap. apply list_elem_of_In, H3 in Hx. set_solver.
    + intros x [<-|Hx]; [done|]. apply H3 in Hx. set_solver.
Qed.

Lemma object_by_prefix_exists prefix d id :
  object_by_prefix prefix d = Some id -> is_Some (db_objects d !! id).
Proof. intros (v & H & _)%find_row_Some. eauto. Qed.

(** Sources are inserted for an object that exists: the statements in between
    leave the objects alone. *)
Lemma does_sources R `{!PreOrder R} (Hsd : statements_do R) id sources w r w' :
  List.Forall (fun c => valid_source c = true) sources -> is_Some (db_objects (sw_db w) !! id) ->
  mfor (fun c => wrap state.ErrQuery (stmt (insert_source id c))) sources w = (r, w') ->
  R (sw_db w) (sw_db w').
Proof.
  intros Hs. revert w. induction Hs as [|c sources Hc Hs IH]; intros w Hid H; cbn [mfor] in H.
  - injection H as _ <-. reflexivity.
  - unfold mthen in H. destruct (wrap _ _ w) as [[u|e] w1] eqn:E.
    + apply wrap_Ok in E. apply stmt_db in E as [(e & ? & _)|(a & _ & E)]; [done|].
      transitivity (sw_db w1); [by eapply sd_source|]. apply (IH w1); [|done].
      unfold insert_source in E. destruct (db_feeds _ !! _); [|done].
      case_bool_decide; [done|]. injection E as _ <-. exact Hid.
    + injection H as _ <-. pose proof (wrap_db state.ErrQuery (stmt (insert_source id c)) w) as Hw.
      rewrite E in Hw. cbn [snd] in Hw. rewrite Hw.
      destruct (stmt (insert_source id c) w) as [r2 w2] eqn:E2. cbn [snd].
      apply stmt_db in E2 as [(? & _ & ->)|(? & _ & E2)]; [reflexivity|]. by eapply sd_source.
Qed.

Lemma does_wrap_stmt R `{!PreOrder R} {A} c (run : DB -> Prelude.result error (A * DB)) :
  (forall d a d', run d = Ok (a, d') -> R d d') -> does R (wrap c (stmt run)).
Proof. intros H. by apply does_wrap, does_stmt. Qed.

Lemma valid_object_sources o :
  validateEnforcementObject o = true ->
  List.Forall (fun c => valid_source c = true) (ob_Contributors o).
Proof.
  unfold validateEnforcementObject. intros H. to_prop. apply List.Forall_forall.
  by apply List.forallb_forall.
Qed.

Lemma apply_object_does R `{!PreOrder R} (Hsd : statements_do R) now o :
  validateEnforcementObject o = true -> prefix_wf (ob_Prefix o) -> does R (apply_object now o).
Proof.
  intros Hv Hwf w r w' H. unfold apply_object in H.
  assert (List.Forall (fun c => valid_source c = true) (ob_Contributors o)) as Hsrc.
  { by apply valid_object_sources. }
  unfold mthen in H. destruct (wrap state.ErrQuery (stmt (upsert_object o now)) w) as [[u1|e1] w1] eqn:E1.
  2:{ injection H as _ <-. eapply does_wrap_stmt in E1; [exact E1|apply _|].
      intros d a d'. by apply sd_upsert. }
  assert (R (sw_db w) (sw_db w1)) as H1.
  { eapply does_wrap_stmt in E1; [exact E1|apply _|]. intros d a d'. by apply sd_upsert. }
  destruct (wrap state.ErrQuery (stmt (select_object _)) w1) as [[id|e2] w2] eqn:E2.
  2:{ injection H as _ <-. transitivity (sw_db w1); [done|].
      eapply does_wrap_stmt in E2; [exact E2|apply _|].
      intros d a d'. unfold select_object. destruct (object_by_prefix _ _); [|done]. intros [= _ <-]. reflexivity. }
  apply wrap_Ok, stmt_db in E2 as [(? & ? & _)|(a & [= <-] & E2)]; [done|].
  unfold select_object in E2. destruct (object_by_prefix _ (sw_db w1)) as [id'|] eqn:Eid; [|done].
  injection E2 as -> E2. transitivity (sw_db w1); [done|].
  destruct (wrap state.ErrQuery (update (delete_sources id)) w2) as [[u3|e3] w3] eqn:E3.
  - apply wrap_Ok, update_db in E3 as [[_ E3]|[[? ?] _]]; [|done].
    transitivity (sw_db w3); [rewrite E3, <- E2; by apply sd_delete|].
    eapply does_sources; [apply _|done|done| |exact H]. rewrite E3, <- E2. cbn.
    by eapply object_by_prefix_exists.
  - injection H as _ <-. rewrite E2. eapply (does_wrap R); [|exact E3].
    apply does_update; [apply _|]. intros d. by apply sd_delete.
Qed.

Lemma plan_does R `{!PreOrder R} (Hsd : statements_do R) objects now :
  List.Forall (fun o => validateEnforcementObject o = true) objects ->
  List.Forall (fun o => prefix_wf (ob_Prefix o)) objects -> does R (apply_plan objects now).
Proof.
  intros Hv Hwf. apply does_then; [apply _| |intros _].
  - apply does_wrap, does_update; [apply _|]. intros d. by apply sd_stale.
  - induction Hv as [|o objects Ho Hv IH]; cbn [mfor]; [apply does_mok, _|].
    apply List.Forall_cons_iff in Hwf as [Hwfo Hwf].
    apply does_then; [apply _|by apply apply_object_does|by intros _; apply IH].
Qed.

Lemma record_rows_does R `{!PreOrder R} (Hsd : statements_do R) token alert now es :
  does R (record_rows token alert now es).
Proof.
  unfold record_rows, replace_old. apply does_then; [apply _| |intros alertRow].
  - apply does_wrap_stmt; [apply _|]. intros d a d'. by apply sd_alert.
  - apply does_then; [apply _| |intros newRows].
    + apply does_fold; [apply _|]. intros rows vd. apply does_then; [apply _| |intros id; apply does_mok, _].
      apply does_wrap_stmt; [apply _|]. intros d a d'. by apply sd_decision.
    + apply does_for; [apply _|]. intros e. destruct (ei_old e); [|apply does_mok, _].
      apply does_then; [apply _| |intros n; apply does_require, _].
      apply does_wrap_stmt; [apply _|]. intros d a d'. by apply sd_replace.
Qed.

(** Only the alerts and the decisions change before the operation does. *)
Lemma record_rows_operations token alert now es :
  does (same db_operations) (record_rows token alert now es).
Proof.
  unfold record_rows, replace_old. does_tac.
  - apply does_stmt; [apply _|]. intros d a d'. unfold insert_alert.
    case_bool_decide; [|done]. by intros [= _ <-].
  - apply does_stmt; [apply _|]. intros d r d'. unfold insert_decision.
    destruct (db_objects d !! _); [|done]. destruct (db_alerts d !! _); [|done].
    case_bool_decide; [|done]. by intros [= _ <-].
  - destruct (ei_old _); does_tac. apply does_stmt; [apply _|]. intros d r d'.
    unfold replace_decision. destruct (db_decisions d !! _) as [row|]; [|by intros [= _ <-]].
    destruct (_ && _); [|by intros [= _ <-]]. destruct (db_decisions d !! _); [|done].
    by intros [= _ <-].
Qed.

Lemma record_new_does R `{!PreOrder R} (Hsd : statements_do R) token alert now es w r w' :
  (forall row, db_operations (sw_db w) !! token = Some row -> is_unverified (pw_status row) = true) ->
  record_new token alert now es w = (r, w') -> R (sw_db w) (sw_db w').
Proof.
  intros Hop. unfold record_new, mthen at 1. destruct (record_rows token alert now es w) as [[u|e] w1] eqn:E1.
  - pose proof (record_rows_does R Hsd _ _ _ _ _ _ _ E1) as H1.
    pose proof (record_rows_operations _ _ _ _ _ _ _ E1) as H2. unfold same in H2. intros H.
    transitivity (sw_db w1); [done|]. unfold mthen in H.
    destruct (wrap state.ErrQuery (update (mark_verified token)) w1) as [[u2|e2] w2] eqn:E2.
    + apply wrap_Ok, update_db in E2 as [[_ E2]|[[? ?] _]]; [|done].
      transitivity (sw_db w2); [rewrite E2; apply sd_verified; [done|by rewrite H2]|].
      eapply (does_wrap R); [|exact H]. apply does_query, _.
    + injection H as _ <-. pose proof (wrap_db state.ErrQuery (update (mark_verified token)) w1) as Hw.
      rewrite E2 in Hw. cbn [snd] in Hw. rewrite Hw.
      destruct (update (mark_verified token) w1) as [r3 w3] eqn:E3. cbn [snd].
      apply update_db in E3 as [[_ ->]|[_ ->]]; [|reflexivity]. apply sd_verified; [done|by rewrite H2].
  - intros [= _ <-]. eapply (record_rows_does R Hsd); exact E1.
Qed.

Lemma record_body_does R `{!PreOrder R} (Hsd : statements_do R) token alert now :
  does R (record_body token alert now).
Proof.
  intros w r w'. unfold record_body, mthen at 1.
  destruct (wrap state.ErrQuery (query (select_operation token)) w) as [[op|e] w1] eqn:E1.
  2:{ intros [= _ <-]. eapply (does_wrap R); [|exact E1]. apply does_query, _. }
  apply wrap_Ok, query_db in E1 as [E1 Hsel]. specialize (Hsel op eq_refl). subst op. rewrite <- E1.
  destruct (select_operation token (sw_db w1)) as [[[[kind feedName] seconds] status]|] eqn:Es;
    [|by intros [= _ <-]].
  assert (forall row, db_operations (sw_db w1) !! token = Some row -> pw_status row = status) as Hst.
  { intros row Hrow. unfold select_operation in Es. rewrite Hrow in Es.
    destruct (db_feeds _ !! _); [|done]. by injection Es. }
  assert (is_unverified status = true ->
    (let scenario := "crowdshield/" +:+ feedName in
     let! _ := require (String.eqb (va_Scenario alert) scenario &&
                        negb (match va_Decisions alert with [] => true | _ => false end)) constraint in
     let! rows := wrap state.ErrQuery (query (fun d => (items_of token d, d))) in
     let! es := lift (scan_items rows.1 rows.2) in
     let! _ := require (List.length es =? List.length (va_Decisions alert))%nat constraint in
     let! _ := require (check_decisions scenario now seconds es ∅ ∅ (va_Decisions alert)) constraint in
     record_new token alert now es) w1 = (r, w') -> R (sw_db w1) (sw_db w')) as Hnew.
  { intros Hu. cbv zeta. unfold mthen, require. destruct (_ && _); cbn; [|by intros [= _ <-]].
    destruct (wrap state.ErrQuery _ w1) as [[rows|e] w2] eqn:E2.
    2:{ intros [= _ <-]. eapply (does_wrap R); [|exact E2]. apply does_query, _. }
    apply wrap_Ok, query_db in E2 as [E2 _]. unfold lift. destruct (scan_items _ _) as [es|]; cbn;
      [|intros [= _ <-]; by rewrite E2].
    destruct (_ =? _)%nat; cbn; [|intros [= _ <-]; by rewrite E2].
    destruct (check_decisions _ _ _ _ _ _ _); cbn; [|intros [= _ <-]; by rewrite E2].
    rewrite <- E2. intros H. eapply record_new_does; [apply _|done| |exact H].
    rewrite E2. intros row Hrow. by rewrite (Hst row Hrow). }
  destruct status; [by apply Hnew| | |by intros [= _ <-]|by apply Hnew].
  - intros H. eapply (does_then R); [| |exact H].
    + unfold queryOperationDecisions. apply does_wrap, does_query, _.
    + intros records. apply does_then; [apply _|apply does_require, _|intros _; apply does_mok, _].
  - intros H. eapply (does_then R); [| |exact H].
    + unfold queryOperationDecisions. apply does_wrap, does_query, _.
    + intros records. apply does_then; [apply _|apply does_require, _|intros _; apply does_mok, _].
Qed.

Lemma ListEnforcementObjects_does R `{!PreOrder R} : does R ListEnforcementObjects.
Proof. unfold ListEnforcementObjects. does_tac. Qed.

(** The prefixes handed in are values of the Go type. *)
Definition call_wf (c : call) : Prop :=
  match c with
  | CallApplyEnforcementPlan objects _ => List.Forall (fun o => prefix_wf (ob_Prefix o)) objects
  | _ => True
  end.

(** Every call is a sequence of the statements above. *)
Lemma exec_does R `{!PreOrder R} (Hsd : statements_do R) c : call_wf c -> does R (exec c).
Proof.
  intros Hwf.
  assert (forall A (m : Store A), does R m -> does R (void m)) as Hvoid.
  { intros A m Hm. unfold void. by does_tac. }
  destruct c; cbn [exec]; try apply Hvoid.
  - unfold ApplyEnforcementPlan. apply require_then; [apply _|intros _].
    apply require_then; [apply _|intros (Hv & _)%validate_plan_all].
    apply does_then; [apply _| |intros _; apply ListEnforcementObjects_does, _].
    apply does_tx; [apply _|]. by apply plan_does.
  - apply ListEnforcementObjects_does, _.
  - unfold BeginOperation. apply require_then; [apply _|intros Hv]. unfold begin_body, begin_item.
    does_tac; try (apply does_stmt; [apply _|intros d y d' H]).
    + unfold select_primary in H. destruct (db_objects d !! _); [|done]. injection H as _ <-. reflexivity.
    + destruct (oi_OldDecisionRowID _); does_tac. apply does_stmt; [apply _|]. intros d y d' H.
      unfold select_decision in H. destruct (db_decisions d !! _); [|done]. injection H as _ <-. reflexivity.
    + by eapply sd_operation.
    + by eapply sd_item.
  - unfold OpenOperations. does_tac.
  - unfold RecordVerifiedOperation. apply require_then; [apply _|intros _].
    apply does_tx; [apply _|by apply record_body_does].
  - unfold CompleteOperation. does_tac. apply does_stmt; [apply _|]. intros d y d'. by apply sd_complete.
  - unfold SetOperationStatus. apply require_then; [apply _|intros Hr]. to_prop. cbv zeta. does_tac.
    apply does_stmt; [apply _|]. intros d y d'. apply sd_status; [done| |].
    + destruct status; try done; auto.
    + destruct status; split; intros Hx; try done; try (by destruct Hx); by eexists.
  - unfold DecisionsForOperation, queryOperationDecisions. does_tac.
  - unfold ListActiveDecisions. does_tac.
  - unfold ListLiveDecisions. does_tac.
  - unfold DecisionByRowID. does_tac. destruct (_ : option DecisionRecord); does_tac.
  - unfold MarkDecisionExpired. does_tac. apply does_stmt; [apply _|]. intros d y d'. by apply sd_expired.
Qed.

Lemma history_does R `{!PreOrder R} (Hsd : statements_do R) cs w :
  List.Forall call_wf cs -> R (sw_db w) (sw_db (history cs w)).
Proof.
  intros Hwf. revert w. induction Hwf as [|c cs Hc Hwf IH]; intros w; cbn [history]; [reflexivity|].
  transitivity (sw_db (exec c w).2); [|apply IH]. by eapply exec_does, surjective_pairing.
Qed.

(** ** The life of an operation *)

Inductive op_step : OperationStatus -> OperationStatus -> Prop :=
| op_ambiguous : op_step OperationPending OperationAmbiguous
| op_failed s : is_unverified s = true -> op_step s OperationFailed
| op_verified s : is_unverified s = true -> op_step s OperationVerified
| op_completed : op_step OperationVerified OperationCompleted.

(** The part of a journal entry that never changes. *)
Definition op_payload (r : operation_row) : OperationKind * Z * Z * string * Z :=
  (pw_kind r, pw_feed r, pw_duration r, pw_hash r, pw_started r).

Definition ops_evolve (d d' : DB) : Prop :=
  (forall t r, db_operations d !! t = Some r -> exists r', db_operations d' !! t = Some r' /\
     rtc op_step (pw_status r) (pw_status r') /\ op_payload r' = op_payload r) /\
  (forall t r', db_operations d' !! t = Some r' -> db_operations d !! t = None ->
     rtc op_step OperationPending (pw_status r')).

#[export] Instance ops_evolve_preorder : PreOrder ops_evolve.
Proof.
  split.
  - intros d. split; [|by intros t r -> [=]]. intros t r H. exists r. split_and!; [done|apply rtc_refl|done].
  - intros a b c [H1 H1'] [H2 H2']. split.
    + intros t r (r' & Hr' & Hs & Hp)%H1. apply H2 in Hr' as (r'' & Hr'' & Hs' & Hp').
      exists r''. split_and!; [done|by etransitivity|congruence].
    + intros t r' Hr' Ha. destruct (db_operations b !! t) as [rb|] eqn:Eb; [|by eapply H2'].
      apply H1' in Eb as Hb; [|done]. apply H2 in Eb as (r'' & Hr'' & Hs & _).
      assert (r'' = r') as -> by congruence. by etransitivity.
Qed.

Lemma ops_evolve_same d d' : db_operations d' = db_operations d -> ops_evolve d d'.
Proof.
  intros E. split; rewrite E; [|by intros t r -> [=]].
  intros t r H. exists r. split_and!; [done|apply rtc_refl|done].
Qed.

Lemma ops_evolve_insert t r r' d :
  db_operations d !! t = Some r -> rtc op_step (pw_status r) (pw_status r') -> op_payload r' = op_payload r ->
  ops_evolve d (set_operations (<[t := r']> (db_operations d)) d).
Proof.
  intros Hr Hs Hp. split; cbn [db_operations set_operations].
  - intros t' x Hx. destruct (decide (t' = t)) as [->|Hne].
    + rewrite lookup_insert_eq. exists r'. assert (x = r) as -> by congruence. done.
    + rewrite lookup_insert_ne by done. exists x. split_and!; [done|apply rtc_refl|done].
  - intros t' x Hx Hn. destruct (decide (t' = t)) as [->|Hne]; [congruence|].
    rewrite lookup_insert_ne in Hx by done. congruence.
Qed.

Lemma ops_evolve_update t from f d a d' :
  (forall r, from (pw_status r) = true ->
     rtc op_step (pw_status r) (pw_status (f r)) /\ op_payload (f r) = op_payload r) ->
  update_operation t from f d = Ok (a, d') -> ops_evolve d d'.
Proof.
  intros Hf. unfold update_operation. destruct (db_operations d !! t) as [r|] eqn:E;
    [|intros [= _ <-]; reflexivity].
  destruct (from (pw_status r)) eqn:Ef; intros [= _ <-]; [|reflexivity].
  destruct (Hf r Ef) as [H1 H2]. by eapply ops_evolve_insert.
Qed.

Ltac same_table :=
  match goal with
  | H : _ = Ok (_, ?d') |- _ =>
      repeat match type of H with
      | context [match ?x with _ => _ end] => destruct x; try discriminate H
      end; injection H as _ <-; reflexivity
  end.

Lemma ops_evolve_statements : statements_do ops_evolve.
Proof.
  split.
  - intros now d. by apply ops_evolve_same.
  - intros o now d a d' _ _ H. apply ops_evolve_same. unfold upsert_object in H. same_table.
  - intros id d. by apply ops_evolve_same.
  - intros id c d a d' _ _ H. apply ops_evolve_same. unfold insert_source in H. same_table.
  - intros o d a d' _ H. unfold insert_operation in H.
    destruct (db_operations d !! op_Token o) eqn:E; [done|].
    destruct (db_feeds d !! op_FeedID o); [|done]. injection H as _ <-. split; cbn [db_operations set_operations].
    + intros t r Hr. rewrite lookup_insert_ne by congruence. exists r. split_and!; [done|apply rtc_refl|done].
    + intros t r' Hr' Hn. destruct (decide (t = op_Token o)) as [->|Hne].
      * rewrite lookup_insert_eq in Hr'. injection Hr' as <-. apply rtc_refl.
      * rewrite lookup_insert_ne in Hr' by done. congruence.
  - intros t i d a d' H. apply ops_evolve_same. unfold insert_item in H. same_table.
  - intros t al now d a d' H. apply ops_evolve_same. unfold insert_alert in H. same_table.
  - intros ar now vd d a d' H. apply ops_evolve_same. unfold insert_decision in H. same_table.
  - intros new old o d a d' H. apply ops_evolve_same. unfold replace_decision in H. same_table.
  - intros t d Hu. unfold mark_verified. destruct (db_operations d !! t) as [r|] eqn:E.
    + rewrite (alter_as_insert _ _ _ r) by done.
      eapply ops_evolve_insert; [done| |done]. apply rtc_once, op_verified, Hu. done.
    + rewrite alter_as_nothing by done. by apply ops_evolve_same.
  - intros t now d a d'. apply ops_evolve_update. intros r Hr. split; [|done].
    destruct (pw_status r); try done; try apply rtc_refl; apply rtc_once; constructor.
  - intros t s completed category d a d' Hs _. apply ops_evolve_update. intros r Hr. split; [|done]. cbn.
    destruct Hs as [->| ->]; [|by apply rtc_once, op_failed].
    destruct (pw_status r); try done; try apply rtc_refl; apply rtc_once; constructor.
  - intros row now d a d' H. apply ops_evolve_same. unfold mark_expired in H. same_table.
Qed.

(** ** The life of a decision *)

Inductive dec_step : DecisionStatus -> DecisionStatus -> Prop :=
| dec_replaced : dec_step DecisionActive DecisionExpiring
| dec_expired s : is_live s = true -> dec_step s DecisionExpired.

(** What a decision row says of the remote decision. *)
Definition dec_identity (r : decision_row) : Z * Z * Z * string * string * Scope * string * Z * Z :=
  (dw_object r, dw_alert_row r, dw_decision_id r, dw_origin r, dw_scenario r, dw_scope r, dw_value r,
   dw_created r, dw_expires r).

Definition decs_evolve (d d' : DB) : Prop :=
  (forall i r, db_decisions d !! i = Some r -> exists r', db_decisions d' !! i = Some r' /\
     rtc dec_step (dw_status r) (dw_status r') /\ dec_identity r' = dec_identity r) /\
  (forall i r', db_decisions d' !! i = Some r' -> db_decisions d !! i = None ->
     rtc dec_step DecisionActive (dw_status r')).

#[export] Instance decs_evolve_preorder : PreOrder decs_evolve.
Proof.
  split.
  - intros d. split; [|by intros t r -> [=]]. intros t r H. exists r. split_and!; [done|apply rtc_refl|done].
  - intros a b c [H1 H1'] [H2 H2']. split.
    + intros t r (r' & Hr' & Hs & Hp)%H1. apply H2 in Hr' as (r'' & Hr'' & Hs' & Hp').
      exists r''. split_and!; [done|by etransitivity|congruence].
    + intros t r' Hr' Ha. destruct (db_decisions b !! t) as [rb|] eqn:Eb; [|by eapply H2'].
      apply H1' in Eb as Hb; [|done]. apply H2 in Eb as (r'' & Hr'' & Hs & _).
      assert (r'' = r') as -> by congruence. by etransitivity.
Qed.

Lemma decs_evolve_same d d' : db_decisions d' = db_decisions d -> decs_evolve d d'.
Proof.
  intros E. split; rewrite E; [|by intros t r -> [=]].
  intros t r H. exists r. split_and!; [done|apply rtc_refl|done].
Qed.

Lemma decs_evolve_insert t r r' d :
  db_decisions d !! t = Some r -> rtc dec_step (dw_status r) (dw_status r') -> dec_identity r' = dec_identity r ->
  decs_evolve d (set_decisions (<[t := r']> (db_decisions d)) d).
Proof.
  intros Hr Hs Hp. split; cbn [db_decisions set_decisions].
  - intros t' x Hx. destruct (decide (t' = t)) as [->|Hne].
    + rewrite lookup_insert_eq. exists r'. assert (x = r) as -> by congruence. done.
    + rewrite lookup_insert_ne by done. exists x. split_and!; [done|apply rtc_refl|done].
  - intros t' x Hx Hn. destruct (decide (t' = t)) as [->|Hne]; [congruence|].
    rewrite lookup_insert_ne in Hx by done. congruence.
Qed.

Lemma decs_evolve_statements : statements_do decs_evolve.
Proof.
  split.
  - intros now d. by apply decs_evolve_same.
  - intros o now d a d' _ _ H. apply decs_evolve_same. unfold upsert_object in H. same_table.
  - intros id d. by apply decs_evolve_same.
  - intros id c d a d' _ _ H. apply decs_evolve_same. unfold insert_source in H. same_table.
  - intros o d a d' _ H. apply decs_evolve_same. unfold insert_operation in H. same_table.
  - intros t i d a d' H. apply decs_evolve_same. unfold insert_item in H. same_table.
  - intros t al now d a d' H. apply decs_evolve_same. unfold insert_alert in H. same_table.
  - intros ar now vd d a d' H. unfold insert_decision in H.
    destruct (db_objects d !! _); [|done]. destruct (db_alerts d !! _); [|done].
    case_bool_decide; [|done]. injection H as _ <-.
    pose proof (next_id_fresh (db_decisions d)) as Hf. split; cbn [db_decisions set_decisions].
    + intros i r Hr. rewrite lookup_insert_ne by congruence. exists r.
      split_and!; [done|apply rtc_refl|done].
    + intros i r' Hr' Hn. destruct (decide (i = next_id (db_decisions d))) as [->|Hne].
      * rewrite lookup_insert_eq in Hr'. injection Hr' as <-. apply rtc_refl.
      * rewrite lookup_insert_ne in Hr' by done. congruence.
  - intros new old o d a d' H. unfold replace_decision in H.
    destruct (db_decisions d !! old) as [r|] eqn:E; [|injection H as _ <-; reflexivity].
    destruct (_ && _) eqn:Ec; [|injection H as _ <-; reflexivity]. to_prop.
    destruct (db_decisions d !! new); [|done]. injection H as _ <-.
    eapply decs_evolve_insert; [done| |done]. cbn. rewrite H1. apply rtc_once, dec_replaced.
  - intros t d _. by apply decs_evolve_same.
  - intros t now d a d' H. apply decs_evolve_same. unfold update_operation in H. same_table.
  - intros t s completed category d a d' _ _ H. apply decs_evolve_same. unfold update_operation in H. same_table.
  - intros row now d a d' H. unfold mark_expired in H.
    destruct (db_decisions d !! row) as [r|] eqn:E; [|injection H as _ <-; reflexivity].
    destruct (is_live _) eqn:El; [|injection H as _ <-; reflexivity]. injection H as _ <-.
    eapply decs_evolve_insert; [done| |done]. by apply rtc_once, dec_expired.
Qed.

(** ** The invariant of the tables *)

(** A row of [enforcement_objects] is the text of a canonical safe prefix. *)
Definition object_ok (d : DB) (r : object_row) : Prop :=
  (exists p, canonical p /\ fst (IsSafePrefix p) = true /\ ow_prefix r = prefix_String p /\
     ow_family r = family_of p /\ ow_bits r = p_bits p /\
     (ow_scope r = ScopeIP -> p_bits p = BitLen (p_addr p))) /\
  (ow_desired r = true <-> ow_suppression r = ""%string) /\
  (ow_desired r = true -> is_Some (ow_primary r)) /\
  (forall f, ow_primary r = Some f -> is_Some (db_feeds d !! f)).

Definition operation_ok (d : DB) (t : string) (r : operation_row) : Prop :=
  match_token t = true /\ is_Some (db_feeds d !! pw_feed r) /\ 1 <= pw_duration r <= 604800 /\
  (pw_status r = OperationCompleted \/ pw_status r = OperationFailed <-> is_Some (pw_completed r)).

Definition decision_ok (d : DB) (r : decision_row) : Prop :=
  is_Some (db_objects d !! dw_object r) /\ is_Some (db_alerts d !! dw_alert_row r) /\
  (dw_status r = DecisionActive -> dw_replaced_by r = None) /\
  (forall n, dw_replaced_by r = Some n -> is_Some (db_decisions d !! n)).

Record db_ok (d : DB) : Prop := {
  ok_object : forall i r, db_objects d !! i = Some r -> object_ok d r;
  ok_object_unique : forall i j r s, db_objects d !! i = Some r -> db_objects d !! j = Some s ->
    ow_prefix r = ow_prefix s -> i = j;
  ok_source : forall o f k, (o, f, k) ∈ db_sources d ->
    is_Some (db_objects d !! o) /\ is_Some (db_feeds d !! f) /\ (k = 1 \/ k = 2);
  ok_operation : forall t r, db_operations d !! t = Some r -> operation_ok d t r;
  ok_item : forall t o old, db_items d !! (t, o) = Some old ->
    is_Some (db_operations d !! t) /\ is_Some (db_objects d !! o) /\
    (forall i, old = Some i -> is_Some (db_decisions d !! i));
  ok_alert_unique : forall i j r s, db_alerts d !! i = Some r -> db_alerts d !! j = Some s ->
    aw_alert_id r = aw_alert_id s \/ aw_token r = aw_token s -> i = j;
  ok_decision : forall i r, db_decisions d !! i = Some r -> decision_ok d r;
  ok_decision_unique : forall i j r s, db_decisions d !! i = Some r -> db_decisions d !! j = Some s ->
    dw_decision_id r = dw_decision_id s -> i = j }.

Lemma empty_db_ok : db_ok empty_db.
Proof. split; cbn; try done; intros; set_solver. Qed.

Lemma validateEnforcementObject_facts o :
  validateEnforcementObject o = true -> prefix_wf (ob_Prefix o) ->
  canonical (ob_Prefix o) /\ fst (IsSafePrefix (ob_Prefix o)) = true /\
  (ob_Scope o = ScopeIP -> p_bits (ob_Prefix o) = BitLen (p_addr (ob_Prefix o))) /\
  (ob_Desired o = true <-> ob_Suppression o = SuppressedNone).
Proof.
  unfold validateEnforcementObject. intros Hv Hwf. to_prop.
  match goal with H : Masked _ = _ |- _ => rewrite H in * end.
  split_and!; [by apply safe_canonical|done| |].
  - intros Es. rewrite Es in *. by apply Z.eqb_eq.
  - match goal with H : Bool.eqb _ _ = true |- _ => apply Bool.eqb_prop in H; rewrite H end.
    apply bool_decide_eq_true.
Qed.

(** Inserting or changing a row keeps what exists. *)
Lemma is_Some_insert `{Countable K} {V} (m : gmap K V) k v i :
  is_Some (m !! i) -> is_Some (<[k := v]> m !! i).
Proof. intros Hi. apply lookup_insert_is_Some'. by right. Qed.

#[export] Hint Resolve is_Some_insert : go.

Lemma suppression_text_empty s : suppression_text s = ""%string <-> s = SuppressedNone.
Proof. by destruct s. Qed.

Lemma db_ok_upsert o now d a d' :
  validateEnforcementObject o = true -> prefix_wf (ob_Prefix o) ->
  upsert_object o now d = Ok (a, d') -> keeps db_ok d d'.
Proof.
  intros Hv Hwf H Hok. unfold upsert_object in H.
  destruct (db_feeds d !! ct_FeedID (ob_Primary o)) as [f|] eqn:Ef; [|done].
  destruct (validateEnforcementObject_facts o Hv Hwf) as (Hcan & Hsafe & Hsc & Hdes).
  assert (forall c, object_ok d (object_row_of o c now)) as Hrow.
  { intros c. split_and!; cbn.
    - by exists (ob_Prefix o).
    - by rewrite suppression_text_empty.
    - by eexists.
    - intros f' [= <-]. by rewrite Ef. }
  assert (exists id row, d' = set_objects (<[id := row]> (db_objects d)) d /\ object_ok d row /\
    (forall j s, db_objects d !! j = Some s -> ow_prefix s = ow_prefix row -> j = id))
    as (id & row & -> & Hr & Hu).
  { destruct (object_by_prefix _ d) as [id|] eqn:Eid; injection H as _ <-; eexists _, _; (split; [done|]);
      (split; [apply Hrow|]); cbn; intros j s Hj Hs.
    - apply find_row_Some in Eid as (v & Hv' & Ep). apply String.eqb_eq in Ep.
      eapply (ok_object_unique d Hok); [exact Hj|exact Hv'|congruence].
    - apply (find_row_None _ _ Eid j s) in Hj. rewrite Hs in Hj. by rewrite String.eqb_refl in Hj. }
  destruct Hok as [H1 H2 H3 H4 H5 H6 H7 H8]. split; cbn; try done.
  - intros i r Hi. apply lookup_insert_Some in Hi as [[<- <-]|[_ Hi]]; [exact Hr|exact (H1 i r Hi)].
  - intros i j r s Hi Hj E. apply lookup_insert_Some in Hi as [[<- <-]|[Hni Hi]];
      apply lookup_insert_Some in Hj as [[<- <-]|[Hnj Hj]]; [done| | |by eapply H2].
    + symmetry. by apply (Hu j s).
    + by apply (Hu i r).
  - intros o' f' k Hk. destruct (H3 o' f' k Hk) as (? & ? & ?). auto with go.
  - intros t o' old Ho. destruct (H5 t o' old Ho) as (? & ? & ?). auto with go.
  - intros i r Hi. destruct (H7 i r Hi) as (? & ? & ? & ?). split_and!; cbn; auto with go.
Qed.

Lemma db_ok_decision_update d i r r' :
  db_ok d -> db_decisions d !! i = Some r -> dec_identity r' = dec_identity r ->
  (dw_status r' = DecisionActive -> dw_replaced_by r' = None) ->
  (forall n, dw_replaced_by r' = Some n -> is_Some (db_decisions d !! n)) ->
  db_ok (set_decisions (<[i := r']> (db_decisions d)) d).
Proof.
  intros [H1 H2 H3 H4 H5 H6 H7 H8] Hi Hid Ha Hr. injection Hid as E1 E2 E3 E4 E5 E6 E7 E8 E9.
  split; cbn; try done.
  - intros t o old Ho. destruct (H5 t o old Ho) as (? & ? & ?). split_and!; auto with go.
  - intros j s Hj. apply lookup_insert_Some in Hj as [[<- <-]|[_ Hj]].
    + destruct (H7 i r Hi) as (? & ? & ? & ?). rewrite <- E1, <- E2 in *. split_and!; cbn; auto with go.
    + destruct (H7 j s Hj) as (? & ? & ? & ?). split_and!; cbn; auto with go.
  - intros a b s t Hsa Hsb E. apply lookup_insert_Some in Hsa as [[<- <-]|[Hna Hsa]];
      apply lookup_insert_Some in Hsb as [[<- <-]|[Hnb Hsb]]; [done| | |by eapply H8].
    + eapply H8; [exact Hi|exact Hsb|congruence].
    + eapply H8; [exact Hsa|exact Hi|congruence].
Qed.

Lemma db_ok_operation_update d t r r' :
  db_ok d -> db_operations d !! t = Some r -> op_payload r' = op_payload r ->
  (pw_status r' = OperationCompleted \/ pw_status r' = OperationFailed <-> is_Some (pw_completed r')) ->
  db_ok (set_operations (<[t := r']> (db_operations d)) d).
Proof.
  intros [H1 H2 H3 H4 H5 H6 H7 H8] Ht Hp Hc. injection Hp as E1 E2 E3 E4 E5. split; cbn; try done.
  - intros t' s Hs. apply lookup_insert_Some in Hs as [[<- <-]|[_ Hs]]; [|exact (H4 t' s Hs)].
    destruct (H4 t r Ht) as (? & ? & ? & ?). rewrite <- E2, <- E3 in *. done.
  - intros t' o old Ho. destruct (H5 t' o old Ho) as (? & ? & ?). split_and!; auto with go.
Qed.

Lemma validOperation_facts o :
  validOperation o = true ->
  match_token (op_Token o) = true /\ 1 <= op_Duration o / Second <= 604800.
Proof.
  unfold validOperation. intros H. to_prop. split; [done|]. unfold Second, Hour, Minute, Second in *. split.
  - apply Z.div_le_lower_bound; lia.
  - apply Z.div_le_upper_bound; lia.
Qed.

Lemma db_ok_statements : statements_do (keeps db_ok).
Proof.
  split.
  - intros now d [H1 H2 H3 H4 H5 H6 H7 H8].
    assert (forall i, is_Some (db_objects d !! i) -> is_Some ((stale_row now <$> db_objects d) !! i)) as HS.
    { intros i Hi. rewrite lookup_fmap. by apply fmap_is_Some. }
    split; cbn; try done.
    + intros i r Hi. rewrite lookup_fmap in Hi. apply fmap_Some in Hi as (r0 & Hr0 & ->).
      destruct (H1 i r0 Hr0) as (Hp & _ & _ & _). split_and!; cbn; try done.
    + intros i j r s Hi Hj E. rewrite lookup_fmap in Hi, Hj.
      apply fmap_Some in Hi as (r0 & Hr0 & ->). apply fmap_Some in Hj as (s0 & Hs0 & ->). by eapply H2.
    + intros o f k Hk. destruct (H3 o f k Hk) as (? & ? & ?). auto.
    + intros t o old Ho. destruct (H5 t o old Ho) as (? & ? & ?). auto.
    + intros i r Hi. destruct (H7 i r Hi) as (? & ? & ? & ?). split_and!; cbn; auto.
  - intros o now d a d' Hv Hwf. by apply db_ok_upsert.
  - intros id d [H1 H2 H3 H4 H5 H6 H7 H8]. split; cbn; try done.
    intros o f k [_ Hk]%elem_of_filter. by apply H3.
  - intros id c d a d' Hc Hid H Hok. unfold insert_source in H.
    destruct (db_feeds d !! ct_FeedID c) as [f|] eqn:Ef; [|done]. case_bool_decide; [done|].
    injection H as _ <-. destruct Hok as [H1 H2 H3 H4 H5 H6 H7 H8]. split; cbn; try done.
    intros o f' k [Hk|Hk]%elem_of_union; [|by apply H3]. apply elem_of_singleton in Hk. injection Hk as -> -> ->.
    split_and!; [done|by rewrite Ef|]. unfold valid_source in Hc. destruct (ct_Kind c); cbn; auto.
    by rewrite !andb_false_r in Hc.
  - intros o d a d' Hv H Hok. unfold insert_operation in H.
    destruct (db_operations d !! _); [done|]. destruct (db_feeds d !! op_FeedID o) as [frow|] eqn:Ef; [|done].
    injection H as _ <-. apply validOperation_facts in Hv as [Ht Hdur].
    destruct Hok as [H1 H2 H3 H4 H5 H6 H7 H8]. split; cbn; try done.
    + intros t r Hr. apply lookup_insert_Some in Hr as [[<- <-]|[_ Hr]]; [|exact (H4 t r Hr)].
      split_and!; cbn; [done|by rewrite Ef|lia..|]. split; [by intros [|]|by intros []].
    + intros t o' old Ho. destruct (H5 t o' old Ho) as (? & ? & ?). auto with go.
  - intros t i d a d' H Hok. unfold insert_item in H.
    destruct (db_items d !! _); [done|]. destruct (db_operations d !! t) as [trow|] eqn:Et; [|done].
    destruct (db_objects d !! oi_ObjectID i) as [orow|] eqn:Eo; [|done].
    assert (exists old, (forall x, old = Some x -> is_Some (db_decisions d !! x)) /\
      d' = set_items (<[(t, oi_ObjectID i) := old]> (db_items d)) d) as (old & Hold & ->).
    { destruct (oi_OldDecisionRowID i) as [x|].
      - destruct (db_decisions d !! x) as [xrow|] eqn:Ex; [|done]. injection H as _ <-. exists (Some x).
        split; [|done]. intros y [= <-]. by rewrite Ex.
      - injection H as _ <-. by exists None. }
    destruct Hok as [H1 H2 H3 H4 H5 H6 H7 H8]. split; cbn; try done.
    intros t' o' old' Ho. apply lookup_insert_Some in Ho as [[[= <- <-] <-]|[_ Ho]]; [|by apply H5].
    by rewrite Et, Eo.
  - intros t al now d a d' H Hok. unfold insert_alert in H.
    case_bool_decide as Hu; [|done]. injection H as _ <-.
    pose proof (next_id_fresh (db_alerts d)) as Hf.
    destruct Hok as [H1 H2 H3 H4 H5 H6 H7 H8]. split; cbn; try done.
    + intros i j r s Hi Hj E. apply lookup_insert_Some in Hi as [[<- <-]|[Hni Hi]];
        apply lookup_insert_Some in Hj as [[<- <-]|[Hnj Hj]]; [done| | |by eapply H6]; cbn in E.
      * apply Hu in Hj. naive_solver.
      * apply Hu in Hi. naive_solver.
    + intros i r Hi. destruct (H7 i r Hi) as (? & ? & ? & ?). split_and!; cbn; auto with go.
  - intros ar now vd d a d' H Hok. unfold insert_decision in H.
    destruct (db_objects d !! vd_ObjectID vd) as [orow|] eqn:Eo; [|done].
    destruct (db_alerts d !! ar) as [arow|] eqn:Ea; [|done]. case_bool_decide as Hu; [|done]. injection H as _ <-.
    destruct Hok as [H1 H2 H3 H4 H5 H6 H7 H8]. split; cbn; try done.
    + intros t o old Ho. destruct (H5 t o old Ho) as (? & ? & ?). split_and!; auto with go.
    + intros i r Hi. apply lookup_insert_Some in Hi as [[<- <-]|[_ Hi]].
      * split_and!; cbn; [by rewrite Eo|by rewrite Ea|done|done].
      * destruct (H7 i r Hi) as (? & ? & ? & ?). split_and!; cbn; auto with go.
    + intros i j r s Hi Hj E. apply lookup_insert_Some in Hi as [[<- <-]|[Hni Hi]];
        apply lookup_insert_Some in Hj as [[<- <-]|[Hnj Hj]]; [done| | |by eapply H8]; cbn in E.
      * apply Hu in Hj. congruence.
      * apply Hu in Hi. congruence.
  - intros new old o d a d' H Hok. unfold replace_decision in H.
    destruct (db_decisions d !! old) as [r|] eqn:E; [|by injection H as _ <-].
    destruct (_ && _) eqn:Ec; [|by injection H as _ <-]. destruct (db_decisions d !! new) as [nrow|] eqn:En; [|done].
    injection H as _ <-. eapply db_ok_decision_update; [done|done|done|done|].
    intros n [= <-]. by rewrite En.
  - intros t d Hu Hok. unfold mark_verified. destruct (db_operations d !! t) as [r|] eqn:E.
    + rewrite (alter_as_insert _ _ _ r) by done. eapply db_ok_operation_update; [done|done|done|]. cbn.
      destruct (ok_operation d Hok t r E) as (_ & _ & _ & Hc). rewrite <- Hc. specialize (Hu r eq_refl).
      split; [by intros [|]|]. intros [E2|E2]; by rewrite E2 in Hu.
    + rewrite alter_as_nothing by done. by destruct d.
  - intros t now d a d' H Hok. unfold update_operation in H.
    destruct (db_operations d !! t) as [r|] eqn:E; [|by injection H as _ <-].
    destruct (is_done _); injection H as _ <-; [|done].
    eapply db_ok_operation_update; [done|done|done|]. cbn. split; [by eexists|auto].
  - intros t s completed category d a d' Hs Hcomp H Hok. unfold update_operation in H.
    destruct (db_operations d !! t) as [r|] eqn:E; [|by injection H as _ <-].
    destruct (is_unverified _); injection H as _ <-; [|done].
    eapply db_ok_operation_update; [done|done|done|]. cbn. rewrite Hcomp.
    destruct Hs as [->| ->]; naive_solver.
  - intros row now d a d' H Hok. unfold mark_expired in H.
    destruct (db_decisions d !! row) as [r|] eqn:E; [|by injection H as _ <-].
    destruct (is_live _); injection H as _ <-; [|done].
    eapply db_ok_decision_update; [done|done|done|done|]. cbn. by apply (ok_decision d Hok row r E).
Qed.
