(* ===== verification/StatePlan.v ===== *)
(** * What the enforcement repository achieves

    The functional correctness of [ApplyEnforcementPlan],
    [RecordVerifiedOperation] and the journal, on top of the statements and
    invariants of [StateEnforce]. *)

From S2P Require Export StateEnforce.

(** ** The plan *)

Lemma insert_source_Ok id c d a d' :
  insert_source id c d = Ok (a, d') ->
  d' = set_sources ({[(id, ct_FeedID c, kind_value (ct_Kind c))]} ∪ db_sources d) d.
Proof.
  unfold insert_source. destruct (db_feeds d !! _); [|done]. case_bool_decide; [done|]. by intros [= _ <-].
Qed.

Lemma set_sources_twice s t d : set_sources s (set_sources t d) = set_sources s d.
Proof. done. Qed.

Lemma insert_sources_Ok id cs w u w' :
  mfor (fun c => wrap state.ErrQuery (stmt (insert_source id c))) cs w = (Ok u, w') ->
  exists S, sw_db w' = set_sources S (sw_db w) /\
    forall k, k ∈ S <-> k ∈ db_sources (sw_db w) \/
      exists c, In c cs /\ k = (id, ct_FeedID c, kind_value (ct_Kind c)).
Proof.
  revert w. induction cs as [|c cs IH]; intros w H; cbn [mfor] in H.
  - injection H as _ <-. exists (db_sources (sw_db w)). split; [by destruct (sw_db w)|].
    intros k. cbn. naive_solver.
  - apply mthen_ok in H as (u1 & w1 & H1 & H). apply wrap_Ok, stmt_db in H1 as [(? & ? & _)|(? & _ & H1)]; [done|].
    apply insert_source_Ok in H1. apply IH in H as (S & -> & HS). rewrite H1.
    exists S. split; [done|]. intros k. rewrite HS, H1. cbn.
    rewrite elem_of_union, elem_of_singleton. naive_solver.
Qed.

(** The row of an object after its upsert: the one with its prefix, or a new
    one. *)
Definition plan_target (o : Object) (d : DB) (id : Z) : Prop :=
  (forall j s, db_objects d !! j = Some s -> ow_prefix s = prefix_String (ob_Prefix o) -> j = id) /\
  (forall r, db_objects d !! id = Some r -> ow_prefix r = prefix_String (ob_Prefix o)).

Lemma upsert_object_Ok o now d a d' :
  db_ok d -> upsert_object o now d = Ok (a, d') ->
  exists id created, plan_target o d id /\
    d' = set_objects (<[id := object_row_of o created now]> (db_objects d)) d /\
    object_by_prefix (prefix_String (ob_Prefix o)) d' = Some id.
Proof.
  intros Hok H. unfold upsert_object in H. destruct (db_feeds d !! _); [|done].
  assert (forall id created, plan_target o d id ->
    object_by_prefix (prefix_String (ob_Prefix o))
      (set_objects (<[id := object_row_of o created now]> (db_objects d)) d) = Some id) as Hfind.
  { intros id created [Hu _]. unfold object_by_prefix. cbn.
    eapply find_row_unique; [apply lookup_insert_eq|cbn; apply String.eqb_refl|].
    intros k s Hk Hs. apply String.eqb_eq in Hs.
    apply lookup_insert_Some in Hk as [[<- _]|[_ Hk]]; [done|by eapply Hu]. }
  destruct (object_by_prefix _ d) as [id|] eqn:Eid; injection H as _ <-.
  - apply find_row_Some in Eid as (v & Hv & Ep). apply String.eqb_eq in Ep.
    assert (plan_target o d id) as Ht.
    { split; [|intros r Hr; congruence]. intros j s Hj Hs.
      eapply (ok_object_unique d Hok); [exact Hj|exact Hv|congruence]. }
    eexists id, _. split_and!; [exact Ht|done|by apply Hfind].
  - assert (plan_target o d (next_id (db_objects d))) as Ht.
    { split.
      - intros j s Hj Hs. apply (find_row_None _ _ Eid j s) in Hj. rewrite Hs, String.eqb_refl in Hj. done.
      - intros r Hr. by rewrite next_id_fresh in Hr. }
    eexists _, _. split_and!; [exact Ht|done|by apply Hfind].
Qed.

Lemma apply_object_Ok now o w u w' :
  db_ok (sw_db w) -> apply_object now o w = (Ok u, w') ->
  exists id created S, plan_target o (sw_db w) id /\
    sw_db w' = set_sources S (set_objects (<[id := object_row_of o created now]> (db_objects (sw_db w))) (sw_db w)) /\
    forall x f k, (x, f, k) ∈ S <->
      if decide (x = id) then exists c, In c (ob_Contributors o) /\ f = ct_FeedID c /\ k = kind_value (ct_Kind c)
      else (x, f, k) ∈ db_sources (sw_db w).
Proof.
  intros Hok H. unfold apply_object in H. apply mthen_ok in H as (u1 & w1 & H1 & H).
  apply wrap_Ok, stmt_db in H1 as [(? & ? & _)|(? & _ & H1)]; [done|].
  apply upsert_object_Ok in H1 as (id & created & Ht & H1 & Hfind); [|done].
  apply mthen_ok in H as (id' & w2 & H2 & H).
  apply wrap_Ok, stmt_db in H2 as [(? & ? & _)|(? & [= <-] & H2)]; [done|].
  unfold select_object in H2. rewrite Hfind in H2. injection H2 as <- H2.
  apply mthen_ok in H as (u3 & w3 & H3 & H).
  apply wrap_Ok, update_db in H3 as [[_ H3]|[[? ?] _]]; [|done].
  apply insert_sources_Ok in H as (S & H & HS). exists id, created, S. split; [done|].
  assert (sw_db w3 = delete_sources id (sw_db w1)) as Hw3 by congruence. rewrite Hw3 in *.
  split; [rewrite H; unfold delete_sources; by rewrite set_sources_twice, H1|].
  intros x' f k. rewrite HS. unfold delete_sources. cbn [db_sources set_sources].
  rewrite elem_of_filter, H1. cbn. case_decide as Hx; split.
  - intros [[? _]|(c & Hc & [= -> -> ->])]; [done|eauto].
  - intros (c & Hc & -> & ->). right. exists c. by subst.
  - intros [[_ Hin]|(c & Hc & [= -> _ _])]; done.
  - intros Hin. left. split; done.
Qed.

(** The tables that a plan does not touch. *)
Definition other_tables (d : DB) :=
  (db_feeds d, db_entries d, db_alerts d, db_decisions d, db_operations d, db_items d,
   (db_runs d, db_results d, db_runtime d, db_delivery d)).

(** The row [id] carries the object [o] of the plan, with its sources. *)
Definition carries (now : Z) (d : DB) (id : Z) (o : Object) : Prop :=
  (exists created, db_objects d !! id = Some (object_row_of o created now)) /\
  forall f k, (id, f, k) ∈ db_sources d <->
    exists c, In c (ob_Contributors o) /\ f = ct_FeedID c /\ k = kind_value (ct_Kind c).

(** The state of the loop over the plan, when [done] has been applied: rows
    of these objects carry them, the other rows are those of the initial
    database, marked stale, with their sources. *)
Record plan_inv (now : Z) (d0 : DB) (don : list Object) (d : DB) : Prop := {
  pi_other : other_tables d = other_tables d0;
  pi_done : forall o, In o don -> exists id, carries now d id o;
  pi_rows : forall id r, db_objects d !! id = Some r ->
    (exists o, In o don /\ carries now d id o) \/
    ((forall o, In o don -> ow_prefix r <> prefix_String (ob_Prefix o)) /\
     (exists r0, db_objects d0 !! id = Some r0 /\ r = stale_row now r0) /\
     (forall f k, (id, f, k) ∈ db_sources d <-> (id, f, k) ∈ db_sources d0));
  pi_ids : forall id r0, db_objects d0 !! id = Some r0 ->
    exists r, db_objects d !! id = Some r /\ ow_prefix r = ow_prefix r0 }.

Lemma carries_other now d id o id' row S :
  id <> id' ->
  (forall f k, (id, f, k) ∈ S <-> (id, f, k) ∈ db_sources d) ->
  carries now d id o -> carries now (set_sources S (set_objects (<[id' := row]> (db_objects d)) d)) id o.
Proof.
  intros Hne HS [[c Hc] Hsrc]. split; cbn.
  - exists c. by rewrite lookup_insert_ne.
  - intros f k. by rewrite HS.
Qed.

Lemma plan_inv_step now d0 don d o id created S :
  db_ok d -> plan_inv now d0 don d -> plan_target o d id -> ~ In (ob_Prefix o) (map ob_Prefix don) ->
  canonical (ob_Prefix o) -> List.Forall (fun o => canonical (ob_Prefix o)) don ->
  (forall x f k, (x, f, k) ∈ S <->
      if decide (x = id) then exists c, In c (ob_Contributors o) /\ f = ct_FeedID c /\ k = kind_value (ct_Kind c)
      else (x, f, k) ∈ db_sources d) ->
  plan_inv now d0 (don ++ [o])
    (set_sources S (set_objects (<[id := object_row_of o created now]> (db_objects d)) d)).
Proof.
  intros Hok [Ho Hd Hr Hi] [Hu Hp] Hnew Hcan Hcans HS.
  set (d' := set_sources S _).
  assert (carries now d' id o) as Hcarry.
  { split; cbn.
    - exists created. apply lookup_insert_eq.
    - intros f k. rewrite HS. by rewrite decide_True. }
  assert (forall x, x <> id -> forall f k, (x, f, k) ∈ S <-> (x, f, k) ∈ db_sources d) as HS'
    by (intros x Hx f k; rewrite HS; by rewrite decide_False).
  assert (forall x o', In o' don -> carries now d x o' -> x <> id) as Hdiff.
  { intros x o' Hin [[c Hc] _] ->. apply Hp in Hc. cbn in Hc.
    rewrite List.Forall_forall in Hcans. apply prefix_String_inj in Hc; [|by apply Hcans|done].
    apply Hnew. rewrite <- Hc. by apply in_map. }
  split.
  - rewrite <- Ho. done.
  - intros o' [Hin|[<-|[]]]%in_app_or; [|eauto].
    destruct (Hd o' Hin) as (x & Hx). exists x.
    assert (x <> id) by by eapply Hdiff. apply carries_other; auto.
  - intros x r Hx. cbn in Hx. apply lookup_insert_Some in Hx as [[<- <-]|[Hne Hx]].
    + left. exists o. split; [apply in_or_app; cbn; auto|done].
    + destruct (Hr x r Hx) as [(o' & Hin & Hc)|(Hno & Hold & Hsrc)].
      * left. exists o'. split; [apply in_or_app; auto|]. apply carries_other; auto.
      * right. split_and!; [|done|].
        -- intros o' [Hin|[<-|[]]]%in_app_or; [by apply Hno|]. intros E. by apply Hne, eq_sym, (Hu x r).
        -- intros f k. cbn. rewrite HS' by done. apply Hsrc.
  - intros x r0 Hx. destruct (Hi x r0 Hx) as (r & Hr' & E). cbn.
    destruct (decide (x = id)) as [->|Hne].
    + rewrite lookup_insert_eq. eexists. split; [done|]. cbn. apply Hp in Hr'. congruence.
    + rewrite lookup_insert_ne by done. eauto.
Qed.

Lemma apply_objects_inv now d0 todo don w u w' :
  db_ok (sw_db w) -> plan_inv now d0 don (sw_db w) ->
  List.Forall (fun o => validateEnforcementObject o = true) (don ++ todo) ->
  List.Forall (fun o => prefix_wf (ob_Prefix o)) (don ++ todo) ->
  NoDup (map ob_Prefix (don ++ todo)) ->
  mfor (apply_object now) todo w = (Ok u, w') -> plan_inv now d0 (don ++ todo) (sw_db w').
Proof.
  revert don w. induction todo as [|o todo IH]; intros don w Hok Hinv Hv Hwf Hnd H; cbn [mfor] in H.
  - injection H as _ <-. by rewrite app_nil_r.
  - apply mthen_ok in H as (u1 & w1 & H1 & H).
    assert (validateEnforcementObject o = true /\ prefix_wf (ob_Prefix o)) as [Hvo Hwfo].
    { rewrite List.Forall_forall in Hv, Hwf. split; [apply Hv|apply Hwf]; apply in_or_app; cbn; auto. }
    assert (db_ok (sw_db w1)) as Hok1.
    { eapply (apply_object_does (keeps db_ok) db_ok_statements now o Hvo Hwfo); [exact H1|done]. }
    assert (forall o', In o' (don ++ o :: todo) -> canonical (ob_Prefix o')) as Hcans.
    { intros o' Hin. rewrite List.Forall_forall in Hv, Hwf.
      by apply (validateEnforcementObject_facts o' (Hv o' Hin) (Hwf o' Hin)). }
    apply apply_object_Ok in H1 as (id & created & S & Ht & E & HS); [|done].
    replace (don ++ o :: todo) with ((don ++ [o]) ++ todo) in * by by rewrite <- app_assoc.
    eapply IH; [done| |done|done|done|exact H]. rewrite E.
    eapply plan_inv_step; [done|done|done| | | |done].
    + rewrite !map_app in Hnd. apply list.NoDup_app in Hnd as [Hnd _].
      apply list.NoDup_app in Hnd as (_ & Hnd & _). intros Hin. apply list_elem_of_In in Hin.
      apply (Hnd _ Hin). by left.
    + apply Hcans. apply in_or_app. left. apply in_or_app. cbn. auto.
    + apply List.Forall_forall. intros o' Hin. apply Hcans. apply in_or_app. left. apply in_or_app. auto.
Qed.

Lemma plan_inv_start now d : plan_inv now d [] (mark_stale now d).
Proof.
  split; cbn; try done.
  - intros id r Hr. rewrite lookup_fmap in Hr. apply fmap_Some in Hr as (r0 & Hr0 & ->).
    right. split_and!; [done|eauto|done].
  - intros id r0 Hr. rewrite lookup_fmap, Hr. by eexists.
Qed.

Lemma apply_plan_Ok objects now w u w' :
  db_ok (sw_db w) -> validate_plan ∅ objects = true ->
  List.Forall (fun o => prefix_wf (ob_Prefix o)) objects ->
  apply_plan objects now w = (Ok u, w') -> plan_inv now (sw_db w) objects (sw_db w').
Proof.
  intros Hok (Hv & Hnd & _)%validate_plan_all Hwf H. unfold apply_plan in H.
  apply mthen_ok in H as (u1 & w1 & H1 & H). apply wrap_Ok, update_db in H1 as [[_ H1]|[[? ?] _]]; [|done].
  eapply (apply_objects_inv now (sw_db w) objects []); [| |exact Hv|exact Hwf|exact Hnd|exact H]; rewrite H1.
  - apply (sd_stale _ db_ok_statements now (sw_db w) Hok).
  - apply plan_inv_start.
Qed.

(** ** The listing *)

Lemma query_list_ok {A B} (read : A -> Store B) (combine : list B -> A -> B -> list B) acc xs w r w' :
  mfold (fun acc x => let! y := read x in mok (combine acc x y)) acc xs w = (r, w') ->
  (forall x w r w', read x w = (r, w') -> sw_db w' = sw_db w) -> sw_db w' = sw_db w.
Proof.
  intros H Hr. revert acc w H. induction xs as [|x xs IH]; intros acc w H; cbn [mfold] in H.
  - by injection H as _ <-.
  - unfold mthen at 1 2 in H. destruct (read x w) as [[y|e] w1] eqn:E.
    + cbn in H. apply IH in H. rewrite H. by eapply Hr.
    + injection H as _ <-. by eapply Hr.
Qed.

Lemma scan_object_ok d id r :
  object_ok d r -> exists p, canonical p /\ ow_prefix r = prefix_String p /\
    scan_object (id, r) = Ok (MkEnforcementRecord id p (ow_scope r) (ow_desired r) (ow_suppression r) (ow_primary r) []).
Proof.
  intros ((p & Hc & _ & Ep & Ef & Eb & _) & _). exists p. split_and!; [done|done|].
  unfold scan_object. rewrite Ep, canonical_round_trip by done. rewrite Eb, Z.eqb_refl, Ef.
  unfold family_of. by destruct (Is4 (p_addr p)).
Qed.

(** A loop that reads one thing per element. *)
Lemma mfold_reads {A B} (body : list B -> A -> Store (list B)) (P : DB -> A -> B -> Prop) xs acc w ys w' :
  (forall acc x w y w', body acc x w = (Ok y, w') ->
     sw_db w' = sw_db w /\ exists z, y = acc ++ [z] /\ P (sw_db w) x z) ->
  mfold body acc xs w = (Ok ys, w') ->
  sw_db w' = sw_db w /\ exists zs, ys = acc ++ zs /\ Forall2 (P (sw_db w)) xs zs.
Proof.
  intros Hb. revert acc w. induction xs as [|x xs IH]; intros acc w H; cbn [mfold] in H.
  - injection H as <- <-. split; [done|]. exists []. split; [by rewrite app_nil_r|constructor].
  - apply mthen_ok in H as (acc' & w1 & H1 & H). apply Hb in H1 as (E1 & z & -> & Hz).
    apply IH in H as (E & zs & -> & Hzs). split; [congruence|]. exists (z :: zs).
    split; [by rewrite <- app_assoc|]. constructor; [done|]. by rewrite <- E1.
Qed.

(** A record of the listing shows its row and its sources. *)
Record shows (d : DB) (kr : Z * object_row) (rec : EnforcementRecord) : Prop := {
  sh_id : er_ID rec = kr.1;
  sh_prefix : ow_prefix kr.2 = prefix_String (er_Prefix rec) /\ canonical (er_Prefix rec);
  sh_fields : er_Scope rec = ow_scope kr.2 /\ er_Desired rec = ow_desired kr.2 /\
    er_Suppression rec = ow_suppression kr.2 /\ er_PrimaryFeedID rec = ow_primary kr.2;
  sh_sources : forall c, In c (er_Sources rec) <->
    exists f, (kr.1, ct_FeedID c, kind_value (ct_Kind c)) ∈ db_sources d /\ ct_Kind c <> KindInvalid /\
      db_feeds d !! ct_FeedID c = Some f /\ ct_FeedName c = fr_name f /\ ct_FeedOrder c = 0 }.

Lemma scan_sources_Ok rows cs :
  scan_sources rows = Ok cs ->
  forall c, In c cs <-> In (ct_FeedID c, ct_FeedName c, kind_value (ct_Kind c)) rows /\
    ct_Kind c <> KindInvalid /\ ct_FeedOrder c = 0.
Proof.
  revert cs. induction rows as [|[[feed name] kind] rows IH]; intros cs H; cbn in H.
  - injection H as <-. intros c. cbn. tauto.
  - unfold checkedNetworkKind in H.
    assert (exists k cs', kind_value k = kind /\ k <> KindInvalid /\ scan_sources rows = Ok cs' /\
      cs = MkContributor feed name 0 k :: cs') as (k & cs' & <- & Hk & Hcs' & ->).
    { destruct (Z.eqb_spec kind 1) as [->|]; [|destruct (Z.eqb_spec kind 2) as [->|]; [|done]];
        cbn in H; destruct (scan_sources rows) as [cs'|]; try done; injection H as <-;
        [exists KindIP|exists KindRange]; by exists cs'. }
    intros c. cbn [In]. rewrite (IH cs' Hcs' c). split.
    + intros [<-|(? & ? & ?)]; cbn; auto.
    + intros ([E|?] & ? & ?); [left|by right]. injection E as -> -> E%kind_value_inj.
      destruct c; cbn in *; congruence.
Qed.

Lemma elem_of_sources_of id d f name k :
  In (f, name, k) (sources_of id d) <->
  exists row, (id, f, k) ∈ db_sources d /\ db_feeds d !! f = Some row /\ name = fr_name row.
Proof.
  unfold sources_of. rewrite <- list_elem_of_In, elem_of_sort_func, list_elem_of_omap. split.
  - intros ([[x f'] k'] & Hin & E). apply elem_of_elements in Hin. cbn in E.
    destruct (Z.eqb_spec x id) as [->|]; [|done].
    destruct (db_feeds d !! f') as [row|] eqn:Ef; [|done]. injection E as -> <- ->. eauto.
  - intros (row & Hin & Hf & ->). exists (id, f, k). split; [by apply elem_of_elements|]. cbn.
    by rewrite Z.eqb_refl, Hf.
Qed.

Lemma ListEnforcementObjects_Ok w records w' :
  db_ok (sw_db w) -> ListEnforcementObjects w = (Ok records, w') ->
  sw_db w' = sw_db w /\ Forall2 (shows (sw_db w)) (objects_in_order (sw_db w)) records.
Proof.
  intros Hok H. unfold ListEnforcementObjects in H. apply mthen_ok in H as (rows & w1 & H1 & H).
  apply wrap_Ok, query_db in H1 as [E1 Hrows]. specialize (Hrows rows eq_refl). subst rows.
  apply mthen_ok in H as (recs & w2 & H2 & H).
  assert (scan_objects (objects_in_order (sw_db w)) = Ok recs /\ w2 = w1) as [Hscan ->].
  { unfold lift in H2. destruct (scan_objects _); injection H2 as <- <-; done. }
  apply (mfold_reads _ (fun d r rec => exists cs, rec = with_sources r cs /\
    scan_sources (sources_of (er_ID r) d) = Ok cs)) in H as (E2 & zs & -> & Hzs).
  2:{ clear. intros acc x w y w' H. apply mthen_ok in H as (rows & w1 & H1 & H).
      apply wrap_Ok, query_db in H1 as [E1 Hrows]. specialize (Hrows rows eq_refl). subst rows.
      apply mthen_ok in H as (cs & w2 & H2 & H). unfold lift in H2.
      destruct (scan_sources _) as [cs'|] eqn:E; [|done]. injection H2 as -> ->. injection H as <- <-.
      split; [done|]. exists (with_sources x cs). split; [done|]. by exists cs. }
  split; [congruence|]. rewrite E1 in Hzs. cbn [app]. clear H2.
  assert (List.Forall (fun kr => object_ok (sw_db w) kr.2) (objects_in_order (sw_db w))) as Hall.
  { apply List.Forall_forall. intros [id r] Hin. apply list_elem_of_In in Hin.
    unfold objects_in_order in Hin. rewrite elem_of_sort_func in Hin.
    apply elem_of_map_to_list in Hin. by apply (ok_object _ Hok id). }
  revert recs zs Hscan Hzs. induction Hall as [|[id r] rows Hr Hall IH]; intros recs zs Hscan Hzs; cbn in Hscan.
  - injection Hscan as <-. inv Hzs. constructor.
  - destruct (scan_object_ok (sw_db w) id r Hr) as (p & Hc & Ep & Es). unfold scan_object in Es.
    rewrite Es in Hscan. cbn in Hscan. destruct (scan_objects rows) as [recs'|]; [|done]. cbn in Hscan.
    injection Hscan as <-. inv Hzs. constructor; [|by eapply IH].
    match goal with H : exists cs, _ |- _ => destruct H as (cs & -> & Hcs) end. cbn in Hcs.
    pose proof (scan_sources_Ok _ _ Hcs) as Hin. split; cbn; [done|done|done|].
    intros c. rewrite Hin. setoid_rewrite elem_of_sources_of. naive_solver.
Qed.

(** The plan in the database, and its listing. *)
Lemma ApplyEnforcementPlan_Ok objects now w records w' :
  db_ok (sw_db w) -> List.Forall (fun o => prefix_wf (ob_Prefix o)) objects ->
  ApplyEnforcementPlan objects now w = (Ok records, w') ->
  validate_plan ∅ objects = true /\ db_ok (sw_db w') /\ plan_inv (unix now) (sw_db w) objects (sw_db w') /\
  Forall2 (shows (sw_db w')) (objects_in_order (sw_db w')) records.
Proof.
  intros Hok Hwf H. unfold ApplyEnforcementPlan in H.
  apply require_Ok in H as [_ H]. apply require_Ok in H as [Ev H].
  apply mthen_ok in H as (u & w1 & H1 & H).
  assert (db_ok (sw_db w1)) as Hok1.
  { apply validate_plan_all in Ev as (Hv & _).
    eapply (does_tx (keeps db_ok)); [apply plan_does; [apply _|apply db_ok_statements|exact Hv|exact Hwf]|exact H1|done]. }
  apply tx_Ok in H1 as (wa & wb & Ea & Hb & Eb). rewrite <- Ea in Hok.
  apply apply_plan_Ok in Hb as Hinv; [|done..]. rewrite Ea, <- Eb in Hinv.
  apply ListEnforcementObjects_Ok in H as [E2 Hrec]; [|done]. by rewrite E2.
Qed.

(** ** Properties *)

(** C15: [ApplyEnforcementPlan] makes the plan, and nothing else, desired.
    Every object of the plan has one row with its fields and exactly its
    contributors as sources; every other row is marked stale and is not
    desired; no row disappears or changes its id; the other tables are
    untouched; and the records returned show the new rows in order. *)
Theorem ApplyEnforcementPlan_exact objects now w records w' :
  db_ok (sw_db w) -> List.Forall (fun o => prefix_wf (ob_Prefix o)) objects ->
  ApplyEnforcementPlan objects now w = (Ok records, w') ->
  let d := sw_db w in let d' := sw_db w' in
  (forall o, In o objects -> exists id, carries (unix now) d' id o) /\
  (forall id r, db_objects d' !! id = Some r ->
     (exists o, In o objects /\ carries (unix now) d' id o) \/
     (exists r0, db_objects d !! id = Some r0 /\ r = stale_row (unix now) r0 /\ ow_desired r = false)) /\
  (forall id r0, db_objects d !! id = Some r0 ->
     exists r, db_objects d' !! id = Some r /\ ow_prefix r = ow_prefix r0) /\
  other_tables d' = other_tables d /\
  Forall2 (shows d') (objects_in_order d') records.
Proof.
  intros Hok Hwf H. apply ApplyEnforcementPlan_Ok in H as (_ & _ & [Ho Hd Hr Hi] & Hs); [|done..]. cbv zeta.
  split_and!; [done| |done|done|done].
  intros id r Hx. destruct (Hr id r Hx) as [?|(_ & (r0 & Hr0 & ->) & _)]; [by left|right; eauto].
Qed.

Definition ex_feed_row (name : string) : feed_row :=
  MkFeedRow name "" "" true "" "" None None "" 0 0 0 None "" 0 0.
Definition ex_db : DB :=
  set_feeds {[ 1 := ex_feed_row "ips"; 2 := ex_feed_row "ranges" ]} empty_db.
Definition ex_now : Time := Unix 1700000000.

Lemma ex_db_ok : db_ok ex_db.
Proof. split; cbn; try done; intros; set_solver. Qed.

Definition ex_plan : list Object := (BuildDesired ex_candidates ex_allowlist).1.

Lemma ex_plan_wf : List.Forall (fun o => prefix_wf (ob_Prefix o)) ex_plan.
Proof.
  apply List.Forall_forall. intros o Ho. apply prefix_wfb_true. revert o Ho.
  apply (List.forallb_forall (fun o => prefix_wfb (ob_Prefix o))). by vm_compute.
Qed.

Lemma ApplyEnforcementPlan_exact_witness :
  exists records w', ApplyEnforcementPlan ex_plan ex_now (MkSW ex_db []) = (Ok records, w') /\
    map er_Desired records = [true; false; false] /\
    Forall2 (shows (sw_db w')) (objects_in_order (sw_db w')) records.
Proof.
  pose (r := ApplyEnforcementPlan ex_plan ex_now (MkSW ex_db [])).
  assert (exists records w', r = (Ok records, w')) as (records & w' & E) by (vm_compute; eauto).
  exists records, w'. split; [exact E|]. split.
  - assert (match r.1 with Ok recs => map er_Desired recs | Err _ => [] end = [true; false; false]) as H
      by by vm_compute.
    rewrite E in H. exact H.
  - refine (proj2 (proj2 (proj2 (proj2 (ApplyEnforcementPlan_exact ex_plan ex_now (MkSW ex_db []) records w' _ _ E))))).
    + exact ex_db_ok.
    + exact ex_plan_wf.
Defined.

(** whatever calls are made, in whatever order, and whatever statement
    fails, an entry of the operation journal never disappears, keeps its
    payload, and only moves from pending through ambiguous to verified or
    failed, and from verified to completed. *)
Theorem journal_lifecycle cs w :
  List.Forall call_wf cs ->
  ops_evolve (sw_db w) (sw_db (history cs w)) /\ decs_evolve (sw_db w) (sw_db (history cs w)).
Proof.
  intros Hwf. split.
  - apply history_does; [apply _|apply ops_evolve_statements|done].
  - apply history_does; [apply _|apply decs_evolve_statements|done].
Qed.

Definition ex_token : string := "0123456789abcdef0123456789abcdef".
Definition ex_hash : string := sha256_hex "payload".
Definition ex_operation : Operation :=
  MkOperation ex_token OperationCreate 2 "ranges" Hour ex_hash OperationPending
    [MkOperationItem 1 None] ex_now None.
Definition ex_calls : list call :=
  [CallApplyEnforcementPlan ex_plan ex_now; CallBeginOperation ex_operation;
   CallSetOperationStatus ex_token OperationAmbiguous "lapi_create" ex_now;
   CallRecordVerifiedOperation ex_token
     (MkVerifiedAlert 7 "machine" "crowdshield" "crowdshield/ranges"
        [MkVerifiedDecision 1 11 "crowdshield" "crowdshield/ranges" "Range" "8.8.8.0/24" (time_Add ex_now Hour)])
     ex_now;
   CallCompleteOperation ex_token ex_now].

Lemma ex_calls_wf : List.Forall call_wf ex_calls.
Proof.
  unfold ex_calls. apply List.Forall_cons; [exact ex_plan_wf|]. repeat (apply List.Forall_cons; [done|]). constructor.
Qed.

Lemma journal_lifecycle_witness :
  pw_status <$> (db_operations (sw_db (history ex_calls (MkSW ex_db []))) !! ex_token) = Some OperationCompleted /\
  ops_evolve ex_db (sw_db (history ex_calls (MkSW ex_db []))).
Proof.
  split; [by vm_compute|]. apply (journal_lifecycle ex_calls (MkSW ex_db [])). exact ex_calls_wf.
Defined.

Lemma update_then_require (run : DB -> Prelude.result error (Z * DB)) w e w' :
  (forall d n d', run d = Ok (n, d') -> n = 1 \/ d' = d) ->
  (let! changed := wrap state.ErrQuery (stmt run) in require (changed =? 1) constraint) w = (Err e, w') ->
  sw_db w' = sw_db w.
Proof.
  intros Hr H. apply mthen_err in H as [H|(n & w1 & H1 & H)].
  - pose proof (wrap_db state.ErrQuery (stmt run) w) as Hw. rewrite H in Hw. cbn [snd] in Hw. rewrite Hw.
    unfold wrap in H. destruct (stmt run w) as [[x|x] w2] eqn:E2; [done|].
    apply stmt_db in E2 as [(? & _ & E2)|(? & ? & _)]; done.
  - apply wrap_Ok, stmt_db in H1 as [(? & ? & _)|(? & [= <-] & H1)]; [done|].
    unfold require in H. destruct (Z.eqb_spec n 1) as [->|]; [done|]. injection H as _ <-.
    by destruct (Hr _ _ _ H1) as [->|].
Qed.

(** C38: a call that fails leaves the database as it was, except a plan whose
    listing fails after the plan has been committed. *)
Theorem exec_atomic c w e w' :
  exec c w = (Err e, w') -> sw_db w' = sw_db w \/
  exists objects now w1, c = CallApplyEnforcementPlan objects now /\
    tx (apply_plan objects (unix now)) w = (Ok tt, w1) /\ sw_db w' = sw_db w1.
Proof.
  assert (forall A (m : Store A) w e w', does (same id) m -> void m w = (Err e, w') -> sw_db w' = sw_db w) as Hread.
  { intros A m w0 e0 w0' Hm H. unfold void in H. apply mthen_err in H as [H|(a & w1 & H & [=])].
    by apply Hm in H. }
  destruct c; cbn [exec]; intros H.
  - unfold void in H. apply mthen_err in H as [H|(a & w1 & H & [=])]. unfold ApplyEnforcementPlan in H.
    apply require_Err in H as [->|H]; [by left|]. apply require_Err in H as [->|H]; [by left|].
    apply mthen_err in H as [H|([] & w1 & H1 & H)]; [left; by eapply tx_Err|].
    right. exists objects, now, w1. split_and!; [done|done|].
    by apply (ListEnforcementObjects_does (same id)) in H.
  - left. eapply Hread; [|exact H]. apply ListEnforcementObjects_does, _.
  - left. unfold BeginOperation in H. apply require_Err in H as [->|H]; [done|]. by eapply tx_Err.
  - left. eapply Hread; [|exact H]. unfold OpenOperations. does_tac.
  - left. unfold void in H. apply mthen_err in H as [H|(a & w1 & H & [=])].
    unfold RecordVerifiedOperation in H. apply require_Err in H as [->|H]; [done|]. by eapply tx_Err.
  - left. unfold CompleteOperation in H. apply require_Err in H as [->|H]; [done|].
    eapply update_then_require; [|exact H]. intros d n d'. unfold update_operation.
    destruct (db_operations d !! _); [destruct (is_done _)|]; intros [= <- <-]; auto.
  - left. unfold SetOperationStatus in H. apply require_Err in H as [->|H]; [done|]. cbv zeta in H.
    eapply update_then_require; [|exact H]. intros d n d'. unfold update_operation.
    destruct (db_operations d !! _); [destruct (is_unverified _)|]; intros [= <- <-]; auto.
  - left. eapply Hread; [|exact H]. unfold DecisionsForOperation, queryOperationDecisions. does_tac.
  - left. eapply Hread; [|exact H]. unfold ListActiveDecisions. does_tac.
  - left. eapply Hread; [|exact H]. unfold ListLiveDecisions. does_tac.
  - left. eapply Hread; [|exact H]. unfold DecisionByRowID. does_tac.
    destruct (_ : option DecisionRecord); does_tac.
  - left. unfold MarkDecisionExpired in H. apply require_Err in H as [->|H]; [done|].
    eapply update_then_require; [|exact H]. intros d n d'. unfold mark_expired.
    destruct (db_decisions d !! _); [destruct (is_live _)|]; intros [= <- <-]; auto.
Qed.

Lemma exec_atomic_witness :
  exists e w', exec (CallBeginOperation ex_operation) (MkSW ex_db []) = (Err e, w') /\ sw_db w' = ex_db.
Proof.
  pose (r := exec (CallBeginOperation ex_operation) (MkSW ex_db [])).
  assert (exists e w', r = (Err e, w')) as (e & w' & E) by (vm_compute; eauto).
  exists e, w'. split; [exact E|].
  destruct (exec_atomic (CallBeginOperation ex_operation) (MkSW ex_db []) e w' E) as [H|(? & ? & ? & [=] & _)].
  exact H.
Defined.
