(* ===== verification/StateFeeds.v ===== *)
(** * The feed repository ([internal/state/feed_repository.go])

    The feeds with their cursors, and the entries of their last snapshots: a
    snapshot refreshes the entries it holds, counts a missing run for the
    other active ones, and deactivates those missing for [grace] runs. *)

From S2P Require Export StateDB.

(** ** Records *)

Record FeedDefinition : Type := MkFeedDefinition {
  fd_Name : string; fd_URLHash : string; fd_DefinitionHash : string; fd_Enabled : bool }.

Record FeedRecord : Type := MkFeedRecord {
  rec_ID : Z; rec_Name : string; rec_URLHash : string; rec_DefinitionHash : string;
  rec_Enabled : bool; rec_ETag : string; rec_LastModified : string; rec_LastAttempt : option Time;
  rec_LastSuccess : option Time; rec_LastGoodVersion : string; rec_AcceptedEntries : Z;
  rec_RejectedEntries : Z; rec_ConsecutiveFailures : Z; rec_NextAttempt : option Time;
  rec_LastErrorCategory : string }.

Record FeedSnapshot : Type := MkFeedSnapshot {
  fsn_Version : string; fsn_ETag : string; fsn_LastModified : string; fsn_Entries : list Entry;
  fsn_Rejected : Z }.

Record SnapshotResult : Type := MkSnapshotResult {
  sr_Added : Z; sr_Reactivated : Z; sr_Missing : Z; sr_Deactivated : Z }.

Record StoredEntry : Type := MkStoredEntry {
  se_FeedID : Z; se_FeedName : string; se_Entry : Entry; se_FirstSeen : Time; se_LastSeen : Time;
  se_MissingRuns : Z; se_Active : bool }.

(** ** Feeds *)

Definition validFeedDefinition (f : FeedDefinition) : bool :=
  (len (fd_Name f) <=? 64) && match_feed_name (fd_Name f) && validHash (fd_URLHash f) &&
  validHash (fd_DefinitionHash f).

Definition scanFeed (kr : Z * feed_row) : FeedRecord :=
  let r := kr.2 in
  MkFeedRecord kr.1 (fr_name r) (fr_url_hash r) (fr_definition_hash r) (fr_enabled r) (fr_etag r)
    (fr_last_modified r) (Unix <$> fr_last_attempt r) (Unix <$> fr_last_success r)
    (fr_last_good_version r) (fr_accepted r) (fr_rejected r) (fr_failures r)
    (Unix <$> fr_next_attempt r) (fr_error r).

Fixpoint validate_definitions (seen : gset string) (definitions : list FeedDefinition) : bool :=
  match definitions with
  | [] => true
  | f :: rest =>
      if negb (validFeedDefinition f) then false
      else if bool_decide (fd_Name f ∈ seen) then false
      else validate_definitions ({[fd_Name f]} ∪ seen) rest
  end.

(** [UPDATE feeds SET enabled=0 WHERE enabled<>0] *)
Definition disable_row (r : feed_row) : feed_row :=
  MkFeedRow (fr_name r) (fr_url_hash r) (fr_definition_hash r) false (fr_etag r) (fr_last_modified r)
    (fr_last_attempt r) (fr_last_success r) (fr_last_good_version r) (fr_accepted r) (fr_rejected r)
    (fr_failures r) (fr_next_attempt r) (fr_error r) (fr_created r) (fr_updated r).

Definition disable_feeds (d : DB) : DB := set_feeds (disable_row <$> db_feeds d) d.

(** The row of a new feed, and the update of an existing one. *)
Definition new_feed_row (f : FeedDefinition) (now : Z) : feed_row :=
  MkFeedRow (fd_Name f) (fd_URLHash f) (fd_DefinitionHash f) (fd_Enabled f) "" "" None None "" 0 0 0
    None "" now now.

Definition define_row (f : FeedDefinition) (now : Z) (r : feed_row) : feed_row :=
  MkFeedRow (fr_name r) (fd_URLHash f) (fd_DefinitionHash f) (fd_Enabled f) (fr_etag r)
    (fr_last_modified r) (fr_last_attempt r) (fr_last_success r) (fr_last_good_version r)
    (fr_accepted r) (fr_rejected r) (fr_failures r) (fr_next_attempt r) (fr_error r) (fr_created r) now.

Definition upsert_feed (now : Z) (f : FeedDefinition) (d : DB) : DB :=
  match feed_by_name (fd_Name f) d with
  | Some id => set_feeds (alter (define_row f now) id (db_feeds d)) d
  | None => set_feeds (<[next_id (db_feeds d) := new_feed_row f now]> (db_feeds d)) d
  end.

(** [feedSelect WHERE name=?] *)
Definition select_feed (name : string) (d : DB) : option FeedRecord :=
  match feed_by_name name d with
  | Some id => match db_feeds d !! id with Some r => Some (scanFeed (id, r)) | None => None end
  | None => None
  end.

Definition scan_feed_row (name : string) : Store FeedRecord :=
  stmt (fun d => match select_feed name d with Some r => Ok (r, d) | None => Err ErrNoRows end).

Definition ensure_body (definitions : list FeedDefinition) (now : Z) : Store (list FeedRecord) :=
  let! _ := wrap state.ErrQuery (update disable_feeds) in
  let! _ := mfor (fun f => wrap state.ErrQuery (update (upsert_feed now f))) definitions in
  mfold (fun records f =>
    let! r := wrap state.ErrQuery (scan_feed_row (fd_Name f)) in
    mok (records ++ [r])) [] definitions.

Definition EnsureFeeds (definitions : list FeedDefinition) (now : Time) : Store (list FeedRecord) :=
  let! _ := require (negb (match definitions with [] => true | _ => false end) &&
                     negb (time_IsZero now)) constraint in
  let! _ := require (validate_definitions ∅ definitions) constraint in
  tx (ensure_body definitions (unix now)).

Definition FeedByName (name : string) : Store FeedRecord :=
  let! _ := require (match_feed_name name) constraint in
  let! r := wrap state.ErrQuery (query (select_feed name)) in
  match r with
  | Some record => mok record
  | None => mfail (stateError state.ErrNotFound (Some ErrNoRows))
  end.

Definition feeds_in_order (d : DB) : list (Z * feed_row) :=
  sort_func (fun a b => cmp_int a.1 b.1) (map_to_list (db_feeds d)).

Definition ListFeeds : Store (list FeedRecord) :=
  wrap state.ErrQuery (query (fun d => map scanFeed (feeds_in_order d))).

(** ** Snapshots *)

Definition validValidator (value : string) (max : Z) : bool :=
  (len value <=? max) && negb (contains_any ["013"; "010"; "000"]%char value).

Fixpoint validate_snapshot_entries (seen : gset (Prefix * Kind)) (entries : list Entry) : bool :=
  match entries with
  | [] => true
  | entry :: rest =>
      if negb (entry_accepted entry) then false
      else if bool_decide (entry_key entry ∈ seen) then false
      else validate_snapshot_entries ({[entry_key entry]} ∪ seen) rest
  end.

Definition validateSnapshot (snapshot : FeedSnapshot) (grace : Z) : bool :=
  validHash (fsn_Version snapshot) && negb (grace <? 1) && negb (100 <? grace) &&
  negb (fsn_Rejected snapshot <? 0) && validValidator (fsn_ETag snapshot) 256 &&
  validValidator (fsn_LastModified snapshot) 128 && validate_snapshot_entries ∅ (fsn_Entries snapshot).

(** The rows of a feed's entries: prefix text, kind and row. *)
Definition entries_of_feed (feed : Z) (d : DB) : list (string * Z * entry_row) :=
  omap (fun kv : (Z * string * Z) * entry_row =>
    if kv.1.1.1 =? feed then Some (kv.1.1.2, kv.1.2, kv.2) else None) (map_to_list (db_entries d)).

(** The rows by key: active, and missing runs. *)
Fixpoint scan_existing (existing : gmap (Prefix * Kind) (bool * Z)) (rows : list (string * Z * entry_row))
  : Prelude.result error (gmap (Prefix * Kind) (bool * Z)) :=
  match rows with
  | [] => Ok existing
  | (raw, kindValue, r) :: rest =>
      match NormalizePrefix raw with
      | Err _ => Err (stateError state.ErrIntegrity (Some (Foreign "invalid network indicator")))
      | Ok prefix =>
          let? kind := checkedNetworkKind kindValue in
          scan_existing (<[(prefix, kind) := (ey_active r, ey_missing r)]> existing) rest
      end
  end.

(** [UPDATE feed_entries SET missing_runs=missing_runs+1 WHERE feed_id=? AND active=1] *)
Definition count_missing (r : entry_row) : entry_row :=
  if ey_active r
  then MkEntryRow (ey_family r) (ey_bits r) (ey_first_seen r) (ey_last_seen r) (ey_missing r + 1) true
  else r.

Definition of_feed (feed : Z) (f : entry_row -> entry_row) (d : DB) : DB :=
  set_entries (map_imap (fun (k : Z * string * Z) (r : entry_row) =>
    Some (if k.1.1 =? feed then f r else r)) (db_entries d)) d.

(** The upsert of an entry of the snapshot. *)
Definition seen_row (prefix : Prefix) (now : Z) (old : option entry_row) : entry_row :=
  let first := match old with Some r => ey_first_seen r | None => now end in
  MkEntryRow (family_of prefix) (p_bits prefix) first now 0 true.

Definition upsert_entry (feed now : Z) (entry : Entry) (d : DB) : DB :=
  let prefix := Masked (en_Prefix entry) in
  let key := (feed, prefix_String prefix, kind_value (en_Kind entry)) in
  set_entries (<[key := seen_row prefix now (db_entries d !! key)]> (db_entries d)) d.

(** [UPDATE feed_entries SET active=0 WHERE feed_id=? AND active=1 AND missing_runs>=?] *)
Definition expired_entry (grace : Z) (r : entry_row) : bool := ey_active r && (grace <=? ey_missing r).

Definition deactivate_row (grace : Z) (r : entry_row) : entry_row :=
  if expired_entry grace r
  then MkEntryRow (ey_family r) (ey_bits r) (ey_first_seen r) (ey_last_seen r) (ey_missing r) false
  else r.

Definition count_expired (feed grace : Z) (d : DB) : Z :=
  count_rows (fun (k : Z * string * Z) r => (k.1.1 =? feed) && expired_entry grace r) (db_entries d).

Definition deactivate_missing (feed grace : Z) (d : DB) : Prelude.result error (Z * DB) :=
  Ok (count_expired feed grace d, of_feed feed (deactivate_row grace) d).

(** The row of a feed after a snapshot. *)
Definition success_row (snapshot : FeedSnapshot) (now : Z) (r : feed_row) : feed_row :=
  MkFeedRow (fr_name r) (fr_url_hash r) (fr_definition_hash r) (fr_enabled r) (fsn_ETag snapshot)
    (fsn_LastModified snapshot) (Some now) (Some now) (fsn_Version snapshot)
    (Z.of_nat (List.length (fsn_Entries snapshot))) (fsn_Rejected snapshot) 0 None "" (fr_created r) now.

Definition update_feed (id : Z) (f : feed_row -> feed_row) (d : DB) : DB :=
  set_feeds (alter f id (db_feeds d)) d.

Definition add_Added (r : SnapshotResult) : SnapshotResult :=
  MkSnapshotResult (sr_Added r + 1) (sr_Reactivated r) (sr_Missing r) (sr_Deactivated r).
Definition add_Reactivated (r : SnapshotResult) : SnapshotResult :=
  MkSnapshotResult (sr_Added r) (sr_Reactivated r + 1) (sr_Missing r) (sr_Deactivated r).

Definition count_entry (existing : gmap (Prefix * Kind) (bool * Z)) (entry : Entry) (r : SnapshotResult)
  : SnapshotResult :=
  match (existing !! entry_key entry : option (bool * Z)) with
  | None => add_Added r
  | Some (active, _) => if active then r else add_Reactivated r
  end.

(** The keys of the existing entries that are active and not present. *)
Definition missing_entries (existing : gmap (Prefix * Kind) (bool * Z)) (present : gset (Prefix * Kind)) : Z :=
  count_rows (fun k v => negb (bool_decide (k ∈ present)) && v.1) existing.

Definition apply_entry (feed now : Z) (existing : gmap (Prefix * Kind) (bool * Z))
    (st : gset (Prefix * Kind) * SnapshotResult) (entry : Entry)
  : Store (gset (Prefix * Kind) * SnapshotResult) :=
  let! _ := wrap state.ErrQuery (update (upsert_entry feed now entry)) in
  mok ({[entry_key entry]} ∪ st.1, count_entry existing entry st.2).

Definition apply_snapshot (feed : Z) (snapshot : FeedSnapshot) (grace now : Z) : Store SnapshotResult :=
  let! rows := wrap state.ErrQuery (query (entries_of_feed feed)) in
  let! existing := lift (scan_existing ∅ rows) in
  let! _ := wrap state.ErrQuery (update (of_feed feed count_missing)) in
  let! st := mfold (apply_entry feed now existing) (∅, MkSnapshotResult 0 0 0 0) (fsn_Entries snapshot) in
  let! deactivated := wrap state.ErrQuery (stmt (deactivate_missing feed grace)) in
  let! _ := wrap state.ErrQuery (update (update_feed feed (success_row snapshot now))) in
  mok (MkSnapshotResult (sr_Added st.2) (sr_Reactivated st.2) (missing_entries existing st.1) deactivated).

Definition snapshot_body (name : string) (snapshot : FeedSnapshot) (grace now : Z) : Store SnapshotResult :=
  let! feed := wrap state.ErrQuery (query (feed_by_name name)) in
  match feed with
  | None => mfail (stateError state.ErrNotFound (Some ErrNoRows))
  | Some id => apply_snapshot id snapshot grace now
  end.

Definition ApplyFeedSnapshot (name : string) (snapshot : FeedSnapshot) (grace : Z) (now : Time)
  : Store SnapshotResult :=
  let! _ := require (match_feed_name name && negb (time_IsZero now)) constraint in
  let! _ := require (validateSnapshot snapshot grace) constraint in
  tx (snapshot_body name snapshot grace (unix now)).

(** ** Failures and unchanged feeds *)

Definition failure_row (category : string) (now next : Z) (r : feed_row) : feed_row :=
  MkFeedRow (fr_name r) (fr_url_hash r) (fr_definition_hash r) (fr_enabled r) (fr_etag r)
    (fr_last_modified r) (Some now) (fr_last_success r) (fr_last_good_version r) (fr_accepted r)
    (fr_rejected r) (fr_failures r + 1) (Some next) category (fr_created r) now.

(** An [UPDATE] of the feed with a name, if its row satisfies [p]. *)
Definition update_named (name : string) (p : feed_row -> bool) (f : feed_row -> feed_row) (d : DB)
  : Prelude.result error (Z * DB) :=
  match feed_by_name name d with
  | Some id =>
      match db_feeds d !! id with
      | Some r => if p r then Ok (1, set_feeds (<[id := f r]> (db_feeds d)) d) else Ok (0, d)
      | None => Ok (0, d)
      end
  | None => Ok (0, d)
  end.

Definition RecordFeedFailure (name category : string) (now nextAttempt : Time) : Store unit :=
  let! _ := require (match_feed_name name && match_category category && negb (time_IsZero now) &&
                     negb (Before nextAttempt now)) constraint in
  let! rows := wrap state.ErrQuery (stmt (update_named name (fun _ => true)
                 (failure_row category (unix now) (unix nextAttempt)))) in
  require (rows =? 1) (stateError state.ErrNotFound None).

Definition unchanged_row (etag lastModified : string) (now : Z) (r : feed_row) : feed_row :=
  MkFeedRow (fr_name r) (fr_url_hash r) (fr_definition_hash r) (fr_enabled r)
    (if String.eqb etag "" then fr_etag r else etag)
    (if String.eqb lastModified "" then fr_last_modified r else lastModified)
    (Some now) (Some now) (fr_last_good_version r) (fr_accepted r) (fr_rejected r) 0 None ""
    (fr_created r) now.

Definition RecordFeedNotModified (name etag lastModified : string) (now : Time) : Store unit :=
  let! _ := require (match_feed_name name && negb (time_IsZero now) && validValidator etag 256 &&
                     validValidator lastModified 128) constraint in
  let! changed := wrap state.ErrQuery (stmt (update_named name
                    (fun r => negb (String.eqb (fr_last_good_version r) ""))
                    (unchanged_row etag lastModified (unix now)))) in
  require (changed =? 1) constraint.

(** ** Entries *)

(** A row of [entrySelect]: the feed, its name, the key and the row. *)
Definition entry_source : Type := Z * string * (string * Z) * entry_row.

Definition scanStoredEntry (row : entry_source) : Prelude.result error StoredEntry :=
  let '(feed, name, (raw, kindValue), r) := row in
  match NormalizePrefix raw with
  | Err _ => Err (stateError state.ErrIntegrity (Some (Foreign "invalid network indicator")))
  | Ok prefix =>
      if negb (p_bits prefix =? ey_bits r) || negb (Bool.eqb (ey_family r =? 4) (Is4 (p_addr prefix)))
      then Err integrity
      else
        match checkedNetworkKind kindValue with
        | Err e => Err (stateError state.ErrIntegrity (Some e))
        | Ok kind =>
            if negb (ValidateKind prefix kind) then Err integrity
            else Ok (MkStoredEntry feed name (MkEntry prefix kind) (Unix (ey_first_seen r))
                       (Unix (ey_last_seen r)) (ey_missing r) (ey_active r))
        end
  end.

Fixpoint scan_entries (rows : list entry_source) : Prelude.result error (list StoredEntry) :=
  match rows with
  | [] => Ok []
  | row :: rest =>
      match scanStoredEntry row with
      | Err e => Err (stateError state.ErrIntegrity (Some e))
      | Ok entry => let? entries := scan_entries rest in Ok (entry :: entries)
      end
  end.

(** The entries joined with their feeds, with a condition, in an order. *)
Definition entries_where (p : feed_row -> entry_row -> bool) (cmp : entry_source -> entry_source -> Z)
    (d : DB) : list entry_source :=
  sort_func cmp (omap (fun kv : (Z * string * Z) * entry_row =>
    match db_feeds d !! kv.1.1.1 with
    | Some f => if p f kv.2 then Some (kv.1.1.1, fr_name f, (kv.1.1.2, kv.1.2), kv.2) else None
    | None => None
    end) (map_to_list (db_entries d))).

(** [ORDER BY e.family, e.prefix, e.kind] *)
Definition compare_entry_source (a b : entry_source) : Z :=
  cmp_then (cmp_int (ey_family a.2) (ey_family b.2))
    (cmp_then (cmp_string a.1.2.1 b.1.2.1) (cmp_int a.1.2.2 b.1.2.2)).

Definition compare_active_source (a b : entry_source) : Z :=
  cmp_then (cmp_string a.1.1.2 b.1.1.2) (compare_entry_source a b).

Definition queryEntries (rows : DB -> list entry_source) : Store (list StoredEntry) :=
  let! rows := wrap state.ErrQuery (query rows) in
  lift (scan_entries rows).

Definition ListFeedEntries (name : string) (includeInactive : bool) : Store (list StoredEntry) :=
  let! _ := require (match_feed_name name) constraint in
  queryEntries (entries_where
    (fun f r => String.eqb (fr_name f) name && (includeInactive || ey_active r)) compare_entry_source).

Definition ListActiveEntries : Store (list StoredEntry) :=
  queryEntries (entries_where (fun f r => ey_active r && fr_enabled f) compare_active_source).
