(* ===== verification/StateSnapshot.v ===== *)
(** * What the feed repository achieves

    The exact effect of a snapshot on the entries of a feed, the grace period
    of a missing entry, and the entries the reconciliation reads. *)

From S2P Require Export StateFeeds.

(** ** The invariant of the feeds and their entries *)

(** An entry is stored under the text of a canonical safe prefix. *)
Record entry_ok (d : DB) (k : Z * string * Z) (r : entry_row) : Prop := {
  eo_key : exists p kind, canonical p /\ fst (IsSafePrefix p) = true /\ ValidateKind p kind = true /\
    k.1.2 = prefix_String p /\ k.2 = kind_value kind /\ ey_family r = family_of p /\ ey_bits r = p_bits p;
  eo_feed : is_Some (db_feeds d !! k.1.1);
  eo_missing : 0 <= ey_missing r }.

Record feeds_ok (d : DB) : Prop := {
  fo_id : forall i r, db_feeds d !! i = Some r -> 0 < i;
  fo_name : forall i r, db_feeds d !! i = Some r -> match_feed_name (fr_name r) = true;
  fo_unique : forall i j r s, db_feeds d !! i = Some r -> db_feeds d !! j = Some s ->
    fr_name r = fr_name s -> i = j;
  fo_entry : forall k r, db_entries d !! k = Some r -> entry_ok d k r }.

Lemma empty_feeds_ok : feeds_ok empty_db.
Proof. by split; cbn. Qed.

(** ** The keys of a snapshot *)

Definition text_key (feed : Z) (e : Entry) : Z * string * Z :=
  (feed, prefix_String (Masked (en_Prefix e)), kind_value (en_Kind e)).

(** The entry of the snapshot with a key. *)
Definition find_entry (feed : Z) (k : Z * string * Z) (entries : list Entry) : option Entry :=
  List.find (fun e => bool_decide (text_key feed e = k)) entries.

Lemma find_entry_Some feed k entries e :
  find_entry feed k entries = Some e -> In e entries /\ text_key feed e = k.
Proof. unfold find_entry. intros [H1 H2]%find_some. split; [done|]. by apply bool_decide_eq_true in H2. Qed.

Lemma find_entry_None feed k entries :
  find_entry feed k entries = None -> forall e, In e entries -> text_key feed e <> k.
Proof.
  unfold find_entry. intros H e He. pose proof (find_none _ _ H e He) as Hn. cbn in Hn.
  by apply bool_decide_eq_false in Hn.
Qed.

(** The entries of a snapshot that passed [validateSnapshot]. *)
Record entries_valid (entries : list Entry) : Prop := {
  ev_accepted : List.Forall (fun e => entry_accepted e = true) entries;
  ev_canonical : List.Forall (fun e => canonical (Masked (en_Prefix e))) entries;
  ev_NoDup : NoDup (map entry_key entries) }.

Lemma validate_snapshot_entries_all seen entries :
  validate_snapshot_entries seen entries = true ->
  List.Forall (fun e => entry_accepted e = true) entries /\
  NoDup (map entry_key entries) /\ (forall e, In e entries -> entry_key e ∉ seen).
Proof.
  revert seen. induction entries as [|e entries IH]; intros seen; cbn [validate_snapshot_entries].
  - intros _. split_and!; [constructor|constructor|by intros ? []].
  - destruct (entry_accepted e) eqn:Ev; cbn [negb]; [|done].
    case_bool_decide as Hin; [done|]. intros (H1 & H2 & H3)%IH. split_and!.
    + by constructor.
    + cbn. apply list.NoDup_cons. split; [|done].
      intros (x & E & Hx)%list_elem_of_fmap. apply list_elem_of_In, H3 in Hx. rewrite <- E in Hx. set_solver.
    + intros x [<-|Hx]; [done|]. apply H3 in Hx. set_solver.
Qed.

Lemma entry_accepted_facts e :
  entry_accepted e = true ->
  fst (IsSafePrefix (Masked (en_Prefix e))) = true /\ ValidateKind (Masked (en_Prefix e)) (en_Kind e) = true.
Proof. unfold entry_accepted. intros H. by apply andb_true_iff in H. Qed.

Lemma validateSnapshot_facts snapshot grace :
  validateSnapshot snapshot grace = true ->
  List.Forall (fun e => prefix_wf (en_Prefix e)) (fsn_Entries snapshot) ->
  1 <= grace <= 100 /\ entries_valid (fsn_Entries snapshot).
Proof.
  unfold validateSnapshot. intros H Hwf. to_prop. split; [lia|].
  match goal with H : validate_snapshot_entries _ _ = true |- _ =>
    apply validate_snapshot_entries_all in H as (Ha & Hnd & _) end.
  split; [done| |done]. apply List.Forall_forall. intros e He. rewrite List.Forall_forall in Ha, Hwf.
  apply safe_canonical; [by apply Masked_wf, Hwf|]. by apply entry_accepted_facts, Ha.
Qed.

Lemma text_key_inj feed entries e f :
  entries_valid entries -> In e entries -> In f entries -> text_key feed e = text_key feed f ->
  entry_key e = entry_key f.
Proof.
  intros [_ Hc _] He Hf. unfold text_key, entry_key. rewrite List.Forall_forall in Hc.
  intros [= Ep Ek]. apply prefix_String_inj in Ep; [|by apply Hc..]. apply kind_value_inj in Ek. congruence.
Qed.

Lemma entries_valid_tail e entries : entries_valid (e :: entries) -> entries_valid entries.
Proof.
  intros [H1 H2 H3]. inv H1. inv H2. cbn in H3. apply list.NoDup_cons in H3 as [_ H3]. by split.
Qed.

Lemma text_key_head feed e entries f :
  entries_valid (e :: entries) -> In f entries -> text_key feed f <> text_key feed e.
Proof.
  intros Hv Hf E. apply (text_key_inj feed (e :: entries)) in E; [|done|by right|by left].
  destruct Hv as [_ _ Hnd]. cbn in Hnd. apply list.NoDup_cons in Hnd as [Hnd _].
  apply Hnd. apply list_elem_of_fmap. exists f. split; [done|]. by apply list_elem_of_In.
Qed.

(** ** The rows before the snapshot *)

Lemma in_entries_of_feed feed d raw kind r :
  In (raw, kind, r) (entries_of_feed feed d) <-> db_entries d !! (feed, raw, kind) = Some r.
Proof.
  unfold entries_of_feed. rewrite <- list_elem_of_In, list_elem_of_omap. split.
  - intros ([[[f raw'] kind'] r'] & Hin & E). cbn in E. destruct (Z.eqb_spec f feed) as [->|]; [|done].
    injection E as -> -> ->. by apply elem_of_map_to_list in Hin.
  - intros Hk. exists ((feed, raw, kind), r). split; [by apply elem_of_map_to_list|]. cbn.
    by rewrite Z.eqb_refl.
Qed.

(** What [scan_existing] reads: the state of a row by its prefix and kind. *)
Lemma scan_existing_Ok m0 rows m :
  (forall raw kind r, In (raw, kind, r) rows ->
     exists p k, canonical p /\ raw = prefix_String p /\ kind = kind_value k) ->
  (forall raw kind r r', In (raw, kind, r) rows -> In (raw, kind, r') rows -> r = r') ->
  scan_existing m0 rows = Ok m ->
  forall p k v, m !! (p, k) = Some v <->
    (exists r, canonical p /\ In (prefix_String p, kind_value k, r) rows /\ v = (ey_active r, ey_missing r)) \/
    (m0 !! (p, k) = Some v /\ (canonical p -> forall r, ~ In (prefix_String p, kind_value k, r) rows)).
Proof.
  revert m0. induction rows as [|[[raw kind] r] rows IH]; intros m0 Hraw Hfun H p k v; cbn [scan_existing] in H.
  - injection H as <-. split; [intros Hv; right; by split; [|intros _ r []]|].
    by intros [(r & _ & [] & _)|[Hv _]].
  - destruct (Hraw raw kind r) as (p0 & k0 & Hc & -> & ->); [by left|].
    rewrite canonical_round_trip in H by done.
    assert (checkedNetworkKind (kind_value k0) = Ok k0) as Ek by (by destruct k0).
    rewrite Ek in H. cbn [rbind] in H.
    rewrite (IH _ (fun a b c Hin => Hraw a b c (or_intror Hin))
                  (fun a b c c' Hin Hin' => Hfun a b c c' (or_intror Hin) (or_intror Hin')) H p k v).
    destruct (decide ((p0, k0) = (p, k))) as [[= -> ->]|Hne].
    + rewrite lookup_insert_eq. split.
      * intros [(r' & Hp & Hin & ->)|[[= <-] _]]; left; [exists r'|exists r]; (split_and!; [done| |done]); cbn; auto.
      * intros [(r' & Hp & Hin & ->)|[_ Hno]]; [|exfalso; apply (Hno Hc r); by left].
        assert (r' = r) as -> by (eapply Hfun; [exact Hin|by left]).
        destruct (decide ((prefix_String p, kind_value k) ∈ map fst rows)) as [Hex|Hno].
        -- left. apply list_elem_of_fmap in Hex as ([[raw' kind'] r'] & E & Hin'). cbn in E.
           injection E as <- <-. apply list_elem_of_In in Hin'. exists r. split_and!; [done| |done].
           assert (r' = r) as <-; [eapply Hfun; [by right|by left]|done].
        -- right. split; [done|]. intros _ r' Hin'. apply Hno, list_elem_of_fmap. eexists (_, _, r').
           split; [done|]. by apply list_elem_of_In.
    + rewrite lookup_insert_ne by done.
      assert (canonical p -> forall r', In (prefix_String p, kind_value k, r') ((prefix_String p0, kind_value k0, r) :: rows)
                <-> In (prefix_String p, kind_value k, r') rows) as Hcons.
      { intros Hp r'. cbn. split; [|by right]. intros [[= E1 E2 _]|?]; [|done].
        apply prefix_String_inj in E1; [|done..]. apply kind_value_inj in E2. congruence. }
      split.
      * intros [(r' & Hp & Hin & ->)|[Hm Hno]]; [left; exists r'; split_and!; [done|by right|done]|right].
        split; [done|]. intros Hp r'. rewrite Hcons by done. by apply Hno.
      * intros [(r' & Hp & Hin & ->)|[Hm Hno]]; [left; exists r'; split_and!; [done|by apply Hcons|done]|right].
        split; [done|]. intros Hp r'. rewrite <- Hcons by done. by apply Hno.
Qed.

Lemma existing_of_db feed d m :
  feeds_ok d -> scan_existing ∅ (entries_of_feed feed d) = Ok m ->
  forall p k v, m !! (p, k) = Some v <->
    canonical p /\ exists r, db_entries d !! (feed, prefix_String p, kind_value k) = Some r /\
      v = (ey_active r, ey_missing r).
Proof.
  intros Hok H p k v. rewrite (scan_existing_Ok ∅ (entries_of_feed feed d) m); [| | |exact H].
  - split.
    + intros [(r & Hp & Hin & ->)|[Hm _]]; [|by rewrite lookup_empty in Hm].
      split; [done|]. exists r. by rewrite <- in_entries_of_feed.
    + intros (Hp & r & Hr & ->). left. exists r. by rewrite in_entries_of_feed.
  - intros raw kind r Hr. apply in_entries_of_feed, (fo_entry d Hok), eo_key in Hr as (p0 & k0 & Hr).
    exists p0, k0. tauto.
  - intros raw kind r r' Hr Hr'. apply in_entries_of_feed in Hr, Hr'. congruence.
Qed.

(** ** The loop over the entries *)

Lemma set_entries_twice s t d : set_entries s (set_entries t d) = set_entries s d.
Proof. done. Qed.

Definition count_entries (p : Entry -> bool) (entries : list Entry) : Z :=
  Z.of_nat (List.length (List.filter p entries)).

Lemma apply_entries_Ok feed now existing entries st w st' w' :
  entries_valid entries ->
  mfold (apply_entry feed now existing) st entries w = (Ok st', w') ->
  (exists E, sw_db w' = set_entries E (sw_db w) /\
     forall k, E !! k = match find_entry feed k entries with
                        | Some e => Some (seen_row (Masked (en_Prefix e)) now (db_entries (sw_db w) !! k))
                        | None => db_entries (sw_db w) !! k
                        end) /\
  (forall key, key ∈ st'.1 <-> key ∈ st.1 \/ exists e, In e entries /\ key = entry_key e) /\
  st'.2 = fold_left (fun r e => count_entry existing e r) entries st.2.
Proof.
  revert st w. induction entries as [|e entries IH]; intros st w Hv H; cbn [mfold] in H.
  - injection H as <- <-. split; [exists (db_entries (sw_db w)); split; [by destruct (sw_db w)|done]|].
    split; [|done]. intros key. split; [by left|]. by intros [?|(? & [] & _)].
  - apply mthen_ok in H as (st1 & w1 & H1 & H). unfold apply_entry in H1.
    apply mthen_ok in H1 as (u & w2 & H1 & H2). injection H2 as <- <-.
    apply wrap_Ok, update_db in H1 as [[_ E1]|[[? ?] _]]; [|done]. unfold upsert_entry in E1.
    fold (text_key feed e) in E1.
    apply IH in H as ((E & HE & Hk) & Hs & Hc); [|by eapply entries_valid_tail].
    split; [|split].
    + exists E. split; [by rewrite HE, E1, set_entries_twice|]. intros k. rewrite Hk, E1. cbn [db_entries set_entries].
      unfold find_entry. cbn [List.find]. fold (find_entry feed k entries).
      case_bool_decide as Hd; [|by rewrite lookup_insert_ne].
      rewrite <- Hd, lookup_insert_eq. destruct (find_entry feed (text_key feed e) entries) as [f|] eqn:Ef; [|done].
      apply find_entry_Some in Ef as [Hin Hf]. by apply (text_key_head feed e entries f Hv) in Hin.
    + intros key. rewrite Hs. cbn. rewrite elem_of_union, elem_of_singleton. split.
      * intros [[->|?]|(f & Hf & ->)]; [right; exists e; auto|by left|right; exists f; auto].
      * intros [?|(f & [<-|Hf] & ->)]; [by left; right|by left; left|right; by exists f].
    + exact Hc.
Qed.

Lemma count_entry_fold existing entries r :
  let r' := fold_left (fun r e => count_entry existing e r) entries r in
  sr_Added r' = sr_Added r + count_entries (fun e => bool_decide (existing !! entry_key e = None)) entries /\
  sr_Reactivated r' = sr_Reactivated r +
    count_entries (fun e => match (existing !! entry_key e : option (bool * Z)) with
                            | Some (active, _) => negb active | None => false end) entries.
Proof.
  cbv zeta. revert r. induction entries as [|e entries IH]; intros r; cbn [fold_left].
  - unfold count_entries. cbn [List.filter List.length Z.of_nat]. split; lia.
  - destruct (IH (count_entry existing e r)) as [-> ->]. unfold count_entries, count_entry. cbn [List.filter].
    destruct (existing !! entry_key e) as [[[] m]|] eqn:Ee.
    + rewrite bool_decide_false by done. cbn [negb]. split; lia.
    + rewrite bool_decide_false by done. cbn [negb List.length]. cbn [sr_Added sr_Reactivated add_Reactivated List.length]. split; lia.
    + rewrite bool_decide_true by done. cbn [sr_Added sr_Reactivated add_Added List.length negb]. split; lia.
Qed.

Lemma count_entries_ext (p q : Entry -> bool) entries :
  (forall e, In e entries -> p e = q e) -> count_entries p entries = count_entries q entries.
Proof.
  intros H. unfold count_entries. do 2 f_equal. induction entries as [|e entries IH]; cbn; [done|].
  rewrite (H e) by by left. rewrite IH by (intros f Hf; apply H; by right). done.
Qed.

(** ** The effect of a snapshot *)

(** A row of the feed that the snapshot does not hold. *)
Definition aged (grace : Z) (r : entry_row) : entry_row := deactivate_row grace (count_missing r).

Definition next_entry (feed now grace : Z) (entries : list Entry) (k : Z * string * Z)
    (old : option entry_row) : option entry_row :=
  match find_entry feed k entries with
  | Some e => Some (seen_row (Masked (en_Prefix e)) now old)
  | None => if k.1.1 =? feed then aged grace <$> old else old
  end.

(** The rows of the feed that were active and are missing from the snapshot. *)
Definition missed (feed : Z) (entries : list Entry) (k : Z * string * Z) (r : entry_row) : bool :=
  (k.1.1 =? feed) && ey_active r && bool_decide (find_entry feed k entries = None).

Record snapshot_effect (feed : Z) (snapshot : FeedSnapshot) (grace now : Z) (d : DB)
    (r : SnapshotResult) (d' : DB) : Prop := {
  se_entries : forall k, db_entries d' !! k = next_entry feed now grace (fsn_Entries snapshot) k (db_entries d !! k);
  se_feeds : db_feeds d' = alter (success_row snapshot now) feed (db_feeds d);
  se_others : d' = set_entries (db_entries d') (set_feeds (db_feeds d') d);
  se_added : sr_Added r = count_entries (fun e => bool_decide (db_entries d !! text_key feed e = None))
    (fsn_Entries snapshot);
  se_reactivated : sr_Reactivated r = count_entries (fun e =>
    match db_entries d !! text_key feed e with Some row => negb (ey_active row) | None => false end)
    (fsn_Entries snapshot);
  se_missing : sr_Missing r = count_rows (missed feed (fsn_Entries snapshot)) (db_entries d);
  se_deactivated : sr_Deactivated r = count_rows (fun k row =>
    missed feed (fsn_Entries snapshot) k row && (grace <=? ey_missing row + 1)) (db_entries d) }.

Lemma lookup_of_feed feed f d k :
  db_entries (of_feed feed f d) !! k =
  if k.1.1 =? feed then f <$> db_entries d !! k else db_entries d !! k.
Proof.
  unfold of_feed. cbn [db_entries set_entries]. rewrite map_lookup_imap.
  destruct (db_entries d !! k) as [r|]; cbn; by destruct (_ =? _).
Qed.

(** The key of an entry of the feed, by prefix and kind. *)
Definition key_of (feed : Z) (pk : Prefix * Kind) : Z * string * Z :=
  (feed, prefix_String pk.1, kind_value pk.2).

Lemma text_key_of feed e : text_key feed e = key_of feed (entry_key e).
Proof. done. Qed.

Lemma find_entry_key_of feed entries pk :
  entries_valid entries -> canonical pk.1 ->
  find_entry feed (key_of feed pk) entries = None <-> ~ exists e, In e entries /\ pk = entry_key e.
Proof.
  intros Hv Hc. split.
  - intros H (e & He & ->). by apply (find_entry_None _ _ _ H e He).
  - intros Hno. destruct (find_entry _ _ _) as [e|] eqn:E; [|done]. exfalso.
    apply find_entry_Some in E as [He E]. apply Hno. exists e. split; [done|].
    destruct pk as [p k]. unfold text_key, key_of in E. injection E as Ep Ek. cbn in Hc.
    destruct Hv as [_ Hcs _]. rewrite List.Forall_forall in Hcs.
    apply prefix_String_inj in Ep; [|by apply Hcs|done]. apply kind_value_inj in Ek.
    unfold entry_key. congruence.
Qed.

Lemma missing_entries_eq feed d existing entries present :
  feeds_ok d -> entries_valid entries -> scan_existing ∅ (entries_of_feed feed d) = Ok existing ->
  (forall key, key ∈ present <-> exists e, In e entries /\ key = entry_key e) ->
  missing_entries existing present = count_rows (missed feed entries) (db_entries d).
Proof.
  intros Hok Hv Hex Hp. pose proof (existing_of_db feed d existing Hok Hex) as He.
  unfold missing_entries. apply (count_rows_map (key_of feed)).
  - intros [p k] (v & Hm & Hc)%elem_of_counted. apply He in Hm as (Hcan & r & Hr & ->). cbn in Hc. to_prop.
    apply elem_of_counted. exists r. split; [done|]. unfold missed. cbn [key_of fst snd].
    rewrite Z.eqb_refl. cbn. apply andb_true_iff. split; [done|]. apply bool_decide_eq_true.
    apply (find_entry_key_of feed entries (p, k)); [done|done|]. rewrite <- Hp. done.
  - intros [[f raw] kind] (r & Hr & Hm)%elem_of_counted. unfold missed in Hm. to_prop. cbn in *. subst f.
    pose proof (fo_entry d Hok _ _ Hr) as [(p & k & Hcan & _ & _ & Ep & Ek & _) _ _]. cbn in Ep, Ek. subst raw kind.
    exists (p, k). split; [|done]. apply elem_of_counted. exists (ey_active r, ey_missing r).
    split; [apply He; eauto|]. cbn. apply andb_true_iff. split; [|done]. apply negb_true_iff, bool_decide_eq_false.
    rewrite Hp. by apply (find_entry_key_of feed entries (p, k)).
  - intros [p k] [p' k'] (v & Hm & _)%elem_of_counted (v' & Hm' & _)%elem_of_counted.
    apply He in Hm as (Hc & _). apply He in Hm' as (Hc' & _). unfold key_of. cbn. intros [= Ep Ek].
    apply prefix_String_inj in Ep; [|done..]. apply kind_value_inj in Ek. congruence.
Qed.

Lemma count_existing_eq feed d existing entries (f : option bool -> bool) :
  feeds_ok d -> entries_valid entries -> scan_existing ∅ (entries_of_feed feed d) = Ok existing ->
  count_entries (fun e => f (fst <$> (existing !! entry_key e : option (bool * Z)))) entries =
  count_entries (fun e => f (ey_active <$> db_entries d !! text_key feed e)) entries.
Proof.
  intros Hok Hv Hex. apply count_entries_ext. intros e He. f_equal. unfold entry_key.
  pose proof (existing_of_db feed d existing Hok Hex (Masked (en_Prefix e)) (en_Kind e)) as Hm.
  destruct Hv as [_ Hc _]. rewrite List.Forall_forall in Hc. specialize (Hc e He).
  destruct (existing !! _) as [v|].
  - destruct (proj1 (Hm v) eq_refl) as (_ & r & Hr & ->). unfold text_key. by rewrite Hr.
  - unfold text_key. destruct (db_entries d !! _) as [r|]; [|done]. exfalso.
    assert (None = Some (ey_active r, ey_missing r)) as [=]. apply Hm. eauto.
Qed.

Lemma apply_snapshot_Ok feed snapshot grace now w r w' :
  feeds_ok (sw_db w) -> entries_valid (fsn_Entries snapshot) -> 1 <= grace ->
  apply_snapshot feed snapshot grace now w = (Ok r, w') ->
  snapshot_effect feed snapshot grace now (sw_db w) r (sw_db w').
Proof.
  intros Hok Hv Hg H. unfold apply_snapshot in H. apply mthen_ok in H as (rows & w1 & H1 & H).
  apply wrap_Ok, query_db in H1 as [E1 Hrows]. specialize (Hrows rows eq_refl). subst rows.
  apply mthen_ok in H as (existing & w2 & H2 & H). unfold lift in H2.
  destruct (scan_existing _ _) as [ex|] eqn:Eex; [|done]. injection H2 as -> <-.
  apply mthen_ok in H as (u3 & w3 & H3 & H). apply wrap_Ok, update_db in H3 as [[_ E3]|[[? ?] _]]; [|done].
  apply mthen_ok in H as (st & w4 & H4 & H).
  apply apply_entries_Ok in H4 as ((E & E4 & HE) & Hpres & Hcount); [|done].
  apply mthen_ok in H as (n & w5 & H5 & H). apply wrap_Ok, stmt_db in H5 as [(? & ? & _)|(? & [= <-] & H5)]; [done|].
  unfold deactivate_missing in H5. injection H5 as <- E5. symmetry in E5.
  apply mthen_ok in H as (u6 & w6 & H6 & H). apply wrap_Ok, update_db in H6 as [[_ E6]|[[? ?] _]]; [|done].
  injection H as <- <-. rewrite E1 in *.
  assert (forall k, db_entries (sw_db w4) !! k =
    match find_entry feed k (fsn_Entries snapshot) with
    | Some e => Some (seen_row (Masked (en_Prefix e)) now (db_entries (sw_db w) !! k))
    | None => db_entries (of_feed feed count_missing (sw_db w)) !! k end) as H4.
  { intros k. rewrite E4. cbn [db_entries set_entries]. rewrite HE, E3, lookup_of_feed.
    destruct (find_entry _ _ _) as [e|] eqn:Ef; [|done].
    apply find_entry_Some in Ef as [_ <-]. cbn [text_key fst snd]. rewrite Z.eqb_refl. unfold seen_row, count_missing.
    destruct (db_entries (sw_db w) !! _) as [row|]; cbn; [|done]. by destruct (ey_active row). }
  destruct (count_entry_fold existing (fsn_Entries snapshot) (MkSnapshotResult 0 0 0 0)) as [Ha Hr].
  cbn [fst snd] in Hcount. rewrite <- Hcount in Ha, Hr. cbn [sr_Added sr_Reactivated] in Ha, Hr.
  split; cbn [sr_Added sr_Reactivated sr_Missing sr_Deactivated].
  - intros k. rewrite E6. unfold update_feed. cbn [db_entries set_feeds]. rewrite E5, lookup_of_feed, H4.
    unfold next_entry. destruct (find_entry _ _ _) as [e|] eqn:Ef.
    + apply find_entry_Some in Ef as [_ <-]. cbn [text_key fst snd]. rewrite Z.eqb_refl. cbn.
      unfold deactivate_row, expired_entry. cbn [seen_row ey_active ey_missing].
      by rewrite (proj2 (Z.leb_gt grace 0)) by lia.
    + rewrite lookup_of_feed. destruct (_ =? _); [|done]. unfold aged. by destruct (db_entries _ !! k).
  - rewrite E6. unfold update_feed. cbn [db_feeds set_feeds]. by rewrite E5, E4, E3.
  - rewrite E6, E5, E4, E3. done.
  - rewrite Ha, Z.add_0_l.
    pose proof (count_existing_eq feed (sw_db w) existing (fsn_Entries snapshot)
      (fun o => bool_decide (o = None)) Hok Hv Eex) as Hc.
    etransitivity; [|etransitivity; [exact Hc|]]; apply count_entries_ext; intros e _; apply bool_decide_ext.
    + by destruct (existing !! _).
    + by destruct (db_entries _ !! _).
  - rewrite Hr, Z.add_0_l.
    pose proof (count_existing_eq feed (sw_db w) existing (fsn_Entries snapshot)
      (fun o => match o with Some b => negb b | None => false end) Hok Hv Eex) as Hc.
    etransitivity; [|etransitivity; [exact Hc|]]; apply count_entries_ext; intros e _.
    + by destruct (existing !! _) as [[]|].
    + by destruct (db_entries _ !! _).
  - apply missing_entries_eq; [done|done|done|]. intros key. rewrite Hpres. cbn. set_solver.
  - unfold count_expired. apply (count_rows_map id); [| |done].
    + intros k (row & Hk & Hc)%elem_of_counted. rewrite H4, lookup_of_feed in Hk. to_prop. cbn [id] in *.
      unfold expired_entry in *. to_prop. destruct (find_entry _ _ _) eqn:Ef.
      * injection Hk as <-. cbn in *. lia.
      * rewrite (proj2 (Z.eqb_eq _ _)) in Hk by done. apply fmap_Some in Hk as (row0 & Hk & ->).
        apply elem_of_counted. exists row0. split; [done|]. unfold missed. unfold count_missing in *.
        destruct (ey_active row0) eqn:Ea; cbn [ey_active ey_missing] in *; [|congruence].
        rewrite Ef, (proj2 (Z.eqb_eq _ _)) by done. cbn. apply Z.leb_le. lia.
    + intros k (row0 & Hk & Hc)%elem_of_counted. exists k. split; [|done]. unfold missed in Hc. to_prop.
      apply elem_of_counted. exists (count_missing row0).
      rewrite H4, lookup_of_feed, Hk. rewrite (proj2 (Z.eqb_eq _ _)) by done.
      match goal with H : find_entry _ _ _ = None |- _ => rewrite H end. split; [done|].
      unfold count_missing, expired_entry. match goal with H : ey_active _ = true |- _ => rewrite H end. cbn.
      by apply Z.leb_le.
Qed.

(** ** Calls of the feed repository *)

Inductive feed_call : Type :=
| CallEnsureFeeds (definitions : list FeedDefinition) (now : Time)
| CallFeedByName (name : string)
| CallListFeeds
| CallApplyFeedSnapshot (name : string) (snapshot : FeedSnapshot) (grace : Z) (now : Time)
| CallRecordFeedFailure (name category : string) (now nextAttempt : Time)
| CallRecordFeedNotModified (name etag lastModified : string) (now : Time)
| CallListFeedEntries (name : string) (includeInactive : bool)
| CallListActiveEntries.

Definition feed_exec (c : feed_call) : Store unit :=
  match c with
  | CallEnsureFeeds definitions now => void (EnsureFeeds definitions now)
  | CallFeedByName name => void (FeedByName name)
  | CallListFeeds => void ListFeeds
  | CallApplyFeedSnapshot name snapshot grace now => void (ApplyFeedSnapshot name snapshot grace now)
  | CallRecordFeedFailure name category now nextAttempt => RecordFeedFailure name category now nextAttempt
  | CallRecordFeedNotModified name etag lastModified now => RecordFeedNotModified name etag lastModified now
  | CallListFeedEntries name includeInactive => void (ListFeedEntries name includeInactive)
  | CallListActiveEntries => void ListActiveEntries
  end.

(** The prefixes handed in are values of the Go type. *)
Definition feed_call_wf (c : feed_call) : Prop :=
  match c with
  | CallApplyFeedSnapshot _ snapshot _ _ => List.Forall (fun e => prefix_wf (en_Prefix e)) (fsn_Entries snapshot)
  | _ => True
  end.

(** The statements that change the database. *)
Record feed_statements_do (R : DB -> DB -> Prop) : Prop := {
  fs_disable : forall d, R d (disable_feeds d);
  fs_upsert : forall f now d, validFeedDefinition f = true -> R d (upsert_feed now f d);
  fs_missing : forall feed d, R d (of_feed feed count_missing d);
  fs_entry : forall feed now e d, entry_accepted e = true -> prefix_wf (en_Prefix e) ->
    is_Some (db_feeds d !! feed) -> R d (upsert_entry feed now e d);
  fs_deactivate : forall feed grace d, R d (of_feed feed (deactivate_row grace) d);
  fs_update : forall feed f d, (forall r, fr_name (f r) = fr_name r) -> R d (update_feed feed f d) }.

Lemma update_named_is_update name p f d n d' :
  update_named name p f d = Ok (n, d') -> d' = d \/ exists id, d' = update_feed id f d.
Proof.
  unfold update_named. destruct (feed_by_name name d) as [id|]; [|intros [= _ <-]; by left].
  destruct (db_feeds d !! id) as [r|] eqn:E; [|intros [= _ <-]; by left].
  destruct (p r); intros [= _ <-]; [right|by left]. exists id. unfold update_feed.
  by rewrite (alter_as_insert _ _ _ r).
Qed.

Lemma does_update_named R `{!PreOrder R} (Hs : feed_statements_do R) name p f e :
  (forall r, fr_name (f r) = fr_name r) ->
  does R (let! n := wrap state.ErrQuery (stmt (update_named name p f)) in require (n =? 1) e).
Proof.
  intros Hf. does_tac. apply does_stmt; [apply _|]. intros d n d' H.
  apply update_named_is_update in H as [->|(id & ->)]; [reflexivity|by apply (fs_update R Hs)].
Qed.

(** What holds while the feed exists, which every statement preserves. *)
Definition while_feed (R : DB -> DB -> Prop) (feed : Z) (d d' : DB) : Prop :=
  is_Some (db_feeds d !! feed) -> R d d' /\ is_Some (db_feeds d' !! feed).

#[export] Instance while_feed_preorder R `{!PreOrder R} feed : PreOrder (while_feed R feed).
Proof.
  split.
  - intros d H. split; [reflexivity|done].
  - intros a b c H1 H2 H. destruct (H1 H) as [H3 H4]. destruct (H2 H4) as [H5 H6].
    split; [by transitivity b|done].
Qed.

(** The loops whose bodies rely on what was validated before. *)
Lemma does_for_Forall R `{!PreOrder R} {A} (P : A -> Prop) (body : A -> Store unit) xs :
  List.Forall P xs -> (forall x, P x -> does R (body x)) -> does R (mfor body xs).
Proof.
  intros Hxs Hb. induction Hxs as [|x xs Hx Hxs IH]; cbn [mfor]; [apply does_mok, _|].
  apply does_then; [apply _|by apply Hb|by intros _].
Qed.

Lemma does_fold_Forall R `{!PreOrder R} {A B} (P : A -> Prop) (body : B -> A -> Store B) acc xs :
  List.Forall P xs -> (forall b x, P x -> does R (body b x)) -> does R (mfold body acc xs).
Proof.
  intros Hxs Hb. revert acc. induction Hxs as [|x xs Hx Hxs IH]; intros acc; cbn [mfold]; [apply does_mok, _|].
  apply does_then; [apply _|by apply Hb|intros b; apply IH].
Qed.

Lemma apply_snapshot_does R `{!PreOrder R} (Hs : feed_statements_do R) feed snapshot grace now :
  List.Forall (fun e => entry_accepted e = true /\ prefix_wf (en_Prefix e)) (fsn_Entries snapshot) ->
  does (while_feed R feed) (apply_snapshot feed snapshot grace now).
Proof.
  intros Hall. unfold apply_snapshot.
  apply does_then; [apply _|does_tac|intros rows]. apply does_then; [apply _|does_tac|intros existing].
  apply does_then; [apply _| |intros _].
  { apply does_wrap, does_update; [apply _|]. intros d H. split; [by apply (fs_missing R Hs)|done]. }
  apply does_then; [apply _| |intros st].
  { eapply does_fold_Forall; [apply _|exact Hall|]. intros st e [He Hwf]. unfold apply_entry. does_tac.
    apply does_update; [apply _|]. intros d H. split; [by apply (fs_entry R Hs)|done]. }
  does_tac.
  - apply does_stmt; [apply _|]. intros d n d' [= _ <-] H. split; [by apply (fs_deactivate R Hs)|done].
  - apply does_update; [apply _|]. intros d H. split; [by apply (fs_update R Hs)|].
    unfold update_feed. cbn. rewrite lookup_alter_eq. by apply fmap_is_Some.
Qed.

Lemma snapshot_body_does R `{!PreOrder R} (Hs : feed_statements_do R) name snapshot grace now :
  List.Forall (fun e => entry_accepted e = true /\ prefix_wf (en_Prefix e)) (fsn_Entries snapshot) ->
  does R (snapshot_body name snapshot grace now).
Proof.
  intros Hall w r w' H. unfold snapshot_body, mthen in H.
  destruct (wrap _ _ w) as [[feed|e] w1] eqn:E1.
  2:{ injection H as _ <-. eapply (does_wrap R); [|exact E1]. apply does_query, _. }
  apply wrap_Ok, query_db in E1 as [E1 Hf]. specialize (Hf feed eq_refl). rewrite <- E1 in Hf |- *.
  destruct feed as [id|]; [|by injection H as _ <-].
  apply (apply_snapshot_does R Hs id) in H; [|done]. apply H.
  symmetry in Hf. apply find_row_Some in Hf as (row & Hrow & _). eauto.
Qed.

Lemma validate_definitions_all seen definitions :
  validate_definitions seen definitions = true ->
  List.Forall (fun f => validFeedDefinition f = true) definitions.
Proof.
  revert seen. induction definitions as [|f fs IH]; intros seen; cbn [validate_definitions]; [constructor|].
  destruct (validFeedDefinition f) eqn:Ef; cbn [negb]; [|done]. case_bool_decide; [done|].
  intros Hv. constructor; [done|]. by eapply IH.
Qed.

(** Every call is a sequence of the statements above. *)
Lemma feed_exec_does R `{!PreOrder R} (Hs : feed_statements_do R) c :
  feed_call_wf c -> does R (feed_exec c).
Proof.
  intros Hwf.
  assert (forall A (m : Store A), does R m -> does R (void m)) as Hvoid.
  { intros A m Hm. unfold void. by does_tac. }
  destruct c; cbn [feed_exec]; try apply Hvoid.
  - unfold EnsureFeeds. apply require_then; [apply _|intros _]. apply require_then; [apply _|intros Hv].
    apply does_tx; [apply _|]. unfold ensure_body. apply does_then; [apply _| |intros _].
    + apply does_wrap, does_update; [apply _|]. apply (fs_disable R Hs).
    + apply does_then; [apply _| |intros _].
      * eapply does_for_Forall; [apply _|by eapply validate_definitions_all|]. intros f Hf.
        apply does_wrap, does_update; [apply _|]. intros d. by apply (fs_upsert R Hs).
      * does_tac. apply does_stmt; [apply _|]. intros d a d'. destruct (select_feed _ d); [|done].
        intros [= _ <-]. reflexivity.
  - unfold FeedByName. does_tac. destruct (_ : option FeedRecord); does_tac.
  - unfold ListFeeds. does_tac.
  - unfold ApplyFeedSnapshot. apply require_then; [apply _|intros _].
    apply require_then; [apply _|intros Hv]. apply does_tx; [apply _|].
    apply (snapshot_body_does R Hs). destruct (validateSnapshot_facts snapshot grace Hv Hwf) as (_ & [Ha _ _]).
    cbn [feed_call_wf] in Hwf. rewrite List.Forall_forall in *. intros e He. split; [by apply Ha|by apply Hwf].
  - unfold RecordFeedFailure. apply require_then; [apply _|intros _]. by apply does_update_named.
  - unfold RecordFeedNotModified. apply require_then; [apply _|intros _]. by apply does_update_named.
  - unfold ListFeedEntries, queryEntries. does_tac.
  - unfold ListActiveEntries, queryEntries. does_tac.
Qed.

(** The invariant of the feeds. *)

Lemma entry_ok_feeds d d' k r :
  (forall i, is_Some (db_feeds d !! i) -> is_Some (db_feeds d' !! i)) -> entry_ok d k r -> entry_ok d' k r.
Proof. intros Hi [Hk Hf Hm]. split; auto. Qed.

Lemma feeds_ok_rows d t :
  feeds_ok d -> (forall i r', t !! i = Some r' -> exists r, db_feeds d !! i = Some r /\ fr_name r' = fr_name r) ->
  (forall i, is_Some (db_feeds d !! i) -> is_Some (t !! i)) -> feeds_ok (set_feeds t d).
Proof.
  intros [H0 H1 H2 H3] Ht Hex. split; cbn.
  - intros i r' Hi. destruct (Ht i r' Hi) as (r & Hr & _). by eapply H0.
  - intros i r' Hi. destruct (Ht i r' Hi) as (r & Hr & ->). by eapply H1.
  - intros i j r s Hi Hj E. destruct (Ht i r Hi) as (r0 & Hr & Er). destruct (Ht j s Hj) as (s0 & Hs & Es).
    eapply H2; [done|done|congruence].
  - intros k r Hk. by apply (entry_ok_feeds d); [|apply H3].
Qed.

Lemma feeds_ok_of_feed feed f d :
  (forall r, ey_family (f r) = ey_family r /\ ey_bits (f r) = ey_bits r) ->
  (forall r, 0 <= ey_missing r -> 0 <= ey_missing (f r)) -> feeds_ok d -> feeds_ok (of_feed feed f d).
Proof.
  intros Hf Hm [H0 H1 H2 H3]. split; [done..|]. intros k r Hk. rewrite lookup_of_feed in Hk.
  apply (entry_ok_feeds d); [done|].
  destruct (_ =? _); [|by apply H3]. apply fmap_Some in Hk as (r0 & Hk & ->).
  destruct (H3 k r0 Hk) as [(p & kind & Hkey) Hfeed Hmiss]. destruct (Hf r0) as [Ef Eb].
  split; [exists p, kind; by rewrite Ef, Eb|done|by apply Hm].
Qed.

Lemma feeds_ok_statements : feed_statements_do (keeps feeds_ok).
Proof.
  split.
  - intros d Hok. apply feeds_ok_rows; [done| |].
    + intros i r' Hi. rewrite lookup_fmap in Hi. apply fmap_Some in Hi as (r & Hr & ->). eauto.
    + intros i Hi. rewrite lookup_fmap. by apply fmap_is_Some.
  - intros f now d Hv Hok. unfold upsert_feed. destruct (feed_by_name (fd_Name f) d) as [id|] eqn:E.
    + apply feeds_ok_rows; [done| |].
      * intros i r' Hi. apply lookup_alter_Some in Hi as [(-> & r & Hr & ->)|[_ Hi]]; eauto.
      * intros i Hi. by rewrite lookup_alter_is_Some.
    + pose proof Hok as [H0 H1 H2 H3]. assert (match_feed_name (fd_Name f) = true) as Hn.
      { unfold validFeedDefinition in Hv. by to_prop. }
      assert (forall j s, db_feeds d !! j = Some s -> fr_name s <> fd_Name f) as Hu.
      { intros j s Hj Hs. apply (find_row_None _ _ E j s) in Hj. by rewrite Hs, String.eqb_refl in Hj. }
      split; cbn.
      * intros i r Hi. apply lookup_insert_Some in Hi as [[<- _]|[_ Hi]]; [apply next_id_pos|by eapply H0].
      * intros i r Hi. apply lookup_insert_Some in Hi as [[<- <-]|[_ Hi]]; [done|by eapply H1].
      * intros i j r s Hi Hj Er. apply lookup_insert_Some in Hi as [[<- <-]|[Hni Hi]];
          apply lookup_insert_Some in Hj as [[<- <-]|[Hnj Hj]]; [done| | |by eapply H2].
        -- exfalso. by apply (Hu j s Hj).
        -- exfalso. by apply (Hu i r Hi).
      * intros k r Hk. apply (entry_ok_feeds d); [|by apply H3]. intros i Hi.
        by apply lookup_insert_is_Some'; right.
  - intros feed d Hok. apply feeds_ok_of_feed; [| |done]; intros r; unfold count_missing; destruct (ey_active r); cbn; (done || lia).
  - intros feed now e d Ha Hwf Hf Hok. destruct (entry_accepted_facts e Ha) as [Hs Hk].
    destruct Hok as [H0 H1 H2 H3]. split; [done..|]. intros k r Hr. unfold upsert_entry in Hr. cbn in Hr.
    apply (entry_ok_feeds d); [done|].
    apply lookup_insert_Some in Hr as [[<- <-]|[_ Hr]]; [|exact (H3 k r Hr)]. split; cbn; [|done|lia].
    exists (Masked (en_Prefix e)), (en_Kind e). split_and!; [|done..]. apply safe_canonical; [|done]. by apply Masked_wf.
  - intros feed grace d Hok. apply feeds_ok_of_feed; [| |done]; intros r; unfold deactivate_row; destruct (expired_entry _ _); done.
  - intros feed f d Hf Hok. apply feeds_ok_rows; [done| |].
    + intros i r' Hi. apply lookup_alter_Some in Hi as [(-> & r & Hr & ->)|[_ Hi]]; eauto.
    + intros i Hi. by rewrite lookup_alter_is_Some.
Qed.
