(* ===== verification/StateHistory.v ===== *)
(** * The store over time

    The properties of the feed repository, and the invariants of the whole
    store through any history of calls of both repositories. *)

From S2P Require Export StatePlan StateSnapshot.

(** ** Snapshots *)

(** C7: a successful [ApplyFeedSnapshot] refreshes exactly the entries of the
    snapshot, counts one missing run for every other active entry of the feed
    and deactivates it when it has missed [grace] runs, leaves inactive
    entries and other feeds alone, moves the cursor of the feed, and returns
    the exact number of added, reactivated, missing and deactivated
    entries. *)
Theorem ApplyFeedSnapshot_exact name snapshot grace now w r w' :
  feeds_ok (sw_db w) -> List.Forall (fun e => prefix_wf (en_Prefix e)) (fsn_Entries snapshot) ->
  ApplyFeedSnapshot name snapshot grace now w = (Ok r, w') ->
  exists feed row, db_feeds (sw_db w) !! feed = Some row /\ fr_name row = name /\
    snapshot_effect feed snapshot grace (unix now) (sw_db w) r (sw_db w').
Proof.
  intros Hok Hwf H. unfold ApplyFeedSnapshot in H. apply require_Ok in H as [_ H].
  apply require_Ok in H as [Hv H]. destruct (validateSnapshot_facts snapshot grace Hv Hwf) as [Hg Hev].
  apply tx_Ok in H as (w1 & w2 & E1 & H & E2). rewrite <- E1 in Hok |- *. rewrite E2.
  unfold snapshot_body in H. apply mthen_ok in H as (feed & w3 & H3 & H).
  apply wrap_Ok, query_db in H3 as [E3 Hf]. specialize (Hf feed eq_refl). rewrite <- E3 in Hf, Hok |- *.
  destruct feed as [id|]; [|done]. apply apply_snapshot_Ok in H; [|done|done|lia].
  symmetry in Hf. apply find_row_Some in Hf as (row & Hrow & Hn). apply String.eqb_eq in Hn. eauto.
Qed.

Definition ex_version : string := sha256_hex "version".
Definition ex_entries : list Entry :=
  [MkEntry (MkPrefix (Addr4 134744072) 32) KindIP; MkEntry (MkPrefix (Addr4 151584768) 16) KindRange].
Definition ex_snapshot (entries : list Entry) : FeedSnapshot := MkFeedSnapshot ex_version "etag" "" entries 0.

Lemma ex_feeds_ok : feeds_ok ex_db.
Proof.
  assert (forall i r, db_feeds ex_db !! i = Some r -> 0 < i /\ match_feed_name (fr_name r) = true) as H.
  { intros i r Hi. cbn in Hi. apply lookup_insert_Some in Hi as [[<- <-]|[_ Hi]]; [done|].
    apply lookup_singleton_Some in Hi as [<- <-]. done. }
  split; cbn; [by apply H|by apply H| |done].
  - intros i j r s Hi Hj. apply lookup_insert_Some in Hi as [[<- <-]|[_ Hi]];
      apply lookup_insert_Some in Hj as [[<- <-]|[_ Hj]];
      repeat match goal with H : _ !! _ = Some _ |- _ => apply lookup_singleton_Some in H as [<- <-] end; done.
Qed.

Lemma ex_entries_wf : List.Forall (fun e => prefix_wf (en_Prefix e)) ex_entries.
Proof. by repeat constructor; apply prefix_wfb_true; vm_compute. Qed.

Lemma ApplyFeedSnapshot_exact_witness :
  exists r w' feed, ApplyFeedSnapshot "ranges" (ex_snapshot ex_entries) 2 ex_now (MkSW ex_db []) = (Ok r, w') /\
    snapshot_effect feed (ex_snapshot ex_entries) 2 (unix ex_now) ex_db r (sw_db w').
Proof.
  pose (c := ApplyFeedSnapshot "ranges" (ex_snapshot ex_entries) 2 ex_now (MkSW ex_db [])).
  assert (exists r w', c = (Ok r, w')) as (r & w' & E) by (vm_compute; eauto).
  destruct (ApplyFeedSnapshot_exact "ranges" (ex_snapshot ex_entries) 2 ex_now (MkSW ex_db []) r w'
    ex_feeds_ok ex_entries_wf E) as (feed & row & _ & _ & Heff).
  exists r, w', feed. split; [exact E|exact Heff].
Defined.

(** *** The grace period *)

(** The snapshots of a feed, one after the other. *)
Definition apply_snapshots (name : string) (grace : Z) (ss : list (FeedSnapshot * Time)) : Store unit :=
  mfor (fun s => void (ApplyFeedSnapshot name s.1 grace s.2)) ss.

Definition snapshot_wf (s : FeedSnapshot * Time) : Prop :=
  List.Forall (fun e => prefix_wf (en_Prefix e)) (fsn_Entries s.1).

(** The snapshot holds an entry of this prefix and kind. *)
Definition holds (s : FeedSnapshot * Time) (key : Prefix * Kind) : Prop :=
  exists e, In e (fsn_Entries s.1) /\ entry_key e = key.

Lemma aged_active grace r :
  ey_missing r < grace -> ey_active r = true ->
  ey_active (aged grace r) = (ey_missing r + 1 <? grace) /\ ey_missing (aged grace r) = ey_missing r + 1 /\
  ey_last_seen (aged grace r) = ey_last_seen r.
Proof.
  intros Hm Ha. unfold aged, deactivate_row, expired_entry, count_missing. rewrite Ha. cbn [ey_active ey_missing].
  destruct (Z.leb_spec grace (ey_missing r + 1)); cbn; (split_and!; [|done|done]); symmetry;
    [apply Z.ltb_ge|apply Z.ltb_lt]; lia.
Qed.

Lemma aged_inactive grace r : ey_active r = false -> aged grace r = r.
Proof. intros Ha. unfold aged, count_missing. rewrite Ha. unfold deactivate_row, expired_entry. by rewrite Ha. Qed.

Lemma ApplyFeedSnapshot_feeds_ok name snapshot grace now w r w' :
  snapshot_wf (snapshot, now) -> ApplyFeedSnapshot name snapshot grace now w = (r, w') ->
  feeds_ok (sw_db w) -> feeds_ok (sw_db w').
Proof.
  intros Hwf H Hok.
  apply (feed_exec_does (keeps feeds_ok) feeds_ok_statements (CallApplyFeedSnapshot name snapshot grace now) Hwf w
    (match r with Ok _ => Ok tt | Err e => Err e end) w'); [|exact Hok].
  cbn [feed_exec]. unfold void, mthen. rewrite H. by destruct r.
Qed.

(** Snapshots without an entry age its row. *)
Lemma absent_snapshots name grace ss key feed row r w u w' :
  feeds_ok (sw_db w) -> canonical key.1 -> List.Forall snapshot_wf ss -> List.Forall (fun s => ~ holds s key) ss ->
  db_feeds (sw_db w) !! feed = Some row -> fr_name row = name ->
  db_entries (sw_db w) !! key_of feed key = Some r ->
  apply_snapshots name grace ss w = (Ok u, w') ->
  db_entries (sw_db w') !! key_of feed key = Some (Nat.iter (List.length ss) (aged grace) r).
Proof.
  intros Hok Hcan Hwf Hno. revert w r row Hok. induction ss as [|[s t] ss IH]; intros w r row Hok Hrow Hn Hr H;
    unfold apply_snapshots in H; cbn [mfor] in H.
  - by injection H as _ <-.
  - apply List.Forall_cons_iff in Hwf as [Hwfs Hwf]. apply List.Forall_cons_iff in Hno as [Hnos Hno].
    apply mthen_ok in H as (u1 & w1 & H1 & H). unfold void in H1. apply mthen_ok in H1 as (res & w2 & H1 & H2).
    injection H2 as _ <-. pose proof (ApplyFeedSnapshot_feeds_ok _ _ _ _ _ _ _ Hwfs H1 Hok) as Hok1.
    pose proof H1 as Hv. unfold ApplyFeedSnapshot in Hv. apply require_Ok in Hv as [_ Hv].
    apply require_Ok in Hv as [Hv _]. destruct (validateSnapshot_facts _ _ Hv Hwfs) as [_ Hev].
    apply ApplyFeedSnapshot_exact in H1 as (feed' & row' & Hrow' & Hn' & Heff); [|done|done].
    assert (feed' = feed) as -> by (eapply (fo_unique _ Hok); [exact Hrow'|exact Hrow|congruence]).
    assert (db_feeds (sw_db w2) !! feed = Some (success_row s (unix t) row)) as Hrow2.
    { rewrite (se_feeds _ _ _ _ _ _ _ Heff), lookup_alter_eq, Hrow. done. }
    assert (db_entries (sw_db w2) !! key_of feed key = Some (aged grace r)) as Hr2.
    { rewrite (se_entries _ _ _ _ _ _ _ Heff), Hr. unfold next_entry.
      cbn [fst]. rewrite (proj2 (find_entry_key_of feed (fsn_Entries s) key Hev Hcan)).
      - cbn. by rewrite Z.eqb_refl.
      - intros (e & He & E). apply Hnos. by exists e. }
    rewrite (IH Hwf Hno w2 _ _ Hok1 Hrow2 Hn Hr2 H). cbn [List.length]. f_equal.
    apply Nat.iter_swap.
Qed.

Lemma iter_aged grace r n :
  ey_missing r < grace -> ey_active r = true ->
  let r' := Nat.iter n (aged grace) r in
  ey_active r' = (ey_missing r + Z.of_nat n <? grace) /\ ey_last_seen r' = ey_last_seen r /\
  (ey_active r' = true -> ey_missing r' = ey_missing r + Z.of_nat n).
Proof.
  intros Hm Ha. cbv zeta. induction n as [|n (IH1 & IH2 & IH3)].
  - cbn [Nat.iter nat_rect]. rewrite Z.add_0_r. split_and!; [|done|done]. rewrite Ha. symmetry. by apply Z.ltb_lt.
  - rewrite Nat2Z.inj_succ. change (Nat.iter (S n) (aged grace) r) with (aged grace (Nat.iter n (aged grace) r)).
    destruct (ey_active (Nat.iter n (aged grace) r)) eqn:Ea.
    + specialize (IH3 eq_refl). symmetry in IH1. apply Z.ltb_lt in IH1.
      destruct (aged_active grace (Nat.iter n (aged grace) r)) as (-> & -> & ->); [lia|done|].
      split_and!; [|done|intros _; lia]. rewrite IH3. f_equal. lia.
    + symmetry in IH1. apply Z.ltb_ge in IH1. rewrite aged_inactive by done. split_and!; [|done|by rewrite Ea].
      rewrite Ea. symmetry. apply Z.ltb_ge. lia.
Qed.

(** an entry is enforced for exactly [grace - 1] snapshots of its feed
    that do not hold it: after a snapshot that holds the entry and any number
    of snapshots without it, its row still has the time it was last seen, and
    is active exactly when fewer than [grace] snapshots missed it. *)
Theorem snapshot_grace name grace s ss e w u w' :
  feeds_ok (sw_db w) -> List.Forall snapshot_wf (s :: ss) -> In e (fsn_Entries s.1) ->
  List.Forall (fun s => ~ holds s (entry_key e)) ss ->
  apply_snapshots name grace (s :: ss) w = (Ok u, w') ->
  exists feed r, db_entries (sw_db w') !! text_key feed e = Some r /\
    ey_last_seen r = unix s.2 /\ (ey_active r = true <-> Z.of_nat (List.length ss) < grace).
Proof.
  intros Hok Hwf He Hno H. apply List.Forall_cons_iff in Hwf as [Hwfs Hwf].
  unfold apply_snapshots in H. cbn [mfor] in H. apply mthen_ok in H as (u1 & w1 & H1 & H).
  unfold void in H1. apply mthen_ok in H1 as (res & w2 & H1 & H2). injection H2 as _ <-.
  pose proof (ApplyFeedSnapshot_feeds_ok _ _ _ _ _ _ _ Hwfs H1 Hok) as Hok1.
  pose proof H1 as Hv. unfold ApplyFeedSnapshot in Hv. apply require_Ok in Hv as [_ Hv].
  apply require_Ok in Hv as [Hv _]. destruct (validateSnapshot_facts _ _ Hv Hwfs) as [Hg Hev].
  apply ApplyFeedSnapshot_exact in H1 as (feed & row & Hrow & Hn & Heff); [|done|done].
  assert (db_feeds (sw_db w2) !! feed = Some (success_row s.1 (unix s.2) row)) as Hrow2.
  { rewrite (se_feeds _ _ _ _ _ _ _ Heff), lookup_alter_eq, Hrow. done. }
  assert (exists r, db_entries (sw_db w2) !! text_key feed e = Some r /\ ey_missing r = 0 /\
    ey_active r = true /\ ey_last_seen r = unix s.2) as (r & Hr & Hm & Ha & Hl).
  { rewrite (se_entries _ _ _ _ _ _ _ Heff). unfold next_entry.
    destruct (find_entry feed (text_key feed e) (fsn_Entries s.1)) as [f|] eqn:Ef; [by eexists|].
    exfalso. by apply (find_entry_None _ _ _ Ef e). }
  pose proof Hev as [_ Hcan _]. rewrite List.Forall_forall in Hcan.
  rewrite text_key_of in Hr.
  pose proof (absent_snapshots name grace ss (entry_key e) feed _ r w2 u w' Hok1 (Hcan e He) Hwf Hno Hrow2 Hn Hr H) as Hfin.
  destruct (iter_aged grace r (List.length ss)) as (Hact & Hseen & _); [lia|done|].
  exists feed, (Nat.iter (List.length ss) (aged grace) r). rewrite text_key_of. split_and!; [done|congruence|].
  rewrite Hact, Hm, Z.add_0_l. apply Z.ltb_lt.
Qed.

Definition ex_two_misses : list (FeedSnapshot * Time) :=
  [(ex_snapshot [MkEntry (MkPrefix (Addr4 151584768) 16) KindRange], time_Add ex_now Hour);
   (ex_snapshot [MkEntry (MkPrefix (Addr4 151584768) 16) KindRange], time_Add ex_now (2 * Hour))].

Lemma ex_two_misses_wf : List.Forall snapshot_wf ex_two_misses.
Proof.
  apply List.Forall_forall. intros s [<-|[<-|[]]]; (apply List.Forall_cons; [|constructor]);
    by apply prefix_wfb_true; vm_compute.
Qed.

Lemma ex_two_misses_absent :
  List.Forall (fun s => ~ holds s (MkPrefix (Addr4 134744072) 32, KindIP)) ex_two_misses.
Proof. apply List.Forall_forall. intros s [<-|[<-|[]]] (f & [<-|[]] & Ek); discriminate Ek. Qed.

Lemma snapshot_grace_witness :
  exists w' feed r, apply_snapshots "ranges" 2 ((ex_snapshot ex_entries, ex_now) :: ex_two_misses) (MkSW ex_db []) = (Ok tt, w') /\
    db_entries (sw_db w') !! text_key feed (MkEntry (MkPrefix (Addr4 134744072) 32) KindIP) = Some r /\
    (ey_active r = true <-> 2 < 2).
Proof.
  pose (c := apply_snapshots "ranges" 2 ((ex_snapshot ex_entries, ex_now) :: ex_two_misses) (MkSW ex_db [])).
  assert (exists w', c = (Ok tt, w')) as (w' & E) by (vm_compute; eauto).
  destruct (snapshot_grace "ranges" 2 (ex_snapshot ex_entries, ex_now) ex_two_misses
    (MkEntry (MkPrefix (Addr4 134744072) 32) KindIP) (MkSW ex_db []) tt w') as (feed & r & Hr & _ & Ha).
  - exact ex_feeds_ok.
  - apply List.Forall_cons; [exact ex_entries_wf|exact ex_two_misses_wf].
  - by left.
  - exact ex_two_misses_absent.
  - exact E.
  - exists w', feed, r. split_and!; [exact E|exact Hr|exact Ha].
Defined.

(** ** Reading the entries *)

(** A record shows a row of an entry and its feed. *)
Record shows_entry (k : Z * string * Z) (f : feed_row) (r : entry_row) (e : StoredEntry) : Prop := {
  sh_feed : se_FeedID e = k.1.1 /\ se_FeedName e = fr_name f;
  sh_key : prefix_String (en_Prefix (se_Entry e)) = k.1.2 /\ kind_value (en_Kind (se_Entry e)) = k.2;
  sh_safe : canonical (en_Prefix (se_Entry e)) /\ entry_accepted (se_Entry e) = true;
  sh_times : se_FirstSeen e = Unix (ey_first_seen r) /\ se_LastSeen e = Unix (ey_last_seen r);
  sh_state : se_MissingRuns e = ey_missing r /\ se_Active e = ey_active r }.

Lemma scanStoredEntry_ok d k f r :
  entry_ok d k r -> exists e, scanStoredEntry (k.1.1, fr_name f, (k.1.2, k.2), r) = Ok e /\ shows_entry k f r e.
Proof.
  intros [(p & kind & Hc & Hs & Hk & Ep & Ek & Ef & Eb) _ _]. destruct k as [[feed raw] kv]. cbn in *. subst raw kv.
  rewrite canonical_round_trip by done. rewrite Eb, Z.eqb_refl, Ef.
  assert (Bool.eqb (family_of p =? 4) (Is4 (p_addr p)) = true) as -> by (unfold family_of; by destruct (Is4 _)).
  assert (checkedNetworkKind (kind_value kind) = Ok kind) as ->.
  { unfold ValidateKind in Hk. destruct kind; [|done..]. destruct (_ || _); done. }
  cbn [negb orb]. rewrite Hk. cbn [negb]. eexists. split; [done|]. split; cbn; [done..| |done|done].
  split; [done|]. unfold entry_accepted. cbn. pose proof Hc as [_ Hm _]. rewrite Hm, Hs, Hk. done.
Qed.

Lemma scan_entries_ok rows :
  List.Forall (fun row => exists e, scanStoredEntry row = Ok e) rows ->
  exists es, scan_entries rows = Ok es /\ Forall2 (fun row e => scanStoredEntry row = Ok e) rows es.
Proof.
  induction 1 as [|row rows (e & He) Hall (es & Hes & IH)]; cbn [scan_entries].
  - exists []. split; [done|constructor].
  - exists (e :: es). rewrite He, Hes. split; [done|by constructor].
Qed.

Lemma query_no_fault {A} (f : DB -> A) w :
  sw_faults w = [] -> query f w = (Ok (f (sw_db w)), MkSW (sw_db w) []).
Proof. intros H. unfold query, stmt. by rewrite H. Qed.

Lemma in_entries_where p cmp d feed name key r :
  In (feed, name, key, r) (entries_where p cmp d) <->
  exists f, db_entries d !! (feed, key.1, key.2) = Some r /\ db_feeds d !! feed = Some f /\
    name = fr_name f /\ p f r = true.
Proof.
  unfold entries_where. rewrite <- list_elem_of_In, elem_of_sort_func, list_elem_of_omap. split.
  - intros ([[[f0 raw] kv] r0] & Hin & E). cbn in E. apply elem_of_map_to_list in Hin.
    destruct (db_feeds d !! f0) as [f|] eqn:Ef; [|done]. destruct (p f r0) eqn:Ep; [|done].
    injection E as <- <- <- <-. exists f. by split_and!.
  - intros (f & Hr & Hf & -> & Hp). exists ((feed, key.1, key.2), r). split; [by apply elem_of_map_to_list|].
    cbn. rewrite Hf, Hp. by destruct key.
Qed.

(** Without a fault, [ListActiveEntries] succeeds and lists exactly the
    active entries of the enabled feeds; every one of them is a canonical,
    safe prefix of a valid kind, so none can be rejected later. *)
Theorem ListActiveEntries_exact w :
  feeds_ok (sw_db w) -> sw_faults w = [] ->
  exists entries w', ListActiveEntries w = (Ok entries, w') /\ sw_db w' = sw_db w /\
    forall e, In e entries <-> exists k f r, db_entries (sw_db w) !! k = Some r /\
      db_feeds (sw_db w) !! k.1.1 = Some f /\ ey_active r = true /\ fr_enabled f = true /\ shows_entry k f r e.
Proof.
  intros Hok Hfault. unfold ListActiveEntries, queryEntries.
  set (rows := entries_where (fun f r => ey_active r && fr_enabled f) compare_active_source (sw_db w)).
  assert (forall row, In row rows -> exists k f r e, row = (k.1.1, fr_name f, (k.1.2, k.2), r) /\
    db_entries (sw_db w) !! k = Some r /\ db_feeds (sw_db w) !! k.1.1 = Some f /\ ey_active r = true /\
    fr_enabled f = true /\ scanStoredEntry row = Ok e /\ shows_entry k f r e) as Hrows.
  { intros [[[feed name] key] r] Hin. apply in_entries_where in Hin as (f & Hr & Hf & -> & Hp).
    destruct (scanStoredEntry_ok (sw_db w) (feed, key.1, key.2) f r) as (e & He & Hsh); [by apply (fo_entry _ Hok)|].
    to_prop. exists (feed, key.1, key.2), f, r, e. destruct key. by split_and!. }
  destruct (scan_entries_ok rows) as (es & Hes & Hall).
  { apply List.Forall_forall. intros row Hin. destruct (Hrows row Hin) as (_ & _ & _ & e & _ & _ & _ & _ & _ & He & _). eauto. }
  exists es, (MkSW (sw_db w) []). split_and!; [|done|].
  - unfold mthen, wrap. rewrite query_no_fault by done. fold rows. unfold lift. by rewrite Hes.
  - intros e. split.
    + intros He. destruct (Forall2_In_r _ _ _ e Hall He) as (row & Hin & Hscan).
      destruct (Hrows row Hin) as (k & f & r & e' & _ & Hr & Hf & Ha & Hen & He' & Hsh).
      assert (e' = e) as -> by congruence. exists k, f, r. by split_and!.
    + intros (k & f & r & Hr & Hf & Ha & Hen & Hsh).
      assert (In (k.1.1, fr_name f, (k.1.2, k.2), r) rows) as Hin.
      { apply in_entries_where. exists f. destruct k as [[feed raw] kv]. cbn in *. by rewrite Ha, Hen. }
      destruct (Forall2_In_l _ _ _ _ Hall Hin) as (e' & He' & Hscan).
      destruct (scanStoredEntry_ok (sw_db w) k f r) as (e2 & He2 & Hsh2); [by apply (fo_entry _ Hok)|].
      assert (e2 = e') as -> by congruence. assert (e' = e) as <-; [|done].
      destruct Hsh as [[? ?] [? ?] [? _] [? ?] [? ?]], Hsh2 as [[? ?] [? ?] [? _] [? ?] [? ?]].
      destruct e as [? ? [p1 k1] ? ? ? ?], e' as [? ? [p2 k2] ? ? ? ?]. cbn in *. subst.
      assert (p2 = p1) as -> by (apply prefix_String_inj; (done || congruence)).
      assert (k2 = k1) as -> by (apply kind_value_inj; congruence). congruence.
Qed.

Definition ex_synced : SW :=
  (apply_snapshots "ranges" 2 [(ex_snapshot ex_entries, ex_now)] (MkSW (sw_db (feed_exec
    (CallEnsureFeeds [MkFeedDefinition "ranges" ex_version ex_version true] ex_now) (MkSW ex_db [])).2) [])).2.

Lemma ex_synced_ok : feeds_ok (sw_db ex_synced) /\ sw_faults ex_synced = [].
Proof.
  split; [|by vm_compute]. unfold ex_synced.
  set (w := feed_exec _ _). destruct (apply_snapshots _ _ _ _) as [r w'] eqn:E. cbn [snd].
  unfold apply_snapshots in E. cbn [mfor] in E. unfold mthen, void in E.
  assert (feeds_ok (sw_db w.2)) as Hw.
  { eapply (feed_exec_does (keeps feeds_ok) feeds_ok_statements); [|apply surjective_pairing|exact ex_feeds_ok]. done. }
  unfold mthen in E. destruct (ApplyFeedSnapshot _ _ _ _ _) as [r1 w1] eqn:E1.
  apply ApplyFeedSnapshot_feeds_ok in E1; [|exact ex_entries_wf|done]. by destruct r1; injection E as _ <-.
Qed.

Lemma ListActiveEntries_exact_witness :
  exists entries w', ListActiveEntries ex_synced = (Ok entries, w') /\ List.length entries = 2%nat.
Proof.
  destruct (ListActiveEntries_exact ex_synced) as (entries & w' & E & _).
  - exact (proj1 ex_synced_ok).
  - exact (proj2 ex_synced_ok).
  - exists entries, w'. split; [exact E|].
    assert (match (ListActiveEntries ex_synced).1 with Ok es => List.length es | Err _ => 0%nat end = 2%nat) as H
      by by vm_compute.
    rewrite E in H. exact H.
Defined.

(** ** Defining the feeds *)

(** The row carries a definition. *)
Definition defined (f : FeedDefinition) (r : feed_row) : Prop :=
  fr_name r = fd_Name f /\ fr_url_hash r = fd_URLHash f /\ fr_definition_hash r = fd_DefinitionHash f /\
  fr_enabled r = fd_Enabled f.

(** What a definition leaves alone. *)
Definition cursor (r : feed_row) :=
  (fr_name r, fr_etag r, fr_last_modified r, fr_last_attempt r, fr_last_success r, fr_last_good_version r,
   fr_accepted r, fr_rejected r, fr_failures r, fr_next_attempt r, fr_error r, fr_created r).

Record ensure_inv (d0 : DB) (don : list FeedDefinition) (d : DB) : Prop := {
  ei_others : d = set_feeds (db_feeds d) d0;
  ei_done : forall f, In f don -> exists i r, db_feeds d !! i = Some r /\ defined f r;
  ei_rows : forall i r0, db_feeds d0 !! i = Some r0 -> exists r, db_feeds d !! i = Some r /\
    cursor r = cursor r0 /\ (~ In (fr_name r0) (map fd_Name don) -> r = disable_row r0) }.

Lemma ensure_inv_step d0 don f now d :
  feeds_ok d -> ensure_inv d0 don d -> ~ In (fd_Name f) (map fd_Name don) ->
  ensure_inv d0 (don ++ [f]) (upsert_feed now f d).
Proof.
  intros Hok [Ho Hd Hr] Hnew.
  assert (exists id row, upsert_feed now f d = set_feeds (<[id := row]> (db_feeds d)) d /\ defined f row /\
    (forall r, db_feeds d !! id = Some r -> fr_name r = fd_Name f /\ cursor row = cursor r) /\
    (forall i r, db_feeds d !! i = Some r -> fr_name r = fd_Name f -> i = id)) as (id & row & -> & Hdef & Hold & Hu).
  { unfold upsert_feed. destruct (feed_by_name (fd_Name f) d) as [id|] eqn:E.
    - apply find_row_Some in E as (r & Hrow & Hn). apply String.eqb_eq in Hn.
      exists id, (define_row f now r). rewrite (alter_as_insert _ _ _ r) by done. split_and!; [done|by split_and!| |].
      + intros r' Hr'. assert (r' = r) as -> by congruence. done.
      + intros i r' Hi Hn'. eapply (fo_unique d Hok); [exact Hi|exact Hrow|congruence].
    - eexists _, (new_feed_row f now). split_and!; [done|done| |].
      + intros r Hrow. by rewrite next_id_fresh in Hrow.
      + intros i r Hi Hn. apply (find_row_None _ _ E i r) in Hi. by rewrite Hn, String.eqb_refl in Hi. }
  split.
  - rewrite Ho. done.
  - intros g [Hg|[<-|[]]]%in_app_or; cbn.
    + destruct (Hd g Hg) as (i & r & Hi & Hdg). exists i, r. split; [|done]. rewrite lookup_insert_ne; [done|].
      intros <-. apply Hold in Hi as [Hn _]. apply Hnew. rewrite <- Hn. destruct Hdg as [-> _]. by apply in_map.
    + exists id, row. by rewrite lookup_insert_eq.
  - intros i r0 Hi. destruct (Hr i r0 Hi) as (r & Hri & Hc & Hdis). cbn. destruct (decide (i = id)) as [->|Hne].
    + rewrite lookup_insert_eq. exists row. destruct (Hold r Hri) as [Hn Hc']. split_and!; [done|congruence|].
      intros Hno. exfalso. apply Hno. rewrite map_app. apply in_or_app. right. left.
      injection Hc as Hc. congruence.
    + rewrite lookup_insert_ne by done. exists r. split_and!; [done|done|]. intros Hno. apply Hdis.
      contradict Hno. rewrite map_app. by apply in_or_app; left.
Qed.

Lemma upsert_feeds_inv d0 todo don now w u w' :
  feeds_ok (sw_db w) -> ensure_inv d0 don (sw_db w) -> NoDup (map fd_Name (don ++ todo)) ->
  List.Forall (fun f => validFeedDefinition f = true) todo ->
  mfor (fun f => wrap state.ErrQuery (update (upsert_feed now f))) todo w = (Ok u, w') ->
  feeds_ok (sw_db w') /\ ensure_inv d0 (don ++ todo) (sw_db w').
Proof.
  revert don w. induction todo as [|f todo IH]; intros don w Hok Hinv Hnd Hv H; cbn [mfor] in H.
  - injection H as _ <-. by rewrite app_nil_r.
  - apply List.Forall_cons_iff in Hv as [Hvf Hv]. apply mthen_ok in H as (u1 & w1 & H1 & H).
    apply wrap_Ok, update_db in H1 as [[_ E]|[[? ?] _]]; [|done].
    replace (don ++ f :: todo) with ((don ++ [f]) ++ todo) in * by by rewrite <- app_assoc.
    eapply IH; [| |done|done|exact H]; rewrite E.
    + by apply (fs_upsert _ feeds_ok_statements).
    + apply ensure_inv_step; [done|done|]. rewrite !map_app in Hnd. apply list.NoDup_app in Hnd as [Hnd _].
      apply list.NoDup_app in Hnd as (_ & Hnd & _). intros Hin. apply list_elem_of_In in Hin.
      apply (Hnd _ Hin). by left.
Qed.

Lemma validate_definitions_NoDup seen definitions :
  validate_definitions seen definitions = true ->
  NoDup (map fd_Name definitions) /\ (forall f, In f definitions -> fd_Name f ∉ seen).
Proof.
  revert seen. induction definitions as [|f fs IH]; intros seen; cbn [validate_definitions].
  - intros _. split; [constructor|by intros ? []].
  - destruct (validFeedDefinition f); cbn [negb]; [|done]. case_bool_decide as Hin; [done|].
    intros (H2 & H3)%IH. split.
    + cbn. apply list.NoDup_cons. split; [|done]. intros (x & E & Hx)%list_elem_of_fmap.
      apply list_elem_of_In, H3 in Hx. rewrite <- E in Hx. set_solver.
    + intros x [<-|Hx]; [done|]. apply H3 in Hx. set_solver.
Qed.

(** A successful [EnsureFeeds] leaves one row per definition, with its
    hashes and its enabled flag, and returns these rows in the order of the
    configuration; a feed that is no longer configured is disabled; the id and
    the download cursor of a known feed, its entries, and the other tables are
    kept. *)
Theorem EnsureFeeds_exact definitions now w records w' :
  feeds_ok (sw_db w) -> EnsureFeeds definitions now w = (Ok records, w') ->
  let d := sw_db w in let d' := sw_db w' in
  d' = set_feeds (db_feeds d') d /\
  Forall2 (fun f rec => exists r, db_feeds d' !! rec_ID rec = Some r /\ rec = scanFeed (rec_ID rec, r) /\ defined f r)
    definitions records /\
  (forall i r, db_feeds d !! i = Some r -> exists r', db_feeds d' !! i = Some r' /\ cursor r' = cursor r /\
     (~ In (fr_name r) (map fd_Name definitions) -> r' = disable_row r)).
Proof.
  intros Hok H. unfold EnsureFeeds in H. apply require_Ok in H as [_ H]. apply require_Ok in H as [Hv H].
  apply tx_Ok in H as (w1 & w2 & E1 & H & E2). cbv zeta. rewrite E2, <- E1. rewrite <- E1 in Hok.
  unfold ensure_body in H. apply mthen_ok in H as (u3 & w3 & H3 & H).
  apply wrap_Ok, update_db in H3 as [[_ E3]|[[? ?] _]]; [|done].
  apply mthen_ok in H as (u4 & w4 & H4 & H). apply (upsert_feeds_inv (sw_db w1) definitions []) in H4 as [Hok4 [Ho Hd Hr]].
  - apply (mfold_reads _ (fun d f rec => select_feed (fd_Name f) d = Some rec)) in H as (E4 & zs & -> & Hzs).
    + rewrite E4. split; [done|]. split; [|done]. cbn [app] in *. clear -Hzs Hd Hok4.
      apply (Forall2_impl_In _ _ _ _ Hzs). intros f rec Hf Hsel. unfold select_feed in Hsel. destruct (feed_by_name _ _) as [id|] eqn:E; [|done].
      destruct (db_feeds (sw_db w4) !! id) as [r|] eqn:Er; [|done]. injection Hsel as <-. cbn.
      exists r. split_and!; [done|done|]. apply find_row_Some in E as (r' & Hr' & Hn). apply String.eqb_eq in Hn.
      destruct (Hd f Hf) as (j & s & Hj & Hdef).
      assert (j = id) as -> by (eapply (fo_unique _ Hok4); [exact Hj|exact Hr'|destruct Hdef; congruence]). congruence.
    + clear. intros acc f w y w' H. apply mthen_ok in H as (rec & w1 & H1 & H). injection H as <- <-.
      apply wrap_Ok, stmt_db in H1 as [(? & ? & _)|(? & [= <-] & H1)]; [done|].
      destruct (select_feed _ _) as [r|] eqn:Es; [|done]. injection H1 as <- H1. split; [done|]. eauto.
  - rewrite E3. by apply (fs_disable _ feeds_ok_statements).
  - rewrite E3. split; [done|by intros f []|]. intros i r0 Hi. exists (disable_row r0). unfold disable_feeds. cbn.
    rewrite lookup_fmap, Hi. done.
  - by apply (validate_definitions_NoDup ∅ definitions Hv).
  - by eapply validate_definitions_all.
Qed.

Definition ex_definitions : list FeedDefinition := [MkFeedDefinition "new" ex_version ex_version true].

Lemma EnsureFeeds_exact_witness :
  exists records w', EnsureFeeds ex_definitions ex_now (MkSW ex_db []) = (Ok records, w') /\
    sw_db w' = set_feeds (db_feeds (sw_db w')) ex_db.
Proof.
  assert (exists records w', EnsureFeeds ex_definitions ex_now (MkSW ex_db []) = (Ok records, w')) as (records & w' & E)
    by (vm_compute; eauto).
  exists records, w'. split; [exact E|].
  destruct (EnsureFeeds_exact ex_definitions ex_now (MkSW ex_db []) records w' ex_feeds_ok E) as [H _]. exact H.
Defined.

(** ** The invariants of the whole store *)

(** A change of the feeds and entries that keeps the feeds that exist. *)
Record feeds_grow (d d' : DB) : Prop := {
  fg_same : d' = set_entries (db_entries d') (set_feeds (db_feeds d') d);
  fg_grow : forall i, is_Some (db_feeds d !! i) -> is_Some (db_feeds d' !! i) }.

Lemma feeds_grow_db_ok d d' : feeds_grow d d' -> keeps db_ok d d'.
Proof.
  intros [-> Hg] [H1 H2 H3 H4 H5 H6 H7 H8]. cbn in Hg. split; cbn; try done.
  - intros i r Hi. destruct (H1 i r Hi) as (Hp & Hs & Hd & Hf). split_and!; [done..|]. intros f Hpf.
    apply Hg. by apply Hf.
  - intros o f k Hk. destruct (H3 o f k Hk) as (? & ? & ?). split_and!; auto.
  - intros t r Hr. destruct (H4 t r Hr) as (Ht & Hf & Hrest). exact (conj Ht (conj (Hg _ Hf) Hrest)).
Qed.

Lemma db_ok_feed_statements : feed_statements_do (keeps db_ok).
Proof.
  split; intros; apply feeds_grow_db_ok; split; try done.
  - intros i Hi. cbn. rewrite lookup_fmap. by apply fmap_is_Some.
  - unfold upsert_feed. by destruct (feed_by_name _ _).
  - intros i Hi. unfold upsert_feed. destruct (feed_by_name _ _); cbn; [by rewrite lookup_alter_is_Some|].
    by apply lookup_insert_is_Some'; right.
  - intros i Hi. cbn. by rewrite lookup_alter_is_Some.
Qed.

(** The calls of the enforcement repository leave feeds and entries alone. *)
Lemma same_feeds_statements : statements_do (same (fun d => (db_feeds d, db_entries d))).
Proof.
  split; intros; try reflexivity.
  - unfold upsert_object in *. same_table.
  - unfold insert_source in *. same_table.
  - unfold insert_operation in *. same_table.
  - unfold insert_item in *. same_table.
  - unfold insert_alert in *. same_table.
  - unfold insert_decision in *. same_table.
  - unfold replace_decision in *. same_table.
  - unfold update_operation in *. same_table.
  - unfold update_operation in *. same_table.
  - unfold mark_expired in *. same_table.
Qed.

Lemma same_feeds_ok d d' : same (fun d => (db_feeds d, db_entries d)) d d' -> keeps feeds_ok d d'.
Proof.
  intros [= Ef Ee] [H0 H1 H2 H3]. split; rewrite ?Ef, ?Ee; try done.
  intros k r Hk. apply (entry_ok_feeds d); [by rewrite Ef|by apply H3].
Qed.

(** A call of either repository. *)
Definition store_call : Type := call + feed_call.
Definition store_exec (c : store_call) : Store unit :=
  match c with inl c => exec c | inr c => feed_exec c end.
Definition store_call_wf (c : store_call) : Prop :=
  match c with inl c => call_wf c | inr c => feed_call_wf c end.
Fixpoint store_history (cs : list store_call) (w : SW) : SW :=
  match cs with [] => w | c :: rest => store_history rest (store_exec c w).2 end.

Definition store_ok (d : DB) : Prop := db_ok d /\ feeds_ok d.

Lemma store_exec_ok c w r w' :
  store_call_wf c -> store_exec c w = (r, w') -> store_ok (sw_db w) -> store_ok (sw_db w').
Proof.
  intros Hwf H [Hdb Hf]. destruct c as [c|c]; cbn in Hwf, H; split.
  - by eapply (exec_does (keeps db_ok) db_ok_statements).
  - eapply same_feeds_ok; [|done]. by eapply (exec_does _ same_feeds_statements).
  - by eapply (feed_exec_does (keeps db_ok) db_ok_feed_statements).
  - by eapply (feed_exec_does (keeps feeds_ok) feeds_ok_statements).
Qed.

(** The store stays consistent whatever calls are made on either
    repository, in whatever order, and whichever statements fail: prefixes
    are canonical, safe and unique, references point to existing rows, names,
    remote ids and tokens are unique, a completed or failed operation has a
    completion time and the others have none, and a desired object has a
    primary feed. *)
Theorem store_history_ok cs w :
  List.Forall store_call_wf cs -> store_ok (sw_db w) -> store_ok (sw_db (store_history cs w)).
Proof.
  intros Hwf. revert w. induction Hwf as [|c cs Hc Hwf IH]; intros w Hok; cbn [store_history]; [done|].
  apply IH. by eapply store_exec_ok; [|apply surjective_pairing|].
Qed.

Lemma store_history_ok_witness :
  store_ok (sw_db (store_history
    ([inr (CallApplyFeedSnapshot "ranges" (ex_snapshot ex_entries) 2 ex_now)] ++ map inl ex_calls)
    (MkSW ex_db [None; None; Some Canceled]))).
Proof.
  apply store_history_ok.
  - apply List.Forall_cons; [exact ex_entries_wf|]. apply List.Forall_map. exact ex_calls_wf.
  - split; [exact ex_db_ok|exact ex_feeds_ok].
Defined.
