(* ===== verification/StateRuns.v ===== *)
(** * The run repository ([internal/state/sync_repository.go])

    The history of the synchronisation runs with the results of their feeds,
    and the timestamps of the runtime. *)

From S2P Require Export StateHistory.

(** ** Modes and statuses *)

Definition SyncModeEnforce : SyncMode := "enforce".
Definition SyncModeDryRun : SyncMode := "dry-run".
Definition RunStatusRunning : RunStatus := "running".
Definition RunStatusSuccess : RunStatus := "success".
Definition RunStatusDegraded : RunStatus := "degraded".
Definition RunStatusFailed : RunStatus := "failed".
Definition RunStatusCancelled : RunStatus := "cancelled".

Record SyncRunRecord : Type := MkSyncRunRecord {
  srr_ID : Z; srr_StartedAt : Time; srr_CompletedAt : option Time; srr_Mode : SyncMode;
  srr_RequestedFeed : string; srr_Status : RunStatus; srr_Failure : FailureCategory; srr_Counts : Counts;
  srr_Feeds : list ops_FeedResult }.

Definition RuntimeTimestampKey : Type := string.
Definition RuntimeLastSafeSync : RuntimeTimestampKey := "last_safe_sync".
Definition RuntimeLastPrune : RuntimeTimestampKey := "last_prune".

Definition validSyncMode (mode : SyncMode) : bool := one_of mode [SyncModeEnforce; SyncModeDryRun].
Definition validRunStatus (status : RunStatus) : bool :=
  one_of status [RunStatusRunning; RunStatusSuccess; RunStatusDegraded; RunStatusFailed; RunStatusCancelled].
Definition validRuntimeKey (key : RuntimeTimestampKey) : bool := one_of key [RuntimeLastSafeSync; RuntimeLastPrune].

(** A time that can be stored. *)
Definition storable (t : Time) : bool := negb (time_IsZero t) && (0 <=? unix t).

(** ** The beginning of a run *)

Definition insert_run (mode : SyncMode) (requested : string) (started : Z) (d : DB)
  : Prelude.result error (Z * DB) :=
  let id := next_id (db_runs d) in
  Ok (id, set_runs (<[id := MkRunRow started None mode requested RunStatusRunning 0 0 0 0 0 0 0 0 ""]> (db_runs d)) d).

Definition BeginSyncRun (mode : SyncMode) (requestedFeed : string) (startedAt : Time) : Store Z :=
  let! _ := require (validSyncMode mode && storable startedAt &&
                     (String.eqb requestedFeed "" || ValidFeedName requestedFeed)) constraint in
  let! id := wrap state.ErrQuery (stmt (insert_run mode requestedFeed (unix startedAt))) in
  let! _ := require (0 <? id) (stateError state.ErrQuery None) in
  mok id.

(** ** The end of a run *)

Definition statusForResult (r : ops_Result) : option RunStatus :=
  if String.eqb (rs_Outcome r) OutcomeSuccess then Some RunStatusSuccess
  else if String.eqb (rs_Outcome r) OutcomeDegraded then Some RunStatusDegraded
  else if String.eqb (rs_Outcome r) OutcomeFailed then Some RunStatusFailed
  else if String.eqb (rs_Outcome r) OutcomeCancelled then Some RunStatusCancelled
  else None.

Definition feedHistoryStatus (f : ops_FeedResult) : option string :=
  let o := fres_Outcome f in
  if String.eqb o OutcomeSuccess then Some "success"%string
  else if String.eqb o OutcomeNotModified then Some "not_modified"%string
  else if String.eqb o OutcomeNotDue then Some "not_due"%string
  else if String.eqb o OutcomeFailed then Some "failed"%string
  else if String.eqb o OutcomeDegraded then
    Some (if String.eqb (fres_Failure f) FailureFeedValidation then "suspicious"%string else "failed"%string)
  else None.

Definition safeSyncResult (r : ops_Result) : bool :=
  String.eqb (rs_Outcome r) OutcomeSuccess ||
  (String.eqb (rs_Outcome r) OutcomeDegraded &&
   one_of (rs_Failure r) [FailureFeedDownload; FailureFeedValidation]).

(** ** Runtime timestamps *)

(** The canonical decimal text of a time that is not negative. *)
Definition parse_seconds (raw : string) : Prelude.result error Z :=
  match atoi raw with
  | None => Err (stateError state.ErrIntegrity (Some (Foreign "strconv.ParseInt")))
  | Some seconds => if (seconds <? 0) || negb (String.eqb (itoa seconds) raw) then Err integrity else Ok seconds
  end.

Definition runtime_value (key : RuntimeTimestampKey) (d : DB) : option string := fst <$> db_runtime d !! key.

Definition write_runtime (key : RuntimeTimestampKey) (seconds : Z) (d : DB) : DB :=
  set_runtime (<[key := (itoa seconds, seconds)]> (db_runtime d)) d.

Definition setRuntimeTimestamp (key : RuntimeTimestampKey) (at_ : Time) : Store unit :=
  let! _ := require (validRuntimeKey key && storable at_) constraint in
  let! raw := wrap state.ErrQuery (query (runtime_value key)) in
  let! newer := match raw with
                | None => mok true
                | Some value => let! seconds := lift (parse_seconds value) in mok (seconds <? unix at_)
                end in
  if newer then wrap state.ErrQuery (update (write_runtime key (unix at_))) else mok tt.

Definition SetRuntimeTimestamp (key : RuntimeTimestampKey) (at_ : Time) : Store unit := setRuntimeTimestamp key at_.

Definition RuntimeTimestamp (key : RuntimeTimestampKey) : Store (option Time) :=
  let! _ := require (validRuntimeKey key) constraint in
  let! raw := wrap state.ErrQuery (query (runtime_value key)) in
  match raw with
  | None => mok None
  | Some value => let! seconds := lift (parse_seconds value) in mok (Some (Unix seconds))
  end.

(** *** [CompleteSyncRun] *)

(** A row that must exist. *)
Definition found {A} (row : option A) : Store A :=
  match row with Some a => mok a | None => mfail (stateError state.ErrNotFound (Some ErrNoRows)) end.

Definition insert_result (run feed : Z) (status : string) (f : ops_FeedResult) (d : DB)
  : Prelude.result error (unit * DB) :=
  match db_results d !! (run, feed) with
  | Some _ => Err (sqlite "UNIQUE constraint failed: feed_run_results")
  | None => Ok (tt, set_results (<[(run, feed) := MkFeedRunRow status (fres_Accepted f) (fres_Rejected f)
                                                    (fres_Failure f)]> (db_results d)) d)
  end.

Definition record_feed (runID : Z) (f : ops_FeedResult) : Store unit :=
  match feedHistoryStatus f with
  | None => mfail constraint
  | Some status =>
      let! row := wrap state.ErrQuery (query (feed_by_name (fres_Name f))) in
      let! feedID := found row in
      wrap state.ErrQuery (stmt (insert_result runID feedID status f))
  end.

Definition completed_row (status : RunStatus) (r : ops_Result) (row : run_row) : run_row :=
  let c := rs_Counts r in
  MkRunRow (rr_started row) (Some (unix (rs_CompletedAt r))) (rr_mode row) (rr_requested row) status
    (cn_FeedsSucceeded c) (cn_FeedsFailed c) (cn_Added c) (cn_Refreshed c) (cn_Removed c) (cn_Rejected c)
    (cn_Skipped c) (cn_LAPIRequests c) (rs_Failure r).

(** [UPDATE sync_runs ... WHERE id=? AND status='running'] *)
Definition complete_run (runID : Z) (status : RunStatus) (r : ops_Result) (d : DB)
  : Prelude.result error (Z * DB) :=
  match db_runs d !! runID with
  | Some row =>
      if String.eqb (rr_status row) RunStatusRunning
      then Ok (1, set_runs (<[runID := completed_row status r row]> (db_runs d)) d)
      else Ok (0, d)
  | None => Ok (0, d)
  end.

Definition complete_body (runID : Z) (status : RunStatus) (r : ops_Result) : Store unit :=
  let! row := wrap state.ErrQuery (query (fun d => db_runs d !! runID)) in
  let! row := found row in
  let! _ := require (String.eqb (rr_status row) RunStatusRunning &&
                     (rr_started row <=? unix (rs_CompletedAt r))) constraint in
  let! _ := mfor (record_feed runID) (rs_Feeds r) in
  let! changed := wrap state.ErrQuery (stmt (complete_run runID status r)) in
  let! _ := require (changed =? 1) constraint in
  if safeSyncResult r then setRuntimeTimestamp RuntimeLastSafeSync (rs_CompletedAt r) else mok tt.

Definition CompleteSyncRun (runID : Z) (r : ops_Result) : Store unit :=
  match statusForResult r with
  | None => mfail constraint
  | Some status =>
      let! _ := require ((0 <? runID) && match Result_Validate r with None => true | Some _ => false end) constraint in
      tx (complete_body runID status r)
  end.

(** ** Reading the history *)

Definition feedResultFromHistory (name status failure : string) (accepted rejected : Z)
  : Prelude.result error ops_FeedResult :=
  let outcome :=
    if String.eqb status "success" then Some OutcomeSuccess
    else if String.eqb status "not_modified" then Some OutcomeNotModified
    else if String.eqb status "not_due" then Some OutcomeNotDue
    else if String.eqb status "failed" then Some OutcomeFailed
    else if String.eqb status "suspicious" then Some OutcomeDegraded
    else None in
  match outcome with
  | None => Err integrity
  | Some o =>
      let f := MkOpsFeedResult name o failure accepted rejected in
      if FeedResult_valid f then Ok f else Err integrity
  end.

Definition run_counts (row : run_row) : Counts :=
  MkCounts (rr_succeeded row) (rr_failed row) 0 0 (rr_added row) (rr_refreshed row) (rr_removed row)
    (rr_rejected row) (rr_skipped row) (rr_lapi row) 0.

(** A run has ended exactly when it is not running. *)
Definition valid_run (id : Z) (row : run_row) : bool :=
  (0 <? id) && validSyncMode (rr_mode row) && validRunStatus (rr_status row) &&
  (String.eqb (rr_requested row) "" || ValidFeedName (rr_requested row)) && Counts_valid (run_counts row) &&
  (String.eqb (rr_error row) "" || ValidFailureCategory (rr_error row)) &&
  Bool.eqb (String.eqb (rr_status row) RunStatusRunning)
    (match rr_completed row with Some _ => false | None => true end).

(** [run.Status, _ = runStatusFromString(status)] keeps the text it was given. *)
Definition scan_run (idrow : Z * run_row) : Prelude.result error SyncRunRecord :=
  let '(id, row) := idrow in
  if negb (valid_run id row) then Err integrity
  else Ok (MkSyncRunRecord id (Unix (rr_started row)) (Unix <$> rr_completed row) (rr_mode row) (rr_requested row)
             (rr_status row) (rr_error row) (run_counts row) []).

Fixpoint scan_all {A B} (scan : A -> Prelude.result error B) (rows : list A) : Prelude.result error (list B) :=
  match rows with
  | [] => Ok []
  | row :: rest => let? b := scan row in let? bs := scan_all scan rest in Ok (b :: bs)
  end.

(** [ORDER BY started_at DESC, id DESC] *)
Definition compare_runs (a b : Z * run_row) : Z :=
  cmp_then (cmp_int (rr_started b.2) (rr_started a.2)) (cmp_int b.1 a.1).

Definition latest_runs (limit : Z) (d : DB) : list (Z * run_row) :=
  take (Z.to_nat limit) (sort_func compare_runs (map_to_list (db_runs d))).

(** The results of a run joined with their feeds, in the order of the feeds. *)
Definition run_results (runID : Z) (d : DB) : list (Z * string * feed_run_row) :=
  sort_func (fun a b => cmp_int a.1.1 b.1.1) (omap (fun kv : (Z * Z) * feed_run_row =>
    match db_feeds d !! kv.1.2 with
    | Some f => if kv.1.1 =? runID then Some (kv.1.2, fr_name f, kv.2) else None
    | None => None
    end) (map_to_list (db_results d))).

Definition scan_result (row : Z * string * feed_run_row) : Prelude.result error ops_FeedResult :=
  let '(_, name, r) := row in
  feedResultFromHistory name (frr_status r) (frr_error r) (frr_accepted r) (frr_rejected r).

Definition with_feeds (run : SyncRunRecord) : Store SyncRunRecord :=
  let! rows := wrap state.ErrQuery (query (run_results (srr_ID run))) in
  let! feeds := lift (scan_all scan_result rows) in
  mok (MkSyncRunRecord (srr_ID run) (srr_StartedAt run) (srr_CompletedAt run) (srr_Mode run) (srr_RequestedFeed run)
         (srr_Status run) (srr_Failure run) (srr_Counts run) feeds).

Definition ListSyncRuns (limit : Z) : Store (list SyncRunRecord) :=
  let! _ := require ((1 <=? limit) && (limit <=? 1000)) constraint in
  let! rows := wrap state.ErrQuery (query (latest_runs limit)) in
  let! runs := lift (scan_all scan_run rows) in
  mfold (fun acc run => let! full := with_feeds run in mok (acc ++ [full])) [] runs.

(** ** Interrupted runs *)

Definition interrupted_row (now : Z) (row : run_row) : run_row :=
  MkRunRow (rr_started row) (Some now) (rr_mode row) (rr_requested row) RunStatusFailed (rr_succeeded row)
    (rr_failed row) (rr_added row) (rr_refreshed row) (rr_removed row) (rr_rejected row) (rr_skipped row)
    (rr_lapi row) FailureRuntime.

Definition is_running (row : run_row) : bool := String.eqb (rr_status row) RunStatusRunning.

Definition interrupt_runs (now : Z) (d : DB) : Prelude.result error (Z * DB) :=
  Ok (count_rows (fun _ row => is_running row) (db_runs d),
      set_runs ((fun row => if is_running row then interrupted_row now row else row) <$> db_runs d) d).

Definition RecoverInterruptedSyncRuns (now : Time) : Store Z :=
  let! _ := require (storable now) constraint in
  wrap state.ErrQuery (stmt (interrupt_runs (unix now))).

(** ** Successful statements *)

Lemma wrap_query_Ok {A} c (f : DB -> A) w a w' :
  wrap c (query f) w = (Ok a, w') -> a = f (sw_db w) /\ sw_db w' = sw_db w.
Proof. intros H. apply wrap_Ok, query_db in H as [H1 H2]. by rewrite (H2 a). Qed.

Lemma wrap_stmt_Ok {A} c (run : DB -> Prelude.result error (A * DB)) w a w' :
  wrap c (stmt run) w = (Ok a, w') -> run (sw_db w) = Ok (a, sw_db w').
Proof. intros H. apply wrap_Ok, stmt_db in H as [(e & ? & _)|(a' & [= <-] & H)]; done. Qed.

Lemma wrap_update_Ok c (f : DB -> DB) w u w' : wrap c (update f) w = (Ok u, w') -> sw_db w' = f (sw_db w).
Proof. intros H. apply wrap_stmt_Ok in H. by injection H as _ ->. Qed.

Lemma found_Ok {A} (row : option A) w a w' : found row w = (Ok a, w') -> row = Some a /\ w' = w.
Proof. unfold found. destruct row; [|done]. by intros [= <- <-]. Qed.

(** *** Computations that change nothing when they fail *)

Definition err_same {A} (m : Store A) : Prop := forall w e w', m w = (Err e, w') -> sw_db w' = sw_db w.

Lemma err_same_reads {A} (m : Store A) : does eq m -> err_same m.
Proof. intros Hm w e w' H. symmetry. by eapply Hm. Qed.

Lemma err_same_then {A B} (m : Store A) (k : A -> Store B) :
  does eq m -> (forall a, err_same (k a)) -> err_same (mthen m k).
Proof.
  intros Hm Hk w e w' H. apply mthen_err in H as [H|(a & w1 & H1 & H)].
  - symmetry. by eapply Hm.
  - apply Hk in H as ->. symmetry. by eapply Hm.
Qed.

Lemma err_same_stmt {A} c (run : DB -> Prelude.result error (A * DB)) : err_same (wrap c (stmt run)).
Proof.
  intros w e w' H. pose proof (wrap_db c (stmt run) w) as Hw. rewrite H in Hw. cbn in Hw. rewrite Hw.
  unfold wrap in H. destruct (stmt run w) as [[a|e0] w0] eqn:E; [done|].
  apply stmt_db in E as [(? & _ & E)|(? & ? & _)]; [exact E|done].
Qed.

(** ** Timestamps *)

(** The timestamp of a key, where its text is canonical. *)
Definition timestamp (key : RuntimeTimestampKey) (d : DB) : option Z :=
  match runtime_value key d with
  | Some raw => match parse_seconds raw with Ok s => Some s | Err _ => None end
  | None => None
  end.

(** A key is absent or canonical. *)
Definition runtime_ok (key : RuntimeTimestampKey) (d : DB) : Prop :=
  runtime_value key d = None \/ is_Some (timestamp key d).

Lemma parse_seconds_itoa z : 0 <= z <= max_int64 -> parse_seconds (itoa z) = Ok z.
Proof.
  intros Hz. unfold parse_seconds. rewrite atoi_itoa by done.
  destruct (Z.ltb_spec z 0); [lia|]. by rewrite String.eqb_refl.
Qed.

Lemma timestamp_write key key' s d : 0 <= s <= max_int64 ->
  timestamp key' (write_runtime key s d) = if decide (key' = key) then Some s else timestamp key' d.
Proof.
  intros Hs. unfold timestamp, runtime_value, write_runtime. cbn [db_runtime set_runtime].
  destruct (decide (key' = key)) as [->|Hne].
  - by rewrite lookup_insert_eq; cbn; rewrite parse_seconds_itoa.
  - by rewrite lookup_insert_ne.
Qed.

(** The later of a timestamp and an instant. *)
Definition later_of (t : option Z) (s : Z) : Z := match t with Some s0 => Z.max s0 s | None => s end.

Lemma setRuntimeTimestamp_Ok key at_ w u w' :
  setRuntimeTimestamp key at_ w = (Ok u, w') -> unix at_ <= max_int64 ->
  (exists t, sw_db w' = set_runtime t (sw_db w)) /\
  timestamp key (sw_db w') = Some (later_of (timestamp key (sw_db w)) (unix at_)) /\
  (forall key', key' <> key -> runtime_value key' (sw_db w') = runtime_value key' (sw_db w)).
Proof.
  intros H Hmax. unfold setRuntimeTimestamp in H. apply require_Ok in H as [Hr H].
  apply andb_prop in Hr as [_ Hs]. unfold storable in Hs. apply andb_prop in Hs as [_ Hs]. apply Z.leb_le in Hs.
  apply mthen_ok in H as (raw & w1 & H1 & H). apply wrap_query_Ok in H1 as [-> E1].
  apply mthen_ok in H as (newer & w2 & H2 & H).
  assert (sw_db w2 = sw_db w /\ newer = (match timestamp key (sw_db w) with Some s => s <? unix at_ | None => true end) /\
    runtime_ok key (sw_db w)) as (E2 & -> & Hok).
  { unfold timestamp, runtime_ok, timestamp. destruct (runtime_value key (sw_db w)) as [value|].
    - unfold mthen, lift in H2. destruct (parse_seconds value); [|done]. injection H2 as <- <-.
      split_and!; [done|done|by right].
    - injection H2 as <- <-. split_and!; [done|done|by left]. }
  assert (set_runtime (db_runtime (sw_db w)) (sw_db w) = sw_db w) as Eid by (by destruct (sw_db w)).
  unfold later_of. destruct (timestamp key (sw_db w)) as [s|] eqn:Et.
  - destruct (Z.ltb_spec s (unix at_)).
    + apply wrap_update_Ok in H. rewrite E2 in H. rewrite H, Z.max_r by lia.
      split_and!; [by eexists|rewrite timestamp_write by lia; by rewrite decide_True|].
      intros key' Hne. unfold runtime_value. cbn. by rewrite lookup_insert_ne.
    + injection H as _ <-. rewrite E2, Z.max_l by lia. split_and!; [|done..]. by exists (db_runtime (sw_db w)).
  - apply wrap_update_Ok in H. rewrite E2 in H. rewrite H.
    split_and!; [by eexists|rewrite timestamp_write by lia; by rewrite decide_True|].
    intros key' Hne. unfold runtime_value. cbn. by rewrite lookup_insert_ne.
Qed.

Lemma setRuntimeTimestamp_err key at_ : err_same (setRuntimeTimestamp key at_).
Proof.
  unfold setRuntimeTimestamp. apply err_same_then; [does_tac|intros _].
  apply err_same_then; [does_tac|intros raw]. apply err_same_then; [destruct raw; does_tac|intros newer].
  destruct newer; [apply err_same_stmt|by intros w e w' [=]].
Qed.

(** ** The results of the feeds of a run *)

(** The row the result of a feed becomes. *)
Definition recorded (runID : Z) (f : ops_FeedResult) (d : DB) (k : Z * Z) (row : feed_run_row) : Prop :=
  exists feed status, feed_by_name (fres_Name f) d = Some feed /\ feedHistoryStatus f = Some status /\
    k = (runID, feed) /\ row = MkFeedRunRow status (fres_Accepted f) (fres_Rejected f) (fres_Failure f).

Lemma record_feed_Ok runID f w u w' : record_feed runID f w = (Ok u, w') ->
  exists k row, recorded runID f (sw_db w) k row /\ db_results (sw_db w) !! k = None /\
    sw_db w' = set_results (<[k := row]> (db_results (sw_db w))) (sw_db w).
Proof.
  unfold record_feed. destruct (feedHistoryStatus f) as [status|] eqn:Es; [|done]. intros H.
  apply mthen_ok in H as (row & w1 & H1 & H). apply wrap_query_Ok in H1 as [-> E1].
  apply mthen_ok in H as (feed & w2 & H2 & H). apply found_Ok in H2 as [Hf ->].
  apply wrap_stmt_Ok in H. unfold insert_result in H. rewrite E1 in H.
  destruct (db_results (sw_db w) !! (runID, feed)) eqn:E; [done|]. injection H as H.
  exists (runID, feed), (MkFeedRunRow status (fres_Accepted f) (fres_Rejected f) (fres_Failure f)).
  split_and!; [by exists feed, status|done|by symmetry].
Qed.

Lemma record_feeds_Ok runID fs : forall w u w', mfor (record_feed runID) fs w = (Ok u, w') ->
  exists t, sw_db w' = set_results t (sw_db w) /\
    (forall k row, db_results (sw_db w) !! k = Some row -> t !! k = Some row) /\
    (forall k row, t !! k = Some row -> db_results (sw_db w) !! k = Some row \/
       exists f, In f fs /\ recorded runID f (sw_db w) k row) /\
    (forall f, In f fs -> exists k row, recorded runID f (sw_db w) k row /\ t !! k = Some row).
Proof.
  induction fs as [|f fs IH]; intros w u w'; cbn [mfor].
  - intros [= _ <-]. exists (db_results (sw_db w)). split_and!; [by destruct (sw_db w)|done|by left|done].
  - intros H. apply mthen_ok in H as (u1 & w1 & H1 & H). apply record_feed_Ok in H1 as (k & row & Hr & Hn & E1).
    apply IH in H as (t & E & Hold & Hnew & Hall). rewrite E1 in E, Hold, Hnew, Hall. cbn [db_results set_results] in *.
    exists t. split_and!.
    + by rewrite E.
    + intros k' row' Hk. apply Hold. rewrite lookup_insert_ne; [done|]. intros ->. congruence.
    + intros k' row' Hk. apply Hnew in Hk as [Hk|(g & Hg & Hrec)]; [|right; exists g; by split; [right|]].
      apply lookup_insert_Some in Hk as [[<- <-]|[_ Hk]]; [right; exists f; by split; [left|]|by left].
    + intros g [<-|Hg]; [|by apply Hall]. exists k, row. split; [done|]. apply Hold, lookup_insert_eq.
Qed.

(** ** The effect of [CompleteSyncRun] *)

(** What a successful completion of a run does. *)
Record completion (runID : Z) (r : ops_Result) (d d' : DB) : Prop := {
  cp_run : exists row status, db_runs d !! runID = Some row /\ is_running row = true /\
    rr_started row <= unix (rs_CompletedAt r) /\ statusForResult r = Some status /\
    db_runs d' = <[runID := completed_row status r row]> (db_runs d);
  cp_old : forall k row, db_results d !! k = Some row -> db_results d' !! k = Some row;
  cp_new : forall k row, db_results d' !! k = Some row ->
    db_results d !! k = Some row \/ exists f, In f (rs_Feeds r) /\ recorded runID f d k row;
  cp_all : forall f, In f (rs_Feeds r) -> exists k row, recorded runID f d k row /\ db_results d' !! k = Some row;
  cp_safe : safeSyncResult r = true ->
    timestamp RuntimeLastSafeSync d' = Some (later_of (timestamp RuntimeLastSafeSync d) (unix (rs_CompletedAt r)));
  cp_runtime : forall key, key <> RuntimeLastSafeSync \/ safeSyncResult r = false ->
    runtime_value key d' = runtime_value key d;
  cp_tables : (db_feeds d', db_entries d', db_objects d', db_sources d', db_alerts d', db_decisions d',
               db_operations d', db_items d', db_delivery d') =
              (db_feeds d, db_entries d, db_objects d, db_sources d, db_alerts d, db_decisions d,
               db_operations d, db_items d, db_delivery d) }.

Lemma complete_body_Ok runID status r w u w' :
  statusForResult r = Some status -> unix (rs_CompletedAt r) <= max_int64 ->
  complete_body runID status r w = (Ok u, w') -> completion runID r (sw_db w) (sw_db w').
Proof.
  intros Hst Hmax H. unfold complete_body in H.
  apply mthen_ok in H as (orow & w1 & H1 & H). apply wrap_query_Ok in H1 as [-> E1].
  apply mthen_ok in H as (row & w2 & H2 & H). apply found_Ok in H2 as [Hrow ->].
  apply require_Ok in H as [Hr H]. apply andb_prop in Hr as [Hrun Hle]. apply Z.leb_le in Hle.
  apply mthen_ok in H as (u3 & w3 & H3 & H). apply record_feeds_Ok in H3 as (t & E3 & Hold & Hnew & Hall).
  rewrite E1 in *. apply mthen_ok in H as (n & w4 & H4 & H). apply wrap_stmt_Ok in H4.
  unfold complete_run in H4. rewrite E3 in H4. cbn [db_runs set_results] in H4. rewrite Hrow, Hrun in H4.
  injection H4 as <- E4. apply require_Ok in H as [_ H].
  assert (exists x, sw_db w' = set_runtime x (sw_db w4)) as (x & E5).
  { destruct (safeSyncResult r).
    - by apply setRuntimeTimestamp_Ok in H as [H _].
    - injection H as _ <-. exists (db_runtime (sw_db w4)). by destruct (sw_db w4). }
  assert (forall key, runtime_value key (sw_db w4) = runtime_value key (sw_db w)) as Ht by (by intros key; rewrite <- E4).
  split.
  - exists row, status. split_and!; [done..|]. by rewrite E5, <- E4.
  - intros k fr Hk. rewrite E5, <- E4. by apply Hold.
  - intros k fr. rewrite E5, <- E4. by apply Hnew.
  - intros f Hf. rewrite E5, <- E4. by apply Hall.
  - intros Es. rewrite Es in H. apply setRuntimeTimestamp_Ok in H as (_ & H1 & _); [|done]. rewrite H1.
    unfold timestamp. by rewrite Ht.
  - intros key Hkey. destruct (safeSyncResult r).
    + destruct Hkey as [Hkey|]; [|done]. apply setRuntimeTimestamp_Ok in H as (_ & _ & H2); [|done]. by rewrite H2.
    + by injection H as _ <-.
  - by rewrite E5, <- E4.
Qed.

Lemma CompleteSyncRun_Ok runID r w u w' :
  CompleteSyncRun runID r w = (Ok u, w') -> unix (rs_CompletedAt r) <= max_int64 ->
  Result_Validate r = None /\ completion runID r (sw_db w) (sw_db w').
Proof.
  unfold CompleteSyncRun. destruct (statusForResult r) as [status|] eqn:Es; [|done]. intros H Hmax.
  apply require_Ok in H as [Hv H]. apply andb_prop in Hv as [_ Hv]. split; [by destruct (Result_Validate r)|].
  apply tx_Ok in H as (w1 & w2 & <- & H & ->). by eapply complete_body_Ok.
Qed.

(** a run that is completed was running and had started before; its row
    gets the status, the counts and the failure of the result, every feed of
    the result gets its row, all other runs, results and tables stay, and the
    last safe synchronisation moves forward exactly when the result is safe,
    never back. *)
Theorem CompleteSyncRun_exact runID r w w' :
  CompleteSyncRun runID r w = (Ok tt, w') -> unix (rs_CompletedAt r) <= max_int64 ->
  completion runID r (sw_db w) (sw_db w').
Proof. intros H Hmax. by apply CompleteSyncRun_Ok in H as [_ H]. Qed.

Definition ex_later : Time := Unix 1700000060.
Definition ex_result : ops_Result :=
  MkOpsResult OutcomeDegraded FailureFeedDownload false ex_now ex_later (MkCounts 1 0 0 0 2 0 0 0 0 3 5)
    [MkOpsFeedResult "ranges" OutcomeDegraded FailureFeedDownload 2 0].
Definition ex_begun : SW := (BeginSyncRun SyncModeEnforce "" ex_now ex_synced).2.

Lemma CompleteSyncRun_exact_witness :
  exists w', CompleteSyncRun 1 ex_result ex_begun = (Ok tt, w') /\
    timestamp RuntimeLastSafeSync (sw_db w') = Some 1700000060.
Proof.
  assert (exists w', CompleteSyncRun 1 ex_result ex_begun = (Ok tt, w')) as (w' & E) by (vm_compute; eauto).
  exists w'. split; [exact E|].
  assert (unix (rs_CompletedAt ex_result) <= max_int64) as Hmax by (by vm_compute).
  destruct (CompleteSyncRun_exact 1 ex_result ex_begun w' E Hmax) as [_ _ _ _ Hs _ _].
  rewrite Hs by (by vm_compute). by vm_compute.
Defined.

(** ** The history over time *)

(** Runs are kept, with what they began with; a run that has ended, and its
    results, never change; timestamps only move forward. *)
Record history_evolves (d d' : DB) : Prop := {
  he_runs : forall id row, db_runs d !! id = Some row -> exists row', db_runs d' !! id = Some row' /\
    rr_started row' = rr_started row /\ rr_mode row' = rr_mode row /\ rr_requested row' = rr_requested row /\
    (is_running row = false -> row' = row);
  he_results : forall k row, db_results d !! k = Some row -> db_results d' !! k = Some row;
  he_ended : forall k row, (exists run, db_runs d !! k.1 = Some run /\ is_running run = false) ->
    db_results d' !! k = Some row -> db_results d !! k = Some row;
  he_timestamp : forall key s, timestamp key d = Some s ->
    exists s', timestamp key d' = Some s' /\ s <= s' }.

#[export] Instance history_evolves_preorder : PreOrder history_evolves.
Proof.
  split.
  - intros d. split; [|done|done|].
    + intros id row H. by exists row.
    + intros key s H. by exists s.
  - intros a b c [R1 S1 E1 T1] [R2 S2 E2 T2]. split.
    + intros id row H. apply R1 in H as (row1 & H & A1 & B1 & C1 & D1).
      apply R2 in H as (row2 & H & A2 & B2 & C2 & D2). exists row2. split_and!; [done|congruence..|].
      intros Hr. assert (row1 = row) as -> by auto. auto.
    + auto.
    + intros k row (run & Hr & He) H. apply E1; [by exists run|]. apply E2; [|done].
      apply R1 in Hr as (run1 & Hr & _ & _ & _ & D1). exists run1. split; [done|]. by rewrite D1.
    + intros key s H. apply T1 in H as (s1 & H & ?). apply T2 in H as (s2 & H & ?). exists s2. split; [done|lia].
Qed.

Inductive run_call : Type :=
| CallBeginSyncRun (mode : SyncMode) (requestedFeed : string) (startedAt : Time)
| CallCompleteSyncRun (runID : Z) (r : ops_Result)
| CallListSyncRuns (limit : Z)
| CallRecoverInterruptedSyncRuns (now : Time)
| CallSetRuntimeTimestamp (key : RuntimeTimestampKey) (at_ : Time)
| CallRuntimeTimestamp (key : RuntimeTimestampKey).

Definition run_exec (c : run_call) : Store unit :=
  match c with
  | CallBeginSyncRun mode requestedFeed startedAt => void (BeginSyncRun mode requestedFeed startedAt)
  | CallCompleteSyncRun runID r => CompleteSyncRun runID r
  | CallListSyncRuns limit => void (ListSyncRuns limit)
  | CallRecoverInterruptedSyncRuns now => void (RecoverInterruptedSyncRuns now)
  | CallSetRuntimeTimestamp key at_ => SetRuntimeTimestamp key at_
  | CallRuntimeTimestamp key => void (RuntimeTimestamp key)
  end.

(** The instants handed in are values of the Go type: their seconds fit an [int64]. *)
Definition run_call_wf (c : run_call) : Prop :=
  match c with
  | CallCompleteSyncRun _ r => unix (rs_CompletedAt r) <= max_int64
  | CallSetRuntimeTimestamp _ at_ => unix at_ <= max_int64
  | _ => True
  end.

Lemma completion_evolves runID r d d' : completion runID r d d' -> history_evolves d d'.
Proof.
  intros [(row & status & Hrow & Hrun & _ & _ & E) Hold Hnew _ Hsafe Ht _]. split.
  - intros id run H. rewrite E. destruct (decide (id = runID)) as [->|Hne].
    + rewrite lookup_insert_eq. eexists. split; [done|]. assert (run = row) as -> by congruence.
      split_and!; [done..|]. congruence.
    + rewrite lookup_insert_ne by done. by exists run.
  - done.
  - intros k fr (run & Hr & He) H. apply Hnew in H as [H|(f & _ & feed & st & _ & _ & -> & _)]; [done|].
    cbn in Hr. congruence.
  - intros key s H. destruct (decide (key = RuntimeLastSafeSync)) as [->|Hne]; [destruct (safeSyncResult r) eqn:Es|].
    + rewrite Hsafe by done. eexists. split; [done|]. rewrite H. cbn. lia.
    + exists s. split; [|done]. unfold timestamp. rewrite Ht by (by right). exact H.
    + exists s. split; [|done]. unfold timestamp. rewrite Ht by (by left). exact H.
Qed.

Lemma setRuntimeTimestamp_does key at_ : unix at_ <= max_int64 -> does history_evolves (setRuntimeTimestamp key at_).
Proof.
  intros Hmax w r w' H. destruct r as [u|e].
  - apply setRuntimeTimestamp_Ok in H as ((t & E) & H1 & H2); [|done]. rewrite E in *. split; [|done|done|].
    + intros id row Hr. by exists row.
    + intros key' s Hs. destruct (decide (key' = key)) as [->|Hne].
      * rewrite H1. eexists. split; [done|]. rewrite Hs. cbn. lia.
      * exists s. split; [|done]. unfold timestamp. rewrite H2 by done. exact Hs.
  - apply setRuntimeTimestamp_err in H as ->. reflexivity.
Qed.

(** through any calls of the run repository, with any faults, the history
    only grows: runs keep when, how and for what they began, a run that has
    ended and its results never change, and timestamps never go back. *)
Theorem history_append_only c w r w' :
  run_call_wf c -> run_exec c w = (r, w') -> history_evolves (sw_db w) (sw_db w').
Proof.
  intros Hwf. revert w r w'. change (does history_evolves (run_exec c)).
  destruct c; cbn [run_exec]; unfold void; cbn in Hwf.
  - unfold BeginSyncRun. does_tac. apply does_stmt; [apply _|]. intros d id d' [= _ <-]. split; [|done|done|].
    + intros i row H. exists row. split_and!; [|done..]. cbn. rewrite lookup_insert_ne; [done|].
      intros <-. by rewrite next_id_fresh in H.
    + intros key s H. by exists s.
  - unfold CompleteSyncRun. destruct (statusForResult r) as [status|] eqn:Es; [|does_tac].
    apply require_then; [apply _|intros _]. apply does_tx_Ok; [apply _|]. intros w u w' H. by eapply completion_evolves, complete_body_Ok.
  - unfold ListSyncRuns, with_feeds. does_tac.
  - unfold RecoverInterruptedSyncRuns. does_tac. apply does_stmt; [apply _|]. intros d n d' [= _ <-].
    split; [|done|done|by intros key s H; exists s].
    intros id row H. cbn. rewrite lookup_fmap, H. eexists. split; [done|]. by destruct (is_running row).
  - by apply setRuntimeTimestamp_does.
  - unfold RuntimeTimestamp. does_tac. destruct (_ : option string); does_tac.
Qed.

Lemma history_append_only_witness :
  history_evolves (sw_db ex_begun) (sw_db (run_exec (CallCompleteSyncRun 1 ex_result) ex_begun).2).
Proof.
  assert (run_call_wf (CallCompleteSyncRun 1 ex_result)) as Hwf by (by vm_compute).
  exact (history_append_only (CallCompleteSyncRun 1 ex_result) ex_begun _ _ Hwf (surjective_pairing _)).
Defined.

(** ** Reading back what was recorded *)

(** The history has one word for a degraded feed whose failure is not a
    validation: failed. *)
Definition history_view (f : ops_FeedResult) : ops_FeedResult :=
  if String.eqb (fres_Outcome f) OutcomeDegraded && negb (String.eqb (fres_Failure f) FailureFeedValidation)
  then MkOpsFeedResult (fres_Name f) OutcomeFailed (fres_Failure f) (fres_Accepted f) (fres_Rejected f)
  else f.

(** The counts that the history keeps. *)
Definition kept_counts (c : Counts) : Counts :=
  MkCounts (cn_FeedsSucceeded c) (cn_FeedsFailed c) 0 0 (cn_Added c) (cn_Refreshed c) (cn_Removed c)
    (cn_Rejected c) (cn_Skipped c) (cn_LAPIRequests c) 0.

Lemma feed_result_round_trip f : FeedResult_valid f = true ->
  exists status, feedHistoryStatus f = Some status /\
    feedResultFromHistory (fres_Name f) status (fres_Failure f) (fres_Accepted f) (fres_Rejected f) =
      Ok (history_view f).
Proof.
  intros Hv. pose proof Hv as Hv0. unfold FeedResult_valid in Hv. apply andb_prop in Hv as [Hv Ho].
  assert (In (fres_Outcome f) [OutcomeSuccess; OutcomeNotDue; OutcomeNotModified; OutcomeFailed; OutcomeDegraded])
    as Hin.
  { destruct (one_of (fres_Outcome f) [OutcomeSuccess; OutcomeNotDue; OutcomeNotModified]) eqn:E.
    - apply one_of_In in E. cbn in E |- *. tauto.
    - apply andb_prop in Ho as [Ho _]. apply one_of_In in Ho. cbn in Ho |- *. tauto. }
  unfold feedHistoryStatus, feedResultFromHistory, history_view.
  destruct f as [name outcome failure acc rej]. cbn [fres_Outcome fres_Failure fres_Name fres_Accepted fres_Rejected] in *.
  destruct Hin as [<-|[<-|[<-|[<-|[<-|[]]]]]];
    try (eexists; split; [reflexivity|]; cbn [String.eqb Ascii.eqb Bool.eqb andb]; by rewrite Hv0).
  eexists. split; [reflexivity|].
  destruct (String.eqb failure FailureFeedValidation) eqn:Ef.
  - cbn -[FeedResult_valid OutcomeDegraded]. by rewrite Hv0.
  - assert (FeedResult_valid (MkOpsFeedResult name OutcomeFailed failure acc rej) = true) as Hf.
    { unfold FeedResult_valid. cbn [fres_Outcome fres_Failure fres_Name fres_Accepted fres_Rejected].
      apply andb_true_intro. split; [exact Hv|]. exact Ho. }
    cbn -[FeedResult_valid OutcomeFailed]. by rewrite Hf.
Qed.

Lemma statusForResult_valid r status : statusForResult r = Some status ->
  validRunStatus status = true /\ String.eqb status RunStatusRunning = false.
Proof.
  unfold statusForResult. intros H.
  repeat match goal with H : (if ?b then _ else _) = Some _ |- _ => destruct b end; [by injection H as <-..|done].
Qed.

Lemma result_outcome_failure r : result_outcome_ok r = true ->
  String.eqb (rs_Failure r) "" || ValidFailureCategory (rs_Failure r) = true.
Proof.
  unfold result_outcome_ok. intros H. destruct (String.eqb (rs_Failure r) "") eqn:E; [done|].
  destruct (String.eqb (rs_Outcome r) OutcomeSuccess); [done|].
  destruct (one_of _ _); [done|]. destruct (String.eqb (rs_Outcome r) OutcomeCancelled); [|done].
  destruct (String.eqb (rs_Failure r) FailureCancelled) eqn:E1; [|done].
  apply String.eqb_eq in E1. by rewrite E1.
Qed.

Lemma Result_Validate_facts r : Result_Validate r = None ->
  result_outcome_ok r = true /\ Counts_valid (rs_Counts r) = true /\
  List.Forall (fun f => FeedResult_valid f = true) (rs_Feeds r).
Proof.
  unfold Result_Validate. destruct (result_outcome_ok r); [cbn [negb]|done]. intros H.
  destruct (_ || _) eqn:Et in H; [done|]. repeat (apply orb_false_elim in Et as [Et ?]).
  destruct (feeds_valid ∅ (rs_Feeds r)) eqn:Ef; [|done]. apply feeds_valid_true in Ef as (Hf & _).
  split_and!; [done| |done]. by apply negb_false_iff.
Qed.

Lemma kept_counts_valid c : Counts_valid c = true -> Counts_valid (kept_counts c) = true.
Proof.
  rewrite !Counts_valid_true. unfold count_values. intros H.
  repeat match goal with H : List.Forall _ (_ :: _) |- _ => inversion_clear H end.
  unfold maxCount in *. repeat (constructor; [done|]). constructor.
Qed.

Lemma scan_run_valid id row : (exists rec, scan_run (id, row) = Ok rec) <-> valid_run id row = true.
Proof. unfold scan_run. destruct (valid_run id row); split; [done|eauto|by intros [??]|done]. Qed.

Lemma completed_row_valid id run status r :
  Result_Validate r = None -> statusForResult r = Some status -> valid_run id run = true ->
  valid_run id (completed_row status r run) = true.
Proof.
  intros (Ho & Hc & _)%Result_Validate_facts (Hs & Hn)%statusForResult_valid H. unfold valid_run in *.
  repeat (apply andb_prop in H as [H ?]). cbn [rr_mode rr_status rr_requested rr_error rr_completed completed_row].
  assert (run_counts (completed_row status r run) = kept_counts (rs_Counts r)) as -> by done.
  rewrite Hs, Hn, (kept_counts_valid _ Hc), (result_outcome_failure _ Ho).
  repeat (apply andb_true_intro; split; try done).
Qed.

(** a completed run reads back as the record of its result: its status,
    failure and kept counts, the second of its completion, and every feed with
    its outcome, its failure and its counts, a degraded feed that did not fail
    validation reading as failed. *)
Theorem completed_run_round_trip runID r w w' run :
  CompleteSyncRun runID r w = (Ok tt, w') -> unix (rs_CompletedAt r) <= max_int64 ->
  db_runs (sw_db w) !! runID = Some run -> (exists before, scan_run (runID, run) = Ok before) ->
  (exists row status, db_runs (sw_db w') !! runID = Some row /\ statusForResult r = Some status /\
     scan_run (runID, row) = Ok (MkSyncRunRecord runID (Unix (rr_started run)) (Some (Unix (unix (rs_CompletedAt r))))
       (rr_mode run) (rr_requested run) status (rs_Failure r) (kept_counts (rs_Counts r)) [])) /\
  (forall f, In f (rs_Feeds r) -> exists feed row, feed_by_name (fres_Name f) (sw_db w) = Some feed /\
     db_results (sw_db w') !! (runID, feed) = Some row /\
     scan_result (feed, fres_Name f, row) = Ok (history_view f)).
Proof.
  intros H Hmax Hrun (before & Hb). apply CompleteSyncRun_Ok in H as [Hv Hc]; [|done].
  destruct (Result_Validate_facts r Hv) as (_ & _ & Hvalid).
  destruct Hc as [(row & status & Hrow & Hr & _ & Hst & Eruns) _ _ Hall _ _ _]. split.
  - exists (completed_row status r row), status. assert (row = run) as -> by congruence.
    rewrite Eruns, lookup_insert_eq. split_and!; [done..|].
    unfold scan_run. rewrite (completed_row_valid runID run status r Hv Hst); [done|].
    apply scan_run_valid. by exists before.
  - intros f Hf. destruct (Hall f Hf) as (k & fr & (feed & st & Hfeed & Hs & -> & ->) & Hres).
    assert (FeedResult_valid f = true) as Hfv
      by (by apply (proj1 (List.Forall_forall _ _) Hvalid)).
    destruct (feed_result_round_trip f Hfv) as (st' & Hs' & Hrt). assert (st' = st) as -> by congruence.
    eexists feed, _. split_and!; [done|exact Hres|exact Hrt].
Qed.

Lemma completed_run_round_trip_witness :
  exists w' row, CompleteSyncRun 1 ex_result ex_begun = (Ok tt, w') /\ db_runs (sw_db w') !! 1 = Some row /\
    scan_run (1, row) = Ok (MkSyncRunRecord 1 ex_now (Some ex_later) SyncModeEnforce "" RunStatusDegraded
      FailureFeedDownload (MkCounts 1 0 0 0 2 0 0 0 0 3 0) []).
Proof.
  assert (exists w', CompleteSyncRun 1 ex_result ex_begun = (Ok tt, w')) as (w' & E) by (vm_compute; eauto).
  assert (exists run, db_runs (sw_db ex_begun) !! 1 = Some run) as (run & Hrun) by (vm_compute; eauto).
  assert (unix (rs_CompletedAt ex_result) <= max_int64) as Hmax by (by vm_compute).
  assert (run = MkRunRow 1700000000 None SyncModeEnforce "" RunStatusRunning 0 0 0 0 0 0 0 0 "") as Er
    by (vm_compute in Hrun; injection Hrun as <-; reflexivity).
  assert (exists before, scan_run (1, run) = Ok before) as Hb by (rewrite Er; vm_compute; eauto).
  destruct (completed_run_round_trip 1 ex_result ex_begun w' run E Hmax Hrun Hb) as [(row & st & Hrow & Hst & Hs) _].
  exists w', row. split; [exact E|]. split; [exact Hrow|]. rewrite Hs, Er.
  injection Hst as <-. reflexivity.
Defined.
