(* ===== verification/StatePrune.v ===== *)
(** * Pruning the history ([internal/state/prune.go])

    The rows that are old enough to go: the plan that only counts them, the
    transaction that deletes them, and that both agree.  A delete cascades to
    the rows the schema says it does. *)

From S2P Require Export StateRuns.

Record PruneResult : Type := MkPruneResult {
  pr_SyncRuns : Z; pr_Operations : Z; pr_Decisions : Z; pr_Alerts : Z; pr_EnforcementObjects : Z;
  pr_FeedEntries : Z }.

Definition validPruneOptions (now : Time) (retention : Duration) (maxHistoryEntries : Z) : bool :=
  negb (time_IsZero now) && (0 <=? unix now) && (Hour <=? retention) && (retention <=? 10 * 365 * 24 * Hour) &&
  (1 <=? maxHistoryEntries) && (maxHistoryEntries <=? 1000000).

Definition CountAmbiguousOperations : Store Z :=
  let! count := wrap state.ErrQuery (query (fun d =>
    count_rows (fun _ r => bool_decide (pw_status r = OperationAmbiguous)) (db_operations d))) in
  let! _ := require (negb ((count <? 0) || (100000000 <? count))) (stateError state.ErrQuery None) in
  mok count.

(** ** The rows to delete *)

(** A run that has ended. *)
Definition ended (row : run_row) : bool :=
  match rr_completed row with Some _ => true | None => false end &&
  one_of (rr_status row) [RunStatusSuccess; RunStatusDegraded; RunStatusFailed; RunStatusCancelled].

(** [ORDER BY started_at DESC, id DESC LIMIT ?] *)
Definition recent_runs (limit : Z) (d : DB) : list Z :=
  take (Z.to_nat limit) (map fst (sort_func compare_runs
    (List.filter (fun kv => ended kv.2) (map_to_list (db_runs d))))).

Definition old_run (cutoff limit : Z) (d : DB) (id : Z) (row : run_row) : bool :=
  ended row &&
  (match rr_completed row with Some t => t <? cutoff | None => false end ||
   negb (bool_decide (id ∈ recent_runs limit d))).

Definition old_operation (cutoff : Z) (token : string) (r : operation_row) : bool :=
  match pw_completed r with Some t => t <? cutoff | None => false end &&
  match pw_status r with OperationCompleted | OperationFailed => true | _ => false end.

(** Some item of an operation that stays satisfies [p]. *)
Definition some_item (gone : string -> bool) (p : string * Z -> option Z -> bool) (d : DB) : bool :=
  existsb (fun kv : (string * Z) * option Z => negb (gone kv.1.1) && p kv.1 kv.2) (map_to_list (db_items d)).

Definition refers_to (id : Z) (old : option Z) : bool := bool_decide (old = Some id).

Definition old_decision (cutoff : Z) (gone : string -> bool) (d : DB) (id : Z) (r : decision_row) : bool :=
  match dw_status r with DecisionExpired | DecisionOrphaned => true | _ => false end &&
  (dw_verified r <? cutoff) && (dw_expires r <? cutoff) &&
  negb (some_item gone (fun _ old => refers_to id old) d).

(** Some decision that stays satisfies [p]. *)
Definition some_decision (gone : Z -> decision_row -> bool) (p : decision_row -> bool) (d : DB) : bool :=
  existsb (fun kv : Z * decision_row => negb (gone kv.1 kv.2) && p kv.2) (map_to_list (db_decisions d)).

Definition old_alert (cutoff : Z) (gone : Z -> decision_row -> bool) (d : DB) (id : Z) (r : alert_row) : bool :=
  (aw_created r <? cutoff) && negb (some_decision gone (fun dw => dw_alert_row dw =? id) d).

Definition old_object (cutoff : Z) (gone_op : string -> bool) (gone : Z -> decision_row -> bool) (d : DB)
    (id : Z) (r : object_row) : bool :=
  negb (ow_desired r) && (ow_updated r <? cutoff) &&
  negb (some_decision gone (fun dw => dw_object dw =? id) d) &&
  negb (some_item gone_op (fun key _ => key.2 =? id) d).

Definition old_entry (cutoff : Z) (key : Z * string * Z) (r : entry_row) : bool :=
  negb (ey_active r) && (ey_last_seen r <? cutoff).

(** ** The plan *)

(** [token IN (SELECT token FROM old_operations)] *)
Definition old_token (cutoff : Z) (d : DB) (token : string) : bool :=
  match db_operations d !! token with Some r => old_operation cutoff token r | None => false end.

Definition plan_counts (cutoff limit : Z) (d : DB) : PruneResult :=
  let gone_op := old_token cutoff d in
  let gone := old_decision cutoff gone_op d in
  MkPruneResult (count_rows (old_run cutoff limit d) (db_runs d))
    (count_rows (old_operation cutoff) (db_operations d))
    (count_rows gone (db_decisions d))
    (count_rows (old_alert cutoff gone d) (db_alerts d))
    (count_rows (old_object cutoff gone_op gone d) (db_objects d))
    (count_rows (old_entry cutoff) (db_entries d)).

Definition prune_cutoff (now : Time) (retention : Duration) : Z := unix (time_Add now (- retention)).

Definition PlanPruneHistory (now : Time) (retention : Duration) (maxHistoryEntries : Z) : Store PruneResult :=
  let! _ := require (validPruneOptions now retention maxHistoryEntries) constraint in
  wrap state.ErrQuery (query (plan_counts (prune_cutoff now retention) maxHistoryEntries)).

(** ** The deletions *)

(** The rows of a table that stay. *)
Definition kept `{Countable K} {V} (p : K -> V -> bool) (t : gmap K V) : gmap K V :=
  map_imap (fun k v => if p k v then None else Some v) t.

Definition nothing {A B} (_ : A) (_ : B) : bool := false.
Definition no_token (_ : string) : bool := false.

Definition pruneExec (run : DB -> Z * DB) : Store Z := wrap state.ErrQuery (stmt (fun d => Ok (run d))).

(** The results of a deleted run go with it. *)
Definition delete_runs (cutoff limit : Z) (d : DB) : Z * DB :=
  let p := old_run cutoff limit d in
  (count_rows p (db_runs d),
   set_results (kept (fun k _ => match db_runs d !! k.1 with Some row => p k.1 row | None => false end) (db_results d))
     (set_runs (kept p (db_runs d)) d)).

(** The items of a deleted operation go with it. *)
Definition delete_operations (cutoff : Z) (d : DB) : Z * DB :=
  (count_rows (old_operation cutoff) (db_operations d),
   set_items (kept (fun k _ => old_token cutoff d k.1) (db_items d))
     (set_operations (kept (old_operation cutoff) (db_operations d)) d)).

Definition clear_replaced (gone : Z -> bool) (r : decision_row) : decision_row :=
  match dw_replaced_by r with
  | Some id => if gone id
               then MkDecisionRow (dw_object r) (dw_alert_row r) (dw_decision_id r) (dw_origin r) (dw_scenario r)
                      (dw_scope r) (dw_value r) (dw_created r) (dw_expires r) (dw_verified r) (dw_status r) None
               else r
  | None => r
  end.

(** [ON DELETE SET NULL]: a decision replaced by a deleted one forgets it. *)
Definition delete_decisions (cutoff : Z) (d : DB) : Z * DB :=
  let p := old_decision cutoff no_token d in
  let gone id := match db_decisions d !! id with Some r => p id r | None => false end in
  (count_rows p (db_decisions d), set_decisions (clear_replaced gone <$> kept p (db_decisions d)) d).

Definition delete_alerts (cutoff : Z) (d : DB) : Z * DB :=
  let p := old_alert cutoff nothing d in (count_rows p (db_alerts d), set_alerts (kept p (db_alerts d)) d).

(** The sources of a deleted object go with it. *)
Definition delete_objects (cutoff : Z) (d : DB) : Z * DB :=
  let p := old_object cutoff no_token nothing d in
  (count_rows p (db_objects d),
   set_sources (filter (fun k : Z * Z * Z => 
       (match db_objects d !! k.1.1 with Some r => p k.1.1 r | None => false end) = false)
     (db_sources d)) (set_objects (kept p (db_objects d)) d)).

Definition delete_entries (cutoff : Z) (d : DB) : Z * DB :=
  (count_rows (old_entry cutoff) (db_entries d), set_entries (kept (old_entry cutoff) (db_entries d)) d).

Definition prune_body (cutoff limit : Z) (now : Time) : Store PruneResult :=
  let! runs := pruneExec (delete_runs cutoff limit) in
  let! operations := pruneExec (delete_operations cutoff) in
  let! decisions := pruneExec (delete_decisions cutoff) in
  let! alerts := pruneExec (delete_alerts cutoff) in
  let! objects := pruneExec (delete_objects cutoff) in
  let! entries := pruneExec (delete_entries cutoff) in
  let! _ := setRuntimeTimestamp RuntimeLastPrune now in
  mok (MkPruneResult runs operations decisions alerts objects entries).

Definition PruneHistory (now : Time) (retention : Duration) (maxHistoryEntries : Z) : Store PruneResult :=
  let! _ := require (validPruneOptions now retention maxHistoryEntries) constraint in
  tx (prune_body (prune_cutoff now retention) maxHistoryEntries now).

(** ** The plan and the deletions agree *)

Lemma lookup_kept `{Countable K} {V} (p : K -> V -> bool) (t : gmap K V) k v :
  kept p t !! k = Some v <-> t !! k = Some v /\ p k v = false.
Proof.
  unfold kept. rewrite map_lookup_imap. destruct (t !! k) as [x|]; cbn; [|by split; [|intros [? _]]].
  destruct (p k x) eqn:E; split; [done|intros [[= ->] ?]; congruence|by intros [= ->]|by intros [[= ->] _]].
Qed.

Lemma some_item_true gone p d :
  some_item gone p d = true <-> exists k old, db_items d !! k = Some old /\ gone k.1 = false /\ p k old = true.
Proof.
  unfold some_item. rewrite existsb_exists. split.
  - intros ([k old] & Hin & Hp). apply list_elem_of_In, elem_of_map_to_list in Hin.
    apply andb_prop in Hp as [Hg Hp]. apply negb_true_iff in Hg. by exists k, old.
  - intros (k & old & Hk & Hg & Hp). exists (k, old). split; [by apply list_elem_of_In, elem_of_map_to_list|].
    cbn in *. by rewrite Hg, Hp.
Qed.

Lemma some_decision_true gone p d :
  some_decision gone p d = true <-> exists id r, db_decisions d !! id = Some r /\ gone id r = false /\ p r = true.
Proof.
  unfold some_decision. rewrite existsb_exists. split.
  - intros ([k r] & Hin & Hp). apply list_elem_of_In, elem_of_map_to_list in Hin.
    apply andb_prop in Hp as [Hg Hp]. apply negb_true_iff in Hg. by exists k, r.
  - intros (k & r & Hk & Hg & Hp). exists (k, r). split; [by apply list_elem_of_In, elem_of_map_to_list|].
    cbn in *. by rewrite Hg, Hp.
Qed.

Lemma bool_iff (b c : bool) : (b = true <-> c = true) -> b = c.
Proof. destruct b, c; naive_solver. Qed.

(** Counting what satisfies equivalent predicates. *)
Lemma count_rows_ext `{Countable K} {V} (p q : K -> V -> bool) (t : gmap K V) :
  (forall k v, t !! k = Some v -> p k v = q k v) -> count_rows p t = count_rows q t.
Proof.
  intros Hpq. unfold count_rows, counted. do 3 f_equal. apply List.filter_ext_in. intros [k v] Hin.
  apply Hpq. by apply elem_of_map_to_list, list_elem_of_In.
Qed.

Section Steps.
Context (cutoff limit : Z) (d : DB).

Definition after_runs : DB := (delete_runs cutoff limit d).2.
Definition after_operations : DB := (delete_operations cutoff after_runs).2.
Definition after_decisions : DB := (delete_decisions cutoff after_operations).2.
Definition after_alerts : DB := (delete_alerts cutoff after_decisions).2.
Definition after_objects : DB := (delete_objects cutoff after_alerts).2.
Definition pruned : DB := (delete_entries cutoff after_objects).2.

Lemma some_item_after p : some_item no_token p after_operations = some_item (old_token cutoff d) p d.
Proof.
  apply bool_iff. rewrite !some_item_true. split.
  - intros (k & old & Hk & _ & Hp). cbn in Hk. apply lookup_kept in Hk as [Hk Hg]. by exists k, old.
  - intros (k & old & Hk & Hg & Hp). exists k, old. split_and!; [|done..]. cbn. by apply lookup_kept.
Qed.

Lemma old_decision_after id r :
  old_decision cutoff no_token after_operations id r = old_decision cutoff (old_token cutoff d) d id r.
Proof. unfold old_decision. by rewrite some_item_after. Qed.

Lemma lookup_after_decisions id r : db_decisions after_decisions !! id = Some r <->
  exists r0, db_decisions d !! id = Some r0 /\ old_decision cutoff (old_token cutoff d) d id r0 = false /\
    r = clear_replaced (fun i => match db_decisions d !! i with
                                 | Some x => old_decision cutoff (old_token cutoff d) d i x
                                 | None => false
                                 end) r0.
Proof.
  unfold after_decisions, delete_decisions. cbn [snd db_decisions set_decisions]. rewrite lookup_fmap.
  assert (forall i, match db_decisions after_operations !! i with
     | Some x => old_decision cutoff no_token after_operations i x | None => false end =
     match db_decisions d !! i with Some x => old_decision cutoff (old_token cutoff d) d i x | None => false end) as Hg.
  { intros i. cbn. destruct (db_decisions d !! i); [apply old_decision_after|done]. }
  assert (forall r0, clear_replaced (fun i => match db_decisions after_operations !! i with
     | Some x => old_decision cutoff no_token after_operations i x | None => false end) r0 =
     clear_replaced (fun i => match db_decisions d !! i with
     | Some x => old_decision cutoff (old_token cutoff d) d i x | None => false end) r0) as Hc.
  { intros r0. unfold clear_replaced. destruct (dw_replaced_by r0); [by rewrite Hg|done]. }
  split.
  - intros (r0 & H & ->)%fmap_Some. apply lookup_kept in H as [H1 H2]. rewrite old_decision_after in H2.
    exists r0. split_and!; [exact H1|done|apply Hc].
  - intros (r0 & H1 & H2 & ->). apply fmap_Some. exists r0. split; [|symmetry; apply Hc].
    apply lookup_kept. split; [exact H1|]. by rewrite old_decision_after.
Qed.

Lemma some_decision_after (p : decision_row -> bool) d' : db_decisions d' = db_decisions after_decisions ->
  (forall g r, p (clear_replaced g r) = p r) ->
  some_decision nothing p d' = some_decision (old_decision cutoff (old_token cutoff d) d) p d.
Proof.
  intros Ed Hp. apply bool_iff. rewrite !some_decision_true. rewrite Ed. split.
  - intros (id & r & H & _ & Hr). apply lookup_after_decisions in H as (r0 & H1 & H2 & ->).
    rewrite Hp in Hr. by exists id, r0.
  - intros (id & r & H & Hg & Hr). eexists id, _. split; [by apply lookup_after_decisions; exists r|].
    split; [done|]. by rewrite Hp.
Qed.

Lemma clear_replaced_fields g r :
  dw_object (clear_replaced g r) = dw_object r /\ dw_alert_row (clear_replaced g r) = dw_alert_row r /\
  dw_status (clear_replaced g r) = dw_status r.
Proof. unfold clear_replaced. destruct (dw_replaced_by r) as [i|]; [by destruct (g i)|done]. Qed.

Lemma old_alert_after id r :
  old_alert cutoff nothing after_decisions id r = old_alert cutoff (old_decision cutoff (old_token cutoff d) d) d id r.
Proof.
  unfold old_alert. rewrite (some_decision_after _ after_decisions eq_refl); [done|].
  intros g x. by destruct (clear_replaced_fields g x) as (_ & -> & _).
Qed.

Lemma old_object_after id r :
  old_object cutoff no_token nothing after_alerts id r =
  old_object cutoff (old_token cutoff d) (old_decision cutoff (old_token cutoff d) d) d id r.
Proof.
  unfold old_object. rewrite (some_decision_after _ after_alerts eq_refl).
  - change (some_item no_token (fun key _ => key.2 =? id) after_alerts) with
      (some_item no_token (fun key _ => key.2 =? id) after_operations). by rewrite some_item_after.
  - intros g x. by destruct (clear_replaced_fields g x) as (-> & _ & _).
Qed.

(** The counts of the deletions, one after the other, are those of the plan. *)
Lemma prune_counts :
  MkPruneResult (delete_runs cutoff limit d).1 (delete_operations cutoff after_runs).1
    (delete_decisions cutoff after_operations).1 (delete_alerts cutoff after_decisions).1
    (delete_objects cutoff after_alerts).1 (delete_entries cutoff after_objects).1 = plan_counts cutoff limit d.
Proof.
  unfold plan_counts. cbv zeta. cbn [fst delete_runs delete_operations delete_decisions delete_alerts delete_objects
    delete_entries]. f_equal; try done.
  - apply count_rows_ext. intros id r _. apply old_decision_after.
  - apply count_rows_ext. intros id r _. apply old_alert_after.
  - apply count_rows_ext. intros id r _. apply old_object_after.
Qed.
End Steps.

Lemma pruneExec_Ok run w n w' : pruneExec run w = (Ok n, w') -> run (sw_db w) = (n, sw_db w').
Proof. intros H. apply wrap_stmt_Ok in H. by injection H. Qed.

Lemma pruneExec_then {A} run (k : Z -> Store A) w a w' :
  (let! n := pruneExec run in k n) w = (Ok a, w') ->
  exists w1, sw_db w1 = (run (sw_db w)).2 /\ k (run (sw_db w)).1 w1 = (Ok a, w').
Proof.
  intros H. apply mthen_ok in H as (n & w1 & H1 & H). apply pruneExec_Ok in H1. exists w1. by rewrite H1.
Qed.

Lemma prune_body_Ok cutoff limit now w r w' :
  prune_body cutoff limit now w = (Ok r, w') ->
  r = plan_counts cutoff limit (sw_db w) /\
  exists w1, sw_db w1 = pruned cutoff limit (sw_db w) /\ setRuntimeTimestamp RuntimeLastPrune now w1 = (Ok tt, w').
Proof.
  intros H. unfold prune_body in H. apply pruneExec_then in H as (w1 & E1 & H).
  apply pruneExec_then in H as (w2 & E2 & H). apply pruneExec_then in H as (w3 & E3 & H).
  apply pruneExec_then in H as (w4 & E4 & H). apply pruneExec_then in H as (w5 & E5 & H).
  apply pruneExec_then in H as (w6 & E6 & H). apply mthen_ok in H as ([] & w7 & H1 & H).
  unfold pruned. rewrite <- (prune_counts cutoff limit (sw_db w)).
  unfold after_objects, after_alerts, after_decisions, after_operations, after_runs.
  rewrite <- E1, <- E2, <- E3, <- E4, <- E5. injection H as H <-. split; [by symmetry|].
  exists w6. split; [exact E6|exact H1].
Qed.

Lemma PruneHistory_Ok now retention limit w r w' :
  PruneHistory now retention limit w = (Ok r, w') ->
  validPruneOptions now retention limit = true /\ r = plan_counts (prune_cutoff now retention) limit (sw_db w) /\
  exists w1 w2, sw_db w1 = pruned (prune_cutoff now retention) limit (sw_db w) /\
    setRuntimeTimestamp RuntimeLastPrune now w1 = (Ok tt, w2) /\ sw_db w' = sw_db w2.
Proof.
  unfold PruneHistory. intros H. apply require_Ok in H as [Hv H]. split; [done|].
  apply tx_Ok in H as (w1 & w2 & <- & H & ->). apply prune_body_Ok in H as [-> (w3 & E & H)]. eauto 6.
Qed.

(** what a pruning deletes is exactly what its plan counts: the plan,
    asked before on the same database, returns the counts of the pruning. *)
Theorem PruneHistory_plan now retention limit w r w' :
  PruneHistory now retention limit w = (Ok r, w') ->
  PlanPruneHistory now retention limit (MkSW (sw_db w) []) = (Ok r, MkSW (sw_db w) []).
Proof.
  intros (Hv & -> & _)%PruneHistory_Ok. unfold PlanPruneHistory, mthen, require. by rewrite Hv.
Qed.

(** An old run, an old operation with its item, the decision it replaced, and
    an entry and an object that are gone from the feeds; the run is still
    running on the other row. *)
Definition ex_old : DB :=
  set_runs {[ 1 := MkRunRow 1000 (Some 1060) SyncModeEnforce "" RunStatusSuccess 1 0 0 0 0 0 0 0 "";
              2 := MkRunRow 2000 None SyncModeEnforce "" RunStatusRunning 0 0 0 0 0 0 0 0 "" ]}
  (set_results {[ (1, 1) := MkFeedRunRow "success" 1 0 "" ]}
  (set_alerts {[ 1 := MkAlertRow 5 ex_token "m" "o" "s" 1000 1000 ]}
  (set_decisions {[ 1 := MkDecisionRow 1 1 11 "o" "s" ScopeRange "8.8.8.0/24" 1000 1000 1000 DecisionExpired None ]}
  (set_entries {[ (2, "8.8.8.0/24"%string, 2) := MkEntryRow 4 24 1000 1000 3 false;
                  (2, "9.9.9.0/24"%string, 2) := MkEntryRow 4 24 1000 1000 0 true ]} ex_db)))).

Lemma PruneHistory_plan_witness :
  PlanPruneHistory ex_now Hour 10 (MkSW ex_old []) = (Ok (MkPruneResult 1 0 1 1 0 1), MkSW ex_old []).
Proof.
  assert (exists w', PruneHistory ex_now Hour 10 (MkSW ex_old []) = (Ok (MkPruneResult 1 0 1 1 0 1), w'))
    as (w' & E) by (vm_compute; eauto).
  exact (PruneHistory_plan ex_now Hour 10 (MkSW ex_old []) _ w' E).
Defined.

(** ** What a pruning keeps *)

Lemma delete_operations_db_ok cutoff d : db_ok d -> db_ok (delete_operations cutoff d).2.
Proof.
  intros [H1 H2 H3 H4 H5 H6 H7 H8]. split; cbn; try done.
  - intros t r Hr. apply lookup_kept in Hr as [Hr _]. by apply H4.
  - intros t o old Hk. apply lookup_kept in Hk as [Hk Hg]. destruct (H5 t o old Hk) as ([r Hr] & Ho & Hd).
    split_and!; [|done..]. exists r. apply lookup_kept. split; [done|]. unfold old_token in Hg. cbn in Hg.
    by rewrite Hr in Hg.
Qed.

Lemma delete_decisions_db_ok cutoff d : db_ok d -> db_ok (delete_decisions cutoff d).2.
Proof.
  intros [H1 H2 H3 H4 H5 H6 H7 H8].
  set (p := old_decision cutoff no_token d).
  set (gone := fun id => match db_decisions d !! id with Some r => p id r | None => false end).
  assert (forall i r, db_decisions (delete_decisions cutoff d).2 !! i = Some r ->
    exists r0, db_decisions d !! i = Some r0 /\ p i r0 = false /\ r = clear_replaced gone r0) as Hd.
  { cbn. intros i r H. rewrite lookup_fmap in H. apply fmap_Some in H as (r0 & H & ->).
    apply lookup_kept in H as [? ?]. by exists r0. }
  assert (forall i r, db_decisions d !! i = Some r -> p i r = false ->
    is_Some (db_decisions (delete_decisions cutoff d).2 !! i)) as Hk.
  { intros i r Hr Hp. cbn. rewrite lookup_fmap. apply fmap_is_Some. exists r. by apply lookup_kept. }
  split; try done.
  - intros t o old Hi. destruct (H5 t o old Hi) as (Hop & Ho & Hold). split_and!; [done..|].
    intros i ->. destruct (Hold i eq_refl) as [r Hr]. apply (Hk i r Hr). unfold p, old_decision.
    assert (some_item no_token (fun _ old => refers_to i old) d = true) as ->;
      [|by rewrite andb_false_r].
    apply some_item_true. exists (t, o), (Some i). split_and!; [done..|]. unfold refers_to. by case_bool_decide.
  - intros i r Hr. apply Hd in Hr as (r0 & Hr & Hp & ->). destruct (H7 i r0 Hr) as (Ho & Ha & Hact & Hrep).
    destruct (clear_replaced_fields gone r0) as (E1 & E2 & E3). unfold decision_ok. rewrite E1, E2, E3.
    split_and!; [done|done| |].
    + intros Hs. specialize (Hact Hs). unfold clear_replaced. destruct (dw_replaced_by r0) eqn:Em; congruence.
    + intros n. unfold clear_replaced. destruct (dw_replaced_by r0) as [m|] eqn:Em; [|congruence].
      destruct (gone m) eqn:Eg; [done|]. rewrite Em. intros [= <-]. destruct (Hrep m eq_refl) as [x Hx].
      apply (Hk m x Hx). unfold gone in Eg. by rewrite Hx in Eg.
  - intros i j r s Hr Hs E. apply Hd in Hr as (r0 & Hr & _ & ->). apply Hd in Hs as (s0 & Hs & _ & ->).
    apply (H8 i j r0 s0 Hr Hs). revert E. unfold clear_replaced.
    destruct (dw_replaced_by r0) as [a|]; [destruct (gone a)|]; (destruct (dw_replaced_by s0) as [b|]; [destruct (gone b)|]);
      exact id.
Qed.

Lemma delete_alerts_db_ok cutoff d : db_ok d -> db_ok (delete_alerts cutoff d).2.
Proof.
  intros [H1 H2 H3 H4 H5 H6 H7 H8]. split; cbn; try done.
  - intros i j r s Hr Hs. apply lookup_kept in Hr as [Hr _]. apply lookup_kept in Hs as [Hs _]. by apply H6.
  - intros i r Hr. destruct (H7 i r Hr) as (Ho & [a Ha] & Hrest). split_and!; [done| |by apply Hrest..].
    exists a. apply lookup_kept. split; [done|]. unfold old_alert.
    assert (some_decision nothing (fun dw => dw_alert_row dw =? dw_alert_row r) d = true) as ->;
      [|by rewrite andb_false_r].
    apply some_decision_true. exists i, r. split_and!; [done..|apply Z.eqb_refl].
Qed.

Lemma delete_objects_db_ok cutoff d : db_ok d -> db_ok (delete_objects cutoff d).2.
Proof.
  intros [H1 H2 H3 H4 H5 H6 H7 H8]. split; cbn; try done.
  - intros i r Hr. apply lookup_kept in Hr as [Hr _]. by apply (H1 i r Hr).
  - intros i j r s Hr Hs. apply lookup_kept in Hr as [Hr _]. apply lookup_kept in Hs as [Hs _]. by apply H2.
  - intros o f k [Hk Hin]%elem_of_filter. cbn in Hk. destruct (H3 o f k Hin) as ([r Hr] & Hf & Hkk).
    split_and!; [|done..]. exists r. apply lookup_kept. by rewrite Hr in Hk.
  - intros t o old Hi. destruct (H5 t o old Hi) as (Hop & [r Hr] & Hold). split_and!; [done| |done].
    exists r. apply lookup_kept. split; [done|]. unfold old_object.
    assert (some_item no_token (fun key _ => key.2 =? o) d = true) as ->; [|by rewrite andb_false_r].
    apply some_item_true. exists (t, o), old. split_and!; [done..|apply Z.eqb_refl].
  - intros i r Hr. destruct (H7 i r Hr) as ([o Ho] & Ha & Hrest). split_and!; [|done|by apply Hrest..].
    exists o. apply lookup_kept. split; [done|]. unfold old_object.
    assert (some_decision nothing (fun dw => dw_object dw =? dw_object r) d = true) as ->;
      [|by rewrite andb_false_r].
    apply some_decision_true. exists i, r. split_and!; [done..|apply Z.eqb_refl].
Qed.

Lemma delete_runs_db_ok cutoff limit d : db_ok d -> db_ok (delete_runs cutoff limit d).2.
Proof. intros [H1 H2 H3 H4 H5 H6 H7 H8]. by split. Qed.

Lemma delete_entries_db_ok cutoff d : db_ok d -> db_ok (delete_entries cutoff d).2.
Proof. intros [H1 H2 H3 H4 H5 H6 H7 H8]. by split. Qed.

Lemma pruned_db_ok cutoff limit d : db_ok d -> db_ok (pruned cutoff limit d).
Proof.
  intros H. by apply delete_entries_db_ok, delete_objects_db_ok, delete_alerts_db_ok, delete_decisions_db_ok,
    delete_operations_db_ok, delete_runs_db_ok.
Qed.

(** The live part of the history, from [d] to [d']. *)
Record live_kept (cutoff limit : Z) (d d' : DB) : Prop := {
  lk_feeds : db_feeds d' = db_feeds d;
  lk_entries : forall k r, db_entries d !! k = Some r -> ey_active r = true \/ cutoff <= ey_last_seen r ->
    db_entries d' !! k = Some r;
  lk_desired : forall i r, db_objects d !! i = Some r -> ow_desired r = true \/ cutoff <= ow_updated r ->
    db_objects d' !! i = Some r /\ forall f k, (i, f, k) ∈ db_sources d -> (i, f, k) ∈ db_sources d';
  lk_operations : forall t r, db_operations d !! t = Some r -> old_operation cutoff t r = false ->
    db_operations d' !! t = Some r /\
    forall o old, db_items d !! (t, o) = Some old -> db_items d' !! (t, o) = Some old;
  lk_decisions : forall i r, db_decisions d !! i = Some r -> dw_status r = DecisionActive \/ dw_status r = DecisionExpiring ->
    exists r', db_decisions d' !! i = Some r' /\ exists g, r' = clear_replaced g r;
  lk_alerts : forall i r a, db_decisions d' !! i = Some r -> db_alerts d !! dw_alert_row r = Some a ->
    db_alerts d' !! dw_alert_row r = Some a;
  lk_runs : forall i row, db_runs d !! i = Some row ->
    is_running row = true \/ (ended row = true /\ i ∈ recent_runs limit d /\
                              forall t, rr_completed row = Some t -> cutoff <= t) ->
    db_runs d' !! i = Some row /\ forall f x, db_results d !! (i, f) = Some x -> db_results d' !! (i, f) = Some x }.

Lemma running_not_ended row : is_running row = true -> ended row = false.
Proof.
  unfold is_running, ended. intros H%String.eqb_eq. rewrite H.
  change (one_of RunStatusRunning _) with false. apply andb_false_r.
Qed.

Lemma pruned_live_kept cutoff limit d : live_kept cutoff limit d (pruned cutoff limit d).
Proof.
  split.
  - done.
  - intros k r Hr Hl. cbn. apply lookup_kept. split; [exact Hr|]. unfold old_entry.
    destruct Hl as [->|Hl]; [done|]. destruct (Z.ltb_spec (ey_last_seen r) cutoff); [lia|apply andb_false_r].
  - intros i r Hr Hl.
    assert (old_object cutoff no_token nothing (after_alerts cutoff limit d) i r = false) as Hold.
    { unfold old_object. destruct Hl as [->|Hl]; [done|].
      destruct (Z.ltb_spec (ow_updated r) cutoff); [lia|by rewrite andb_false_r]. }
    split.
    + cbn. apply lookup_kept. split; [exact Hr|exact Hold].
    + intros f k Hk. cbn. apply elem_of_filter. split; [|exact Hk]. cbn [fst].
      change (db_objects (after_alerts cutoff limit d)) with (db_objects d). rewrite Hr. exact Hold.
  - intros t r Hr Hl. split.
    + cbn. by apply lookup_kept.
    + intros o old Ho. cbn. apply lookup_kept. split; [exact Ho|]. unfold old_token. cbn. by rewrite Hr.
  - intros i r Hr Hl. eexists. split; [|by eexists].
    apply (lookup_after_decisions cutoff limit d). exists r. split_and!; [exact Hr| |reflexivity].
    unfold old_decision. by destruct Hl as [-> | ->].
  - intros i r a Hr Ha. change (db_decisions (pruned cutoff limit d)) with
      (db_decisions (after_decisions cutoff limit d)) in Hr. cbn. apply lookup_kept. split; [exact Ha|].
    change (old_alert cutoff nothing (after_decisions cutoff limit d) (dw_alert_row r) a = false). unfold old_alert.
    assert (some_decision nothing (fun dw => dw_alert_row dw =? dw_alert_row r) (after_decisions cutoff limit d) = true) as ->;
      [|by rewrite andb_false_r].
    apply some_decision_true. exists i, r. split_and!; [exact Hr|done|apply Z.eqb_refl].
  - intros i row Hr Hl.
    assert (old_run cutoff limit d i row = false) as Hold.
    { unfold old_run. destruct Hl as [Hl|(He & Hin & Ht)]; [by rewrite running_not_ended|].
      rewrite He, bool_decide_eq_true_2, orb_false_r by done. cbn [andb].
      destruct (rr_completed row) as [t|]; [|done]. apply Z.ltb_ge. by apply Ht. }
    split.
    + cbn. by apply lookup_kept.
    + intros f x Hx. cbn. apply lookup_kept. split; [exact Hx|]. cbn [fst]. by rewrite Hr.
Qed.

Lemma live_kept_runtime cutoff limit d d' t : live_kept cutoff limit d d' -> live_kept cutoff limit d (set_runtime t d').
Proof. intros [H1 H2 H3 H4 H5 H6 H7]. by split. Qed.

Lemma db_ok_runtime t d : db_ok d -> db_ok (set_runtime t d).
Proof. intros [H1 H2 H3 H4 H5 H6 H7 H8]. by split. Qed.

(** a pruning keeps what is in use: the feeds, the active and the recent
    entries, the desired objects with their sources, the operations that are
    open or recent with their items, every decision that is live, the alert of
    every decision that stays, the runs that are running or both recent and
    among the newest, with their results; and the invariants of the tables. *)
Theorem PruneHistory_keeps now retention limit w r w' :
  PruneHistory now retention limit w = (Ok r, w') -> unix now <= max_int64 ->
  live_kept (prune_cutoff now retention) limit (sw_db w) (sw_db w') /\
  (db_ok (sw_db w) -> db_ok (sw_db w')) /\
  timestamp RuntimeLastPrune (sw_db w') = Some (later_of (timestamp RuntimeLastPrune (sw_db w)) (unix now)).
Proof.
  intros (_ & _ & w1 & w2 & E1 & Hs & E2)%PruneHistory_Ok Hmax.
  apply setRuntimeTimestamp_Ok in Hs as ((t & E) & Ht & _); [|done]. rewrite E2. split_and!.
  - rewrite E, E1. apply live_kept_runtime, pruned_live_kept.
  - intros Hok. rewrite E, E1. by apply db_ok_runtime, pruned_db_ok.
  - rewrite Ht, E1. reflexivity.
Qed.

Lemma PruneHistory_keeps_witness :
  exists w', PruneHistory ex_now Hour 10 (MkSW ex_old []) = (Ok (MkPruneResult 1 0 1 1 0 1), w') /\
    db_runs (sw_db w') !! 2 = db_runs ex_old !! 2 /\ db_runs (sw_db w') !! 1 = None.
Proof.
  assert (exists w', PruneHistory ex_now Hour 10 (MkSW ex_old []) = (Ok (MkPruneResult 1 0 1 1 0 1), w') /\
    db_runs (sw_db w') !! 1 = None) as (w' & E & Hgone) by (vm_compute; eauto).
  exists w'. split; [exact E|]. split; [|exact Hgone].
  assert (unix ex_now <= max_int64) as Hmax by (by vm_compute).
  destruct (PruneHistory_keeps ex_now Hour 10 (MkSW ex_old []) _ w' E Hmax) as [[_ _ _ _ _ _ Hruns] _].
  destruct (Hruns 2 (MkRunRow 2000 None SyncModeEnforce "" RunStatusRunning 0 0 0 0 0 0 0 0 "")) as [H _];
    [by vm_compute|left; by vm_compute|]. rewrite H. by vm_compute.
Defined.
