(* ===== verification/GoTime.v ===== *)
(** * Texts of instants and durations

    The functions of the package [time] that read and write texts:
    [time.Parse(time.RFC3339, _)], [time.ParseDuration] and
    [Duration.String]. *)

From S2P Require Export Errors.

(** ** The civil calendar *)

Definition is_leap (y : Z) : bool := (y mod 4 =? 0) && (negb (y mod 100 =? 0) || (y mod 400 =? 0)).

Definition daysIn (month year : Z) : Z :=
  if month =? 2 then (if is_leap year then 29 else 28)
  else if (month =? 4) || (month =? 6) || (month =? 9) || (month =? 11) then 30 else 31.

(** Days from January 1 of year 1 to January 1 of year [y]. *)
Definition days_before_year (y : Z) : Z :=
  let p := y - 1 in 365 * p + p / 4 - p / 100 + p / 400.

Fixpoint days_before_month (n : nat) (year : Z) : Z :=
  match n with
  | O => 0
  | S m => days_before_month m year + daysIn (Z.of_nat n) year
  end.

(** [time.Date(year, month, day, hour, min, sec, nsec, time.UTC)] for fields
    in their ranges. *)
Definition time_Date (year month day hour min sec nsec : Z) : Time :=
  let days := days_before_year year + days_before_month (Z.to_nat (month - 1)) year + (day - 1) in
  (((days * 24 + hour) * 60 + min) * 60 + sec) * Second + nsec.

(** ** [time.Parse] with the layout [time.RFC3339] *)

Definition err_parse : error := Foreign "time: cannot parse".

Definition digit_of (c : ascii) : Z := byte_of c - 48.

(** [getnum]: two digits, or one when [fixed] is not set. *)
Definition getnum (s : string) (fixed : bool) : option (Z * string) :=
  match s with
  | String a rest =>
      if negb (is_digit a) then None
      else match rest with
           | String b rest' =>
               if is_digit b then Some (digit_of a * 10 + digit_of b, rest')
               else if fixed then None else Some (digit_of a, rest)
           | EmptyString => if fixed then None else Some (digit_of a, rest)
           end
  | EmptyString => None
  end.

(** [skip]: a literal character of the layout. *)
Definition skip (c : ascii) (s : string) : option string :=
  match s with
  | String d rest => if Ascii.eqb c d then Some rest else None
  | EmptyString => None
  end.

(** The [2006] field: four characters, the first a digit, read by [atoi]. *)
Definition get_year (s : string) : option (Z * string) :=
  match s with
  | String a (String b (String c (String d rest))) =>
      if negb (is_digit a) then None
      else match digits_value (String a (String b (String c (String d "")))) with
           | Some y => Some (y, rest)
           | None => None
           end
  | _ => None
  end.

Fixpoint take_digits (s : string) : string * string :=
  match s with
  | String c rest => if is_digit c then let '(ds, r) := take_digits rest in (String c ds, r) else ("", s)
  | EmptyString => ("", "")
  end.

(** [parseNanoseconds] of the digits after the point: at most nine count. *)
Fixpoint nanoseconds (places : nat) (ds : string) : Z :=
  match places, ds with
  | S n, String c rest => digit_of c * 10 ^ Z.of_nat n + nanoseconds n rest
  | _, _ => 0
  end.

(** A fraction of a second that the layout does not have. *)
Definition get_fraction (s : string) : Z * string :=
  match s with
  | String c (String d rest) =>
      if (Ascii.eqb c "." || Ascii.eqb c ",") && is_digit d
      then let '(ds, r) := take_digits (String d rest) in (nanoseconds 9 ds, r)
      else (0, s)
  | _ => (0, s)
  end.

(** The [Z07:00] field: the offset in seconds. *)
Definition get_zone (s : string) : option (Z * string) :=
  match s with
  | String "Z" rest => Some (0, rest)
  | String sign (String h1 (String h2 (String colon (String m1 (String m2 rest))))) =>
      if negb (Ascii.eqb colon ":") then None
      else match getnum (String h1 (String h2 "")) true, getnum (String m1 (String m2 "")) true with
           | Some (hr, _), Some (mm, _) =>
               if (24 <? hr) || (60 <? mm) then None
               else if Ascii.eqb sign "+" then Some ((hr * 60 + mm) * 60, rest)
               else if Ascii.eqb sign "-" then Some (- ((hr * 60 + mm) * 60), rest)
               else None
           | _, _ => None
           end
  | _ => None
  end.

Definition obind {A B} (o : option A) (k : A -> option B) : option B :=
  match o with Some a => k a | None => None end.
Notation "'let^' x ':=' c 'in' k" := (obind c (fun x => k))
  (at level 10, x pattern, c at level 200, k at level 200) : go_scope.
Notation "'guard' b 'in' k" := (if b then k else None) (at level 10, b at level 200, k at level 200) : go_scope.

(** A field in a range. *)
Definition ranged (lo hi : Z) (o : option (Z * string)) : option (Z * string) :=
  match o with
  | Some (v, rest) => if in_range lo hi v then Some (v, rest) else None
  | None => None
  end.

Definition parse_date (s : string) : option (Z * Z * Z * string) :=
  let^ (year, s) := get_year s in let^ s := skip "-" s in
  let^ (month, s) := ranged 1 12 (getnum s true) in let^ s := skip "-" s in
  let^ (day, s) := getnum s true in
  Some (year, month, day, s).

Definition parse_clock (s : string) : option (Z * Z * Z * Z * string) :=
  let^ (hour, s) := ranged 0 23 (getnum s false) in let^ s := skip ":" s in
  let^ (min, s) := ranged 0 59 (getnum s true) in let^ s := skip ":" s in
  let^ (sec, s) := ranged 0 59 (getnum s true) in
  let '(nsec, s) := get_fraction s in
  Some (hour, min, sec, nsec, s).

Definition parse_rfc3339 (s : string) : option Time :=
  let^ (year, month, day, s) := parse_date s in let^ s := skip "T" s in
  let^ (hour, min, sec, nsec, s) := parse_clock s in
  let^ (offset, s) := get_zone s in
  if negb (String.eqb s "") then None
  else if negb (in_range 1 (daysIn month year) day) then None
  else Some (time_Date year month day hour min sec nsec - offset * Second).

Definition Parse_RFC3339 (s : string) : result error Time :=
  match parse_rfc3339 s with Some t => Ok t | None => Err err_parse end.

(** ** [time.ParseDuration] *)

Definition err_duration : error := Foreign "time: invalid duration".

(** [leadingInt]: the digits at the head of the text, failing over 2^63. *)
Fixpoint leadingInt (x : Z) (s : string) : option (Z * string) :=
  match s with
  | String c rest =>
      if is_digit c then
        if 2 ^ 63 / 10 <? x then None
        else let x' := x * 10 + digit_of c in
             if 2 ^ 63 <? x' then None else leadingInt x' rest
      else Some (x, s)
  | EmptyString => Some (x, s)
  end.

Definition float_mul (a b : float64) : float64 := SFmul 53 1024 a b.
Definition float_ten : float64 := float_of_int 10.

(** [leadingFraction]: the digits that fit, and the power of ten below them. *)
Fixpoint leadingFraction (x : Z) (scale : float64) (overflow : bool) (s : string) : Z * float64 * string :=
  match s with
  | String c rest =>
      if is_digit c then
        if overflow then leadingFraction x scale true rest
        else if max_int64 / 10 <? x then leadingFraction x scale true rest
        else let y := x * 10 + digit_of c in
             if 2 ^ 63 <? y then leadingFraction x scale true rest
             else leadingFraction y (float_mul scale float_ten) false rest
      else (x, scale, s)
  | EmptyString => (x, scale, s)
  end.

(** The unit: everything up to the next digit or point. *)
Fixpoint take_unit (s : string) : string * string :=
  match s with
  | String c rest =>
      if is_digit c || Ascii.eqb c "." then ("", s)
      else let '(u, r) := take_unit rest in (String c u, r)
  | EmptyString => ("", "")
  end.

(** [unitMap]; the two spellings of the micro sign are U+00B5 and U+03BC. *)
Definition unit_of (u : string) : option Z :=
  if String.eqb u "ns" then Some 1
  else if String.eqb u "us" || String.eqb u (String "194" (String "181" "s")) ||
          String.eqb u (String "206" (String "188" "s")) then Some Microsecond
  else if String.eqb u "ms" then Some Millisecond
  else if String.eqb u "s" then Some Second
  else if String.eqb u "m" then Some Minute
  else if String.eqb u "h" then Some Hour
  else None.

(** The conversion of a non-negative [float64] to [uint64]. *)
Definition float_trunc (f : float64) : Z :=
  match f with
  | S754_finite false m e => if 0 <=? e then Z.pos m * 2 ^ e else Z.pos m / 2 ^ (- e)
  | _ => 0
  end.

Definition fraction_of (f : Z) (scale : float64) (unit : Z) : Z :=
  if 0 <? f
  then float_trunc (float_mul (float_of_int f) (float_div (float_of_int unit) scale))
  else 0.

(** The digits after a point, if there is one. *)
Definition get_decimals (s : string) : Z * float64 * bool * string :=
  match s with
  | String "." rest =>
      let '(f, scale, r) := leadingFraction 0 (float_of_int 1) false rest in
      (f, scale, negb (len r =? len rest), r)
  | _ => (0, float_of_int 1, false, s)
  end.

(** One number with its unit: its nanoseconds and the rest of the text. *)
Definition duration_term (s : string) : option (Z * string) :=
  match s with
  | EmptyString => None
  | String c _ =>
      if negb (is_digit c || Ascii.eqb c ".") then None
      else
        let^ (v, s1) := leadingInt 0 s in
        let pre := negb (len s1 =? len s) in
        let '(f, scale, post, s2) := get_decimals s1 in
        if negb pre && negb post then None
        else
          let '(u, s3) := take_unit s2 in
          let^ unit := unit_of u in
          if 2 ^ 63 / unit <? v then None
          else let v' := v * unit + fraction_of f scale unit in
               if 2 ^ 63 <? v' then None else Some (v', s3)
  end.

(** The terms; each consumes at least one character, so the length of the
    text is fuel enough ([duration_terms_fuel]). *)
Fixpoint duration_terms (fuel : nat) (d : Z) (s : string) : option Z :=
  match fuel with
  | O => if String.eqb s "" then Some d else None
  | S n =>
      if String.eqb s "" then Some d
      else
        let^ (v, s') := duration_term s in
        let d' := d + v in
        if 2 ^ 63 <? d' then None else duration_terms n d' s'
  end.

Definition parse_duration (s : string) : option Duration :=
  let '(neg, s) := match s with
                   | String "-" rest => (true, rest)
                   | String "+" rest => (false, rest)
                   | _ => (false, s)
                   end in
  if String.eqb s "0" then Some 0
  else if String.eqb s "" then None
  else
    let^ d := duration_terms (String.length s) 0 s in
    if neg then Some (- d) else if max_int64 <? d then None else Some d.

Definition ParseDuration (s : string) : result error Duration :=
  match parse_duration s with Some d => Ok d | None => Err err_duration end.

Example parse_1 : parse_rfc3339 "2023-11-14T22:13:20Z" = Some (Unix 1700000000).
Proof. by vm_compute. Qed.
Example parse_2 : parse_rfc3339 "2023-11-15T00:13:20.25+02:00" = Some (Unix 1700000000 + 250 * Millisecond).
Proof. by vm_compute. Qed.
Example parse_3 : parse_rfc3339 "2023-02-29T22:13:20Z" = None.
Proof. by vm_compute. Qed.
Example duration_1 : parse_duration "24h59m58.5s" = Some (24 * Hour + 59 * Minute + 58 * Second + 500 * Millisecond).
Proof. by vm_compute. Qed.
Example duration_2 : parse_duration "-1.5h" = Some (- 90 * Minute).
Proof. by vm_compute. Qed.
Example duration_3 : parse_duration "9223372036854775808ns" = None.
Proof. by vm_compute. Qed.
Example duration_4 : parse_duration "-9223372036854775808ns" = Some min_int64.
Proof. by vm_compute. Qed.

(** ** Lemmas *)

Lemma leadingInt_length x s v r : leadingInt x s = Some (v, r) -> (String.length r <= String.length s)%nat.
Proof.
  revert x. induction s as [|c s IH]; intros x; cbn [leadingInt]; [by intros [= _ <-]|].
  destruct (is_digit c); [|by intros [= _ <-]]. destruct (_ <? _); [done|].
  destruct (_ <? _); [done|]. intros H%IH. cbn. lia.
Qed.

Lemma leadingInt_head x c s v r :
  is_digit c = true -> leadingInt x (String c s) = Some (v, r) -> (String.length r <= String.length s)%nat.
Proof.
  cbn [leadingInt]. intros ->. destruct (_ <? _); [done|]. destruct (_ <? _); [done|]. apply leadingInt_length.
Qed.

Lemma leadingFraction_length x scale o s f sc r :
  leadingFraction x scale o s = (f, sc, r) -> (String.length r <= String.length s)%nat.
Proof.
  revert x scale o. induction s as [|c s IH]; intros x scale o; cbn [leadingFraction]; [by intros [= _ _ <-]|].
  destruct (is_digit c); [|by intros [= _ _ <-]].
  destruct o; [intros H%IH; cbn; lia|]. destruct (_ <? _); [intros H%IH; cbn; lia|].
  destruct (_ <? _); intros H%IH; cbn; lia.
Qed.

Lemma get_decimals_length s f sc post r :
  get_decimals s = (f, sc, post, r) -> (String.length r <= String.length s)%nat.
Proof.
  unfold get_decimals. destruct s as [|c s]; [by intros [= _ _ _ <-]|].
  destruct (Ascii.eqb_spec c ".") as [->|Hne].
  - destruct (leadingFraction _ _ _ s) as [[f' sc'] r'] eqn:E. intros [= _ _ _ <-].
    apply leadingFraction_length in E. cbn. lia.
  - intros H. assert (r = String c s) as ->; [|done].
    destruct c as [[] [] [] [] [] [] [] []]; cbn in *; congruence.
Qed.

Lemma take_unit_length s u r : take_unit s = (u, r) ->
  (String.length r <= String.length s)%nat /\ (u <> "" -> (String.length r < String.length s)%nat).
Proof.
  revert u r. induction s as [|c s IH]; intros u r; cbn [take_unit]; [by intros [= <- <-]|].
  destruct (_ || _); [by intros [= <- <-]|]. destruct (take_unit s) as [u' r'] eqn:E. intros [= <- <-].
  destruct (IH u' r' eq_refl) as [H _]. cbn. split; [lia|intros _; lia].
Qed.

Lemma duration_term_length s v s' :
  duration_term s = Some (v, s') -> (String.length s' < String.length s)%nat.
Proof.
  unfold duration_term. destruct s as [|c s]; [done|]. destruct (negb _); [done|].
  destruct (leadingInt 0 (String c s)) as [[x s1]|] eqn:E1; [|done]. cbn [obind].
  apply leadingInt_length in E1. destruct (get_decimals s1) as [[[f sc] post] s2] eqn:E2.
  apply get_decimals_length in E2. destruct (_ && _); [done|].
  destruct (take_unit s2) as [u s3] eqn:E3. apply take_unit_length in E3 as [H3 H3'].
  destruct (unit_of u) as [unit|] eqn:Eu; [|done]. cbn [obind].
  assert (u <> "") as Hu by (intros ->; done). specialize (H3' Hu).
  destruct (_ <? _); [done|]. destruct (_ <? _); [done|]. intros [= _ <-]. cbn in *. lia.
Qed.

(** More fuel than the length of the text changes nothing. *)
Lemma duration_terms_fuel n d s :
  (String.length s <= n)%nat -> duration_terms n d s = duration_terms (String.length s) d s.
Proof.
  revert d s. induction n as [n IH] using lt_wf_ind. intros d s Hn.
  destruct n as [|n]; [by destruct s; [|cbn in Hn; lia]|].
  destruct s as [|c s]; [done|]. cbn [String.length] in *. cbn [duration_terms].
  replace (String.eqb (String c s) "") with false by done.
  destruct (duration_term (String c s)) as [[v s']|] eqn:E; [|done]. cbn [obind].
  apply duration_term_length in E. cbn in E. destruct (_ <? _); [done|].
  rewrite (IH n) by lia. by rewrite (IH (String.length s)) by lia.
Qed.

Lemma fraction_of_nonneg f sc u : 0 <= fraction_of f sc u.
Proof.
  unfold fraction_of. destruct (0 <? f); [|lia]. unfold float_trunc.
  destruct (float_mul _ _) as [| | |[] m e]; try lia.
  destruct (Z.leb_spec 0 e); [apply Z.mul_nonneg_nonneg; [lia|apply Z.pow_nonneg; lia]|].
  apply Z.div_pos; [lia|]. apply Z.pow_pos_nonneg; lia.
Qed.

Lemma unit_of_pos u n : unit_of u = Some n -> 0 < n.
Proof.
  unfold unit_of, Hour, Minute, Second, Millisecond, Microsecond.
  repeat (destruct (_ : bool); [intros [= <-]; lia|]). done.
Qed.

Lemma digit_of_range c : is_digit c = true -> 0 <= digit_of c <= 9.
Proof. unfold is_digit, in_range, digit_of. intros H. to_prop. lia. Qed.

Lemma leadingInt_nonneg x s v r : 0 <= x -> leadingInt x s = Some (v, r) -> 0 <= v.
Proof.
  revert x. induction s as [|c s IH]; intros x Hx; cbn [leadingInt]; [by intros [= <- _]|].
  destruct (is_digit c) eqn:Ec; [|by intros [= <- _]]. apply digit_of_range in Ec.
  destruct (_ <? _); [done|]. destruct (_ <? _); [done|]. apply IH. lia.
Qed.

Lemma duration_term_nonneg s v s' : duration_term s = Some (v, s') -> 0 <= v.
Proof.
  unfold duration_term. destruct s as [|c s]; [done|]. destruct (negb _); [done|].
  destruct (leadingInt 0 (String c s)) as [[x s1]|] eqn:E1; [|done]. cbn [obind].
  apply leadingInt_nonneg in E1; [|lia]. destruct (get_decimals s1) as [[[f sc] post] s2].
  destruct (_ && _); [done|]. destruct (take_unit s2) as [u s3].
  destruct (unit_of u) as [unit|] eqn:Eu; [|done]. cbn [obind]. apply unit_of_pos in Eu.
  destruct (_ <? _); [done|]. destruct (_ <? _); [done|]. intros [= <- _].
  pose proof (fraction_of_nonneg f sc unit). nia.
Qed.

Lemma duration_terms_range n d s d' : 0 <= d <= 2 ^ 63 -> duration_terms n d s = Some d' -> 0 <= d' <= 2 ^ 63.
Proof.
  revert d s. induction n as [|n IH]; intros d s Hd; cbn [duration_terms]; destruct (String.eqb s "");
    try (by intros [= <-]).
  destruct (duration_term s) as [[v s']|] eqn:E; [|done]. cbn [obind]. apply duration_term_nonneg in E.
  destruct (Z.ltb_spec (2 ^ 63) (d + v)); [done|]. apply IH. lia.
Qed.

(** A parsed duration fits its type. *)
Lemma parse_duration_range s d : parse_duration s = Some d -> in_int64 d.
Proof.
  unfold parse_duration, in_int64, min_int64, max_int64.
  match goal with |- (let '(_, _) := ?x in _) = _ -> _ => destruct x as [neg s'] end.
  destruct (String.eqb s' "0"); [intros [= <-]; lia|]. destruct (String.eqb s' ""); [done|].
  destruct (duration_terms _ 0 s') as [x|] eqn:E; [|done]. cbn [obind].
  apply duration_terms_range in E; [|lia]. destruct neg; [intros [= <-]; lia|].
  destruct (Z.ltb_spec (2 ^ 63 - 1) x); [done|]. intros [= <-]. lia.
Qed.
