(* ===== verification/Lapi.v ===== *)
(** * The messages of the LAPI client ([internal/lapi/models.go], [client.go])

    The requests and alerts, the checks of a decision before it is sent, the
    alert built from a request, and the selection of an operation's alert in a
    search result. *)

From S2P Require Export Network GoTime.

(** ** Models *)

Record DecisionInput : Type := MkDecisionInput { di_Scope : string; di_Value : string }.

Record CreateRequest : Type := MkCreateRequest {
  cr_FeedName : string; cr_OperationToken : string; cr_Duration : Duration;
  cr_Decisions : list DecisionInput }.

Record Decision : Type := MkDecision {
  dn_ID : Z; dn_Origin : string; dn_Type : string; dn_Scope : string; dn_Value : string;
  dn_Duration : string; dn_Until : string; dn_Scenario : string }.

Record Alert : Type := MkAlert {
  al_ID : Z; al_MachineID : string; al_Scenario : string; al_ScenarioHash : string;
  al_ScenarioVersion : string; al_Message : string; al_Decisions : list Decision }.

Definition no_alert : Alert := MkAlert 0 "" "" "" "" "" [].

Record wireMetaItem : Type := MkWireMetaItem { wm_Key : string; wm_Value : string }.
Record wireEvent : Type := MkWireEvent { we_Timestamp : string; we_Meta : list wireMetaItem }.
Record wireSource : Type := MkWireSource { ws_Scope : string; ws_Value : string }.

Record wireAlert : Type := MkWireAlert {
  wa_Scenario : string; wa_ScenarioHash : string; wa_ScenarioVersion : string; wa_Message : string;
  wa_EventsCount : Z; wa_StartAt : string; wa_StopAt : string; wa_Capacity : Z; wa_Leakspeed : string;
  wa_Simulated : bool; wa_Events : list wireEvent; wa_Remediation : bool; wa_Decisions : list Decision;
  wa_Source : wireSource; wa_Meta : list wireMetaItem; wa_Labels : list string; wa_Kind : string }.

Definition maxBatchSize : Z := 500.
Definition maxDecisionDuration : Duration := 7 * 24 * Hour.
Definition maxOperationSearchResults : Z := 100.

(** ** Texts of the standard library *)

(** [Duration.String]: a fraction with its trailing zeros dropped. *)
Fixpoint fmt_frac (places : nat) (v : Z) : string :=
  match places with
  | O => ""
  | S n =>
      let rest := v mod 10 ^ Z.of_nat n in
      let tail := if rest =? 0 then "" else fmt_frac n rest in
      String (chr (48 + v / 10 ^ Z.of_nat n)) tail
  end.

Definition with_frac (places : nat) (whole frac : Z) : string :=
  itoa whole +:+ (if frac =? 0 then "" else "." +:+ fmt_frac places frac).

Definition duration_String (d : Duration) : string :=
  let u := Z.abs d in
  let sign := if d <? 0 then "-" else "" in
  if u =? 0 then "0s"
  else sign +:+
    (if u <? Microsecond then itoa u +:+ "ns"
     else if u <? Millisecond then with_frac 3 (u / Microsecond) (u mod Microsecond) +:+ String "194" (String "181" "s")
     else if u <? Second then with_frac 6 (u / Millisecond) (u mod Millisecond) +:+ "ms"
     else
       let s := u / Second in
       let seconds := with_frac 9 (s mod 60) (u mod Second) +:+ "s" in
       if s <? 60 then seconds
       else if s <? 3600 then itoa (s / 60) +:+ "m" +:+ seconds
       else itoa (s / 3600) +:+ "h" +:+ itoa (s / 60 mod 60) +:+ "m" +:+ seconds).

(** A number with at least two or four digits. *)
Definition pad2 (z : Z) : string := if z <? 10 then "0" +:+ itoa z else itoa z.
Definition pad4 (z : Z) : string :=
  if z <? 10 then "000" +:+ itoa z else if z <? 100 then "00" +:+ itoa z
  else if z <? 1000 then "0" +:+ itoa z else itoa z.

(** The year of a number of days since January 1 of year 1, by cycles of 400,
    100, 4 and 1 years. *)
Definition year_of_days (days : Z) : Z :=
  let n400 := days / 146097 in let d := days mod 146097 in
  let n100 := Z.min 3 (d / 36524) in let d := d - 36524 * n100 in
  let n4 := d / 1461 in let d := d - 1461 * n4 in
  let n1 := Z.min 3 (d / 365) in
  400 * n400 + 100 * n100 + 4 * n4 + n1 + 1.

(** The month of a day of the year, counted from [month]. *)
Fixpoint month_of_day (fuel : nat) (month year day : Z) : Z * Z :=
  match fuel with
  | O => (month, day)
  | S n => if day <? daysIn month year then (month, day)
           else month_of_day n (month + 1) year (day - daysIn month year)
  end.

(** [t.Format(time.RFC3339Nano)] of an instant in UTC. *)
Definition Format_RFC3339Nano (t : Time) : string :=
  let secs := t / Second in
  let days := secs / 86400 in
  let clock := secs mod 86400 in
  let year := year_of_days days in
  let '(month, day) := month_of_day 11 1 year (days - days_before_year year) in
  let frac := t mod Second in
  pad4 year +:+ "-" +:+ pad2 month +:+ "-" +:+ pad2 (day + 1) +:+ "T" +:+ pad2 (clock / 3600) +:+ ":" +:+
  pad2 (clock / 60 mod 60) +:+ ":" +:+ pad2 (clock mod 60) +:+
  (if frac =? 0 then "" else "." +:+ fmt_frac 9 frac) +:+ "Z".

Example format_1 : Format_RFC3339Nano (Unix 1700000000 + 250 * Millisecond) = "2023-11-14T22:13:20.25Z"%string.
Proof. by vm_compute. Qed.
Example format_2 : Format_RFC3339Nano (Unix 1709164799) = "2024-02-28T23:59:59Z"%string.
Proof. by vm_compute. Qed.
Example format_3 : Format_RFC3339Nano (Unix 1735603200) = "2024-12-31T00:00:00Z"%string.
Proof. by vm_compute. Qed.
Example duration_text_1 : duration_String (25 * Hour) = "25h0m0s"%string.
Proof. by vm_compute. Qed.
Example duration_text_2 : duration_String (- (90 * Second + 50 * Millisecond)) = "-1m30.05s"%string.
Proof. by vm_compute. Qed.
Example duration_text_3 : parse_duration (duration_String 1500) = Some 1500.
Proof. by vm_compute. Qed.

(** ** A decision before it is sent *)

Definition contract : error := lapiError lapi.ErrContract None.
Definition contract_of (e : network_error) : error :=
  lapiError lapi.ErrContract (Some (Foreign "invalid network indicator")).

Definition canonicalDecision (input : DecisionInput) : result error DecisionInput :=
  if negb (String.eqb (trim_space (di_Value input)) (di_Value input)) then Err contract
  else if String.eqb (di_Scope input) "Ip" then
    if contains_byte "/" (di_Value input) then Err contract
    else match NormalizeAddress (di_Value input) with
         | Err e => Err (contract_of e)
         | Ok address =>
             if negb (fst (IsSafePrefix (PrefixFrom address (BitLen address)))) then Err contract
             else Ok (MkDecisionInput "Ip" (addr_String address))
         end
  else if String.eqb (di_Scope input) "Range" then
    if negb (contains_byte "/" (di_Value input)) then Err contract
    else match NormalizePrefix (di_Value input) with
         | Err e => Err (contract_of e)
         | Ok prefix =>
             if negb (ValidateKind prefix KindRange) then Err contract
             else if negb (fst (IsSafePrefix prefix)) then Err contract
             else Ok (MkDecisionInput "Range" (prefix_String prefix))
         end
  else Err contract.

(** [scope + "\x00" + value] *)
Definition decision_key (scope value : string) : string := scope +:+ String "000" value.

Definition wire_decision (scenario : string) (duration : Duration) (d : DecisionInput) : Decision :=
  MkDecision 0 "crowdshield" "ban" (di_Scope d) (di_Value d) (duration_String duration) "" scenario.

Fixpoint wire_decisions (scenario : string) (duration : Duration) (seen : gset string)
    (inputs : list DecisionInput) : result error (list Decision) :=
  match inputs with
  | [] => Ok []
  | input :: rest =>
      let? canonical := canonicalDecision input in
      let key := decision_key (di_Scope canonical) (di_Value canonical) in
      if bool_decide (key ∈ seen) then Err contract
      else
        let? ds := wire_decisions scenario duration ({[key]} ∪ seen) rest in
        Ok (wire_decision scenario duration canonical :: ds)
  end.

Definition valid_request (r : CreateRequest) : bool :=
  match_feed_name (cr_FeedName r) && (len (cr_FeedName r) <=? 64) && match_token (cr_OperationToken r) &&
  (Minute <=? cr_Duration r) && (cr_Duration r <=? maxDecisionDuration) &&
  (1 <=? Z.of_nat (List.length (cr_Decisions r))) &&
  (Z.of_nat (List.length (cr_Decisions r)) <=? maxBatchSize).

Definition buildWireAlert (r : CreateRequest) (now : Time) : result error wireAlert :=
  if negb (valid_request r) then Err contract
  else
    let scenario := "crowdshield/" +:+ cr_FeedName r in
    let? decisions := wire_decisions scenario (cr_Duration r) ∅ (cr_Decisions r) in
    let timestamp := Format_RFC3339Nano now in
    let meta := [MkWireMetaItem "service" "crowdshield"] in
    Ok (MkWireAlert scenario ("crowdshield:" +:+ cr_OperationToken r) "1.0"
          ("External threat feed: " +:+ cr_FeedName r) 1 timestamp timestamp
          (Z.of_nat (List.length decisions)) "0" false [MkWireEvent timestamp meta] true decisions
          (MkWireSource "service" "crowdshield") meta
          ["crowdshield"; "operation:" +:+ cr_OperationToken r] "crowdshield").

(** ** The alert of an operation in a search result *)

Fixpoint select_alert (scenario hash : string) (found : option Alert) (alerts : list Alert)
  : result error (option Alert) :=
  match alerts with
  | [] => Ok found
  | a :: rest =>
      if String.eqb (al_Scenario a) scenario && String.eqb (al_ScenarioHash a) hash then
        match found with
        | Some _ => Err contract
        | None => select_alert scenario hash (Some a) rest
        end
      else select_alert scenario hash found rest
  end.

Definition find_operation (feedName token : string) (alerts : list Alert) : result error (option Alert) :=
  if maxOperationSearchResults <? Z.of_nat (List.length alerts) then Err contract
  else select_alert ("crowdshield/" +:+ feedName) ("crowdshield:" +:+ token) None alerts.
