(* ===== verification/Notify.v ===== *)
(** * Notifications ([internal/notify])

    The manager decides, from the results of runs and from what it stored
    about each condition, which notices to send: failures that repeat,
    recoveries, suspicious feeds, stale synchronisation, and optional notices
    of start and success.  Its store, its transport, its clock and its observer
    are the operations of a world; its mutex makes every call one step. *)

From S2P Require Export Ops Lapi.

Definition ErrInvalidNotice : error := Foreign "invalid notification notice".
Definition ErrInvalidManager : error := Foreign "invalid notification manager".

(** ** Notices ([notice.go]) *)

Definition notice_Kind : Type := string.
Definition KindStartup : notice_Kind := "startup".
Definition KindFirstSuccess : notice_Kind := "first_success".
Definition KindRoutineSuccess : notice_Kind := "routine_success".
Definition KindRepeatedFailure : notice_Kind := "repeated_failure".
Definition KindRecovery : notice_Kind := "recovery".
Definition KindSuspiciousChange : notice_Kind := "suspicious_change".
Definition KindStaleSync : notice_Kind := "stale_sync".

Record Notice : Type := MkNotice {
  nt_Kind : notice_Kind; nt_Severity : Severity; nt_Feed : string; nt_Failure : FailureCategory; nt_Counts : Counts;
  nt_ConsecutiveFailures : Z; nt_At : Time }.

Definition notice_kind_ok (n : Notice) : bool :=
  let quiet := String.eqb (nt_Failure n) "" && (nt_ConsecutiveFailures n =? 0) in
  if one_of (nt_Kind n) [KindStartup; KindFirstSuccess; KindRoutineSuccess; KindStaleSync]
  then String.eqb (nt_Feed n) "" && quiet
  else if String.eqb (nt_Kind n) KindRepeatedFailure
  then ValidFailureCategory (nt_Failure n) && (1 <=? nt_ConsecutiveFailures n)
  else if String.eqb (nt_Kind n) KindRecovery
  then ValidFailureCategory (nt_Failure n) && (nt_ConsecutiveFailures n =? 0)
  else if String.eqb (nt_Kind n) KindSuspiciousChange
  then negb (String.eqb (nt_Feed n) "") && quiet
  else false.

Definition Notice_Validate (n : Notice) : option error :=
  if time_IsZero (nt_At n) || negb (validSeverity (nt_Severity n)) || negb (Counts_valid (nt_Counts n)) ||
     (nt_ConsecutiveFailures n <? 0) || (100 <? nt_ConsecutiveFailures n) then Some ErrInvalidNotice
  else if negb (String.eqb (nt_Feed n) "") && negb (ValidFeedName (nt_Feed n)) then Some ErrInvalidNotice
  else if notice_kind_ok n then None else Some ErrInvalidNotice.

Record renderedNotice : Type := MkRendered {
  rn_title : string; rn_body : string; rn_priority : string; rn_tags : string }.

(** [at.UTC().Format(time.RFC3339)]: the seconds of the instant. *)
Definition Format_RFC3339 (t : Time) : string := Format_RFC3339Nano (t / Second * Second).

Definition priority_of (s : Severity) : string :=
  if String.eqb s SeverityWarning then "4" else if String.eqb s SeverityError then "5" else "3".

Definition feed_suffix (feed : string) : string := if String.eqb feed "" then "" else "; feed: " +:+ feed.

(** The title and the body of a kind. *)
Definition render_kind (n : Notice) : string * string :=
  let at_ := Format_RFC3339 (nt_At n) in
  let c := nt_Counts n in
  let k := nt_Kind n in
  if String.eqb k KindStartup then ("Crowdshield started", "Crowdshield service started at " +:+ at_ +:+ ".")
  else if String.eqb k KindFirstSuccess
  then ("Crowdshield first synchronization", "Crowdshield completed its first safe synchronization at " +:+ at_ +:+ ".")
  else if String.eqb k KindRoutineSuccess
  then ("Crowdshield synchronization",
        "Crowdshield synchronization completed at " +:+ at_ +:+ " (feeds: " +:+ itoa (cn_FeedsSucceeded c) +:+ ", added: " +:+
        itoa (cn_Added c) +:+ ", refreshed: " +:+ itoa (cn_Refreshed c) +:+ ", removed: " +:+ itoa (cn_Removed c) +:+
        ", rejected: " +:+ itoa (cn_Rejected c) +:+ ").")
  else if String.eqb k KindRepeatedFailure
  then ("Crowdshield repeated failure",
        "Crowdshield synchronization failed " +:+ itoa (nt_ConsecutiveFailures n) +:+ " consecutive times at " +:+ at_ +:+
        " (category: " +:+ nt_Failure n +:+ ")" +:+ feed_suffix (nt_Feed n) +:+ ".")
  else if String.eqb k KindRecovery
  then ("Crowdshield recovered",
        "Crowdshield synchronization recovered at " +:+ at_ +:+ " after a notified failure (category: " +:+ nt_Failure n +:+
        ")" +:+ feed_suffix (nt_Feed n) +:+ ".")
  else if String.eqb k KindSuspiciousChange
  then ("Crowdshield suspicious feed change",
        "Crowdshield rejected a suspicious feed change at " +:+ at_ +:+ " (feed: " +:+ nt_Feed n +:+ ", accepted: " +:+
        itoa (cn_Added c) +:+ ", rejected: " +:+ itoa (cn_Rejected c) +:+ ").")
  else if String.eqb k KindStaleSync
  then ("Crowdshield synchronization stale",
        "Crowdshield has not completed a safe synchronization within the configured threshold as of " +:+ at_ +:+ ".")
  else ("", "").

Definition renderNotice (n : Notice) : result error renderedNotice :=
  match Notice_Validate n with
  | Some _ => Err ErrInvalidNotice
  | None =>
      let '(title, body) := render_kind n in
      let r := MkRendered title body (priority_of (nt_Severity n)) "shield" in
      if (128 <? len title) || (2048 <? len body) || (64 <? len (rn_tags r)) then Err ErrInvalidNotice else Ok r
  end.

(** ** The stored state ([manager.go]) *)

Record StateKey : Type := MkStateKey { sk_Kind : notice_Kind; sk_Feed : string }.
#[export] Instance StateKey_eq_dec : EqDecision StateKey.
Proof. solve_decision. Defined.

Definition StateKey_valid (k : StateKey) : bool :=
  if one_of (sk_Kind k) [KindStartup; KindFirstSuccess; KindRoutineSuccess; KindRepeatedFailure; KindRecovery; KindStaleSync]
  then String.eqb (sk_Feed k) ""
  else if String.eqb (sk_Kind k) KindSuspiciousChange then ValidFeedName (sk_Feed k)
  else false.

Record PersistentState : Type := MkPersistentState {
  ps_Key : StateKey; ps_Failure : FailureCategory; ps_Feed : string; ps_ConsecutiveFailures : Z; ps_Notified : bool;
  ps_RecoveryPending : bool; ps_Sent : bool; ps_LastAttempt : Time; ps_UpdatedAt : Time }.

Definition PersistentState_valid (s : PersistentState) : bool :=
  negb (negb (StateKey_valid (ps_Key s)) || (ps_ConsecutiveFailures s <? 0) || (100 <? ps_ConsecutiveFailures s)) &&
  negb (negb (String.eqb (ps_Feed s) "") && negb (ValidFeedName (ps_Feed s))) &&
  negb (negb (String.eqb (ps_Failure s) "") && negb (ValidFailureCategory (ps_Failure s))) &&
  negb (((0 <? ps_ConsecutiveFailures s) || ps_Notified s || ps_RecoveryPending s) &&
        (negb (String.eqb (sk_Kind (ps_Key s)) KindRepeatedFailure) || negb (ValidFailureCategory (ps_Failure s)))) &&
  negb (negb (time_IsZero (ps_LastAttempt s)) && time_IsZero (ps_UpdatedAt s)).

(** [PersistentState{Key: key}] *)
Definition new_state (key : StateKey) : PersistentState := MkPersistentState key "" "" 0 false false false 0 0.

Definition with_streak (failures : Z) (s : PersistentState) : PersistentState :=
  MkPersistentState (ps_Key s) (ps_Failure s) (ps_Feed s) failures (ps_Notified s) (ps_RecoveryPending s) (ps_Sent s)
    (ps_LastAttempt s) (ps_UpdatedAt s).
Definition set_updated (t : Time) (s : PersistentState) : PersistentState :=
  MkPersistentState (ps_Key s) (ps_Failure s) (ps_Feed s) (ps_ConsecutiveFailures s) (ps_Notified s) (ps_RecoveryPending s)
    (ps_Sent s) (ps_LastAttempt s) t.
Definition set_attempt (t : Time) (s : PersistentState) : PersistentState :=
  MkPersistentState (ps_Key s) (ps_Failure s) (ps_Feed s) (ps_ConsecutiveFailures s) (ps_Notified s) (ps_RecoveryPending s)
    (ps_Sent s) t (ps_UpdatedAt s).
Definition set_notified (s : PersistentState) : PersistentState :=
  MkPersistentState (ps_Key s) (ps_Failure s) (ps_Feed s) (ps_ConsecutiveFailures s) true (ps_RecoveryPending s) (ps_Sent s)
    (ps_LastAttempt s) (ps_UpdatedAt s).
Definition set_sent (s : PersistentState) : PersistentState :=
  MkPersistentState (ps_Key s) (ps_Failure s) (ps_Feed s) (ps_ConsecutiveFailures s) (ps_Notified s) (ps_RecoveryPending s) true
    (ps_LastAttempt s) (ps_UpdatedAt s).
(** A failure that was notified becomes a recovery to notify. *)
Definition pend_recovery (s : PersistentState) : PersistentState :=
  MkPersistentState (ps_Key s) (ps_Failure s) (ps_Feed s) 0 false true (ps_Sent s) 0 (ps_UpdatedAt s).

(** ** The manager *)

Record Manager : Type := MkManager {
  mg_enabled : bool; mg_closed : bool; mg_minimumSeverity : Severity; mg_failureThreshold : Z; mg_cooldown : Duration;
  mg_recoveryNotifications : bool; mg_suspiciousChangeNotifications : bool; mg_staleSyncNotifications : bool;
  mg_startupNotification : bool; mg_firstSuccessNotification : bool; mg_routineSuccessNotification : bool }.

(** [NewManager]: the guards on the settings; the store and the transport are
    the world. *)
Definition NewManager (enabled : bool) (minimumSeverity : Severity) (failureThreshold : Z) (cooldown : Duration)
    (recovery suspicious stale startup firstSuccess routineSuccess : bool) : result error Manager :=
  if negb (validSeverity minimumSeverity) || (failureThreshold <? 1) || (100 <? failureThreshold) || (cooldown <=? 0) ||
     (30 * 24 * Hour <? cooldown)
  then Err ErrInvalidManager
  else Ok (MkManager enabled false minimumSeverity failureThreshold cooldown recovery suspicious stale startup firstSuccess
             routineSuccess).

Definition Manager_Close (m : Manager) : Manager :=
  MkManager (mg_enabled m) true (mg_minimumSeverity m) (mg_failureThreshold m) (mg_cooldown m) (mg_recoveryNotifications m)
    (mg_suspiciousChangeNotifications m) (mg_staleSyncNotifications m) (mg_startupNotification m)
    (mg_firstSuccessNotification m) (mg_routineSuccessNotification m).

Definition severityRank (s : Severity) : Z :=
  if String.eqb s SeverityInfo then 1 else if String.eqb s SeverityWarning then 2 else if String.eqb s SeverityError then 3
  else 0.

Class NotifyWorld (W : Type) : Type := {
  n_Now : W -> Time * W;
  n_Load : StateKey -> M W error (option PersistentState);
  n_Save : PersistentState -> M W error unit;
  n_Send : Notice -> M W error unit;
  n_Observe : Event -> W -> W }.

Definition safeSynchronization (r : ops_Result) : bool :=
  String.eqb (rs_Outcome r) OutcomeSuccess ||
  (String.eqb (rs_Outcome r) OutcomeDegraded && one_of (rs_Failure r) [FailureFeedDownload; FailureFeedValidation]).

Definition failed_outcome (o : Outcome) : bool := one_of o [OutcomeFailed; OutcomeDegraded].

Definition failedFeed (r : ops_Result) : string :=
  match List.find (fun f => failed_outcome (fres_Outcome f) && String.eqb (fres_Failure f) (rs_Failure r)) (rs_Feeds r) with
  | Some f => fres_Name f
  | None => ""
  end.

Section Manager.
Context {W : Type} `{!NotifyWorld W} (m : Manager).

Definition allowedSeverity (s : Severity) : bool := severityRank (mg_minimumSeverity m) <=? severityRank s.

(** [event]: the operational event of a notice, observed when it is valid. *)
Definition notice_event (n : Notice) (outcome : Outcome) (failure : FailureCategory) (now : Time) : Event :=
  MkEvent CodeNotificationResult OperationNotification (nt_Feed n) outcome
    (if String.eqb outcome OutcomeFailed then SeverityError else nt_Severity n) failure now 0 0 no_counts.

Definition event (n : Notice) (outcome : Outcome) (failure : FailureCategory) (w : W) : list Event * W :=
  let '(now, w) := n_Now w in
  let e := notice_event n outcome failure now in
  ([e], match Event_Validate e with None => n_Observe e w | Some _ => w end).

Definition stateFailure (feed : string) (w : W) : list Event * W :=
  let '(now, w) := n_Now w in
  event (MkNotice KindRepeatedFailure SeverityError feed FailureDatabase no_counts 1 now) OutcomeFailed FailureDatabase w.

(** The state of a key, and whether it was stored; [None] is an error. *)
Definition load (key : StateKey) (w : W) : option (PersistentState * bool) * W :=
  match n_Load key w with
  | (Err _, w) => (None, w)
  | (Ok None, w) => (Some (new_state key, false), w)
  | (Ok (Some s), w) =>
      if bool_decide (ps_Key s = key) && PersistentState_valid s then (Some (s, true), w) else (None, w)
  end.

(** The state as it was saved; [None] is an error. *)
Definition save (s : PersistentState) (w : W) : option PersistentState * W :=
  let '(now, w) := n_Now w in
  let s := set_updated now s in
  if negb (PersistentState_valid s) then (None, w)
  else match n_Save s w with
       | (Ok _, w) => (Some s, w)
       | (Err _, w) => (None, w)
       end.

Definition withinCooldown (last now : Time) : bool :=
  if time_IsZero last then false
  else if Before now last then true
  else time_Sub now last <? mg_cooldown m.

Definition attempt (n : Notice) (s : PersistentState) (onSuccess : option (PersistentState -> PersistentState)) (w : W)
  : list Event * W :=
  if negb (allowedSeverity (nt_Severity n)) then ([], w)
  else
    let '(now, w) := n_Now w in
    if withinCooldown (ps_LastAttempt s) now then ([], w)
    else
      match save (set_attempt now s) w with
      | (None, w) => stateFailure (nt_Feed n) w
      | (Some s, w) =>
          match n_Send n w with
          | (Err _, w) => event n OutcomeFailed FailureNotification w
          | (Ok _, w) =>
              match onSuccess with
              | None => event n OutcomeSuccess "" w
              | Some f =>
                  match save (f s) w with
                  | (None, w) => stateFailure (nt_Feed n) w
                  | (Some _, w) => event n OutcomeSuccess "" w
                  end
              end
          end
      end.

(** The state of a failure after another result of it. *)
Definition next_failure (s : PersistentState) (failure : FailureCategory) (feed : string) : PersistentState :=
  if negb (String.eqb (ps_Failure s) failure) || negb (String.eqb (ps_Feed s) feed) || ps_RecoveryPending s
  then MkPersistentState (MkStateKey KindRepeatedFailure "") failure feed 1 false false false 0 0
  else if ps_ConsecutiveFailures s <? 100 then with_streak (ps_ConsecutiveFailures s + 1) s else s.

Definition failure_key : StateKey := MkStateKey KindRepeatedFailure "".

Definition handleFailure (r : ops_Result) (w : W) : list Event * W :=
  match load failure_key w with
  | (None, w) => stateFailure (failedFeed r) w
  | (Some (s, _), w) =>
      let feed := failedFeed r in
      match save (next_failure s (rs_Failure r) feed) w with
      | (None, w) => stateFailure feed w
      | (Some s, w) =>
          if ps_Notified s || (ps_ConsecutiveFailures s <? mg_failureThreshold m) then ([], w)
          else
            let '(now, w) := n_Now w in
            attempt (MkNotice KindRepeatedFailure SeverityWarning feed (rs_Failure r) no_counts (ps_ConsecutiveFailures s) now)
              s (Some set_notified) w
      end
  end.

(** The notice of a recovery. *)
Definition notify_recovery (s : PersistentState) (w : W) : list Event * W :=
  let '(now, w) := n_Now w in
  attempt (MkNotice KindRecovery SeverityInfo (ps_Feed s) (ps_Failure s) no_counts 0 now) s (Some (fun _ => new_state failure_key)) w.

Definition clearFailure (w : W) : list Event * W :=
  match load failure_key w with
  | (None, w) => stateFailure "" w
  | (Some (s, found), w) =>
      if negb found || ((ps_ConsecutiveFailures s =? 0) && negb (ps_Notified s) && negb (ps_RecoveryPending s)) then ([], w)
      else if negb (mg_recoveryNotifications m) || (negb (ps_Notified s) && negb (ps_RecoveryPending s)) then
        match save (new_state failure_key) w with
        | (None, w) => stateFailure "" w
        | (Some _, w) => ([], w)
        end
      else if ps_RecoveryPending s then notify_recovery s w
      else
        match save (pend_recovery s) w with
        | (None, w) => stateFailure (ps_Feed s) w
        | (Some s, w) => notify_recovery s w
        end
  end.

Definition stale_key : StateKey := MkStateKey KindStaleSync "".

Definition clearStale (w : W) : list Event * W :=
  match load stale_key w with
  | (None, w) => stateFailure "" w
  | (Some (s, found), w) =>
      if negb found || (negb (ps_Sent s) && time_IsZero (ps_LastAttempt s)) then ([], w)
      else match save (new_state stale_key) w with
           | (None, w) => stateFailure "" w
           | (Some _, w) => ([], w)
           end
  end.

Definition first_key : StateKey := MkStateKey KindFirstSuccess "".
Definition routine_key : StateKey := MkStateKey KindRoutineSuccess "".
Definition startup_key : StateKey := MkStateKey KindStartup "".

(** A notice of a kind without a failure, at the time of the clock. *)
Definition plain_notice (kind : notice_Kind) (severity : Severity) (feed : string) (counts : Counts) (now : Time) : Notice :=
  MkNotice kind severity feed "" counts 0 now.

Definition successPolicy (r : ops_Result) (w : W) : list Event * W :=
  match load first_key w with
  | (None, w) => stateFailure "" w
  | (Some (first, found), w) =>
      if mg_firstSuccessNotification m && (negb found || negb (ps_Sent first)) then
        let '(now, w) := n_Now w in
        attempt (plain_notice KindFirstSuccess SeverityInfo "" no_counts now) first (Some set_sent) w
      else if negb (mg_routineSuccessNotification m) then ([], w)
      else
        match load routine_key w with
        | (None, w) => stateFailure "" w
        | (Some (s, _), w) =>
            let '(now, w) := n_Now w in
            attempt (plain_notice KindRoutineSuccess SeverityInfo "" (rs_Counts r) now) s None w
        end
  end.

(** [events = append(events, f(ctx)...)] *)
Definition also (f g : W -> list Event * W) (w : W) : list Event * W :=
  let '(es, w) := f w in let '(es', w) := g w in (es ++ es', w).

Definition nothing (w : W) : list Event * W := ([], w).

Definition HandleSync (r : ops_Result) (w : W) : list Event * W :=
  match Result_Validate r with
  | Some _ => ([], w)
  | None =>
      if negb (mg_enabled m) || mg_closed m then ([], w)
      else
        also (if safeSynchronization r then clearStale else nothing)
          (if failed_outcome (rs_Outcome r) then handleFailure r
           else if negb (String.eqb (rs_Outcome r) OutcomeSuccess) then nothing
           else also clearFailure (successPolicy r)) w
  end.

Definition Startup (w : W) : list Event * W :=
  if negb (mg_enabled m) || mg_closed m || negb (mg_startupNotification m) then ([], w)
  else
    match load startup_key w with
    | (None, w) => stateFailure "" w
    | (Some (s, _), w) =>
        let '(now, w) := n_Now w in attempt (plain_notice KindStartup SeverityInfo "" no_counts now) s None w
    end.

Definition SuspiciousChange (feed : string) (counts : Counts) (w : W) : list Event * W :=
  if negb (ValidFeedName feed) || negb (Counts_valid counts) then ([], w)
  else if negb (mg_enabled m) || mg_closed m || negb (mg_suspiciousChangeNotifications m) then ([], w)
  else
    match load (MkStateKey KindSuspiciousChange feed) w with
    | (None, w) => stateFailure feed w
    | (Some (s, _), w) =>
        let '(now, w) := n_Now w in attempt (plain_notice KindSuspiciousChange SeverityWarning feed counts now) s None w
    end.

Definition StaleSync (w : W) : list Event * W :=
  if negb (mg_enabled m) || mg_closed m || negb (mg_staleSyncNotifications m) then ([], w)
  else
    match load stale_key w with
    | (None, w) => stateFailure "" w
    | (Some (s, _), w) =>
        if ps_Sent s then ([], w)
        else
          let '(now, w) := n_Now w in
          attempt (plain_notice KindStaleSync SeverityWarning "" no_counts now) s (Some set_sent) w
    end.
End Manager.
