(* ===== verification/NotifyStore.v ===== *)
(** * The repository of notification states ([state/notification_repository.go])

    One row per condition in [notification_delivery_state], with the checks of
    its schema.  Instants are stored in seconds. *)

From S2P Require Export StateDB Notify.

Definition kinds : list notice_Kind :=
  [KindStartup; KindFirstSuccess; KindRoutineSuccess; KindRepeatedFailure; KindRecovery; KindSuspiciousChange; KindStaleSync].

Definition failure_categories : list FailureCategory :=
  [""; FailureConfig; FailureCredential; FailureFeedDownload; FailureFeedValidation; FailureLAPIAuth; FailureLAPI;
   FailureDatabase; FailureNotification; FailureOwnership; FailureTimeout; FailureCancelled; FailureRuntime; FailureInternal].

(** The shape of a feed name: 1 to 64 characters, letters, digits and dashes,
    with a letter or a digit at both ends. *)
Definition feed_glob (s : string) : bool := (1 <=? len s) && (len s <=? 64) && match_feed_name s.

(** The checks of the table. *)
Definition delivery_check (key : string * string) (r : delivery_row) : bool :=
  one_of key.1 kinds && one_of (dl_failure r) failure_categories &&
  (0 <=? dl_consecutive r) && (dl_consecutive r <=? 100) &&
  match dl_last_attempt r with Some t => 0 <=? t | None => true end && (0 <? dl_updated r) &&
  (if String.eqb key.1 KindSuspiciousChange then feed_glob key.2 else String.eqb key.2 "") &&
  (String.eqb (dl_feed r) "" || feed_glob (dl_feed r)) &&
  (((dl_consecutive r =? 0) && negb (dl_notified r) && negb (dl_recovery_pending r)) ||
   (String.eqb key.1 KindRepeatedFailure && negb (String.eqb (dl_failure r) ""))) &&
  (String.eqb key.1 KindRepeatedFailure ||
   (String.eqb (dl_failure r) "" && String.eqb (dl_feed r) "" && (dl_consecutive r =? 0) && negb (dl_notified r) &&
    negb (dl_recovery_pending r))) &&
  (negb (dl_sent r) || one_of key.1 [KindFirstSuccess; KindStaleSync]).

Definition delivery_key (k : StateKey) : string * string := (sk_Kind k, sk_Feed k).

(** The state of a row. *)
Definition state_of_row (k : StateKey) (r : delivery_row) : PersistentState :=
  MkPersistentState k (dl_failure r) (dl_feed r) (dl_consecutive r) (dl_notified r) (dl_recovery_pending r) (dl_sent r)
    (match dl_last_attempt r with Some t => Unix t | None => 0 end) (Unix (dl_updated r)).

Definition checked_row (k : StateKey) (r : delivery_row) : Prelude.result error PersistentState :=
  if dl_updated r <=? 0 then Err integrity
  else if match dl_last_attempt r with Some t => t <? 0 | None => false end then Err integrity
  else let s := state_of_row k r in if PersistentState_valid s then Ok s else Err integrity.

Definition NotificationStateStore_Load (k : StateKey) : Store (option PersistentState) :=
  let! _ := require (StateKey_valid k) constraint in
  let! row := wrap state.ErrQuery (query (fun d => db_delivery d !! delivery_key k)) in
  match row with
  | None => mok None
  | Some r => let! s := lift (checked_row k r) in mok (Some s)
  end.

Definition row_of_state (s : PersistentState) : delivery_row :=
  MkDeliveryRow (ps_Failure s) (ps_Feed s) (ps_ConsecutiveFailures s) (ps_Notified s) (ps_RecoveryPending s) (ps_Sent s)
    (if time_IsZero (ps_LastAttempt s) then None else Some (unix (ps_LastAttempt s))) (unix (ps_UpdatedAt s)).

(** [INSERT ... ON CONFLICT DO UPDATE], one row. *)
Definition upsert_delivery (s : PersistentState) (d : DB) : Prelude.result error (Z * DB) :=
  let key := delivery_key (ps_Key s) in
  if delivery_check key (row_of_state s) then Ok (1, set_delivery (<[key := row_of_state s]> (db_delivery d)) d)
  else Err (sqlite "check constraint").

Definition NotificationStateStore_Save (s : PersistentState) : Store unit :=
  let! _ := require (PersistentState_valid s && negb (time_IsZero (ps_UpdatedAt s))) constraint in
  let! rows := wrap state.ErrQuery (stmt (upsert_delivery s)) in
  require (rows =? 1) integrity.

(** ** What is stored and read *)

(** A state with its instants in seconds, as the table holds them. *)
Definition in_seconds (s : PersistentState) : PersistentState :=
  MkPersistentState (ps_Key s) (ps_Failure s) (ps_Feed s) (ps_ConsecutiveFailures s) (ps_Notified s) (ps_RecoveryPending s)
    (ps_Sent s) (if time_IsZero (ps_LastAttempt s) then 0 else Unix (unix (ps_LastAttempt s))) (Unix (unix (ps_UpdatedAt s))).

Lemma delivery_key_inj k k' : delivery_key k = delivery_key k' -> k = k'.
Proof. destruct k, k'. unfold delivery_key. cbn. by intros [= -> ->]. Qed.

Lemma Unix_nonzero sec : 0 <= sec -> time_IsZero (Unix sec) = false.
Proof. unfold time_IsZero, Unix, unix_epoch, Second. intros H. apply Z.eqb_neq. lia. Qed.

Lemma Save_Ok s w w' : NotificationStateStore_Save s w = (Ok tt, w') ->
  PersistentState_valid s = true /\ delivery_check (delivery_key (ps_Key s)) (row_of_state s) = true /\
  sw_db w' = set_delivery (<[delivery_key (ps_Key s) := row_of_state s]> (db_delivery (sw_db w))) (sw_db w).
Proof.
  unfold NotificationStateStore_Save. intros H. apply require_Ok in H as [Hv H]. apply andb_true_iff in Hv as [Hv _].
  apply mthen_ok in H as (rows & w1 & H & Hr). apply wrap_Ok, stmt_db in H as [(e & ? & _)|(a & [= <-] & H)]; [done|].
  unfold upsert_delivery in H. destruct (delivery_check _ _) eqn:Ec; [|done]. injection H as <- H.
  unfold require in Hr. cbn in Hr. injection Hr as <-. done.
Qed.

Lemma saved_row_reads s : PersistentState_valid s = true -> delivery_check (delivery_key (ps_Key s)) (row_of_state s) = true ->
  checked_row (ps_Key s) (row_of_state s) = Ok (in_seconds s).
Proof.
  intros Hv Hc. unfold checked_row. unfold delivery_check in Hc.
  repeat match goal with H : _ && _ = true |- _ => apply andb_true_iff in H as [H ?] end.
  cbn [row_of_state dl_updated dl_last_attempt] in *. rewrite (proj2 (Z.leb_gt _ _)) by lia.
  assert (state_of_row (ps_Key s) (row_of_state s) = in_seconds s) as ->.
  { unfold state_of_row, row_of_state, in_seconds. cbn. by destruct (time_IsZero (ps_LastAttempt s)). }
  assert (PersistentState_valid (in_seconds s) = true) as ->.
  { unfold PersistentState_valid, in_seconds in *. cbn [ps_Key ps_Failure ps_Feed ps_ConsecutiveFailures ps_Notified
      ps_RecoveryPending ps_LastAttempt ps_UpdatedAt] in *. apply andb_true_iff in Hv as [Hv _]. rewrite Hv.
    rewrite (Unix_nonzero (unix (ps_UpdatedAt s))) by lia. by rewrite andb_false_r. }
  destruct (time_IsZero (ps_LastAttempt s)); [done|]. by rewrite (proj2 (Z.ltb_ge _ _)) by lia.
Qed.

(** A state that was saved reads back, with its instants in seconds, and
    every other state reads as before; the table changes in the row of its key
    only. *)
Theorem delivery_round_trip s w w' : NotificationStateStore_Save s w = (Ok tt, w') ->
  (forall faults, exists w2, NotificationStateStore_Load (ps_Key s) (MkSW (sw_db w') (None :: faults)) =
     (Ok (Some (in_seconds s)), w2)) /\
  (forall k faults, k <> ps_Key s ->
     (NotificationStateStore_Load k (MkSW (sw_db w') faults)).1 = (NotificationStateStore_Load k (MkSW (sw_db w) faults)).1) /\
  sw_db w' = set_delivery (db_delivery (sw_db w')) (sw_db w).
Proof.
  intros H. apply Save_Ok in H as (Hv & Hc & E). split_and!.
  - intros faults. eexists. unfold NotificationStateStore_Load, mthen, require.
    assert (StateKey_valid (ps_Key s) = true) as ->.
    { unfold PersistentState_valid in Hv. destruct (StateKey_valid (ps_Key s)); [done|]. by rewrite !andb_false_l in Hv. }
    cbn. rewrite E. cbn. rewrite lookup_insert_eq. unfold mthen. by rewrite saved_row_reads.
  - intros k faults Hk. unfold NotificationStateStore_Load, mthen, require.
    destruct (StateKey_valid k); [|done]. cbn [mok].
    unfold wrap, query, stmt. cbn [sw_faults sw_db]. rewrite E. cbn [db_delivery set_delivery].
    rewrite lookup_insert_ne by (intros Heq; by apply delivery_key_inj in Heq).
    destruct faults as [|[e|] fs]; cbn; [| done|]; by (destruct (db_delivery (sw_db w) !! delivery_key k) as [r|];
      [cbn; unfold lift; by destruct (checked_row k r)|]).
  - by rewrite E.
Qed.

(** ** The invariant of the table *)

(** Every row passes the checks of the schema, and can be read back. *)
Definition delivery_ok (d : DB) : Prop := forall k row, db_delivery d !! delivery_key k = Some row ->
  delivery_check (delivery_key k) row = true /\ StateKey_valid k = true /\ exists s, checked_row k row = Ok s.

Inductive delivery_call : Type := CallLoadState (k : StateKey) | CallSaveState (s : PersistentState).
Definition delivery_exec (c : delivery_call) : Store unit :=
  match c with
  | CallLoadState k => let! _ := NotificationStateStore_Load k in mok tt
  | CallSaveState s => NotificationStateStore_Save s
  end.

Lemma require_db b c w : (require b c w).2 = w.
Proof. unfold require. by destruct b. Qed.

(** A call that reads. *)
Lemma Load_db k w : sw_db (NotificationStateStore_Load k w).2 = sw_db w.
Proof.
  unfold NotificationStateStore_Load, mthen, require. destruct (StateKey_valid k); [|done]. cbn [mok].
  unfold wrap, query, stmt. destruct w as [d [|[e|] fs]]; cbn; [| done|];
    (destruct (db_delivery d !! delivery_key k); [|done]; unfold lift; by destruct (checked_row k _)).
Qed.

Lemma Save_db s w r w' : NotificationStateStore_Save s w = (r, w') -> sw_db w' = sw_db w \/
  (PersistentState_valid s = true /\ delivery_check (delivery_key (ps_Key s)) (row_of_state s) = true /\
   sw_db w' = set_delivery (<[delivery_key (ps_Key s) := row_of_state s]> (db_delivery (sw_db w))) (sw_db w)).
Proof.
  destruct r as [[]|e]; [by intros H%Save_Ok; right|]. unfold NotificationStateStore_Save, mthen, require.
  destruct (_ && _); cbn [mok mfail]; [|by intros [= _ <-]; left].
  unfold wrap, stmt, upsert_delivery. destruct w as [d [|[f|] fs]]; cbn;
    [destruct (delivery_check _ _); cbn; by intros [= _ <-]; left|by intros [= _ <-]; left|
     destruct (delivery_check _ _); cbn; by intros [= _ <-]; left].
Qed.

Lemma delivery_exec_other c w r w' : delivery_exec c w = (r, w') -> exists t, sw_db w' = set_delivery t (sw_db w).
Proof.
  assert (sw_db w = set_delivery (db_delivery (sw_db w)) (sw_db w)) as Hw by (by destruct (sw_db w)).
  destruct c as [k|s]; cbn [delivery_exec].
  - pose proof (Load_db k w) as E. unfold mthen. destruct (NotificationStateStore_Load k w) as [[s|e] w1]; cbn in E;
      intros [= _ <-]; rewrite E; by eexists.
  - intros [->|(_ & _ & ->)]%Save_db; by eexists.
Qed.

Lemma delivery_exec_ok c w r w' : delivery_exec c w = (r, w') -> delivery_ok (sw_db w) -> delivery_ok (sw_db w').
Proof.
  destruct c as [k|s]; cbn [delivery_exec].
  - pose proof (Load_db k w) as E. unfold mthen. destruct (NotificationStateStore_Load k w) as [[s|e] w1]; cbn in E;
      intros [= _ <-]; by rewrite E.
  - intros [->|(Hv & Hc & ->)]%Save_db; [done|]. intros Hok k row Hk. cbn in Hk.
    apply lookup_insert_Some in Hk as [[E <-]|[_ Hk]]; [|by apply Hok]. apply delivery_key_inj in E as <-.
    split_and!; [done| |by exists (in_seconds s); apply saved_row_reads].
    unfold PersistentState_valid in Hv. destruct (StateKey_valid (ps_Key s)); [done|]. by rewrite !andb_false_l in Hv.
Qed.

Lemma delivery_loads d : delivery_ok d -> forall k row, db_delivery d !! delivery_key k = Some row ->
  exists s, NotificationStateStore_Load k (MkSW d []) = (Ok (Some s), MkSW d []).
Proof.
  intros Hok k row Hk. destruct (Hok k row Hk) as (_ & Hkey & s & Hs). exists s.
  unfold NotificationStateStore_Load, mthen, require. rewrite Hkey. cbn. rewrite Hk. unfold mthen, lift. by rewrite Hs.
Qed.
