(* ===== verification/StateAll.v ===== *)
(** * The whole store

    Every call of every repository, and the invariants of all tables through
    any history of them; the history of the runs stays readable. *)

From S2P Require Import NotifyStore.
From S2P Require Export StatePrune.

(** ** The history tables *)

(** Every run and every result can be read back, and the timestamps are
    canonical. *)
Record runs_ok (d : DB) : Prop := {
  ro_run : forall id row, db_runs d !! id = Some row -> valid_run id row = true;
  ro_result : forall k row, db_results d !! k = Some row -> is_Some (db_runs d !! k.1) /\
    exists f res, db_feeds d !! k.2 = Some f /\ scan_result (k.2, fr_name f, row) = Ok res;
  ro_runtime : forall key, runtime_ok key d }.

Lemma empty_runs_ok : runs_ok empty_db.
Proof. split; cbn; try done. by left. Qed.

(** Changes that leave these tables alone and keep the names of the feeds. *)
Record history_same (d d' : DB) : Prop := {
  hs_tables : (db_runs d', db_results d', db_runtime d', db_delivery d') = (db_runs d, db_results d, db_runtime d, db_delivery d);
  hs_feeds : forall i f, db_feeds d !! i = Some f -> exists f', db_feeds d' !! i = Some f' /\ fr_name f' = fr_name f }.

#[export] Instance history_same_preorder : PreOrder history_same.
Proof.
  split.
  - intros d. split; [done|]. intros i f H. by exists f.
  - intros a b c [E1 H1] [E2 H2]. split; [congruence|]. intros i f H.
    apply H1 in H as (f1 & H & N1). apply H2 in H as (f2 & H & N2). exists f2. split; [done|congruence].
Qed.

Lemma history_same_runs_ok d d' : history_same d d' -> keeps runs_ok d d'.
Proof.
  intros [[= Er Es Et _] Hf] [H1 H2 H3]. split.
  - rewrite Er. exact H1.
  - rewrite Es, Er. intros k row Hk. destruct (H2 k row Hk) as (Hr & f & res & Hfeed & Hs). split; [exact Hr|].
    destruct (Hf _ _ Hfeed) as (f' & Hf' & Hn). exists f', res. by rewrite Hn.
  - intros key. specialize (H3 key). unfold runtime_ok, timestamp, runtime_value in *. by rewrite Et.
Qed.

Lemma history_same_statements : statements_do history_same.
Proof.
  assert (forall d d', same (fun d => (db_feeds d, db_runs d, db_results d, db_runtime d, db_delivery d)) d d' -> history_same d d')
    as Hsame.
  { intros d d' [= Ef Er Es Et Ed]. split; [congruence|]. intros i f H. rewrite Ef. by exists f. }
  split; intros; apply Hsame; try reflexivity.
  - unfold upsert_object in *. same_table.
  - unfold insert_source in *. same_table.
  - unfold insert_operation in *. same_table.
  - unfold insert_item in *. same_table.
  - unfold insert_alert in *. same_table.
  - unfold insert_decision in *. same_table.
  - unfold replace_decision in *. same_table.
  - unfold update_operation in *. same_table.
  - unfold update_operation in *. same_table.
  - unfold mark_expired in *. same_table.
Qed.

Lemma history_same_feed_statements : feed_statements_do history_same.
Proof.
  split; intros; split; try reflexivity; try (by intros i r Hi; exists r).
  - intros i r Hi. cbn. rewrite lookup_fmap, Hi. by eexists.
  - unfold upsert_feed. by destruct (feed_by_name _ _).
  - intros i r Hi. unfold upsert_feed. destruct (feed_by_name _ _) as [id|]; cbn.
    + destruct (decide (i = id)) as [->|Hne]; [rewrite lookup_alter_eq, Hi; by eexists|].
      rewrite lookup_alter_ne by done. by exists r.
    + rewrite lookup_insert_ne; [by exists r|]. intros <-. by rewrite next_id_fresh in Hi.
  - intros i r Hi. cbn. destruct (decide (i = feed)) as [->|Hne]; [rewrite lookup_alter_eq, Hi; by eexists|].
    rewrite lookup_alter_ne by done. by exists r.
Qed.

(** ** The calls of the run repository *)

Lemma recorded_scans runID f d k row fr :
  recorded runID f d k row -> FeedResult_valid f = true -> db_feeds d !! k.2 = Some fr ->
  exists res, scan_result (k.2, fr_name fr, row) = Ok res.
Proof.
  intros (feed & st & Hfeed & Hs & -> & ->) Hv Hfr. apply find_row_Some in Hfeed as (fr' & Hfr' & Hn).
  cbn in Hfr. assert (fr' = fr) as -> by congruence. apply String.eqb_eq in Hn.
  destruct (feed_result_round_trip f Hv) as (st' & Hs' & Hrt). assert (st' = st) as -> by congruence.
  exists (history_view f). unfold scan_result. cbn. by rewrite Hn.
Qed.

Lemma completion_runs_ok runID r d d' :
  Result_Validate r = None -> completion runID r d d' -> keeps runs_ok d d'.
Proof.
  intros Hv [(row & status & Hrow & Hrun & _ & Hst & Er) Hold Hnew _ Hsafe Ht Htab] [H1 H2 H3].
  destruct (Result_Validate_facts r Hv) as (_ & _ & Hvalid). split.
  - rewrite Er. intros id x Hx. apply lookup_insert_Some in Hx as [[<- <-]|[_ Hx]]; [|by apply H1].
    apply completed_row_valid; auto.
  - intros k x Hx. injection Htab as Ef _ _ _ _ _ _ _ _. rewrite Er, Ef.
    destruct (Hnew k x Hx) as [Hx0|(f & Hf & Hrec)].
    + destruct (H2 k x Hx0) as (Hr & Hrest). split; [|exact Hrest]. by apply lookup_insert_is_Some'; right.
    + assert (FeedResult_valid f = true) as Hfv by (by apply (proj1 (List.Forall_forall _ _) Hvalid)).
      pose proof Hrec as (feed & st & Hfeed & _ & Ek & _). apply find_row_Some in Hfeed as (fr & Hfr & _).
      assert (db_feeds d !! k.2 = Some fr) as Hk by (by rewrite Ek).
      destruct (recorded_scans runID f d k x fr Hrec Hfv Hk) as (res & Hres).
      split; [rewrite Ek; cbn; rewrite lookup_insert_eq; eauto|eauto].
  - intros key. unfold runtime_ok.
    destruct (decide (key = RuntimeLastSafeSync)) as [->|Hne]; [destruct (safeSyncResult r) eqn:Es|].
    + right. rewrite Hsafe by done. by eexists.
    + unfold timestamp. rewrite (Ht RuntimeLastSafeSync) by (by right). by apply H3.
    + unfold timestamp. rewrite (Ht key) by (by left). by apply H3.
Qed.

Lemma setRuntimeTimestamp_runs_ok key at_ : unix at_ <= max_int64 -> does (keeps runs_ok) (setRuntimeTimestamp key at_).
Proof.
  intros Hmax w r w' H [H1 H2 H3]. destruct r as [u|e].
  - apply setRuntimeTimestamp_Ok in H as ((t & E) & Ht & Hn); [|done]. split.
    + by rewrite E.
    + by rewrite E.
    + intros key'. unfold runtime_ok. destruct (decide (key' = key)) as [->|Hne]; [right; by rewrite Ht|].
      unfold timestamp. rewrite (Hn key') by done. by apply H3.
  - apply setRuntimeTimestamp_err in H. by rewrite H.
Qed.

Lemma interrupted_valid now id row : valid_run id row = true -> is_running row = true ->
  valid_run id (interrupted_row now row) = true.
Proof.
  unfold valid_run, is_running. intros H Hr. repeat (apply andb_prop in H as [H ?]).
  repeat (apply andb_true_intro; split; try done).
Qed.

Lemma run_call_runs_ok c : run_call_wf c -> does (keeps runs_ok) (run_exec c).
Proof.
  intros Hwf. destruct c; cbn [run_exec]; unfold void; cbn in Hwf.
  - unfold BeginSyncRun. apply does_then; [apply _| |intros _; does_tac].
    apply require_then; [apply _|intros Hr]. does_tac.
    apply does_stmt; [apply _|]. intros d id d' [= _ <-] [H1 H2 H3]. split; [|cbn|exact H3].
    + intros i row Hi. cbn in Hi. apply lookup_insert_Some in Hi as [[<- <-]|[_ Hi]]; [|by apply H1].
      repeat (apply andb_prop in Hr as [Hr ?]). unfold valid_run. cbn.
      destruct (Z.ltb_spec 0 (next_id (db_runs d))); [|pose proof (next_id_pos (db_runs d)); lia].
      repeat (apply andb_true_intro; split; try done).
    + intros k row Hk. destruct (H2 k row Hk) as (Hrun & Hrest). split; [|exact Hrest].
      by apply lookup_insert_is_Some'; right.
  - unfold CompleteSyncRun. destruct (statusForResult r) as [status|] eqn:Es; [|does_tac].
    apply require_then; [apply _|intros Hv]. apply andb_prop in Hv as [_ Hv].
    assert (Result_Validate r = None) as Hnone by (by destruct (Result_Validate r)).
    apply does_tx_Ok; [apply _|]. intros w u w' H. apply (completion_runs_ok runID r _ _ Hnone).
    by eapply complete_body_Ok; [exact Es|exact Hwf|exact H].
  - unfold ListSyncRuns, with_feeds. does_tac.
  - unfold RecoverInterruptedSyncRuns. does_tac. apply does_stmt; [apply _|].
    intros d n d' [= _ <-] [H1 H2 H3]. split; [|cbn|exact H3].
    + intros i row Hi. cbn in Hi. rewrite lookup_fmap in Hi. apply fmap_Some in Hi as (row0 & Hi & ->).
      destruct (is_running row0) eqn:Er; [|by apply H1]. by apply interrupted_valid; [apply H1|].
    + intros k row Hk. destruct (H2 k row Hk) as (Hrun & Hrest). split; [|exact Hrest].
      rewrite lookup_fmap. by apply fmap_is_Some.
  - by apply setRuntimeTimestamp_runs_ok.
  - unfold RuntimeTimestamp. does_tac. destruct (_ : option string); does_tac.
Qed.

(** The run repository touches only its own tables. *)
Definition other_tables (d : DB) :=
  (db_feeds d, db_entries d, db_objects d, db_sources d, db_alerts d, db_decisions d, db_operations d, db_items d,
   db_delivery d).

Lemma run_call_other_tables c : run_call_wf c -> does (same other_tables) (run_exec c).
Proof.
  intros Hwf. destruct c; cbn [run_exec]; unfold void; cbn in Hwf.
  - unfold BeginSyncRun. does_tac. apply does_stmt; [apply _|]. by intros d id d' [= _ <-].
  - unfold CompleteSyncRun. destruct (statusForResult r) as [status|] eqn:Es; [|does_tac].
    apply require_then; [apply _|intros _]. apply does_tx_Ok; [apply _|]. intros w u w' H.
    apply complete_body_Ok with (1 := Es) in H; [|done]. pose proof (cp_tables _ _ _ _ H) as Ht.
    by injection Ht as E1 E2 E3 E4 E5 E6 E7 E8 E9; unfold same, other_tables; rewrite E1, E2, E3, E4, E5, E6, E7, E8, E9.
  - unfold ListSyncRuns, with_feeds. does_tac.
  - unfold RecoverInterruptedSyncRuns. does_tac. apply does_stmt; [apply _|]. by intros d n d' [= _ <-].
  - intros w r w' H. destruct r as [u|e].
    + apply setRuntimeTimestamp_Ok in H as ((t & E) & _); [|done]. by rewrite E.
    + apply setRuntimeTimestamp_err in H. by rewrite H.
  - unfold RuntimeTimestamp. does_tac. destruct (_ : option string); does_tac.
Qed.

(** ** Pruning *)

Lemma kept_sub `{Countable K} {V} (p : K -> V -> bool) (t : gmap K V) k v : kept p t !! k = Some v -> t !! k = Some v.
Proof. by intros [Hk _]%lookup_kept. Qed.

Lemma pruned_feeds_ok cutoff limit d : feeds_ok d -> feeds_ok (pruned cutoff limit d).
Proof.
  intros [H0 H1 H2 H3]. split; [exact H0|exact H1|exact H2|].
  intros k r Hk. apply (entry_ok_feeds d); [intros i Hi; exact Hi|]. apply H3. by apply kept_sub in Hk.
Qed.

Lemma pruned_runs_ok cutoff limit d : runs_ok d -> runs_ok (pruned cutoff limit d).
Proof.
  intros [H1 H2 H3]. split; [| |exact H3].
  - intros id row Hk. apply H1. by apply kept_sub in Hk.
  - intros k row Hk. apply lookup_kept in Hk as [Hk Hg]. destruct (H2 k row Hk) as ([run Hrun] & Hrest).
    split; [|exact Hrest]. exists run. apply lookup_kept. split; [exact Hrun|]. by rewrite Hrun in Hg.
Qed.

(** ** Every call *)

Inductive prune_call : Type :=
| CallCountAmbiguousOperations
| CallPlanPruneHistory (now : Time) (retention : Duration) (maxHistoryEntries : Z)
| CallPruneHistory (now : Time) (retention : Duration) (maxHistoryEntries : Z).

Definition prune_exec (c : prune_call) : Store unit :=
  match c with
  | CallCountAmbiguousOperations => void CountAmbiguousOperations
  | CallPlanPruneHistory now retention limit => void (PlanPruneHistory now retention limit)
  | CallPruneHistory now retention limit => void (PruneHistory now retention limit)
  end.

Definition prune_call_wf (c : prune_call) : Prop :=
  match c with CallPruneHistory now _ _ => unix now <= max_int64 | _ => True end.

Lemma same_delivery_ok d d' : same db_delivery d d' -> keeps delivery_ok d d'.
Proof. unfold same, keeps, delivery_ok. by intros ->. Qed.

Lemma setRuntime_delivery key at_ w u w' : unix at_ <= max_int64 -> setRuntimeTimestamp key at_ w = (Ok u, w') ->
  db_delivery (sw_db w') = db_delivery (sw_db w).
Proof. intros Hmax H. apply setRuntimeTimestamp_Ok in H as ((t & E) & _ & _); [|done]. by rewrite E. Qed.

(** The table of the notifications is nobody else's. *)
Lemma delivery_store_ok d t : keeps store_ok d (set_delivery t d).
Proof.
  intros [[H1 H2 H3 H4 H5 H6 H7 H8] Hf]. split; [by split|]. by eapply same_feeds_ok; [|exact Hf].
Qed.
Lemma delivery_runs_ok d t : keeps runs_ok d (set_delivery t d).
Proof. by intros [H1 H2 H3]; split. Qed.

Record all_ok (d : DB) : Prop := { ao_store : store_ok d; ao_runs : runs_ok d; ao_delivery : delivery_ok d }.

Lemma empty_all_ok : all_ok empty_db.
Proof. split; [split; [exact empty_db_ok|exact empty_feeds_ok]|exact empty_runs_ok|done]. Qed.

Lemma setRuntime_tables key at_ w u w' : unix at_ <= max_int64 -> setRuntimeTimestamp key at_ w = (Ok u, w') ->
  store_ok (sw_db w) -> store_ok (sw_db w').
Proof.
  intros Hmax H [H1 H2]. apply setRuntimeTimestamp_Ok in H as ((t & E) & _ & _); [|done]. rewrite E.
  split; [by apply db_ok_runtime|]. eapply same_feeds_ok; [|exact H2]. reflexivity.
Qed.

Lemma prune_call_all_ok c : prune_call_wf c -> does (keeps all_ok) (prune_exec c).
Proof.
  intros Hwf. destruct c; cbn [prune_exec]; unfold void; cbn in Hwf.
  - unfold CountAmbiguousOperations. does_tac.
  - unfold PlanPruneHistory. does_tac.
  - intros w r w' H [Hs Hr Hd]. destruct r as [u|e].
    + apply mthen_ok in H as (res & w1 & H & [= _ <-]).
      apply PruneHistory_Ok in H as (_ & _ & w2 & w3 & E1 & Ht & E2). rewrite E2.
      destruct Hs as [Hdb Hf]. split.
      * eapply setRuntime_tables; [exact Hwf|exact Ht|]. rewrite E1.
        split; [by apply pruned_db_ok|by apply pruned_feeds_ok].
      * eapply setRuntimeTimestamp_runs_ok; [exact Hwf|exact Ht|]. rewrite E1. by apply pruned_runs_ok.
      * eapply same_delivery_ok; [|exact Hd]. eapply setRuntime_delivery in Ht; [|exact Hwf]. unfold same. by rewrite Ht, E1.
    + apply mthen_err in H as [H|(a & w1 & _ & H)]; [|done]. unfold PruneHistory in H.
      apply mthen_err in H as [H|(a & w1 & H1 & H)].
      * unfold require in H. destruct (validPruneOptions _ _ _); [done|]. by injection H as _ <-.
      * unfold require in H1. destruct (validPruneOptions _ _ _); [|done]. injection H1 as _ <-.
        apply tx_Err in H as ->. done.
Qed.

(** A call of any repository of the store. *)
Definition all_call : Type := store_call + run_call + (prune_call + delivery_call).
Definition all_exec (c : all_call) : Store unit :=
  match c with inl (inl c) => store_exec c | inl (inr c) => run_exec c | inr (inl c) => prune_exec c | inr (inr c) => delivery_exec c end.
Definition all_call_wf (c : all_call) : Prop :=
  match c with inl (inl c) => store_call_wf c | inl (inr c) => run_call_wf c | inr (inl c) => prune_call_wf c | inr (inr _) => True end.
Fixpoint all_history (cs : list all_call) (w : SW) : SW :=
  match cs with [] => w | c :: rest => all_history rest (all_exec c w).2 end.

Lemma other_tables_store_ok d d' : same other_tables d d' -> keeps store_ok d d'.
Proof.
  intros [= Ef Ee Eo Es Ea Ed Ep Ei _] [[H1 H2 H3 H4 H5 H6 H7 H8] Hf]. split.
  - split; unfold object_ok, operation_ok, decision_ok; rewrite ?Ef, ?Eo, ?Es, ?Ea, ?Ed, ?Ep, ?Ei; done.
  - eapply same_feeds_ok; [|exact Hf]. unfold same. by rewrite Ef, Ee.
Qed.

Lemma all_exec_ok c w r w' :
  all_call_wf c -> all_exec c w = (r, w') -> all_ok (sw_db w) -> all_ok (sw_db w').
Proof.
  intros Hwf H [Hs Hr Hd]. destruct c as [[c|c]|[c|c]]; cbn in Hwf, H.
  - assert (history_same (sw_db w) (sw_db w')) as Hh.
    { destruct c as [c|c]; cbn in Hwf, H.
      - by eapply (exec_does _ history_same_statements).
      - by eapply (feed_exec_does _ history_same_feed_statements). }
    split; [by eapply store_exec_ok|by eapply history_same_runs_ok|]. eapply same_delivery_ok; [|exact Hd].
    apply hs_tables in Hh. unfold same. congruence.
  - pose proof (run_call_other_tables c Hwf w r w' H) as Ho.
    split; [by eapply other_tables_store_ok|by eapply run_call_runs_ok|]. eapply same_delivery_ok; [|exact Hd].
    unfold same, other_tables in *. congruence.
  - by eapply prune_call_all_ok; [..|split].
  - pose proof (delivery_exec_other c w r w' H) as (t & E). split; [| |by eapply delivery_exec_ok].
    + rewrite E. by apply delivery_store_ok.
    + rewrite E. by apply delivery_runs_ok.
Qed.

Lemma all_history_ok cs w :
  List.Forall all_call_wf cs -> all_ok (sw_db w) -> all_ok (sw_db (all_history cs w)).
Proof.
  intros Hwf. revert w. induction Hwf as [|c cs Hc Hwf IH]; intros w Hok; cbn [all_history]; [done|].
  apply IH. by eapply all_exec_ok; [|apply surjective_pairing|].
Qed.

(** ** The history can always be read *)

(** A record shows a run with the results of its feeds, in the order of the
    feeds. *)
Record shows_run (d : DB) (run : Z * run_row) (rec : SyncRunRecord) : Prop := {
  sr_run : srr_ID rec = run.1 /\ srr_Mode rec = rr_mode run.2 /\ srr_RequestedFeed rec = rr_requested run.2 /\
    srr_Status rec = rr_status run.2 /\ srr_Failure rec = rr_error run.2 /\ srr_Counts rec = run_counts run.2;
  sr_times : srr_StartedAt rec = Unix (rr_started run.2) /\ srr_CompletedAt rec = Unix <$> rr_completed run.2;
  sr_ended : srr_CompletedAt rec = None <-> srr_Status rec = RunStatusRunning;
  sr_feeds : Forall2 (fun row f => scan_result row = Ok f /\ FeedResult_valid f = true) (run_results run.1 d) (srr_Feeds rec) }.

Lemma scan_all_ok {A B} (scan : A -> Prelude.result error B) (P : A -> B -> Prop) rows :
  (forall row, In row rows -> exists b, scan row = Ok b /\ P row b) ->
  exists bs, scan_all scan rows = Ok bs /\ Forall2 P rows bs.
Proof.
  induction rows as [|row rows IH]; intros H; cbn [scan_all]; [exists []; split; [done|constructor]|].
  destruct (H row) as (b & Hb & HP); [by left|].
  destruct IH as (bs & Hbs & Hall); [intros x Hx; apply H; by right|].
  exists (b :: bs). rewrite Hb, Hbs. split; [done|by constructor].
Qed.

Lemma in_run_results runID d feed name row : In (feed, name, row) (run_results runID d) ->
  db_results d !! (runID, feed) = Some row /\ exists f, db_feeds d !! feed = Some f /\ name = fr_name f.
Proof.
  unfold run_results. rewrite <- list_elem_of_In, elem_of_sort_func, list_elem_of_omap.
  intros ([[r0 f0] row0] & Hin & E). cbn in E. apply elem_of_map_to_list in Hin.
  destruct (db_feeds d !! f0) as [f|] eqn:Ef; [|done]. destruct (Z.eqb_spec r0 runID) as [->|]; [|done].
  injection E as <- <- <-. split; [done|]. by exists f.
Qed.

Lemma in_latest_runs limit d run : In run (latest_runs limit d) -> db_runs d !! run.1 = Some run.2.
Proof.
  unfold latest_runs. rewrite <- list_elem_of_In. intros H%elem_of_take. destruct H as (i & H & _).
  apply list_elem_of_lookup_2 in H. rewrite elem_of_sort_func in H. destruct run. by apply elem_of_map_to_list.
Qed.

Lemma scan_result_valid row f : scan_result row = Ok f -> FeedResult_valid f = true.
Proof.
  destruct row as [[feed name] r]. unfold scan_result, feedResultFromHistory. destruct (_ : option string); [|done].
  cbv zeta. destruct (FeedResult_valid _) eqn:E; [|done]. by intros [= <-].
Qed.

Lemma scan_run_shows d id row : valid_run id row = true ->
  exists rec, scan_run (id, row) = Ok rec /\
    forall feeds, Forall2 (fun row f => scan_result row = Ok f /\ FeedResult_valid f = true) (run_results id d) feeds ->
    srr_ID rec = id /\
    shows_run d (id, row) (MkSyncRunRecord (srr_ID rec) (srr_StartedAt rec) (srr_CompletedAt rec) (srr_Mode rec)
      (srr_RequestedFeed rec) (srr_Status rec) (srr_Failure rec) (srr_Counts rec) feeds).
Proof.
  intros Hv. unfold scan_run. rewrite Hv. eexists. split; [reflexivity|]. intros feeds Hf.
  split; [done|]. split; cbn; [by split_and!|done| |exact Hf].
  apply andb_prop in Hv as [_ He]. destruct (String.eqb_spec (rr_status row) RunStatusRunning);
    by destruct (rr_completed row).
Qed.

Lemma with_feeds_ok d rec : runs_ok d -> 
  exists feeds, Forall2 (fun row f => scan_result row = Ok f /\ FeedResult_valid f = true) (run_results (srr_ID rec) d) feeds /\
    with_feeds rec (MkSW d []) = (Ok (MkSyncRunRecord (srr_ID rec) (srr_StartedAt rec) (srr_CompletedAt rec)
      (srr_Mode rec) (srr_RequestedFeed rec) (srr_Status rec) (srr_Failure rec) (srr_Counts rec) feeds), MkSW d []).
Proof.
  intros Hok. destruct (scan_all_ok scan_result (fun row f => scan_result row = Ok f /\ FeedResult_valid f = true)
    (run_results (srr_ID rec) d)) as (feeds & Hf & Hall).
  - intros [[feed name] row] (Hr & f & Hfeed & ->)%in_run_results.
    destruct (ro_result _ Hok _ _ Hr) as (_ & f' & res & Hf' & Hres). cbn in Hf', Hres.
    assert (f' = f) as -> by congruence. exists res. split; [exact Hres|]. split; [exact Hres|].
    exact (scan_result_valid (feed, fr_name f, row) res Hres).
  - exists feeds. split; [exact Hall|]. unfold with_feeds, mthen, wrap. rewrite query_no_fault by done.
    unfold lift. cbn [sw_db]. by rewrite Hf.
Qed.

Lemma list_runs_ok d recs runs acc : runs_ok d ->
  Forall2 (fun run rec => scan_run run = Ok rec /\ valid_run run.1 run.2 = true) runs recs ->
  exists full, Forall2 (shows_run d) runs full /\
    mfold (fun acc run => let! full := with_feeds run in mok (acc ++ [full])) acc recs (MkSW d []) =
      (Ok (acc ++ full), MkSW d []).
Proof.
  intros Hok H. revert acc. induction H as [|run rec runs recs [Hs Hv] H IH]; intros acc.
  - exists []. split; [constructor|]. by rewrite app_nil_r.
  - destruct (with_feeds_ok d rec Hok) as (feeds & Hf & E). destruct run as [id row].
    destruct (scan_run_shows d id row Hv) as (rec' & Hs' & Hshow). assert (rec' = rec) as -> by congruence.
    assert (srr_ID rec = id) as Hid.
    { cbn in Hv. unfold scan_run in Hs. rewrite Hv in Hs. by injection Hs as <-. }
    rewrite Hid in Hf. destruct (Hshow feeds Hf) as [_ Hshown].
    set (shown := MkSyncRunRecord (srr_ID rec) _ _ _ _ _ _ _ _) in *.
    destruct (IH (acc ++ [shown])) as (full & Hfull & Ef). exists (shown :: full).
    split; [by constructor|]. cbn [mfold]. unfold mthen at 1. unfold mthen at 1. rewrite E.
    unfold mok at 1. rewrite Ef. by rewrite <- app_assoc.
Qed.

Lemma ListSyncRuns_ok limit d : runs_ok d -> 1 <= limit <= 1000 ->
  exists records, ListSyncRuns limit (MkSW d []) = (Ok records, MkSW d []) /\
    Forall2 (shows_run d) (latest_runs limit d) records.
Proof.
  intros Hok Hl. destruct (scan_all_ok scan_run (fun run rec => scan_run run = Ok rec /\ valid_run run.1 run.2 = true)
    (latest_runs limit d)) as (recs & Hs & Hall).
  - intros [id row] Hin%in_latest_runs. pose proof (ro_run _ Hok _ _ Hin) as Hv. cbn in Hv.
    destruct (proj2 (scan_run_valid id row) Hv) as [rec Hrec]. by exists rec.
  - destruct (list_runs_ok d recs _ [] Hok Hall) as (full & Hfull & E). exists full. split; [|exact Hfull].
    unfold ListSyncRuns, require.
    assert ((1 <=? limit) && (limit <=? 1000) = true) as -> by (apply andb_true_intro; split; apply Z.leb_le; lia).
    unfold mthen, wrap, mok at 1. rewrite query_no_fault by done. unfold lift. cbn [sw_db]. rewrite Hs. exact E.
Qed.

(** C6: whatever calls are made on the repositories of a sound store, in any
    order and with any faults, every table keeps its invariant and the history
    can be read: the list of the newest runs succeeds, shows every run as
    recorded, completed exactly when it is not running, with a valid result for
    each of its feeds, and changes nothing; and so can the state of every
    notification. *)
Theorem history_readable cs w limit :
  List.Forall all_call_wf cs -> all_ok (sw_db w) -> 1 <= limit <= 1000 ->
  let d := sw_db (all_history cs w) in
  all_ok d /\
  (forall k row, db_delivery d !! delivery_key k = Some row ->
     exists s, NotificationStateStore_Load k (MkSW d []) = (Ok (Some s), MkSW d [])) /\
  exists records, ListSyncRuns limit (MkSW d []) = (Ok records, MkSW d []) /\
    Forall2 (shows_run d) (latest_runs limit d) records.
Proof.
  intros Hwf Hw Hl d. assert (all_ok d) as Hok by (by apply all_history_ok).
  split_and!; [exact Hok|by apply delivery_loads, ao_delivery|]. apply ListSyncRuns_ok; [by apply ao_runs|exact Hl].
Qed.

(** A first run that completes, a second that is interrupted, a notification, a
    pruning. *)
Definition ex_delivered : PersistentState :=
  MkPersistentState (MkStateKey KindStaleSync "") "" "" 0 false false true ex_now ex_now.
Definition ex_history : list all_call :=
  [inl (inl (inr (CallEnsureFeeds [MkFeedDefinition "ranges" ex_version ex_version true] ex_now)));
   inl (inr (CallBeginSyncRun SyncModeEnforce "" ex_now));
   inl (inl (inr (CallApplyFeedSnapshot "ranges" (ex_snapshot ex_entries) 2 ex_now)));
   inl (inr (CallCompleteSyncRun 1 ex_result));
   inl (inr (CallBeginSyncRun SyncModeEnforce "ranges" ex_later));
   inl (inr (CallRecoverInterruptedSyncRuns ex_later));
   inr (inr (CallSaveState ex_delivered));
   inr (inl (CallPruneHistory ex_later Hour 100))].

Lemma ex_history_wf : List.Forall all_call_wf ex_history.
Proof.
  unfold ex_history. repeat (apply List.Forall_cons; [first [exact ex_entries_wf|exact I|by vm_compute]|]). constructor.
Qed.

Example ex_history_runs :
  map fst (latest_runs 10 (sw_db (all_history ex_history (MkSW empty_db [])))) = [2; 1].
Proof. by vm_compute. Qed.

Lemma history_readable_witness :
  exists records,
    ListSyncRuns 10 (MkSW (sw_db (all_history ex_history (MkSW empty_db []))) []) =
      (Ok records, MkSW (sw_db (all_history ex_history (MkSW empty_db []))) []) /\ List.length records = 2%nat.
Proof.
  assert (1 <= 10 <= 1000) as Hl by lia.
  destruct (history_readable ex_history (MkSW empty_db []) 10 ex_history_wf empty_all_ok Hl) as (_ & _ & records & E & H).
  exists records. split; [exact E|]. rewrite <- (Forall2_length H). by vm_compute.
Defined.
