(* ===== verification/LapiSession.v ===== *)
(** * The session of the LAPI client ([internal/lapi/client.go])

    The requests the client sends over a transport, the checks of their
    responses, the cached token with its renewal, and the four operations the
    reconciler calls.

    The HTTP transport, the clock and the JSON codec are not part of the
    program: they are interfaces over a world [X] and a type of bodies [B].  A
    request carries its payload as a value; a response carries its body, whose
    length and decodings the codec gives. *)

From S2P Require Export Lapi.

(** ** Requests and responses *)

Inductive Method : Type := MethodGet | MethodPost | MethodDelete.

Inductive Payload : Type :=
| NoPayload
| LoginPayload (machineID password : string)
| AlertsPayload (alerts : list wireAlert).

Record Request : Type := MkRequest {
  rq_Method : Method; rq_Path : string; rq_Query : list (string * string); rq_Payload : Payload;
  rq_UserAgent : string; rq_Bearer : string }.

(** The header [Content-Length] (-1 when unknown), whether the content type is
    JSON, and what reading the body gives. *)
Record Response (B : Type) : Type := MkResponse {
  rs_Status : Z; rs_ContentLength : Z; rs_JSON : bool; rs_Body : result error B }.
Arguments MkResponse {B}.
Arguments rs_Status {B}.
Arguments rs_ContentLength {B}.
Arguments rs_JSON {B}.
Arguments rs_Body {B}.

Record loginResponse : Type := MkLoginResponse { lr_Code : Z; lr_Expire : string; lr_Token : string }.

Class Transport (X B : Type) : Type := {
  http_Do : Request -> M X error (Response B);
  clock : X -> Time * X }.

Class Codec (B : Type) : Type := {
  no_body : B;
  body_len : B -> Z;
  decode_login : B -> result error loginResponse;
  decode_ids : B -> result error (list string);
  decode_alert : B -> result error Alert;
  decode_alerts : B -> result error (list Alert) }.

(** ** The client *)

Definition maxTokenBytes : Z := 16384.
Definition operationSearchRequestSize : Z := maxOperationSearchResults + 1.

(** The credentials: the login, the password and the endpoint. *)
Record Credentials : Type := MkCredentials {
  cd_Login : string; cd_Password : string; cd_Scheme : string; cd_BasePath : string }.

Record Client : Type := MkClient {
  cl_credentials : Credentials; cl_userAgent : string; cl_maxResponseBytes : Z;
  cl_authRefreshBefore : Duration }.

(** The token of a client is guarded by its mutex; every method holds it while
    it reads or renews the token. *)
Record CW (X : Type) : Type := MkCW { cw_token : string; cw_tokenExpiry : Time; cw_world : X }.
Arguments MkCW {X}.
Arguments cw_token {X}.
Arguments cw_tokenExpiry {X}.
Arguments cw_world {X}.

(** [time.Time{}] *)
Definition zero_time : Time := 0.

Definition status_error (status : Z) : error :=
  if (status =? 401) || (status =? 403) then lapiStatusError lapi.ErrAuth status None
  else if status =? 404 then lapiStatusError lapi.ErrNotFound status None
  else lapiStatusError lapi.ErrStatus status None.

Definition containsStatus (status : Z) (allowed : list Z) : bool := existsb (Z.eqb status) allowed.

(** [as_lapi] gives the category and the status of the error. *)
Definition isUnauthorized (e : error) : bool :=
  match as_lapi e with
  | Some (c, status) => bool_decide (c = lapi.ErrAuth) && (status =? 401)
  | None => false
  end.

(** One slash between two parts without spaces. *)
Definition validUserAgent (value : string) : bool :=
  (3 <=? len value) && (len value <=? 128) &&
  match cut_byte "/" value with
  | Some (product, version) =>
      negb (contains_byte "/" version) && negb (String.eqb product "") && negb (String.eqb version "")
  | None => false
  end && negb (has_control value) && negb (contains_any [" "; "009"]%char value).

(** [New]; the HTTP client and the clock are the transport. *)
Definition lapi_New (credentials : Credentials) (userAgent : string) (requestTimeout connectTimeout : Duration)
    (maxResponseBytes : Z) (authRefreshBefore : Duration) : result error Client :=
  if String.eqb (cd_Login credentials) "" || String.eqb (cd_Password credentials) "" ||
     negb (validUserAgent userAgent) || (requestTimeout <=? 0) || (2 * Minute <? requestTimeout) ||
     (connectTimeout <=? 0) || (Minute <? connectTimeout) || (maxResponseBytes <? 1024) ||
     (64 * 2 ^ 20 <? maxResponseBytes) || (authRefreshBefore <? 0) || (Hour <=? authRefreshBefore)
  then Err (lapiError lapi.ErrContract None)
  else if negb (String.eqb (cd_Scheme credentials) "http") && negb (String.eqb (cd_Scheme credentials) "https")
  then Err (lapiError lapi.ErrContract None)
  else Ok (MkClient credentials userAgent maxResponseBytes authRefreshBefore).

(** The path of [endpoint]. *)
Definition endpoint (basePath route : string) : string :=
  let base := trim_right "/" basePath in
  (if has_suffix "/v1" base then base else base +:+ "/v1") +:+ route.

Section Client.
Context {X B : Type} `{!Codec B} `{!Transport X B}.
Context (c : Client).

Definition Call (A : Type) : Type := M (CW X) error A.

Definition now_ : Call Time :=
  fun s => let '(t, x) := clock (cw_world s) in (Ok t, MkCW (cw_token s) (cw_tokenExpiry s) x).

Definition send (r : Request) : Call (Response B) :=
  fun s => let '(a, x) := http_Do r (cw_world s) in (a, MkCW (cw_token s) (cw_tokenExpiry s) x).

Definition set_token (token : string) (expiry : Time) : Call unit :=
  fun s => (Ok tt, MkCW token expiry (cw_world s)).

(** The checks of a response. *)
Definition check_response (expected : list Z) (r : Response B) : result error B :=
  if cl_maxResponseBytes c <? rs_ContentLength r then Err (lapiError lapi.ErrResponseSize None)
  else match rs_Body r with
       | Err e => Err (lapiError lapi.ErrRequest (Some e))
       | Ok body =>
           if cl_maxResponseBytes c <? body_len body then Err (lapiError lapi.ErrResponseSize None)
           else if negb (containsStatus (rs_Status r) expected) then Err (status_error (rs_Status r))
           else if (0 <? body_len body) && negb (rs_JSON r) then Err (lapiError lapi.ErrContentType None)
           else Ok body
       end.

Definition perform (m : Method) (route : string) (query : list (string * string)) (payload : Payload)
    (bearer : string) (expected : list Z) : Call B :=
  let~ r := send (MkRequest m (endpoint (cd_BasePath (cl_credentials c)) route) query payload (cl_userAgent c) bearer) in
  match r with
  | Err e => mfail (lapiError lapi.ErrRequest (Some e))
  | Ok response => fun s => (check_response expected response, s)
  end.

Definition decodeJSON {A} (decode : B -> result error A) (body : B) : Call A :=
  match decode body with Ok a => mok a | Err e => mfail (lapiError lapi.ErrDecode (Some e)) end.

Definition good_token (token : string) : bool :=
  negb (String.eqb token "") && (len token <=? maxTokenBytes) && negb (has_control token).

Definition good_code (code : Z) : bool := (code =? 0) || (code =? 200).

Definition loginLocked : Call unit :=
  let! body := perform MethodPost "/watchers/login" [] (LoginPayload (cd_Login (cl_credentials c)) (cd_Password (cl_credentials c))) "" [200] in
  let! response := decodeJSON decode_login body in
  match Parse_RFC3339 (lr_Expire response) with
  | Err e => mfail (lapiError lapi.ErrContract (Some e))
  | Ok expiry =>
      if negb (good_token (lr_Token response)) then mfail (lapiError lapi.ErrContract None)
      else
        let! t := now_ in
        if negb (After expiry (time_Add t (cl_authRefreshBefore c))) || negb (good_code (lr_Code response))
        then mfail (lapiError lapi.ErrContract None)
        else set_token (lr_Token response) expiry
  end.

(** The cached token is fresh: [c.now()] is read only when there is one. *)
Definition fresh (usable : string -> bool) : Call bool :=
  fun s => if negb (usable (cw_token s)) then (Ok false, s)
           else let '(t, x) := clock (cw_world s) in
                (Ok (Before (time_Add t (cl_authRefreshBefore c)) (cw_tokenExpiry s)),
                 MkCW (cw_token s) (cw_tokenExpiry s) x).

Definition renew : Call unit := let! _ := set_token "" zero_time in loginLocked.

Definition ensureToken (force : bool) : Call unit :=
  let! ok := fresh (fun token => negb force && negb (String.eqb token "")) in
  if ok then mok tt else renew.

Definition Authenticate : Call unit := ensureToken false.

Definition currentToken : Call string := fun s => (Ok (cw_token s), s).

Definition refreshRejectedToken (rejected : string) : Call unit :=
  let! ok := fresh (fun token => negb (String.eqb token "") && negb (String.eqb token rejected)) in
  if ok then mok tt else renew.

Definition authenticated (m : Method) (route : string) (query : list (string * string)) (payload : Payload)
    (expected : list Z) : Call B :=
  let! _ := ensureToken false in
  let! token := currentToken in
  let~ r := perform m route query payload token expected in
  match r with
  | Err e =>
      if negb (isUnauthorized e) then mfail e
      else
        let! _ := refreshRejectedToken token in
        let! token := currentToken in
        perform m route query payload token expected
  | Ok body => mok body
  end.

(** ** Operations *)

Definition no_cause : error := lapiError lapi.ErrContract None.

Definition CreateAlert (request : CreateRequest) : Call Z :=
  let! t := now_ in
  match buildWireAlert request t with
  | Err e => mfail e
  | Ok alert =>
      let! body := authenticated MethodPost "/alerts" [] (AlertsPayload [alert]) [201] in
      let! response := decodeJSON decode_ids body in
      match response with
      | [text] =>
          match atoi text with
          | None => mfail (lapiError lapi.ErrContract (Some (Foreign "strconv.ParseInt")))
          | Some alertID => if alertID <=? 0 then mfail no_cause else mok alertID
          end
      | _ => mfail no_cause
      end
  end.

Definition GetAlert (alertID : Z) : Call Alert :=
  if alertID <=? 0 then mfail no_cause
  else
    let! body := authenticated MethodGet ("/alerts/" +:+ itoa alertID) [] NoPayload [200] in
    let! alert := decodeJSON decode_alert body in
    if negb (al_ID alert =? alertID) then mfail no_cause else mok alert.

Definition ExpireDecision (decisionID : Z) : Call unit :=
  if decisionID <=? 0 then mfail no_cause
  else
    let! _ := authenticated MethodDelete ("/decisions/" +:+ itoa decisionID) [] NoPayload [200; 204] in
    mok tt.

Definition find_query (feedName : string) : list (string * string) :=
  [("scenario", "crowdshield/" +:+ feedName); ("since", itoa (Z.quot maxDecisionDuration Hour) +:+ "h");
   ("limit", itoa operationSearchRequestSize)].

Definition FindOperation (feedName token : string) : Call (option Alert) :=
  if negb (match_feed_name feedName) || negb (match_token token) then mfail no_cause
  else
    let! body := authenticated MethodGet "/alerts" (find_query feedName) NoPayload [200] in
    let! alerts := decodeJSON decode_alerts body in
    match find_operation feedName token alerts with Ok r => mok r | Err e => mfail e end.
End Client.

(** ** The exchange of an operation with the server *)

(** The requests sent and the readings of the clock, the last one first. *)
Inductive exchange : Type := Sent (r : Request) (status : result error Z) | Read (t : Time).

Definition status_of {B} (a : result error (Response B)) : result error Z :=
  match a with Ok response => Ok (rs_Status response) | Err e => Err e end.

#[export] Instance logged_transport {X B} `{!Transport X B} : Transport (X * list exchange) B := {|
  http_Do r xl := let '(a, x) := http_Do r xl.1 in (a, (x, Sent r (status_of a) :: xl.2));
  clock xl := let '(t, x) := @clock X B _ xl.1 in (t, (x, Read t :: xl.2)) |}.

Section Exchange.
Context {X B : Type} `{!Codec B} `{!Transport X B}.
Context (c : Client).

#[local] Abbreviation LX := (X * list exchange)%type.
Definition xlog (s : CW LX) : list exchange := (cw_world s).2.

(** A token is absent or well formed. *)
Definition session_ok {Y} (s : CW Y) : Prop := cw_token s = "" \/ good_token (cw_token s) = true.

(** The cached token outlives the instant just read by the configured margin. *)
Definition just_fresh (s : CW LX) : Prop :=
  good_token (cw_token s) = true /\
  exists t rest, xlog s = Read t :: rest /\ time_Add t (cl_authRefreshBefore c) < cw_tokenExpiry s.

Definition login_request : Request :=
  MkRequest MethodPost (endpoint (cd_BasePath (cl_credentials c)) "/watchers/login") []
    (LoginPayload (cd_Login (cl_credentials c)) (cd_Password (cl_credentials c))) (cl_userAgent c) "".

(** The requests of a log, the last one first. *)
Definition requests (log : list exchange) : list (Request * result error Z) :=
  omap (fun e => match e with Sent r a => Some (r, a) | Read _ => None end) log.

Definition is_ok {E A} (r : result E A) : bool := match r with Ok _ => true | Err _ => false end.

Definition login_sent (sent : list (Request * result error Z)) : Prop :=
  exists a, sent = [(login_request, a)].

Lemma check_response_unauthorized expected (response : Response B) e :
  check_response c expected response = Err e -> isUnauthorized e = true -> rs_Status response = 401.
Proof.
  unfold check_response. intros H Hu.
  destruct (_ <? rs_ContentLength response); [by injection H as <-|].
  destruct (rs_Body response) as [body|e']; [|by injection H as <-].
  destruct (_ <? body_len body); [by injection H as <-|].
  destruct (negb _) eqn:Es; [|destruct (_ && _); [by injection H as <-|discriminate]]. injection H as <-.
  unfold status_error in Hu. destruct (rs_Status response =? 401) eqn:E; [by apply Z.eqb_eq|].
  cbn [orb] in Hu. destruct (rs_Status response =? 403) eqn:E3.
  - apply Z.eqb_eq in E3. by rewrite E3 in Hu.
  - by destruct (rs_Status response =? 404).
Qed.

Lemma perform_spec m route query payload bearer expected (s s' : CW LX) (r : result error B) :
  perform c m route query payload bearer expected s = (r, s') ->
  cw_token s' = cw_token s /\ cw_tokenExpiry s' = cw_tokenExpiry s /\ exists a,
  xlog s' = Sent (MkRequest m (endpoint (cd_BasePath (cl_credentials c)) route) query payload (cl_userAgent c) bearer)
              a :: xlog s /\
  (forall e, r = Err e -> isUnauthorized e = true -> a = Ok 401).
Proof.
  unfold perform, mtry, send. cbn. destruct (http_Do _ _) as [[response|e] x]; intros [= <- <-];
    (split_and!; [done..|]); eexists; (split; [done|]).
  - intros e H Hu. cbn. f_equal. by eapply check_response_unauthorized.
  - by intros e' [= <-].
Qed.

Lemma loginLocked_spec (s s' : CW LX) r : loginLocked c s = (r, s') ->
  (exists sent, requests (xlog s') = sent ++ requests (xlog s) /\ login_sent sent) /\
  match r with Ok _ => just_fresh s' | Err _ => cw_token s' = cw_token s end.
Proof.
  unfold loginLocked. intros H. unfold mthen at 1 in H.
  destruct (perform c _ _ _ _ _ _ s) as [r1 s1] eqn:E1. apply perform_spec in E1 as (Et & Ex & a & El & _).
  assert (exists sent, requests (xlog s1) = sent ++ requests (xlog s) /\ login_sent sent) as Hr
    by (by exists [(login_request, a)]; rewrite El; split; [|exists a]).
  destruct r1 as [body|e]; [|by injection H as <- <-].
  unfold decodeJSON in H. destruct (decode_login body) as [response|e]; [|by injection H as <- <-].
  cbn [mthen mok] in H. destruct (Parse_RFC3339 _) as [expiry|e]; [|by injection H as <- <-].
  destruct (good_token (lr_Token response)) eqn:Eg; cbn [negb] in H; [|by injection H as <- <-].
  unfold mthen, now_ in H. destruct (clock (cw_world s1)) as [t x] eqn:Ec. cbn in Ec.
  destruct (clock (cw_world s1).1) as [t1 x1]. injection Ec as <- <-.
  destruct (After expiry _) eqn:Ea; cbn [negb orb] in H; [|by injection H as <- <-].
  destruct (good_code _); cbn [negb] in H; injection H as <- <-; [|by split; [|]].
  split; [done|]. split; [done|]. exists t1, (xlog s1). split; [done|]. by apply Z.ltb_lt in Ea.
Qed.

Lemma fresh_spec usable (s s' : CW LX) r : fresh (B := B) c usable s = (r, s') ->
  cw_token s' = cw_token s /\ requests (xlog s') = requests (xlog s) /\
  exists b, r = Ok b /\ (b = true -> usable (cw_token s) = true /\
    exists t rest, xlog s' = Read t :: rest /\ time_Add t (cl_authRefreshBefore c) < cw_tokenExpiry s').
Proof.
  unfold fresh. destruct (usable (cw_token s)) eqn:Eu; cbn [negb].
  - destruct (clock (cw_world s)) as [t x] eqn:Ec. cbn in Ec.
    destruct (clock (cw_world s).1) as [t1 x1]. injection Ec as <- <-. intros [= <- <-].
    split_and!; [done..|]. eexists. split; [done|]. intros Hb. split; [done|]. exists t1, (xlog s).
    split; [done|]. by apply Z.ltb_lt in Hb.
  - intros [= <- <-]. split_and!; [done..|]. by exists false.
Qed.

(** Renewing a token, or keeping one that is usable and fresh. *)
Lemma renewed_spec usable (s s' : CW LX) r :
  (forall token, usable token = true -> token <> "") -> session_ok s ->
  (let! ok := fresh (B := B) c usable in if ok then mok tt else renew c) s = (r, s') ->
  session_ok s' /\ (exists logins, requests (xlog s') = logins ++ requests (xlog s) /\
    (logins = [] \/ login_sent logins) /\ (is_ok r = false -> login_sent logins)) /\
  match r with Ok _ => just_fresh s' | Err _ => cw_token s' = "" end.
Proof.
  intros Hu Hok H. unfold mthen at 1 in H. destruct (fresh c usable s) as [r1 s1] eqn:E1.
  apply fresh_spec in E1 as (Et & El & b & -> & Hb). destruct b.
  - injection H as <- <-. destruct (Hb eq_refl) as [H1 H2]. unfold session_ok, just_fresh. rewrite Et in *.
    split_and!; [done|exists []; split_and!; [done|by left|done]|by destruct Hok as [Hok|Hok]; [apply Hu in H1|]|done].
  - unfold renew, mthen, set_token in H. apply loginLocked_spec in H as [H1 H2]. cbn in H1.
    destruct H1 as (sent & H1 & H3).
    split_and!; [|exists sent; split_and!; [by rewrite H1, <- El|by right|done]|done].
    unfold session_ok. destruct r; [right; apply H2|by left].
Qed.

Lemma ensureToken_spec (s s' : CW LX) r :
  session_ok s -> ensureToken (B := B) c false s = (r, s') ->
  session_ok s' /\ (exists logins, requests (xlog s') = logins ++ requests (xlog s) /\
    (logins = [] \/ login_sent logins) /\ (is_ok r = false -> login_sent logins)) /\
  match r with Ok _ => just_fresh s' | Err _ => cw_token s' = "" end.
Proof.
  apply renewed_spec. intros token H ->. discriminate.
Qed.

Lemma refreshRejectedToken_spec rejected (s s' : CW LX) r :
  session_ok s -> refreshRejectedToken (B := B) c rejected s = (r, s') ->
  session_ok s' /\ (exists logins, requests (xlog s') = logins ++ requests (xlog s) /\
    (logins = [] \/ login_sent logins) /\ (is_ok r = false -> login_sent logins)) /\
  match r with Ok _ => just_fresh s' | Err _ => cw_token s' = "" end.
Proof. apply renewed_spec. intros token H ->. discriminate. Qed.

(** An attempt, the last request first: perhaps a login, then the request with
    a good token. *)
Definition attempt (req : string -> Request) (sent : list (Request * result error Z)) : Prop :=
  exists b a logins, good_token b = true /\ (logins = [] \/ login_sent logins) /\ sent = (req b, a) :: logins.

(** The server rejected the token of an attempt. *)
Definition rejected (sent : list (Request * result error Z)) : Prop :=
  exists q rest, sent = (q, Ok 401) :: rest.

Inductive conversation (req : string -> Request) : bool -> list (Request * result error Z) -> Prop :=
| login_failed sent : login_sent sent -> conversation req false sent
| one_attempt ok sent : attempt req sent -> conversation req ok sent
| login_failed_again sent again : attempt req sent -> rejected sent -> login_sent again ->
    conversation req false (again ++ sent)
| two_attempts ok sent again : attempt req sent -> rejected sent -> attempt req again ->
    conversation req ok (again ++ sent).


(** The tail of [authenticated], after the token was read. *)
Lemma attempt_spec m route query payload expected (s s' : CW LX) (r : result error B) logins :
  just_fresh s -> (logins = [] \/ login_sent logins) ->
  perform c m route query payload (cw_token s) expected s = (r, s') ->
  let req := MkRequest m (endpoint (cd_BasePath (cl_credentials c)) route) query payload (cl_userAgent c) in
  session_ok s' /\ exists a, requests (xlog s') = (req (cw_token s), a) :: requests (xlog s) /\
    attempt req ((req (cw_token s), a) :: logins) /\
    (forall e, r = Err e -> isUnauthorized e = true -> a = Ok 401).
Proof.
  intros [Hg _] Hl H. apply perform_spec in H as (Et & _ & a & El & Hu). split; [right; by rewrite Et|].
  exists a. rewrite El. split_and!; [done| |done]. exists (cw_token s), a, logins. by split_and!.
Qed.

(** an authenticated call sends at most four requests: perhaps a login,
    the request with a well-formed token, and, only when the server rejected
    that token, once more.  A call that succeeds ends with its own request;
    the cached token stays absent or well formed. *)
Theorem authenticated_exchange m route query payload expected (s s' : CW LX) (r : result error B) :
  session_ok s -> authenticated c m route query payload expected s = (r, s') ->
  session_ok s' /\ exists sent, requests (xlog s') = sent ++ requests (xlog s) /\
    (List.length sent <= 4)%nat /\
    conversation (MkRequest m (endpoint (cd_BasePath (cl_credentials c)) route) query payload (cl_userAgent c))
      (is_ok r) sent.
Proof.
  intros Hok H. unfold authenticated, mthen at 1 in H.
  destruct (ensureToken c false s) as [r1 s1] eqn:E1.
  apply ensureToken_spec in E1 as (Hok1 & (l1 & El1 & Hl1 & Hf1) & Hr1); [|done].
  destruct r1 as [u|e]; [|injection H as <- <-; split; [done|]; exists l1; split_and!; [done| |]].
  2:{ destruct (Hf1 eq_refl) as (a & ->). cbn. lia. }
  2:{ apply login_failed. by apply Hf1. }
  unfold mthen at 1, currentToken at 1 in H. unfold mtry in H.
  destruct (perform c m route query payload (cw_token s1) expected s1) as [r2 s2] eqn:E2.
  eapply attempt_spec in E2 as (Hok2 & a2 & El2 & Ha2 & Hu2); [|done|exact Hl1].
  set (req := MkRequest _ _ _ _ _) in *. set (first := (req (cw_token s1), a2) :: l1) in *.
  assert (requests (xlog s2) = first ++ requests (xlog s)) as Efirst by (by rewrite El2, El1).
  assert (List.length first <= 2)%nat as Hlen by (destruct Hl1 as [->|(a & ->)]; cbn; lia).
  assert (forall e, r2 = Err e -> isUnauthorized e = true -> rejected first) as Hrej
    by (intros e He Hu; exists (req (cw_token s1)), l1; by rewrite <- (Hu2 e He Hu)).
  clearbody first.
  destruct r2 as [body|e]; [|destruct (isUnauthorized e) eqn:Eu; cbn [negb] in H].
  - injection H as <- <-. split; [done|]. exists first. split_and!; [done|lia|by apply one_attempt].
  - specialize (Hrej e eq_refl Eu). unfold mthen at 1 in H. destruct (refreshRejectedToken c _ s2) as [r3 s3] eqn:E3.
    apply refreshRejectedToken_spec in E3 as (Hok3 & (l3 & El3 & Hl3 & Hf3) & Hr3); [|done].
    destruct r3 as [u3|e3].
    + unfold mthen, currentToken in H. eapply attempt_spec in H as (Hok4 & a4 & El4 & Ha4 & _); [|done|exact Hl3].
      split; [done|]. exists (((req (cw_token s3), a4) :: l3) ++ first). split_and!.
      * rewrite El4, El3, Efirst. cbn. by rewrite <- app_assoc.
      * rewrite List.length_app. destruct Hl3 as [->|(a & ->)]; cbn; lia.
      * by apply two_attempts.
    + injection H as <- <-. split; [done|]. exists (l3 ++ first). destruct (Hf3 eq_refl) as (a & ->).
      split_and!; [by rewrite El3, Efirst|cbn; lia|]. apply login_failed_again; [done..|by exists a].
  - injection H as <- <-. split; [done|]. exists first. split_and!; [done|lia|by apply one_attempt].
Qed.

Lemma select_alert_found scenario hash alerts : forall found a,
  select_alert scenario hash found alerts = Ok (Some a) ->
  found = Some a \/ (In a alerts /\ al_Scenario a = scenario /\ al_ScenarioHash a = hash).
Proof.
  induction alerts as [|x xs IH]; intros found a; cbn [select_alert]; [intros [= ->]; by left|].
  destruct (_ && _) eqn:E.
  - destruct found; [done|]. intros H. right. apply andb_prop in E as [E1 E2].
    apply String.eqb_eq in E1, E2. destruct (IH _ _ H) as [[= ->]|(H1 & H2)]; [by split; [left|]|by split; [right|]].
  - intros H. destruct (IH _ _ H) as [H1|(H1 & H2)]; [by left|right; by split; [right|]].
Qed.

(** A token that is used outlives the instant read just before by the
    configured margin. *)
Theorem ensureToken_fresh (s s' : CW LX) :
  session_ok s -> ensureToken (B := B) c false s = (Ok tt, s') -> just_fresh s'.
Proof. intros Hok H. by apply ensureToken_spec in H as (_ & _ & H). Qed.

(** whatever the server answers, a created alert has a positive id and was
    built from the request, an alert that is read has the id that was asked
    for, and the alert found for an operation carries its scenario and the
    hash of its token. *)
Theorem client_answers (s s' : CW LX) :
  (forall request id, CreateAlert c request s = (Ok id, s') ->
     0 < id /\ exists t alert, buildWireAlert request t = Ok alert) /\
  (forall id alert, GetAlert c id s = (Ok alert, s') -> 0 < id /\ al_ID alert = id) /\
  (forall feedName token alert, FindOperation c feedName token s = (Ok (Some alert), s') ->
     match_feed_name feedName = true /\ match_token token = true /\
     al_Scenario alert = "crowdshield/" +:+ feedName /\ al_ScenarioHash alert = "crowdshield:" +:+ token).
Proof.
  split_and!.
  - intros request id H. apply mthen_ok in H as (t & s1 & _ & H).
    destruct (buildWireAlert request t) as [alert|e] eqn:Eb; [|done].
    apply mthen_ok in H as (body & s2 & _ & H). apply mthen_ok in H as (ids & s3 & _ & H).
    destruct ids as [|text [|]]; [done| |done]. destruct (atoi text) as [n|]; [|done].
    destruct (n <=? 0) eqn:En; [done|]. injection H as <- <-. apply Z.leb_gt in En. split; [done|]. by exists t, alert.
  - intros id alert H. unfold GetAlert in H. destruct (id <=? 0) eqn:Ei; [done|]. apply Z.leb_gt in Ei.
    apply mthen_ok in H as (body & s1 & _ & H). apply mthen_ok in H as (a & s2 & _ & H).
    destruct (al_ID a =? id) eqn:Ea; [|done]. injection H as <- <-. by apply Z.eqb_eq in Ea.
  - intros feedName token alert H. unfold FindOperation in H.
    destruct (match_feed_name feedName) eqn:Ef; [|done]. destruct (match_token token) eqn:Et; [|done].
    cbn [negb orb] in H. apply mthen_ok in H as (body & s1 & _ & H). apply mthen_ok in H as (alerts & s2 & _ & H).
    unfold find_operation in H. destruct (_ <? _); [done|].
    destruct (select_alert _ _ _ _) as [found|e] eqn:Es; [|done]. injection H as -> <-.
    by apply select_alert_found in Es as [|(_ & H1 & H2)].
Qed.
End Exchange.
