(* ===== verification/MockServer.v ===== *)
(** * The in-memory LAPI ([internal/lapi/mock/server.go])

    The server the program's tests and its development mode run against: its
    tokens, alerts and counters, one function per handler, and its instance of
    the client's transport.  Requests arrive one at a time, as under the
    server's mutex; the clock of the configuration is an instant. *)

From S2P Require Export LapiSession.

(** ** Bodies

    The JSON texts the server writes, and what the client's decoder makes of
    them: an object decodes into any structure, unknown fields being ignored. *)

Inductive MockBody : Type :=
| MbMessage (message : string)
| MbLogin (response : loginResponse)
| MbIDs (ids : list string)
| MbAlert (alert : Alert)
| MbAlerts (alerts : list Alert).

Definition err_json : error := Foreign "json: cannot unmarshal".

#[export] Instance mock_codec : Codec MockBody := {|
  no_body := MbMessage "";
  body_len _ := 1;
  decode_login b := match b with
                    | MbLogin r => Ok r
                    | MbMessage _ | MbAlert _ => Ok (MkLoginResponse 0 "" "")
                    | _ => Err err_json
                    end;
  decode_ids b := match b with MbIDs ids => Ok ids | MbAlerts [] => Ok [] | _ => Err err_json end;
  decode_alert b := match b with
                    | MbAlert a => Ok a
                    | MbMessage m => Ok (MkAlert 0 "" "" "" "" m [])
                    | MbLogin _ => Ok no_alert
                    | _ => Err err_json
                    end;
  decode_alerts b := match b with MbAlerts l => Ok l | MbIDs [] => Ok [] | _ => Err err_json end |}.

Definition writeJSON (status : Z) (body : MockBody) : Response MockBody := MkResponse status (-1) true (Ok body).
Definition answer (status : Z) (message : string) : Response MockBody := writeJSON status (MbMessage message).

(** ** State *)

Record MockConfig : Type := MkMockConfig {
  mc_MachineID : string; mc_Password : string; mc_TokenTTL : Duration; mc_Now : Time }.

Record Server : Type := MkServer {
  sv_config : MockConfig; sv_tokens : gmap string Time; sv_alerts : gmap Z Alert; sv_expired : gset Z;
  sv_requests : gmap string Z; sv_requestLog : list string;
  sv_nextAlertID : Z; sv_nextDecisionID : Z; sv_nextTokenID : Z; sv_unauthorizedOnce : bool }.

Definition default_text (d s : string) : string := if String.eqb s "" then d else s.

Definition newServer (c : MockConfig) : Server :=
  MkServer (MkMockConfig (default_text "crowdshield-test" (mc_MachineID c))
              (default_text "mock-password" (mc_Password c))
              (if mc_TokenTTL c <=? 0 then Hour else mc_TokenTTL c) (mc_Now c))
    ∅ ∅ ∅ ∅ [] 1 1 1 false.

Definition set_tokens (tokens : gmap string Time) (next : Z) (s : Server) : Server :=
  MkServer (sv_config s) tokens (sv_alerts s) (sv_expired s) (sv_requests s) (sv_requestLog s)
    (sv_nextAlertID s) (sv_nextDecisionID s) next (sv_unauthorizedOnce s).
Definition set_alerts (alerts : gmap Z Alert) (nextAlert nextDecision : Z) (s : Server) : Server :=
  MkServer (sv_config s) (sv_tokens s) alerts (sv_expired s) (sv_requests s) (sv_requestLog s)
    nextAlert nextDecision (sv_nextTokenID s) (sv_unauthorizedOnce s).
Definition set_expired (expired : gset Z) (s : Server) : Server :=
  MkServer (sv_config s) (sv_tokens s) (sv_alerts s) expired (sv_requests s) (sv_requestLog s)
    (sv_nextAlertID s) (sv_nextDecisionID s) (sv_nextTokenID s) (sv_unauthorizedOnce s).
Definition set_requests (requests : gmap string Z) (log : list string) (s : Server) : Server :=
  MkServer (sv_config s) (sv_tokens s) (sv_alerts s) (sv_expired s) requests log
    (sv_nextAlertID s) (sv_nextDecisionID s) (sv_nextTokenID s) (sv_unauthorizedOnce s).
Definition set_unauthorized (b : bool) (s : Server) : Server :=
  MkServer (sv_config s) (sv_tokens s) (sv_alerts s) (sv_expired s) (sv_requests s) (sv_requestLog s)
    (sv_nextAlertID s) (sv_nextDecisionID s) (sv_nextTokenID s) b.

(** ** Controls and inspection *)

Definition ForceUnauthorizedOnce (s : Server) : Server := set_unauthorized true s.

(** The decisions of a foreign alert keep their ids or get the next ones. *)
Fixpoint foreign_decisions (next : Z) (ds : list Decision) : list Decision * Z :=
  match ds with
  | [] => ([], next)
  | d :: rest =>
      let id := if dn_ID d <=? 0 then next else dn_ID d in
      let d' := MkDecision id (dn_Origin d) (dn_Type d) (dn_Scope d) (dn_Value d) (dn_Duration d) (dn_Until d)
                  (dn_Scenario d) in
      let '(ds', next') := foreign_decisions (if next <=? id then id + 1 else next) rest in
      (d' :: ds', next')
  end.

Definition AddForeignAlert (a : Alert) (s : Server) : Server :=
  let id := if al_ID a <=? 0 then sv_nextAlertID s else al_ID a in
  let nextAlert := if sv_nextAlertID s <=? id then id + 1 else sv_nextAlertID s in
  let '(ds, nextDecision) := foreign_decisions (sv_nextDecisionID s) (al_Decisions a) in
  set_alerts (<[id := MkAlert id (al_MachineID a) (al_Scenario a) (al_ScenarioHash a) (al_ScenarioVersion a)
                        (al_Message a) ds]> (sv_alerts s)) nextAlert nextDecision s.

Definition Alerts (s : Server) : list Alert := map snd (map_to_list (sv_alerts s)).
Definition WasExpired (decisionID : Z) (s : Server) : bool := bool_decide (decisionID ∈ sv_expired s).
Definition method_text (m : Method) : string :=
  match m with MethodGet => "GET" | MethodPost => "POST" | MethodDelete => "DELETE" end.
Definition RequestCount (entry : string) (s : Server) : Z := default 0 (sv_requests s !! entry).
Definition RequestLog (s : Server) : list string := sv_requestLog s.

(** ** Handlers *)

Definition mock_count (r : Request) (s : Server) : Server :=
  let entry := method_text (rq_Method r) +:+ " " +:+ rq_Path r in
  set_requests (<[entry := RequestCount entry s + 1]> (sv_requests s)) (sv_requestLog s ++ [entry]) s.

(** [strings.Count(s, "/") == 1] *)
Definition one_slash (s : string) : bool :=
  match cut_byte "/" s with Some (_, rest) => negb (contains_byte "/" rest) | None => false end.

(** [t.Format(time.RFC3339)] *)
Definition Format_RFC3339 (t : Time) : string := Format_RFC3339Nano (t - t mod Second).

Definition mock_login (r : Request) (s : Server) : Response MockBody * Server :=
  match rq_Payload r with
  | LoginPayload machineID password =>
      if negb (String.eqb machineID (mc_MachineID (sv_config s))) ||
         negb (String.eqb password (mc_Password (sv_config s))) || negb (one_slash (rq_UserAgent r))
      then (answer 403 "invalid credentials", s)
      else
        let token := "mock-token-" +:+ itoa (sv_nextTokenID s) in
        let expiry := time_Add (mc_Now (sv_config s)) (mc_TokenTTL (sv_config s)) in
        (writeJSON 200 (MbLogin (MkLoginResponse 200 (Format_RFC3339 expiry) token)),
         set_tokens (<[token := expiry]> (sv_tokens s)) (sv_nextTokenID s + 1) s)
  | _ => (answer 403 "invalid credentials", s)
  end.

Definition authorized (r : Request) (s : Server) : bool * Server :=
  if sv_unauthorizedOnce s then (false, set_unauthorized false s)
  else if String.eqb (rq_Bearer r) "" then (false, s)
  else (match sv_tokens s !! rq_Bearer r with
        | Some expiry => After expiry (mc_Now (sv_config s))
        | None => false
        end, s).

Definition valid_inbound (a : wireAlert) : bool :=
  negb (String.eqb (wa_Scenario a) "") && negb (String.eqb (wa_ScenarioHash a) "") &&
  negb (String.eqb (wa_ScenarioVersion a) "") && negb (String.eqb (wa_Message a) "") &&
  (wa_EventsCount a =? 1) && negb (String.eqb (wa_StartAt a) "") && negb (String.eqb (wa_StopAt a) "") &&
  (wa_Capacity a =? Z.of_nat (List.length (wa_Decisions a))) && negb (String.eqb (wa_Leakspeed a) "") &&
  (List.length (wa_Events a) =? 1)%nat && negb (String.eqb (ws_Scope (wa_Source a)) "") &&
  negb (String.eqb (ws_Value (wa_Source a)) "").

(** The decisions with their ids and expiries, and the next id; [None] for an
    invalid duration, after the ids up to there were used. *)
Fixpoint create_decisions (now : Time) (next : Z) (ds : list Decision) : option (list Decision) * Z :=
  match ds with
  | [] => (Some [], next)
  | d :: rest =>
      match ParseDuration (dn_Duration d) with
      | Err _ => (None, next + 1)
      | Ok duration =>
          if duration <=? 0 then (None, next + 1)
          else
            let '(ds', next') := create_decisions now (next + 1) rest in
            (match ds' with
             | Some l => Some (MkDecision next (dn_Origin d) (dn_Type d) (dn_Scope d) (dn_Value d) (dn_Duration d)
                                 (Format_RFC3339 (time_Add now duration)) (dn_Scenario d) :: l)
             | None => None
             end, next')
      end
  end.

Definition createAlerts (r : Request) (s : Server) : Response MockBody * Server :=
  match rq_Payload r with
  | AlertsPayload [item] =>
      if negb (valid_inbound item) then (answer 400 "missing required alert fields", s)
      else
        let alertID := sv_nextAlertID s in
        let '(ds, next) := create_decisions (mc_Now (sv_config s)) (sv_nextDecisionID s) (wa_Decisions item) in
        match ds with
        | None => (answer 400 "invalid duration", set_alerts (sv_alerts s) (alertID + 1) next s)
        | Some decisions =>
            (writeJSON 201 (MbIDs [itoa alertID]),
             set_alerts (<[alertID := MkAlert alertID (mc_MachineID (sv_config s)) (wa_Scenario item)
                                        (wa_ScenarioHash item) (wa_ScenarioVersion item) (wa_Message item)
                                        decisions]> (sv_alerts s)) (alertID + 1) next s)
        end
  | _ => (answer 400 "invalid alert batch", s)
  end.

Definition path_id (prefix path : string) : option Z := atoi (default path (cut_prefix prefix path)).

Definition getAlert (r : Request) (s : Server) : Response MockBody :=
  match path_id "/v1/alerts/" (rq_Path r) with
  | Some id => match sv_alerts s !! id with
               | Some a => writeJSON 200 (MbAlert a)
               | None => answer 404 "not found"
               end
  | None => answer 404 "not found"
  end.

Definition query_Get (key : string) (query : list (string * string)) : string :=
  match List.find (fun kv => String.eqb kv.1 key) query with Some kv => kv.2 | None => "" end.

Definition search_limit (raw : string) : Z :=
  match atoi raw with Some n => if (0 <? n) && (n <=? 100) then n else 100 | None => 100 end.

(** The order of the alerts is that of the map, as for Go's [range]. *)
Definition searchAlerts (r : Request) (s : Server) : Response MockBody :=
  let scenario := query_Get "scenario" (rq_Query r) in
  writeJSON 200 (MbAlerts (take (Z.to_nat (search_limit (query_Get "limit" (rq_Query r))))
    (List.filter (fun a => String.eqb scenario "" || String.eqb (al_Scenario a) scenario) (Alerts s)))).

(** The first decision with the id, with its new expiry. *)
Fixpoint expire_in (id : Z) (until : string) (ds : list Decision) : option (list Decision) :=
  match ds with
  | [] => None
  | d :: rest =>
      if dn_ID d =? id
      then Some (MkDecision (dn_ID d) (dn_Origin d) (dn_Type d) (dn_Scope d) (dn_Value d) (dn_Duration d) until
                   (dn_Scenario d) :: rest)
      else match expire_in id until rest with Some ds' => Some (d :: ds') | None => None end
  end.

Fixpoint expire_first (id : Z) (until : string) (alerts : list (Z * Alert)) : option (Z * Alert) :=
  match alerts with
  | [] => None
  | (key, a) :: rest =>
      match expire_in id until (al_Decisions a) with
      | Some ds => Some (key, MkAlert (al_ID a) (al_MachineID a) (al_Scenario a) (al_ScenarioHash a)
                                (al_ScenarioVersion a) (al_Message a) ds)
      | None => expire_first id until rest
      end
  end.

Definition expireDecision (r : Request) (s : Server) : Response MockBody * Server :=
  match path_id "/v1/decisions/" (rq_Path r) with
  | Some id =>
      if id <=? 0 then (answer 404 "not found", s)
      else match expire_first id (Format_RFC3339 (mc_Now (sv_config s))) (map_to_list (sv_alerts s)) with
           | Some (key, a) =>
               (answer 200 "decision expired",
                set_expired ({[id]} ∪ sv_expired s)
                  (set_alerts (<[key := a]> (sv_alerts s)) (sv_nextAlertID s) (sv_nextDecisionID s) s))
           | None => (answer 404 "not found", s)
           end
  | None => (answer 404 "not found", s)
  end.

Definition has_prefix (p s : string) : bool := match cut_prefix p s with Some _ => true | None => false end.

Definition serveHTTP (r : Request) (s : Server) : Response MockBody * Server :=
  let s := mock_count r s in
  match rq_Method r, String.eqb (rq_Path r) "/v1/watchers/login" with
  | MethodPost, true => mock_login r s
  | _, _ =>
      let '(ok, s) := authorized r s in
      if negb ok then (answer 401 "unauthorized", s)
      else match rq_Method r with
           | MethodPost =>
               if String.eqb (rq_Path r) "/v1/alerts" then createAlerts r s else (answer 404 "not found", s)
           | MethodGet =>
               if String.eqb (rq_Path r) "/v1/alerts" then (searchAlerts r s, s)
               else if has_prefix "/v1/alerts/" (rq_Path r) then (getAlert r s, s)
               else (answer 404 "not found", s)
           | MethodDelete =>
               if has_prefix "/v1/decisions/" (rq_Path r) then expireDecision r s
               else (answer 404 "not found", s)
           end
  end.

#[export] Instance mock_transport : Transport Server MockBody := {|
  http_Do r s := let '(response, s') := serveHTTP r s in (Ok response, s');
  clock s := (mc_Now (sv_config s), s) |}.

(** ** The client on the server *)

Definition ex_mock : Server := newServer (MkMockConfig "" "" 0 (Unix 1700000000)).
Definition ex_session_client : Client :=
  MkClient (MkCredentials "crowdshield-test" "mock-password" "http" "/v1/") "crowdshield/1.0" 65536 (5 * Minute).
Definition ex_session (s : Server) : CW (Server * list exchange) := MkCW "" zero_time (s, []).
Definition ex_request : CreateRequest :=
  MkCreateRequest "ranges" "0123456789abcdef0123456789abcdef" (24 * Hour)
    [MkDecisionInput "Ip" "8.8.8.8"; MkDecisionInput "Range" "9.9.0.0/16"].

(** A rejected token: the client logs in again and repeats the request. *)
Lemma authenticated_exchange_witness :
  exists r s' sent,
    authenticated ex_session_client MethodGet "/alerts" [] NoPayload [200] (ex_session (ForceUnauthorizedOnce ex_mock))
      = (Ok r, s') /\
    requests (xlog s') = sent ++ [] /\ List.length sent = 4%nat.
Proof.
  destruct (authenticated ex_session_client MethodGet "/alerts" [] NoPayload [200]
    (ex_session (ForceUnauthorizedOnce ex_mock))) as [r s'] eqn:E.
  destruct (authenticated_exchange ex_session_client MethodGet "/alerts" [] NoPayload [200]
    (ex_session (ForceUnauthorizedOnce ex_mock)) s' r) as (_ & sent & Hs & _ & _).
  - left. reflexivity.
  - exact E.
  - assert (match (authenticated (B := MockBody) ex_session_client MethodGet "/alerts" [] NoPayload [200]
      (ex_session (ForceUnauthorizedOnce ex_mock))) with
      (Ok _, s') => List.length (requests (xlog s')) | _ => 0%nat end = 4%nat) as H by (by vm_compute).
    rewrite E in H. destruct r as [b|e]; [|discriminate].
    exists b, s', sent. split_and!; [reflexivity|exact Hs|]. rewrite Hs, app_nil_r in H. exact H.
Defined.

Lemma ensureToken_fresh_witness :
  exists s', ensureToken (B := MockBody) ex_session_client false (ex_session ex_mock) = (Ok tt, s') /\
    just_fresh ex_session_client s'.
Proof.
  destruct (ensureToken (B := MockBody) ex_session_client false (ex_session ex_mock)) as [r s'] eqn:E.
  assert ((ensureToken (B := MockBody) ex_session_client false (ex_session ex_mock)).1 = Ok tt) as H by (by vm_compute).
  rewrite E in H. cbn in H. subst r. exists s'. split; [reflexivity|].
  apply (ensureToken_fresh (B := MockBody) ex_session_client (ex_session ex_mock) s'); [by left|exact E].
Defined.

Lemma client_answers_witness :
  exists s', CreateAlert (B := MockBody) ex_session_client ex_request (ex_session ex_mock) = (Ok 1, s') /\
    exists t alert, buildWireAlert ex_request t = Ok alert.
Proof.
  destruct (CreateAlert (B := MockBody) ex_session_client ex_request (ex_session ex_mock)) as [r s'] eqn:E.
  assert ((CreateAlert (B := MockBody) ex_session_client ex_request (ex_session ex_mock)).1 = Ok 1) as H
    by (by vm_compute).
  rewrite E in H. cbn in H. subst r. exists s'. split; [reflexivity|].
  destruct (client_answers (B := MockBody) ex_session_client (ex_session ex_mock) s') as [Hc _].
  exact (proj2 (Hc ex_request 1 E)).
Defined.
