(* ===== verification/Reconcile.v ===== *)
(** * The reconciler ([internal/reconcile/reconcile.go])

    One run brings the decisions of the local API in line with the plan: it
    applies the plan, finishes the operations a previous run left open, creates
    the missing decisions, refreshes the old ones, and, when nothing failed,
    removes those no longer desired.

    The store, the client and the token source are interfaces over a world
    [W], as in the code; the report that the methods share is threaded with the
    world, so that it survives an error. *)

From S2P Require Export StateFeeds StateEnforce Lapi.

(** ** Interfaces *)

Class StateStore (W : Type) : Type := {
  s_ListActiveEntries : M W error (list StoredEntry);
  s_ApplyEnforcementPlan : list Object -> Time -> M W error (list EnforcementRecord);
  s_ListEnforcementObjects : M W error (list EnforcementRecord);
  s_ListActiveDecisions : M W error (list DecisionRecord);
  s_ListLiveDecisions : M W error (list DecisionRecord);
  s_MarkDecisionExpired : Z -> Time -> M W error unit;
  s_BeginOperation : Operation -> M W error unit;
  s_OpenOperations : M W error (list Operation);
  s_RecordVerifiedOperation : string -> VerifiedAlert -> Time -> M W error (list DecisionRecord);
  s_CompleteOperation : string -> Time -> M W error unit;
  s_SetOperationStatus : string -> OperationStatus -> string -> Time -> M W error unit }.

Class LapiClient (W : Type) : Type := {
  l_CreateAlert : CreateRequest -> M W error Z;
  l_GetAlert : Z -> M W error Alert;
  l_ExpireDecision : Z -> M W error unit;
  l_FindOperation : string -> string -> M W error (option Alert) }.

Class TokenSource (W : Type) : Type := { t_token : M W error string }.

(** ** Options and reports *)

Record Reconciler : Type := MkReconciler {
  rc_machineID : string; rc_duration : Duration; rc_refreshBefore : Duration; rc_batchSize : Z }.

Record RunOptions : Type := MkRunOptions {
  ro_Allowlists : list Prefix; ro_FeedOrder : gmap Z Z; ro_DryRun : bool; ro_OverrideEntries : bool;
  ro_Entries : list StoredEntry }.

Record Report : Type := MkReport {
  rp_Added : Z; rp_Refreshed : Z; rp_Removed : Z; rp_Recovered : Z; rp_Rejected : Z; rp_Skipped : Z;
  rp_LAPIRequests : Z }.

Definition no_report : Report := MkReport 0 0 0 0 0 0 0.

Definition add_Added_by (n : Z) (r : Report) : Report :=
  MkReport (rp_Added r + n) (rp_Refreshed r) (rp_Removed r) (rp_Recovered r) (rp_Rejected r) (rp_Skipped r) (rp_LAPIRequests r).
Definition add_Refreshed_by (n : Z) (r : Report) : Report :=
  MkReport (rp_Added r) (rp_Refreshed r + n) (rp_Removed r) (rp_Recovered r) (rp_Rejected r) (rp_Skipped r) (rp_LAPIRequests r).
Definition add_Removed (r : Report) : Report :=
  MkReport (rp_Added r) (rp_Refreshed r) (rp_Removed r + 1) (rp_Recovered r) (rp_Rejected r) (rp_Skipped r) (rp_LAPIRequests r).
Definition add_Recovered_by (n : Z) (r : Report) : Report :=
  MkReport (rp_Added r) (rp_Refreshed r) (rp_Removed r) (rp_Recovered r + n) (rp_Rejected r) (rp_Skipped r) (rp_LAPIRequests r).
Definition add_Skipped (r : Report) : Report :=
  MkReport (rp_Added r) (rp_Refreshed r) (rp_Removed r) (rp_Recovered r) (rp_Rejected r) (rp_Skipped r + 1) (rp_LAPIRequests r).
Definition add_request (r : Report) : Report :=
  MkReport (rp_Added r) (rp_Refreshed r) (rp_Removed r) (rp_Recovered r) (rp_Rejected r) (rp_Skipped r) (rp_LAPIRequests r + 1).

(** [New]: the options' guards; the parts that are present or defaulted by the
    code (store, client, clock, token source) are the instances. *)
Definition New (machineID : string) (duration refreshBefore : Duration) (batchSize : Z)
  : result error Reconciler :=
  if String.eqb machineID "" || (128 <? len machineID) || has_control machineID ||
     (duration <? Minute) || (7 * 24 * Hour <? duration) || (refreshBefore <=? 0) ||
     (duration <=? refreshBefore) || (batchSize <? 1) || (500 <? batchSize)
  then Err (reconcileError reconcile.ErrContract None)
  else Ok (MkReconciler machineID duration refreshBefore batchSize).

(** ** The plan *)

(** The order of a feed: the configured one, or the order of appearance. *)
Definition feed_order (order : gmap Z Z) (feed : Z) (st : gmap Z Z * Z) : Z * (gmap Z Z * Z) :=
  match order !! feed with
  | Some n => (n, st)
  | None =>
      match st.1 !! feed with
      | Some n => (n, st)
      | None => (st.2, (<[feed := st.2]> st.1, st.2 + 1))
      end
  end.

Fixpoint build_candidates (order : gmap Z Z) (st : gmap Z Z * Z) (entries : list StoredEntry)
  : list Candidate :=
  match entries with
  | [] => []
  | e :: rest =>
      let '(n, st') := feed_order order (se_FeedID e) st in
      MkCandidate (en_Prefix (se_Entry e)) (en_Kind (se_Entry e)) (se_FeedID e) (se_FeedName e) n
        :: build_candidates order st' rest
  end.

Definition allowlist_ok (p : Prefix) : bool := IsValid p && bool_decide (p = Masked p).

Definition buildObjects (entries : list StoredEntry) (allowlists : list Prefix) (order : gmap Z Z)
  : result error (list Object * Summary) :=
  if negb (forallb allowlist_ok allowlists) then Err (reconcileError reconcile.ErrContract None)
  else Ok (BuildDesired (build_candidates order (∅, 0) entries) allowlists).

Definition expectedNetworkValue (prefix : Prefix) (scope : Scope) : string :=
  match scope with ScopeIP => addr_String (p_addr prefix) | ScopeRange => prefix_String prefix end.

Definition objectValue (r : EnforcementRecord) : string := expectedNetworkValue (er_Prefix r) (er_Scope r).

Definition primaryFeed (r : EnforcementRecord) : option (Z * string) :=
  match er_PrimaryFeedID r with
  | None => None
  | Some id =>
      match List.find (fun s => ct_FeedID s =? id) (er_Sources r) with
      | Some s => Some (ct_FeedID s, ct_FeedName s)
      | None => None
      end
  end.

Fixpoint active_by_object (seen : gmap Z DecisionRecord) (ds : list DecisionRecord)
  : result error (gmap Z DecisionRecord) :=
  match ds with
  | [] => Ok seen
  | d :: rest =>
      match seen !! dr_ObjectID d with
      | Some _ => Err (reconcileError reconcile.ErrState None)
      | None => active_by_object (<[dr_ObjectID d := d]> seen) rest
      end
  end.

Definition activeByObject (ds : list DecisionRecord) : result error (gmap Z DecisionRecord) :=
  active_by_object ∅ ds.

(** The decision differs from what the object needs now. *)
Definition needs_refresh (rc : Reconciler) (now : Time) (d : DecisionRecord) (scope : Scope)
    (value feedName : string) : bool :=
  (time_Sub (dr_ExpiresAt d) now <=? rc_refreshBefore rc) || negb (bool_decide (dr_Scope d = scope)) ||
  negb (String.eqb (dr_Value d) value) || negb (String.eqb (dr_Scenario d) ("crowdshield/" +:+ feedName)).

(** ** Operations *)

Record plannedAction : Type := MkAction { pa_object : EnforcementRecord; pa_old : option DecisionRecord }.

Definition kind_text (k : OperationKind) : string :=
  match k with
  | OperationCreate => "create" | OperationRefresh => "refresh"
  | OperationExpire => "expire" | OperationRecover => "recover"
  end.

(** [binary.Write(_, binary.BigEndian, int64(z))]: eight bytes. *)
Fixpoint be_bytes (n : nat) (z : Z) : string :=
  match n with
  | O => ""
  | S m => String (chr (z / 256 ^ Z.of_nat m mod 256)) (be_bytes m z)
  end.
Definition be64 (z : Z) : string := be_bytes 8 (z mod 2 ^ 64).

Definition action_text (a : plannedAction) : string :=
  be64 (er_ID (pa_object a)) +:+ scope_text (er_Scope (pa_object a)) +:+
  String "000" (objectValue (pa_object a)) +:+
  match pa_old a with Some d => be64 (dr_ID d) | None => "" end.

Definition operation_text (kind : OperationKind) (feedID : Z) (duration : Duration) (actions : list plannedAction)
  : string :=
  kind_text kind +:+ be64 feedID +:+ be64 (Z.quot duration Second) +:+
  foldr (fun a s => action_text a +:+ s) "" actions.

Definition operationHash (kind : OperationKind) (feedID : Z) (duration : Duration)
    (actions : list plannedAction) : string :=
  sha256_hex (operation_text kind feedID duration actions).

(** ** Remote alerts *)

Definition ownership (cause : option error) : error := reconcileError reconcile.ErrOwnership cause.

Definition decisionExpiry (d : Decision) (now : Time) (maxDuration : Duration) : result error Time :=
  if negb (String.eqb (dn_Until d) "") then Parse_RFC3339 (dn_Until d)
  else if String.eqb (dn_Duration d) "" then Err (ownership None)
  else match ParseDuration (dn_Duration d) with
       | Err e => Err e
       | Ok remaining =>
           if (remaining <? 0) || (maxDuration <? remaining) then Err (ownership None)
           else Ok (time_Add now remaining)
       end.

(** The keys of the decisions an operation expects, with their objects. *)
Fixpoint expected_decisions (records : gmap Z EnforcementRecord) (expected : gmap string Z)
    (items : list OperationItem) : result error (gmap string Z) :=
  match items with
  | [] => Ok expected
  | item :: rest =>
      match records !! oi_ObjectID item with
      | None => Err (reconcileError reconcile.ErrState None)
      | Some r =>
          expected_decisions records
            (<[decision_key (scope_text (er_Scope r)) (objectValue r) := er_ID r]> expected) rest
      end
  end.

Fixpoint verify_decisions (scenario : string) (now : Time) (maxDuration : Duration)
    (expected : gmap string Z) (seen : gset Z) (ds : list Decision) : result error (list VerifiedDecision) :=
  match ds with
  | [] => Ok []
  | d :: rest =>
      match expected !! decision_key (dn_Scope d) (dn_Value d) with
      | None => Err (ownership None)
      | Some objectID =>
          if (dn_ID d <=? 0) || negb (String.eqb (dn_Origin d) "crowdshield") ||
             negb (String.eqb (dn_Type d) "ban") || negb (String.eqb (dn_Scenario d) scenario)
          then Err (ownership None)
          else if bool_decide (objectID ∈ seen) then Err (ownership None)
          else
            match decisionExpiry d now maxDuration with
            | Err e => Err (ownership (Some e))
            | Ok expires =>
                if negb (After expires now) then Err (ownership None)
                else
                  let? vs := verify_decisions scenario now maxDuration expected ({[objectID]} ∪ seen) rest in
                  Ok (MkVerifiedDecision objectID (dn_ID d) (dn_Origin d) (dn_Scenario d) (dn_Scope d)
                        (dn_Value d) expires :: vs)
            end
      end
  end.

Definition alert_of_operation (rc : Reconciler) (op : Operation) (remote : Alert) : bool :=
  (0 <? al_ID remote) && String.eqb (al_MachineID remote) (rc_machineID rc) &&
  String.eqb (al_Scenario remote) ("crowdshield/" +:+ op_FeedName op) &&
  String.eqb (al_ScenarioHash remote) ("crowdshield:" +:+ op_Token op) &&
  (List.length (al_Decisions remote) =? List.length (op_Items op))%nat.

Definition verifiedAlert (rc : Reconciler) (op : Operation) (remote : Alert)
    (records : gmap Z EnforcementRecord) (now : Time) : result error VerifiedAlert :=
  if negb (alert_of_operation rc op remote) then Err (ownership None)
  else
    let? expected := expected_decisions records ∅ (op_Items op) in
    let? vs := verify_decisions (al_Scenario remote) now (rc_duration rc) expected ∅ (al_Decisions remote) in
    Ok (MkVerifiedAlert (al_ID remote) (al_MachineID remote) "crowdshield" (al_Scenario remote) vs).

(** The decision of an alert with an id; a second one is an error. *)
Fixpoint match_decision (id : Z) (matched : option Decision) (ds : list Decision)
  : result error (option Decision) :=
  match ds with
  | [] => Ok matched
  | d :: rest =>
      if negb (dn_ID d =? id) then match_decision id matched rest
      else match matched with
           | Some _ => Err (ownership None)
           | None => match_decision id (Some d) rest
           end
  end.

(** The remote decision that is ours to expire. *)
Definition owned_decision (rc : Reconciler) (d : DecisionRecord) (remote : Alert) : result error Decision :=
  if negb (al_ID remote =? dr_AlertID d) || negb (String.eqb (al_MachineID remote) (rc_machineID rc)) ||
     negb (String.eqb (al_Scenario remote) (dr_Scenario d)) then Err (ownership None)
  else
    let? matched := match_decision (dr_DecisionID d) None (al_Decisions remote) in
    match matched with
    | None => Err (ownership None)
    | Some m =>
        if negb (String.eqb (dn_Origin m) "crowdshield") || negb (String.eqb (dn_Type m) "ban") ||
           negb (String.eqb (dn_Scenario m) (dr_Scenario d)) ||
           negb (String.eqb (dn_Scope m) (scope_text (dr_Scope d))) ||
           negb (String.eqb (dn_Value m) (dr_Value d)) then Err (ownership None)
        else Ok m
    end.

(** ** The run *)

Record groupKey : Type := MkGroupKey { gk_kind : OperationKind; gk_feedID : Z; gk_feedName : string }.

#[export] Instance groupKey_eq_dec : EqDecision groupKey.
Proof. solve_decision. Defined.
Definition kind_rank (k : OperationKind) : Z :=
  match k with OperationCreate => 0 | OperationRefresh => 1 | OperationExpire => 2 | OperationRecover => 3 end.
Definition rank_kind (z : Z) : OperationKind :=
  if z =? 0 then OperationCreate else if z =? 1 then OperationRefresh
  else if z =? 2 then OperationExpire else OperationRecover.
#[export] Instance groupKey_countable : Countable groupKey.
Proof.
  apply (inj_countable' (fun k => (kind_rank (gk_kind k), gk_feedID k, gk_feedName k))
    (fun t => MkGroupKey (rank_kind t.1.1) t.1.2 t.2)).
  by intros [[] f n].
Defined.

(** The order of the groups; feeds with the same name are the same feed. *)
Definition compare_group (a b : groupKey) : Z :=
  cmp_then (cmp_string (gk_feedName a) (gk_feedName b))
    (cmp_string (kind_text (gk_kind a)) (kind_text (gk_kind b))).

Definition groups : Type := gmap groupKey (list plannedAction).

Definition add_action (key : groupKey) (a : plannedAction) (g : groups) : groups :=
  <[key := default [] (g !! key) ++ [a]]> g.

(** [for start := 0; start < len(actions); start += size]: the slices; each is
    shorter by [size >= 1], so the length is fuel enough ([batches_concat]). *)
Fixpoint batches_fuel {A} (fuel : nat) (size : nat) (xs : list A) : list (list A) :=
  match fuel, xs with
  | S n, _ :: _ => take size xs :: batches_fuel n size (drop size xs)
  | _, _ => []
  end.
Definition batches {A} (size : Z) (xs : list A) : list (list A) :=
  batches_fuel (List.length xs) (Z.to_nat size) xs.

(** [if firstError == nil { firstError = err }] *)
Definition first_error (first : option error) (e : error) : option error :=
  match first with Some _ => first | None => Some e end.

Section Run.
Context {W : Type} `{!StateStore W} `{!LapiClient W} `{!TokenSource W}.
Context (rc : Reconciler).

(** The world and the report of the run. *)
Record RW : Type := MkRW { rw_world : W; rw_report : Report }.
Definition R (A : Type) : Type := M RW error A.

Definition call {A} (m : M W error A) : R A :=
  fun s => let '(r, w) := m (rw_world s) in (r, MkRW w (rw_report s)).
Definition count (f : Report -> Report) : R unit := fun s => (Ok tt, MkRW (rw_world s) (f (rw_report s))).

(** [if err != nil { return reconcileError(c, err) }] *)
Definition failing {A} (c : reconcile.ErrorCategory) (m : R A) : R A :=
  let~ r := m in
  match r with Ok a => mok a | Err e => mfail (reconcileError c (Some e)) end.

(** A call that may only be checked: [_ = call()]. *)
Definition ignoring {A} (m : R A) : R unit := let~ _ := m in mok tt.

Definition lift_r {A} (r : result error A) : R A := match r with Ok a => mok a | Err e => mfail e end.

Definition mark_expired_decision (d : DecisionRecord) (now : Time) : R unit :=
  failing reconcile.ErrState (call (s_MarkDecisionExpired (dr_ID d) now)).

Definition expireOwned (d : DecisionRecord) (now : Time) : R unit :=
  let~ r := call (l_GetAlert (dr_AlertID d)) in
  let! _ := count add_request in
  match r with
  | Err e =>
      if lapi_IsCategory e lapi.ErrNotFound then mark_expired_decision d now
      else mfail (reconcileError reconcile.ErrLAPI (Some e))
  | Ok remote =>
      let! matched := lift_r (owned_decision rc d remote) in
      match decisionExpiry matched now (rc_duration rc) with
      | Err e => mfail (ownership (Some e))
      | Ok expiry =>
          if negb (After expiry now) then mark_expired_decision d now
          else
            let~ r := call (l_ExpireDecision (dr_DecisionID d)) in
            let! _ := count add_request in
            match r with
            | Err e =>
                if negb (lapi_IsCategory e lapi.ErrNotFound) then mfail (reconcileError reconcile.ErrLAPI (Some e))
                else mark_expired_decision d now
            | Ok _ => mark_expired_decision d now
            end
      end
  end.

Definition finish_item (now : Time) (item : OperationItem) : R unit :=
  match oi_OldDecisionRowID item with
  | None => mok tt
  | Some row =>
      let! decisions := failing reconcile.ErrState (call s_ListLiveDecisions) in
      match List.find (fun d => dr_ID d =? row) decisions with
      | Some old => expireOwned old now
      | None => mok tt
      end
  end.

Definition finishVerified (op : Operation) (now : Time) : R unit :=
  let! _ := mfor (finish_item now) (op_Items op) in
  failing reconcile.ErrState (call (s_CompleteOperation (op_Token op) now)).

(** The decisions of the request; [None] when an object is not desired. *)
Fixpoint operation_inputs (records : gmap Z EnforcementRecord) (items : list OperationItem)
  : option (list DecisionInput) :=
  match items with
  | [] => Some []
  | item :: rest =>
      match records !! oi_ObjectID item with
      | None => None
      | Some r =>
          if negb (er_Desired r) then None
          else match operation_inputs records rest with
               | None => None
               | Some inputs => Some (MkDecisionInput (scope_text (er_Scope r)) (objectValue r) :: inputs)
               end
      end
  end.

Definition ambiguous (op : Operation) (category : string) (now : Time) : R unit :=
  ignoring (call (s_SetOperationStatus (op_Token op) OperationAmbiguous category now)).

Definition createForOperation (op : Operation) (records : gmap Z EnforcementRecord) (now : Time) : R unit :=
  match operation_inputs records (op_Items op) with
  | None =>
      failing reconcile.ErrState
        (call (s_SetOperationStatus (op_Token op) OperationFailed "no_longer_desired" now))
  | Some decisions =>
      let~ r := call (l_CreateAlert (MkCreateRequest (op_FeedName op) (op_Token op) (op_Duration op) decisions)) in
      let! _ := count add_request in
      match r with
      | Err e =>
          let! _ := ambiguous op "lapi_create" now in
          mfail (reconcileError reconcile.ErrLAPI (Some e))
      | Ok alertID =>
          let~ r := call (l_GetAlert alertID) in
          let! _ := count add_request in
          match r with
          | Err e =>
              let! _ := ambiguous op "lapi_verify" now in
              mfail (reconcileError reconcile.ErrLAPI (Some e))
          | Ok remote =>
              match verifiedAlert rc op remote records now with
              | Err e => let! _ := ambiguous op "ownership" now in mfail e
              | Ok verified =>
                  let! _ := failing reconcile.ErrState (call (s_RecordVerifiedOperation (op_Token op) verified now)) in
                  finishVerified op now
              end
          end
      end
  end.

Definition item_count (op : Operation) : Z := Z.of_nat (List.length (op_Items op)).

Definition recover_operation (records : gmap Z EnforcementRecord) (now : Time) (op : Operation) : R unit :=
  if bool_decide (op_Status op = OperationVerified) then
    let! _ := finishVerified op now in count (add_Recovered_by (item_count op))
  else
    let~ r := call (l_FindOperation (op_FeedName op) (op_Token op)) in
    let! _ := count add_request in
    match r with
    | Err e => mfail (reconcileError reconcile.ErrLAPI (Some e))
    | Ok (Some remote) =>
        let! verified := lift_r (verifiedAlert rc op remote records now) in
        let! _ := failing reconcile.ErrState (call (s_RecordVerifiedOperation (op_Token op) verified now)) in
        let! _ := finishVerified op now in
        count (add_Recovered_by (item_count op))
    | Ok None =>
        let! _ := createForOperation op records now in
        count (add_Recovered_by (item_count op))
    end.

Definition recover (records : gmap Z EnforcementRecord) (now : Time) : R unit :=
  let! operations := failing reconcile.ErrState (call s_OpenOperations) in
  mfor (recover_operation records now) operations.

Definition action_item (a : plannedAction) : OperationItem :=
  MkOperationItem (er_ID (pa_object a)) (dr_ID <$> pa_old a).

Definition newOperation (key : groupKey) (actions : list plannedAction) (now : Time) : R Operation :=
  let~ r := call t_token in
  match r with
  | Err e => mfail (reconcileError reconcile.ErrToken (Some e))
  | Ok token =>
      (* the code leaves the status of the new operation empty: it is first
         read back from the journal, where [BeginOperation] writes pending *)
      if negb (len token =? 32) then mfail (reconcileError reconcile.ErrToken None)
      else mok (MkOperation token (gk_kind key) (gk_feedID key) (gk_feedName key) (rc_duration rc)
                  (operationHash (gk_kind key) (gk_feedID key) (rc_duration rc) actions) OperationPending
                  (map action_item actions) now None)
  end.

(** *** Classification of the records *)

Record plan_state : Type := MkPlan { pl_groups : groups; pl_removals : list DecisionRecord }.

Definition plan_desired (now : Time) (st : plan_state) (record : EnforcementRecord)
    (feed : Z * string) (decision : option DecisionRecord) : R plan_state :=
  match decision with
  | None =>
      mok (MkPlan (add_action (MkGroupKey OperationCreate feed.1 feed.2) (MkAction record None) (pl_groups st))
             (pl_removals st))
  | Some d =>
      if needs_refresh rc now d (er_Scope record) (objectValue record) feed.2
      then mok (MkPlan (add_action (MkGroupKey OperationRefresh feed.1 feed.2) (MkAction record (Some d))
                          (pl_groups st)) (pl_removals st))
      else let! _ := count add_Skipped in mok st
  end.

Definition plan_record (now : Time) (active : gmap Z DecisionRecord) (st : plan_state)
    (record : EnforcementRecord) : R plan_state :=
  let decision := active !! er_ID record in
  if negb (er_Desired record) then
    mok (match decision with
         | Some d => MkPlan (pl_groups st) (pl_removals st ++ [d])
         | None => st
         end)
  else
    match primaryFeed record with
    | None => mfail (reconcileError reconcile.ErrState None)
    | Some feed =>
        let! decision :=
          match decision with
          | Some d =>
              if negb (After (dr_ExpiresAt d) now) then let! _ := mark_expired_decision d now in mok None
              else mok (Some d)
          | None => mok None
          end in
        plan_desired now st record feed decision
    end.

(** *** Executing the plan *)

Definition count_batch (key : groupKey) (n : Z) : Report -> Report :=
  if bool_decide (gk_kind key = OperationCreate) then add_Added_by n else add_Refreshed_by n.

Definition run_batch (records : gmap Z EnforcementRecord) (now : Time) (key : groupKey)
    (first : option error) (batch : list plannedAction) : R (option error) :=
  let~ r := newOperation key batch now in
  match r with
  | Err e => mok (first_error first e)
  | Ok op =>
      let~ r := call (s_BeginOperation op) in
      match r with
      | Err e => mok (first_error first (reconcileError reconcile.ErrState (Some e)))
      | Ok _ =>
          let~ r := createForOperation op records now in
          match r with
          | Err e => mok (first_error first e)
          | Ok _ =>
              let! _ := count (count_batch key (Z.of_nat (List.length batch))) in
              mok first
          end
      end
  end.

Definition run_group (records : gmap Z EnforcementRecord) (now : Time) (first : option error)
    (group : groupKey * list plannedAction) : R (option error) :=
  mfold (run_batch records now group.1) first (batches (rc_batchSize rc) group.2).

Definition run_removal (now : Time) (first : option error) (d : DecisionRecord) : R (option error) :=
  let~ r := expireOwned d now in
  match r with
  | Err e => mok (first_error first e)
  | Ok _ => let! _ := count add_Removed in mok first
  end.

Definition sorted_groups (g : groups) : list (groupKey * list plannedAction) :=
  sort_func (fun a b => compare_group a.1 b.1) (map_to_list g).

Definition run_plan (records : gmap Z EnforcementRecord) (now : Time) (plan : plan_state) : R unit :=
  let! first := mfold (run_group records now) None (sorted_groups (pl_groups plan)) in
  let! first := match first with
                | None => mfold (run_removal now) None (pl_removals plan)
                | Some _ => mok first
                end in
  match first with Some e => mfail e | None => mok tt end.

Definition records_by_id (records : list EnforcementRecord) : gmap Z EnforcementRecord :=
  fold_left (fun m r => <[er_ID r := r]> m) records ∅.

Definition enforce (objects : list Object) (now : Time) : R unit :=
  let! records := failing reconcile.ErrState (call (s_ApplyEnforcementPlan objects now)) in
  let recordByID := records_by_id records in
  let! _ := mfor (fun r => if negb (er_Desired r) then count add_Skipped else mok tt) records in
  let! _ := recover recordByID now in
  let! activeList := failing reconcile.ErrState (call s_ListActiveDecisions) in
  let! active := lift_r (activeByObject activeList) in
  let! plan := mfold (plan_record now active) (MkPlan ∅ []) records in
  run_plan recordByID now plan.

(** *** Dry runs *)

Record dry_state : Type := MkDry { ds_desired : gset Z; ds_report : Report }.

Definition dry_object (now : Time) (existing : gmap Prefix EnforcementRecord) (active : gmap Z DecisionRecord)
    (st : dry_state) (o : Object) : dry_state :=
  let bump f := MkDry (ds_desired st) (f (ds_report st)) in
  if negb (ob_Desired o) then bump add_Skipped
  else match existing !! ob_Prefix o with
       | None => bump (add_Added_by 1)
       | Some record =>
           let desired := {[er_ID record]} ∪ ds_desired st in
           let feedName := ct_FeedName (ob_Primary o) in
           let f :=
             match active !! er_ID record with
             | None => add_Added_by 1
             | Some d =>
                 if String.eqb feedName "" ||
                    needs_refresh rc now d (ob_Scope o) (expectedNetworkValue (ob_Prefix o) (ob_Scope o)) feedName
                 then add_Refreshed_by 1 else add_Skipped
             end in
           MkDry desired (f (ds_report st))
       end.

Definition removed_count (active : gmap Z DecisionRecord) (desired : gset Z) : Z :=
  count_rows (fun id _ => negb (bool_decide (id ∈ desired))) active.

Definition add_Removed_by (n : Z) (r : Report) : Report :=
  MkReport (rp_Added r) (rp_Refreshed r) (rp_Removed r + n) (rp_Recovered r) (rp_Rejected r) (rp_Skipped r) (rp_LAPIRequests r).

Definition records_by_prefix (records : list EnforcementRecord) : gmap Prefix EnforcementRecord :=
  fold_left (fun m r => <[er_Prefix r := r]> m) records ∅.

Definition dry_report (objects : list Object) (existing : list EnforcementRecord)
    (active : gmap Z DecisionRecord) (now : Time) (report : Report) : Report :=
  let st := fold_left (dry_object now (records_by_prefix existing) active) objects (MkDry ∅ report) in
  add_Removed_by (removed_count active (ds_desired st)) (ds_report st).

Definition dryRun (objects : list Object) (now : Time) : R unit :=
  let! existing := failing reconcile.ErrState (call s_ListEnforcementObjects) in
  let! decisions := failing reconcile.ErrState (call s_ListActiveDecisions) in
  let! active := lift_r (activeByObject decisions) in
  count (dry_report objects existing active now).

(** *** [Run] *)

Definition run_body (options : RunOptions) (now : Time) : R unit :=
  let! _ := lift_r (if time_IsZero now then Err (reconcileError reconcile.ErrContract None) else Ok tt) in
  let! _ := lift_r (if ro_OverrideEntries options && negb (ro_DryRun options)
                    then Err (reconcileError reconcile.ErrContract None) else Ok tt) in
  let! entries := if negb (ro_OverrideEntries options)
                  then failing reconcile.ErrState (call s_ListActiveEntries)
                  else mok (ro_Entries options) in
  let! plan := lift_r (buildObjects entries (ro_Allowlists options) (ro_FeedOrder options)) in
  let! _ := count (fun _ => MkReport 0 0 0 0 (sm_RejectedSafety plan.2) 0 0) in
  if ro_DryRun options then dryRun plan.1 now else enforce plan.1 now.

(** The report and the error of a run that starts while none is running; the
    flag is set for the time of the run. *)
Definition Run (options : RunOptions) (now : Time) (running : bool) (w : W)
  : (Report * option error) * W :=
  if running then ((no_report, Some (reconcileError reconcile.ErrBusy None)), w)
  else
    let '(r, s) := run_body options now (MkRW w no_report) in
    ((rw_report s, match r with Ok _ => None | Err e => Some e end), rw_world s).
End Run.

Arguments MkRW {W}.
Arguments rw_world {W}.
Arguments rw_report {W}.

(** ** The batches of a group *)

Lemma batches_fuel_spec {A} (size : nat) (fuel : nat) (xs : list A) :
  (0 < size)%nat -> (List.length xs <= fuel)%nat ->
  concat (batches_fuel fuel size xs) = xs /\
  List.Forall (fun b => (1 <= List.length b <= size)%nat) (batches_fuel fuel size xs).
Proof.
  intros Hs. revert xs. induction fuel as [|n IH]; intros xs Hn; [by destruct xs; [|cbn in Hn; lia]|].
  destruct xs as [|x xs]; [done|]. cbn [batches_fuel concat].
  destruct (IH (drop size (x :: xs))) as [H1 H2]; [rewrite length_drop; cbn in *; lia|].
  rewrite H1, take_drop. split; [done|]. constructor; [|done]. rewrite length_take. cbn. lia.
Qed.

(** The batches are the group cut into pieces of at least one and at most
    [size] actions. *)
Lemma batches_concat {A} (size : Z) (xs : list A) : 1 <= size ->
  concat (batches size xs) = xs /\
  List.Forall (fun b => 1 <= Z.of_nat (List.length b) <= size) (batches size xs).
Proof.
  intros Hs. destruct (batches_fuel_spec (Z.to_nat size) (List.length xs) xs) as [H1 H2]; [lia|done|].
  split; [exact H1|]. eapply List.Forall_impl; [|exact H2]. cbn. intros b. lia.
Qed.
