(* ===== verification/ReconcileProtocol.v ===== *)
(** * The protocol of a reconciliation

    The calls of a run over any store, any client and any token source,
    recorded in a log, and what must precede each of them: a decision is
    expired only right after its ownership was checked, an alert is created
    only for an operation in the journal, an operation is completed only after
    it was verified, and removals happen only when nothing failed. *)

From S2P Require Export Reconcile.

(** ** Logged worlds *)

Inductive event : Type :=
| EvEntries (r : result error (list StoredEntry))
| EvPlan (objects : list Object) (now : Time) (r : result error (list EnforcementRecord))
| EvObjects (r : result error (list EnforcementRecord))
| EvActive (r : result error (list DecisionRecord))
| EvLive (r : result error (list DecisionRecord))
| EvMark (row : Z) (now : Time) (r : result error unit)
| EvBegin (op : Operation) (r : result error unit)
| EvOpen (r : result error (list Operation))
| EvRecord (token : string) (alert : VerifiedAlert) (now : Time) (r : result error (list DecisionRecord))
| EvComplete (token : string) (now : Time) (r : result error unit)
| EvStatus (token : string) (status : OperationStatus) (category : string) (now : Time) (r : result error unit)
| EvCreate (request : CreateRequest) (r : result error Z)
| EvGet (id : Z) (r : result error Alert)
| EvExpire (id : Z) (r : result error unit)
| EvFind (feedName token : string) (r : result error (option Alert))
| EvToken (r : result error string).

(** A world with the log of the calls, the last one first. *)
Definition LW (W : Type) : Type := W * list event.

Definition logged {W A} (ev : result error A -> event) (m : M W error A) : M (LW W) error A :=
  fun wl => let '(r, w') := m wl.1 in (r, (w', ev r :: wl.2)).

#[export] Instance logged_store {W} `{!StateStore W} : StateStore (LW W) := {|
  s_ListActiveEntries := logged EvEntries s_ListActiveEntries;
  s_ApplyEnforcementPlan objects now := logged (EvPlan objects now) (s_ApplyEnforcementPlan objects now);
  s_ListEnforcementObjects := logged EvObjects s_ListEnforcementObjects;
  s_ListActiveDecisions := logged EvActive s_ListActiveDecisions;
  s_ListLiveDecisions := logged EvLive s_ListLiveDecisions;
  s_MarkDecisionExpired row now := logged (EvMark row now) (s_MarkDecisionExpired row now);
  s_BeginOperation op := logged (EvBegin op) (s_BeginOperation op);
  s_OpenOperations := logged EvOpen s_OpenOperations;
  s_RecordVerifiedOperation token alert now :=
    logged (EvRecord token alert now) (s_RecordVerifiedOperation token alert now);
  s_CompleteOperation token now := logged (EvComplete token now) (s_CompleteOperation token now);
  s_SetOperationStatus token status category now :=
    logged (EvStatus token status category now) (s_SetOperationStatus token status category now) |}.

#[export] Instance logged_lapi {W} `{!LapiClient W} : LapiClient (LW W) := {|
  l_CreateAlert request := logged (EvCreate request) (l_CreateAlert request);
  l_GetAlert id := logged (EvGet id) (l_GetAlert id);
  l_ExpireDecision id := logged (EvExpire id) (l_ExpireDecision id);
  l_FindOperation feedName token := logged (EvFind feedName token) (l_FindOperation feedName token) |}.

#[export] Instance logged_token {W} `{!TokenSource W} : TokenSource (LW W) := {|
  t_token := logged EvToken t_token |}.

(** ** What may follow a log *)

Section Protocol.
Context (rc : Reconciler) (now : Time).

(** The operation is in the journal: begun in this run, or found open. *)
Definition journaled (op : Operation) (log : list event) : Prop :=
  In (EvBegin op (Ok tt)) log \/ exists ops, In (EvOpen (Ok ops)) log /\ In op ops.

(** Its alert was verified: recorded in this run, or found verified. *)
Definition verified (op : Operation) (log : list event) : Prop :=
  (exists alert records, In (EvRecord (op_Token op) alert now (Ok records)) log) \/
  exists ops, In (EvOpen (Ok ops)) log /\ In op ops /\ op_Status op = OperationVerified.

(** The decision is replaced by a verified operation. *)
Definition replaced (d : DecisionRecord) (log : list event) : Prop :=
  exists op item ds, journaled op log /\ verified op log /\ In item (op_Items op) /\
    oi_OldDecisionRowID item = Some (dr_ID d) /\ In (EvLive (Ok ds)) log /\ In d ds.

(** A call that did what it was made for; an alert or a decision that is already
    unknown to the server counts, an operation left ambiguous does not. *)
Definition call_succeeded (e : event) : Prop :=
  match e with
  | EvEntries (Err _) | EvPlan _ _ (Err _) | EvObjects (Err _) | EvActive (Err _) | EvLive (Err _) | EvMark _ _ (Err _)
  | EvBegin _ (Err _) | EvOpen (Err _) | EvRecord _ _ _ (Err _) | EvComplete _ _ (Err _) | EvStatus _ _ _ _ (Err _)
  | EvCreate _ (Err _) | EvFind _ _ (Err _) | EvToken (Err _) => False
  | EvStatus _ OperationAmbiguous _ _ _ => False
  | EvGet _ (Err e) | EvExpire _ (Err e) => lapi_IsCategory e lapi.ErrNotFound = true
  | _ => True
  end.

(** What follows a call right away when its answer was accepted: an alert that
    was read is recorded, or its decision is expired or marked; a decision that
    was expired is marked; a token begins an operation. *)
Definition awaits_next (e : event) : bool :=
  match e with EvGet _ _ | EvExpire _ _ | EvToken _ => true | _ => false end.
Definition carries_on (before e : event) : Prop :=
  match before with
  | EvGet _ (Ok _) => match e with EvRecord _ _ _ _ | EvExpire _ _ | EvMark _ _ _ => True | _ => False end
  | EvGet _ (Err _) | EvExpire _ _ => match e with EvMark _ _ _ => True | _ => False end
  | EvToken _ => match e with EvBegin _ _ => True | _ => False end
  | _ => True
  end.
Fixpoint carried (log : list event) : Prop :=
  match log with
  | [] => True
  | e :: rest => match rest with [] => True | before :: _ => carries_on before e end /\ carried rest
  end.
Definition closed (log : list event) : Prop := match log with [] => True | e :: _ => awaits_next e = false end.

(** An operation came to its end: it is completed, or given up because one of its
    objects is no longer desired. *)
Definition finished (op : Operation) (log : list event) : Prop :=
  In (EvComplete (op_Token op) now (Ok tt)) log \/
  In (EvStatus (op_Token op) OperationFailed "no_longer_desired" now (Ok tt)) log.

(** Nothing has failed: every call succeeded, no answer was refused, and every
    operation that was begun or found open came to its end. *)
Record undisturbed (log : list event) : Prop := {
  st_succeeded : List.Forall call_succeeded log;
  st_carried : carried log;
  st_closed : closed log;
  st_finished : forall op, journaled op log -> finished op log }.

(** The decision is active for an object of the plan that is not desired. *)
Definition undesired (d : DecisionRecord) (log : list event) : Prop :=
  (exists ds, In (EvActive (Ok ds)) log /\ In d ds) /\
  exists objects records r, In (EvPlan objects now (Ok records)) log /\ In r records /\
    er_ID r = dr_ObjectID d /\ er_Desired r = false.

(** A call for a decision. *)
Definition touches (d : DecisionRecord) (e : event) : Prop :=
  match e with
  | EvGet id _ => id = dr_AlertID d
  | EvExpire id _ => id = dr_DecisionID d
  | EvMark row _ _ => row = dr_ID d
  | _ => False
  end.

(** Only removals of undesired decisions came after a log in which nothing has
    failed. *)
Definition removing (d : DecisionRecord) (log : list event) : Prop :=
  exists removals base, log = removals ++ base /\ undisturbed base /\ undesired d base /\
    List.Forall (fun e => exists d', undesired d' base /\ touches d' e) removals.

(** A decision that may be expired. *)
Definition expirable (d : DecisionRecord) (log : list event) : Prop := replaced d log \/ removing d log.

(** The last call read the alert of the decision and showed that it is ours. *)
Definition owned (d : DecisionRecord) (log : list event) : Prop :=
  exists remote m expiry rest, log = EvGet (dr_AlertID d) (Ok remote) :: rest /\
    owned_decision rc d remote = Ok m /\ decisionExpiry m now (rc_duration rc) = Ok expiry /\
    After expiry now = true /\ expirable d rest.

(** The decision is gone: its alert is unknown, or its remote decision has
    expired, or it has just been expired, or it expired by the local record. *)
Definition gone (row : Z) (log : list event) : Prop :=
  exists d, dr_ID d = row /\
    ((exists e rest, log = EvGet (dr_AlertID d) (Err e) :: rest /\ lapi_IsCategory e lapi.ErrNotFound = true) \/
     (exists remote m expiry rest, log = EvGet (dr_AlertID d) (Ok remote) :: rest /\
        owned_decision rc d remote = Ok m /\ decisionExpiry m now (rc_duration rc) = Ok expiry /\
        After expiry now = false) \/
     (exists r rest, log = EvExpire (dr_DecisionID d) r :: rest /\ owned d rest /\
        match r with Ok _ => True | Err e => lapi_IsCategory e lapi.ErrNotFound = true end) \/
     (exists ds, In (EvActive (Ok ds)) log /\ In d ds /\ After (dr_ExpiresAt d) now = false)).

(** The alert that is recorded was read in the call before, and carries
    exactly the decisions of the operation. *)
Definition read_alert (token : string) (alert : VerifiedAlert) (log : list event) : Prop :=
  exists op remote records rest, op_Token op = token /\ journaled op log /\
    verifiedAlert rc op remote records now = Ok alert /\
    ((exists id, log = EvGet id (Ok remote) :: EvCreate (MkCreateRequest (op_FeedName op) token (op_Duration op)
        (default [] (operation_inputs records (op_Items op)))) (Ok id) :: rest) \/
     log = EvFind (op_FeedName op) token (Ok (Some remote)) :: rest).

(** What is asked for an item: the decision of its object, a record of the plan
    that is desired. *)
Definition desired_input (records : list EnforcementRecord) (item : OperationItem) (input : DecisionInput) : Prop :=
  exists record, In record records /\ er_ID record = oi_ObjectID item /\ er_Desired record = true /\
    input = MkDecisionInput (scope_text (er_Scope record)) (objectValue record).

Definition allowed (log : list event) (e : event) : Prop :=
  match e with
  | EvExpire id _ => exists d, dr_DecisionID d = id /\ owned d log
  | EvMark row t _ => t = now /\ gone row log
  | EvCreate request _ => exists op objects records, journaled op log /\ In (EvPlan objects now (Ok records)) log /\
      Forall2 (desired_input records) (op_Items op) (cr_Decisions request) /\
      request = MkCreateRequest (op_FeedName op) (op_Token op) (op_Duration op) (cr_Decisions request)
  | EvRecord token alert t _ => t = now /\ read_alert token alert log
  | EvComplete token t _ => t = now /\ exists op, op_Token op = token /\ journaled op log /\ verified op log
  | EvStatus token _ _ t _ => t = now /\ exists op, op_Token op = token /\ journaled op log
  | _ => True
  end.

Fixpoint valid (log : list event) : Prop :=
  match log with [] => True | e :: rest => allowed rest e /\ valid rest end.

(** ** Facts on logs *)

Lemma journaled_mono op log delta : journaled op log -> journaled op (delta ++ log).
Proof.
  intros [H|(ops & H1 & H2)]; [left|right; exists ops; split; [|done]]; apply in_or_app; auto.
Qed.

Lemma verified_mono op log delta : verified op log -> verified op (delta ++ log).
Proof.
  intros [(a & r & H)|(ops & H1 & H2)]; [left; exists a, r|right; exists ops; split; [|done]];
    apply in_or_app; auto.
Qed.

Lemma undesired_mono d log delta : undesired d log -> undesired d (delta ++ log).
Proof.
  intros [(ds & H1 & H2) (objects & records & r & H3 & H4)]. split.
  - exists ds. split; [apply in_or_app; auto|done].
  - exists objects, records, r. split; [apply in_or_app; auto|done].
Qed.

Lemma finished_mono op log delta : finished op log -> finished op (delta ++ log).
Proof. intros [H|H]; [left|right]; apply in_or_app; auto. Qed.
Lemma finished_app_l op log delta : finished op delta -> finished op (delta ++ log).
Proof. intros [H|H]; [left|right]; apply in_or_app; auto. Qed.

Lemma journaled_app op d1 d2 : journaled op (d2 ++ d1) -> journaled op d2 \/ journaled op d1.
Proof.
  intros [[H|H]%in_app_or|(ops & [H|H]%in_app_or & Hi)]; [left|right|left|right]; try (by left); right; by exists ops.
Qed.

Lemma carried_app d1 d2 : closed d1 -> carried d1 -> carried d2 -> carried (d2 ++ d1).
Proof.
  intros Hc H1. induction d2 as [|e d2 IH]; [done|]. intros [He H2]. split; [|by apply IH].
  destruct d2 as [|e2 d2]; [|done]. cbn. destruct d1 as [|e1 d1]; [done|]. cbn in Hc. by destruct e1.
Qed.

Lemma undisturbed_app d1 d2 : undisturbed d1 -> undisturbed d2 -> undisturbed (d2 ++ d1).
Proof.
  intros [S1 A1 C1 F1] [S2 A2 C2 F2]. split.
  - by apply List.Forall_app.
  - by apply carried_app.
  - by destruct d2.
  - intros op [H|H]%journaled_app; [by apply finished_app_l, F2|by apply finished_mono, F1].
Qed.

Lemma undisturbed_nil : undisturbed [].
Proof. split; [constructor|done|done|]. by intros op [[]|(ops & [] & _)]. Qed.

Lemma journaled_cons op e log :
  match e with EvBegin _ (Ok _) | EvOpen (Ok _) => False | _ => True end -> journaled op (e :: log) -> journaled op log.
Proof.
  intros He [[E|H]|(ops & [E|H] & Hi)]; [by subst e|by left|by subst e|by right; exists ops].
Qed.

(** One more call that succeeded and is carried on. *)
Lemma undisturbed_cons e log : call_succeeded e -> awaits_next e = false ->
  match log with [] => True | before :: _ => carries_on before e end ->
  match e with EvBegin _ (Ok _) | EvOpen (Ok _) => False | _ => True end ->
  List.Forall call_succeeded log -> carried log -> (forall op, journaled op log -> finished op log) -> undisturbed (e :: log).
Proof.
  intros Hs Hp Hf He Hl Hc Hfin. split; [by constructor|done|done|]. intros op Hj%journaled_cons; [|done].
  apply (finished_mono op log [e]). by apply Hfin.
Qed.

Lemma undisturbed_one e : call_succeeded e -> awaits_next e = false ->
  match e with EvBegin _ (Ok _) | EvOpen (Ok _) => False | _ => True end -> undisturbed [e].
Proof. intros. apply undisturbed_cons; try done. by intros op [[]|(ops & [] & _)]. Qed.

Lemma undisturbed_one_more e log : call_succeeded e -> awaits_next e = false ->
  match e with EvBegin _ (Ok _) | EvOpen (Ok _) => False | _ => True end -> undisturbed log -> undisturbed (e :: log).
Proof. intros ? ? ? Hl. apply (undisturbed_app log [e]); [done|by apply undisturbed_one]. Qed.

(** The calls of short programs. *)
Ltac settle :=
  cbn [app]; split; [by repeat constructor|by cbn|done|];
  let H := fresh "H" in intros ? [H|(? & H & _)]; cbn in H; intuition discriminate.

Lemma undesired_log d log e : undesired d log -> undesired d (e :: log).
Proof. apply (undesired_mono d log [e]). Qed.

Lemma valid_suffix delta log : valid (delta ++ log) -> valid log.
Proof. induction delta as [|e delta IH]; cbn; [done|]. intros [_ H]. by apply IH. Qed.

Lemma valid_In delta e log : valid (delta ++ e :: log) -> allowed log e.
Proof. intros H%valid_suffix. apply H. Qed.

(** ** Reasoning on computations *)

Context {W : Type} `{!StateStore W} `{!LapiClient W} `{!TokenSource W}.

#[local] Abbreviation RL := (R (W := LW W)).
Definition slog (s : RW (W := LW W)) : list event := (rw_world s).2.

(** [m], from a valid log that satisfies [P], leaves a valid log, and its
    result and its calls satisfy [Q]. *)
Definition runs {A} (P : list event -> Prop) (m : RL A) (Q : result error A -> list event -> Prop) : Prop :=
  forall s r s', m s = (r, s') -> valid (slog s) -> P (slog s) ->
    valid (slog s') /\ exists delta, slog s' = delta ++ slog s /\ Q r delta.

(** After [delta] from a log that satisfies [P]. *)
Definition after (delta : list event) (P : list event -> Prop) (log : list event) : Prop :=
  exists log0, log = delta ++ log0 /\ P log0.

Lemma runs_try {A B} P (m : RL A) (k : result error A -> RL B) Q1 Q2 :
  runs P m Q1 ->
  (forall r delta, Q1 r delta -> runs (after delta P) (k r) (fun r2 d2 => Q2 r2 (d2 ++ delta))) ->
  runs P (mtry m k) Q2.
Proof.
  intros Hm Hk s r s' H Hv HP. unfold mtry in H. destruct (m s) as [r1 s1] eqn:E.
  destruct (Hm s r1 s1 E Hv HP) as (Hv1 & delta & E1 & H1).
  destruct (Hk r1 delta H1 s1 r s' H Hv1) as (Hv2 & d2 & E2 & H2); [by exists (slog s)|].
  split; [done|]. exists (d2 ++ delta). split; [|done]. by rewrite E2, E1, app_assoc.
Qed.

Lemma runs_then {A B} P (m : RL A) (k : A -> RL B) Q1 Q2 :
  runs P m Q1 ->
  (forall a delta, Q1 (Ok a) delta -> runs (after delta P) (k a) (fun r2 d2 => Q2 r2 (d2 ++ delta))) ->
  (forall e delta, Q1 (Err e) delta -> Q2 (Err e) delta) ->
  runs P (mthen m k) Q2.
Proof.
  intros Hm Hk He s r s' H Hv HP. unfold mthen in H. destruct (m s) as [[a|e] s1] eqn:E.
  - destruct (Hm s _ s1 E Hv HP) as (Hv1 & delta & E1 & H1).
    destruct (Hk a delta H1 s1 r s' H Hv1) as (Hv2 & d2 & E2 & H2); [by exists (slog s)|].
    split; [done|]. exists (d2 ++ delta). split; [|done]. by rewrite E2, E1, app_assoc.
  - injection H as <- <-. destruct (Hm s _ s1 E Hv HP) as (Hv1 & delta & E1 & H1).
    split; [done|]. exists delta. eauto.
Qed.

Lemma runs_ret {A} P (r : result error A) (Q : result error A -> list event -> Prop) :
  Q r [] -> runs P (fun s => (r, s)) Q.
Proof. intros HQ s r' s' [= <- <-] Hv _. split; [done|]. by exists []. Qed.

Lemma runs_count P f (Q : result error unit -> list event -> Prop) : Q (Ok tt) [] -> runs P (count f) Q.
Proof. intros HQ s r' s' [= <- <-] Hv _. split; [done|]. by exists []. Qed.

Lemma runs_weaken {A} (P P' : list event -> Prop) (m : RL A) (Q Q' : result error A -> list event -> Prop) :
  runs P' m Q' -> (forall log, P log -> P' log) -> (forall r delta, Q' r delta -> Q r delta) -> runs P m Q.
Proof.
  intros Hm HP HQ s r s' H Hv Hp. destruct (Hm s r s' H Hv (HP _ Hp)) as (Hv' & delta & E & Hq). eauto.
Qed.

(** A logged call adds its event. *)
Lemma runs_call {A} P (ev : result error A -> event) (m : M W error A) :
  (forall log r, P log -> allowed log (ev r)) ->
  runs P (call (logged ev m)) (fun r delta => delta = [ev r]).
Proof.
  intros Ha s r s' H Hv HP. unfold call, logged in H. destruct (m (rw_world s).1) as [r0 w0].
  injection H as <- <-. split; [by split; [apply Ha|]|]. by exists [ev r0].
Qed.

Lemma runs_failing {A} P c (m : RL A) Q :
  runs P m Q -> runs P (failing c m) (fun r delta =>
    match r with Ok a => Q (Ok a) delta | Err e => exists e', Q (Err e') delta end).
Proof.
  intros Hm. unfold failing. eapply runs_try; [exact Hm|]. intros [a|e] delta HQ; apply runs_ret; cbn; eauto.
Qed.

Lemma runs_mok {A B} P (a : A) (k : A -> RL B) Q : runs P (k a) Q -> runs P (mthen (mok a) k) Q.
Proof. done. Qed.

Lemma runs_then_count {B} P f (k : RL B) Q : runs P k Q -> runs P (mthen (count f) (fun _ => k)) Q.
Proof. intros Hk s r s' H. apply (Hk (MkRW (rw_world s) (f (rw_report s))) r s' H). Qed.

Lemma runs_lift {A B} P (x : result error A) (k : A -> RL B) (Q : result error B -> list event -> Prop) :
  (forall a, x = Ok a -> runs P (k a) Q) -> (forall e, x = Err e -> Q (Err e) []) ->
  runs P (mthen (lift_r x) k) Q.
Proof.
  intros Hk He. destruct x as [a|e]; [by apply Hk|]. apply (runs_ret P (Err e)). by apply He.
Qed.

(** Sequencing when only the calls matter: nothing fails unless the program does. *)
Definition clean_ok {A} (r : result error A) (delta : list event) : Prop :=
  match r with Ok _ => undisturbed delta | Err _ => True end.

Lemma runs_mark d P : (forall log, P log -> gone (dr_ID d) log) ->
  runs P (mark_expired_decision d now) (fun r delta =>
    match r with Ok _ => delta = [EvMark (dr_ID d) now (Ok tt)] | Err _ => exists r, delta = [EvMark (dr_ID d) now r] end).
Proof.
  intros Hg. eapply runs_weaken; [apply runs_failing, (runs_call P (EvMark (dr_ID d) now))|done|].
  - intros log r Hp. split; [done|by apply Hg].
  - intros [[]|e] delta H; [exact H|]. destruct H as (e' & ->). eauto.
Qed.

(** The calls of an expiry are for its decision, and nothing fails if it succeeds. *)
Definition expires (d : DecisionRecord) (r : result error unit) (delta : list event) : Prop :=
  clean_ok r delta /\ List.Forall (touches d) delta.

(** [mark_expired_decision] at the end of an expiry. *)
Lemma runs_marked d pre P : (forall log, P log -> gone (dr_ID d) log) ->
  (forall delta, delta = [EvMark (dr_ID d) now (Ok tt)] -> undisturbed (delta ++ pre)) -> List.Forall (touches d) pre ->
  runs P (mark_expired_decision d now) (fun r delta => expires d r (delta ++ pre)).
Proof.
  intros Hg Hs Ht. eapply runs_weaken; [by apply runs_mark|done|]. intros [[]|e] delta.
  - intros ->. split; [by apply Hs|by constructor].
  - intros (r & ->). split; [exact I|by constructor].
Qed.

Lemma runs_expireOwned d P : (forall log, P log -> expirable d log) ->
  runs P (expireOwned rc d now) (expires d).
Proof.
  intros Hx. unfold expireOwned. eapply runs_try; [by apply (runs_call P (EvGet (dr_AlertID d)))|].
  intros r ? ->. apply runs_then_count.
  assert (forall e : error, expires d (Err e) ([] ++ [EvGet (dr_AlertID d) r])) as Hfail.
  { intros e. split; [exact I|by repeat constructor]. }
  destruct r as [remote|e].
  2:{ destruct (lapi_IsCategory e lapi.ErrNotFound) eqn:En; [|by apply runs_ret].
      apply (runs_marked d [EvGet (dr_AlertID d) (Err e)]); [|intros delta ->; settle|by repeat constructor].
      intros log (log0 & -> & Hp). exists d. split; [done|]. left. by exists e, log0. }
  apply runs_lift; [|by intros e _; apply Hfail].
  intros m Hm. destruct (decisionExpiry m now (rc_duration rc)) as [expiry|e] eqn:Ee; [|by apply runs_ret].
  destruct (After expiry now) eqn:Ea; cbn [negb].
  2:{ apply (runs_marked d [EvGet (dr_AlertID d) (Ok remote)]); [|intros delta ->; settle|by repeat constructor].
      intros log (log0 & -> & Hp). exists d. split; [done|]. right. left. exists remote, m, expiry, log0. by split_and!. }
  assert (forall log, after [EvGet (dr_AlertID d) (Ok remote)] P log -> owned d log) as Ho.
  { intros log (log0 & -> & Hp). exists remote, m, expiry, log0. split_and!; [done..|by apply Hx]. }
  eapply runs_try; [apply (runs_call _ (EvExpire (dr_DecisionID d)))|].
  { intros log r Hp. exists d. split; [done|by apply Ho]. }
  intros r ? ->. apply runs_then_count. cbn [app].
  assert (match r with Ok _ => True | Err e => lapi_IsCategory e lapi.ErrNotFound = true end ->
    runs (after [EvExpire (dr_DecisionID d) r] (after [EvGet (dr_AlertID d) (Ok remote)] P)) (mark_expired_decision d now)
      (fun r2 delta => expires d r2 ((delta ++ [EvExpire (dr_DecisionID d) r]) ++ [EvGet (dr_AlertID d) (Ok remote)]))) as Hmark.
  { intros Hr. eapply runs_weaken; [apply (runs_marked d [EvExpire (dr_DecisionID d) r; EvGet (dr_AlertID d) (Ok remote)]
      (after [EvExpire (dr_DecisionID d) r] (after [EvGet (dr_AlertID d) (Ok remote)] P)))| |].
    - intros log (log0 & -> & Hp). exists d. split; [done|]. right. right. left. exists r, log0.
      split_and!; [done|by apply Ho|by destruct r].
    - intros delta ->. destruct r; settle.
    - by repeat constructor.
    - done.
    - intros r2 delta H. by rewrite <- app_assoc. }
  destruct r as [u|e]; [by apply Hmark|].
  destruct (lapi_IsCategory e lapi.ErrNotFound) eqn:En; cbn [negb]; [by apply Hmark|].
  apply runs_ret. split; [exact I|by repeat constructor].
Qed.

(** Facts that later calls do not change. *)
Definition stable (P : list event -> Prop) : Prop := forall log delta, P log -> P (delta ++ log).

Lemma after_stable P delta log : stable P -> after delta P log -> P log.
Proof. intros Hs (log0 & -> & H). by apply Hs. Qed.

Lemma stable_and P Q : stable P -> stable Q -> stable (fun log => P log /\ Q log).
Proof. intros H1 H2 log delta [? ?]. auto. Qed.

Lemma stable_In e : stable (In e).
Proof. intros log delta H. apply in_or_app. by right. Qed.

Lemma stable_op op : stable (fun log => journaled op log /\ verified op log).
Proof. apply stable_and; intros log delta; [apply journaled_mono|apply verified_mono]. Qed.

Lemma stable_finished op : stable (finished op).
Proof. intros log delta. apply finished_mono. Qed.

(** The calls of a loop: nothing fails, and each turn leaves its own trace. *)
Definition clean_and {A} (F : list event -> Prop) (r : result error A) (delta : list event) : Prop :=
  match r with Ok _ => undisturbed delta /\ F delta | Err _ => True end.

Lemma runs_seq {A B} P (m : RL A) (k : A -> RL B) F :
  stable P -> runs P m clean_ok -> (forall a, runs P (k a) (clean_and F)) -> (forall d1 d2, F d2 -> F (d2 ++ d1)) ->
  runs P (mthen m k) (clean_and F).
Proof.
  intros Hs Hm Hk HF. eapply runs_then; [exact Hm| |intros e delta _; exact I]. intros a delta Hd.
  eapply runs_weaken; [apply Hk|intros log; by apply after_stable|].
  intros [b|e] d2; cbn in *; [|done]. intros [H2 Hf]. split; [by apply undisturbed_app|by apply HF].
Qed.

Lemma runs_for {A} P (body : A -> RL unit) (F : A -> list event -> Prop) xs :
  stable P -> (forall x, stable (F x)) -> (forall x d1 d2, F x d2 -> F x (d2 ++ d1)) ->
  (forall x, In x xs -> runs P (body x) (clean_and (F x))) ->
  runs P (mfor body xs) (clean_and (fun delta => forall x, In x xs -> F x delta)).
Proof.
  intros Hs HF HF' Hb. induction xs as [|x xs IH]; cbn [mfor]; [apply runs_ret; split; [apply undisturbed_nil|by intros ? []]|].
  eapply runs_then; [by apply Hb; left| |intros e delta _; exact I]. intros a delta [Hd Hx].
  eapply runs_weaken; [apply IH; by intros y Hy; apply Hb; right|intros log; by apply after_stable|].
  intros [b|e] d2; [|done]. intros [H2 Hf]. split; [by apply undisturbed_app|].
  intros y [<-|Hy]; [by apply HF|by apply HF', Hf].
Qed.

(** A logged call that cannot fail a run. *)
Lemma runs_failing_call {A} P c (ev : result error A -> event) (m : M W error A) :
  (forall log r, P log -> allowed log (ev r)) ->
  runs P (failing c (call (logged ev m))) (fun r delta => match r with Ok a => delta = [ev (Ok a)] | Err _ => True end).
Proof.
  intros Ha. eapply runs_weaken; [apply runs_failing, (runs_call P ev); exact Ha|done|].
  intros [a|e] delta H; [exact H|exact I].
Qed.

Lemma runs_finish_item op item :
  In item (op_Items op) ->
  runs (fun log => journaled op log /\ verified op log) (finish_item rc now item) clean_ok.
Proof.
  intros Hin. unfold finish_item. destruct (oi_OldDecisionRowID item) as [row|] eqn:Er;
    [|by apply runs_ret, undisturbed_nil].
  eapply runs_then; [by apply (runs_failing_call _ _ EvLive)| |intros e delta _; exact I]. intros ds ? ->.
  destruct (List.find _ ds) as [old|] eqn:Ef; [|by apply runs_ret; settle].
  apply find_some in Ef as [Hold Eid]. apply Z.eqb_eq in Eid.
  eapply runs_weaken; [apply (runs_expireOwned old (after [EvLive (Ok ds)] (fun log => journaled op log /\ verified op log)))| |].
  - intros log (log0 & -> & Hj & Hv). left. exists op, item, ds. split_and!; [| |done| | |done].
    + by apply (journaled_mono op log0 [_]).
    + by apply (verified_mono op log0 [_]).
    + by rewrite Er, Eid.
    + by left.
  - done.
  - intros [u|e] d2; [|intros _; exact I]. intros [H2 _]. apply undisturbed_app; [settle|exact H2].
Qed.

Lemma finished_trace op d1 d2 : finished op d2 -> finished op (d2 ++ d1).
Proof. apply finished_app_l. Qed.

Lemma runs_finishVerified op :
  runs (fun log => journaled op log /\ verified op log) (finishVerified rc op now) (clean_and (finished op)).
Proof.
  unfold finishVerified. apply runs_seq; [apply stable_op| |intros _|by intros; apply finished_trace].
  - eapply runs_weaken; [apply (runs_for (fun log => journaled op log /\ verified op log) _ (fun _ _ => True))|done|]; [apply stable_op|by intros x log delta|done| |].
    + intros item Hin. eapply runs_weaken; [by apply runs_finish_item|done|]. by intros [u|e] delta; [split|].
    + intros [u|e] delta; [|intros _; exact I]. by intros [? _].
  - eapply runs_weaken; [apply (runs_failing_call (fun log => journaled op log /\ verified op log) _ (EvComplete (op_Token op) now))|done|].
    + intros log r H. split; [done|]. by exists op.
    + intros [[]|e] delta; [|intros _; exact I]. intros ->. split; [settle|by left; left].
Qed.

Lemma runs_status op st category P : stable P -> (forall log, P log -> journaled op log) ->
  runs P (call (W := LW W) (s_SetOperationStatus (op_Token op) st category now))
    (fun r delta => delta = [EvStatus (op_Token op) st category now r]).
Proof.
  intros Hs Hj. apply (runs_call P (EvStatus (op_Token op) st category now)).
  intros log r H. split; [done|]. exists op. auto.
Qed.

Lemma runs_ambiguous {A} op category e P : stable P -> (forall log, P log -> journaled op log) ->
  runs P (let! _ := ambiguous op category now in mfail (A:=A) e) (fun r delta => r = Err e).
Proof.
  intros Hs Hj. unfold ambiguous, ignoring. eapply (runs_then _ _ _ (fun r _ => r = Ok tt)).
  - eapply runs_try; [by apply runs_status|]. intros r delta _. by apply runs_ret.
  - intros [] delta _. by apply runs_ret.
  - done.
Qed.

Lemma operation_alert_recorded op alert records P log :
  after [EvRecord (op_Token op) alert now (Ok records)] P log -> (forall log, P log -> journaled op log) ->
  journaled op log /\ verified op log.
Proof.
  intros (log0 & -> & HP) Hj. split; [apply (journaled_mono op log0 [_]); auto|]. left. exists alert, records. by left.
Qed.

(** Recording an alert that was just read, and finishing; [pre] is the calls that
    read it. *)
Lemma runs_record op remote records alert pre P :
  verifiedAlert rc op remote records now = Ok alert ->
  (forall log, P log -> journaled op log /\ read_alert (op_Token op) alert log) ->
  (forall ds, undisturbed (EvRecord (op_Token op) alert now (Ok ds) :: pre)) ->
  runs P (let! _ := failing reconcile.ErrState (call (W := LW W) (s_RecordVerifiedOperation (op_Token op) alert now)) in
          finishVerified rc op now) (fun r delta => clean_and (finished op) r (delta ++ pre)).
Proof.
  intros Hv HP Hpre. eapply runs_then; [apply (runs_failing_call P _ (EvRecord (op_Token op) alert now))| |done].
  - intros log r H. split; [done|]. by apply HP.
  - intros ds ? ->. eapply runs_weaken; [apply runs_finishVerified| |].
    + intros log H. apply (operation_alert_recorded op alert ds P log H). intros log0 H0. by apply HP.
    + intros [u|e] d2; [|intros _; exact I]. intros [H2 Hf]. rewrite <- app_assoc.
      split; [apply undisturbed_app; [apply Hpre|exact H2]|by apply finished_trace].
Qed.

Lemma after2_stable P d1 d2 log : stable P -> after d1 (after d2 P) log -> P log.
Proof. intros Hs (log0 & -> & H). apply Hs. by apply (after_stable P d2). Qed.

(** *** Operations *)

Section Operations.
(** The plan that was stored. *)
Context (objects : list Object) (plan : list EnforcementRecord).
Definition stored (log : list event) : Prop := In (EvPlan objects now (Ok plan)) log.

Lemma records_by_id_In k r : records_by_id plan !! k = Some r -> In r plan /\ er_ID r = k.
Proof.
  unfold records_by_id. assert (forall (m : gmap Z EnforcementRecord), fold_left (fun m r => <[er_ID r := r]> m) plan m !! k = Some r ->
    m !! k = Some r \/ (In r plan /\ er_ID r = k)) as H.
  { induction plan as [|x xs IH]; intros m; cbn [fold_left]; [auto|]. intros [Hm|[Hin Hid]]%IH; [|by right; split; [right|]].
    apply lookup_insert_Some in Hm as [[<- <-]|[_ Hm]]; [right; by split; [left|]|by left]. }
  intros [Hm|Hr]%H; [|exact Hr]. by rewrite lookup_empty in Hm.
Qed.

Lemma operation_inputs_desired items inputs : operation_inputs (records_by_id plan) items = Some inputs ->
  Forall2 (desired_input plan) items inputs.
Proof.
  revert inputs. induction items as [|item items IH]; intros inputs; cbn [operation_inputs]; [intros [= <-]; constructor|].
  destruct (records_by_id plan !! oi_ObjectID item) as [r|] eqn:E; [|done]. apply records_by_id_In in E as [Hin Hid].
  destruct (er_Desired r) eqn:Ed; cbn [negb]; [|done]. destruct (operation_inputs _ items) as [rest|]; [|done].
  intros [= <-]. constructor; [by exists r|by apply IH].
Qed.

Lemma runs_createForOperation op P :
  stable P -> (forall log, P log -> journaled op log /\ stored log) ->
  runs P (createForOperation rc op (records_by_id plan) now) (clean_and (finished op)).
Proof.
  intros Hs Hj. assert (forall log, P log -> journaled op log) as Hj' by (by intros; apply Hj).
  unfold createForOperation. set (records := records_by_id plan).
  destruct (operation_inputs records (op_Items op)) as [inputs|] eqn:Ei.
  2:{ eapply runs_weaken; [by apply runs_failing, (runs_status op OperationFailed "no_longer_desired" P)|done|].
      intros [[]|e] delta; [|intros _; exact I]. intros ->. split; [settle|by right; left]. }
  set (request := MkCreateRequest _ _ _ _).
  eapply runs_try; [apply (runs_call P (EvCreate request))|].
  { intros log r H. exists op, objects, plan. split_and!; [by apply Hj..|by apply operation_inputs_desired|done]. }
  intros r ? ->. apply runs_then_count. destruct r as [alertID|e].
  2:{ eapply runs_weaken; [by apply (runs_ambiguous (A:=unit) op "lapi_create" _ P)|intros log; by apply after_stable|].
      by intros r delta ->. }
  eapply runs_try; [by apply (runs_call _ (EvGet alertID))|]. intros r ? ->. apply runs_then_count.
  destruct r as [remote|e].
  2:{ eapply runs_weaken; [by apply (runs_ambiguous (A:=unit) op "lapi_verify" _ P)|intros log; by apply after2_stable|].
      by intros r delta ->. }
  destruct (verifiedAlert rc op remote records now) as [alert|e] eqn:Ev.
  2:{ eapply runs_weaken; [by apply (runs_ambiguous (A:=unit) op "ownership" _ P)|intros log; by apply after2_stable|].
      by intros r delta ->. }
  eapply runs_weaken; [apply (runs_record op remote records alert [EvGet alertID (Ok remote); EvCreate request (Ok alertID)] _ Ev)| |].
  - intros log H. exact H.
  - intros ds. settle.
  - intros log H. split; [apply Hj; by apply (after2_stable P) in H|].
    destruct H as (log1 & -> & log0 & -> & HP). exists op, remote, records, log0. split_and!; [done| |done|].
    + by apply (journaled_mono op log0 [_; _]), Hj.
    + left. exists alertID. by rewrite Ei.
  - intros r d2 H. by rewrite <- app_assoc.
Qed.

(** *** Recovery *)

Definition found_open (op : Operation) (log : list event) : Prop :=
  exists ops, In (EvOpen (Ok ops)) log /\ In op ops.

Lemma stable_found op : stable (found_open op).
Proof. intros log delta (ops & H1 & H2). exists ops. split; [apply in_or_app; by right|done]. Qed.

Lemma found_journaled op log : found_open op log -> journaled op log.
Proof. by right. Qed.

Lemma runs_counted P (m : RL unit) F f : runs P m (clean_and F) -> runs P (let! _ := m in count f) (clean_and F).
Proof.
  intros Hm. eapply runs_then; [exact Hm| |intros e delta _; exact I]. intros u delta Hd. by apply runs_count.
Qed.

Lemma runs_assoc {A B C} P (m : RL A) (k : A -> RL B) (l : B -> RL C) Q :
  runs P (let! b := let! a := m in k a in l b) Q -> runs P (let! a := m in let! b := k a in l b) Q.
Proof.
  intros Hr s r s' H. apply (Hr s r s'). unfold mthen in *. destruct (m s) as [[a|e] s1]; [|exact H].
  by destruct (k a s1) as [[b|e] s2].
Qed.

(** Calls before in which nothing failed. *)
Lemma runs_prefix {A} P d F (m : RL A) : undisturbed d -> (forall d2, F d2 -> F (d2 ++ d)) ->
  runs P m (clean_and F) -> runs P m (fun r d2 => clean_and F r (d2 ++ d)).
Proof.
  intros Hd HF Hm. eapply runs_weaken; [exact Hm|done|]. intros [a|e] d2; [|done].
  intros [H2 Hf]. split; [by apply undisturbed_app|by apply HF].
Qed.

Lemma runs_recover_operation op :
  runs (fun log => found_open op log /\ stored log) (recover_operation rc (records_by_id plan) now op) (clean_and (finished op)).
Proof.
  unfold recover_operation. case_bool_decide as Es.
  - apply runs_counted. eapply runs_weaken; [apply runs_finishVerified| |by intros r delta H].
    intros log [H _]. split; [by apply found_journaled|]. right. destruct H as (ops & H1 & H2). by exists ops.
  - eapply runs_try; [by apply (runs_call (fun log => found_open op log /\ stored log) (EvFind (op_FeedName op) (op_Token op)))|].
    intros r ? ->. apply runs_then_count. destruct r as [[remote|]|e]; [| |by apply runs_ret].
    + apply runs_lift; [|intros e _; exact I]. intros alert Ev.
      apply runs_assoc. eapply runs_then; [apply (runs_record op remote _ alert [EvFind (op_FeedName op) (op_Token op) (Ok (Some remote))] _ Ev)| |].
      * intros log (log0 & -> & H & _).
        assert (journaled op (EvFind (op_FeedName op) (op_Token op) (Ok (Some remote)) :: log0)) as Hj
          by (apply (journaled_mono op log0 [_]); by apply found_journaled).
        split; [done|]. exists op, remote, (records_by_id plan), log0. split_and!; [done..|by right].
      * intros ds. settle.
      * intros u delta Hd. by apply runs_count.
      * intros e delta _. exact I.
    + apply runs_prefix; [settle|by intros; apply finished_trace|]. apply runs_counted.
      eapply runs_weaken; [apply (runs_createForOperation op (fun log => found_open op log /\ stored log))| |by intros r delta H].
      * apply stable_and; [apply stable_found|apply stable_In].
      * intros log [H1 H2]. split; [by apply found_journaled|done].
      * intros log. apply after_stable, stable_and; [apply stable_found|apply stable_In].
Qed.

Lemma runs_recover : runs stored (recover rc (records_by_id plan) now) clean_ok.
Proof.
  unfold recover. eapply runs_then; [by apply (runs_failing_call stored _ EvOpen)| |intros e delta _; exact I].
  intros ops ? ->. eapply runs_weaken.
  - apply (runs_for (fun log => In (EvOpen (Ok ops)) log /\ stored log) _ finished).
    + apply stable_and; apply stable_In.
    + apply stable_finished.
    + intros; by apply finished_trace.
    + intros op Hop. eapply runs_weaken; [apply runs_recover_operation| |by intros r delta H].
      intros log [H1 H2]. split; [by exists ops|done].
  - intros log (log0 & -> & H). split; [by left|by right].
  - intros [u|e] d2; [|intros _; exact I]. intros [[S A C F] Hall]. split.
    + apply List.Forall_app. split; [done|by repeat constructor].
    + by apply carried_app.
    + by destruct d2.
    + intros op [Hj|[[Hj|[]]|(ops' & [E|[]] & Hin)]]%journaled_app; [by apply finished_app_l, F|done|].
      injection E as <-. by apply finished_app_l, Hall.
Qed.

(** *** Batches *)

Lemma runs_newOperation key actions P :
  runs P (newOperation rc key actions now) (fun r delta =>
    match r with Ok _ => exists token, delta = [EvToken (Ok token)] | Err _ => True end).
Proof.
  unfold newOperation. eapply runs_try; [by apply (runs_call P EvToken)|]. intros r ? ->.
  destruct r as [token|e]; [|by apply runs_ret].
  destruct (negb _); apply runs_ret; [done|]. by exists token.
Qed.

Lemma runs_pre {A} (P P' : list event -> Prop) (m : RL A) Q :
  runs P' m Q -> (forall log, P log -> P' log) -> runs P m Q.
Proof. intros Hm HP. by eapply runs_weaken. Qed.

(** While no error is kept, nothing has failed. *)
Definition kept_clean (first : option error) (r : result error (option error)) (delta : list event) : Prop :=
  match r with Ok None => first = None /\ undisturbed delta | _ => True end.

Lemma kept_first first e delta : kept_clean first (Ok (first_error first e)) delta.
Proof. by destruct first. Qed.

(** A batch that is begun and created, from its token on. *)
Lemma begun_settled op token d : undisturbed d -> finished op d ->
  undisturbed (d ++ [EvBegin op (Ok tt)] ++ [EvToken (Ok token)]).
Proof.
  intros [S A C F] Hf. split.
  - apply List.Forall_app. split; [done|by repeat constructor].
  - by apply carried_app.
  - by destruct d.
  - intros op' [Hj|[[Hj|[Hj|[]]]|(ops' & [E|[E|[]]] & _)]]%journaled_app; [by apply finished_app_l, F| |done..].
    injection Hj as <-. by apply finished_app_l.
Qed.

Lemma runs_run_batch key first batch :
  runs stored (run_batch rc (records_by_id plan) now key first batch) (kept_clean first).
Proof.
  unfold run_batch. eapply runs_try; [apply runs_newOperation|]. intros [op|e] d1 H1; [|apply runs_ret, kept_first].
  destruct H1 as (token & ->). eapply runs_try; [by apply (runs_call _ (EvBegin op))|]. intros r ? ->.
  destruct r as [[]|e]; [|apply runs_ret, kept_first].
  eapply runs_try.
  { eapply runs_pre; [apply (runs_createForOperation op (fun log => In (EvBegin op (Ok tt)) log /\ stored log))|].
    - apply stable_and; apply stable_In.
    - intros log [H1 H2]. split; [by left|done].
    - intros log (log1 & -> & log0 & -> & H). split; [by left|by right; right]. }
  intros [u|e] delta HQ; [|apply runs_ret, kept_first]. apply runs_then_count, runs_ret.
  destruct first; [exact I|]. split; [done|]. destruct HQ as [Hd Hf]. cbn [app]. rewrite <- app_assoc. by apply begun_settled.
Qed.

Lemma runs_fold {A} P (body : option error -> A -> RL (option error)) xs : forall first,
  stable P -> (forall first x, In x xs -> runs P (body first x) (kept_clean first)) ->
  runs P (mfold body first xs) (kept_clean first).
Proof.
  induction xs as [|x xs IH]; intros first Hs Hb; cbn [mfold].
  - apply runs_ret. destruct first; [exact I|]. split; [done|apply undisturbed_nil].
  - eapply runs_then; [by apply Hb; left| |intros e delta _; exact I]. intros mid d1 H1.
    eapply runs_weaken; [apply IH; [exact Hs|by intros f y Hy; apply Hb; right]|intros log; by apply after_stable|].
    intros [[e|]|e] d2 H2; [exact I| |exact I]. destruct H2 as [-> H2]. destruct H1 as [-> H1].
    split; [done|by apply undisturbed_app].
Qed.

Lemma runs_run_group first group :
  runs stored (run_group rc (records_by_id plan) now first group) (kept_clean first).
Proof. apply runs_fold; [apply stable_In|]. intros f batch _. apply runs_run_batch. Qed.

(** *** The plan *)

Context (activeList : list DecisionRecord).

(** The decision is read as active, and the plan does not want its object. *)
Definition to_remove (d : DecisionRecord) : Prop :=
  In d activeList /\ exists r, In r plan /\ er_ID r = dr_ObjectID d /\ er_Desired r = false.

Record plan_read (log : list event) : Prop := {
  pn_settled : undisturbed log; pn_active : In (EvActive (Ok activeList)) log; pn_stored : stored log }.

(** Facts that calls do not change when nothing fails. *)
Lemma planned_after delta log : undisturbed delta -> after delta plan_read log -> plan_read log.
Proof.
  intros Hd (log0 & -> & [H1 H2 H3]). split; [by apply undisturbed_app|by apply stable_In..].
Qed.

(** The removals: nothing but calls for decisions of undesired objects came since
    nothing had failed. *)
Definition clearing (log : list event) : Prop :=
  exists removals base, log = removals ++ base /\ plan_read base /\
    List.Forall (fun e => exists d, undesired d base /\ touches d e) removals.

Lemma to_remove_undesired d log : to_remove d -> plan_read log -> undesired d log.
Proof.
  intros [H1 (r & H2 & H3 & H4)] [_ Ha Hp]. split; [by exists activeList|]. by exists objects, plan, r.
Qed.

Lemma clearing_expirable d log : to_remove d -> clearing log -> expirable d log.
Proof.
  intros Hd (removals & base & -> & Hb & Hr). right. exists removals, base.
  split_and!; [done|by apply pn_settled|by apply to_remove_undesired|done].
Qed.

Lemma clearing_after d delta log : to_remove d -> List.Forall (touches d) delta -> after delta clearing log -> clearing log.
Proof.
  intros Hd Ht (log0 & -> & removals & base & -> & Hb & Hr). exists (delta ++ removals), base.
  split_and!; [by rewrite app_assoc|done|]. apply List.Forall_app. split; [|done].
  eapply List.Forall_impl; [|exact Ht]. intros e He. exists d. split; [by apply to_remove_undesired|done].
Qed.

Lemma runs_removals ds : List.Forall to_remove ds -> forall first,
  runs clearing (mfold (run_removal rc now) first ds) (fun _ _ => True).
Proof.
  induction 1 as [|d ds Hd Hds IH]; intros first; cbn [mfold]; [by apply runs_ret|].
  eapply (runs_then _ _ _ (fun _ delta => List.Forall (touches d) delta)); [| |done].
  - unfold run_removal. eapply runs_try; [by apply (runs_expireOwned d); intros log; apply clearing_expirable|].
    intros [u|e] delta [_ Ht]; [by apply runs_then_count, runs_ret|by apply runs_ret].
  - intros mid delta Ht. eapply runs_weaken; [apply IH|intros log; by apply (clearing_after d)|done].
Qed.

Lemma active_by_object_In seen active : active_by_object seen activeList = Ok active ->
  forall k d, active !! k = Some d -> seen !! k = Some d \/ (In d activeList /\ dr_ObjectID d = k).
Proof.
  revert seen. induction activeList as [|x xs IH]; intros seen; cbn [active_by_object].
  - intros [= <-]. by left.
  - destruct (seen !! dr_ObjectID x) eqn:E; [done|]. intros H k d Hk.
    destruct (IH _ H k d Hk) as [Hs|[Hin Hid]]; [|by right; split; [right|]].
    apply lookup_insert_Some in Hs as [[<- ->]|[_ Hs]]; [right; by split; [left|]|by left].
Qed.

Context (active : gmap Z DecisionRecord) (Hactive : activeByObject activeList = Ok active).

Lemma active_In k d : active !! k = Some d -> In d activeList /\ dr_ObjectID d = k.
Proof. intros H. by destruct (active_by_object_In _ _ Hactive k d H). Qed.

Definition removals_ok (r : result error plan_state) (delta : list event) : Prop :=
  match r with Ok st => List.Forall to_remove (pl_removals st) /\ undisturbed delta | Err _ => True end.

Lemma runs_plan_desired st record feed decision P : List.Forall to_remove (pl_removals st) ->
  runs P (plan_desired rc now st record feed decision) removals_ok.
Proof.
  intros Hst. unfold plan_desired. destruct decision as [d|]; [destruct (needs_refresh _ _ _ _ _ _)|];
    try (by apply runs_ret; split; [|apply undisturbed_nil]). by apply runs_then_count, runs_ret; split; [|apply undisturbed_nil].
Qed.

Lemma runs_plan_record st record P : In record plan -> (forall log, P log -> plan_read log) ->
  List.Forall to_remove (pl_removals st) -> runs P (plan_record rc now active st record) removals_ok.
Proof.
  intros Hin HP Hst. unfold plan_record. destruct (er_Desired record) eqn:Ed; cbn [negb].
  - destruct (primaryFeed record) as [feed|]; [|by apply runs_ret].
    destruct (active !! er_ID record) as [d|] eqn:Ea; [|by apply runs_mok, runs_plan_desired].
    destruct (After (dr_ExpiresAt d) now) eqn:Ex; cbn [negb]; [by apply runs_mok, runs_plan_desired|].
    eapply (runs_then _ _ _ clean_ok).
    + eapply runs_then; [apply (runs_mark d P)| |done].
      * intros log H. exists d. split; [done|]. right. right. right. exists activeList.
        split_and!; [by apply HP|by apply (active_In (er_ID record))|done].
      * intros [] delta ->. apply runs_ret. settle.
    + intros a delta Hd. eapply runs_weaken; [by apply (runs_plan_desired st)|done|].
      intros [st'|e] d2 H2; [|exact I]. destruct H2 as [H2 H3]. split; [done|by apply undisturbed_app].
    + done.
  - apply runs_ret. destruct (active !! er_ID record) as [d|] eqn:Ea; [|by split; [|apply undisturbed_nil]]. split; [|apply undisturbed_nil].
    cbn [pl_removals]. apply List.Forall_app. split; [done|]. constructor; [|constructor].
    destruct (active_In _ _ Ea) as [H1 H2]. split; [done|]. by exists record.
Qed.

Lemma runs_plan_records rs : (forall r, In r rs -> In r plan) -> forall st,
  List.Forall to_remove (pl_removals st) ->
  runs plan_read (mfold (plan_record rc now active) st rs) removals_ok.
Proof.
  induction rs as [|r rs IH]; intros Hin st Hst; cbn [mfold]; [by apply runs_ret; split; [|apply undisturbed_nil]|].
  eapply runs_then; [apply (runs_plan_record st r); [by apply Hin; left|done..]| |intros e delta _; exact I].
  intros mid d1 [H1 Hd1]. eapply runs_weaken; [apply IH; [by intros x Hx; apply Hin; right|exact H1]| |].
  - intros log. by apply planned_after.
  - intros [st'|e] d2 H2; [|exact I]. destruct H2 as [H2 H3]. split; [done|by apply undisturbed_app].
Qed.

Lemma runs_run_plan st : List.Forall to_remove (pl_removals st) ->
  runs plan_read (run_plan rc (records_by_id plan) now st) (fun _ _ => True).
Proof.
  intros Hr. unfold run_plan. eapply runs_then; [| |done].
  { eapply (runs_pre _ stored); [apply runs_fold; [apply stable_In|]|intros log; apply pn_stored].
    intros first group _. apply runs_run_group. }
  intros first d1 H1. eapply (runs_then _ _ _ (fun _ _ => True)); [|intros [e|] delta _; by apply runs_ret|done].
  destruct first as [e|]; [by apply runs_ret|]. destruct H1 as [_ H1].
  eapply runs_pre; [by apply runs_removals|]. intros log H. exists [], log. split_and!; [done| |constructor].
  by apply (planned_after d1).
Qed.
End Operations.

Lemma runs_no_calls {A} P (body : A -> RL unit) xs :
  (forall x, runs P (body x) (fun _ delta => delta = [])) -> runs P (mfor body xs) (fun _ delta => delta = []).
Proof.
  intros Hb. induction xs as [|x xs IH]; cbn [mfor]; [by apply runs_ret|].
  eapply runs_then; [apply Hb| |done]. intros u delta ->.
  eapply runs_weaken; [exact IH| |by intros r d2 ->]. by intros log (log0 & -> & H).
Qed.

Lemma runs_enforce objects : runs undisturbed (enforce rc objects now) (fun _ _ => True).
Proof.
  unfold enforce. eapply runs_then; [by apply (runs_failing_call _ _ (EvPlan objects now))| |done].
  intros records ? ->.
  set (P := fun log => undisturbed log /\ stored objects records log).
  apply (runs_pre _ P); [|intros log (log0 & -> & H); split; [by apply undisturbed_one_more|by left]].
  eapply runs_then; [apply runs_no_calls| |done].
  { intros r. destruct (negb (er_Desired r)); [by apply runs_count|by apply runs_ret]. }
  intros u ? ->. apply (runs_pre _ P); [|by intros log (log0 & -> & H)].
  eapply runs_then; [eapply (runs_pre _ (stored objects records)); [apply runs_recover|by intros log [_ H]]| |done].
  intros u2 d Hd. apply (runs_pre _ P).
  2:{ intros log (log0 & -> & H1 & H2). split; [by apply undisturbed_app|by apply stable_In]. }
  eapply runs_then; [by apply (runs_failing_call _ _ EvActive)| |done]. intros activeList ? ->.
  apply (runs_pre _ (plan_read objects records activeList)); [|intros log (log0 & -> & H1 & H2)].
  - apply runs_lift; [|done]. intros active Ha. eapply runs_then; [|intros st d1 H1|done].
    + apply (runs_plan_records objects records activeList active Ha); [done|constructor].
    + destruct H1 as [H1 Hd1]. eapply runs_pre; [by apply (runs_run_plan objects records activeList)|].
      intros log. by apply planned_after.
  - split; [by apply undisturbed_one_more|by left|by right].
Qed.

(** *** Dry runs *)

Definition reads (e : event) : Prop :=
  match e with EvEntries _ | EvObjects _ | EvActive _ => True | _ => False end.

Lemma runs_read {A B} P c (ev : result error A -> event) (m : M W error A) (k : A -> RL B) :
  (forall r, reads (ev r)) -> (forall a, runs (after [ev (Ok a)] P) (k a) (fun _ delta => List.Forall reads delta)) ->
  runs P (mthen (failing c (call (logged ev m))) k) (fun _ delta => List.Forall reads delta).
Proof.
  intros Hr Hk. eapply runs_then; [apply runs_failing, (runs_call P ev)| |].
  - intros log r _. by generalize (Hr r); destruct (ev r).
  - intros a ? ->. eapply runs_weaken; [apply Hk|done|]. intros r d2 H2.
    apply List.Forall_app. split; [done|]. by repeat constructor.
  - intros e delta (e' & ->). by repeat constructor.
Qed.

Lemma runs_dryRun objects P : runs P (dryRun rc objects now) (fun _ delta => List.Forall reads delta).
Proof.
  unfold dryRun. apply runs_read; [done|]. intros existing. apply runs_read; [done|]. intros decisions.
  apply runs_lift; [|by constructor]. intros active _. by apply runs_count.
Qed.

(** *** The run *)

(** What the calls of a run satisfy, by its options. *)
Definition run_calls (options : RunOptions) (log : list event) : Prop :=
  ro_DryRun options = true -> List.Forall reads log.

Lemma runs_run_body options :
  runs (fun log => log = []) (run_body rc options now) (fun _ delta => run_calls options delta).
Proof.
  unfold run_body. apply runs_lift; [intros _ _|by constructor]. apply runs_lift; [intros _ _|by constructor].
  eapply runs_then; [|intros entries d1 H1|intros e delta Hd].
  - instantiate (1 := fun r delta => List.Forall reads delta /\ match r with Ok _ => undisturbed delta | Err _ => True end).
    destruct (negb (ro_OverrideEntries options)); [|apply runs_ret; split; [constructor|apply undisturbed_nil]].
    eapply runs_weaken; [apply runs_failing, (runs_call (fun log => log = []) EvEntries); done|done|].
    intros [a|e]; [intros ? ->; split; [by repeat constructor|settle]|intros ? (e' & ->); split; [by repeat constructor|exact I]].
  - destruct H1 as [H1 Hs]. apply runs_lift; [intros [objects summary] _|by intros e _ _]. apply runs_then_count. cbn [fst snd].
    destruct (ro_DryRun options) eqn:Ed.
    + eapply runs_weaken; [apply runs_dryRun|done|]. intros r d2 H2 _. apply List.Forall_app.
      split; [exact H2|exact H1].
    + eapply runs_weaken; [apply runs_enforce| |].
      * intros log (log0 & -> & ->). by rewrite app_nil_r.
      * intros r d2 _. unfold run_calls. by rewrite Ed.
  - by intros _; apply Hd.
Qed.

Lemma run_protocol options w out w' log :
  Run rc options now false (w, []) = (out, (w', log)) -> valid log /\ run_calls options log.
Proof.
  unfold Run. destruct (run_body rc options now (MkRW (w, []) no_report)) as [r s] eqn:E. intros [= _ Hs].
  destruct (runs_run_body options _ _ _ E I eq_refl) as (Hv & delta & Hd & Hc).
  destruct s as [ws rs]. cbn in Hs. subst ws. cbn in Hv, Hd. rewrite app_nil_r in Hd. by subst.
Qed.
End Protocol.
