(* ===== verification/ReconcileRun.v ===== *)
(** * The reconciler with its store and its client

    The reconciler composed with the store of this development, the client
    over a transport, and a source of tokens: the invariants of the store hold
    after any run, whatever the server answers and wherever the store fails;
    and whole runs against the in-memory server, evaluated. *)

From S2P Require Export StateHistory ReconcileProtocol MockServer.

(** ** Composition *)

Definition on_fst {S Y A} (m : M S error A) : M (S * Y) error A :=
  fun sy => let '(r, s) := m sy.1 in (r, (s, sy.2)).
Definition on_snd {S Y A} (m : M Y error A) : M (S * Y) error A :=
  fun sy => let '(r, y) := m sy.2 in (r, (sy.1, y)).

(** The store, next to the rest of the world. *)
#[export] Instance store_and {Y} : StateStore (SW * Y) := {|
  s_ListActiveEntries := on_fst ListActiveEntries;
  s_ApplyEnforcementPlan objects now := on_fst (ApplyEnforcementPlan objects now);
  s_ListEnforcementObjects := on_fst ListEnforcementObjects;
  s_ListActiveDecisions := on_fst ListActiveDecisions;
  s_ListLiveDecisions := on_fst ListLiveDecisions;
  s_MarkDecisionExpired row now := on_fst (MarkDecisionExpired row now);
  s_BeginOperation op := on_fst (BeginOperation op);
  s_OpenOperations := on_fst OpenOperations;
  s_RecordVerifiedOperation token alert now := on_fst (RecordVerifiedOperation token alert now);
  s_CompleteOperation token now := on_fst (CompleteOperation token now);
  s_SetOperationStatus token status category now := on_fst (SetOperationStatus token status category now) |}.

#[export] Instance lapi_and {S Y} `{!LapiClient Y} : LapiClient (S * Y) := {|
  l_CreateAlert request := on_snd (l_CreateAlert request);
  l_GetAlert id := on_snd (l_GetAlert id);
  l_ExpireDecision id := on_snd (l_ExpireDecision id);
  l_FindOperation feedName token := on_snd (l_FindOperation feedName token) |}.

#[export] Instance token_and {S Y} `{!TokenSource Y} : TokenSource (S * Y) := {| t_token := on_snd t_token |}.

(** The client, next to a source of tokens. *)
Definition client_and {X B Y} `{!Codec B} `{!Transport X B} (c : Client) : LapiClient (CW X * Y) := {|
  l_CreateAlert request := on_fst (CreateAlert c request);
  l_GetAlert id := on_fst (GetAlert c id);
  l_ExpireDecision id := on_fst (ExpireDecision c id);
  l_FindOperation feedName token := on_fst (FindOperation c feedName token) |}.

(** A list of tokens to come. *)
#[export] Instance token_list {S} : TokenSource (S * list string) := {|
  t_token sy := match sy.2 with
                | [] => (Err (Foreign "no token"), sy)
                | t :: rest => (Ok t, (sy.1, rest))
                end |}.

(** ** A run against the in-memory server *)

Definition ex_credentials : Credentials := MkCredentials "crowdshield-test" "mock-password" "https" "/".
Definition ex_client : Client := MkClient ex_credentials "crowdshield/1.0" 65536 (5 * Minute).
Definition ex_reconciler : Reconciler := MkReconciler "crowdshield-test" (24 * Hour) (6 * Hour) 100.
Definition ex_server (now : Time) : Server := newServer (MkMockConfig "crowdshield-test" "mock-password" Hour now).

#[local] Instance ex_lapi : LapiClient (CW Server * list string) := client_and ex_client.

Definition ex_tokens : list string :=
  ["00000000000000000000000000000001"; "00000000000000000000000000000002"; "00000000000000000000000000000003"].

Definition ex_world (now : Time) : SW * (CW Server * list string) :=
  (ex_synced, (MkCW "" zero_time (ex_server now), ex_tokens)).
Definition ex_options : RunOptions := MkRunOptions [] ∅ false false [].

Definition ex_run (now : Time) (w : SW * (CW Server * list string)) :=
  Run ex_reconciler ex_options now false w.

(** ** Invariants of the world through a run *)

Definition objects_wf (objects : list Object) : Prop := List.Forall (fun o => prefix_wf (ob_Prefix o)) objects.
Definition entries_wf (entries : list StoredEntry) : Prop :=
  List.Forall (fun e => prefix_wf (en_Prefix (se_Entry e))) entries.

Section Keeps.
Context {W : Type} `{!StateStore W} `{!LapiClient W} `{!TokenSource W} (rc : Reconciler) (I : W -> Prop).

Definition keepsW {A} (m : M W error A) : Prop := forall w r w', m w = (r, w') -> I w -> I w'.
Definition keepsR {A} (m : R (W := W) A) : Prop := forall s r s', m s = (r, s') -> I (rw_world s) -> I (rw_world s').

(** Every call keeps the invariant, plans of well-formed prefixes included;
    the entries that are read are well formed, unless any plan keeps it. *)
Record calls_keep : Prop := {
  ck_entries : keepsW s_ListActiveEntries;
  ck_entries_wf : (forall w entries w', s_ListActiveEntries w = (Ok entries, w') -> entries_wf entries) \/
    (forall objects now, keepsW (s_ApplyEnforcementPlan objects now));
  ck_plan : forall objects now, objects_wf objects -> keepsW (s_ApplyEnforcementPlan objects now);
  ck_objects : keepsW s_ListEnforcementObjects;
  ck_active : keepsW s_ListActiveDecisions;
  ck_live : keepsW s_ListLiveDecisions;
  ck_mark : forall row now, keepsW (s_MarkDecisionExpired row now);
  ck_begin : forall op, keepsW (s_BeginOperation op);
  ck_open : keepsW s_OpenOperations;
  ck_record : forall token alert now, keepsW (s_RecordVerifiedOperation token alert now);
  ck_complete : forall token now, keepsW (s_CompleteOperation token now);
  ck_status : forall token status category now, keepsW (s_SetOperationStatus token status category now);
  ck_create : forall request, keepsW (l_CreateAlert request);
  ck_get : forall id, keepsW (l_GetAlert id);
  ck_expire : forall id, keepsW (l_ExpireDecision id);
  ck_find : forall feedName token, keepsW (l_FindOperation feedName token);
  ck_token : keepsW t_token }.

Lemma kr_mok {A} (r : result error A) : keepsR (fun s => (r, s)).
Proof. by intros s r' s' [= _ <-]. Qed.
Lemma kr_count f : keepsR (count f).
Proof. by intros s r s' [= _ <-]. Qed.
Lemma kr_call {A} (m : M W error A) : keepsW m -> keepsR (call m).
Proof. intros Hm s r s'. unfold call. destruct (m (rw_world s)) as [r0 w0] eqn:E. intros [= _ <-]. by apply (Hm _ _ _ E). Qed.
Lemma kr_try {A B} (m : R A) (k : result error A -> R B) :
  keepsR m -> (forall r, keepsR (k r)) -> keepsR (mtry m k).
Proof.
  intros Hm Hk s r s' H Hi. unfold mtry in H. destruct (m s) as [r1 s1] eqn:E. eapply Hk; [exact H|]. by eapply Hm.
Qed.
(** The rest may use what the first call returned. *)
Lemma kr_then_from {A B} (m : R A) (k : A -> R B) :
  keepsR m -> (forall s a s', m s = (Ok a, s') -> keepsR (k a)) -> keepsR (mthen m k).
Proof.
  intros Hm Hk s r s' H Hi. unfold mthen in H. destruct (m s) as [[a|e] s1] eqn:E.
  - eapply Hk; [exact E|exact H|]. by eapply Hm.
  - injection H as <- <-. by eapply Hm.
Qed.
Lemma kr_then {A B} (m : R A) (k : A -> R B) : keepsR m -> (forall a, keepsR (k a)) -> keepsR (mthen m k).
Proof. intros Hm Hk. by apply kr_then_from. Qed.
Lemma kr_for {A} (body : A -> R unit) xs : (forall x, keepsR (body x)) -> keepsR (mfor body xs).
Proof. intros Hb. induction xs as [|x xs IH]; cbn [mfor]; [apply kr_mok|]. by apply kr_then. Qed.
Lemma kr_fold {A B} (body : B -> A -> R B) xs : (forall b x, keepsR (body b x)) -> forall b, keepsR (mfold body b xs).
Proof. intros Hb. induction xs as [|x xs IH]; intros b; cbn [mfold]; [apply kr_mok|]. by apply kr_then. Qed.

Context (Hc : calls_keep).

Ltac keeps_step :=
  match goal with
  | |- forall _, _ => intros ?
  | |- keepsR (mthen _ _) => apply kr_then
  | |- keepsR (mtry _ _) => apply kr_try
  | |- keepsR (mfor _ _) => apply kr_for
  | |- keepsR (mfold _ _ _) => apply kr_fold
  | |- keepsR (mok _) => apply kr_mok
  | |- keepsR (mfail _) => apply kr_mok
  | |- keepsR (count _) => apply kr_count
  | |- keepsR (failing _ _) => unfold failing
  | |- keepsR (ignoring _) => unfold ignoring
  | |- keepsR (lift_r ?x) => unfold lift_r
  | |- keepsR (call _) => apply kr_call; apply Hc
  | |- keepsR (match ?x with _ => _ end) => destruct x
  end.
Ltac keeps_tac := repeat keeps_step.

Lemma kr_expireOwned d now : keepsR (expireOwned rc d now).
Proof. unfold expireOwned, mark_expired_decision. keeps_tac. Qed.
Lemma kr_finishVerified op now : keepsR (finishVerified rc op now).
Proof. unfold finishVerified, finish_item. keeps_tac. apply kr_expireOwned. Qed.
Lemma kr_createForOperation op records now : keepsR (createForOperation rc op records now).
Proof. unfold createForOperation, ambiguous. keeps_tac. apply kr_finishVerified. Qed.
Lemma kr_recover records now : keepsR (recover rc records now).
Proof.
  unfold recover, recover_operation. keeps_tac; try apply kr_finishVerified. apply kr_createForOperation.
Qed.
Lemma kr_plan_record now active st record : keepsR (plan_record rc now active st record).
Proof. unfold plan_record, plan_desired, mark_expired_decision. keeps_tac. Qed.
Lemma kr_run_batch records now key first batch : keepsR (run_batch rc records now key first batch).
Proof. unfold run_batch, newOperation. keeps_tac. apply kr_createForOperation. Qed.
Lemma kr_run_plan records now plan : keepsR (run_plan rc records now plan).
Proof.
  unfold run_plan, run_group, run_removal. keeps_tac; [apply kr_run_batch|apply kr_expireOwned].
Qed.
Lemma kr_enforce objects now : keepsW (s_ApplyEnforcementPlan objects now) -> keepsR (enforce rc objects now).
Proof.
  intros Ho. unfold enforce. apply kr_then; [|intros records].
  { unfold failing. apply kr_try; [by apply kr_call|keeps_tac]. }
  keeps_tac; [apply kr_recover|apply kr_plan_record|apply kr_run_plan].
Qed.

(** The objects of the plan are well formed when the entries are. *)
Lemma build_candidates_wf order entries : forall st,
  entries_wf entries -> List.Forall (fun c => prefix_wf (cd_Prefix c)) (build_candidates order st entries).
Proof.
  induction entries as [|e es IH]; intros st H; cbn [build_candidates]; [constructor|].
  inversion H; subst. destruct (feed_order order (se_FeedID e) st) as [n st']. constructor; [done|]. by apply IH.
Qed.

Lemma buildObjects_wf entries allowlists order objects summary :
  entries_wf entries -> buildObjects entries allowlists order = Ok (objects, summary) -> objects_wf objects.
Proof.
  intros He. unfold buildObjects. destruct (negb _); [done|]. set (cs := build_candidates _ _ _).
  destruct (BuildDesired cs allowlists) as [objs sum] eqn:E. intros [= <- <-]. apply List.Forall_forall. intros o Ho.
  assert (In o (BuildDesired cs allowlists).1) as Hin by (by rewrite E).
  apply in_BuildDesired in Hin as (p & (c & Hc' & _ & <-)%of_prefix_ne & ->).
  rewrite ob_Prefix_cover_one, ob_Prefix_object_of, bd_prefix_build. apply Masked_wf.
  by apply (proj1 (List.Forall_forall _ _) (build_candidates_wf order entries (∅, 0) He)).
Qed.

Lemma kr_run_body options now : keepsR (run_body rc options now).
Proof.
  unfold run_body. apply kr_then; [keeps_tac|intros _].
  destruct (ro_OverrideEntries options && negb (ro_DryRun options)) eqn:Eo; [apply (kr_mok (Err _))|].
  apply kr_then; [keeps_tac|intros _]. apply kr_then_from; [keeps_tac|]. intros s entries s' E.
  destruct (buildObjects _ _ _) as [[objects summary]|e] eqn:Eb; [|apply (kr_mok (Err e))].
  apply kr_then_from; [keeps_tac|]. intros s1 plan s2 [= <- _]. apply kr_then; [keeps_tac|intros _].
  destruct (ro_DryRun options).
  - unfold dryRun. keeps_tac.
  - apply kr_enforce. destruct (ck_entries_wf Hc) as [Hwf|Hplan]; [|apply Hplan]. apply ck_plan; [done|].
    eapply buildObjects_wf; [|exact Eb]. destruct (ro_OverrideEntries options); [done|].
    cbn [negb] in E. unfold failing, mtry, call in E. destruct (s_ListActiveEntries _) as [[es|e] w1] eqn:E1; [|done].
    injection E as <- <-. by eapply Hwf.
Qed.

Lemma run_keeps options now running w out w' : Run rc options now running w = (out, w') -> I w -> I w'.
Proof.
  unfold Run. destruct running; [by intros [= _ <-]|].
  destruct (run_body rc options now (MkRW w no_report)) as [r s] eqn:E. intros [= _ <-] Hi.
  by apply (kr_run_body options now _ _ _ E).
Qed.
End Keeps.

(** A dry run makes three calls only. *)
Lemma run_dry_keeps {W} `{!StateStore W} `{!LapiClient W} `{!TokenSource W} rc (I : W -> Prop) options now w out w' :
  keepsW I s_ListActiveEntries -> keepsW I s_ListEnforcementObjects -> keepsW I s_ListActiveDecisions ->
  ro_DryRun options = true -> Run rc options now false w = (out, w') -> I w -> I w'.
Proof.
  intros He Ho Hd Hdry H. unfold Run in H. destruct (run_body _ _ _ _) as [r s] eqn:E. injection H as _ <-.
  assert (keepsR I (run_body rc options now)) as Hk; [|by apply (Hk _ _ _ E)].
  unfold run_body. rewrite Hdry. unfold lift_r, failing, dryRun.
  repeat first
    [ progress unfold lift_r | apply kr_then; [|intros ?] | apply kr_try; [|intros ?] | apply kr_count | apply kr_mok | apply (kr_mok I (Err _))
    | apply kr_call; assumption
    | match goal with |- keepsR _ (match ?x with _ => _ end) => destruct x end ].
Qed.

(** ** The store's invariants through a run *)

Lemma scanStoredEntry_wf row entry : scanStoredEntry row = Ok entry -> prefix_wf (en_Prefix (se_Entry entry)).
Proof.
  destruct row as [[[feed name] [raw kindValue]] r]. unfold scanStoredEntry.
  destruct (NormalizePrefix raw) as [p|e] eqn:E; [|done]. destruct (_ || _); [done|].
  destruct (checkedNetworkKind kindValue); [|done]. destruct (negb _); [done|]. intros [= <-]. cbn.
  by apply NormalizePrefix_Ok in E as [].
Qed.

Lemma scan_entries_wf rows : forall entries, scan_entries rows = Ok entries -> entries_wf entries.
Proof.
  induction rows as [|row rows IH]; intros entries; cbn [scan_entries]; [intros [= <-]; constructor|].
  destruct (scanStoredEntry row) as [entry|e] eqn:E; [|done]. unfold rbind.
  destruct (scan_entries rows) as [es|e]; [|done]. intros [= <-].
  constructor; [by eapply scanStoredEntry_wf|by apply IH].
Qed.

(** The calls of the store a run makes. *)
Definition run_store_call (c : store_call) : Prop :=
  match c with inl c => call_wf c | inr CallListActiveEntries => True | inr _ => False end.

(** A property of the database that these calls keep. *)
Definition kept_by_calls (J : DB -> Prop) : Prop :=
  forall c w r w', run_store_call c -> store_exec c w = (r, w') -> J (sw_db w) -> J (sw_db w').

Lemma keepsW_fst {Y A} J (m : Store A) (c : store_call) :
  kept_by_calls J -> run_store_call c -> (forall w, (store_exec c w).2 = (m w).2) ->
  keepsW (W := SW * Y) (fun w => J (sw_db w.1)) (on_fst m).
Proof.
  intros HJ Hwf Hm [w y] r [w' y'] H Hok. unfold on_fst in H. cbn in H. destruct (m w) as [r0 w0] eqn:E.
  injection H as _ <- _. cbn in *. eapply (HJ c w); [exact Hwf| |exact Hok].
  rewrite (surjective_pairing (store_exec c w)), Hm, E. done.
Qed.

Lemma keepsW_snd {Y A} (m : M Y error A) (I : SW -> Prop) : keepsW (W := SW * Y) (fun w => I w.1) (on_snd m).
Proof. intros [w y] r [w' y'] H Hok. unfold on_snd in H. cbn in H. destruct (m y). by injection H as _ <- _. Qed.

Lemma void_world {A} (m : Store A) w : (void m w).2 = (m w).2.
Proof. unfold void, mthen. by destruct (m w) as [[a|e] w']. Qed.

Lemma store_calls_keep {Y} `{!LapiClient Y} `{!TokenSource Y} J : kept_by_calls J ->
  calls_keep (W := SW * Y) (fun w => J (sw_db w.1)).
Proof.
  intros HJ. split; intros; try apply (keepsW_snd _ (fun w => J (sw_db w))).
  - by apply (keepsW_fst J _ (inr CallListActiveEntries)); [..|intros; apply void_world].
  - left. intros w entries w' H. cbn in H. unfold on_fst in H. destruct (ListActiveEntries w.1) as [r0 w0] eqn:E. injection H as -> <-.
    unfold ListActiveEntries, queryEntries in E. apply mthen_ok in E as (rows & w1 & _ & E).
    unfold lift in E. destruct (scan_entries rows) as [es|e] eqn:Es; [|done].
    injection E as <- <-. by eapply scan_entries_wf.
  - by apply (keepsW_fst J _ (inl (CallApplyEnforcementPlan objects now))); [..|intros; apply void_world].
  - by apply (keepsW_fst J _ (inl CallListEnforcementObjects)); [..|intros; apply void_world].
  - by apply (keepsW_fst J _ (inl CallListActiveDecisions)); [..|intros; apply void_world].
  - by apply (keepsW_fst J _ (inl CallListLiveDecisions)); [..|intros; apply void_world].
  - by apply (keepsW_fst J _ (inl (CallMarkDecisionExpired row now))).
  - by apply (keepsW_fst J _ (inl (CallBeginOperation op))).
  - by apply (keepsW_fst J _ (inl CallOpenOperations)); [..|intros; apply void_world].
  - by apply (keepsW_fst J _ (inl (CallRecordVerifiedOperation token alert now))); [..|intros; apply void_world].
  - by apply (keepsW_fst J _ (inl (CallCompleteOperation token now))).
  - by apply (keepsW_fst J _ (inl (CallSetOperationStatus token status category now))).
Qed.

Lemma store_ok_kept : kept_by_calls store_ok.
Proof.
  intros c w r w' Hc H Hok. eapply store_exec_ok; [|exact H|exact Hok].
  destruct c as [c|[]]; cbn in Hc |- *; try done; exact I.
Qed.

(** A run leaves the feeds and their entries alone. *)
Lemma feeds_kept t : kept_by_calls (fun d => (db_feeds d, db_entries d) = t).
Proof.
  intros c w r w' Hc H <-. destruct c as [c|c]; cbn in Hc, H.
  - exact (exec_does _ same_feeds_statements c Hc _ _ _ H).
  - destruct c; try done. cbn [feed_exec] in H. revert w r w' H.
    change (does (same (fun d => (db_feeds d, db_entries d))) (void ListActiveEntries)).
    unfold void, ListActiveEntries, queryEntries. does_tac.
Qed.

Lemma Run_same_feeds {Y} `{!LapiClient Y} `{!TokenSource Y} rc options now running (w : SW * Y) out w' :
  Run rc options now running w = (out, w') ->
  db_feeds (sw_db w'.1) = db_feeds (sw_db w.1) /\ db_entries (sw_db w'.1) = db_entries (sw_db w.1).
Proof.
  intros H. pose proof (run_keeps rc _ (store_calls_keep _ (feeds_kept _)) options now running w out w' H eq_refl) as E.
  by injection E.
Qed.

(** The invariants of the store hold after any run, with any options, on
    any server and source of tokens, and wherever statements of the store
    fail. *)
Theorem Run_store_ok {Y} `{!LapiClient Y} `{!TokenSource Y} rc options now running
    (w : SW * Y) out w' :
  store_ok (sw_db w.1) -> Run rc options now running w = (out, w') -> store_ok (sw_db w'.1).
Proof.
  intros Hok H. exact (run_keeps rc _ (store_calls_keep store_ok store_ok_kept) options now running w out w' H Hok).
Qed.

Lemma ex_synced_store_ok : store_ok (sw_db ex_synced).
Proof.
  unfold ex_synced. set (d := MkSW (sw_db (feed_exec _ _).2) []).
  assert (store_ok (sw_db d)) as Hd.
  { cbn [sw_db d]. eapply (store_exec_ok (inr (CallEnsureFeeds _ _))); [done|apply surjective_pairing|].
    split; [exact ex_db_ok|exact ex_feeds_ok]. }
  assert (forall (m : Store unit) w, (mthen m (fun _ => mok tt) w).2 = (m w).2) as Hm.
  { intros m w. unfold mthen. by destruct (m w) as [[[]|e] w']. }
  unfold apply_snapshots. cbn [mfor]. rewrite Hm. cbn [fst snd].
  eapply (store_exec_ok (inr (CallApplyFeedSnapshot "ranges" (ex_snapshot ex_entries) 2 ex_now)));
    [exact ex_entries_wf|apply surjective_pairing|exact Hd].
Qed.

Lemma Run_store_ok_witness :
  exists out w', Run ex_reconciler ex_options ex_now false (ex_world ex_now) = (out, w') /\
    rp_Added out.1 = 2 /\ out.2 = None /\ store_ok (sw_db w'.1).
Proof.
  destruct (Run ex_reconciler ex_options ex_now false (ex_world ex_now)) as [out w'] eqn:E. exists out, w'.
  assert (rp_Added out.1 = 2 /\ out.2 = None) as [H1 H2].
  { change out with ((out, w').1). rewrite <- E. by split; vm_compute. }
  split_and!; [done|exact H1|exact H2|].
  apply (Run_store_ok ex_reconciler ex_options ex_now false (ex_world ex_now) out w'); [|exact E].
  exact ex_synced_store_ok.
Defined.

(** ** The protocol of a run *)

Section Protocol.
Context {W : Type} `{!StateStore W} `{!LapiClient W} `{!TokenSource W}.

(** C3: a run deletes a decision from the local API only right after it read
    the decision's alert, found the machine, the scenario, the origin, the
    type, the scope and the value of its own record there, not yet expired;
    and only for a decision that a verified operation replaces, or for one whose
    object the plan does not want, when nothing had failed before the first such
    removal: every call had succeeded, every answer had been accepted and every
    operation begun or found open had come to its end.  A removal that fails
    does not keep the others from being tried. *)
Theorem run_expires_owned rc options now w out w' log later id r earlier :
  Run (W := LW W) rc options now false (w, []) = (out, (w', log)) ->
  log = later ++ EvExpire id r :: earlier ->
  exists d, dr_DecisionID d = id /\ owned rc now d earlier.
Proof.
  intros H ->. apply run_protocol in H as [Hv _]. exact (valid_In _ _ _ _ _ Hv).
Qed.

(** C4: a run creates an alert only for an operation in the journal, with the
    operation's feed, token and duration, and with one decision for each of its
    items, in order: the scope and the value of the item's object, a record of the
    plan that this run stored, and desired there. *)
Theorem run_creates_journaled rc options now w out w' log later request r earlier :
  Run (W := LW W) rc options now false (w, []) = (out, (w', log)) ->
  log = later ++ EvCreate request r :: earlier ->
  exists op objects records, journaled op earlier /\ In (EvPlan objects now (Ok records)) earlier /\
    Forall2 (desired_input records) (op_Items op) (cr_Decisions request) /\
    request = MkCreateRequest (op_FeedName op) (op_Token op) (op_Duration op) (cr_Decisions request).
Proof.
  intros H ->. apply run_protocol in H as [Hv _]. exact (valid_In _ _ _ _ _ Hv).
Qed.

(** a run records decisions only from an alert that it has just read and
    that [verifiedAlert] accepts for a journaled operation, just after its
    creation or when the search found it. *)
Theorem run_records_read rc options now w out w' log later token alert t r earlier :
  Run (W := LW W) rc options now false (w, []) = (out, (w', log)) ->
  log = later ++ EvRecord token alert t r :: earlier -> t = now /\ read_alert rc now token alert earlier.
Proof.
  intros H ->. apply run_protocol in H as [Hv _]. exact (valid_In _ _ _ _ _ Hv).
Qed.

(** A run completes only journaled operations whose decisions were
    verified, in this run or before. *)
Theorem run_completes_verified rc options now w out w' log later token t r earlier :
  Run (W := LW W) rc options now false (w, []) = (out, (w', log)) ->
  log = later ++ EvComplete token t r :: earlier ->
  t = now /\ exists op, op_Token op = token /\ journaled op earlier /\ verified now op earlier.
Proof.
  intros H ->. apply run_protocol in H as [Hv _]. exact (valid_In _ _ _ _ _ Hv).
Qed.

(** a run marks a decision as expired only when its alert is unknown to
    the local API, or the remote decision is its own and expired, or the
    deletion that just returned removed it or did not find it, or it is past
    its own expiry. *)
Theorem run_marks_gone rc options now w out w' log later row t r earlier :
  Run (W := LW W) rc options now false (w, []) = (out, (w', log)) ->
  log = later ++ EvMark row t r :: earlier -> t = now /\ gone rc now row earlier.
Proof.
  intros H ->. apply run_protocol in H as [Hv _]. exact (valid_In _ _ _ _ _ Hv).
Qed.

(** A dry run only reads the store: it sends nothing to the local API,
    draws no token and writes nothing. *)
Theorem dry_run_reads rc options now w out w' log :
  ro_DryRun options = true ->
  Run (W := LW W) rc options now false (w, []) = (out, (w', log)) -> List.Forall reads log.
Proof. intros Hd H. apply run_protocol in H as [_ Hc]. by apply Hc. Qed.
End Protocol.

(** *** Two runs: the decisions are created, then one of them is removed *)

#[local] Abbreviation ExWorld := (SW * (CW Server * list string))%type.

Definition ex_first : (Report * option error) * LW ExWorld :=
  Run (W := LW ExWorld) ex_reconciler ex_options ex_now false (ex_world ex_now, []).
Definition ex_allow : RunOptions := MkRunOptions [MkPrefix (Addr4 134744064) 24] ∅ false false [].
Definition ex_second : (Report * option error) * LW ExWorld :=
  Run (W := LW ExWorld) ex_reconciler ex_allow ex_now false (ex_first.2.1, []).

Definition ex_log1 : list event := Eval vm_compute in ex_first.2.2.
Definition ex_log2 : list event := Eval vm_compute in ex_second.2.2.

Lemma ex_first_log : ex_first.2.2 = ex_log1.
Proof. by vm_compute. Qed.
Lemma ex_second_log : ex_second.2.2 = ex_log2.
Proof. by vm_compute. Qed.

Lemma run_expires_owned_witness :
  exists later r earlier d, ex_log2 = later ++ EvExpire 2 r :: earlier /\
    dr_DecisionID d = 2 /\ owned ex_reconciler ex_now d earlier.
Proof.
  destruct (run_expires_owned ex_reconciler ex_allow ex_now (ex_first.2.1) ex_second.1 ex_second.2.1 ex_log2
    (take 1 ex_log2) 2 (Ok tt) (drop 2 ex_log2)) as (d & Hd & Ho).
  - rewrite <- ex_second_log. unfold ex_second. by destruct (Run _ _ _ _ _) as [out [w' log]].
  - reflexivity.
  - exists (take 1 ex_log2), (Ok tt), (drop 2 ex_log2), d. split_and!; [reflexivity|exact Hd|exact Ho].
Defined.

Lemma run_creates_journaled_witness :
  exists later request r earlier op, ex_log1 = later ++ EvCreate request r :: earlier /\
    journaled op earlier /\ op_Token op = cr_OperationToken request.
Proof.
  destruct (List.nth_error ex_log1 3) as [e|] eqn:E; [|discriminate]. destruct e as [| | | | | | | | | | |request r| | | |];
    try discriminate.
  destruct (run_creates_journaled ex_reconciler ex_options ex_now (ex_world ex_now) ex_first.1 ex_first.2.1 ex_log1
    (take 3 ex_log1) request r (drop 4 ex_log1)) as (op & objects & records & Hj & _ & _ & Hr).
  - rewrite <- ex_first_log. unfold ex_first. by destruct (Run _ _ _ _ _) as [out [w' log]].
  - injection E as <- <-. reflexivity.
  - exists (take 3 ex_log1), request, r, (drop 4 ex_log1), op.
    split_and!; [injection E as <- <-; reflexivity|exact Hj|by rewrite Hr].
Defined.

Lemma run_records_read_witness :
  exists later token alert r earlier, ex_log1 = later ++ EvRecord token alert ex_now r :: earlier /\
    read_alert ex_reconciler ex_now token alert earlier.
Proof.
  destruct (List.nth_error ex_log1 1) as [e|] eqn:E; [|discriminate].
  destruct e as [| | | | | | | |token alert t r| | | | | | |]; try discriminate.
  destruct (run_records_read ex_reconciler ex_options ex_now (ex_world ex_now) ex_first.1 ex_first.2.1 ex_log1
    (take 1 ex_log1) token alert t r (drop 2 ex_log1)) as (-> & Hr).
  - rewrite <- ex_first_log. unfold ex_first. by destruct (Run _ _ _ _ _) as [out [w' log]].
  - injection E as <- <- <- <-. reflexivity.
  - exists (take 1 ex_log1), token, alert, r, (drop 2 ex_log1).
    split; [injection E as <- <- <-; reflexivity|exact Hr].
Defined.

Lemma run_completes_verified_witness :
  exists token r earlier op, ex_log1 = [] ++ EvComplete token ex_now r :: earlier /\
    op_Token op = token /\ journaled op earlier /\ verified ex_now op earlier.
Proof.
  destruct (List.nth_error ex_log1 0) as [e|] eqn:E; [|discriminate].
  destruct e as [| | | | | | | | |token t r| | | | | |]; try discriminate.
  destruct (run_completes_verified ex_reconciler ex_options ex_now (ex_world ex_now) ex_first.1 ex_first.2.1 ex_log1
    [] token t r (drop 1 ex_log1)) as (-> & op & H1 & H2 & H3).
  - rewrite <- ex_first_log. unfold ex_first. by destruct (Run _ _ _ _ _) as [out [w' log]].
  - injection E as <- <- <-. reflexivity.
  - exists token, r, (drop 1 ex_log1), op.
    split_and!; [injection E as <- <-; reflexivity|exact H1|exact H2|exact H3].
Defined.

Lemma run_marks_gone_witness :
  exists earlier, ex_log2 = [] ++ EvMark 2 ex_now (Ok tt) :: earlier /\ gone ex_reconciler ex_now 2 earlier.
Proof.
  destruct (run_marks_gone ex_reconciler ex_allow ex_now (ex_first.2.1) ex_second.1 ex_second.2.1 ex_log2
    [] 2 ex_now (Ok tt) (drop 1 ex_log2)) as (_ & Hg).
  - rewrite <- ex_second_log. unfold ex_second. by destruct (Run _ _ _ _ _) as [out [w' log]].
  - reflexivity.
  - exists (drop 1 ex_log2). split; [reflexivity|exact Hg].
Defined.

Definition ex_dry : RunOptions := MkRunOptions [] ∅ true false [].

Lemma dry_run_reads_witness :
  exists out w' log, Run (W := LW ExWorld) ex_reconciler ex_dry ex_now false (ex_world ex_now, []) = (out, (w', log)) /\
    rp_Added out.1 = 2 /\ List.Forall reads log.
Proof.
  destruct (Run (W := LW ExWorld) ex_reconciler ex_dry ex_now false (ex_world ex_now, [])) as [out [w' log]] eqn:E.
  exists out, w', log. split_and!; [reflexivity| |].
  - assert (rp_Added (Run (W := LW ExWorld) ex_reconciler ex_dry ex_now false (ex_world ex_now, [])).1.1 = 2) as H
      by (by vm_compute).
    by rewrite E in H.
  - apply (dry_run_reads ex_reconciler ex_dry ex_now (ex_world ex_now) out w' log); [reflexivity|exact E].
Defined.
