(* ===== verification/Backoff.v ===== *)
(** * The delay between attempts

    [syncer/engine.go] and [scheduler/scheduler.go] compute their backoff with
    the same loop: the delay doubles with every failed attempt, up to the
    maximum, without ever overflowing. *)

From S2P Require Export Errors.

(** One turn of the loop. *)
Definition next_delay (maximum delay : Duration) : Duration :=
  if Z.quot maximum 2 <? delay then maximum else delay * 2.

(** [for ...; attempt < n && delay < maximum; attempt++] *)
Fixpoint backoff_loop (n : nat) (maximum delay : Duration) : Duration :=
  match n with
  | O => delay
  | S m => if delay <? maximum then backoff_loop m maximum (next_delay maximum delay) else delay
  end.

(** The delay after [n] failures, in closed form. *)
Lemma backoff_loop_spec n maximum : forall delay, 0 < delay <= maximum ->
  backoff_loop n maximum delay = Z.min maximum (delay * 2 ^ Z.of_nat n).
Proof.
  induction n as [|n IH]; intros delay H; [cbn; lia|].
  cbn [backoff_loop]. rewrite Nat2Z.inj_succ, Z.pow_succ_r by lia.
  assert (1 <= 2 ^ Z.of_nat n) as Hp by (apply (Z.pow_le_mono_r 2 0); lia).
  destruct (Z.ltb_spec delay maximum) as [Hd|Hd]; [|nia].
  unfold next_delay. rewrite Z.quot_div_nonneg by lia.
  pose proof (Z.div_mod maximum 2 ltac:(lia)). pose proof (Z.mod_pos_bound maximum 2 ltac:(lia)).
  destruct (Z.ltb_spec (maximum / 2) delay).
  - rewrite IH by lia. nia.
  - rewrite IH by lia. f_equal. nia.
Qed.
