(* ===== verification/Config.v ===== *)
(** * The configuration ([internal/config])

    The settings, their defaults, and [Validate], which checks every bound and
    brings the allowlist, the hosts and the feeds to their canonical form.
    Parsing a URL and folding the case of a text that is not ASCII are the
    parameters of the model. *)

From S2P Require Export Feed NetIPText.

Module config.
Inductive ErrorCategory : Type :=
| ErrConfigSize | ErrYAML | ErrYAMLDocument | ErrEnvironment | ErrDuration | ErrFeedName | ErrFeedURL
| ErrFeedThreshold | ErrAllowlist | ErrPath | ErrServer | ErrNotification | ErrValidation.
End config.

(** An [*Error]: its class, its field, and the index of the item or -1. *)
Record config_error : Type := MkConfigError {
  ce_Category : config.ErrorCategory; ce_Field : string; ce_Index : Z }.

Definition configError (c : config.ErrorCategory) (field : string) : config_error := MkConfigError c field (-1).
Definition indexedError (c : config.ErrorCategory) (field : string) (index : Z) : config_error :=
  MkConfigError c field index.

(** ** Settings *)

Record ServerConfig : Type := MkServerConfig {
  sv_ListenAddress : string; sv_ReadHeaderTimeout : Duration; sv_ReadTimeout : Duration;
  sv_WriteTimeout : Duration; sv_IdleTimeout : Duration; sv_ShutdownTimeout : Duration;
  sv_LAPIUnreachableGrace : Duration; sv_ReadinessMaxSyncAge : Duration }.

Record RetryConfig : Type := MkRetryConfig {
  rt_MaxAttempts : Z; rt_InitialBackoff : Duration; rt_MaxBackoff : Duration }.

Record ScheduleConfig : Type := MkScheduleConfig {
  sc_Interval : Duration; sc_StartupJitter : Duration; sc_RunImmediately : bool; sc_Retry : RetryConfig }.

Record DatabaseConfig : Type := MkDatabaseConfig {
  dbc_Path : string; dbc_BusyTimeout : Duration; dbc_IntegrityCheckOnStart : bool;
  dbc_HistoryRetention : Duration; dbc_MaxHistoryEntries : Z }.

Record CrowdSecConfig : Type := MkCrowdSecConfig {
  cs_CredentialsFile : string; cs_AllowedHTTPHosts : list string; cs_RequestTimeout : Duration;
  cs_ConnectTimeout : Duration; cs_MaxResponseBytes : Z; cs_BatchSize : Z; cs_AuthRefreshBefore : Duration }.

Record DecisionsConfig : Type := MkDecisionsConfig {
  dc_Duration : Duration; dc_MissingGraceRuns : Z; dc_RefreshBefore : Duration }.

Record FeedConfig : Type := MkFeedConfig {
  fc_Name : string; fc_Enabled : bool; fc_URL : string; fc_Format : string; fc_Family : string;
  fc_Timeout : Duration; fc_MaxDownloadBytes : Z; fc_ExpectedMinEntries : Z; fc_ExpectedMaxEntries : Z;
  fc_MaxGrowthRatio : float64; fc_MaxShrinkRatio : float64; fc_Attribution : string;
  fc_MinUpdateInterval : Duration; fc_AllowHTTP : bool; fc_ContentTypes : list string;
  fc_RequireFinalNewline : bool; fc_MaxMalformedLines : Z; fc_MaxMalformedRatio : float64 }.

(** A [CIDR] is its prefix. *)
Record AllowlistsConfig : Type := MkAllowlistsConfig { al_CIDRs : list Prefix }.

Record ValidationConfig : Type := MkValidationConfig {
  vc_AllowHTTP : bool; vc_MaxRedirects : Z; vc_MaxFeeds : Z; vc_MaxFeedNameLength : Z;
  vc_MaxMalformedLines : Z; vc_MaxMalformedRatio : float64; vc_MaxLineBytes : Z; vc_UserAgent : string;
  vc_DNSLookupTimeout : Duration }.

Record LoggingConfig : Type := MkLoggingConfig { lg_Level : string; lg_Format : string }.

Record NotificationsConfig : Type := MkNotificationsConfig {
  nc_Enabled : bool; nc_ServerURL : string; nc_Topic : string; nc_AllowHTTP : bool;
  nc_RequestTimeout : Duration; nc_Cooldown : Duration; nc_MinimumSeverity : string;
  nc_FailureThreshold : Z; nc_RecoveryNotifications : bool; nc_SuspiciousChangeNotifications : bool;
  nc_StaleSyncNotifications : bool; nc_StaleSyncAfter : Duration; nc_StartupNotification : bool;
  nc_SuccessNotification : bool; nc_FirstSuccessNotification : bool; nc_Token : string }.

Record Config : Type := MkConfig {
  cf_Server : ServerConfig; cf_Schedule : ScheduleConfig; cf_Database : DatabaseConfig;
  cf_CrowdSec : CrowdSecConfig; cf_Decisions : DecisionsConfig; cf_Feeds : list FeedConfig;
  cf_Allowlists : AllowlistsConfig; cf_Validation : ValidationConfig; cf_Logging : LoggingConfig;
  cf_Notifications : NotificationsConfig }.

(** ** Texts *)

Definition is_upper (c : ascii) : bool := in_range 65 90 (byte_of c).
Definition is_alnum (c : ascii) : bool := is_digit c || is_lower c || is_upper c.
Definition is_ascii (s : string) : bool := all_chars (fun c => byte_of c <? 128) s.

Fixpoint map_chars (f : ascii -> ascii) (s : string) : string :=
  match s with EmptyString => EmptyString | String c s' => String (f c) (map_chars f s') end.
Definition lower_char (c : ascii) : ascii := if is_upper c then chr (byte_of c + 32) else c.

Fixpoint count_byte (c : ascii) (s : string) : Z :=
  match s with EmptyString => 0 | String d s' => (if Ascii.eqb d c then 1 else 0) + count_byte c s' end.

(** [strings.Split(s, ".")] *)
Fixpoint split_on (c : ascii) (cur s : string) : list string :=
  match s with
  | EmptyString => [cur]
  | String d s' => if Ascii.eqb d c then cur :: split_on c "" s' else split_on c (cur +:+ String d "") s'
  end.

(** [strings.TrimSuffix(s, ".")] *)
Definition trim_dot (s : string) : string := if ends_with "." s then drop_last s else s.

(** [strings.ContainsAny(s, "\r\n\x00")] *)
Definition has_break (s : string) : bool := contains_any ["013"; "010"; "000"]%char s.

(** [^[A-Za-z0-9][A-Za-z0-9._+-]{0,63}$] *)
Definition safeVersion (s : string) : bool :=
  match s with
  | String c s' =>
      is_alnum c && (len s' <=? 63) &&
      all_chars (fun c => is_alnum c || existsb (Ascii.eqb c) ["."; "_"; "+"; "-"]%char) s'
  | EmptyString => false
  end.

(** [^[A-Za-z0-9_-]{1,64}$] *)
Definition topicPattern (s : string) : bool :=
  (1 <=? len s) && (len s <=? 64) && all_chars (fun c => is_alnum c || existsb (Ascii.eqb c) ["_"; "-"]%char) s.

(** [^[A-Za-z0-9](?:[A-Za-z0-9-]{0,61}[A-Za-z0-9])?$] *)
Definition hostLabelPattern (s : string) : bool :=
  match s, last_char s with
  | String c _, Some d =>
      is_alnum c && is_alnum d && (len s <=? 63) && all_chars (fun c => is_alnum c || Ascii.eqb c "-") s
  | _, _ => false
  end.

(** [net.SplitHostPort]: the port is after the last colon, a host with colons
    is in brackets. *)
Definition SplitHostPort (s : string) : option (string * string) :=
  match cut_last_byte ":" s with
  | None => None
  | Some (before, port) =>
      let plain := if contains_byte "[" before || contains_byte "]" before || contains_byte "[" port ||
                      contains_byte "]" port then None else Some (before, port) in
      match s with
      | String "[" rest =>
          match cut_byte "]" rest with
          | None => None
          | Some (host, after) =>
              match after with
              | String ":" port' =>
                  if contains_byte ":" port' || contains_byte "[" host || contains_byte "[" port' ||
                     contains_byte "]" port' then None else Some (host, port')
              | _ => None
              end
          end
      | _ => if contains_byte ":" before then None else plain
      end
  end.

(** [filepath.IsAbs] *)
Definition IsAbs (path : string) : bool := match path with String "/" _ => true | _ => false end.

(** A parsed URL: [url.URL] with the text [Hostname] returns. *)
Record URL : Type := MkURL {
  u_Scheme : string; u_Host : string; u_Hostname : string; u_User : bool; u_Fragment : string }.

(** [url.Parse] ([None] is an error), and [strings.ToLower] of a text that is
    not ASCII. *)
Class TextLibrary : Type := { url_parse : string -> option URL; unicode_lower : string -> string }.

(** ** Defaults *)

Definition userAgent (version : string) : string :=
  let version := trim_space version in
  "crowdshield/" +:+ (if safeVersion version then version else "dev").

Definition float_of (n d : Z) : float64 := float_div (float_of_int n) (float_of_int d).

Definition spamhaus_types : list string := ["text/json"; "application/json"; "application/x-ndjson"].
Definition spamhaus_attribution : string :=
  "The Spamhaus Project DROP; https://www.spamhaus.org/blocklists/do-not-route-or-peer/".

Definition default_feeds : list FeedConfig :=
  [MkFeedConfig "spamhaus-drop-ipv4" true "https://www.spamhaus.org/drop/drop_v4.json" "spamhaus-drop-jsonl" "ipv4"
     (30 * Second) (Z.shiftl 2 20) 500 5000 (float_of 3 2) (float_of 1 2) spamhaus_attribution (24 * Hour) false
     spamhaus_types true 0 (float_of_int 0);
   MkFeedConfig "spamhaus-drop-ipv6" true "https://www.spamhaus.org/drop/drop_v6.json" "spamhaus-drop-jsonl" "ipv6"
     (30 * Second) (Z.shiftl 1 20) 20 1000 (float_of 3 2) (float_of 1 2) spamhaus_attribution (24 * Hour) false
     spamhaus_types true 0 (float_of_int 0);
   MkFeedConfig "firehol-level1" true "https://iplists.firehol.org/files/firehol_level1.netset" "firehol-netset" "ipv4"
     (30 * Second) (Z.shiftl 5 20) 1000 20000 (float_of 3 2) (float_of 1 2)
     "FireHOL Level 1 (DShield, Feodo Tracker, Team Cymru FullBogons, Spamhaus DROP); https://iplists.firehol.org/?ipset=firehol_level1"
     (6 * Hour) false ["application/octet-stream"; "text/plain"] true 0 (float_of_int 0)].

Definition Defaults (version : string) : Config := MkConfig
  (MkServerConfig ":9090" (5 * Second) (10 * Second) (30 * Second) (60 * Second) (10 * Second) (15 * Minute) (12 * Hour))
  (MkScheduleConfig (6 * Hour) (10 * Minute) true (MkRetryConfig 3 (30 * Second) (5 * Minute)))
  (MkDatabaseConfig "/data/crowdshield.db" (5 * Second) true (30 * 24 * Hour) 1000)
  (MkCrowdSecConfig "/run/secrets/crowdshield-lapi-credentials.yaml" [] (15 * Second) (5 * Second) (Z.shiftl 8 20) 250
     (5 * Minute))
  (MkDecisionsConfig (25 * Hour) 2 (12 * Hour))
  default_feeds
  (MkAllowlistsConfig [])
  (MkValidationConfig false 3 32 64 10 (float_of 1 100) (Z.shiftl 64 10) (userAgent version) (5 * Second))
  (MkLoggingConfig "info" "json")
  (MkNotificationsConfig false "" "" false (10 * Second) Hour "warning" 3 true true true (12 * Hour) false false false "").

(** ** Checks *)

Definition check (ok : bool) (e : config_error) : result config_error unit := if ok then Ok tt else Err e.

Definition positiveDuration (d : Duration) : bool := 0 <? d.

Definition validateRetry (field : string) (retry : RetryConfig) : result config_error unit :=
  let? _ := check (negb ((rt_MaxAttempts retry <? 1) || (10 <? rt_MaxAttempts retry)))
              (configError config.ErrValidation (field +:+ ".max_attempts")) in
  check (negb (negb (positiveDuration (rt_InitialBackoff retry)) || negb (positiveDuration (rt_MaxBackoff retry)) ||
               (rt_MaxBackoff retry <? rt_InitialBackoff retry) || (24 * Hour <? rt_MaxBackoff retry)))
    (configError config.ErrDuration (field +:+ ".backoff")).

Definition validateListenAddress (value : string) : result config_error unit :=
  let err := configError config.ErrServer "server.listen_address" in
  match SplitHostPort value with
  | None => Err err
  | Some (host, portText) =>
      let? _ := check (negb (String.eqb portText "")) err in
      match atoi portText with
      | None => Err err
      | Some port =>
          let? _ := check (negb ((port <? 1) || (65535 <? port))) err in
          check (negb (has_break host)) err
      end
  end.

Section Checks.
Context {lib : TextLibrary}.

Definition ToLower (s : string) : string := if is_ascii s then map_chars lower_char s else unicode_lower s.

Definition IsPrivate (a : Addr) : bool :=
  match Unmap a with
  | Addr4 v => (v4u8 v 0 =? 10) || ((v4u8 v 0 =? 172) && (Z.land (v4u8 v 1) 240 =? 16)) ||
               ((v4u8 v 0 =? 192) && (v4u8 v 1 =? 168))
  | Addr6 v _ => Z.land (Z.shiftr (v6u16 v 0) 8) 254 =? 252
  | AddrZero => false
  end.

Definition IsUnspecified (a : Addr) : bool := bool_decide (a = Addr4 0) || bool_decide (a = Addr6 0 "").

Definition unsafeLiteralHost (host : string) : bool :=
  let lower := ToLower (trim_dot host) in
  if String.eqb lower "localhost" || has_suffix ".localhost" lower then true
  else match ParseAddr lower with
       | None => false
       | Some addr =>
           let addr := Unmap addr in
           negb (IsGlobalUnicast addr) || IsPrivate addr || IsLoopback addr || IsLinkLocalUnicast addr ||
           IsMulticast addr || IsUnspecified addr
       end.

Definition validateRemoteURL (field raw : string) (allowHTTP globalHTTP : bool) : result config_error unit :=
  let err := configError config.ErrFeedURL field in
  match url_parse raw with
  | None => Err err
  | Some parsed =>
      let? _ := check (negb (String.eqb (u_Scheme parsed) "") && negb (String.eqb (u_Hostname parsed) "")) err in
      let? _ := check (negb (u_User parsed || negb (String.eqb (u_Fragment parsed) ""))) err in
      let? _ := check (String.eqb (u_Scheme parsed) "https" ||
                       negb (negb (String.eqb (u_Scheme parsed) "http") || negb allowHTTP || negb globalHTTP)) err in
      let? _ := check (negb (unsafeLiteralHost (u_Hostname parsed))) err in
      check (negb (has_break (u_Host parsed))) err
  end.

Definition canonical_host (value : string) : result config_error string :=
  let err := configError config.ErrValidation "crowdsec.allowed_http_hosts" in
  let? _ := check (negb (String.eqb value "" || negb (String.eqb (trim_space value) value) ||
                         contains_any ["013"; "010"; "000"; "/"; "\"; "@"; "?"; "#"]%char value)) err in
  let host := ToLower (trim_dot value) in
  let? _ := check (negb (String.eqb host "" || (253 <? len host))) err in
  match ParseAddr host with
  | Some address => Ok (addr_String (Unmap address))
  | None => let? _ := check (forallb hostLabelPattern (split_on "." "" host)) err in Ok host
  end.

Fixpoint canonical_hosts (seen : gset string) (acc : list string) (values : list string)
  : result config_error (list string) :=
  match values with
  | [] => Ok acc
  | value :: rest =>
      let? host := canonical_host value in
      if bool_decide (host ∈ seen) then canonical_hosts seen acc rest
      else canonical_hosts ({[host]} ∪ seen) (acc ++ [host]) rest
  end.

Definition canonicalHTTPHosts (values : list string) : result config_error (list string) :=
  let? _ := check (negb (16 <? Z.of_nat (List.length values)))
              (configError config.ErrValidation "crowdsec.allowed_http_hosts") in
  let? hosts := canonical_hosts ∅ [] values in
  Ok (sort_func cmp_string hosts).

Definition float_finite (a : float64) : bool := negb (IsNaN a) && negb (IsInf a).

(** The feed is checked with the settings of [validation]. *)
Definition validateFeed (cfg : ValidationConfig) (index : Z) (feed : FeedConfig) : result config_error unit :=
  let err c := indexedError c "feeds" index in
  let? _ := check (negb ((len (fc_Name feed) =? 0) || (vc_MaxFeedNameLength cfg <? len (fc_Name feed)) ||
                         negb (match_feed_name (fc_Name feed)))) (err config.ErrFeedName) in
  let? _ := match validateRemoteURL "feeds.url" (fc_URL feed) (fc_AllowHTTP feed) (vc_AllowHTTP cfg) with
            | Ok _ => Ok tt | Err _ => Err (err config.ErrFeedURL) end in
  let? _ := check (existsb (String.eqb (fc_Format feed)) ["spamhaus-drop-jsonl"; "firehol-netset"; "plain"])
              (err config.ErrValidation) in
  let? _ := check (existsb (String.eqb (fc_Family feed)) ["ipv4"; "ipv6"; "any"]) (err config.ErrValidation) in
  let? _ := check (negb (negb (positiveDuration (fc_Timeout feed)) || (10 * Minute <? fc_Timeout feed) ||
                         negb (positiveDuration (fc_MinUpdateInterval feed)))) (err config.ErrDuration) in
  let? _ := check (negb ((fc_MaxDownloadBytes feed <? 1) || (Z.shiftl 64 20 <? fc_MaxDownloadBytes feed)))
              (err config.ErrFeedThreshold) in
  let? _ := check (negb ((fc_ExpectedMinEntries feed <? 1) || (fc_ExpectedMaxEntries feed <? fc_ExpectedMinEntries feed) ||
                         (10000000 <? fc_ExpectedMaxEntries feed))) (err config.ErrFeedThreshold) in
  let? _ := check (float_finite (fc_MaxGrowthRatio feed) &&
                   negb (float_lt (fc_MaxGrowthRatio feed) (float_of_int 1) ||
                         float_lt (float_of_int 100) (fc_MaxGrowthRatio feed))) (err config.ErrFeedThreshold) in
  let? _ := check (float_finite (fc_MaxShrinkRatio feed) &&
                   negb (float_le (fc_MaxShrinkRatio feed) (float_of_int 0) ||
                         float_lt (float_of_int 1) (fc_MaxShrinkRatio feed))) (err config.ErrFeedThreshold) in
  let? _ := check (negb (fc_MaxMalformedLines feed <? 0) && float_finite (fc_MaxMalformedRatio feed) &&
                   negb (float_lt (fc_MaxMalformedRatio feed) (float_of_int 0) ||
                         float_lt (float_of_int 1) (fc_MaxMalformedRatio feed))) (err config.ErrFeedThreshold) in
  let? _ := check (negb (String.eqb (trim_space (fc_Attribution feed)) "" || (2048 <? len (fc_Attribution feed)) ||
                         has_break (fc_Attribution feed))) (err config.ErrValidation) in
  let? _ := check (negb (bool_decide (fc_ContentTypes feed = []))) (err config.ErrValidation) in
  check (forallb (fun t => negb (String.eqb (trim_space t) "" || has_break t)) (fc_ContentTypes feed))
    (err config.ErrValidation).

(** ** [Validate] *)

(** The first of the settings that is not positive. *)
Fixpoint validate_positive (items : list (string * Duration)) : result config_error unit :=
  match items with
  | [] => Ok tt
  | (field, value) :: rest =>
      let? _ := check (positiveDuration value) (configError config.ErrDuration field) in validate_positive rest
  end.

Definition positive_settings (c : Config) : list (string * Duration) :=
  let s := cf_Server c in let n := cf_Notifications c in
  [("server.read_header_timeout", sv_ReadHeaderTimeout s); ("server.read_timeout", sv_ReadTimeout s);
   ("server.write_timeout", sv_WriteTimeout s); ("server.idle_timeout", sv_IdleTimeout s);
   ("server.shutdown_timeout", sv_ShutdownTimeout s); ("server.lapi_unreachable_grace", sv_LAPIUnreachableGrace s);
   ("server.readiness_max_sync_age", sv_ReadinessMaxSyncAge s); ("schedule.interval", sc_Interval (cf_Schedule c));
   ("database.busy_timeout", dbc_BusyTimeout (cf_Database c));
   ("database.history_retention", dbc_HistoryRetention (cf_Database c));
   ("crowdsec.request_timeout", cs_RequestTimeout (cf_CrowdSec c));
   ("crowdsec.connect_timeout", cs_ConnectTimeout (cf_CrowdSec c));
   ("crowdsec.auth_refresh_before", cs_AuthRefreshBefore (cf_CrowdSec c));
   ("decisions.duration", dc_Duration (cf_Decisions c)); ("decisions.refresh_before", dc_RefreshBefore (cf_Decisions c));
   ("validation.dns_lookup_timeout", vc_DNSLookupTimeout (cf_Validation c));
   ("notifications.request_timeout", nc_RequestTimeout n); ("notifications.cooldown", nc_Cooldown n);
   ("notifications.stale_sync_after", nc_StaleSyncAfter n)]%string.

Definition validate_bounds (c : Config) : result config_error unit :=
  let s := cf_Server c in let d := cf_Database c in let n := cf_Notifications c in let cs := cf_CrowdSec c in
  let err := configError config.ErrDuration in
  let? _ := check (forallb (fun t => negb (10 * Minute <? t))
                     [sv_ReadHeaderTimeout s; sv_ReadTimeout s; sv_WriteTimeout s; sv_IdleTimeout s; sv_ShutdownTimeout s])
              (err "server.timeouts"%string) in
  let? _ := check (negb ((30 * 24 * Hour <? sv_ReadinessMaxSyncAge s) ||
                         (sv_ReadinessMaxSyncAge s <? sv_LAPIUnreachableGrace s))) (err "server.readiness"%string) in
  let? _ := check (negb (30 * 24 * Hour <? sc_Interval (cf_Schedule c))) (err "schedule.interval"%string) in
  let? _ := check (negb ((Minute <? dbc_BusyTimeout d) || (dbc_HistoryRetention d <? Hour) ||
                         (10 * 365 * 24 * Hour <? dbc_HistoryRetention d))) (err "database.timeouts"%string) in
  let? _ := check (negb ((2 * Minute <? cs_RequestTimeout cs) || (Minute <? cs_ConnectTimeout cs)))
              (err "crowdsec.timeouts"%string) in
  let? _ := check (negb ((dc_Duration (cf_Decisions c) <? Minute) || (7 * 24 * Hour <? dc_Duration (cf_Decisions c))))
              (err "decisions.duration"%string) in
  let? _ := check (negb ((2 * Minute <? nc_RequestTimeout n) || (30 * 24 * Hour <? nc_StaleSyncAfter n)))
              (err "notifications.timeouts"%string) in
  check (negb ((sc_StartupJitter (cf_Schedule c) <? 0) || (sc_Interval (cf_Schedule c) <? sc_StartupJitter (cf_Schedule c))))
    (err "schedule.startup_jitter"%string).

Definition validate_database (d : DatabaseConfig) (cs : CrowdSecConfig) : result config_error unit :=
  let? _ := check (negb (negb (IsAbs (dbc_Path d)) || String.eqb (dbc_Path d) "/"))
              (configError config.ErrPath "database.path") in
  let? _ := check (negb ((dbc_MaxHistoryEntries d <? 1) || (1000000 <? dbc_MaxHistoryEntries d)))
              (configError config.ErrValidation "database.max_history_entries") in
  check (IsAbs (cs_CredentialsFile cs)) (configError config.ErrPath "crowdsec.credentials_file").

Definition validate_limits (c : Config) : result config_error unit :=
  let cs := cf_CrowdSec c in let d := cf_Decisions c in let v := cf_Validation c in
  let? _ := check (negb ((cs_MaxResponseBytes cs <? 1024) || (Z.shiftl 64 20 <? cs_MaxResponseBytes cs) ||
                         (cs_BatchSize cs <? 1) || (500 <? cs_BatchSize cs)))
              (configError config.ErrValidation "crowdsec.limits") in
  let? _ := check (negb ((cs_RequestTimeout cs <? cs_ConnectTimeout cs) || (Hour <=? cs_AuthRefreshBefore cs)))
              (configError config.ErrDuration "crowdsec.timeouts") in
  let? _ := check (negb ((dc_MissingGraceRuns d <? 1) || (100 <? dc_MissingGraceRuns d)))
              (configError config.ErrValidation "decisions.missing_grace_runs") in
  let? _ := check (negb (dc_Duration d <=? dc_RefreshBefore d)) (configError config.ErrDuration "decisions.refresh_before") in
  let? _ := check (negb ((vc_MaxRedirects v <? 0) || (10 <? vc_MaxRedirects v) || (vc_MaxFeeds v <? 1) ||
                         (256 <? vc_MaxFeeds v) || (vc_MaxFeedNameLength v <? 1) || (128 <? vc_MaxFeedNameLength v) ||
                         (vc_MaxLineBytes v <? 1024) || (Z.shiftl 1 20 <? vc_MaxLineBytes v) ||
                         (vc_MaxMalformedLines v <? 0) || negb (float_finite (vc_MaxMalformedRatio v)) ||
                         float_lt (vc_MaxMalformedRatio v) (float_of_int 0) ||
                         float_lt (float_of_int 1) (vc_MaxMalformedRatio v)))
              (configError config.ErrValidation "validation") in
  let? _ := check (negb (negb (count_byte "/" (vc_UserAgent v) =? 1) || (128 <? len (vc_UserAgent v)) ||
                         has_break (vc_UserAgent v))) (configError config.ErrValidation "validation.user_agent") in
  check (negb (bool_decide (cf_Feeds c = []) || (vc_MaxFeeds v <? Z.of_nat (List.length (cf_Feeds c)))))
    (configError config.ErrValidation "feeds").

(** A feed without limits of its own takes those of [validation]. *)
Definition fill_limits (v : ValidationConfig) (f : FeedConfig) : FeedConfig :=
  MkFeedConfig (fc_Name f) (fc_Enabled f) (fc_URL f) (fc_Format f) (fc_Family f) (fc_Timeout f)
    (fc_MaxDownloadBytes f) (fc_ExpectedMinEntries f) (fc_ExpectedMaxEntries f) (fc_MaxGrowthRatio f)
    (fc_MaxShrinkRatio f) (fc_Attribution f) (fc_MinUpdateInterval f) (fc_AllowHTTP f) (fc_ContentTypes f)
    (fc_RequireFinalNewline f)
    (if fc_MaxMalformedLines f =? 0 then vc_MaxMalformedLines v else fc_MaxMalformedLines f)
    (if SFeqb (fc_MaxMalformedRatio f) (float_of_int 0) then vc_MaxMalformedRatio v else fc_MaxMalformedRatio f).

Fixpoint validate_feeds (v : ValidationConfig) (seen : gset string) (i : Z) (feeds : list FeedConfig)
  : result config_error (list FeedConfig) :=
  match feeds with
  | [] => Ok []
  | feed :: rest =>
      let feed := fill_limits v feed in
      let name := ToLower (fc_Name feed) in
      let? _ := check (negb (bool_decide (name ∈ seen))) (indexedError config.ErrFeedName "feeds" i) in
      let? _ := validateFeed v i feed in
      let? rest := validate_feeds v ({[name]} ∪ seen) (i + 1) rest in
      Ok (feed :: rest)
  end.

Fixpoint canonical_cidrs (seen : gset Prefix) (i : Z) (cidrs : list Prefix) : result config_error (list Prefix) :=
  match cidrs with
  | [] => Ok []
  | prefix :: rest =>
      let? _ := check (IsValid prefix) (indexedError config.ErrAllowlist "allowlists.cidrs" i) in
      let prefix := Masked prefix in
      if bool_decide (prefix ∈ seen) then canonical_cidrs seen (i + 1) rest
      else let? rest := canonical_cidrs ({[prefix]} ∪ seen) (i + 1) rest in Ok (prefix :: rest)
  end.

(** [netip.Prefix.Compare] *)
Definition prefix_Compare (a b : Prefix) : Z :=
  cmp_then (addr_compare (p_addr (Masked a)) (p_addr (Masked b)))
    (cmp_then (cmp_int (p_bits a) (p_bits b)) (addr_compare (p_addr a) (p_addr b))).

Definition validate_notifications (c : Config) : result config_error unit :=
  let n := cf_Notifications c in let l := cf_Logging c in let err := configError config.ErrNotification in
  let? _ := check (String.eqb (lg_Format l) "json") (configError config.ErrValidation "logging.format") in
  let? _ := check (existsb (String.eqb (lg_Level l)) ["debug"; "info"; "warn"; "error"])
              (configError config.ErrValidation "logging.level") in
  let? _ := check (existsb (String.eqb (nc_MinimumSeverity n)) ["info"; "warning"; "error"])
              (err "notifications.minimum_severity"%string) in
  let? _ := check (negb ((nc_FailureThreshold n <? 1) || (100 <? nc_FailureThreshold n)))
              (err "notifications.failure_threshold"%string) in
  let? _ := check (negb (30 * 24 * Hour <? nc_Cooldown n)) (err "notifications.cooldown"%string) in
  if nc_Enabled n then
    let? _ := match validateRemoteURL "notifications.server_url" (nc_ServerURL n) (nc_AllowHTTP n)
                      (vc_AllowHTTP (cf_Validation c)) with
              | Ok _ => Ok tt | Err _ => Err (err "notifications.server_url"%string) end in
    check (topicPattern (nc_Topic n)) (err "notifications.topic"%string)
  else Ok tt.

Definition set_hosts (hosts : list string) (cs : CrowdSecConfig) : CrowdSecConfig :=
  MkCrowdSecConfig (cs_CredentialsFile cs) hosts (cs_RequestTimeout cs) (cs_ConnectTimeout cs)
    (cs_MaxResponseBytes cs) (cs_BatchSize cs) (cs_AuthRefreshBefore cs).

(** The configuration as [Validate] leaves it. *)
Definition Config_Validate (c : Config) : result config_error Config :=
  let? _ := validateListenAddress (sv_ListenAddress (cf_Server c)) in
  let? _ := validate_positive (positive_settings c) in
  let? _ := validate_bounds c in
  let? _ := validateRetry "schedule.retry" (sc_Retry (cf_Schedule c)) in
  let? _ := validate_database (cf_Database c) (cf_CrowdSec c) in
  let? hosts := canonicalHTTPHosts (cs_AllowedHTTPHosts (cf_CrowdSec c)) in
  let? _ := validate_limits c in
  let? feeds := validate_feeds (cf_Validation c) ∅ 0 (cf_Feeds c) in
  let? cidrs := canonical_cidrs ∅ 0 (al_CIDRs (cf_Allowlists c)) in
  let? _ := validate_notifications c in
  Ok (MkConfig (cf_Server c) (cf_Schedule c) (cf_Database c) (set_hosts hosts (cf_CrowdSec c)) (cf_Decisions c) feeds
        (MkAllowlistsConfig (sort_func prefix_Compare cidrs)) (cf_Validation c) (cf_Logging c) (cf_Notifications c)).
End Checks.
