(* ===== verification/Syncer.v ===== *)
(** * The synchronisation engine ([internal/syncer])

    One run registers the configured feeds, downloads the ones that are due,
    validates each against its previous snapshot, stores the accepted ones and
    counts a failure for the others, and then reconciles the decisions with
    what is stored.  A dry run reads, downloads and plans, and stores nothing.

    The store, the fetcher and the reconciler are interfaces over a world; the
    report that grows with every feed is threaded with the world, so that it
    survives an error. *)

From S2P Require Export Config Backoff Reconcile.

(** ** Interfaces *)

(** [internal/feed/fetcher.go] *)
Record FetchRequest : Type := MkFetchRequest {
  fq_URL : string; fq_Timeout : Duration; fq_MaxBytes : Z; fq_ContentTypes : list string; fq_ETag : string;
  fq_LastModified : string }.

Record FetchResult : Type := MkFetchResult {
  ft_Body : string; ft_NotModified : bool; ft_ETag : string; ft_LastModified : string; ft_ContentHash : string }.

Class FeedStore (W : Type) : Type := {
  f_EnsureFeeds : list FeedDefinition -> Time -> M W error (list FeedRecord);
  f_ApplyFeedSnapshot : string -> FeedSnapshot -> Z -> Time -> M W error SnapshotResult;
  f_RecordFeedNotModified : string -> string -> string -> Time -> M W error unit;
  f_RecordFeedFailure : string -> string -> Time -> Time -> M W error unit;
  f_ListFeeds : M W error (list FeedRecord);
  f_ListActiveEntries : M W error (list StoredEntry) }.

Class FetchClient (W : Type) : Type := { f_Fetch : FetchRequest -> M W error FetchResult }.

Class ReconcileClient (W : Type) : Type := { r_Run : RunOptions -> W -> (Report * option error) * W }.

(** [json.Marshal] of a feed's settings. *)
Class DefinitionCodec : Type := { json_definition : FeedConfig -> result error string }.

(** ** Options and reports *)

Record SyncOptions : Type := MkSyncOptions { so_FeedName : string; so_DryRun : bool }.

Definition FeedStatus : Type := string.
Definition FeedSucceeded : FeedStatus := "succeeded".
Definition FeedFailed : FeedStatus := "failed".
Definition FeedUnchanged : FeedStatus := "not_modified".
Definition FeedNotDue : FeedStatus := "not_due".

Record FeedResult : Type := MkFeedResult {
  fe_Name : string; fe_Status : FeedStatus; fe_Accepted : Z; fe_Rejected : Z; fe_ErrorClass : string }.

Record SyncReport : Type := MkSyncReport {
  sy_FeedsSucceeded : Z; sy_FeedsFailed : Z; sy_FeedsUnchanged : Z; sy_FeedsNotDue : Z; sy_SuspiciousChanges : Z;
  sy_Feeds : list FeedResult; sy_Reconcile : Report }.

Definition no_sync_report : SyncReport := MkSyncReport 0 0 0 0 0 [] no_report.

(** [report.FeedsX++; report.Feeds = append(report.Feeds, ...)] *)
Definition add_succeeded (f : FeedResult) (r : SyncReport) : SyncReport :=
  MkSyncReport (sy_FeedsSucceeded r + 1) (sy_FeedsFailed r) (sy_FeedsUnchanged r) (sy_FeedsNotDue r)
    (sy_SuspiciousChanges r) (sy_Feeds r ++ [f]) (sy_Reconcile r).
Definition add_unchanged (f : FeedResult) (r : SyncReport) : SyncReport :=
  MkSyncReport (sy_FeedsSucceeded r) (sy_FeedsFailed r) (sy_FeedsUnchanged r + 1) (sy_FeedsNotDue r)
    (sy_SuspiciousChanges r) (sy_Feeds r ++ [f]) (sy_Reconcile r).
Definition add_not_due (f : FeedResult) (r : SyncReport) : SyncReport :=
  MkSyncReport (sy_FeedsSucceeded r) (sy_FeedsFailed r) (sy_FeedsUnchanged r) (sy_FeedsNotDue r + 1)
    (sy_SuspiciousChanges r) (sy_Feeds r ++ [f]) (sy_Reconcile r).

(** ** Definitions *)

Definition category_text (c : feed.ErrorCategory) : string :=
  match c with
  | feed.ErrFormat => "format" | feed.ErrPolicy => "policy" | feed.ErrEmpty => "empty"
  | feed.ErrLineTooLong => "line_too_long" | feed.ErrTruncated => "truncated" | feed.ErrMetadata => "metadata"
  | feed.ErrMalformedThreshold => "malformed_threshold" | feed.ErrEntryCount => "entry_count"
  | feed.ErrSuspiciousChange => "suspicious_change" | feed.ErrRequest => "request" | feed.ErrSSRF => "ssrf"
  | feed.ErrRedirect => "redirect" | feed.ErrHTTPStatus => "http_status" | feed.ErrBodySize => "body_size"
  | feed.ErrContentType => "content_type" | feed.ErrHTML => "html" | feed.ErrResponseHeader => "response_header"
  end.

Definition errUnsolicitedNotModified : error := Foreign "unsolicited not modified".

Definition hashText (value : string) : string := sha256_hex value.

(** [configuredAllowlists]: a [CIDR] is its prefix already. *)
Definition configuredAllowlists (items : list Prefix) : list Prefix := map (fun p => p) items.

Definition format_of (name : string) : Format :=
  if String.eqb name "spamhaus-drop-jsonl" then FormatSpamhausDROPJSONL
  else if String.eqb name "firehol-netset" then FormatFireHOLNetset
  else if String.eqb name "plain" then FormatPlain
  else FormatOther name.

Definition family_named (name : string) : Family :=
  if String.eqb name "any" then FamilyAny
  else if String.eqb name "ipv4" then FamilyIPv4
  else if String.eqb name "ipv6" then FamilyIPv6
  else FamilyOther name.

Definition metadataAge (format : Format) : Duration :=
  match format with FormatSpamhausDROPJSONL => 72 * Hour | _ => 0 end.

Definition feedFailureCategory (err : error) : string :=
  match as_feed err with Some (c, _) => category_text c | None => category_text feed.ErrRequest end.

Definition retryDelay (retry : RetryConfig) (consecutiveFailures : Z) (requested : Duration) : Duration :=
  let maximum := rt_MaxBackoff retry in
  let delay := backoff_loop (Z.to_nat consecutiveFailures) maximum (rt_InitialBackoff retry) in
  let delay := if maximum <? delay then maximum else delay in
  if delay <? requested then requested else delay.

(** The record of a feed that is not registered. *)
Definition zero_record : FeedRecord := MkFeedRecord 0 "" "" "" false "" "" None None "" 0 0 0 None "".

Definition set_accepted (n : Z) (r : FeedRecord) : FeedRecord :=
  MkFeedRecord (rec_ID r) (rec_Name r) (rec_URLHash r) (rec_DefinitionHash r) (rec_Enabled r) (rec_ETag r)
    (rec_LastModified r) (rec_LastAttempt r) (rec_LastSuccess r) (rec_LastGoodVersion r) n (rec_RejectedEntries r)
    (rec_ConsecutiveFailures r) (rec_NextAttempt r) (rec_LastErrorCategory r).

Definition by_name (records : list FeedRecord) : gmap string FeedRecord :=
  fold_left (fun m r => <[rec_Name r := r]> m) records ∅.

(** [feedOrder[record.ID] = index] *)
Fixpoint feed_orders (i : Z) (m : gmap Z Z) (records : list FeedRecord) : gmap Z Z :=
  match records with [] => m | r :: rest => feed_orders (i + 1) (<[rec_ID r := i]> m) rest end.

Definition definition_changed (previous : gmap string FeedRecord) (d : FeedDefinition) : bool :=
  match previous !! fd_Name d with
  | None => true
  | Some r => negb (String.eqb (rec_URLHash r) (fd_URLHash d)) ||
              negb (String.eqb (rec_DefinitionHash r) (fd_DefinitionHash d)) ||
              negb (Bool.eqb (rec_Enabled r) (fd_Enabled d))
  end.

Definition changed_by_name (previous : gmap string FeedRecord) (definitions : list FeedDefinition) : gmap string bool :=
  fold_left (fun m d => <[fd_Name d := definition_changed previous d]> m) definitions ∅.

(** The feed waits for its interval or its backoff. *)
Definition not_due (now : Time) (configured : FeedConfig) (record : FeedRecord) : bool :=
  match rec_LastSuccess record with
  | Some t => Before now (time_Add t (fc_MinUpdateInterval configured)) | None => false end ||
  match rec_NextAttempt record with Some t => Before now t | None => false end.

Definition selected (options : SyncOptions) (configured : FeedConfig) : bool :=
  negb (negb (fc_Enabled configured) ||
        (negb (String.eqb (so_FeedName options) "") && negb (String.eqb (so_FeedName options) (fc_Name configured)))).

Definition fetch_request (configured : FeedConfig) (etag lastModified : string) : FetchRequest :=
  MkFetchRequest (fc_URL configured) (fc_Timeout configured) (fc_MaxDownloadBytes configured)
    (fc_ContentTypes configured) etag lastModified.

(** The request for a feed: the validators of the last snapshot, unless the
    definition changed. *)
Definition request_for (configured : FeedConfig) (record : FeedRecord) (changed : bool) : FetchRequest :=
  fetch_request configured (if changed then "" else rec_ETag record) (if changed then "" else rec_LastModified record).

Definition limits_for (v : ValidationConfig) (f : FeedConfig) : Limits :=
  MkLimits (family_named (fc_Family f)) (vc_MaxLineBytes v) (fc_MaxMalformedLines f) (fc_MaxMalformedRatio f)
    (fc_RequireFinalNewline f).

Definition policy_for (f : FeedConfig) (previous : Z) (now : Time) : ValidationPolicy :=
  MkPolicy (fc_ExpectedMinEntries f) (fc_ExpectedMaxEntries f) (fc_MaxGrowthRatio f) (fc_MaxShrinkRatio f) previous now
    (metadataAge (format_of (fc_Format f))) (10 * Minute).

(** ** The engine *)

(** [New]: the guards of the options; the parts that are present or defaulted
    by the code are the instances. *)
Definition Engine_New {lib : TextLibrary} (cfg : Config) : result error Config :=
  match Config_Validate cfg with
  | Ok cfg => Ok cfg
  | Err _ => Err (syncError syncer.ErrConfig (Some (Foreign "configuration")))
  end.

Section Engine.
Context {W : Type} `{!FeedStore W} `{!FetchClient W} `{!ReconcileClient W}.
Context {codec : SpamhausCodec} {definitions_codec : DefinitionCodec}.
Context (cfg : Config).

Record EW : Type := MkEW { ew_world : W; ew_report : SyncReport }.
Definition EM (A : Type) : Type := M EW error A.

Definition ecall {A} (m : M W error A) : EM A :=
  fun s => let '(r, w) := m (ew_world s) in (r, MkEW w (ew_report s)).
Definition ereport (f : SyncReport -> SyncReport) : EM unit := fun s => (Ok tt, MkEW (ew_world s) (f (ew_report s))).

(** [if err != nil { return report, syncError(c, err) }] *)
Definition efailing {A} (c : syncer.ErrorCategory) (m : EM A) : EM A :=
  let~ r := m in match r with Ok a => mok a | Err e => mfail (syncError c (Some e)) end.
Definition elift {A} (r : result error A) : EM A := match r with Ok a => mok a | Err e => mfail e end.

Definition definitionHash (f : FeedConfig) : result error string :=
  let? body := json_definition f in Ok (hashText body).

Fixpoint feedDefinitions (configured : list FeedConfig) : result error (list FeedDefinition) :=
  match configured with
  | [] => Ok []
  | item :: rest =>
      let? hash := definitionHash item in
      let? rest := feedDefinitions rest in
      Ok (MkFeedDefinition (fc_Name item) (hashText (fc_URL item)) hash (fc_Enabled item) :: rest)
  end.

Definition selectedFeedExists (name : string) : bool :=
  if String.eqb name "" then true else existsb (fun f => String.eqb (fc_Name f) name) (cf_Feeds cfg).

Definition parseFetched (configured : FeedConfig) (record : FeedRecord) (result : FetchResult) (now : Time)
  : Prelude.result error (Snapshot * Z) :=
  let? parsed := Parse (format_of (fc_Format configured)) (ft_Body result) (limits_for (cf_Validation cfg) configured) in
  let? snapshot := Validate parsed (policy_for configured (rec_AcceptedEntries record) now) in
  Ok (snapshot, Feed.rs_Malformed parsed + sn_RejectedSafety snapshot + sn_Duplicates snapshot).

(** What a fetch of a feed came to. *)
Inductive fetched : Type :=
| Failed (cause : error)
| NotModified (r : FetchResult)
| Accepted (r : FetchResult) (snapshot : Snapshot) (rejected : Z).

(** The fetch and its checks, the same in both kinds of run. *)
Definition fetch_feed (configured : FeedConfig) (record : FeedRecord) (changed : bool) (now : Time) : EM fetched :=
  let validationRecord := if changed then set_accepted 0 record else record in
  let~ r := ecall (f_Fetch (request_for configured record changed)) in
  match r with
  | Err cause => mok (Failed cause)
  | Ok result =>
      if ft_NotModified result then mok (if changed then Failed errUnsolicitedNotModified else NotModified result)
      else match parseFetched configured validationRecord result now with
           | Err cause => mok (Failed cause)
           | Ok (snapshot, rejected) => mok (Accepted result snapshot rejected)
           end
  end.

Definition failed_result (configured : FeedConfig) (cause : error) : FeedResult :=
  MkFeedResult (fc_Name configured) FeedFailed 0 0 (feedFailureCategory cause).

(** [report.FeedsFailed++ ...], shared by [recordFeedFailure] and [recordDryFailure]. *)
Definition add_failed (configured : FeedConfig) (cause : error) (r : SyncReport) : SyncReport :=
  MkSyncReport (sy_FeedsSucceeded r) (sy_FeedsFailed r + 1) (sy_FeedsUnchanged r) (sy_FeedsNotDue r)
    (sy_SuspiciousChanges r +
       (if String.eqb (feedFailureCategory cause) (category_text feed.ErrSuspiciousChange) then 1 else 0))
    (sy_Feeds r ++ [failed_result configured cause]) (sy_Reconcile r).

Definition recordFeedFailure (configured : FeedConfig) (record : FeedRecord) (now : Time) (cause : error) : EM unit :=
  let delay := retryDelay (sc_Retry (cf_Schedule cfg)) (rec_ConsecutiveFailures record) (RetryAfter cause) in
  let! _ := efailing syncer.ErrState (ecall (f_RecordFeedFailure (fc_Name configured) (feedFailureCategory cause) now
              (time_Add now delay))) in
  ereport (add_failed configured cause).

Definition not_due_result (configured : FeedConfig) : FeedResult := MkFeedResult (fc_Name configured) FeedNotDue 0 0 "".
Definition unchanged_result (configured : FeedConfig) (record : FeedRecord) : FeedResult :=
  MkFeedResult (fc_Name configured) FeedUnchanged (rec_AcceptedEntries record) (rec_RejectedEntries record) "".
Definition succeeded_result (configured : FeedConfig) (snapshot : Snapshot) (rejected : Z) : FeedResult :=
  MkFeedResult (fc_Name configured) FeedSucceeded (Z.of_nat (List.length (sn_Entries snapshot))) rejected "".

(** One turn of the loop over the configured feeds. *)
Definition sync_feed (options : SyncOptions) (now : Time) (byName : gmap string FeedRecord)
    (definitionChanged : gmap string bool) (configured : FeedConfig) : EM unit :=
  if negb (selected options configured) then mok tt
  else
    let record := default zero_record (byName !! fc_Name configured) in
    let changed := default false (definitionChanged !! fc_Name configured) in
    if negb changed && not_due now configured record then ereport (add_not_due (not_due_result configured))
    else
      let! outcome := fetch_feed configured record changed now in
      match outcome with
      | Failed cause => recordFeedFailure configured record now cause
      | NotModified result =>
          let! _ := efailing syncer.ErrState (ecall (f_RecordFeedNotModified (fc_Name configured) (ft_ETag result)
                      (ft_LastModified result) now)) in
          ereport (add_unchanged (unchanged_result configured record))
      | Accepted result snapshot rejected =>
          let! _ := efailing syncer.ErrState (ecall (f_ApplyFeedSnapshot (fc_Name configured)
                      (MkFeedSnapshot (sn_Version snapshot) (ft_ETag result) (ft_LastModified result)
                         (sn_Entries snapshot) rejected) (dc_MissingGraceRuns (cf_Decisions cfg)) now)) in
          ereport (add_succeeded (succeeded_result configured snapshot rejected))
      end.

Definition set_reconcile (report : Report) (r : SyncReport) : SyncReport :=
  MkSyncReport (sy_FeedsSucceeded r) (sy_FeedsFailed r) (sy_FeedsUnchanged r) (sy_FeedsNotDue r)
    (sy_SuspiciousChanges r) (sy_Feeds r) report.

(** The reconciliation at the end of both kinds of run. *)
Definition reconcile_all (options : RunOptions) : EM unit :=
  fun s =>
    let '((report, err), w) := r_Run options (ew_world s) in
    let s := MkEW w (set_reconcile report (ew_report s)) in
    match err with
    | Some e => (Err (syncError syncer.ErrReconcile (Some e)), s)
    | None => if 0 <? sy_FeedsFailed (ew_report s) then (Err (syncError syncer.ErrDegraded None), s) else (Ok tt, s)
    end.

Definition enforce_feeds (options : SyncOptions) (now : Time) : EM unit :=
  let! definitions := efailing syncer.ErrConfig (elift (feedDefinitions (cf_Feeds cfg))) in
  let! previous := efailing syncer.ErrState (ecall f_ListFeeds) in
  let! records := efailing syncer.ErrState (ecall (f_EnsureFeeds definitions now)) in
  let! _ := mfor (sync_feed options now (by_name records) (changed_by_name (by_name previous) definitions)) (cf_Feeds cfg) in
  reconcile_all (MkRunOptions (configuredAllowlists (al_CIDRs (cf_Allowlists cfg))) (feed_orders 0 ∅ records) false false []).

(** ** The dry run *)

(** The loop over the configured feeds that prepares a dry run. *)
Record dry_plan : Type := MkDryPlan {
  dp_byName : gmap string FeedRecord; dp_nextID : Z; dp_enabled : gset string; dp_order : gmap Z Z;
  dp_changed : gmap string bool }.

Definition dry_changed (record : option FeedRecord) (configured : FeedConfig) (hash : string) : bool :=
  match record with
  | None => true
  | Some r => negb (String.eqb (rec_URLHash r) (hashText (fc_URL configured))) ||
              negb (String.eqb (rec_DefinitionHash r) hash) || negb (rec_Enabled r)
  end.

Definition ephemeral_record (id : Z) (name : string) : FeedRecord :=
  MkFeedRecord id name "" "" true "" "" None None "" 0 0 0 None "".

Fixpoint plan_dry (i : Z) (feeds : list FeedConfig) (p : dry_plan) : result error dry_plan :=
  match feeds with
  | [] => Ok p
  | f :: rest =>
      if negb (fc_Enabled f) then plan_dry (i + 1) rest p
      else
        match definitionHash f with
        | Err e => Err (syncError syncer.ErrConfig (Some e))
        | Ok hash =>
            let found := dp_byName p !! fc_Name f in
            let changed := <[fc_Name f := dry_changed found f hash]> (dp_changed p) in
            let enabled := {[fc_Name f]} ∪ dp_enabled p in
            match found with
            | Some r => plan_dry (i + 1) rest (MkDryPlan (dp_byName p) (dp_nextID p) enabled (<[rec_ID r := i]> (dp_order p)) changed)
            | None =>
                let r := ephemeral_record (dp_nextID p) (fc_Name f) in
                plan_dry (i + 1) rest (MkDryPlan (<[fc_Name f := r]> (dp_byName p)) (dp_nextID p + 1) enabled
                                         (<[rec_ID r := i]> (dp_order p)) changed)
            end
        end
  end.

Definition next_feed_id (records : list FeedRecord) : Z :=
  fold_left (fun n r => if n <=? rec_ID r then rec_ID r + 1 else n) records 1.

Definition ephemeral_entry (configured : FeedConfig) (record : FeedRecord) (now : Time) (item : Entry) : StoredEntry :=
  MkStoredEntry (rec_ID record) (fc_Name configured) item now now 0 true.

Definition replace_entries (configured : FeedConfig) (record : FeedRecord) (now : Time) (items : list Entry)
    (ephemeral : list StoredEntry) : list StoredEntry :=
  List.filter (fun e => negb (String.eqb (se_FeedName e) (fc_Name configured))) ephemeral ++
  map (ephemeral_entry configured record now) items.

Definition dry_feed (options : SyncOptions) (now : Time) (p : dry_plan) (ephemeral : list StoredEntry)
    (configured : FeedConfig) : EM (list StoredEntry) :=
  if negb (selected options configured) then mok ephemeral
  else
    let record := default zero_record (dp_byName p !! fc_Name configured) in
    let changed := default false (dp_changed p !! fc_Name configured) in
    if negb changed && not_due now configured record
    then let! _ := ereport (add_not_due (not_due_result configured)) in mok ephemeral
    else
      let! outcome := fetch_feed configured record changed now in
      match outcome with
      | Failed cause => let! _ := ereport (add_failed configured cause) in mok ephemeral
      | NotModified result => let! _ := ereport (add_unchanged (unchanged_result configured record)) in mok ephemeral
      | Accepted result snapshot rejected =>
          let! _ := ereport (add_succeeded (succeeded_result configured snapshot rejected)) in
          mok (replace_entries configured record now (sn_Entries snapshot) ephemeral)
      end.

Definition runDry (options : SyncOptions) (now : Time) : EM unit :=
  let! records := efailing syncer.ErrState (ecall f_ListFeeds) in
  let! entries := efailing syncer.ErrState (ecall f_ListActiveEntries) in
  let! p := elift (plan_dry 0 (cf_Feeds cfg) (MkDryPlan (by_name records) (next_feed_id records) ∅ ∅ ∅)) in
  let ephemeral := List.filter (fun e => bool_decide (se_FeedName e ∈ dp_enabled p)) entries in
  let! ephemeral := mfold (dry_feed options now p) ephemeral (cf_Feeds cfg) in
  reconcile_all (MkRunOptions (configuredAllowlists (al_CIDRs (cf_Allowlists cfg))) (dp_order p) true true ephemeral).

Definition engine_body (options : SyncOptions) (now : Time) : EM unit :=
  let! _ := elift (if time_IsZero now then Err (syncError syncer.ErrConfig None) else Ok tt) in
  let! _ := elift (if selectedFeedExists (so_FeedName options) then Ok tt else Err (syncError syncer.ErrSelection None)) in
  if so_DryRun options then runDry options now else enforce_feeds options now.

(** The report and the error of a run at the instant [now]. *)
Definition Engine_Run (options : SyncOptions) (now : Time) (w : W) : (SyncReport * option error) * W :=
  let '(r, s) := engine_body options now (MkEW w no_sync_report) in
  ((ew_report s, match r with Ok _ => None | Err e => Some e end), ew_world s).
End Engine.

Arguments MkEW {W}.
Arguments ew_world {W}.
Arguments ew_report {W}.
