(* ===== verification/SyncerRun.v ===== *)
(** * What a synchronisation run achieves

    The report of every run accounts for its feeds; a feed that cannot be
    taken over keeps its entries; a dry run stores nothing. *)

From S2P Require Export Syncer.

(** ** The report *)

Definition with_status (status : FeedStatus) (fs : list FeedResult) : Z :=
  Z.of_nat (List.length (List.filter (fun f => String.eqb (fe_Status f) status) fs)).
Definition with_class (class : string) (fs : list FeedResult) : Z :=
  Z.of_nat (List.length (List.filter (fun f => String.eqb (fe_ErrorClass f) class) fs)).

(** A result the engine can report. *)
Definition result_ok (f : FeedResult) : Prop :=
  (In (fe_Status f) [FeedSucceeded; FeedUnchanged; FeedNotDue] /\ fe_ErrorClass f = "") \/
  (fe_Status f = FeedFailed /\ fe_Accepted f = 0 /\ fe_Rejected f = 0 /\ exists c, fe_ErrorClass f = category_text c).

(** The counts of a report are those of its list. *)
Record accounts (r : SyncReport) : Prop := {
  ac_succeeded : sy_FeedsSucceeded r = with_status FeedSucceeded (sy_Feeds r);
  ac_failed : sy_FeedsFailed r = with_status FeedFailed (sy_Feeds r);
  ac_unchanged : sy_FeedsUnchanged r = with_status FeedUnchanged (sy_Feeds r);
  ac_not_due : sy_FeedsNotDue r = with_status FeedNotDue (sy_Feeds r);
  ac_suspicious : sy_SuspiciousChanges r = with_class (category_text feed.ErrSuspiciousChange) (sy_Feeds r);
  ac_results : List.Forall result_ok (sy_Feeds r) }.

Lemma no_sync_report_accounts : accounts no_sync_report.
Proof. by split; cbn. Qed.

Lemma count_snoc {A} (p : A -> bool) xs x :
  Z.of_nat (List.length (List.filter p (xs ++ [x]))) =
  Z.of_nat (List.length (List.filter p xs)) + (if p x then 1 else 0).
Proof. rewrite List.filter_app, length_app. cbn. destruct (p x); cbn; lia. Qed.

(** One more feed in the report. *)
Definition one_more (configured : FeedConfig) (r r' : SyncReport) : Prop :=
  exists f, fe_Name f = fc_Name configured /\ sy_Feeds r' = sy_Feeds r ++ [f] /\ (accounts r -> accounts r').

Lemma one_more_failed configured cause r : one_more configured r (add_failed configured cause r).
Proof.
  exists (failed_result configured cause). split; [done|]. split; [done|]. intros [H1 H2 H3 H4 H5 H6].
  split; cbn -[with_status with_class category_text]; unfold with_status, with_class in *; rewrite ?count_snoc.
  - rewrite H1. cbn. lia.
  - rewrite H2. cbn. lia.
  - rewrite H3. cbn. lia.
  - rewrite H4. cbn. lia.
  - by rewrite H5.
  - apply List.Forall_app. split; [done|]. constructor; [|done]. right. cbn. split_and!; [done..|].
    unfold feedFailureCategory. destruct (as_feed cause) as [[c ?]|]; by eexists.
Qed.

Ltac one_more_tac :=
  intros [H1 H2 H3 H4 H5 H6]; split; cbn -[with_status with_class category_text];
    unfold with_status, with_class in *; rewrite ?count_snoc;
    [rewrite H1; cbn; lia|rewrite H2; cbn; lia|rewrite H3; cbn; lia|rewrite H4; cbn; lia|rewrite H5; cbn; lia|
     apply List.Forall_app; split; [done|]; constructor; [|done]; left; split; [|done]; cbn; tauto].

Lemma one_more_not_due configured r : one_more configured r (add_not_due (not_due_result configured) r).
Proof. exists (not_due_result configured). split; [done|]. split; [done|]. one_more_tac. Qed.
Lemma one_more_unchanged configured record r : one_more configured r (add_unchanged (unchanged_result configured record) r).
Proof. exists (unchanged_result configured record). split; [done|]. split; [done|]. one_more_tac. Qed.
Lemma one_more_succeeded configured snapshot n r :
  one_more configured r (add_succeeded (succeeded_result configured snapshot n) r).
Proof. exists (succeeded_result configured snapshot n). split; [done|]. split; [done|]. one_more_tac. Qed.

#[export] Hint Resolve one_more_failed one_more_not_due one_more_unchanged one_more_succeeded : go.

Section Reports.
Context {W : Type} `{!FeedStore W} `{!FetchClient W} `{!ReconcileClient W}.
Context {codec : SpamhausCodec} {definitions_codec : DefinitionCodec}.
Context (cfg : Config).

Lemma ecall_report {A} (m : M W error A) s r s' : ecall m s = (r, s') -> ew_report s' = ew_report s.
Proof. unfold ecall. destruct (m (ew_world s)). by intros [= _ <-]. Qed.

Lemma efailing_report {A} c (m : EM (W := W) A) s r s' : efailing c m s = (r, s') ->
  exists r1, m s = (r1, s') /\ match r with Ok a => r1 = Ok a | Err e => exists e1, r1 = Err e1 /\ e = syncError c (Some e1) end.
Proof.
  unfold efailing, mtry. destruct (m s) as [[a|e] s1]; intros [= <- <-]; eexists; (split; [done|]); [done|by exists e].
Qed.

Lemma fetch_feed_Ok configured record changed now s r s' :
  fetch_feed cfg configured record changed now s = (r, s') ->
  ew_report s' = ew_report s /\ exists outcome, r = Ok outcome.
Proof.
  unfold fetch_feed, mtry, ecall. destruct (f_Fetch _ _) as [[result|cause] w1]; cbv zeta.
  - destruct (ft_NotModified result); [by intros [= <- <-]; split; [|eexists]|].
    destruct (parseFetched _ _ _ _) as [[snapshot n]|cause]; by intros [= <- <-]; split; [|eexists].
  - by intros [= <- <-]; split; [|eexists].
Qed.

(** The state of a store failure: no feed is added. *)
Definition store_failure (e : error) : Prop := exists cause, e = syncError syncer.ErrState (Some cause).

(** A store call, then the report. *)
Lemma store_then_report {A} (m : M W error A) f s r s' :
  (let! _ := efailing syncer.ErrState (ecall m) in ereport f) s = (r, s') ->
  (r = Ok tt /\ ew_report s' = f (ew_report s)) \/ (exists e, r = Err e /\ store_failure e /\ ew_report s' = ew_report s).
Proof.
  unfold mthen at 1. destruct (efailing _ _ s) as [[a|e] s1] eqn:E.
  - intros [= <- <-]. left. split; [done|]. cbn. f_equal. apply efailing_report in E as (r1 & E & _).
    by apply ecall_report in E.
  - intros [= <- <-]. right. exists e. apply efailing_report in E as (r1 & E & e1 & _ & ->).
    split_and!; [done|by exists e1|]. by apply ecall_report in E.
Qed.

Lemma sync_feed_report options now byName changed configured s r s' :
  sync_feed cfg options now byName changed configured s = (r, s') ->
  if selected options configured
  then (r = Ok tt /\ one_more configured (ew_report s) (ew_report s')) \/
       (exists e, r = Err e /\ store_failure e /\ ew_report s' = ew_report s)
  else r = Ok tt /\ s' = s.
Proof.
  unfold sync_feed. destruct (selected options configured); cbn [negb]; [|by intros [= <- <-]]. cbv zeta.
  destruct (_ && _); [intros [= <- <-]; left; split; [done|]; cbn; auto with go|].
  intros H. unfold mthen at 1 in H. destruct (fetch_feed _ _ _ _ _ _) as [o s1] eqn:E.
  apply fetch_feed_Ok in E as [<- (outcome & ->)].
  destruct outcome; [unfold recordFeedFailure in H|..]; apply store_then_report in H as [[-> ->]|H]; auto with go.
Qed.

(** What a run leaves in its report: the feeds of [done], and all of them
    unless it stopped at a failure of the store. *)
Definition covers_feeds (options : SyncOptions) (feeds : list FeedConfig) (stopped : bool) (before after : SyncReport)
  : Prop :=
  exists don rest, List.filter (selected options) feeds = don ++ rest /\
    map fe_Name (sy_Feeds after) = map fe_Name (sy_Feeds before) ++ map fc_Name don /\
    (stopped = false -> rest = []) /\ (accounts before -> accounts after).

Lemma covers_nil options before : covers_feeds options [] false before before.
Proof. exists [], []. split_and!; [done|cbn; by rewrite app_nil_r|done|done]. Qed.

Lemma covers_cons options f feeds stopped r1 r2 r3 :
  (if selected options f then one_more f r1 r2 else r2 = r1) ->
  covers_feeds options feeds stopped r2 r3 -> covers_feeds options (f :: feeds) stopped r1 r3.
Proof.
  intros H (don & rest & E1 & E2 & E3 & E4).
  assert (List.filter (selected options) (f :: feeds) =
    (if selected options f then [f] else []) ++ List.filter (selected options) feeds) as Ef
    by (cbn; by destruct (selected options f)).
  unfold covers_feeds. rewrite Ef, E1. destruct (selected options f).
  - destruct H as (x & Hn & Hf & Ha). exists (f :: don), rest. split_and!; [done| |done|auto].
    rewrite E2, Hf, map_app. cbn. by rewrite Hn, <- app_assoc.
  - rewrite H in *. exists don, rest. by split_and!.
Qed.

Lemma covers_stopped options feeds r : covers_feeds options feeds true r r.
Proof. exists [], (List.filter (selected options) feeds). split_and!; [done|cbn; by rewrite app_nil_r|done|done]. Qed.

Lemma sync_feeds_report options now byName changed feeds : forall s r s',
  mfor (sync_feed cfg options now byName changed) feeds s = (r, s') ->
  (r = Ok tt /\ covers_feeds options feeds false (ew_report s) (ew_report s')) \/
  (exists e, r = Err e /\ store_failure e /\ covers_feeds options feeds true (ew_report s) (ew_report s')).
Proof.
  induction feeds as [|f feeds IH]; intros s r s' H; cbn [mfor] in H.
  - injection H as <- <-. left. split; [done|apply covers_nil].
  - unfold mthen in H. destruct (sync_feed _ _ _ _ _ _ _) as [r1 s1] eqn:E. apply sync_feed_report in E.
    assert ((r1 = Ok tt /\ if selected options f then one_more f (ew_report s) (ew_report s1) else ew_report s1 = ew_report s) \/
            (exists e, r1 = Err e /\ store_failure e /\ ew_report s1 = ew_report s)) as [[-> Hone]|(e & -> & He & Er)].
    { destruct (selected options f); [destruct E as [[-> H1]|E]; [by left|by right]|].
      destruct E as [-> ->]. by left. }
    + apply IH in H as [[-> H]|(e & -> & He & H)].
      * left. split; [done|]. by eapply covers_cons.
      * right. exists e. split_and!; [done..|]. by eapply covers_cons.
    + injection H as <- <-. right. exists e. split_and!; [done..|]. rewrite Er. apply covers_stopped.
Qed.

Lemma dry_feed_report options now p ephemeral configured s r s' :
  dry_feed cfg options now p ephemeral configured s = (r, s') ->
  (exists entries, r = Ok entries) /\
  if selected options configured then one_more configured (ew_report s) (ew_report s') else ew_report s' = ew_report s.
Proof.
  unfold dry_feed. destruct (selected options configured); cbn [negb]; [|intros [= <- <-]; by split; [eexists|]]. cbv zeta.
  destruct (_ && _); [intros [= <- <-]; split; [by eexists|]; cbn; auto with go|].
  intros H. unfold mthen at 1 in H. destruct (fetch_feed _ _ _ _ _ _) as [o s1] eqn:E.
  apply fetch_feed_Ok in E as [<- (outcome & ->)].
  destruct outcome; injection H as <- <-; (split; [by eexists|]); cbn [ew_report]; auto with go.
Qed.

Lemma dry_feeds_report options now p feeds : forall ephemeral s r s',
  mfold (dry_feed cfg options now p) ephemeral feeds s = (r, s') ->
  (exists entries, r = Ok entries) /\ covers_feeds options feeds false (ew_report s) (ew_report s').
Proof.
  induction feeds as [|f feeds IH]; intros ephemeral s r s' H; cbn [mfold] in H.
  - injection H as <- <-. split; [by eexists|apply covers_nil].
  - unfold mthen in H. destruct (dry_feed _ _ _ _ _ _ _) as [r1 s1] eqn:E.
    apply dry_feed_report in E as [(entries & ->) Hone]. apply IH in H as [Hr H]. split; [done|]. by eapply covers_cons.
Qed.

Lemma reconcile_all_report options s r s' : reconcile_all options s = (r, s') ->
  sy_Feeds (ew_report s') = sy_Feeds (ew_report s) /\ (accounts (ew_report s) -> accounts (ew_report s')) /\
  match r with
  | Ok _ => sy_FeedsFailed (ew_report s') <= 0
  | Err e => (exists cause, e = syncError syncer.ErrReconcile (Some cause)) \/
             (e = syncError syncer.ErrDegraded None /\ 0 < sy_FeedsFailed (ew_report s'))
  end.
Proof.
  unfold reconcile_all. destruct (r_Run _ _) as [[report err] w].
  assert (accounts (ew_report s) -> accounts (set_reconcile report (ew_report s))) as Ha by (by intros [H1 H2 H3 H4 H5 H6]; split).
  destruct err as [e|]; [intros [= <- <-]; split_and!; [done..|left; by eexists]|].
  cbn [ew_report]. destruct (Z.ltb_spec 0 (sy_FeedsFailed (set_reconcile report (ew_report s)))); intros [= <- <-];
    split_and!; try done. right. by split.
Qed.

Lemma covers_reconcile options feeds before mid after : 
  covers_feeds options feeds false before mid -> sy_Feeds after = sy_Feeds mid ->
  (accounts mid -> accounts after) -> covers_feeds options feeds false before after.
Proof. intros (don & rest & E1 & E2 & E3 & E4) Hf Ha. exists don, rest. rewrite Hf. split_and!; auto. Qed.

(** The error stops the run before its reconciliation. *)
Definition stops (err : option error) : bool :=
  match err with
  | None | Some (SyncError syncer.ErrReconcile _) | Some (SyncError syncer.ErrDegraded _) => false
  | Some _ => true
  end.

(** A part of the run before the loop: it adds nothing, and an error stops. *)
Definition prelude_call {A} (m : EM (W := W) A) : Prop :=
  forall s r s', m s = (r, s') -> ew_report s' = ew_report s /\ (forall e, r = Err e -> stops (Some e) = true).

Lemma prelude_store {A} (m : M W error A) : prelude_call (efailing syncer.ErrState (ecall m)).
Proof.
  intros s r s' H. apply efailing_report in H as (r1 & H & Hr). split; [by apply ecall_report in H|].
  intros e ->. by destruct Hr as (e1 & _ & ->).
Qed.

(** The run, from its loop on. *)
Definition run_ends options before (m : EM (W := W) unit) : Prop :=
  forall s r s', m s = (r, s') -> ew_report s = before ->
    covers_feeds options (cf_Feeds cfg) (stops (match r with Ok _ => None | Err e => Some e end)) before (ew_report s') /\
    match r with Ok _ => sy_FeedsFailed (ew_report s') <= 0
               | Err (SyncError syncer.ErrDegraded _) => 0 < sy_FeedsFailed (ew_report s') | _ => True end.

Lemma run_ends_prelude {A} options before (m : EM (W := W) A) k :
  prelude_call m -> (forall a, run_ends options before (k a)) -> run_ends options before (mthen m k).
Proof.
  intros Hm Hk s r s' H Hb. unfold mthen in H. destruct (m s) as [[a|e] s1] eqn:E; apply Hm in E as [E1 E2].
  - apply (Hk a _ _ _ H). by rewrite E1.
  - injection H as <- <-. rewrite E1, Hb. specialize (E2 e eq_refl). cbn [stops] in *. rewrite E2.
    split; [apply covers_stopped|]. destruct e; try done. by destruct c.
Qed.

Lemma run_ends_reconcile options before mid s r s' ropts :
  covers_feeds options (cf_Feeds cfg) false before mid -> reconcile_all ropts s = (r, s') -> ew_report s = mid ->
  covers_feeds options (cf_Feeds cfg) (stops (match r with Ok _ => None | Err e => Some e end)) before (ew_report s') /\
    match r with Ok _ => sy_FeedsFailed (ew_report s') <= 0
               | Err (SyncError syncer.ErrDegraded _) => 0 < sy_FeedsFailed (ew_report s') | _ => True end.
Proof.
  intros Hc H Hm. apply reconcile_all_report in H as (Hf & Ha & Hr). rewrite Hm in *. destruct r as [[]|e].
  - split; [by eapply covers_reconcile|done].
  - destruct Hr as [(cause & ->)|[-> Hp]]; (split; [by eapply covers_reconcile|done]).
Qed.

Lemma prelude_lift {A} (r : result error A) : (forall e, r = Err e -> stops (Some e) = true) ->
  prelude_call (elift r).
Proof. intros Hr s r1 s' H. unfold elift in H. destruct r; injection H as <- <-; split; [done|done|done|]. intros e' [= <-]. by apply Hr. Qed.

Lemma prelude_config {A} (r : result error A) : prelude_call (efailing syncer.ErrConfig (elift r)).
Proof.
  intros s r1 s' H. apply efailing_report in H as (r2 & H & Hr). unfold elift in H.
  split; [by destruct r; injection H as _ <-|]. intros e ->. by destruct Hr as (e1 & _ & ->).
Qed.

Lemma plan_dry_error i feeds : forall p e, plan_dry i feeds p = Err e -> stops (Some e) = true.
Proof.
  revert i. induction feeds as [|f feeds IH]; intros i p e H; cbn [plan_dry] in H; [done|].
  destruct (fc_Enabled f); cbn [negb] in H; [|by eapply IH].
  destruct (definitionHash f); [|by injection H as <-].
  destruct (_ !! _) in H; by eapply IH.
Qed.

Lemma engine_body_report options now before : run_ends options before (engine_body cfg options now).
Proof.
  apply run_ends_prelude; [apply prelude_lift; intros e; destruct (time_IsZero now); [by intros [= <-]|done]|intros _].
  apply run_ends_prelude; [apply prelude_lift; intros e; destruct (selectedFeedExists _ _); [done|by intros [= <-]]|intros _].
  destruct (so_DryRun options); [unfold runDry|unfold enforce_feeds].
  - apply run_ends_prelude; [apply prelude_store|intros records]. apply run_ends_prelude; [apply prelude_store|intros entries].
    apply run_ends_prelude; [apply prelude_lift, plan_dry_error|intros p]. intros s r s' H Hb. unfold mthen in H.
    destruct (mfold _ _ _ _) as [r1 s1] eqn:E. apply dry_feeds_report in E as [(es & ->) Hc]. rewrite Hb in Hc.
    by eapply run_ends_reconcile.
  - apply run_ends_prelude; [apply prelude_config|intros defs]. apply run_ends_prelude; [apply prelude_store|intros previous].
    apply run_ends_prelude; [apply prelude_store|intros records]. intros s r s' H Hb. unfold mthen in H.
    destruct (mfor _ _ _) as [r1 s1] eqn:E. apply sync_feeds_report in E. rewrite Hb in E.
    destruct E as [[-> Hc]|(e & -> & (cause & ->) & Hc)]; [by eapply run_ends_reconcile|].
    injection H as <- <-. by split.
Qed.

Lemma Engine_Run_report options now w report err w' :
  Engine_Run cfg options now w = ((report, err), w') ->
  accounts report /\
  (exists don rest, List.filter (selected options) (cf_Feeds cfg) = don ++ rest /\
     map fe_Name (sy_Feeds report) = map fc_Name don /\ (stops err = false -> rest = [])) /\
  (err = None -> sy_FeedsFailed report = 0) /\
  (forall cause, err = Some (SyncError syncer.ErrDegraded cause) -> 0 < sy_FeedsFailed report).
Proof.
  unfold Engine_Run. destruct (engine_body _ _ _ _) as [r s] eqn:E. intros [= <- <- <-].
  destruct (engine_body_report options now no_sync_report _ _ _ E eq_refl) as [(don & rest & E1 & E2 & E3 & Ha) Hr].
  pose proof (Ha no_sync_report_accounts) as Hacc. split; [done|]. split; [by exists don, rest|]. split.
  - intros He. destruct r; [|done]. pose proof (ac_failed _ Hacc) as Hf. unfold with_status in Hf. lia.
  - intros cause He. destruct r as [|e]; [done|]. by injection He as ->.
Qed.

(** C8: the report of any run, also of one that fails, accounts for its feeds:
    the handled feeds are a beginning of the enabled, selected feeds in the
    order of the configuration, all of them unless a failure of the store
    stopped the run; every count is the number of results of its kind; a run
    succeeds only when no feed failed, and is degraded only when one did. *)
Theorem Run_report options now w report err w' :
  Engine_Run cfg options now w = ((report, err), w') ->
  accounts report /\
  (exists don rest, List.filter (selected options) (cf_Feeds cfg) = don ++ rest /\
     map fe_Name (sy_Feeds report) = map fc_Name don /\ (stops err = false -> rest = [])) /\
  (err = None -> sy_FeedsFailed report = 0) /\
  (forall cause, err = Some (SyncError syncer.ErrDegraded cause) -> 0 < sy_FeedsFailed report).
Proof. apply Engine_Run_report. Qed.
End Reports.
