(* ===== verification/SyncerStore.v ===== *)
(** * The engine with its store and its reconciler

    The engine over the store of this development and the reconciler of
    [Reconcile.v]: a feed that is not taken over keeps its entries, and a dry
    run leaves the database as it is. *)

From S2P Require Export StateAll SyncerRun ReconcileRun.

(** ** Composition *)

#[export] Instance feeds_and {Y} : FeedStore (SW * Y) := {|
  f_EnsureFeeds definitions now := on_fst (EnsureFeeds definitions now);
  f_ApplyFeedSnapshot name snapshot grace now := on_fst (ApplyFeedSnapshot name snapshot grace now);
  f_RecordFeedNotModified name etag lastModified now := on_fst (RecordFeedNotModified name etag lastModified now);
  f_RecordFeedFailure name category now next := on_fst (RecordFeedFailure name category now next);
  f_ListFeeds := on_fst ListFeeds;
  f_ListActiveEntries := on_fst ListActiveEntries |}.

#[export] Instance fetch_and {S Y} `{!FetchClient Y} : FetchClient (S * Y) := {|
  f_Fetch request := on_snd (f_Fetch request) |}.

(** The reconciler whose clock shows [now]. *)
Definition reconciler_at {Y} `{!LapiClient Y} `{!TokenSource Y} (rc : Reconciler) (now : Time)
  : ReconcileClient (SW * Y) := {| r_Run options w := Run rc options now false w |}.

(** ** Last known good *)

(** The names of the feeds stay, and the entries of every feed but [feed]. *)
Record elsewhere (feed : Z) (d d' : DB) : Prop := {
  el_names : forall i r, db_feeds d !! i = Some r -> exists r', db_feeds d' !! i = Some r' /\ fr_name r' = fr_name r;
  el_entries : forall k, k.1.1 <> feed -> db_entries d' !! k = db_entries d !! k }.

#[export] Instance elsewhere_preorder feed : PreOrder (elsewhere feed).
Proof.
  split.
  - intros d. split; [intros i r H; by exists r|done].
  - intros a b c [N1 E1] [N2 E2]. split.
    + intros i r H. apply N1 in H as (r1 & H & <-). by apply N2.
    + intros k Hk. by rewrite E2, E1.
Qed.

(** The names of the feeds stay, and the entries of the feed of a name. *)
Record spares (name : string) (d d' : DB) : Prop := {
  sp_names : forall i r, db_feeds d !! i = Some r -> exists r', db_feeds d' !! i = Some r' /\ fr_name r' = fr_name r;
  sp_entries : forall k r, db_feeds d !! k.1.1 = Some r -> fr_name r = name -> db_entries d' !! k = db_entries d !! k }.

#[export] Instance spares_preorder name : PreOrder (spares name).
Proof.
  split.
  - intros d. split; [intros i r H; by exists r|done].
  - intros a b c [N1 E1] [N2 E2]. split.
    + intros i r H. apply N1 in H as (r1 & H & <-). by apply N2.
    + intros k r Hr Hn. pose proof Hr as Hr1. apply N1 in Hr1 as (r1 & Hr1 & Hn1).
      by rewrite (E2 k r1 Hr1), (E1 k r Hr) by congruence.
Qed.

(** A change of the feeds that keeps their names. *)
Lemma renames_nothing name d d' : db_entries d' = db_entries d ->
  (forall i r, db_feeds d !! i = Some r -> exists r', db_feeds d' !! i = Some r' /\ fr_name r' = fr_name r) ->
  spares name d d'.
Proof. intros E H. split; [exact H|]. intros k r _ _. by rewrite E. Qed.

Lemma of_feed_elsewhere feed f d : elsewhere feed d (of_feed feed f d).
Proof.
  split; cbn; [intros i r H; by exists r|]. intros [[a b] c] Hk. cbn in Hk. rewrite map_lookup_imap.
  destruct (db_entries d !! (a, b, c)); cbn; [|done]. by destruct (Z.eqb_spec a feed).
Qed.

Lemma update_feed_names id f d : (forall r, fr_name (f r) = fr_name r) ->
  forall i r, db_feeds d !! i = Some r -> exists r', db_feeds (update_feed id f d) !! i = Some r' /\ fr_name r' = fr_name r.
Proof.
  intros Hf i r H. cbn. destruct (decide (i = id)) as [->|Hne].
  - rewrite lookup_alter_eq, H. by exists (f r).
  - rewrite lookup_alter_ne by done. by exists r.
Qed.

Lemma apply_snapshot_elsewhere feed snapshot grace now : does (elsewhere feed) (apply_snapshot feed snapshot grace now).
Proof.
  unfold apply_snapshot, apply_entry. does_tac.
  - apply does_update; [apply _|]. intros d. apply of_feed_elsewhere.
  - apply does_update; [apply _|]. intros d. split; cbn; [intros i r H; by exists r|].
    intros k Hk. rewrite lookup_insert_ne; [done|]. by intros <-.
  - apply does_stmt; [apply _|]. intros d n d' [= _ <-]. apply of_feed_elsewhere.
  - apply does_update; [apply _|]. intros d. split; [by apply update_feed_names|done].
Qed.

Lemma elsewhere_spares feed row name d d' :
  elsewhere feed d d' -> db_feeds d !! feed = Some row -> fr_name row <> name -> spares name d d'.
Proof.
  intros [N E] Hrow Hn. split; [exact N|]. intros k r Hr Hk. apply E. intros Ek. rewrite Ek in Hr. congruence.
Qed.

Lemma ApplyFeedSnapshot_spares name other snapshot grace now : other <> name ->
  does (spares name) (ApplyFeedSnapshot other snapshot grace now).
Proof.
  intros Hne. unfold ApplyFeedSnapshot. apply require_then; [apply _|intros _]. apply require_then; [apply _|intros _].
  apply does_tx; [apply _|]. intros w r w' H. unfold snapshot_body, mthen in H.
  destruct (wrap _ _ w) as [[feed|e] w1] eqn:E1.
  2:{ injection H as _ <-. eapply (does_wrap (spares name)); [|exact E1]. apply does_query, _. }
  apply wrap_Ok, query_db in E1 as [E1 Hf]. specialize (Hf feed eq_refl). rewrite <- E1 in Hf |- *.
  destruct feed as [id|]; [|by injection H as _ <-].
  apply apply_snapshot_elsewhere in H. symmetry in Hf. apply find_row_Some in Hf as (row & Hrow & Hn).
  apply String.eqb_eq in Hn. eapply elsewhere_spares; [exact H|exact Hrow|congruence].
Qed.

Lemma update_named_spares name target p f e : (forall r, fr_name (f r) = fr_name r) ->
  does (spares name) (let! n := wrap state.ErrQuery (stmt (update_named target p f)) in require (n =? 1) e).
Proof.
  intros Hf. does_tac. apply does_stmt; [apply _|]. intros d n d' H.
  apply update_named_is_update in H as [->|(id & ->)]; [reflexivity|].
  apply renames_nothing; [done|by apply update_feed_names].
Qed.

Lemma upsert_feed_spares name now f d : spares name d (upsert_feed now f d).
Proof.
  apply renames_nothing; unfold upsert_feed.
  - by destruct (feed_by_name _ _).
  - intros i r H. destruct (feed_by_name _ _) as [id|]; cbn.
    + destruct (decide (i = id)) as [->|Hne]; [rewrite lookup_alter_eq, H; by eexists|].
      rewrite lookup_alter_ne by done. by exists r.
    + rewrite lookup_insert_ne; [by exists r|]. intros <-. by rewrite next_id_fresh in H.
Qed.

Lemma EnsureFeeds_spares name definitions now : does (spares name) (EnsureFeeds definitions now).
Proof.
  unfold EnsureFeeds, ensure_body. does_tac.
  - apply does_update; [apply _|]. intros d. apply renames_nothing; [done|]. intros i r H. cbn.
    rewrite lookup_fmap, H. by eexists.
  - apply does_update; [apply _|]. intros d. apply upsert_feed_spares.
  - apply does_stmt; [apply _|]. intros d record d'. destruct (select_feed _ d); [|done]. intros [= _ <-]. reflexivity.
Qed.

Lemma RecordFeedFailure_spares name target category now next :
  does (spares name) (RecordFeedFailure target category now next).
Proof. unfold RecordFeedFailure. apply require_then; [apply _|intros _]. by apply update_named_spares. Qed.

Lemma RecordFeedNotModified_spares name target etag lastModified now :
  does (spares name) (RecordFeedNotModified target etag lastModified now).
Proof. unfold RecordFeedNotModified. apply require_then; [apply _|intros _]. by apply update_named_spares. Qed.

Lemma ApplyFeedSnapshot_err name snapshot grace now : err_same (ApplyFeedSnapshot name snapshot grace now).
Proof.
  unfold ApplyFeedSnapshot. apply err_same_then; [does_tac|intros _]. apply err_same_then; [does_tac|intros _].
  intros w e w' H. by apply tx_Err in H.
Qed.

(** ** The relation of a run to what it found *)

Section Runs.
Context {Y : Type} `{!FetchClient Y} `{!LapiClient Y} `{!TokenSource Y}.
Context {codec : SpamhausCodec} {definitions_codec : DefinitionCodec}.
Context (cfg : Config) (rc : Reconciler) (clock : Time).

#[local] Instance run_reconciler : ReconcileClient (SW * Y) := reconciler_at rc clock.

Abbreviation World := (EW (W := SW * Y)).
Definition db_of (s : World) : DB := sw_db (ew_world s).1.

Definition taken_over (name : string) (report : SyncReport) : Prop :=
  exists f, In f (sy_Feeds report) /\ fe_Name f = name /\ fe_Status f = FeedSucceeded.

(** From [s] to [s'] the feed of the name was taken over or kept its entries. *)
Record last_good (name : string) (s s' : World) : Prop := {
  lg_db : spares name (db_of s) (db_of s') \/ taken_over name (ew_report s');
  lg_report : taken_over name (ew_report s) -> taken_over name (ew_report s') }.

#[export] Instance last_good_preorder name : PreOrder (last_good name).
Proof.
  split.
  - intros s. split; [by left|done].
  - intros a b c [D1 R1] [D2 R2]. split; [|auto]. destruct D2 as [D2|D2]; [|by right].
    destruct D1 as [D1|D1]; [left; by transitivity (db_of b)|right; auto].
Qed.

Definition runs_to (R : World -> World -> Prop) {A} (m : EM (W := SW * Y) A) : Prop :=
  forall s r s', m s = (r, s') -> R s s'.

Lemma goes_mok (R : World -> World -> Prop) `{!PreOrder R} {A} (r : result error A) : runs_to R (fun s => (r, s)).
Proof. intros s r' s' [= _ <-]. reflexivity. Qed.
Lemma goes_then (R : World -> World -> Prop) `{!PreOrder R} {A B} (m : EM A) (k : A -> EM B) :
  runs_to R m -> (forall a, runs_to R (k a)) -> runs_to R (mthen m k).
Proof.
  intros Hm Hk s r s' H. unfold mthen in H. destruct (m s) as [[a|e] s1] eqn:E.
  - transitivity s1; [by eapply Hm|by eapply Hk].
  - injection H as _ <-. by eapply Hm.
Qed.
Lemma goes_for (R : World -> World -> Prop) `{!PreOrder R} {A} (body : A -> EM unit) xs :
  (forall x, runs_to R (body x)) -> runs_to R (mfor body xs).
Proof. intros Hb. induction xs; cbn [mfor]; [apply goes_mok, _|]. by apply goes_then; [apply _| |]. Qed.
Lemma goes_fold (R : World -> World -> Prop) `{!PreOrder R} {A B} (body : B -> A -> EM B) xs :
  (forall b x, runs_to R (body b x)) -> forall b, runs_to R (mfold body b xs).
Proof. intros Hb. induction xs; intros b; cbn [mfold]; [apply goes_mok, _|]. by apply goes_then; [apply _| |]. Qed.
Lemma runs_efailing (R : World -> World -> Prop) {A} c (m : EM A) : runs_to R m -> runs_to R (efailing c m).
Proof. intros Hm s r s' H. apply efailing_report in H as (r1 & H & _). by eapply Hm. Qed.
Lemma runs_elift (R : World -> World -> Prop) `{!PreOrder R} {A} (r : result error A) : runs_to R (elift r).
Proof. unfold elift. destruct r; apply (goes_mok R (_)). Qed.

(** A store call that spares the feed. *)
Lemma runs_store name {A} (m : Store A) : does (spares name) m -> runs_to (last_good name) (ecall (on_fst m)).
Proof.
  intros Hm s r s' H. unfold ecall, on_fst in H. destruct (m (ew_world s).1) as [r1 w1] eqn:E. injection H as _ <-.
  split; [left|done]. by apply (Hm _ _ _ E).
Qed.

Lemma runs_report name f : (forall r, exists x, sy_Feeds (f r) = sy_Feeds r ++ [x]) ->
  runs_to (last_good name) (ereport (W := SW * Y) f).
Proof.
  intros Hf s r s' [= _ <-]. split; [by left|]. intros (x & Hin & Hx). exists x. split; [|done].
  cbn [ew_report]. destruct (Hf (ew_report s)) as (y & ->). apply in_or_app. by left.
Qed.

Lemma fetch_feed_db configured record changed now (s : World) r s' :
  fetch_feed cfg configured record changed now s = (r, s') -> db_of s' = db_of s.
Proof.
  intros H. unfold fetch_feed, mtry, ecall, db_of in *. cbv zeta in H. cbn in H. unfold on_snd in H.
  destruct (f_Fetch _ _) as [[result|cause] y]; [|by injection H as _ <-].
  destruct (ft_NotModified result); [by injection H as _ <-|].
  by destruct (parseFetched _ _ _ _) as [[snapshot n]|cause]; injection H as _ <-.
Qed.

Lemma runs_fetch name configured record changed now :
  runs_to (last_good name) (fetch_feed cfg configured record changed now).
Proof.
  intros s r s' H. pose proof (fetch_feed_Ok _ _ _ _ _ _ _ _ H) as [E1 _]. apply fetch_feed_db in H as E2.
  split; [left; by rewrite E2|by rewrite E1].
Qed.

Lemma runs_failed_feed name configured record now cause :
  runs_to (last_good name) (recordFeedFailure cfg configured record now cause).
Proof.
  unfold recordFeedFailure. apply goes_then; [apply _| |intros _].
  - apply runs_efailing, runs_store, RecordFeedFailure_spares.
  - apply runs_report. intros r. by eexists.
Qed.

Lemma runs_sync_feed name options now byName changed configured :
  runs_to (last_good name) (sync_feed cfg options now byName changed configured).
Proof.
  unfold sync_feed. destruct (selected options configured); cbn [negb]; [|apply goes_mok, _]. cbv zeta.
  destruct (_ && _); [apply runs_report; intros r; by eexists|].
  apply goes_then; [apply _|apply runs_fetch|intros outcome]. destruct outcome as [cause|result|result snapshot n].
  - apply runs_failed_feed.
  - apply goes_then; [apply _| |intros _]; [|apply runs_report; intros r; by eexists].
    apply runs_efailing, runs_store, RecordFeedNotModified_spares.
  - destruct (decide (fc_Name configured = name)) as [<-|Hne].
    + intros s r s' H. apply store_then_report in H as Hr. destruct Hr as [[_ Hr]|(e & _ & _ & Hr)].
      * split; [right|]; rewrite Hr; exists (succeeded_result configured snapshot n); (split; [|done]);
          apply in_or_app; right; by left.
      * split; [left|by rewrite Hr]. unfold mthen in H. destruct (efailing _ _ s) as [[x|e1] s1] eqn:E; [injection H as _ <-|].
        { exfalso. cbn in Hr. apply efailing_report in E as (r1 & E & _). apply ecall_report in E. rewrite E in Hr.
          apply (f_equal (fun r => List.length (sy_Feeds r))) in Hr. cbn in Hr. rewrite length_app in Hr. cbn in Hr. lia. }
        injection H as _ <-. apply efailing_report in E as (r1 & E & e2 & -> & _).
        unfold ecall in E. cbn in E. unfold on_fst in E.
        destruct (ApplyFeedSnapshot _ _ _ _ _) as [r2 w2] eqn:Ea. injection E as -> <-.
        unfold db_of. cbn. apply ApplyFeedSnapshot_err in Ea. rewrite Ea. reflexivity.
    + apply goes_then; [apply _| |intros _]; [|apply runs_report; intros r; by eexists].
      apply runs_efailing, runs_store. by apply ApplyFeedSnapshot_spares.
Qed.

Lemma runs_reconcile name options : runs_to (last_good name) (reconcile_all options).
Proof.
  intros s r s' H. pose proof (reconcile_all_report _ _ _ _ H) as (Hf & _).
  assert (spares name (db_of s) (db_of s')) as Hs.
  { unfold reconcile_all in H. cbn [r_Run run_reconciler reconciler_at] in H.
    destruct (Run rc options clock false (ew_world s)) as [[report err] w] eqn:E.
    apply Run_same_feeds in E as [E1 E2].
    assert (db_of s' = sw_db w.1) as -> by (destruct err; [|destruct (0 <? _)]; by injection H as _ <-).
    apply renames_nothing; unfold db_of; [by rewrite E2|]. intros i row Hi. rewrite E1. by exists row. }
  split; [by left|]. intros (x & Hin & Hx). exists x. by rewrite Hf.
Qed.

Lemma runs_engine name options now : runs_to (last_good name) (engine_body cfg options now).
Proof.
  unfold engine_body. apply goes_then; [apply _|apply runs_elift, _|intros _].
  apply goes_then; [apply _|apply runs_elift, _|intros _]. destruct (so_DryRun options).
  - unfold runDry. apply goes_then; [apply _| |intros records].
    { apply runs_efailing, runs_store. unfold ListFeeds. does_tac. }
    apply goes_then; [apply _| |intros entries].
    { apply runs_efailing, runs_store. unfold ListActiveEntries, queryEntries. does_tac. }
    apply goes_then; [apply _|apply runs_elift, _|intros p]. apply goes_then; [apply _| |intros es; apply runs_reconcile].
    apply goes_fold; [apply _|]. intros acc configured. unfold dry_feed.
    destruct (selected options configured); cbn [negb]; [|apply goes_mok, _]. cbv zeta.
    destruct (_ && _); [apply goes_then; [apply _|apply runs_report; intros r; by eexists|intros _; apply goes_mok, _]|].
    apply goes_then; [apply _|apply runs_fetch|intros outcome].
    destruct outcome; (apply goes_then; [apply _|apply runs_report; intros r'; by eexists|intros _; apply goes_mok, _]).
  - unfold enforce_feeds. apply goes_then; [apply _|apply runs_efailing, runs_elift, _|intros definitions].
    apply goes_then; [apply _| |intros previous].
    { apply runs_efailing, runs_store. unfold ListFeeds. does_tac. }
    apply goes_then; [apply _|apply runs_efailing, runs_store, EnsureFeeds_spares|intros records].
    apply goes_then; [apply _| |intros _; apply runs_reconcile]. apply goes_for; [apply _|]. intros configured.
    apply runs_sync_feed.
Qed.

(** C2: last known good: in any run, with any faults of the store and any
    answers from the network, a feed that the report does not show as taken
    over keeps all its entries, and every feed keeps its name. *)
Theorem Run_last_known_good options now (w : SW * Y) report err (w' : SW * Y) name :
  Engine_Run cfg options now w = ((report, err), w') ->
  (forall f, In f (sy_Feeds report) -> fe_Name f = name -> fe_Status f <> FeedSucceeded) ->
  forall (k : Z * string * Z) r, db_feeds (sw_db w.1) !! k.1.1 = Some r -> fr_name r = name ->
    db_entries (sw_db w'.1) !! k = db_entries (sw_db w.1) !! k /\
    exists r', db_feeds (sw_db w'.1) !! k.1.1 = Some r' /\ fr_name r' = name.
Proof.
  unfold Engine_Run. destruct (engine_body _ _ _ _) as [r s] eqn:E. intros [= <- <- <-] Hno k row Hrow Hn.
  destruct (runs_engine name options now _ _ _ E) as [[[N En]|(f & Hin & Hf & Hs)] _].
  - split; [by apply (En k row)|]. destruct (N _ _ Hrow) as (r' & Hr' & Hn'). exists r'. split; [exact Hr'|congruence].
  - destruct (Hno f Hin Hf Hs).
Qed.
End Runs.

(** ** Dry runs *)

(** A reconciliation without effects leaves the database as it is. *)
Lemma Run_dry_db {Y} `{!LapiClient Y} `{!TokenSource Y} rc options now (w : SW * Y) out w' :
  ro_DryRun options = true -> Run rc options now false w = (out, w') -> sw_db w'.1 = sw_db w.1.
Proof.
  intros Hdry H. set (I := fun v : SW * Y => sw_db v.1 = sw_db w.1).
  assert (forall A (m : Store A), does eq m -> keepsW I (on_fst m)) as Hread.
  { intros A m Hm [v y] r' [v' y'] Hv Hi. unfold on_fst in Hv. cbn in Hv. destruct (m v) as [r1 v1] eqn:Em.
    injection Hv as _ <- _. unfold I in *. cbn in *. rewrite <- Hi. symmetry. by eapply Hm. }
  refine (run_dry_keeps rc I options now w out w' _ _ _ Hdry H eq_refl); apply Hread;
    [unfold ListActiveEntries, queryEntries; does_tac|apply ListEnforcementObjects_does, _|unfold ListActiveDecisions; does_tac].
Qed.

Section DryRuns.
Context {Y : Type} `{!FetchClient Y} `{!LapiClient Y} `{!TokenSource Y}.
Context {codec : SpamhausCodec} {definitions_codec : DefinitionCodec}.
Context (cfg : Config) (rc : Reconciler) (clock : Time).
#[local] Instance dry_reconciler : ReconcileClient (SW * Y) := reconciler_at rc clock.

(** A step that leaves the database alone. *)
Definition same_db (s s' : EW (W := SW * Y)) : Prop := db_of s' = db_of s.

#[export] Instance same_db_preorder : PreOrder same_db.
Proof. split; [done|]. intros a b c H1 H2. unfold same_db in *. congruence. Qed.

Lemma reads_store {A} (m : Store A) : does eq m -> runs_to same_db (ecall (on_fst m)).
Proof.
  intros Hm s r s' H. unfold ecall, on_fst in H. destruct (m (ew_world s).1) as [r1 w1] eqn:E. injection H as _ <-.
  symmetry. by eapply Hm.
Qed.

Lemma reads_report f : runs_to same_db (ereport (W := SW * Y) f).
Proof. by intros s r s' [= _ <-]. Qed.

Lemma reads_fetch configured record changed now : runs_to same_db (fetch_feed cfg configured record changed now).
Proof. intros s r s' H. by apply fetch_feed_db in H. Qed.

(** C9: a dry run stores nothing: whatever it downloads and plans, and however
    it ends, the database is the one it started with. *)
Theorem Run_dry_stores_nothing options now (w : SW * Y) out (w' : SW * Y) :
  so_DryRun options = true -> Engine_Run cfg options now w = (out, w') -> sw_db w'.1 = sw_db w.1.
Proof.
  intros Hdry. unfold Engine_Run. destruct (engine_body _ _ _ _) as [r s] eqn:E. intros [= _ <-].
  change (same_db (MkEW w no_sync_report) s). revert E. generalize (MkEW w no_sync_report). intros s0 E.
  revert s0 r s E. change (runs_to same_db (engine_body cfg options now)). unfold engine_body. rewrite Hdry. unfold runDry.
  apply goes_then; [apply _|apply runs_elift, _|intros _]. apply goes_then; [apply _|apply runs_elift, _|intros _].
  apply goes_then; [apply _|apply runs_efailing, reads_store; unfold ListFeeds; does_tac|intros records].
  apply goes_then; [apply _|apply runs_efailing, reads_store; unfold ListActiveEntries, queryEntries; does_tac|intros entries].
  apply goes_then; [apply _|apply runs_elift, _|intros p]. apply goes_then; [apply _| |intros es].
  - apply goes_fold; [apply _|]. intros acc configured. unfold dry_feed.
    destruct (selected options configured); cbn [negb]; [|apply goes_mok, _]. cbv zeta.
    destruct (_ && _); [apply goes_then; [apply _|apply reads_report|intros _; apply goes_mok, _]|].
    apply goes_then; [apply _|apply reads_fetch|intros outcome].
    destruct outcome; (apply goes_then; [apply _|apply reads_report|intros _; apply goes_mok, _]).
  - intros s r s' H. unfold reconcile_all in H. cbn [r_Run dry_reconciler reconciler_at] in H.
    destruct (Run _ _ _ _ _) as [[report err] w1] eqn:E. apply Run_dry_db in E; [|done].
    unfold same_db, db_of. rewrite <- E. destruct err; [|destruct (0 <? _)]; by injection H as _ <-.
Qed.
End DryRuns.

(** ** What a run of the engine cannot change

    A property of the world that every call of the engine keeps is kept by its
    runs, over any store, fetcher and reconciler; a dry run makes fewer calls. *)

Section EngineKeeps.
Context {W : Type} `{!FeedStore W} `{!FetchClient W} `{!ReconcileClient W}.
Context {codec : SpamhausCodec} {definitions_codec : DefinitionCodec}.
Context (cfg : Config) (I : W -> Prop).

Definition keepsE {A} (m : EM (W := W) A) : Prop := forall s r s', m s = (r, s') -> I (ew_world s) -> I (ew_world s').

Lemma ke_ok {A} (r : result error A) : keepsE (fun s => (r, s)).
Proof. by intros s r' s' [= _ <-]. Qed.
Lemma ke_report f : keepsE (ereport f).
Proof. by intros s r s' [= _ <-]. Qed.
Lemma ke_call {A} (m : M W error A) : keepsW I m -> keepsE (ecall m).
Proof. intros Hm s r s'. unfold ecall. destruct (m (ew_world s)) as [r0 w0] eqn:E. intros [= _ <-]. by apply (Hm _ _ _ E). Qed.
Lemma ke_try {A B} (m : EM A) (k : result error A -> EM B) : keepsE m -> (forall r, keepsE (k r)) -> keepsE (mtry m k).
Proof.
  intros Hm Hk s r s' H Hi. unfold mtry in H. destruct (m s) as [r1 s1] eqn:E. eapply Hk; [exact H|]. by eapply Hm.
Qed.
Lemma ke_then {A B} (m : EM A) (k : A -> EM B) : keepsE m -> (forall a, keepsE (k a)) -> keepsE (mthen m k).
Proof.
  intros Hm Hk s r s' H Hi. unfold mthen in H. destruct (m s) as [[a|e] s1] eqn:E.
  - eapply Hk; [exact H|]. by eapply Hm.
  - injection H as <- <-. by eapply Hm.
Qed.
Lemma ke_for {A} (body : A -> EM unit) xs : (forall x, keepsE (body x)) -> keepsE (mfor body xs).
Proof. intros Hb. induction xs as [|x xs IH]; cbn [mfor]; [apply ke_ok|]. by apply ke_then. Qed.
Lemma ke_fold {A B} (body : B -> A -> EM B) xs : (forall b x, keepsE (body b x)) -> forall b, keepsE (mfold body b xs).
Proof. intros Hb. induction xs as [|x xs IH]; intros b; cbn [mfold]; [apply ke_ok|]. by apply ke_then. Qed.

Definition keeps_reconcile (dry : bool) : Prop :=
  forall options w out w', ro_DryRun options = dry -> r_Run options w = (out, w') -> I w -> I w'.

(** The calls of every run, and those of a run that enforces. *)
Record engine_reads : Prop := {
  er_feeds : keepsW I f_ListFeeds;
  er_entries : keepsW I f_ListActiveEntries;
  er_fetch : forall request, keepsW I (f_Fetch request) }.
Record engine_writes : Prop := {
  ew_ensure : forall definitions now, keepsW I (f_EnsureFeeds definitions now);
  ew_apply : forall name snapshot grace now, keepsW I (f_ApplyFeedSnapshot name snapshot grace now);
  ew_not_modified : forall name etag modified now, keepsW I (f_RecordFeedNotModified name etag modified now);
  ew_failure : forall name category now next, keepsW I (f_RecordFeedFailure name category now next) }.

Lemma ke_reconcile options : keeps_reconcile (ro_DryRun options) -> keepsE (reconcile_all options).
Proof.
  intros Hr s r s' H Hi. unfold reconcile_all in H. destruct (r_Run options (ew_world s)) as [[report err] w] eqn:E.
  pose proof (Hr options _ _ _ eq_refl E Hi) as Hw. destruct err; [|destruct (0 <? _)]; by injection H as _ <-.
Qed.

Context (Hr : engine_reads).

Ltac engine_step :=
  match goal with
  | |- forall _, _ => intros ?
  | |- keepsE (mthen _ _) => apply ke_then
  | |- keepsE (mtry _ _) => apply ke_try
  | |- keepsE (mfor _ _) => apply ke_for
  | |- keepsE (mfold _ _ _) => apply ke_fold
  | |- keepsE (mok _) => apply ke_ok
  | |- keepsE (mfail _) => apply ke_ok
  | |- keepsE (ereport _) => apply ke_report
  | |- keepsE (efailing _ _) => unfold efailing
  | |- keepsE (elift _) => unfold elift
  | |- keepsE (ecall _) => apply ke_call; first [apply Hr | match goal with Hw : engine_writes |- _ => apply Hw end]
  | |- keepsE (match ?x with _ => _ end) => destruct x
  end.
Ltac engine_tac := cbv zeta; repeat engine_step.

Lemma ke_fetch configured record changed now : keepsE (fetch_feed cfg configured record changed now).
Proof. unfold fetch_feed. engine_tac. Qed.

Lemma ke_runDry options now : keeps_reconcile true -> keepsE (runDry cfg options now).
Proof.
  intros Hd. unfold runDry, dry_feed. engine_tac; first [by apply ke_reconcile|apply ke_fetch|idtac].
Qed.

Lemma ke_enforce options now : engine_writes -> keeps_reconcile false -> keepsE (enforce_feeds cfg options now).
Proof.
  intros Hw Hd. unfold enforce_feeds, sync_feed, recordFeedFailure. engine_tac; first [by apply ke_reconcile|apply ke_fetch|idtac].
Qed.

Lemma engine_keeps options now w out w' :
  (so_DryRun options = false -> engine_writes) -> keeps_reconcile (so_DryRun options) ->
  Engine_Run cfg options now w = (out, w') -> I w -> I w'.
Proof.
  intros Hw Hd. unfold Engine_Run. destruct (engine_body _ _ _ _) as [r s] eqn:E. intros [= _ <-].
  assert (keepsE (engine_body cfg options now)) as H; [|by apply (H _ _ _ E)].
  unfold engine_body. destruct (so_DryRun options); engine_tac; [by apply ke_runDry|by apply ke_enforce; [apply Hw|]].
Qed.
End EngineKeeps.
