(* ===== verification/SyncerExamples.v ===== *)
(** * Synchronisation runs, evaluated

    A feed that is taken over, fails, and answers "not modified", against the
    in-memory server; they are the witnesses of the theorems on the engine. *)

From S2P Require Export SyncerStore.

(** ** A scripted network *)

Definition script : Type := list (result error FetchResult) * list FetchRequest.

(** The answers to come, and the requests made, the last one first. *)
#[export] Instance script_fetch {Y} : FetchClient (script * Y) := {|
  f_Fetch request := fun sy =>
    match sy.1.1 with
    | [] => (Err (feedError feed.ErrRequest None), (([], request :: sy.1.2), sy.2))
    | answer :: rest => (answer, ((rest, request :: sy.1.2), sy.2))
    end |}.

#[export] Instance ex_sync_lapi : LapiClient (CW Server * list string) := client_and ex_client.
#[export] Instance ex_definition_codec : DefinitionCodec := {|
  json_definition f := Ok (fc_Name f +:+ " " +:+ fc_URL f +:+ " " +:+ fc_Format f) |}.

Definition ex_feed (url : string) : FeedConfig :=
  MkFeedConfig "ranges" true url "plain" "any" (30 * Second) 1048576 1 100 (float_of 3 2) (float_of 1 2) "test" Hour
    false ["text/plain"] true 10 (float_of 1 100).

Definition ex_config (feeds : list FeedConfig) : Config :=
  let d := Defaults "dev" in
  MkConfig (cf_Server d) (cf_Schedule d) (cf_Database d) (cf_CrowdSec d) (cf_Decisions d) feeds (cf_Allowlists d)
    (cf_Validation d) (cf_Logging d) (cf_Notifications d).

Definition url_a : string := "https://lists.example/a".
Definition url_b : string := "https://lists.example/b".

Definition ex_body : string := "8.8.8.0/24" +:+ newline +:+ "9.9.0.0/16" +:+ newline.
Definition ex_answer : result error FetchResult := Ok (MkFetchResult ex_body false "v1" "" "").
Definition ex_unchanged : result error FetchResult := Ok (MkFetchResult "" true "" "" "").
Definition ex_broken : result error FetchResult := Err (feedError feed.ErrRequest None).

Definition SyncWorld : Type := SW * (script * (CW Server * list string)).

Definition ex_tokens_all : list string :=
  ["00000000000000000000000000000001"; "00000000000000000000000000000002"; "00000000000000000000000000000003";
   "00000000000000000000000000000004"].

Definition ex_start : SyncWorld :=
  (MkSW empty_db [], (([], []), (MkCW "" zero_time (ex_server ex_now), ex_tokens_all))).

(** The world with other answers to come, and no requests noted. *)
Definition with_answers (answers : list (result error FetchResult)) (w : SyncWorld) : SyncWorld :=
  (w.1, ((answers, []), w.2.2)).
Definition requests (w : SyncWorld) : list FetchRequest := w.2.1.2.

Abbreviation ex_sync feeds options now w :=
  (Engine_Run (W := SyncWorld) (ReconcileClient0 := reconciler_at ex_reconciler now) (codec := ex_codec) (ex_config feeds)
     options now w).

Definition ex_all : SyncOptions := MkSyncOptions "" false.
Definition ex_dry_all : SyncOptions := MkSyncOptions "" true.

Definition at_hour (n : Z) : Time := time_Add ex_now (n * Hour).

(** The first run takes the feed over. *)
Definition ex_run1 := ex_sync [ex_feed url_a] ex_all ex_now (with_answers [ex_answer] ex_start).
(** The feed moves, and its first download fails. *)
Abbreviation ex_run2 := (ex_sync [ex_feed url_b] ex_all (at_hour 2) (with_answers [ex_broken] ex_run1.2)).
(** At the new place the server answers "not modified". *)
Abbreviation ex_run3 := (ex_sync [ex_feed url_b] ex_all (at_hour 4) (with_answers [ex_unchanged] ex_run2.2)).

Lemma Run_report_witness :
  exists report w', ex_run2 = ((report, Some (syncError syncer.ErrDegraded None)), w') /\
    accounts report /\ 0 < sy_FeedsFailed report.
Proof.
  destruct ex_run2 as [[report err] w'] eqn:E. exists report, w'.
  assert (err = Some (syncError syncer.ErrDegraded None)) as ->.
  { change err with ((report, err, w').1.2). rewrite <- E. vm_compute. reflexivity. }
  split; [reflexivity|].
  destruct (Run_report (ReconcileClient0 := reconciler_at ex_reconciler (at_hour 2)) (codec := ex_codec)
    (ex_config [ex_feed url_b]) ex_all (at_hour 2) (with_answers [ex_broken] ex_run1.2) report _ w' E)
    as (Ha & _ & _ & Hd).
  split; [exact Ha|]. exact (Hd None eq_refl).
Defined.

Definition ex_key : Z * string * Z := (1, "8.8.8.0/24"%string, 2).

Lemma Run_last_known_good_witness :
  exists r report err w', ex_run2 = ((report, err), w') /\ db_entries (sw_db w'.1) !! ex_key = Some r /\ ey_active r = true.
Proof.
  destruct ex_run2 as [[report err] w'] eqn:E.
  assert (exists r, db_entries (sw_db (with_answers [ex_broken] ex_run1.2).1) !! ex_key = Some r /\ ey_active r = true)
    as (r & Hr & Ha) by (vm_compute; eauto).
  assert (exists row, db_feeds (sw_db (with_answers [ex_broken] ex_run1.2).1) !! ex_key.1.1 = Some row /\
    fr_name row = "ranges") as (row & Hrow & Hn) by (vm_compute; eauto).
  assert (forall f, In f (sy_Feeds report) -> fe_Name f = "ranges" -> fe_Status f <> FeedSucceeded) as Hno.
  { change report with ((report, err, w').1.1). rewrite <- E. intros f Hf _. vm_compute in Hf.
    destruct Hf as [<-|[]]. by vm_compute. }
  exists r, report, err, w'. split; [reflexivity|].
  destruct (Run_last_known_good (codec := ex_codec) (ex_config [ex_feed url_b]) ex_reconciler (at_hour 2) ex_all (at_hour 2)
    (with_answers [ex_broken] ex_run1.2) report err w' "ranges" E Hno ex_key row Hrow Hn) as [Hk _].
  split; [rewrite Hk; exact Hr|exact Ha].
Defined.

(** A dry run with a smaller list, after the first run. *)
Definition ex_smaller : result error FetchResult :=
  Ok (MkFetchResult ("8.8.8.0/24" +:+ newline +:+ "9.9.9.0/24" +:+ newline) false "v2" "" "").
Abbreviation ex_run_dry := (ex_sync [ex_feed url_a] ex_dry_all (at_hour 2) (with_answers [ex_smaller] ex_run1.2)).

Lemma Run_dry_stores_nothing_witness :
  exists out w', ex_run_dry = (out, w') /\ sy_Reconcile out.1 = MkReport 1 0 1 0 0 1 0 /\
    sw_db w'.1 = sw_db (with_answers [ex_smaller] ex_run1.2).1.
Proof.
  destruct ex_run_dry as [out w'] eqn:E. exists out, w'. split; [reflexivity|]. split.
  - change out with ((out, w').1). rewrite <- E. vm_compute. reflexivity.
  - exact (Run_dry_stores_nothing (codec := ex_codec) (ex_config [ex_feed url_a]) ex_reconciler (at_hour 2) ex_dry_all
      (at_hour 2) (with_answers [ex_smaller] ex_run1.2) out w' eq_refl E).
Defined.

(** The guard against a "not modified" answer after a change of the
    definition holds for one run only: when the first download from the new
    place fails, the next request carries the validators of the old place, and
    "not modified" is taken as the state of the new one; the entries of the old
    place stay in force. *)
Theorem moved_feed_not_modified :
  requests ex_run2.2 = [fetch_request (ex_feed url_b) "" ""] /\
  requests ex_run3.2 = [fetch_request (ex_feed url_b) "v1" ""] /\
  ex_run3.1.2 = None /\
  sy_Feeds ex_run3.1.1 = [MkFeedResult "ranges" FeedUnchanged 2 0 ""] /\
  (fun r => (ey_active r, ey_missing r)) <$> db_entries (sw_db ex_run3.2.1) !! ex_key = Some (true, 0).
Proof. vm_compute. split_and!; reflexivity. Qed.
