(* ===== verification/AppResult.v ===== *)
(** * Results of synchronisation runs ([internal/app/result.go])

    The report and the error of a run become an operational result of closed
    vocabulary; nothing of the error's text or causes is kept.  Every report
    the engine can produce is accepted. *)

From S2P Require Export SyncerRun Ops.

Definition ErrInvalidSyncReport : error := Foreign "invalid synchronization report".

Definition maxOperationalCount : Z := 100000000.

(** An [int] converts to an [int64] unchanged. *)
Definition boundedInt (value : Z) : option Z :=
  if (0 <=? value) && (value <=? maxOperationalCount) then Some value else None.

Definition addBounded (left right : Z) : option Z :=
  if (left <? 0) || (right <? 0) || (maxOperationalCount - right <? left) then None else Some (left + right).

Definition feedFailure (errorClass : string) : FailureCategory * bool :=
  if one_of errorClass (map category_text
       [feed.ErrRequest; feed.ErrSSRF; feed.ErrRedirect; feed.ErrHTTPStatus; feed.ErrBodySize; feed.ErrContentType;
        feed.ErrHTML; feed.ErrResponseHeader]) then (FailureFeedDownload, true)
  else if one_of errorClass (map category_text
       [feed.ErrFormat; feed.ErrPolicy; feed.ErrEmpty; feed.ErrLineTooLong; feed.ErrTruncated; feed.ErrMetadata;
        feed.ErrMalformedThreshold; feed.ErrEntryCount; feed.ErrSuspiciousChange]) then (FailureFeedValidation, false)
  else (FailureRuntime, false).

Definition feed_outcome (input : FeedResult) : result error (Outcome * FailureCategory) :=
  let without (o : Outcome) := if String.eqb (fe_ErrorClass input) "" then Ok (o, ""%string) else Err ErrInvalidSyncReport in
  if String.eqb (fe_Status input) FeedSucceeded then without OutcomeSuccess
  else if String.eqb (fe_Status input) FeedUnchanged then without OutcomeNotModified
  else if String.eqb (fe_Status input) FeedNotDue then without OutcomeNotDue
  else if String.eqb (fe_Status input) FeedFailed then Ok (OutcomeFailed, (feedFailure (fe_ErrorClass input)).1)
  else Err ErrInvalidSyncReport.

Definition operationalFeedResult (input : FeedResult) : result error ops_FeedResult :=
  match boundedInt (fe_Accepted input), boundedInt (fe_Rejected input) with
  | Some accepted, Some rejected =>
      let? (outcome, failure) := feed_outcome input in
      let result := MkOpsFeedResult (fe_Name input) outcome failure accepted rejected in
      if FeedResult_valid result then Ok result else Err ErrInvalidSyncReport
  | _, _ => Err ErrInvalidSyncReport
  end.

(** The loop of a degraded run over its feeds. *)
Definition degraded_feed (st : FailureCategory * bool) (item : ops_FeedResult) : FailureCategory * bool :=
  let '(failure, retryable) := st in
  if negb (String.eqb (fres_Outcome item) OutcomeFailed) && negb (String.eqb (fres_Outcome item) OutcomeDegraded) then st
  else
    (if String.eqb (fres_Failure item) FailureFeedValidation then FailureFeedValidation
     else if negb (String.eqb failure FailureFeedValidation) && String.eqb (fres_Failure item) FailureFeedDownload
     then FailureFeedDownload else failure,
     if String.eqb (fres_Failure item) FailureFeedDownload then true else retryable).

Definition classifyFailure (err : error) (feeds : list ops_FeedResult) : FailureCategory * bool :=
  if is_Canceled err then (FailureCancelled, false)
  else if is_DeadlineExceeded err then (FailureTimeout, true)
  else if syncer_IsCategory err syncer.ErrConfig || syncer_IsCategory err syncer.ErrSelection then (FailureConfig, false)
  else if syncer_IsCategory err syncer.ErrState then (FailureDatabase, true)
  else if syncer_IsCategory err syncer.ErrDegraded then fold_left degraded_feed feeds (FailureRuntime, false)
  else if lapi_IsCategory err lapi.ErrAuth then (FailureLAPIAuth, false)
  else if reconcile_IsCategory err reconcile.ErrState then (FailureDatabase, true)
  else if reconcile_IsCategory err reconcile.ErrOwnership then (FailureOwnership, false)
  else if reconcile_IsCategory err reconcile.ErrLAPI ||
          existsb (lapi_IsCategory err) [lapi.ErrRequest; lapi.ErrStatus; lapi.ErrResponseSize; lapi.ErrContentType;
                                         lapi.ErrDecode; lapi.ErrNotFound] then (FailureLAPI, true)
  else if reconcile_IsCategory err reconcile.ErrBusy then (FailureRuntime, true)
  else (FailureRuntime, false).

(** The variables of the loop over the feeds of the report. *)
Record derived : Type := MkDerived {
  dv_feeds : list ops_FeedResult; dv_succeeded : Z; dv_failed : Z; dv_unchanged : Z; dv_not_due : Z;
  dv_suspicious : Z; dv_rejected : Z }.

Definition derive_feed (d : derived) (input : FeedResult) : result error derived :=
  let? item := operationalFeedResult input in
  let one o := if String.eqb (fres_Outcome item) o then 1 else 0 in
  match addBounded (dv_rejected d) (fres_Rejected item) with
  | None => Err ErrInvalidSyncReport
  | Some rejected =>
      Ok (MkDerived (dv_feeds d ++ [item]) (dv_succeeded d + one OutcomeSuccess) (dv_failed d + one OutcomeFailed)
            (dv_unchanged d + one OutcomeNotModified) (dv_not_due d + one OutcomeNotDue)
            (dv_suspicious d + (if String.eqb (fres_Outcome item) OutcomeFailed &&
                                   String.eqb (fe_ErrorClass input) (category_text feed.ErrSuspiciousChange)
                                then 1 else 0)) rejected)
  end.

Fixpoint derive (d : derived) (inputs : list FeedResult) : result error derived :=
  match inputs with [] => Ok d | input :: rest => let? d := derive_feed d input in derive d rest end.

Definition bounded (value : Z) : result error Z :=
  match boundedInt value with Some z => Ok z | None => Err ErrInvalidSyncReport end.

Definition result_kind (report : SyncReport) (runErr : option error) (feeds : list ops_FeedResult)
  : result error (Outcome * (FailureCategory * bool)) :=
  match runErr with
  | None => if negb (sy_FeedsFailed report =? 0) then Err ErrInvalidSyncReport else Ok (OutcomeSuccess, (""%string, false))
  | Some err =>
      if is_Canceled err then Ok (OutcomeCancelled, (FailureCancelled, false))
      else Ok (if syncer_IsCategory err syncer.ErrDegraded then OutcomeDegraded else OutcomeFailed,
               classifyFailure err feeds)
  end.

Definition ResultFromSync (report : SyncReport) (runErr : option error) (startedAt completedAt : Time)
    (activeDecisions : Z) : result error ops_Result :=
  let r := sy_Reconcile report in
  let? succeeded := bounded (sy_FeedsSucceeded report) in
  let? failed := bounded (sy_FeedsFailed report) in
  let? unchanged := bounded (sy_FeedsUnchanged report) in
  let? not_due := bounded (sy_FeedsNotDue report) in
  let? added := bounded (rp_Added r) in
  let? refreshed := bounded (rp_Refreshed r) in
  let? removed := bounded (rp_Removed r) in
  let? skipped := bounded (rp_Skipped r) in
  let? requests := bounded (rp_LAPIRequests r) in
  let? active := bounded activeDecisions in
  let? reconcileRejected := bounded (rp_Rejected r) in
  let? d := derive (MkDerived [] 0 0 0 0 0 0) (sy_Feeds report) in
  let? suspicious := bounded (sy_SuspiciousChanges report) in
  if negb (dv_succeeded d =? succeeded) || negb (dv_failed d =? failed) || negb (dv_unchanged d =? unchanged) ||
     negb (dv_not_due d =? not_due) || negb (dv_suspicious d =? suspicious) then Err ErrInvalidSyncReport
  else match addBounded (dv_rejected d) reconcileRejected with
  | None => Err ErrInvalidSyncReport
  | Some rejected =>
      let? (outcome, (failure, retryable)) := result_kind report runErr (dv_feeds d) in
      let result := MkOpsResult outcome failure retryable startedAt completedAt
        (MkCounts succeeded failed unchanged not_due added refreshed removed rejected skipped requests active) (dv_feeds d) in
      match Result_Validate result with None => Ok result | Some _ => Err ErrInvalidSyncReport end
  end.

(** ** The failure of a run is of the vocabulary *)

Lemma feedFailure_valid c : ValidFailureCategory (feedFailure c).1 = true.
Proof. unfold feedFailure. destruct (one_of c _); [done|]. by destruct (one_of c _). Qed.

Lemma degraded_feed_valid feeds : forall st, ValidFailureCategory st.1 = true ->
  ValidFailureCategory (fold_left degraded_feed feeds st).1 = true.
Proof.
  induction feeds as [|f feeds IH]; intros st H; cbn [fold_left]; [done|]. apply IH. unfold degraded_feed.
  destruct st as [failure retryable]. destruct (_ && _); [done|]. cbn [fst].
  destruct (String.eqb (fres_Failure f) _); [done|]. by destruct (_ && _).
Qed.

Lemma classifyFailure_valid err feeds : ValidFailureCategory (classifyFailure err feeds).1 = true.
Proof.
  unfold classifyFailure.
  repeat match goal with |- context [if ?b then _ else _] => destruct b end; try done. by apply degraded_feed_valid.
Qed.

(** ** Every report of the engine is accepted *)

Definition in_bounds (z : Z) : Prop := 0 <= z <= maxOperationalCount.

(** The numbers of a report are in range: those of the feeds with their sum,
    and those of the reconciliation. *)
Record report_bounds (report : SyncReport) (active : Z) : Prop := {
  rb_feeds : List.Forall (fun f => in_bounds (fe_Accepted f) /\ 0 <= fe_Rejected f) (sy_Feeds report);
  rb_rejected : in_bounds (fold_right (fun f n => fe_Rejected f + n) 0 (sy_Feeds report) + rp_Rejected (sy_Reconcile report));
  rb_reconcile : List.Forall in_bounds [rp_Added (sy_Reconcile report); rp_Refreshed (sy_Reconcile report);
    rp_Removed (sy_Reconcile report); rp_Skipped (sy_Reconcile report); rp_LAPIRequests (sy_Reconcile report);
    rp_Rejected (sy_Reconcile report); active] }.

Lemma boundedInt_Some z : in_bounds z -> boundedInt z = Some z.
Proof. intros [H1 H2]. unfold boundedInt. apply Z.leb_le in H1, H2. by rewrite H1, H2. Qed.

Lemma addBounded_Some a b : 0 <= a -> 0 <= b -> a + b <= maxOperationalCount -> addBounded a b = Some (a + b).
Proof.
  intros Ha Hb Hab. unfold addBounded.
  destruct (Z.ltb_spec a 0); [lia|]. destruct (Z.ltb_spec b 0); [lia|].
  destruct (Z.ltb_spec (maxOperationalCount - b) a); [lia|done].
Qed.

(** The item of a result, and how it counts. *)
Record item_of (f : FeedResult) (item : ops_FeedResult) : Prop := {
  io_name : fres_Name item = fe_Name f;
  io_valid : FeedResult_valid item = true;
  io_rejected : fres_Rejected item = fe_Rejected f;
  io_accepted : fres_Accepted item = fe_Accepted f;
  io_success : String.eqb (fres_Outcome item) OutcomeSuccess = String.eqb (fe_Status f) FeedSucceeded;
  io_failed : String.eqb (fres_Outcome item) OutcomeFailed = String.eqb (fe_Status f) FeedFailed;
  io_unchanged : String.eqb (fres_Outcome item) OutcomeNotModified = String.eqb (fe_Status f) FeedUnchanged;
  io_not_due : String.eqb (fres_Outcome item) OutcomeNotDue = String.eqb (fe_Status f) FeedNotDue;
  io_class : fe_ErrorClass f <> "" -> fe_Status f = FeedFailed }.

Lemma operationalFeedResult_ok f : result_ok f -> ValidFeedName (fe_Name f) = true ->
  in_bounds (fe_Accepted f) -> in_bounds (fe_Rejected f) ->
  exists item, operationalFeedResult f = Ok item /\ item_of f item.
Proof.
  intros Hok Hn Ha Hr. unfold operationalFeedResult. rewrite (boundedInt_Some _ Ha), (boundedInt_Some _ Hr).
  apply count_valid_true in Ha, Hr. destruct f as [name status accepted rejected class].
  cbn [fe_Name fe_Accepted fe_Rejected fe_Status fe_ErrorClass] in *.
  unfold result_ok in Hok. cbn [fe_Status fe_ErrorClass fe_Accepted fe_Rejected] in Hok.
  destruct Hok as [[Hs ->]|(-> & _ & _ & _)].
  - destruct Hs as [<-|[<-|[<-|[]]]]; unfold feed_outcome; cbn -[ValidFeedName count_valid FeedResult_valid];
      unfold FeedResult_valid; cbn -[ValidFeedName count_valid]; rewrite Hn, Ha, Hr;
      (eexists; split; [reflexivity|]; split; try reflexivity; [|done]); cbn -[ValidFeedName count_valid];
      unfold FeedResult_valid; cbn -[ValidFeedName count_valid]; by rewrite Hn, Ha, Hr.
  - assert (FeedResult_valid (MkOpsFeedResult name OutcomeFailed (feedFailure class).1 accepted rejected) = true) as Hv.
    { unfold FeedResult_valid. cbn [fres_Name fres_Outcome fres_Failure fres_Accepted fres_Rejected].
      rewrite Hn, Ha, Hr. exact (feedFailure_valid class). }
    change (feed_outcome (MkFeedResult name FeedFailed accepted rejected class))
      with (Ok (E := error) (OutcomeFailed, (feedFailure class).1)).
    cbn [rbind]. rewrite Hv. eexists. split; [reflexivity|]. by split.
Qed.

Lemma derive_ok inputs : forall d, 
  List.Forall (fun f => result_ok f /\ ValidFeedName (fe_Name f) = true /\ in_bounds (fe_Accepted f) /\ 0 <= fe_Rejected f) inputs ->
  0 <= dv_rejected d -> dv_rejected d + fold_right (fun f n => fe_Rejected f + n) 0 inputs <= maxOperationalCount ->
  List.Forall (fun f => FeedResult_valid f = true) (dv_feeds d) ->
  exists d', derive d inputs = Ok d' /\
    dv_succeeded d' = dv_succeeded d + with_status FeedSucceeded inputs /\
    dv_failed d' = dv_failed d + with_status FeedFailed inputs /\
    dv_unchanged d' = dv_unchanged d + with_status FeedUnchanged inputs /\
    dv_not_due d' = dv_not_due d + with_status FeedNotDue inputs /\
    dv_suspicious d' = dv_suspicious d + with_class (category_text feed.ErrSuspiciousChange) inputs /\
    dv_rejected d' = dv_rejected d + fold_right (fun f n => fe_Rejected f + n) 0 inputs /\
    List.Forall (fun f => FeedResult_valid f = true) (dv_feeds d') /\
    map fres_Name (dv_feeds d') = map fres_Name (dv_feeds d) ++ map fe_Name inputs.
Proof.
  induction inputs as [|f inputs IH]; intros d Hall Hd Hsum Hv.
  - exists d. cbn in *. unfold with_status, with_class. cbn. rewrite app_nil_r. split_and!; try lia; done.
  - apply List.Forall_cons_iff in Hall as [(Hok & Hn & Ha & Hr) Hall']. cbn [fold_right] in Hsum.
    assert (0 <= fold_right (fun f n => fe_Rejected f + n) 0 inputs) as Hrest.
    { clear -Hall'. induction Hall' as [|g gs (_ & _ & _ & Hg) _ IHg]; cbn; lia. }
    destruct (operationalFeedResult_ok f Hok Hn Ha) as (item & Hitem & [I1 I2 I3 I4 I5 I6 I7 I8 I9]);
      [split; [done|lia]|].
    cbn [derive]. unfold derive_feed at 1. rewrite Hitem. cbn [rbind].
    rewrite I3, addBounded_Some by lia. cbn [rbind].
    edestruct IH as (d' & Hd' & E1 & E2 & E3 & E4 & E5 & E6 & E7 & E8); [exact Hall'| | | |exists d'; split; [exact Hd'|]];
      cbn [dv_rejected dv_feeds]; [lia|lia|apply List.Forall_app; by split; [|constructor]|].
    rewrite E1, E2, E3, E4, E5, E6, E8. cbn [dv_succeeded dv_failed dv_unchanged dv_not_due dv_suspicious dv_rejected dv_feeds].
    rewrite I5, I6, I7, I8. unfold with_status, with_class. cbn [List.filter fold_right].
    assert (String.eqb (fe_Status f) FeedFailed && String.eqb (fe_ErrorClass f) (category_text feed.ErrSuspiciousChange) =
      String.eqb (fe_ErrorClass f) (category_text feed.ErrSuspiciousChange)) as ->.
    { destruct (String.eqb_spec (fe_ErrorClass f) (category_text feed.ErrSuspiciousChange)) as [Ec|]; [|apply andb_false_r].
      rewrite I9; [done|]. by rewrite Ec. }
    split_and!; try done;
      try (match goal with |- context [if ?b then f :: _ else _] => destruct b end; cbn [List.length]; lia); [lia|].
    rewrite map_app, <- app_assoc. cbn [map app]. by rewrite I1.
Qed.

(** What [ResultFromSync] needs of a report. *)
Record report_fits (report : SyncReport) (runErr : option error) (active : Z) : Prop := {
  rf_accounts : accounts report;
  rf_names : List.Forall (fun f => ValidFeedName (fe_Name f) = true) (sy_Feeds report);
  rf_distinct : NoDup (map fe_Name (sy_Feeds report));
  rf_count : Z.of_nat (List.length (sy_Feeds report)) <= maxFeedResults;
  rf_bounds : report_bounds report active;
  rf_success : runErr = None -> sy_FeedsFailed report = 0 }.

Definition outcome_of (runErr : option error) : Outcome :=
  match runErr with
  | None => OutcomeSuccess
  | Some err => if is_Canceled err then OutcomeCancelled
                else if syncer_IsCategory err syncer.ErrDegraded then OutcomeDegraded else OutcomeFailed
  end.

Lemma with_status_bounds status fs : Z.of_nat (List.length fs) <= maxFeedResults -> in_bounds (with_status status fs).
Proof.
  intros H. unfold with_status, in_bounds. pose proof (List.filter_length_le (fun f => String.eqb (fe_Status f) status) fs).
  unfold maxFeedResults, maxOperationalCount in *. lia.
Qed.
Lemma with_class_bounds class fs : Z.of_nat (List.length fs) <= maxFeedResults -> in_bounds (with_class class fs).
Proof.
  intros H. unfold with_class, in_bounds. pose proof (List.filter_length_le (fun f => String.eqb (fe_ErrorClass f) class) fs).
  unfold maxFeedResults, maxOperationalCount in *. lia.
Qed.

Lemma result_kind_ok report runErr feeds : (runErr = None -> sy_FeedsFailed report = 0) ->
  exists failure retryable, result_kind report runErr feeds = Ok (outcome_of runErr, (failure, retryable)) /\
    forall s c counts fs, result_outcome_ok (MkOpsResult (outcome_of runErr) failure retryable s c counts fs) = true.
Proof.
  intros Hs. destruct runErr as [err|]; cbn [result_kind outcome_of].
  - destruct (is_Canceled err) eqn:Ec; [by do 2 eexists|].
    pose proof (classifyFailure_valid err feeds) as Hv. destruct (classifyFailure err feeds) as [failure retryable].
    exists failure, retryable. split; [done|]. intros. cbn in Hv. by destruct (syncer_IsCategory err _).
  - rewrite Hs by done. by do 2 eexists.
Qed.

Lemma ResultFromSync_fits report runErr startedAt completedAt active :
  report_fits report runErr active -> time_IsZero startedAt = false -> startedAt <= completedAt ->
  completedAt - startedAt <= ops_maxDuration ->
  exists r, ResultFromSync report runErr startedAt completedAt active = Ok r /\ Result_Validate r = None /\
    rs_Outcome r = outcome_of runErr /\ map fres_Name (rs_Feeds r) = map fe_Name (sy_Feeds report).
Proof.
  intros [[A1 A2 A3 A4 A5 A6] Hn Hd Hc [B1 B2 B3] Hs] Hz Hle Hmax.
  repeat match goal with H : List.Forall in_bounds (_ :: _) |- _ => apply List.Forall_cons_iff in H as [? H] end.
  assert (List.Forall (fun f => result_ok f /\ ValidFeedName (fe_Name f) = true /\ in_bounds (fe_Accepted f) /\ 0 <= fe_Rejected f)
    (sy_Feeds report)) as Hall.
  { rewrite List.Forall_forall in *. intros f Hf. destruct (B1 f Hf). split_and!; auto. }
  assert (in_bounds (rp_Rejected (sy_Reconcile report))) as Hrej by done.
  destruct (derive_ok (sy_Feeds report) (MkDerived [] 0 0 0 0 0 0) Hall) as (d & Ed & D1 & D2 & D3 & D4 & D5 & D6 & D7 & D8);
    [done|unfold in_bounds in *; cbn; lia|constructor|]. cbn in D1, D2, D3, D4, D5, D6, D8.
  unfold ResultFromSync, bounded.
  rewrite A1, A2, A3, A4, A5.
  rewrite !(boundedInt_Some (with_status _ _)) by (by apply with_status_bounds).
  rewrite (boundedInt_Some (with_class _ _)) by (by apply with_class_bounds).
  rewrite !boundedInt_Some by done. cbn [rbind]. rewrite Ed. cbn [rbind].
  rewrite D1, D2, D3, D4, D5, !Z.eqb_refl. cbn [negb orb].
  assert (0 <= dv_rejected d) as Hpos.
  { rewrite D6. clear -B1. induction B1 as [|f fs [_ Hf] _ IH]; cbn; lia. }
  rewrite addBounded_Some by (unfold in_bounds in *; lia).
  destruct (result_kind_ok report runErr (dv_feeds d) Hs) as (failure & retryable & Ek & Ho). rewrite Ek. cbn [rbind].
  assert (List.length (dv_feeds d) = List.length (sy_Feeds report)) as Hlen.
  { rewrite <- (List.length_map fres_Name), D8, List.length_map. done. }
  match goal with |- context [Result_Validate ?x] => assert (Result_Validate x = None) as Hvalid end.
  { unfold Result_Validate. rewrite Ho. cbn [negb rs_StartedAt rs_CompletedAt rs_Counts rs_Feeds]. rewrite Hz.
    unfold Before. destruct (Z.ltb_spec completedAt startedAt); [lia|]. cbn [orb].
    unfold time_Sub. destruct (Z.ltb_spec max_int64 (completedAt - startedAt));
      [unfold ops_maxDuration, Hour, Minute, Second, max_int64 in *; lia|].
    destruct (Z.ltb_spec (completedAt - startedAt) min_int64); [unfold min_int64 in *; lia|].
    destruct (Z.ltb_spec ops_maxDuration (completedAt - startedAt)); [lia|]. cbn [orb].
    match goal with |- context [Counts_valid ?c] => assert (Counts_valid c = true) as -> end.
    { apply Counts_valid_true. unfold count_values. cbn. change maxCount with maxOperationalCount.
      repeat (constructor; [first [done|by apply with_status_bounds|rewrite D6; exact B2]|]). constructor. }
    cbn [negb orb]. rewrite Hlen. destruct (Z.ltb_spec maxFeedResults (Z.of_nat (List.length (sy_Feeds report)))); [lia|].
    assert (feeds_valid ∅ (dv_feeds d) = true) as ->; [|done].
    apply feeds_valid_true. split_and!; [done|by rewrite D8|intros f _; set_solver]. }
  rewrite Hvalid. eexists. split; [reflexivity|]. split; [exact Hvalid|]. by split.
Qed.

(** ** The reports of the engine fit *)

(** The feeds of the configuration are as the store registers them. *)
Record feeds_fit (feeds : list FeedConfig) : Prop := {
  ff_names : List.Forall (fun f => ValidFeedName (fc_Name f) = true) feeds;
  ff_distinct : NoDup (map fc_Name feeds);
  ff_count : Z.of_nat (List.length feeds) <= maxFeedResults }.

Lemma feeds_fit_filter p feeds : feeds_fit feeds -> feeds_fit (List.filter p feeds).
Proof.
  intros [H1 H2 H3]. split.
  - rewrite List.Forall_forall in *. intros f [Hf _]%filter_In. by apply H1.
  - clear H1 H3. induction feeds as [|f feeds IH]; [done|]. apply list.NoDup_cons in H2 as [Hn H2].
    cbn [List.filter]. destruct (p f); [|exact (IH H2)]. cbn [map]. apply list.NoDup_cons. split; [|exact (IH H2)].
    intros Hin. apply Hn. apply list_elem_of_fmap in Hin as (g & E & Hg). apply list_elem_of_fmap. exists g. split; [done|].
    apply list_elem_of_In in Hg. apply filter_In in Hg as [Hg _]. by apply list_elem_of_In.
  - pose proof (List.filter_length_le p feeds). lia.
Qed.

Lemma feeds_fit_app don rest : feeds_fit (don ++ rest) -> feeds_fit don.
Proof.
  intros [H1 H2 H3]. rewrite map_app in H2. apply list.NoDup_app in H2 as [H2 _]. apply List.Forall_app in H1 as [H1 _].
  rewrite length_app in H3. split; [done|done|lia].
Qed.

Section EngineResults.
Context {W : Type} `{!FeedStore W} `{!FetchClient W} `{!ReconcileClient W}.
Context {codec : SpamhausCodec} {definitions_codec : DefinitionCodec}.
Context (cfg : Config).

(** whatever a run reports, and however it ends, the report becomes a
    valid result: for feeds with distinct valid names, counts in range and a
    duration of at most a week, the conversion succeeds, the result passes the
    validation of [ops], names the feeds of the report, and its outcome is
    success exactly without an error, cancelled exactly for a cancellation. *)
Theorem sync_results_valid options now w report err w' startedAt completedAt active :
  Engine_Run cfg options now w = ((report, err), w') -> feeds_fit (cf_Feeds cfg) -> report_bounds report active ->
  time_IsZero startedAt = false -> startedAt <= completedAt -> completedAt - startedAt <= ops_maxDuration ->
  exists r, ResultFromSync report err startedAt completedAt active = Ok r /\ Result_Validate r = None /\
    rs_Outcome r = outcome_of err /\ map fres_Name (rs_Feeds r) = map fe_Name (sy_Feeds report).
Proof.
  intros H Hfit Hb Hz Hle Hmax. apply Engine_Run_report in H as (Ha & (don & rest & E1 & E2 & _) & Hs & _).
  apply (feeds_fit_filter (selected options)) in Hfit. rewrite E1 in Hfit. apply feeds_fit_app in Hfit as [F1 F2 F3].
  apply ResultFromSync_fits; [|done..]. split; [done| |by rewrite E2| |done|done].
  - assert (List.Forall (fun n => ValidFeedName n = true) (map fe_Name (sy_Feeds report))) as Hn
      by (rewrite E2; by apply List.Forall_map).
    by apply List.Forall_map in Hn.
  - rewrite <- (List.length_map fe_Name), E2, List.length_map. done.
Qed.
End EngineResults.
