(* ===== verification/LogSafe.v ===== *)
(** * The log ([logsafe/logger.go], [app/observer.go])

    What may be logged, its check, and the fan-out of operational events to the
    log and the other observers.  A record of the log is its level and its
    attributes in the order they are passed; encoding records as lines of JSON is
    the handler's. *)

From S2P Require Export Config Ops.

Module logsafe.

(** ** Vocabulary *)

(** [slog.Level] *)
Definition Level : Type := Z.
Definition LevelDebug : Level := -4.
Definition LevelInfo : Level := 0.
Definition LevelWarn : Level := 4.
Definition LevelError : Level := 8.

Definition Operation : Type := string.
Definition OpRun : Operation := "run".
Definition OpFeedSync : Operation := "feed_sync".
Definition OpFeedDownload : Operation := "feed_download".
Definition OpFeedValidate : Operation := "feed_validate".
Definition OpLAPIAuth : Operation := "lapi_auth".
Definition OpLAPIRequest : Operation := "lapi_request".
Definition OpDatabase : Operation := "database".
Definition OpNotification : Operation := "notification".
Definition OpHTTPServer : Operation := "http_server".
Definition OpPrune : Operation := "prune".

Definition ErrorCategory : Type := string.
Definition CategoryConfig : ErrorCategory := "config".
Definition CategoryCredential : ErrorCategory := "credential".
Definition CategoryFeedDownload : ErrorCategory := "feed_download".
Definition CategoryFeedValidation : ErrorCategory := "feed_validation".
Definition CategoryLAPIAuth : ErrorCategory := "lapi_auth".
Definition CategoryLAPIRequest : ErrorCategory := "lapi_request".
Definition CategoryDatabase : ErrorCategory := "database".
Definition CategoryNotification : ErrorCategory := "notification".
Definition CategoryOwnership : ErrorCategory := "ownership".
Definition CategoryPanic : ErrorCategory := "panic_recovered".
Definition CategoryHTTPInternal : ErrorCategory := "http_internal".
Definition CategoryInternal : ErrorCategory := "internal".

Definition Transaction : Type := string.
Definition TxCommitted : Transaction := "committed".
Definition TxRolledBack : Transaction := "rolled_back".

Definition ErrInvalidEvent : error := Foreign "invalid structured log event".

Record Event : Type := MkEvent {
  le_Level : Level; le_Operation : Operation; le_Feed : string; le_Duration : Duration; le_Total : Z; le_Added : Z;
  le_Refreshed : Z; le_Removed : Z; le_Rejected : Z; le_Skipped : Z; le_LAPIRequests : Z; le_Success : bool;
  le_ErrorCategory : ErrorCategory; le_Transaction : Transaction }.

Definition operations : list string :=
  [OpRun; OpFeedSync; OpFeedDownload; OpFeedValidate; OpLAPIAuth; OpLAPIRequest; OpDatabase; OpNotification; OpHTTPServer; OpPrune].
Definition categories : list string :=
  [CategoryConfig; CategoryCredential; CategoryFeedDownload; CategoryFeedValidation; CategoryLAPIAuth; CategoryLAPIRequest;
   CategoryDatabase; CategoryNotification; CategoryOwnership; CategoryPanic; CategoryHTTPInternal; CategoryInternal].

Definition validOperation (value : Operation) : bool := one_of value operations.
Definition validCategory (value : ErrorCategory) : bool := one_of value categories.
Definition validLevel (value : Level) : bool :=
  (value =? LevelDebug) || (value =? LevelInfo) || (value =? LevelWarn) || (value =? LevelError).

Definition validate (e : Event) : option error :=
  if negb (validLevel (le_Level e)) || negb (validOperation (le_Operation e)) then Some ErrInvalidEvent
  else if negb (String.eqb (le_Feed e) "") && ((64 <? len (le_Feed e)) || negb (match_feed_name (le_Feed e)))
  then Some ErrInvalidEvent
  else if existsb (fun n => n <? 0) [le_Duration e; le_Total e; le_Added e; le_Refreshed e; le_Removed e; le_Rejected e;
                                     le_Skipped e; le_LAPIRequests e] then Some ErrInvalidEvent
  else if le_Success e && negb (String.eqb (le_ErrorCategory e) "") then Some ErrInvalidEvent
  else if negb (le_Success e) && negb (validCategory (le_ErrorCategory e)) then Some ErrInvalidEvent
  else if negb (one_of (le_Transaction e) [""%string; TxCommitted; TxRolledBack]) then Some ErrInvalidEvent
  else None.

(** ** The logger *)

Inductive attr_value : Type := AttrString (s : string) | AttrInt (n : Z) | AttrBool (b : bool).

Record log_record : Type := MkLogRecord { lr_Level : Level; lr_Message : string; lr_Attrs : list (string * attr_value) }.

(** The lowest level that is written. *)
Record Logger : Type := MkLogger { lg_minimum : Level }.

Definition New {lib : TextLibrary} (level : string) : result error Logger :=
  let level := ToLower level in
  if String.eqb level "debug" then Ok (MkLogger LevelDebug)
  else if String.eqb level "info" then Ok (MkLogger LevelInfo)
  else if one_of level ["warn"; "warning"]%string then Ok (MkLogger LevelWarn)
  else if String.eqb level "error" then Ok (MkLogger LevelError)
  else Err ErrInvalidEvent.

(** [slog.Logger.LogAttrs]: records below the minimum are not written. *)
Definition LogAttrs (l : Logger) (level : Level) (msg : string) (attrs : list (string * attr_value)) (out : list log_record)
  : list log_record :=
  if lg_minimum l <=? level then out ++ [MkLogRecord level msg attrs] else out.

(** [time.Duration.Milliseconds]: division truncates. *)
Definition attributes (e : Event) : list (string * attr_value) :=
  [("operation"%string, AttrString (le_Operation e)); ("duration_ms"%string, AttrInt (Z.quot (le_Duration e) Millisecond));
   ("total"%string, AttrInt (le_Total e)); ("added"%string, AttrInt (le_Added e)); ("refreshed"%string, AttrInt (le_Refreshed e));
   ("removed"%string, AttrInt (le_Removed e)); ("rejected"%string, AttrInt (le_Rejected e));
   ("skipped"%string, AttrInt (le_Skipped e)); ("lapi_requests"%string, AttrInt (le_LAPIRequests e));
   ("success"%string, AttrBool (le_Success e))] ++
  (if String.eqb (le_Feed e) "" then [] else [("feed"%string, AttrString (le_Feed e))]) ++
  (if String.eqb (le_ErrorCategory e) "" then [] else [("error_category"%string, AttrString (le_ErrorCategory e))]) ++
  (if String.eqb (le_Transaction e) "" then [] else [("transaction"%string, AttrString (le_Transaction e))]).

Definition Log (l : Logger) (e : Event) (out : list log_record) : option error * list log_record :=
  match validate e with
  | Some _ => (Some ErrInvalidEvent, out)
  | None => (None, LogAttrs l (le_Level e) "crowdshield_event" (attributes e) out)
  end.

Definition failure_event (operation : Operation) (feed : string) (category : ErrorCategory) : Event :=
  MkEvent LevelError operation feed 0 0 0 0 0 0 0 0 false category "".

(** The raw error is dropped. *)
Definition Failure (l : Logger) (operation : Operation) (feed : string) (category : ErrorCategory) (rawError : option error)
    (out : list log_record) : option error * list log_record :=
  Log l (failure_event operation feed category) out.

(** [fn] says whether it panics, and with what; the value is dropped. *)
Definition Guard {P} (l : Logger) (operation : Operation) (fn : option P) (out : list log_record) : bool * list log_record :=
  match fn with
  | Some _ => (true, (Log l (failure_event operation "" CategoryPanic) out).2)
  | None => (false, out)
  end.

(** [httpErrorWriter.Write] *)
Definition http_error_write (l : Logger) (body : string) (out : list log_record) : Z * list log_record :=
  (len body, (Log l (failure_event OpHTTPServer "" CategoryHTTPInternal) out).2).
End logsafe.

(** ** The fan-out ([app/observer.go]) *)

Definition logLevel (severity : Severity) : logsafe.Level :=
  if String.eqb severity SeverityInfo then logsafe.LevelInfo
  else if String.eqb severity SeverityWarning then logsafe.LevelWarn
  else logsafe.LevelError.

Definition logOperation (e : Event) : logsafe.Operation :=
  let op := ev_Operation e in
  if one_of op [OperationService; OperationScheduler] then logsafe.OpRun
  else if String.eqb op OperationSync then logsafe.OpFeedSync
  else if String.eqb op OperationFeed
  then if String.eqb (ev_Failure e) FailureFeedValidation then logsafe.OpFeedValidate else logsafe.OpFeedDownload
  else if String.eqb op OperationLAPI
  then if String.eqb (ev_Failure e) FailureLAPIAuth then logsafe.OpLAPIAuth else logsafe.OpLAPIRequest
  else if String.eqb op OperationHTTP then logsafe.OpHTTPServer
  else if String.eqb op OperationNotification then logsafe.OpNotification
  else if String.eqb op OperationDatabase then logsafe.OpDatabase
  else if String.eqb op OperationPrune then logsafe.OpPrune
  else logsafe.OpRun.

Definition contextualInternalCategory (op : ops_Operation) : logsafe.ErrorCategory :=
  if String.eqb op OperationFeed then logsafe.CategoryFeedDownload
  else if String.eqb op OperationLAPI then logsafe.CategoryLAPIRequest
  else if String.eqb op OperationHTTP then logsafe.CategoryHTTPInternal
  else if String.eqb op OperationNotification then logsafe.CategoryNotification
  else if String.eqb op OperationDatabase then logsafe.CategoryDatabase
  else logsafe.CategoryInternal.

Definition logCategory (e : Event) : logsafe.ErrorCategory :=
  let f := ev_Failure e in
  if String.eqb f FailureConfig then logsafe.CategoryConfig
  else if String.eqb f FailureCredential then logsafe.CategoryCredential
  else if String.eqb f FailureFeedDownload then logsafe.CategoryFeedDownload
  else if String.eqb f FailureFeedValidation then logsafe.CategoryFeedValidation
  else if String.eqb f FailureLAPIAuth then logsafe.CategoryLAPIAuth
  else if String.eqb f FailureLAPI then logsafe.CategoryLAPIRequest
  else if String.eqb f FailureDatabase then logsafe.CategoryDatabase
  else if String.eqb f FailureNotification then logsafe.CategoryNotification
  else if String.eqb f FailureOwnership then logsafe.CategoryOwnership
  else if one_of f [FailureTimeout; FailureCancelled; FailureRuntime; FailureInternal]
  then contextualInternalCategory (ev_Operation e)
  else "".

(** [int64] arithmetic: of valid counts the sum is small. *)
Definition boundedTotal (c : Counts) : Z :=
  int64_wrap (int64_wrap (int64_wrap (cn_FeedsSucceeded c + cn_FeedsFailed c) + cn_FeedsUnchanged c) + cn_FeedsNotDue c).

Definition log_event (e : Event) : logsafe.Event :=
  logsafe.MkEvent (logLevel (ev_Severity e)) (logOperation e) (ev_Feed e) (ev_Duration e) (boundedTotal (ev_Counts e))
    (cn_Added (ev_Counts e)) (cn_Refreshed (ev_Counts e)) (cn_Removed (ev_Counts e)) (cn_Rejected (ev_Counts e))
    (cn_Skipped (ev_Counts e)) (cn_LAPIRequests (ev_Counts e)) (String.eqb (ev_Failure e) "") (logCategory e) "".

(** The other observers, each over its own part of the world. *)
Record EventFanout (W : Type) : Type := MkEventFanout { ef_logger : logsafe.Logger; ef_observers : list (Event -> W -> W) }.
Arguments MkEventFanout {W}. Arguments ef_logger {W}. Arguments ef_observers {W}.

Definition ErrInvalidRuntimeOptions : error := Foreign "invalid runtime options".

(** An absent observer is [None]. *)
Fixpoint some_all {A} (xs : list (option A)) : option (list A) :=
  match xs with
  | [] => Some []
  | None :: _ => None
  | Some x :: rest => match some_all rest with Some rest => Some (x :: rest) | None => None end
  end.

Definition NewEventFanout {W} (logger : option logsafe.Logger) (observers : list (option (Event -> W -> W)))
  : result error (EventFanout W) :=
  match logger with
  | None => Err ErrInvalidRuntimeOptions
  | Some l =>
      match some_all observers with Some obs => Ok (MkEventFanout l obs) | None => Err ErrInvalidRuntimeOptions end
  end.

(** The log and the world of the observers. *)
Definition Observe {W} (f : EventFanout W) (e : Event) (s : list logsafe.log_record * W) : list logsafe.log_record * W :=
  match Event_Validate e with
  | Some _ => s
  | None => ((logsafe.Log (ef_logger f) (log_event e) s.1).2, fold_left (fun w o => o e w) (ef_observers f) s.2)
  end.

(** ** Every valid event is logged *)

Lemma Event_Validate_facts e : Event_Validate e = None ->
  is_Some (codeOperation (ev_Code e)) /\ 0 <= ev_Duration e <= ops_maxDuration /\ Counts_valid (ev_Counts e) = true /\
  (ev_Failure e = ""%string \/ ValidFailureCategory (ev_Failure e) = true) /\
  (ev_Feed e = ""%string \/ ValidFeedName (ev_Feed e) = true).
Proof.
  unfold Event_Validate. destruct (codeOperation (ev_Code e)) as [op|]; [|done].
  destruct (_ || _ || _ || _) in |- *; [done|].
  destruct ((ev_Duration e <? 0) || _ || _ || _ || _) eqn:E2; [done|].
  destruct (_ && _) in |- *; [done|].
  destruct (event_failure_ok e) eqn:E4; [|done]. destruct (event_feed_ok e) eqn:E5; [|done]. intros _.
  to_prop. split_and!; [by eexists|lia|lia|done| |].
  - unfold event_failure_ok in E4. destruct (outcomeNeedsFailure _); [right; by to_prop|left; by apply String.eqb_eq].
  - unfold event_feed_ok in E5. destruct (String.eqb_spec (ev_Feed e) ""); [by left|right]. cbn [negb] in E5. by to_prop.
Qed.

Lemma int64_wrap_in z : in_int64 z -> int64_wrap z = z.
Proof. unfold in_int64, min_int64, max_int64, int64_wrap. intros H. rewrite Z.mod_small; lia. Qed.

Lemma boundedTotal_valid c : Counts_valid c = true -> 0 <= boundedTotal c <= 4 * maxCount.
Proof.
  intros H%Counts_valid_true. unfold count_values in H.
  repeat match goal with H : List.Forall _ (_ :: _) |- _ => apply List.Forall_cons_iff in H as [? H] end.
  unfold boundedTotal. assert (in_int64 (4 * maxCount) /\ in_int64 0) as [[? ?] [? ?]] by (unfold in_int64, maxCount; vm_compute; intuition congruence).
  assert (forall z, 0 <= z <= 4 * maxCount -> int64_wrap z = z) as Hw by (intros z Hz; apply int64_wrap_in; unfold in_int64; lia).
  rewrite (Hw (cn_FeedsSucceeded c + cn_FeedsFailed c)), (Hw (_ + cn_FeedsUnchanged c)), Hw; lia.
Qed.

Lemma logOperation_valid e : logsafe.validOperation (logOperation e) = true.
Proof. unfold logOperation. by repeat case_match. Qed.

Lemma logCategory_valid e : ValidFailureCategory (ev_Failure e) = true -> logsafe.validCategory (logCategory e) = true.
Proof.
  unfold ValidFailureCategory. intros H%one_of_In. unfold logCategory.
  repeat (destruct H as [<-|H]; [cbn; try done; unfold contextualInternalCategory; by repeat case_match|]). done.
Qed.

Lemma logCategory_empty e : ev_Failure e = ""%string -> logCategory e = ""%string.
Proof. unfold logCategory. by intros ->. Qed.

Lemma logLevel_valid s : logsafe.validLevel (logLevel s) = true.
Proof. unfold logLevel. by repeat case_match. Qed.

(** What operations accept, the log accepts. *)
Lemma log_event_valid e : Event_Validate e = None -> logsafe.validate (log_event e) = None.
Proof.
  intros H. apply Event_Validate_facts in H as (_ & Hd & Hc & Hf & Hn). pose proof (boundedTotal_valid _ Hc) as Ht.
  apply Counts_valid_true in Hc. unfold count_values in Hc.
  repeat match goal with H : List.Forall _ (_ :: _) |- _ => apply List.Forall_cons_iff in H as [? H] end.
  unfold logsafe.validate, log_event.
  cbn [logsafe.le_Level logsafe.le_Operation logsafe.le_Feed logsafe.le_Duration logsafe.le_Total logsafe.le_Added
       logsafe.le_Refreshed logsafe.le_Removed logsafe.le_Rejected logsafe.le_Skipped logsafe.le_LAPIRequests
       logsafe.le_Success logsafe.le_ErrorCategory logsafe.le_Transaction existsb].
  rewrite logLevel_valid, logOperation_valid. cbn [negb orb].
  replace (negb (String.eqb (ev_Feed e) "") && _) with false.
  2: { destruct Hn as [->|Hn]; [done|]. unfold ValidFeedName in Hn. to_prop. symmetry.
       match goal with H : match_feed_name _ = true |- _ => rewrite H end. rewrite andb_false_iff. right. cbn.
       rewrite orb_false_r. by apply Z.ltb_ge. }
  rewrite !(proj2 (Z.ltb_ge _ 0)) by lia. cbn [orb].
  destruct Hf as [Hf|Hf].
  - rewrite (logCategory_empty _ Hf), Hf. done.
  - destruct (String.eqb_spec (ev_Failure e) "") as [E|]; [by rewrite E in Hf|].
    by rewrite logCategory_valid.
Qed.

(** C34: a valid event is never lost: the log takes it, as one record at the level
    of its severity if the logger writes that level, with the operation, the feed,
    the counts, and success exactly when it carries no failure; then every other
    observer is told once, in order.  An invalid event reaches nobody. *)
Theorem Observe_logs {W} (f : EventFanout W) e out w :
  let '(out', w') := Observe f e (out, w) in
  match Event_Validate e with
  | Some _ => out' = out /\ w' = w
  | None =>
      w' = fold_left (fun w o => o e w) (ef_observers f) w /\
      out' = (if logsafe.lg_minimum (ef_logger f) <=? logLevel (ev_Severity e)
              then out ++ [logsafe.MkLogRecord (logLevel (ev_Severity e)) "crowdshield_event" (logsafe.attributes (log_event e))]
              else out) /\
      (String.eqb (ev_Failure e) "" = true <-> logsafe.le_ErrorCategory (log_event e) = ""%string)
  end.
Proof.
  unfold Observe. destruct (Event_Validate e) eqn:E; [done|]. cbn [fst snd]. split; [done|]. split.
  - unfold logsafe.Log. by rewrite (log_event_valid _ E).
  - apply Event_Validate_facts in E as (_ & _ & _ & Hf & _). change (logsafe.le_ErrorCategory (log_event e)) with (logCategory e).
    rewrite String.eqb_eq. split; [apply logCategory_empty|]. intros Hc. destruct Hf as [?|Hf]; [done|].
    apply logCategory_valid in Hf. by rewrite Hc in Hf.
Qed.

(** ** Nothing else is in the log *)

(** A call on the log: of an event, of a failure with its raw error, of a guarded
    function that may panic with a value, of a line of the HTTP server, or of the
    fan-out. *)
Inductive log_call (P : Type) : Type :=
| CallLog (e : logsafe.Event)
| CallFailure (operation : logsafe.Operation) (feed : string) (category : logsafe.ErrorCategory) (rawError : option error)
| CallGuard (operation : logsafe.Operation) (fn : option P)
| CallWrite (body : string)
| CallObserve (e : Event).
Arguments CallLog {P}. Arguments CallFailure {P}. Arguments CallGuard {P}. Arguments CallWrite {P}. Arguments CallObserve {P}.

Definition log_exec {P} (l : logsafe.Logger) (c : log_call P) (out : list logsafe.log_record) : list logsafe.log_record :=
  match c with
  | CallLog e => (logsafe.Log l e out).2
  | CallFailure op feed category raw => (logsafe.Failure l op feed category raw out).2
  | CallGuard op fn => (logsafe.Guard l op fn out).2
  | CallWrite body => (logsafe.http_error_write l body out).2
  | CallObserve e => (Observe (MkEventFanout l []) e (out, tt)).1
  end.

Definition attribute_names : list string :=
  ["operation"; "duration_ms"; "total"; "added"; "refreshed"; "removed"; "rejected"; "skipped"; "lapi_requests"; "success";
   "feed"; "error_category"; "transaction"]%string.

(** Text of a closed vocabulary or the name of a feed, or a number that is not negative. *)
Definition closed_value (v : logsafe.attr_value) : Prop :=
  match v with
  | logsafe.AttrString s => In s (logsafe.operations ++ logsafe.categories ++ [logsafe.TxCommitted; logsafe.TxRolledBack]) \/ ValidFeedName s = true
  | logsafe.AttrInt n => 0 <= n
  | logsafe.AttrBool _ => True
  end.

Record closed_record (l : logsafe.Logger) (r : logsafe.log_record) : Prop := {
  cr_level : logsafe.lg_minimum l <= logsafe.lr_Level r /\ logsafe.validLevel (logsafe.lr_Level r) = true;
  cr_message : logsafe.lr_Message r = "crowdshield_event"%string;
  cr_attrs : Forall (fun a => In a.1 attribute_names /\ closed_value a.2) (logsafe.lr_Attrs r) }.

Lemma attributes_closed e : logsafe.validate e = None ->
  logsafe.validLevel (logsafe.le_Level e) = true /\
  Forall (fun a => In a.1 attribute_names /\ closed_value a.2) (logsafe.attributes e).
Proof.
  unfold logsafe.validate. destruct (negb (logsafe.validLevel _) || _) eqn:E1; [done|].
  destruct (negb (String.eqb (logsafe.le_Feed e) "") && _) eqn:E2; [done|]. destruct (existsb _ _) eqn:E3; [done|].
  destruct (logsafe.le_Success e && _) eqn:E4; [done|]. destruct (negb (logsafe.le_Success e) && _) eqn:E5; [done|].
  destruct (negb (one_of (logsafe.le_Transaction e) _)) eqn:E6; [done|]. intros _.
  to_prop. cbn [existsb] in E3. to_prop. split; [done|]. unfold logsafe.attributes. rewrite !Forall_app. split_and!.
  - repeat (constructor; [split; [cbn; tauto|cbn [snd closed_value]; try done; try lia]|]).
    + left. rewrite !in_app_iff. left. by apply one_of_In.
    + apply Z.quot_pos; [lia|done].
    + constructor.
  - destruct (String.eqb_spec (logsafe.le_Feed e) ""); constructor; [|constructor]. split; [cbn; tauto|]. right. cbn in E2.
    unfold ValidFeedName. to_prop. by rewrite (proj2 (Z.leb_le _ 64)) by lia.
  - destruct (String.eqb_spec (logsafe.le_ErrorCategory e) "") as [|Hne]; constructor; [|constructor]. split; [cbn; tauto|]. left.
    rewrite !in_app_iff. right; left. apply one_of_In. destruct (logsafe.le_Success e); cbn in E4, E5;
      [exfalso; by destruct (String.eqb_spec (logsafe.le_ErrorCategory e) "")|by to_prop].
  - apply one_of_In in E6. destruct (String.eqb_spec (logsafe.le_Transaction e) "") as [|Hne]; constructor; [|constructor]. split; [cbn; tauto|]. left.
    rewrite !in_app_iff. right; right. cbn in E6. naive_solver.
Qed.

Lemma Log_closed l e out : Forall (closed_record l) out -> Forall (closed_record l) (logsafe.Log l e out).2.
Proof.
  intros H. unfold logsafe.Log. destruct (logsafe.validate e) eqn:E; [done|]. cbn [snd]. unfold logsafe.LogAttrs.
  destruct (Z.leb_spec (logsafe.lg_minimum l) (logsafe.le_Level e)); [|done]. apply attributes_closed in E as [H1 H2].
  apply Forall_app. split; [done|]. constructor; [|constructor]. split; [split; [assumption|exact H1]|reflexivity|exact H2].
Qed.

(** whatever is logged, with whatever raw errors, values of panics and lines
    of the HTTP server, the log holds only records at a level it writes, whose
    attributes have fixed names and whose text is from the closed vocabularies or
    the name of a feed. *)
Theorem log_closed {P} l (cs : list (log_call P)) :
  Forall (closed_record l) (fold_left (fun out c => log_exec l c out) cs []).
Proof.
  assert (forall out, Forall (closed_record l) out -> Forall (closed_record l) (fold_left (fun out c => log_exec l c out) cs out)) as H.
  { induction cs as [|c cs IH]; intros out Ho; [done|]. cbn [fold_left]. apply IH.
    destruct c as [e|op feed cat raw|op fn|body|e]; cbn [log_exec]; try by apply Log_closed.
    - unfold logsafe.Guard. destruct fn; [by apply Log_closed|done].
    - unfold Observe. destruct (Event_Validate e); [done|]. by apply Log_closed. }
  apply H. constructor.
Qed.

Example log_example : fold_left (fun out c => log_exec (logsafe.MkLogger logsafe.LevelInfo) c out)
  [CallFailure logsafe.OpFeedDownload "https://secret" logsafe.CategoryFeedDownload None; CallGuard logsafe.OpRun (Some "secret"%string)] [] =
  [logsafe.MkLogRecord logsafe.LevelError "crowdshield_event"
    (logsafe.attributes (logsafe.failure_event logsafe.OpRun "" logsafe.CategoryPanic))].
Proof. vm_compute. reflexivity. Qed.
