(* ===== verification/SyncJob.v ===== *)
(** * The synchronisation job ([internal/app/job.go])

    What the scheduler runs: it opens a run in the history, lets the engine
    work, turns its report into a result, closes the run, and tells metrics,
    health, events and notifications.  The result it returns is always valid. *)

From S2P Require Export LogSafe AppResult StateRuns.

(** The collaborators of the job, over a world: the clock, the error of the
    context, the engine, the state, and the observers, whose answers the job
    ignores. *)
Class JobWorld (W : Type) : Type := {
  j_now : W -> Time * W;
  j_ctx_Err : W -> option error;
  j_Engine_Run : SyncOptions -> W -> (SyncReport * option error) * W;
  j_BeginSyncRun : SyncMode -> string -> Time -> M W error Z;
  j_ListActiveDecisions : M W error (list DecisionRecord);
  j_CompleteSyncRun : Z -> ops_Result -> M W error unit;
  j_RuntimeTimestamp : RuntimeTimestampKey -> M W error (option Time);
  j_ObserveSync : ops_Result -> W -> W;
  j_RecordSync : ops_Result -> W -> W;
  j_Observe : Event -> W -> W;
  j_HandleSync : ops_Result -> W -> W;
  j_SuspiciousChange : string -> Counts -> W -> W;
  j_StaleSync : W -> W }.

Record SyncJob : Type := MkSyncJob { sj_finalizeAfter : Duration; sj_staleAfter : Duration }.

Definition NewSyncJob (finalizationTimeout staleAfter : Duration) : result error SyncJob :=
  if (finalizationTimeout <=? 0) || (Minute <? finalizationTimeout) || (staleAfter <=? 0) || (30 * 24 * Hour <? staleAfter)
  then Err ErrInvalidRuntimeOptions
  else Ok (MkSyncJob finalizationTimeout staleAfter).

(** [completedAt.UTC()] is the same instant. *)
Definition normalizedCompletion (startedAt completedAt : Time) : Time :=
  if Before completedAt startedAt || (7 * 24 * Hour <? time_Sub completedAt startedAt) then startedAt else completedAt.

Definition no_result : ops_Result := MkOpsResult "" "" false 0 0 no_counts [].

Definition fixedFailureResult (category : FailureCategory) (retryable : bool) (startedAt completedAt : Time)
    (previous : ops_Result) : ops_Result :=
  let result := MkOpsResult OutcomeFailed category retryable startedAt completedAt (rs_Counts previous) (rs_Feeds previous) in
  match Result_Validate result with
  | None => result
  | Some _ => MkOpsResult OutcomeFailed category retryable startedAt completedAt no_counts []
  end.

Definition syncSeverity (r : ops_Result) : Severity :=
  if String.eqb (rs_Outcome r) OutcomeSuccess then SeverityInfo
  else if one_of (rs_Outcome r) [OutcomeDegraded; OutcomeCancelled] then SeverityWarning
  else SeverityError.

Definition feedSeverity (r : ops_FeedResult) : Severity :=
  if one_of (fres_Outcome r) [OutcomeFailed; OutcomeDegraded] then SeverityWarning else SeverityInfo.

Section Job.
Context {W : Type} `{!JobWorld W} (job : SyncJob).

Definition emit (e : Event) (w : W) : W := match Event_Validate e with None => j_Observe e w | Some _ => w end.

Definition feed_event (r : ops_Result) (item : ops_FeedResult) : Event :=
  MkEvent CodeFeedResult OperationFeed (fres_Name item) (fres_Outcome item) (feedSeverity item) (fres_Failure item)
    (rs_CompletedAt r) 0 0 (MkCounts 0 0 0 0 0 0 0 (fres_Rejected item) 0 0 0).

Definition lapi_event (outcome : Outcome) (severity : Severity) (failure : FailureCategory) (r : ops_Result) : Event :=
  MkEvent CodeLAPIStateChanged OperationLAPI "" outcome severity failure (rs_CompletedAt r) 0 0 no_counts.

Definition completed_event (r : ops_Result) : Event :=
  MkEvent CodeSyncCompleted OperationSync "" (rs_Outcome r) (syncSeverity r) (rs_Failure r) (rs_CompletedAt r)
    (time_Sub (rs_CompletedAt r) (rs_StartedAt r)) 0 (rs_Counts r).

(** Degraded only by its feeds. *)
Definition safe_degraded (r : ops_Result) : bool :=
  String.eqb (rs_Outcome r) OutcomeDegraded && one_of (rs_Failure r) [FailureFeedDownload; FailureFeedValidation].

Definition lapi_state (runErr : option error) (r : ops_Result) : option Event :=
  if String.eqb (rs_Outcome r) OutcomeSuccess || safe_degraded r
  then Some (lapi_event OutcomeAvailable SeverityInfo "" r)
  else if one_of (rs_Failure r) [FailureLAPI; FailureLAPIAuth] ||
          (String.eqb (rs_Failure r) FailureTimeout &&
           match runErr with Some e => syncer_IsCategory e syncer.ErrReconcile | None => false end)
  then Some (lapi_event OutcomeUnavailable SeverityError (rs_Failure r) r)
  else None.

(** The last safe synchronisation is [staleAfter] behind. *)
Definition stale_sync (r : ops_Result) (w : W) : W :=
  match j_RuntimeTimestamp RuntimeLastSafeSync w with
  | (Ok (Some lastSafe), w') =>
      if negb (Before (rs_CompletedAt r) lastSafe) && (sj_staleAfter job <=? time_Sub (rs_CompletedAt r) lastSafe)
      then j_StaleSync w' else w'
  | (_, w') => w'
  end.

Definition observeResult (report : SyncReport) (runErr : option error) (r : ops_Result) (w : W) : W :=
  let w := j_RecordSync r (j_ObserveSync r w) in
  let w := fold_left (fun w item => emit (feed_event r item) w) (rs_Feeds r) w in
  let w := match lapi_state runErr r with Some e => emit e w | None => w end in
  let w := emit (completed_event r) w in
  if String.eqb (rs_Outcome r) OutcomeCancelled then w
  else
    let w := fold_left (fun w item =>
      if String.eqb (fe_ErrorClass item) (category_text feed.ErrSuspiciousChange)
      then j_SuspiciousChange (fe_Name item) (rs_Counts r) w else w) (sy_Feeds report) w in
    let w := j_HandleSync r w in
    if one_of (rs_Outcome r) [OutcomeFailed; OutcomeDegraded] && negb (safe_degraded r) &&
       negb (String.eqb (rs_Failure r) FailureDatabase)
    then stale_sync r w else w.

(** The decisions in force after the run; a cancelled run is not asked. *)
Definition active_decisions (runErr : option error) (w : W) : (option error * Z) * W :=
  if match runErr with Some e => is_Canceled e | None => false end then ((runErr, 0), w)
  else match j_ListActiveDecisions w with
       | (Ok active, w') => ((runErr, Z.of_nat (List.length active)), w')
       | (Err _, w') => ((Some (syncError syncer.ErrState None), 0), w')
       end.

Definition SyncJob_Run (w : W) : ops_Result * W :=
  let '(startedAt, w) := j_now w in
  let w := emit (MkEvent CodeSyncStarted OperationSync "" OutcomeStarted SeverityInfo "" startedAt 0 0 no_counts) w in
  match j_ctx_Err w with
  | Some err =>
      let '(now, w) := j_now w in
      let r := MkOpsResult OutcomeCancelled FailureCancelled false startedAt (normalizedCompletion startedAt now) no_counts [] in
      (r, observeResult no_sync_report (Some err) r w)
  | None =>
      match j_BeginSyncRun SyncModeEnforce "" startedAt w with
      | (Err err, w) =>
          let '(now, w) := j_now w in
          let r := fixedFailureResult FailureDatabase true startedAt (normalizedCompletion startedAt now) no_result in
          (r, observeResult no_sync_report (Some err) r w)
      | (Ok runID, w) =>
          let '((report, runErr), w) := j_Engine_Run (MkSyncOptions "" false) w in
          let '((runErr, activeDecisions), w) := active_decisions runErr w in
          let '(now, w) := j_now w in
          let completedAt := normalizedCompletion startedAt now in
          let r := match ResultFromSync report runErr startedAt completedAt activeDecisions with
                   | Ok r => r
                   | Err _ => fixedFailureResult FailureInternal false startedAt completedAt no_result
                   end in
          let '(completed, w) := j_CompleteSyncRun runID r w in
          let r := match completed with
                   | Ok _ => r
                   | Err _ => fixedFailureResult FailureDatabase true startedAt completedAt r
                   end in
          (r, observeResult report runErr r w)
      end
  end.
End Job.

(** ** The result is valid *)

Lemma normalizedCompletion_spec startedAt now :
  startedAt <= normalizedCompletion startedAt now /\
  time_Sub (normalizedCompletion startedAt now) startedAt <= ops_maxDuration.
Proof.
  unfold normalizedCompletion, Before.
  assert (time_Sub startedAt startedAt <= ops_maxDuration) as Hz by (unfold time_Sub; rewrite Z.sub_diag; by vm_compute).
  destruct (Z.ltb_spec now startedAt); cbn [orb]; [by split|].
  destruct (Z.ltb_spec (7 * 24 * Hour) (time_Sub now startedAt)); [by split|]. split; [lia|done].
Qed.

(** A result with an outcome and a failure of the vocabulary. *)
Lemma Result_Validate_parts r : result_outcome_ok r = true -> time_IsZero (rs_StartedAt r) = false ->
  rs_StartedAt r <= rs_CompletedAt r -> time_Sub (rs_CompletedAt r) (rs_StartedAt r) <= ops_maxDuration ->
  rs_Counts r = no_counts -> rs_Feeds r = [] -> Result_Validate r = None.
Proof.
  intros Ho Hz Hle Hmax Hc Hf. unfold Result_Validate. rewrite Ho, Hz, Hc, Hf. cbn [negb orb]. unfold Before.
  destruct (Z.ltb_spec (rs_CompletedAt r) (rs_StartedAt r)); [lia|].
  destruct (Z.ltb_spec ops_maxDuration (time_Sub (rs_CompletedAt r) (rs_StartedAt r))); [lia|]. reflexivity.
Qed.

Lemma fixedFailureResult_valid category retryable startedAt now previous :
  ValidFailureCategory category = true -> time_IsZero startedAt = false ->
  Result_Validate (fixedFailureResult category retryable startedAt (normalizedCompletion startedAt now) previous) = None.
Proof.
  intros Hc Hz. unfold fixedFailureResult. cbv zeta. set (r := MkOpsResult _ _ _ _ _ (rs_Counts previous) _).
  destruct (Result_Validate r) eqn:E; [|exact E].
  pose proof (normalizedCompletion_spec startedAt now) as [H1 H2]. by apply Result_Validate_parts.
Qed.

Lemma ResultFromSync_valid report runErr startedAt completedAt active r :
  ResultFromSync report runErr startedAt completedAt active = Ok r ->
  Result_Validate r = None /\ rs_StartedAt r = startedAt /\ rs_CompletedAt r = completedAt.
Proof.
  unfold ResultFromSync, rbind. intros H.
  repeat (let a := fresh in match type of H with match ?x with Ok _ => _ | Err _ => _ end = _ => destruct x as [a|]; [|done] end).
  destruct (_ || _) in H; [done|]. destruct (addBounded _ _) in H; [|done].
  destruct (result_kind _ _ _) as [[outcome [failure retryable]]|] in H; [|done].
  destruct (Result_Validate _) eqn:E in H; [done|]. by injection H as <-.
Qed.

(** The events about a valid result are valid. *)
Lemma feed_event_valid r item : In item (rs_Feeds r) -> Result_Validate r = None -> 0 < rs_CompletedAt r ->
  Event_Validate (feed_event r item) = None.
Proof.
  intros Hin (_ & _ & Hall)%Result_Validate_facts Hpos. rewrite List.Forall_forall in Hall. specialize (Hall _ Hin).
  unfold FeedResult_valid in Hall. apply andb_prop in Hall as [Hall Ho]. apply andb_prop in Hall as [Hall Hrej].
  apply andb_prop in Hall as [Hname _].
  assert (time_IsZero (rs_CompletedAt r) = false) as Hz by (apply Z.eqb_neq; lia).
  assert (fres_Name item <> "") as Hne by (intros E; rewrite E in Hname; done).
  assert (Counts_valid (MkCounts 0 0 0 0 0 0 0 (fres_Rejected item) 0 0 0) = true) as Hc
    by (unfold Counts_valid, count_values; cbn -[count_valid]; by rewrite Hrej).
  unfold Event_Validate, feed_event, event_failure_ok, event_feed_ok.
  cbn [ev_Code ev_Operation ev_Outcome ev_Severity ev_At ev_Duration ev_Attempt ev_Counts ev_Feed ev_Failure].
  rewrite Hz, Hc, Hname. change (codeOperation CodeFeedResult) with (Some OperationFeed).
  apply String.eqb_neq in Hne. rewrite Hne.
  destruct (one_of (fres_Outcome item) [OutcomeSuccess; OutcomeNotDue; OutcomeNotModified]) eqn:Eo.
  - apply one_of_In in Eo. unfold feedSeverity. destruct item as [n o f a b]. cbn in Ho, Eo |- *.
    destruct Eo as [<-|[<-|[<-|[]]]]; cbn; by rewrite Ho.
  - apply andb_prop in Ho as [Ho Hf]. apply one_of_In in Ho. unfold feedSeverity. destruct item as [n o f a b].
    cbn in Ho, Hf |- *. destruct Ho as [<-|[<-|[]]]; cbn -[ValidFailureCategory]; by rewrite Hf.
Qed.

Lemma completed_event_valid r : Result_Validate r = None -> 0 < rs_CompletedAt r ->
  Event_Validate (completed_event r) = None.
Proof.
  intros Hv Hpos. pose proof (Result_Validate_facts r Hv) as (Ho & Hc & _). unfold Result_Validate in Hv.
  rewrite Ho in Hv. cbn [negb] in Hv. destruct (_ || _) eqn:Et in Hv; [done|].
  repeat (apply orb_false_elim in Et as [Et ?]).
  assert (time_IsZero (rs_CompletedAt r) = false) as Hz by (apply Z.eqb_neq; lia).
  assert ((time_Sub (rs_CompletedAt r) (rs_StartedAt r) <? 0) = false) as Hd.
  { apply Z.ltb_ge. unfold Before in *. to_prop. unfold time_Sub. destruct (_ <? _); [done|].
    destruct (Z.ltb_spec (rs_CompletedAt r - rs_StartedAt r) min_int64); [unfold min_int64 in *; lia|lia]. }
  unfold Event_Validate, completed_event, event_failure_ok, event_feed_ok, syncSeverity.
  cbn [ev_Code ev_Operation ev_Outcome ev_Severity ev_At ev_Duration ev_Attempt ev_Counts ev_Feed ev_Failure].
  rewrite Hz, Hc, Hd. change (codeOperation CodeSyncCompleted) with (Some OperationSync).
  rewrite H1. unfold result_outcome_ok in Ho. destruct r as [o f rt s c cn fs].
  cbn [rs_Outcome rs_Failure rs_Retryable rs_StartedAt rs_CompletedAt rs_Counts rs_Feeds] in *.
  destruct (String.eqb_spec o OutcomeSuccess) as [->|].
  { apply negb_true_iff, orb_false_elim in Ho as [Ho _]. apply negb_false_iff in Ho. cbn. by rewrite Ho. }
  destruct (one_of o [OutcomeDegraded; OutcomeFailed]) eqn:Eo.
  { apply one_of_In in Eo. destruct Eo as [<-|[<-|[]]]; cbn -[ValidFailureCategory]; by rewrite Ho. }
  destruct (String.eqb_spec o OutcomeCancelled) as [->|]; [|done].
  apply negb_true_iff, orb_false_elim in Ho as [Ho _]. apply negb_false_iff, String.eqb_eq in Ho. by rewrite Ho.
Qed.

Section Valid.
Context {W : Type} `{!JobWorld W} (job : SyncJob).

(** C17: whatever the engine reports, however the state fails, and whatever the
    clock does, the job returns a valid result that began when the job did, so
    the scheduler never stops over it; and every event about the result, and
    about its feeds, passes the validation of [ops], so none of them is
    dropped. *)
Theorem SyncJob_result_valid w : 0 < (j_now w).1 ->
  let r := (SyncJob_Run job w).1 in
  Result_Validate r = None /\ rs_StartedAt r = (j_now w).1 /\
  Event_Validate (completed_event r) = None /\
  forall item, In item (rs_Feeds r) -> Event_Validate (feed_event r item) = None.
Proof.
  intros Hpos r. assert (time_IsZero (j_now w).1 = false) as Hz by (apply Z.eqb_neq; lia).
  assert (Result_Validate r = None /\ rs_StartedAt r = (j_now w).1 /\ 0 < rs_CompletedAt r) as (Hv & Hs & Hc).
  2:{ split_and!; [done|done|by apply completed_event_valid|]. intros item Hin. by apply feed_event_valid. }
  revert r. unfold SyncJob_Run. destruct (j_now w) as [startedAt w1]. cbn [fst] in *.
  set (w2 := emit _ w1). pose proof (normalizedCompletion_spec startedAt) as Hn.
  assert (forall category retryable now previous, ValidFailureCategory category = true ->
    let r := fixedFailureResult category retryable startedAt (normalizedCompletion startedAt now) previous in
    Result_Validate r = None /\ rs_StartedAt r = startedAt /\ 0 < rs_CompletedAt r) as Hfixed.
  { intros category retryable now previous Hcat r. split; [by apply fixedFailureResult_valid|].
    specialize (Hn now) as [Hle _]. unfold r, fixedFailureResult. destruct (Result_Validate _); cbn; split; [done|lia|done|lia]. }
  destruct (j_ctx_Err w2) as [err|].
  - destruct (j_now w2) as [now w3]. cbn [fst]. specialize (Hn now) as [Hle Hmax].
    split; [by apply Result_Validate_parts|]. cbn. split; [done|lia].
  - destruct (j_BeginSyncRun _ _ _ w2) as [[runID|err] w3].
    + destruct (j_Engine_Run _ w3) as [[report runErr] w4]. destruct (active_decisions runErr w4) as [[runErr1 active] w5].
      destruct (j_now w5) as [now w6]. destruct (j_CompleteSyncRun _ _ w6) as [[[]|e] w7]; cbn [fst]; [|by apply Hfixed].
      destruct (ResultFromSync _ _ _ _ _) as [r|] eqn:E; [|by apply Hfixed].
      apply ResultFromSync_valid in E as (Hv & -> & ->). specialize (Hn now) as [Hle _]. split_and!; [done|done|lia].
    + destruct (j_now w3) as [now w4]. cbn [fst]. by apply Hfixed.
Qed.
End Valid.
