(* ===== verification/JobExamples.v ===== *)
(** * The job, evaluated

    The job over the store, the engine and the in-memory server; the witnesses
    of the theorems on results. *)

From S2P Require Export SyncerExamples SyncJob.

Lemma sync_results_valid_witness :
  exists report err r, ex_run2.1 = (report, err) /\
    ResultFromSync report err (at_hour 2) (at_hour 3) 2 = Ok r /\ Result_Validate r = None /\
    rs_Outcome r = OutcomeDegraded.
Proof.
  destruct ex_run2 as [[report err] w'] eqn:E.
  assert (feeds_fit (cf_Feeds (ex_config [ex_feed url_b]))) as Hfit.
  { change (cf_Feeds (ex_config [ex_feed url_b])) with [ex_feed url_b]. split.
    - constructor; [vm_compute; reflexivity|constructor].
    - apply list.NoDup_singleton.
    - vm_compute. discriminate. }
  assert (report = ex_run2.1.1) as Er by (rewrite E; reflexivity).
  assert (err = ex_run2.1.2) as Ee by (rewrite E; reflexivity).
  assert (report_bounds report 2) as Hb.
  { vm_compute in Er. rewrite Er. split; unfold in_bounds, maxOperationalCount; cbn.
    - constructor; [cbn; lia|constructor].
    - lia.
    - repeat (apply List.Forall_cons; [lia|]). constructor. }
  destruct (sync_results_valid (ReconcileClient0 := reconciler_at ex_reconciler (at_hour 2)) (codec := ex_codec)
    (ex_config [ex_feed url_b]) ex_all (at_hour 2) (with_answers [ex_broken] ex_run1.2) report err w'
    (at_hour 2) (at_hour 3) 2 E Hfit Hb eq_refl) as (r & H1 & H2 & H3 & _); [by vm_compute..|].
  exists report, err, r. split; [reflexivity|]. split; [exact H1|]. split; [exact H2|]. rewrite H3, Ee. vm_compute. reflexivity.
Defined.

(** ** A world for the job *)

(** The clock shows one instant, and the events are kept. *)
Definition JobState : Type := SyncWorld * (Time * list Event).

Definition on_store {A} (m : Store A) : M JobState error A :=
  fun w => let '(r, s) := m w.1.1 in (r, ((s, w.1.2), w.2)).

#[export] Instance ex_job_world (feeds : list FeedConfig) : JobWorld JobState := {|
  j_now w := (w.2.1, w);
  j_ctx_Err w := None;
  j_Engine_Run options w := let '(out, w1) := ex_sync feeds options w.2.1 w.1 in (out, (w1, w.2));
  j_BeginSyncRun mode name at_ := on_store (BeginSyncRun mode name at_);
  j_ListActiveDecisions := on_store ListActiveDecisions;
  j_CompleteSyncRun id r := on_store (CompleteSyncRun id r);
  j_RuntimeTimestamp key := on_store (RuntimeTimestamp key);
  j_ObserveSync _ w := w;
  j_RecordSync _ w := w;
  j_Observe e w := (w.1, (w.2.1, w.2.2 ++ [e]));
  j_HandleSync _ w := w;
  j_SuspiciousChange _ _ w := w;
  j_StaleSync w := w |}.

Definition ex_job : SyncJob := MkSyncJob (10 * Second) (12 * Hour).

Definition ex_job_start : JobState := (with_answers [ex_answer] ex_start, (ex_now, [])).

Definition ex_job_run : ops_Result * JobState :=
  SyncJob_Run (JobWorld0 := ex_job_world [ex_feed url_a]) ex_job ex_job_start.

Example ex_job_runs :
  rs_Outcome ex_job_run.1 = OutcomeSuccess /\
  map ev_Code ex_job_run.2.2.2 = [CodeSyncStarted; CodeFeedResult; CodeLAPIStateChanged; CodeSyncCompleted] /\
  timestamp RuntimeLastSafeSync (sw_db ex_job_run.2.1.1) = Some 1700000000.
Proof. vm_compute. split_and!; reflexivity. Qed.

Lemma SyncJob_result_valid_witness :
  Result_Validate ex_job_run.1 = None /\ Event_Validate (completed_event ex_job_run.1) = None.
Proof.
  assert (0 < (j_now (JobWorld := ex_job_world [ex_feed url_a]) ex_job_start).1) as Hpos by (by vm_compute).
  destruct (SyncJob_result_valid (JobWorld0 := ex_job_world [ex_feed url_a]) ex_job ex_job_start Hpos) as (Hv & _ & He & _).
  split; [exact Hv|exact He].
Defined.
