(* ===== verification/Scheduler.v ===== *)
(** * The scheduler ([internal/scheduler/scheduler.go])

    It runs a job at deadlines that are anchored to the first one, skips those
    that a long job ran past, and repeats a failed job a bounded number of
    times with a growing delay.

    The clock, the timer, the random source, the context, the job and the
    observer are the operations of a world.  [Run] loops for as long as its
    context lives: it is given a number of turns, and a run that is still going
    after them says so. *)

From S2P Require Export Ops Backoff.

Definition ErrInvalidOptions : error := Foreign "invalid scheduler options".
Definition ErrAlreadyRunning : error := Foreign "scheduler already running".
Definition scheduler_ErrInvalidResult : error := Foreign "invalid scheduler job result".

(** [w_wait] is the timer against the context: [true] when the timer fires
    first. *)
Class SchedulerWorld (W : Type) : Type := {
  w_Now : W -> Time * W;
  w_wait : Duration -> W -> bool * W;
  w_ctx_done : W -> bool;
  w_Int63n : Z -> W -> Z * W;
  w_job : W -> ops_Result * W;
  w_Observe : Event -> W -> W }.

Record RetryPolicy : Type := MkRetryPolicy {
  rp_MaxAttempts : Z; rp_InitialBackoff : Duration; rp_MaxBackoff : Duration }.

Record Scheduler : Type := MkScheduler {
  sd_interval : Duration; sd_startupJitter : Duration; sd_runImmediately : bool; sd_retry : RetryPolicy }.

Definition validRetry (p : RetryPolicy) : bool :=
  (1 <=? rp_MaxAttempts p) && (rp_MaxAttempts p <=? 10) && (0 <? rp_InitialBackoff p) &&
  (rp_InitialBackoff p <=? rp_MaxBackoff p) && (rp_MaxBackoff p <=? 24 * Hour).

(** [New]: the guards of the options; the job, the clock, the random source and
    the observer are the world. *)
Definition Scheduler_New (interval startupJitter : Duration) (runImmediately : bool) (retry : RetryPolicy)
  : result error Scheduler :=
  if (interval <=? 0) || (30 * 24 * Hour <? interval) || (startupJitter <? 0) || (interval <? startupJitter) ||
     negb (validRetry retry)
  then Err ErrInvalidOptions
  else Ok (MkScheduler interval startupJitter runImmediately retry).

(** [for !deadline.After(now) { deadline = deadline.Add(interval) }] *)
Fixpoint skip_missed (turns : nat) (interval : Duration) (now deadline : Time) : Time :=
  match turns with
  | O => deadline
  | S n => if negb (After deadline now) then skip_missed n interval now (time_Add deadline interval) else deadline
  end.

(** The turns the loop needs. *)
Definition missed (interval : Duration) (now deadline : Time) : nat := Z.to_nat ((now - deadline) / interval + 1).

Definition next_deadline (interval : Duration) (now deadline : Time) : Time :=
  let deadline := time_Add deadline interval in skip_missed (missed interval now deadline) interval now deadline.

Section Scheduler.
Context {W : Type} `{!SchedulerWorld W} (s : Scheduler).

Definition jitter (w : W) : Duration * W :=
  if sd_startupJitter s <=? 0 then (0, w)
  else
    let limit := sd_startupJitter s in
    w_Int63n (if limit <? max_int64 then limit + 1 else limit) w.

Definition wait (delay : Duration) (w : W) : bool * W :=
  if delay <=? 0 then (negb (w_ctx_done w), w) else w_wait delay w.

Definition execute (w : W) : result error ops_Result * W :=
  let '(r, w) := w_job w in
  match Result_Validate r with None => (Ok r, w) | Some _ => (Err scheduler_ErrInvalidResult, w) end.

Definition scheduler_emit (e : Event) (w : W) : W :=
  match Event_Validate e with None => w_Observe e w | Some _ => w end.

Definition retry_delay (failedAttempt : Z) : Duration :=
  let maximum := rp_MaxBackoff (sd_retry s) in
  let delay := backoff_loop (Z.to_nat (failedAttempt - 1)) maximum (rp_InitialBackoff (sd_retry s)) in
  if maximum <? delay then maximum else delay.

Definition scheduler_event (code : Code) (outcome : Outcome) (severity : Severity) (failure : FailureCategory) (at_ : Time)
    (attempt : Z) : Event :=
  MkEvent code OperationScheduler "" outcome severity failure at_ 0 attempt no_counts.

(** An event at the time of the clock. *)
Definition emit_now (code : Code) (outcome : Outcome) (severity : Severity) (failure : FailureCategory) (attempt : Z)
    (w : W) : W :=
  let '(now, w) := w_Now w in scheduler_emit (scheduler_event code outcome severity failure now attempt) w.

(** The attempts that are left, from [attempt] on. *)
Fixpoint attempts (n : nat) (attempt : Z) (hadFailure : bool) (w : W) : option error * W :=
  match n with
  | O => (None, w)
  | S n =>
      let '(r, w) := execute w in
      match r with
      | Err e => (Some e, w)
      | Ok r =>
          if w_ctx_done w || String.eqb (rs_Outcome r) OutcomeCancelled then (None, w)
          else if String.eqb (rs_Outcome r) OutcomeSuccess then
            (None, if hadFailure then emit_now CodeSchedulerRecovered OutcomeRecovered SeverityInfo "" attempt w else w)
          else if negb (rs_Retryable r) || (attempt =? rp_MaxAttempts (sd_retry s)) then (None, w)
          else
            let w := emit_now CodeSchedulerRetry OutcomeRetrying SeverityWarning (rs_Failure r) (attempt + 1) w in
            let '(fired, w) := wait (retry_delay attempt) w in
            if fired then attempts n (attempt + 1) true w else (None, w)
      end
  end.

Definition executeCycle (w : W) : option error * W :=
  attempts (Z.to_nat (rp_MaxAttempts (sd_retry s))) 1 false w.

(** [Some result]: the loop has returned; [None]: it goes on after [turns]. *)
Fixpoint regular (turns : nat) (deadline : Time) (w : W) : option (option error) * W :=
  match turns with
  | O => (None, w)
  | S n =>
      let '(now, w) := w_Now w in
      let deadline := next_deadline (sd_interval s) now deadline in
      let '(fired, w) := wait (time_Sub deadline now) w in
      if negb fired then (Some None, w)
      else
        let '(err, w) := executeCycle w in
        match err with Some e => (Some (Some e), w) | None => regular n deadline w end
  end.

(** The body of [Run] between its first and its last event. *)
Definition run_schedule (turns : nat) (w : W) : option (option error) * W :=
  let '(start, w) := w_Now w in
  let '(delay, w) := jitter w in
  let delay := if sd_runImmediately s then delay else delay + sd_interval s in
  let deadline := time_Add start delay in
  let '(fired, w) := wait delay w in
  if negb fired then (Some None, w)
  else
    let '(err, w) := executeCycle w in
    match err with Some e => (Some (Some e), w) | None => regular turns deadline w end.

(** [running] is the flag the call finds set. *)
Definition Scheduler_Run (turns : nat) (running : bool) (w : W) : option (option error) * W :=
  if running then (Some (Some ErrAlreadyRunning), w)
  else
    let w := emit_now CodeSchedulerStarted OutcomeStarted SeverityInfo "" 0 w in
    let '(r, w) := run_schedule turns w in
    match r with
    | Some r => (Some r, emit_now CodeSchedulerStopped OutcomeStopped SeverityInfo "" 0 w)
    | None => (None, w)
    end.
End Scheduler.

(** ** Deadlines *)

Lemma skip_missed_spec interval now : 0 < interval -> forall n deadline,
  now < deadline + Z.of_nat n * interval ->
  exists k, 0 <= k /\ skip_missed n interval now deadline = deadline + k * interval /\
    now < skip_missed n interval now deadline /\ (0 < k -> skip_missed n interval now deadline - interval <= now).
Proof.
  intros Hi. induction n as [|n IH]; intros deadline H; cbn [skip_missed].
  - exists 0. split_and!; lia.
  - unfold After. destruct (Z.ltb_spec now deadline) as [Hlt|Hge]; cbn [negb]; [exists 0; split_and!; lia|].
    unfold time_Add. destruct (IH (deadline + interval)) as (k & Hk & E & Hl & Hm); [lia|].
    exists (k + 1). rewrite E in *. split_and!; [lia|lia|lia|]. intros _.
    destruct (Z.eq_dec k 0) as [->|Hne]; lia.
Qed.

Lemma missed_enough interval now deadline : 0 < interval ->
  now < deadline + Z.of_nat (missed interval now deadline) * interval.
Proof.
  intros Hi. unfold missed. pose proof (Z.div_mod (now - deadline) interval ltac:(lia)).
  pose proof (Z.mod_pos_bound (now - deadline) interval Hi).
  destruct (Z.le_gt_cases 0 ((now - deadline) / interval + 1)).
  - rewrite Z2Nat.id by done. nia.
  - rewrite Z2Nat.nonpos by lia. nia.
Qed.

Lemma next_deadline_after interval now deadline : 0 < interval -> now < next_deadline interval now deadline.
Proof.
  intros Hi. unfold next_deadline, time_Add.
  by destruct (skip_missed_spec interval now Hi _ _ (missed_enough interval now (deadline + interval) Hi)) as (k & _ & _ & ? & _).
Qed.

(** C40: the next deadline is the first one in the future on the grid of the
    schedule: it comes after the clock, is a positive number of intervals after
    the last one, and none of the deadlines between them is still to come; the
    loop that skips missed deadlines ends, within the turns it is given. *)
Theorem next_deadline_spec interval now deadline : 0 < interval ->
  let next := next_deadline interval now deadline in
  now < next /\ (exists k, 1 <= k /\ next = deadline + k * interval) /\
  (deadline + interval <= now -> next - interval <= now) /\
  (forall turns, (missed interval now (deadline + interval)%Z <= turns)%nat ->
     skip_missed turns interval now (deadline + interval) = next).
Proof.
  intros Hi next. unfold next, next_deadline, time_Add.
  destruct (skip_missed_spec interval now Hi _ _ (missed_enough interval now (deadline + interval) Hi))
    as (k & Hk & E & Hl & Hm).
  split; [exact Hl|]. split; [exists (k + 1); lia|]. split.
  - intros Hd. destruct (Z.eq_dec k 0) as [->|Hne]; [lia|apply Hm; lia].
  - intros turns Ht. pose proof (missed_enough interval now (deadline + interval) Hi) as He.
    destruct (skip_missed_spec interval now Hi turns (deadline + interval)) as (k' & Hk' & E' & Hl' & Hm'); [nia|].
    rewrite E, E' in *. assert (k = k') as ->; [|done].
    destruct (Z.lt_trichotomy k k') as [Hlt|[?|Hlt]]; [|done|].
    + specialize (Hm' ltac:(lia)). nia.
    + specialize (Hm ltac:(lia)). nia.
Qed.

Lemma next_deadline_spec_witness : next_deadline 10 57 0 = 60 /\ 57 < next_deadline 10 57 0.
Proof. split; [reflexivity|]. destruct (next_deadline_spec 10 57 0 ltac:(lia)) as [H _]. exact H. Defined.
