(* ===== verification/SchedulerRun.v ===== *)
(** * What the scheduler does

    An abstract specification of its behaviour, as the sequences of what it
    does to its world, the proof that the code follows it, and what the
    specification guarantees: bounded attempts, bounded delays, and deadlines
    on one grid. *)

From S2P Require Export Scheduler.

(** ** Logged worlds *)

Inductive action : Type :=
| AJob (r : ops_Result)
| AWait (delay : Duration) (fired : bool)
| ANow (t : Time)
| ARandom (limit v : Z)
| AEvent (e : Event).

(** A world with the log of what was done to it. *)
#[export] Instance logged {W} `{!SchedulerWorld W} : SchedulerWorld (W * list action) := {|
  w_Now wl := let '(t, w) := w_Now wl.1 in (t, (w, wl.2 ++ [ANow t]));
  w_wait d wl := let '(fired, w) := w_wait d wl.1 in (fired, (w, wl.2 ++ [AWait d fired]));
  w_ctx_done wl := w_ctx_done wl.1;
  w_Int63n limit wl := let '(v, w) := w_Int63n limit wl.1 in (v, (w, wl.2 ++ [ARandom limit v]));
  w_job wl := let '(r, w) := w_job wl.1 in (r, (w, wl.2 ++ [AJob r]));
  w_Observe e wl := (w_Observe e wl.1, wl.2 ++ [AEvent e]) |}.

Section Traces.
(** The context may end during the run or not: what a run does then is told
    apart. *)
Context (s : Scheduler) (interruptible : bool).

(** ** The specification *)

(** An event at the time of the clock, dropped when it is not valid. *)
Inductive announces (code : Code) (outcome : Outcome) (severity : Severity) (failure : FailureCategory) (attempt : Z)
  : list action -> Prop :=
| announces_at t : let e := scheduler_event code outcome severity failure t attempt in
    announces code outcome severity failure attempt
      (ANow t :: match Event_Validate e with None => [AEvent e] | Some _ => [] end).

(** A failure worth another attempt. *)
Definition retries (attempt : Z) (r : ops_Result) : Prop :=
  Result_Validate r = None /\ rs_Retryable r = true /\ attempt < rp_MaxAttempts (sd_retry s) /\
  rs_Outcome r <> OutcomeSuccess /\ rs_Outcome r <> OutcomeCancelled.

(** One cycle from an attempt on, and the error it returns. *)
Inductive cycle_trace : Z -> list action -> option error -> Prop :=
| cycle_invalid attempt r : Result_Validate r <> None ->
    cycle_trace attempt [AJob r] (Some scheduler_ErrInvalidResult)
| cycle_done attempt r : Result_Validate r = None ->
    (interruptible = true \/ rs_Outcome r = OutcomeCancelled \/ (rs_Outcome r = OutcomeSuccess /\ attempt = 1) \/
     (rs_Outcome r <> OutcomeSuccess /\ (rs_Retryable r = false \/ attempt = rp_MaxAttempts (sd_retry s)))) ->
    cycle_trace attempt [AJob r] None
| cycle_recovered attempt r l : Result_Validate r = None -> rs_Outcome r = OutcomeSuccess -> 1 < attempt ->
    announces CodeSchedulerRecovered OutcomeRecovered SeverityInfo "" attempt l ->
    cycle_trace attempt (AJob r :: l) None
| cycle_stopped attempt r l : retries attempt r ->
    announces CodeSchedulerRetry OutcomeRetrying SeverityWarning (rs_Failure r) (attempt + 1) l ->
    cycle_trace attempt (AJob r :: l ++ [AWait (retry_delay s attempt) false]) None
| cycle_retried attempt r l rest err : retries attempt r ->
    announces CodeSchedulerRetry OutcomeRetrying SeverityWarning (rs_Failure r) (attempt + 1) l ->
    cycle_trace (attempt + 1) rest err ->
    cycle_trace attempt (AJob r :: l ++ AWait (retry_delay s attempt) true :: rest) err.

(** The turns after the first cycle, from a deadline on: how they ended, or
    [None] while they go on. *)
Inductive regular_trace : Time -> list action -> option (option error) -> Prop :=
| regular_running deadline : regular_trace deadline [] None
| regular_stopped deadline now : let next := next_deadline (sd_interval s) now deadline in
    regular_trace deadline [ANow now; AWait (time_Sub next now) false] (Some None)
| regular_failed deadline now cycle e : let next := next_deadline (sd_interval s) now deadline in
    cycle_trace 1 cycle (Some e) ->
    regular_trace deadline (ANow now :: AWait (time_Sub next now) true :: cycle) (Some (Some e))
| regular_turn deadline now cycle rest r : let next := next_deadline (sd_interval s) now deadline in
    cycle_trace 1 cycle None -> regular_trace next rest r ->
    regular_trace deadline (ANow now :: AWait (time_Sub next now) true :: cycle ++ rest) r.

Inductive jitter_trace : Duration -> list action -> Prop :=
| jitter_none : sd_startupJitter s <= 0 -> jitter_trace 0 []
| jitter_some v limit : 0 < sd_startupJitter s ->
    limit = (if sd_startupJitter s <? max_int64 then sd_startupJitter s + 1 else sd_startupJitter s) ->
    jitter_trace v [ARandom limit v].

(** A wait that takes no time asks only the context. *)
Definition wait_trace (delay : Duration) (fired : bool) (l : list action) : Prop :=
  l = if delay <=? 0 then [] else [AWait delay fired].

Inductive body_trace : list action -> option (option error) -> Prop :=
| body_stopped start v l1 l2 : jitter_trace v l1 ->
    wait_trace (if sd_runImmediately s then v else v + sd_interval s) false l2 ->
    body_trace (ANow start :: l1 ++ l2) (Some None)
| body_failed start v l1 l2 cycle e : jitter_trace v l1 ->
    wait_trace (if sd_runImmediately s then v else v + sd_interval s) true l2 ->
    cycle_trace 1 cycle (Some e) ->
    body_trace (ANow start :: l1 ++ l2 ++ cycle) (Some (Some e))
| body_runs start v l1 l2 cycle rest r : jitter_trace v l1 ->
    let delay := if sd_runImmediately s then v else v + sd_interval s in
    wait_trace delay true l2 -> cycle_trace 1 cycle None -> regular_trace (start + delay) rest r ->
    body_trace (ANow start :: l1 ++ l2 ++ cycle ++ rest) r.

(** A whole run: its first event, its body, and its last event once it ends. *)
Inductive run_trace : list action -> option (option error) -> Prop :=
| run_ended l1 l2 l3 r : announces CodeSchedulerStarted OutcomeStarted SeverityInfo "" 0 l1 -> body_trace l2 (Some r) ->
    announces CodeSchedulerStopped OutcomeStopped SeverityInfo "" 0 l3 -> run_trace (l1 ++ l2 ++ l3) (Some r)
| run_going l1 l2 : announces CodeSchedulerStarted OutcomeStarted SeverityInfo "" 0 l1 -> body_trace l2 None ->
    run_trace (l1 ++ l2) None.

(** ** The code follows it *)

Context {W : Type} `{!SchedulerWorld W} (Hctx : interruptible = false -> forall w, w_ctx_done w = false).
Abbreviation LW := (W * list action)%type.

Lemma emit_now_trace code outcome severity failure attempt (w : LW) :
  exists l, announces code outcome severity failure attempt l /\
    (emit_now code outcome severity failure attempt w).2 = w.2 ++ l.
Proof.
  unfold emit_now, scheduler_emit. cbn. destruct (w_Now w.1) as [t w1]. eexists. split; [by apply (announces_at _ _ _ _ _ t)|].
  cbv zeta. destruct (Event_Validate _); cbn; [done|]. by rewrite <- app_assoc.
Qed.

Lemma retry_delay_pos attempt : validRetry (sd_retry s) = true -> 0 < retry_delay s attempt <= rp_MaxBackoff (sd_retry s).
Proof.
  unfold validRetry, retry_delay. intros H. to_prop. rewrite backoff_loop_spec by lia.
  assert (1 <= 2 ^ Z.of_nat (Z.to_nat (attempt - 1))) by (apply (Z.pow_le_mono_r 2 0); lia).
  destruct (Z.ltb_spec (rp_MaxBackoff (sd_retry s))
    (Z.min (rp_MaxBackoff (sd_retry s)) (rp_InitialBackoff (sd_retry s) * 2 ^ Z.of_nat (Z.to_nat (attempt - 1))))); nia.
Qed.

Lemma wait_pos_trace delay (w : LW) fired w' : 0 < delay -> wait delay w = (fired, w') -> w'.2 = w.2 ++ [AWait delay fired].
Proof.
  intros Hd. unfold wait. destruct (Z.leb_spec delay 0); [lia|]. cbn. destruct (w_wait delay w.1). by intros [= <- <-].
Qed.

Lemma wait_any_trace delay (w : LW) fired w' : wait delay w = (fired, w') ->
  exists l, wait_trace delay fired l /\ w'.2 = w.2 ++ l.
Proof.
  unfold wait_trace. intros H. eexists. split; [reflexivity|]. destruct (Z.leb_spec delay 0).
  - unfold wait in H. destruct (Z.leb_spec delay 0); [|lia]. injection H as _ <-. by rewrite app_nil_r.
  - by apply wait_pos_trace.
Qed.

Lemma execute_trace (w : LW) r w' : execute w = (r, w') ->
  exists res, w'.2 = w.2 ++ [AJob res] /\
    match r with Ok r => r = res /\ Result_Validate res = None
               | Err e => e = scheduler_ErrInvalidResult /\ Result_Validate res <> None end.
Proof.
  unfold execute. cbn. destruct (w_job w.1) as [res w1]. destruct (Result_Validate res) eqn:E; intros [= <- <-];
    exists res; split; by rewrite ?E.
Qed.

Lemma attempts_trace (Hr : validRetry (sd_retry s) = true) n : forall attempt had (w : LW) err w',
  attempts s n attempt had w = (err, w') -> 1 <= attempt -> Z.of_nat n = rp_MaxAttempts (sd_retry s) - attempt + 1 ->
  (1 <= n)%nat -> had = (1 <? attempt) ->
  exists l, w'.2 = w.2 ++ l /\ cycle_trace attempt l err.
Proof.
  induction n as [|n IH]; intros attempt had w err w' H Ha Hn Hpos Hhad; [lia|]. cbn [attempts] in H.
  destruct (execute w) as [r w1] eqn:E. apply execute_trace in E as (res & E & Hres). destruct r as [r|e].
  2:{ destruct Hres as [-> Hv]. injection H as <- <-. exists [AJob res]. split; [done|]. by constructor. }
  destruct Hres as [-> Hv].
  destruct (w_ctx_done w1 || String.eqb (rs_Outcome res) OutcomeCancelled) eqn:Ec.
  { injection H as <- <-. exists [AJob res]. split; [done|]. apply cycle_done; [done|].
    destruct interruptible eqn:Ei; [by left|].
    change (w_ctx_done w1) with (w_ctx_done w1.1) in Ec. rewrite (Hctx eq_refl) in Ec. right. left. by apply String.eqb_eq. }
  destruct (String.eqb_spec (rs_Outcome res) OutcomeSuccess) as [Es|Es].
  { destruct had.
    - injection H as <- <-. destruct (emit_now_trace CodeSchedulerRecovered OutcomeRecovered SeverityInfo "" attempt w1)
        as (l & Hl & El). exists (AJob res :: l). rewrite El, E, <- app_assoc. split; [done|].
      apply cycle_recovered; auto. lia.
    - injection H as <- <-. exists [AJob res]. split; [done|]. apply cycle_done; [done|]. right. right. left. split; [done|lia]. }
  destruct (negb (rs_Retryable res) || (attempt =? rp_MaxAttempts (sd_retry s))) eqn:Er.
  { injection H as <- <-. exists [AJob res]. split; [done|]. apply cycle_done; [done|]. right. right. right.
    split; [done|]. apply orb_true_iff in Er as [Er%negb_true_iff|Er%Z.eqb_eq]; auto. }
  apply orb_false_elim in Er as [Er Em]. apply negb_false_iff in Er. apply Z.eqb_neq in Em.
  apply orb_false_elim in Ec as [_ Ec]. apply String.eqb_neq in Ec.
  assert (retries attempt res) as Hret by (split_and!; [done|done|lia|done|done]).
  destruct (emit_now_trace CodeSchedulerRetry OutcomeRetrying SeverityWarning (rs_Failure res) (attempt + 1) w1)
    as (l & Hl & El). set (w2 := emit_now _ _ _ _ _ w1) in *.
  destruct (wait (retry_delay s attempt) w2) as [fired w3] eqn:Ew. pose proof (retry_delay_pos attempt Hr) as [Hd _].
  apply wait_pos_trace in Ew; [|done].
  assert (w3.2 = w.2 ++ AJob res :: l ++ [AWait (retry_delay s attempt) fired]) as E3
    by (rewrite Ew, El, E, <- !app_assoc; done).
  destruct fired.
  - apply IH in H as (l' & El' & Ht); [|lia|lia|lia|lia].
    eexists. split; [|eapply cycle_retried; [exact Hret|exact Hl|exact Ht]].
    rewrite El', E3, <- app_assoc. cbn. by rewrite <- app_assoc.
  - injection H as <- <-. eexists. split; [exact E3|]. by apply cycle_stopped.
Qed.

Lemma executeCycle_trace (Hr : validRetry (sd_retry s) = true) (w : LW) err w' :
  executeCycle s w = (err, w') -> exists l, w'.2 = w.2 ++ l /\ cycle_trace 1 l err.
Proof.
  intros H. unfold executeCycle in H. pose proof Hr as Hv. unfold validRetry in Hv. to_prop.
  eapply attempts_trace; [exact Hr|exact H|lia|lia|lia|done].
Qed.

Lemma time_Sub_pos t u : u < t -> 0 < time_Sub t u.
Proof.
  intros H. unfold time_Sub. destruct (Z.ltb_spec max_int64 (t - u)); [by vm_compute|].
  destruct (Z.ltb_spec (t - u) min_int64); [unfold min_int64 in *; lia|lia].
Qed.

Lemma wait_next (Hi : 0 < sd_interval s) now deadline (w : LW) fired w' :
  wait (time_Sub (next_deadline (sd_interval s) now deadline) now) w = (fired, w') ->
  w'.2 = w.2 ++ [AWait (time_Sub (next_deadline (sd_interval s) now deadline) now) fired].
Proof. apply wait_pos_trace, time_Sub_pos, (next_deadline_after _ _ _ Hi). Qed.

Lemma now_log (w : LW) now w' : w_Now w = (now, w') -> w'.2 = w.2 ++ [ANow now].
Proof. cbn. destruct (w_Now w.1). by intros [= <- <-]. Qed.

Lemma regular_refines (Hr : validRetry (sd_retry s) = true) (Hi : 0 < sd_interval s) turns :
  forall deadline (w : LW) r w', regular s turns deadline w = (r, w') ->
  exists l, w'.2 = w.2 ++ l /\ regular_trace deadline l r.
Proof.
  induction turns as [|turns IH]; intros deadline w r w' H; cbn [regular] in H.
  { injection H as <- <-. exists []. split; [by rewrite app_nil_r|constructor]. }
  destruct (w_Now w) as [now w1] eqn:En. apply now_log in En.
  destruct (wait _ w1) as [fired w2] eqn:Ew. apply wait_next in Ew; [|done]. rewrite En, <- app_assoc in Ew.
  destruct fired; cbn [negb] in H.
  2:{ injection H as <- <-. eexists. split; [exact Ew|constructor]. }
  destruct (executeCycle s w2) as [err w3] eqn:Ec. apply executeCycle_trace in Ec as (cycle & El & Hc); [|done].
  rewrite Ew, <- app_assoc in El. destruct err as [e|].
  - injection H as <- <-. eexists. split; [exact El|]. by apply regular_failed.
  - apply IH in H as (rest & E' & Ht). rewrite El, <- app_assoc in E'. eexists. split; [exact E'|].
    by apply (regular_turn deadline now cycle rest r).
Qed.

Lemma jitter_log (w : LW) v w' : jitter s w = (v, w') -> exists l, w'.2 = w.2 ++ l /\ jitter_trace v l.
Proof.
  unfold jitter. destruct (Z.leb_spec (sd_startupJitter s) 0).
  - intros [= <- <-]. exists []. split; [by rewrite app_nil_r|by constructor].
  - cbn. destruct (w_Int63n _ w.1). intros [= <- <-]. eexists. split; [reflexivity|]. by eapply jitter_some.
Qed.

Lemma schedule_refines (Hr : validRetry (sd_retry s) = true) (Hi : 0 < sd_interval s) turns (w : LW) r w' :
  run_schedule s turns w = (r, w') -> exists l, w'.2 = w.2 ++ l /\ body_trace l r.
Proof.
  unfold run_schedule. intros H. destruct (w_Now w) as [start w1] eqn:En. apply now_log in En.
  destruct (jitter s w1) as [v w2] eqn:Ej. apply jitter_log in Ej as (l1 & E1 & H1).
  destruct (wait _ w2) as [fired w3] eqn:Ew. apply wait_any_trace in Ew as (l2 & H2 & E2).
  rewrite E1, En, <- !app_assoc in E2. destruct fired; cbn [negb] in H.
  2:{ injection H as <- <-. eexists. split; [exact E2|]. exact (body_stopped start v l1 l2 H1 H2). }
  destruct (executeCycle s w3) as [err w4] eqn:Ec. apply executeCycle_trace in Ec as (cycle & E3 & Hc); [|done].
  rewrite E2, <- !app_assoc in E3. destruct err as [e|].
  - injection H as <- <-. eexists. split; [exact E3|]. exact (body_failed start v l1 l2 cycle e H1 H2 Hc).
  - apply (regular_refines Hr Hi) in H as (rest & E4 & Ht). rewrite E3, <- !app_assoc in E4.
    eexists. split; [exact E4|]. exact (body_runs start v l1 l2 cycle rest r H1 H2 Hc Ht).
Qed.

Lemma run_refines (Hr : validRetry (sd_retry s) = true) (Hi : 0 < sd_interval s) turns (w : LW) r w' :
  Scheduler_Run s turns false w = (r, w') -> exists l, w'.2 = w.2 ++ l /\ run_trace l r.
Proof.
  unfold Scheduler_Run. intros H.
  destruct (emit_now_trace CodeSchedulerStarted OutcomeStarted SeverityInfo "" 0 w) as (l1 & H1 & E1).
  destruct (run_schedule s turns _) as [o w2] eqn:Es.
  apply (schedule_refines Hr Hi) in Es as (l2 & E2 & H2). rewrite E1, <- app_assoc in E2. destruct o as [o|].
  - destruct (emit_now_trace CodeSchedulerStopped OutcomeStopped SeverityInfo "" 0 w2) as (l3 & H3 & E3).
    injection H as <- <-. rewrite E2, <- !app_assoc in E3. eexists. split; [exact E3|]. by apply run_ended.
  - injection H as <- <-. eexists. split; [exact E2|]. by apply run_going.
Qed.
End Traces.

(** ** What a cycle is bounded by *)

Definition jobs (l : list action) : list ops_Result := omap (fun a => match a with AJob r => Some r | _ => None end) l.
Definition waits (l : list action) : list (Duration * bool) :=
  omap (fun a => match a with AWait d b => Some (d, b) | _ => None end) l.

(** The delay before the attempt after the first [k + 1]. *)
Definition delay_after (s : Scheduler) (k : nat) : Duration :=
  Z.min (rp_MaxBackoff (sd_retry s)) (rp_InitialBackoff (sd_retry s) * 2 ^ Z.of_nat k).

Lemma announces_silent code outcome severity failure attempt l :
  announces code outcome severity failure attempt l -> jobs l = [] /\ waits l = [].
Proof. intros [t e]. unfold e. by destruct (Event_Validate _). Qed.

(** What a cycle stops at when neither its context nor a timer stops it. *)
Definition final (s : Scheduler) (attempt : Z) (r : ops_Result) : Prop :=
  Result_Validate r <> None \/ rs_Outcome r = OutcomeCancelled \/ rs_Outcome r = OutcomeSuccess \/
  rs_Retryable r = false \/ attempt = rp_MaxAttempts (sd_retry s).

Lemma cycle_accounts s b attempt l err : cycle_trace s b attempt l err -> attempt <= rp_MaxAttempts (sd_retry s) ->
  exists n, fst <$> waits l = (fun k => retry_delay s (attempt + Z.of_nat k)) <$> seq 0 n /\
    (n <= length (jobs l) <= n + 1)%nat /\ (1 <= length (jobs l))%nat /\
    attempt + Z.of_nat n <= rp_MaxAttempts (sd_retry s) /\
    attempt + Z.of_nat (length (jobs l)) - 1 <= rp_MaxAttempts (sd_retry s) /\
    (b = false -> Forall (fun d => d.2 = true) (waits l) ->
     exists r, list.last (jobs l) = Some r /\ final s (attempt + Z.of_nat (length (jobs l)) - 1) r).
Proof.
  induction 1 as [attempt r Hv|attempt r Hv Hd|attempt r l Hv Hs Ha Hl|attempt r l Hret Hl|attempt r l rest err Hret Hl _ IH];
    intros Hm.
  - exists O. cbn. split_and!; [done|lia..|]. intros _ _. exists r. split; [done|by left].
  - exists O. cbn. split_and!; [done|lia..|]. intros -> _. exists r. split; [done|]. unfold final.
    destruct Hd as [?|[?|[[??]|[? Hd]]]]; [done|auto|auto|]. destruct Hd as [?|?]; [auto|]. do 4 right. lia.
  - exists O. unfold jobs, waits. cbn. destruct (announces_silent _ _ _ _ _ _ Hl) as [Ej Ew].
    unfold jobs, waits in Ej, Ew. rewrite Ej, Ew. cbn. split_and!; [done|lia..|]. intros _ _. exists r. split; [done|].
    unfold final. tauto.
  - exists 1%nat. unfold jobs, waits. cbn. destruct (announces_silent _ _ _ _ _ _ Hl) as [Ej Ew].
    unfold jobs, waits in Ej, Ew. rewrite !omap_app, Ej, Ew. destruct Hret as (_ & _ & Hlt & _).
    cbn. split_and!; [by rewrite Z.add_0_r|lia..|]. intros _ Hf. by inversion Hf.
  - destruct Hret as (_ & _ & Hlt & _). destruct IH as (n & En & Hn1 & Hn2 & Hn3 & Hn4 & Hf); [lia|].
    destruct (announces_silent _ _ _ _ _ _ Hl) as [Ej Ew].
    assert (jobs (AJob r :: l ++ AWait (retry_delay s attempt) true :: rest) = r :: jobs rest) as EJ
      by (unfold jobs in *; cbn; rewrite omap_app, Ej; done).
    assert (waits (AJob r :: l ++ AWait (retry_delay s attempt) true :: rest) = (retry_delay s attempt, true) :: waits rest) as EW
      by (unfold waits in *; cbn; rewrite omap_app, Ew; done).
    exists (S n). rewrite EJ, EW. cbn [length]. rewrite fmap_cons, En. cbn [seq]. split_and!; [|lia..|].
    + cbn. rewrite Z.add_0_r. f_equal. rewrite <- fmap_S_seq, <- list_fmap_compose. apply list_fmap_ext. intros i k _. cbn. f_equal. lia.
    + intros Hb Hw. inversion Hw; subst. destruct (Hf eq_refl ltac:(done)) as (r' & Hr' & Hfin). exists r'. split.
      * destruct (jobs rest); [done|exact Hr'].
      * replace (attempt + Z.of_nat (S (length (jobs rest))) - 1) with (attempt + 1 + Z.of_nat (length (jobs rest)) - 1) by lia.
        exact Hfin.
Qed.

Lemma retry_delay_after s k : validRetry (sd_retry s) = true -> retry_delay s (1 + Z.of_nat k) = delay_after s k.
Proof.
  unfold validRetry, retry_delay, delay_after. intros H. to_prop. rewrite backoff_loop_spec by lia.
  replace (Z.to_nat (1 + Z.of_nat k - 1)) with k by lia. by rewrite (proj2 (Z.ltb_ge _ _)) by lia.
Qed.

Lemma New_valid i j imm p s : Scheduler_New i j imm p = Ok s ->
  0 < sd_interval s /\ validRetry (sd_retry s) = true.
Proof.
  unfold Scheduler_New. destruct (_ || _) eqn:E; intros [= <-].
  apply orb_false_iff in E as [E Hv%negb_false_iff]. split; [|exact Hv]. cbn. lia.
Qed.

(** ** The properties *)

(** C16: the scheduler implements its specification.  Whatever the job, the
    clock, the timer and the random source do, what a run does to its world is
    one of the runs of [run_trace]: it announces its start; waits for the
    first deadline with its jitter; runs a cycle, and then one after each wait
    until the next deadline on the grid, for as long as the timer fires and no
    result is invalid; and announces its end when it returns.  In a world whose
    context never ends, a cycle ends early only for a result that asks for
    it. *)
Theorem Scheduler_Run_refines {W} `{!SchedulerWorld W} interval startupJitter imm retry s interruptible turns
    (w w' : W * list action) r :
  Scheduler_New interval startupJitter imm retry = Ok s ->
  (interruptible = false -> forall w : W, w_ctx_done w = false) ->
  Scheduler_Run s turns false w = (r, w') ->
  exists l, w'.2 = w.2 ++ l /\ run_trace s interruptible l r.
Proof. intros Hs Hc H. apply New_valid in Hs as [Hi Hr]. exact (run_refines s interruptible Hc Hr Hi turns w r w' H). Qed.

(** a cycle runs the job at least once and at most as often as its policy
    says.  The delay before each repetition starts at the initial backoff,
    doubles every time and stays at the maximum once it is reached. *)
Theorem executeCycle_bounds {W} `{!SchedulerWorld W} interval startupJitter imm retry s (w w' : W * list action) err :
  Scheduler_New interval startupJitter imm retry = Ok s -> executeCycle s w = (err, w') ->
  exists l n, w'.2 = w.2 ++ l /\ (1 <= length (jobs l))%nat /\ Z.of_nat (length (jobs l)) <= rp_MaxAttempts (sd_retry s) /\
    (n <= length (jobs l) <= n + 1)%nat /\ fst <$> waits l = delay_after s <$> seq 0 n /\
    Forall (fun d => 0 < d.1 <= rp_MaxBackoff (sd_retry s)) (waits l).
Proof.
  intros Hs H. apply New_valid in Hs as [_ Hr]. apply (executeCycle_trace s true) in H as (l & El & Ht); [|done..].
  pose proof Hr as Hv. unfold validRetry in Hv. to_prop.
  apply cycle_accounts in Ht as (n & En & Hn1 & Hn2 & _ & Hn4 & _); [|lia]. exists l, n.
  assert (fst <$> waits l = delay_after s <$> seq 0 n) as Ed.
  { rewrite En. apply list_fmap_ext. intros _ k _. by apply retry_delay_after. }
  assert (Forall (fun d : Duration => 0 < d <= rp_MaxBackoff (sd_retry s)) (delay_after s <$> seq 0 n)) as Hd.
  { apply Forall_fmap, Forall_forall. intros k _. cbn. unfold delay_after.
    assert (1 <= 2 ^ Z.of_nat k) by (apply (Z.pow_le_mono_r 2 0); lia).
    assert (rp_InitialBackoff (sd_retry s) <= rp_InitialBackoff (sd_retry s) * 2 ^ Z.of_nat k) by nia. lia. }
  rewrite <- Ed in Hd. split_and!; [done|done|lia|lia|lia|exact Ed|]. exact (proj1 (Forall_fmap _ _ _) Hd).
Qed.

(** C39: a cycle does not give up early.  In a world whose context does not end,
    when every timer of the cycle fires, its last result is one that asks for
    the end: an invalid one, a cancellation, a success, a failure not worth
    repeating, or the one of the last attempt. *)
Theorem executeCycle_persists {W} `{!SchedulerWorld W} interval startupJitter imm retry s (w w' : W * list action) err :
  Scheduler_New interval startupJitter imm retry = Ok s -> (forall w : W, w_ctx_done w = false) ->
  executeCycle s w = (err, w') ->
  exists l, w'.2 = w.2 ++ l /\
    (Forall (fun d => d.2 = true) (waits l) ->
     exists r, list.last (jobs l) = Some r /\ final s (Z.of_nat (length (jobs l))) r).
Proof.
  intros Hs Hc H. apply New_valid in Hs as [_ Hr]. apply (executeCycle_trace s false) in H as (l & El & Ht); [|done..].
  unfold validRetry in Hr. to_prop. apply cycle_accounts in Ht as (n & _ & _ & _ & _ & _ & Hf); [|lia].
  exists l. split; [done|]. intros Hw. destruct (Hf eq_refl Hw) as (r & Hl & Hfin). exists r. split; [done|].
  replace (1 + Z.of_nat (length (jobs l)) - 1) with (Z.of_nat (length (jobs l))) in Hfin by lia. exact Hfin.
Qed.

(** ** A world *)

(** A clock that moves with each timer, and the results the job still has; the
    timer loses to the context once there are none. *)
#[export] Instance scripted : SchedulerWorld (Time * list ops_Result) := {|
  w_Now w := (w.1, w);
  w_wait d w := (negb (Nat.eqb (length w.2) 0), (w.1 + d, w.2));
  w_ctx_done _ := false;
  w_Int63n limit w := (limit / 2, w);
  w_job w := match w.2 with
             | r :: l => (r, (w.1 + Second, l))
             | [] => (MkOpsResult "" "" false 0 0 no_counts [], w)
             end;
  w_Observe _ w := w |}.

Definition ex_time : Time := Unix 1700000000.
Definition ex_failed : ops_Result := MkOpsResult OutcomeFailed FailureLAPI true ex_time ex_time no_counts [].
Definition ex_succeeded : ops_Result := MkOpsResult OutcomeSuccess "" false ex_time ex_time no_counts [].
Definition ex_retry : RetryPolicy := MkRetryPolicy 3 (2 * Second) (3 * Second).
Definition ex_scheduler : Scheduler := MkScheduler Hour Minute true ex_retry.
Definition ex_start : (Time * list ops_Result) * list action :=
  ((ex_time, [ex_failed; ex_failed; ex_succeeded; ex_succeeded]), []).
Abbreviation ex_cycle := (executeCycle ex_scheduler ex_start).
Abbreviation ex_sched_run := (Scheduler_Run ex_scheduler 5 false ex_start).

Example ex_cycle_waits : waits ex_cycle.2.2 = [(2 * Second, true); (3 * Second, true)] /\ length (jobs ex_cycle.2.2) = 3%nat.
Proof. vm_compute. done. Qed.

Example ex_run_ends : ex_sched_run.1 = Some None /\ length (jobs ex_sched_run.2.2) = 4%nat /\
  list.last ex_sched_run.2.2 = Some (AEvent (scheduler_event CodeSchedulerStopped OutcomeStopped SeverityInfo ""
    (ex_time + 2 * Hour + Minute / 2) 0)).
Proof. vm_compute. done. Qed.

Lemma Scheduler_Run_refines_witness :
  exists l, ex_sched_run.2.2 = [] ++ l /\ run_trace ex_scheduler false l (Some None).
Proof.
  apply (Scheduler_Run_refines Hour Minute true ex_retry ex_scheduler false 5 ex_start ex_sched_run.2 (Some None)).
  - vm_compute. reflexivity.
  - intros _ w. reflexivity.
  - vm_compute. reflexivity.
Defined.

Lemma executeCycle_bounds_witness : exists l n, ex_cycle.2.2 = [] ++ l /\ (1 <= length (jobs l))%nat /\
  Z.of_nat (length (jobs l)) <= 3 /\ (n <= length (jobs l) <= n + 1)%nat /\
  fst <$> waits l = delay_after ex_scheduler <$> seq 0 n /\ Forall (fun d => 0 < d.1 <= 3 * Second) (waits l).
Proof.
  apply (executeCycle_bounds Hour Minute true ex_retry ex_scheduler ex_start ex_cycle.2 None); vm_compute; reflexivity.
Defined.

Lemma executeCycle_persists_witness : exists l, ex_cycle.2.2 = [] ++ l /\
  (Forall (fun d => d.2 = true) (waits l) ->
   exists r, list.last (jobs l) = Some r /\ final ex_scheduler (Z.of_nat (length (jobs l))) r).
Proof.
  apply (executeCycle_persists Hour Minute true ex_retry ex_scheduler ex_start ex_cycle.2 None);
    [vm_compute; reflexivity|intros w; reflexivity|vm_compute; reflexivity].
Defined.
