(* ===== verification/ConfigReady.v ===== *)
(** * What a validated configuration guarantees

    The result of [Validate] is canonical, and every component that is built
    from it accepts its settings: the checks at the edge of the program imply
    the guards inside it. *)

From S2P Require Export StateFeeds StatePrune SyncJob Scheduler.

(** ** Comparing floats *)

Lemma SFcompare_flip a b : SFcompare b a = CompOpp <$> SFcompare a b.
Proof.
  destruct a as [[]|[]| |[] m e], b as [[]|[]| |[] m2 e2]; cbn; try done;
    rewrite (Z.compare_antisym e e2); (destruct (e ?= e2); cbn; [|done|done]);
    rewrite (Pos.compare_cont_antisym m m2 Eq); by destruct (Pos.compare_cont Eq m m2).
Qed.

Lemma SFcompare_None a b : SFcompare a b = None -> IsNaN a = true \/ IsNaN b = true.
Proof. destruct a as [[]|[]| |[] m e], b as [[]|[]| |[] m2 e2]; cbn; intros H; auto; try discriminate H;
    by destruct (e ?= e2). Qed.

Lemma float_not_lt a b : IsNaN a = false -> IsNaN b = false -> float_lt a b = false -> float_le b a = true.
Proof.
  unfold float_lt, float_le, SFltb, SFleb. intros Ha Hb. rewrite (SFcompare_flip a b).
  destruct (SFcompare a b) as [[]|] eqn:E; try done. apply SFcompare_None in E as [?|?]; congruence.
Qed.

Lemma float_not_le a b : IsNaN a = false -> IsNaN b = false -> float_le a b = false -> float_lt b a = true.
Proof.
  unfold float_lt, float_le, SFltb, SFleb. intros Ha Hb. rewrite (SFcompare_flip a b).
  destruct (SFcompare a b) as [[]|] eqn:E; try done. apply SFcompare_None in E as [?|?]; congruence.
Qed.

(** ** Passing the checks *)

Lemma check_ok ok e u : check ok e = Ok u -> ok = true.
Proof. by destruct ok. Qed.

(** Every step of a chain of [let?] that succeeded, the checks as equations. *)
Ltac steps H :=
  repeat match type of H with
  | rbind ?c _ = Ok _ =>
      let E := fresh "Hs" in destruct c as [?|?] eqn:E; cbn [rbind] in H; [|discriminate H];
      try apply check_ok in E
  end; try apply check_ok in H.

Section Ready.
Context {lib : TextLibrary}.

Lemma validate_positive_ok items u : validate_positive items = Ok u -> Forall (fun i => 0 < i.2) items.
Proof.
  induction items as [|[field value] items IH]; cbn; intros H; [constructor|]. steps H.
  unfold positiveDuration in *. constructor; [cbn; lia|by apply IH].
Qed.

(** The feeds that pass, and what passed. *)
Lemma validate_feeds_ok v : forall feeds seen i l, validate_feeds v seen i feeds = Ok l ->
  l = fill_limits v <$> feeds /\ NoDup ((fun f => ToLower (fc_Name f)) <$> l) /\
  Forall (fun f => ToLower (fc_Name f) ∉ seen) l /\ Forall (fun f => exists i, validateFeed v i f = Ok tt) l.
Proof.
  induction feeds as [|f feeds IH]; intros seen i l H; cbn [validate_feeds] in H.
  { injection H as <-. split_and!; constructor. }
  steps H. injection H as <-. apply negb_true_iff, bool_decide_eq_false in Hs.
  apply IH in Hs1 as (-> & Hn & Hf & Hv). rewrite !fmap_cons. split_and!; [done| | |].
  - apply list.NoDup_cons. split; [|done]. rewrite list_elem_of_fmap. intros (g & E & Hg).
    apply list_elem_of_In in Hg. rewrite Forall_forall in Hf. apply (Hf g Hg). rewrite <- E. set_solver.
  - constructor; [done|]. eapply Forall_impl; [|exact Hf]. cbn. set_solver.
  - constructor; [|done]. destruct a0. by exists i.
Qed.

Lemma canonical_cidrs_ok : forall cidrs seen i l, canonical_cidrs seen i cidrs = Ok l ->
  NoDup l /\ (forall p, p ∈ l <-> p ∈ (Masked <$> cidrs) /\ p ∉ seen) /\ Forall (fun p => IsValid p = true) cidrs.
Proof.
  induction cidrs as [|p cidrs IH]; intros seen i l H; cbn [canonical_cidrs] in H.
  { injection H as <-. split_and!; [constructor| |constructor]. intros q. rewrite fmap_nil. set_solver. }
  steps H. case_bool_decide as Hin.
  - apply IH in H as (Hn & Hl & Hv). split_and!; [done| |by constructor]. intros q. rewrite Hl, fmap_cons. set_solver.
  - steps H. injection H as <-. apply IH in Hs0 as (Hn & Hl & Hv). split_and!; [| |by constructor].
    + apply list.NoDup_cons. split; [|done]. rewrite Hl. set_solver.
    + intros q. rewrite elem_of_cons, Hl, fmap_cons, elem_of_cons. destruct (decide (q = Masked p)) as [->|]; set_solver.
Qed.

(** ** The canonical form *)

#[export] Instance prefix_Compare_laws : CmpLaws prefix_Compare.
Proof.
  unfold prefix_Compare. apply cmp_then_laws; [apply (cmp_on_laws (fun p => p_addr (Masked p)) addr_compare), addr_compare_laws|].
  apply cmp_then_laws; apply cmp_on_laws; [apply _|apply addr_compare_laws].
Qed.

Lemma prefix_Compare_eq a b : prefix_Compare a b = 0 -> a = b.
Proof.
  unfold prefix_Compare. intros H. apply cmp_then_0 in H as [_ H].
  apply cmp_then_0 in H as [H1%cmp_int_eq H2%addr_compare_eq]. destruct a, b; cbn in *; congruence.
Qed.

(** validation brings a configuration to its canonical form: the allowlist
    holds the masked form of every configured prefix, each of them once and in
    order; a feed without limits of its own gets those of the validation
    settings, and no two feeds share a name, whatever the case of its letters;
    every other setting but the spelling of the allowed hosts is kept. *)
Theorem Config_Validate_canonical cfg c :
  (forall p, p ∈ al_CIDRs (cf_Allowlists cfg) -> IsValid p = true -> prefix_wf p) -> Config_Validate cfg = Ok c ->
  let cidrs := al_CIDRs (cf_Allowlists c) in
  (forall p, p ∈ cidrs <-> p ∈ (Masked <$> al_CIDRs (cf_Allowlists cfg))) /\ NoDup cidrs /\
  StronglySorted (cmp_le prefix_Compare) cidrs /\ Forall (fun p => allowlist_ok p = true) cidrs /\
  cf_Feeds c = fill_limits (cf_Validation cfg) <$> cf_Feeds cfg /\
  NoDup ((fun f => ToLower (fc_Name f)) <$> cf_Feeds c) /\
  (exists hosts, canonicalHTTPHosts (cs_AllowedHTTPHosts (cf_CrowdSec cfg)) = Ok hosts /\
   c = MkConfig (cf_Server cfg) (cf_Schedule cfg) (cf_Database cfg) (set_hosts hosts (cf_CrowdSec cfg))
         (cf_Decisions cfg) (cf_Feeds c) (MkAllowlistsConfig cidrs) (cf_Validation cfg) (cf_Logging cfg)
         (cf_Notifications cfg)).
Proof.
  intros Hw H cidrs. unfold Config_Validate in H. steps H. injection H as <-. cbn in *.
  apply canonical_cidrs_ok in Hs7 as (Hn & Hl & Hv). apply validate_feeds_ok in Hs6 as (-> & Hf & _ & _).
  assert (forall p, p ∈ cidrs <-> p ∈ (Masked <$> al_CIDRs (cf_Allowlists cfg))) as Hc.
  { intros p. unfold cidrs. rewrite sort_func_perm, Hl. set_solver. }
  assert (forall q, q ∈ al_CIDRs (cf_Allowlists cfg) -> prefix_wf q) as Hwf.
  { intros q Hq. apply Hw; [done|]. rewrite List.Forall_forall in Hv. by apply Hv, list_elem_of_In. }
  split_and!; [exact Hc| |apply sort_func_sorted, _| |done|done|eauto].
  - unfold cidrs. by rewrite sort_func_perm.
  - apply List.Forall_forall. intros p Hp%list_elem_of_In. apply Hc, list_elem_of_fmap in Hp as (q & -> & Hq).
    apply Hwf in Hq. unfold allowlist_ok. rewrite (Masked_idemp q), bool_decide_true by done.
    apply Masked_wf in Hq as (_ & _ & _ & Hb). unfold IsValid. lia.
Qed.

(** ** What is built from it *)

Definition retry_of (r : RetryConfig) : RetryPolicy := MkRetryPolicy (rt_MaxAttempts r) (rt_InitialBackoff r) (rt_MaxBackoff r).

(** The settings of a feed. *)
Definition feed_ready (v : ValidationConfig) (f : FeedConfig) : Prop :=
  validLimits (limits_for v f) = true /\
  (forall previous now, 0 <= previous -> time_IsZero now = false -> validValidationPolicy (policy_for f previous now) = true).

Lemma family_named_known name : existsb (String.eqb name) ["ipv4"; "ipv6"; "any"]%string = true ->
  match family_named name with FamilyOther _ => false | _ => true end = true.
Proof.
  unfold family_named. cbn. by destruct (String.eqb name "any"), (String.eqb name "ipv4"), (String.eqb name "ipv6").
Qed.

Lemma validateFeed_ready v i f : 0 < vc_MaxLineBytes v -> validateFeed v i f = Ok tt -> feed_ready v f.
Proof.
  intros Hl H. unfold validateFeed in H. steps H. unfold float_finite in *.
  repeat match goal with E : _ && _ = true |- _ => apply andb_true_iff in E as [? ?] end.
  repeat match goal with E : negb _ = true |- _ => apply negb_true_iff in E end.
  repeat match goal with E : _ || _ = false |- _ => apply orb_false_iff in E as [? ?] end.
  split.
  - unfold validLimits, limits_for. cbn. rewrite family_named_known by done.
    rewrite (proj2 (Z.ltb_lt _ _) Hl), (proj2 (Z.leb_le 0 _)) by lia. repeat (rewrite float_not_lt; [|done..]).
    by match goal with E : IsNaN (fc_MaxMalformedRatio f) = false |- _ => rewrite E end.
  - intros previous now Hp Hn. unfold validValidationPolicy, policy_for. cbn.
    rewrite !andb_true_iff, !negb_true_iff.
    split_and!; try done; try lia; try (by apply float_not_lt); try (by apply float_not_le).
    unfold metadataAge. by destruct (format_of _).
Qed.

End Ready.

(** A constructor whose guards hold. *)
Ltac pass_guard :=
  match goal with |- context [if ?g then _ else _] =>
    replace g with false by (symmetry; rewrite !orb_false_iff; split_and!; first [done | lia])
  end; by eexists.

(** Everything that was checked, about a configuration that passed. *)
Ltac open_validated H :=
  unfold Config_Validate in H; steps H; injection H as <-;
  cbn [cf_Server cf_Schedule cf_Database cf_Notifications cf_Decisions cf_CrowdSec cf_Validation cf_Feeds cf_Logging set_hosts
       cs_BatchSize cs_RequestTimeout cs_ConnectTimeout cs_MaxResponseBytes cs_AuthRefreshBefore cs_CredentialsFile] in *;
  repeat match goal with
  | E : validate_positive _ = Ok _ |- _ =>
      apply validate_positive_ok in E; unfold positive_settings in E; rewrite !List.Forall_cons_iff in E; cbn [snd] in E
  | E : validate_bounds _ = Ok _ |- _ => unfold validate_bounds in E; steps E
  | E : validateRetry _ _ = Ok _ |- _ => unfold validateRetry in E; steps E
  | E : validate_database _ _ = Ok _ |- _ => unfold validate_database in E; steps E
  | E : validate_limits _ = Ok _ |- _ => unfold validate_limits in E; steps E
  | E : validate_feeds _ _ _ _ = Ok _ |- _ =>
      let Hf := fresh "Hf" in let Hn := fresh "Hnodup" in let Hl := fresh "Hlimits" in
      apply validate_feeds_ok in E as (Hl & Hn & _ & Hf)
  end; unfold positiveDuration in *; to_prop.

(** C21: what the program builds from a validated configuration is accepted by
    the component it is for: the scheduler, the reconciler of any machine with
    a usable name, the job, the pruning, the grace of the snapshots, and for
    each feed the limits of its parser and the policy of its validation. *)
Theorem Config_Validate_ready {lib : TextLibrary} cfg c : Config_Validate cfg = Ok c ->
  (exists s, Scheduler_New (sc_Interval (cf_Schedule c)) (sc_StartupJitter (cf_Schedule c)) (sc_RunImmediately (cf_Schedule c))
     (retry_of (sc_Retry (cf_Schedule c))) = Ok s) /\
  (exists j, NewSyncJob (dbc_BusyTimeout (cf_Database c)) (nc_StaleSyncAfter (cf_Notifications c)) = Ok j) /\
  (forall machine, machine <> ""%string -> len machine <= 128 -> has_control machine = false ->
   exists r, New machine (dc_Duration (cf_Decisions c)) (dc_RefreshBefore (cf_Decisions c)) (cs_BatchSize (cf_CrowdSec c)) = Ok r) /\
  (forall now, 0 <= unix now -> validPruneOptions now (dbc_HistoryRetention (cf_Database c)) (dbc_MaxHistoryEntries (cf_Database c)) = true) /\
  1 <= dc_MissingGraceRuns (cf_Decisions c) <= 100 /\
  Forall (feed_ready (cf_Validation c)) (cf_Feeds c).
Proof.
  intros H. open_validated H. split_and!.
  - assert (validRetry (retry_of (sc_Retry (cf_Schedule cfg))) = true) as Hr
      by (unfold validRetry, retry_of; cbn; rewrite !andb_true_iff; split_and!; lia).
    unfold Scheduler_New. rewrite Hr. pass_guard.
  - unfold NewSyncJob. pass_guard.
  - intros machine Hm Hl Hc. unfold New. rewrite (proj2 (String.eqb_neq _ _)), Hc by done. pass_guard.
  - intros now Hn. unfold validPruneOptions. rewrite !andb_true_iff, negb_true_iff.
    split_and!; try lia. unfold time_IsZero. apply Z.eqb_neq. by intros ->.
  - lia.
  - lia.
  - eapply List.Forall_impl; [|exact Hf]. intros f [i Hi]. eapply validateFeed_ready; [|exact Hi]. lia.
Qed.

(** ** What the store takes of it *)

Section Registrable.
Context {lib : TextLibrary}.

Lemma hex_encode_valid bs : Forall (fun b => 0 <= b < 256) bs -> validHash (hex_encode bs) = (Z.of_nat (List.length bs) =? 32).
Proof.
  intros H. unfold validHash.
  assert (len (hex_encode bs) = 2 * Z.of_nat (List.length bs) /\
    all_chars (fun c => match hex_value c with Some _ => true | None => false end) (hex_encode bs) = true) as [-> ->].
  { unfold hex_encode. induction H as [|b bs Hb _ [IH1 IH2]]; [done|]. cbn [flat_map app String.string_of_list_ascii].
    unfold len in *. cbn [String.length all_chars]. rewrite IH2.
    destruct (hex_digit_facts (b / 16)) as [-> _]; [split; [apply Z.div_pos|apply Z.div_lt_upper_bound]; lia|].
    destruct (hex_digit_facts (b mod 16)) as [-> _]; [by apply Z.mod_pos_bound|]. split; [cbn [List.length]; lia|done]. }
  rewrite andb_true_r. apply Bool.eq_iff_eq_true. rewrite !Z.eqb_eq. lia.
Qed.

Lemma hashText_valid value : validHash (hashText value) = true.
Proof.
  unfold hashText, sha256_hex. rewrite hex_encode_valid; [by rewrite Sum256_length|].
  unfold Sum256. induction (fold_left compress _ initial_hash) as [|w ws IH]; [constructor|].
  cbn [flat_map]. apply List.Forall_app. split; [|done].
  unfold bytes_of_word. repeat (constructor; [by apply Z.mod_pos_bound|]). constructor.
Qed.

Lemma validateFeed_name v i f : validateFeed v i f = Ok tt ->
  match_feed_name (fc_Name f) = true /\ len (fc_Name f) <= vc_MaxFeedNameLength v.
Proof.
  unfold validateFeed. intros H. steps H. clear - Hs. apply negb_true_iff, orb_false_iff in Hs as [Hs Hm].
  apply orb_false_iff in Hs as [_ Hs]. apply negb_false_iff in Hm. split; [done|lia].
Qed.

Context {codec : DefinitionCodec}.

Lemma feedDefinitions_ok feeds : forall ds, feedDefinitions feeds = Ok ds ->
  fd_Name <$> ds = fc_Name <$> feeds /\ fd_Enabled <$> ds = fc_Enabled <$> feeds /\
  Forall (fun d => validHash (fd_URLHash d) = true /\ validHash (fd_DefinitionHash d) = true) ds.
Proof.
  induction feeds as [|f feeds IH]; intros ds H; cbn [feedDefinitions] in H; [by injection H as <-|]. steps H. injection H as <-.
  destruct (IH _ eq_refl) as (En & Ee & Hv). rewrite !fmap_cons, En, Ee. split_and!; [done|done|]. constructor; [|done].
  cbn. split; [apply hashText_valid|]. unfold definitionHash in Hs. steps Hs. injection Hs as <-. apply hashText_valid.
Qed.

Lemma validate_definitions_ok ds : forall seen, Forall (fun d => validFeedDefinition d = true) ds ->
  NoDup (fd_Name <$> ds) -> (forall d, d ∈ ds -> fd_Name d ∉ seen) -> validate_definitions seen ds = true.
Proof.
  induction ds as [|d ds IH]; intros seen Hv Hn Hs; cbn [validate_definitions]; [done|].
  apply List.Forall_cons_iff in Hv as [-> Hv]. rewrite fmap_cons in Hn. apply list.NoDup_cons in Hn as [Hd Hn]. cbn [negb].
  rewrite bool_decide_false by (apply Hs; left). apply IH; [done|done|]. intros e He Hin%elem_of_union.
  destruct Hin as [Hin%elem_of_singleton|Hin].
  - apply Hd. rewrite <- Hin. by apply list_elem_of_fmap_2.
  - by apply (Hs e); [right|].
Qed.

(** the feeds of a validated configuration can be registered: unless the
    configured limit on the length of their names is above the 64 bytes of the
    store, the definitions the engine makes of them pass the checks of the
    store, one for each feed, with its name and its switch. *)
Theorem feeds_registrable cfg c ds : Config_Validate cfg = Ok c -> vc_MaxFeedNameLength (cf_Validation c) <= 64 ->
  feedDefinitions (cf_Feeds c) = Ok ds ->
  validate_definitions ∅ ds = true /\ fd_Name <$> ds = fc_Name <$> cf_Feeds c /\ fd_Enabled <$> ds = fc_Enabled <$> cf_Feeds c.
Proof.
  intros H Hl Hd. apply feedDefinitions_ok in Hd as (En & Ee & Hh). split; [|done].
  unfold Config_Validate in H. steps H. injection H as <-. cbn [cf_Validation cf_Feeds] in *.
  apply validate_feeds_ok in Hs6 as (_ & Hn & _ & Hv). apply validate_definitions_ok; [|rewrite En|set_solver].
  - apply List.Forall_forall. intros d Hd. rewrite List.Forall_forall in Hh, Hv. destruct (Hh d Hd) as [H1 H2].
    assert (fd_Name d ∈ fc_Name <$> a6) as Hf by (rewrite <- En; by apply list_elem_of_fmap_2, list_elem_of_In).
    apply list_elem_of_fmap in Hf as (f & Ef & Hf%list_elem_of_In). destruct (Hv f Hf) as [i Hi].
    apply validateFeed_name in Hi as [Hm Hi]. unfold validFeedDefinition. rewrite Ef, Hm, H1, H2, !andb_true_r. lia.
  - apply (NoDup_fmap_1 ToLower). by rewrite <- list_fmap_compose.
Qed.
End Registrable.

(** ** Examples *)

Module ConfigExamples.

(** The host of a URL is what follows its scheme, up to a slash. *)
#[export] Instance ex_text : TextLibrary := {|
  url_parse raw :=
    match cut_byte ":" raw with
    | Some (scheme, String "/" (String "/" rest)) =>
        let host := match cut_byte "/" rest with Some (host, _) => host | None => rest end in
        Some (MkURL scheme host host false "")
    | _ => None
    end;
  unicode_lower s := s |}.
#[export] Instance ex_codec : DefinitionCodec := {| json_definition f := Ok (fc_Name f +:+ " " +:+ fc_URL f) |}.

Definition ex_cidr (text : string) : Prefix := default (MkPrefix AddrZero (-1)) (ParsePrefix text).

(** The defaults with an allowlist, and the names of the feeds changed. *)
Definition ex_named (limit : Z) (rename : string -> string) : Config :=
  let d := Defaults "1.2.3" in
  let v := cf_Validation d in
  MkConfig (cf_Server d) (cf_Schedule d) (cf_Database d) (cf_CrowdSec d) (cf_Decisions d)
    (map (fun f => MkFeedConfig (rename (fc_Name f)) (fc_Enabled f) (fc_URL f) (fc_Format f) (fc_Family f) (fc_Timeout f)
       (fc_MaxDownloadBytes f) (fc_ExpectedMinEntries f) (fc_ExpectedMaxEntries f) (fc_MaxGrowthRatio f)
       (fc_MaxShrinkRatio f) (fc_Attribution f) (fc_MinUpdateInterval f) (fc_AllowHTTP f) (fc_ContentTypes f)
       (fc_RequireFinalNewline f) (fc_MaxMalformedLines f) (fc_MaxMalformedRatio f)) (cf_Feeds d))
    (MkAllowlistsConfig (map ex_cidr ["192.0.2.9/24"; "10.0.0.0/8"; "192.0.2.0/24"]))
    (MkValidationConfig (vc_AllowHTTP v) (vc_MaxRedirects v) (vc_MaxFeeds v) limit (vc_MaxMalformedLines v)
       (vc_MaxMalformedRatio v) (vc_MaxLineBytes v) (vc_UserAgent v) (vc_DNSLookupTimeout v))
    (cf_Logging d) (cf_Notifications d).
Definition ex_config : Config := ex_named 64 (fun n => n).

(** The validated form of a configuration, itself if it is refused. *)
Definition ex_valid (c : Config) : Config := match Config_Validate c with Ok c => c | Err _ => c end.
Definition accepted {E A} (r : result E A) : bool := match r with Ok _ => true | Err _ => false end.

Example defaults_valid : accepted (Config_Validate (Defaults "1.2.3")) = true.
Proof. vm_compute. reflexivity. Qed.

Example ex_cidrs : map prefix_String (al_CIDRs (cf_Allowlists (ex_valid ex_config))) = ["10.0.0.0/8"; "192.0.2.0/24"]%string.
Proof. vm_compute. reflexivity. Qed.

Lemma ex_config_wf p : p ∈ al_CIDRs (cf_Allowlists ex_config) -> IsValid p = true -> prefix_wf p.
Proof.
  intros Hp _. assert (Forall (fun p => 0 <= addr_value (p_addr p) < 2 ^ BitLen (p_addr p) /\ p_addr p <> AddrZero /\
    Zone (p_addr p) = "" /\ 0 <= p_bits p <= BitLen (p_addr p)) (al_CIDRs (cf_Allowlists ex_config))) as H.
  { vm_compute. repeat (constructor; [split_and!; congruence|]). constructor. }
  rewrite List.Forall_forall in H. exact (H p (proj1 (list_elem_of_In _ _) Hp)).
Qed.

Abbreviation ex_c := (ex_valid ex_config).

Lemma Config_Validate_canonical_witness :
  (forall p, p ∈ al_CIDRs (cf_Allowlists ex_c) <-> p ∈ (Masked <$> al_CIDRs (cf_Allowlists ex_config))) /\
  NoDup (al_CIDRs (cf_Allowlists ex_c)).
Proof.
  destruct (Config_Validate_canonical ex_config ex_c ex_config_wf) as (H1 & H2 & _); [vm_compute; reflexivity|].
  split; [exact H1|exact H2].
Defined.

Lemma Config_Validate_ready_witness : Forall (feed_ready (cf_Validation ex_c)) (cf_Feeds ex_c).
Proof.
  destruct (Config_Validate_ready ex_config ex_c) as (_ & _ & _ & _ & _ & H); [vm_compute; reflexivity|exact H].
Defined.

(** The definitions of the feeds of a configuration. *)
Definition ex_definitions (c : Config) : list FeedDefinition :=
  match feedDefinitions (cf_Feeds c) with Ok ds => ds | Err _ => [] end.

Lemma feeds_registrable_witness :
  validate_definitions ∅ (ex_definitions ex_c) = true /\ fd_Name <$> ex_definitions ex_c = fc_Name <$> cf_Feeds ex_c /\
  fd_Enabled <$> ex_definitions ex_c = fc_Enabled <$> cf_Feeds ex_c.
Proof.
  apply (feeds_registrable ex_config ex_c (ex_definitions ex_c)); vm_compute; [reflexivity|congruence|reflexivity].
Defined.

(** The limit on the length of names can be set above what the store takes:
    such a configuration is valid, and none of its runs can register its
    feeds. *)
Definition ex_long : Config := ex_named 128 (fun n => n +:+ "-0123456789-0123456789-0123456789-0123456789-0123456789").

Theorem long_names_not_registrable :
  exists c, Config_Validate ex_long = Ok c /\ validate_definitions ∅ (ex_definitions c) = false.
Proof. exists (ex_valid ex_long). split; vm_compute; reflexivity. Qed.
End ConfigExamples.
