(* ===== verification/NotifyRun.v ===== *)
(** * What the manager sends

    Every notice that leaves the manager is due: it is valid, its severity is
    wanted, its attempt is stored before it is sent, and it is out of the
    cooldown of the last attempt the manager knows of.  Two notices of a condition
    are a cooldown apart as long as that attempt is known; the manager forgets it
    for failures and for staleness only. *)

From S2P Require Export Notify.

(** ** Logged worlds *)

Inductive naction : Type :=
| NNow (t : Time)
| NLoad (k : StateKey) (r : result error (option PersistentState))
| NSave (s : PersistentState) (r : result error unit)
| NSend (n : Notice) (r : result error unit)
| NObserve (e : Event).

(** A world with the log of what the manager did to it. *)
#[export] Instance notify_logged {W} `{!NotifyWorld W} : NotifyWorld (W * list naction) := {|
  n_Now wl := let '(t, w) := n_Now wl.1 in (t, (w, wl.2 ++ [NNow t]));
  n_Load k := fun wl => let '(r, w) := n_Load k wl.1 in (r, (w, wl.2 ++ [NLoad k r]));
  n_Save s := fun wl => let '(r, w) := n_Save s wl.1 in (r, (w, wl.2 ++ [NSave s r]));
  n_Send n := fun wl => let '(r, w) := n_Send n wl.1 in (r, (w, wl.2 ++ [NSend n r]));
  n_Observe e wl := (n_Observe e wl.1, wl.2 ++ [NObserve e]) |}.

(** What an action tells about the state of a key. *)
Definition told (key : StateKey) (a : naction) : option PersistentState :=
  match a with
  | NLoad k (Ok None) => if bool_decide (k = key) then Some (new_state key) else None
  | NLoad k (Ok (Some s)) => if bool_decide (k = key) then Some s else None
  | NSave s (Ok _) => if bool_decide (ps_Key s = key) then Some s else None
  | _ => None
  end.

(** The state of a key as last loaded or stored. *)
Definition known (key : StateKey) (l : list naction) : option PersistentState :=
  fold_left (fun s a => match told key a with Some s' => Some s' | None => s end) l None.

#[local] Arguments known : simpl never.

Lemma known_snoc key l a : known key (l ++ [a]) = match told key a with Some s => Some s | None => known key l end.
Proof. unfold known. by rewrite fold_left_app. Qed.

(** ** Due notices *)

Section Due.
Context (m : Manager).

(** The notice was sent right after its attempt was stored, out of the
    cooldown of the attempt known before. *)
Record due (before : list naction) (n : Notice) (s s0 : PersistentState) : Prop := {
  du_saved : exists l0, before = l0 ++ [NSave s (Ok tt)] /\ known (ps_Key s) l0 = Some s0;
  du_key : sk_Kind (ps_Key s) = nt_Kind n \/
           (nt_Kind n = KindRecovery /\ ps_Key s = failure_key /\ ps_RecoveryPending s0 = true);
  du_feed : sk_Feed (ps_Key s) = "" \/ sk_Feed (ps_Key s) = nt_Feed n;
  du_severity : severityRank (mg_minimumSeverity m) <= severityRank (nt_Severity n);
  du_attempt : ps_LastAttempt s <> 0;
  du_cooldown : withinCooldown m (ps_LastAttempt s0) (ps_LastAttempt s) = false;
  du_valid : Notice_Validate n = None }.

(** A state without an attempt is one of a failure or of the staleness. *)
Definition settles (s : PersistentState) : Prop :=
  ps_LastAttempt s <> 0 \/ ps_Key s = failure_key \/ ps_Key s = stale_key.

(** What may be done after what was done before. *)
Definition may_follow (before : list naction) (a : naction) : Prop :=
  match a with
  | NSend n _ => exists s s0, due before n s s0
  | NSave s _ => settles s
  | _ => True
  end.
Definition all_due (l : list naction) : Prop := forall l1 a l2, l = l1 ++ a :: l2 -> may_follow l1 a.

Lemma all_due_nil : all_due [].
Proof. intros l1 a l2 H. by destruct l1. Qed.

Lemma all_due_snoc l a : all_due l -> may_follow l a -> all_due (l ++ [a]).
Proof.
  intros Hl Ha l1 b l2 H. destruct l2 as [|c l2 _] using rev_ind.
  - apply app_inj_tail in H as [<- ->]. exact Ha.
  - rewrite app_comm_cons, app_assoc in H. apply app_inj_tail in H as [-> _]. by eapply Hl.
Qed.

(** *** Two notices of a condition *)

(** The action tells nothing else about the attempt of [s] than [s]. *)
Definition stands (s : PersistentState) (a : naction) : Prop :=
  forall s', told (ps_Key s) a = Some s' -> ps_LastAttempt s' = ps_LastAttempt s.

Lemma known_stands s l : Forall (stands s) l -> forall l0 s0, known (ps_Key s) l0 = Some s0 -> ps_LastAttempt s0 = ps_LastAttempt s ->
  exists s1, known (ps_Key s) (l0 ++ l) = Some s1 /\ ps_LastAttempt s1 = ps_LastAttempt s.
Proof.
  induction 1 as [|a l Ha Hl IH]; intros l0 s0 Hk E; [rewrite app_nil_r; by exists s0|].
  rewrite cons_middle, app_assoc. destruct (told (ps_Key s) a) as [s'|] eqn:Et.
  - apply (IH _ s'); [by rewrite known_snoc, Et|by apply Ha].
  - apply (IH _ s0); [by rewrite known_snoc, Et|done].
Qed.

Lemma due_apart l0 s n r mid s2 n2 s20 s3 : due l0 n s s20 ->
  due (l0 ++ NSend n r :: mid ++ [NSave s2 (Ok tt)]) n2 s2 s3 -> ps_Key s2 = ps_Key s -> Forall (stands s) mid ->
  Before (ps_LastAttempt s2) (ps_LastAttempt s) = false /\ mg_cooldown m <= time_Sub (ps_LastAttempt s2) (ps_LastAttempt s).
Proof.
  intros [[l1 [-> _]] _ _ _ Hne _ _] [[l2 [E Hk]] _ _ _ _ Hc _] Hkey Hs.
  rewrite app_comm_cons, app_assoc in E. apply app_inj_tail in E as [<- _].
  destruct (known_stands s (NSend n r :: mid)) with (l0 := l1 ++ [NSave s (Ok tt)]) (s0 := s) as (s1 & Hk1 & E1).
  - constructor; [|done]. intros s' H. done.
  - rewrite known_snoc. cbn. by rewrite bool_decide_true.
  - done.
  - rewrite Hkey, Hk1 in Hk. injection Hk as <-. unfold withinCooldown in Hc. rewrite E1 in Hc. unfold time_IsZero in Hc.
    rewrite (proj2 (Z.eqb_neq _ _) Hne) in Hc. destruct (Before _ _); [done|]. split; [done|]. by apply Z.ltb_ge.
Qed.

Context {W : Type} `{!NotifyWorld W} (clock_runs : forall w : W, (n_Now w).1 <> 0).
Abbreviation LW := (W * list naction)%type.

(** A call that sends nothing that is not due. *)
Definition behaves {A} (f : LW -> A * LW) : Prop := forall w, all_due w.2 -> all_due (f w).2.2.

Lemma now_due : behaves n_Now.
Proof. intros w H. cbn. destruct (n_Now w.1) as [t w1]. by apply all_due_snoc. Qed.

(** Reading the clock: the log grows, what is known does not change. *)
Lemma now_step (w : LW) t w' : n_Now w = (t, w') ->
  t <> 0 /\ w'.2 = w.2 ++ [NNow t] /\ (forall key, known key w'.2 = known key w.2) /\ (all_due w.2 -> all_due w'.2).
Proof.
  cbn. pose proof (clock_runs w.1) as Hc. destruct (n_Now w.1) as [t' w1]. intros [= <- <-]. cbn in *.
  split_and!; [done|done| |by intros; apply all_due_snoc]. intros key. by rewrite known_snoc.
Qed.

Lemma observe_due e : forall w : LW, all_due w.2 -> all_due (n_Observe e w).2.
Proof. intros w H. by apply all_due_snoc. Qed.

Lemma event_due n o f : behaves (event n o f).
Proof.
  intros w H. unfold event. destruct (n_Now w) as [t w1] eqn:E. apply now_step in E as (_ & _ & _ & H1).
  cbn [snd]. destruct (Event_Validate _); [auto|]. apply observe_due. auto.
Qed.

Lemma stateFailure_due feed : behaves (stateFailure feed).
Proof.
  intros w H. unfold stateFailure. destruct (n_Now w) as [t w1] eqn:E. apply now_step in E as (_ & _ & _ & H1).
  apply event_due. auto.
Qed.

Lemma load_step key (w : LW) r w' : load key w = (r, w') -> all_due w.2 ->
  all_due w'.2 /\ match r with
                  | Some (s, found) => known key w'.2 = Some s /\ ps_Key s = key /\ (found = false -> s = new_state key) /\
                                       (found = true -> PersistentState_valid s = true)
                  | None => True end.
Proof.
  unfold load. cbn. destruct (n_Load key w.1) as [[[s|]|e] w1]; intros H Hd.
  - destruct (_ && _) eqn:E; injection H as <- <-; cbn; (split; [by apply all_due_snoc|]); [|done].
    apply andb_true_iff in E as [E%bool_decide_eq_true Hv]. rewrite known_snoc. cbn. by rewrite bool_decide_true.
  - injection H as <- <-. cbn. split; [by apply all_due_snoc|]. rewrite known_snoc. cbn. by rewrite bool_decide_true.
  - injection H as <- <-. cbn. split; [by apply all_due_snoc|done].
Qed.

Lemma save_step s (w : LW) r w' : settles s -> save s w = (r, w') -> all_due w.2 ->
  all_due w'.2 /\ match r with
                  | Some s' => exists t l, t <> 0 /\ s' = set_updated t s /\ PersistentState_valid s' = true /\
                                 w'.2 = l ++ [NSave s' (Ok tt)] /\ (forall key, known key l = known key w.2)
                  | None => True end.
Proof.
  unfold save. intros Hs H Hd. destruct (n_Now w) as [t w1] eqn:E. apply now_step in E as (Ht & E & Hk & H1).
  specialize (H1 Hd). destruct (PersistentState_valid _) eqn:Ev; cbn [negb] in H; [|injection H as <- <-; by split].
  cbn in H. destruct (n_Save _ w1.1) as [[u|e] w2]; injection H as <- <-; cbn; (split; [by apply all_due_snoc|]); [|done].
  destruct u. exists t, w1.2. by split_and!.
Qed.

Lemma next_failure_key s failure feed : ps_Key s = failure_key -> ps_Key (next_failure s failure feed) = failure_key.
Proof. unfold next_failure. intros E. destruct (_ || _); [done|]. by destruct (_ <? _). Qed.

(** A state that may be stored. *)
Ltac settle := first [by left|by right; left|by right; right|by right; left; apply next_failure_key|by eauto].

(** The key of a notice's state, and the notices an attempt may send. *)
Definition belongs (n : Notice) (s : PersistentState) : Prop :=
  Notice_Validate n = None /\
  (sk_Kind (ps_Key s) = nt_Kind n \/ (nt_Kind n = KindRecovery /\ ps_Key s = failure_key /\ ps_RecoveryPending s = true)) /\
  (sk_Feed (ps_Key s) = "" \/ sk_Feed (ps_Key s) = nt_Feed n).

Lemma attempt_due n s f (w : LW) : (forall g s', f = Some g -> ps_LastAttempt s' <> 0 -> settles (g s')) -> all_due w.2 -> known (ps_Key s) w.2 = Some s -> belongs n s ->
  all_due (attempt m n s f w).2.2.
Proof.
  intros Hf Hd Hk (Hv & Hkind & Hfeed). unfold attempt. destruct (allowedSeverity m _) eqn:Ea; cbn [negb]; [|done].
  destruct (n_Now w) as [now w1] eqn:En. apply now_step in En as (Hnow & _ & Hk1 & Hd1).
  destruct (withinCooldown m _ now) eqn:Ec; [by apply Hd1|].
  destruct (save _ w1) as [[s1|] w2] eqn:Es; (apply save_step in Es; [destruct Es as [Hd2 Hs]|settle|by auto]); [|by apply stateFailure_due].
  destruct Hs as (t & l & _ & -> & Hvs & El & Hkl). set (s1 := set_updated t (set_attempt now s)) in *.
  assert (all_due (n_Send n w2).2.2) as Hd3.
  { cbn. destruct (n_Send n w2.1) as [r w3]. cbn. apply all_due_snoc; [done|]. exists s1, s.
    split; [|done|done|by apply Z.leb_le in Ea|exact Hnow|exact Ec|done].
    exists l. split; [exact El|]. rewrite Hkl, Hk1. exact Hk. }
  cbv iota beta. change (n_Send n w2) with (n_Send (W := LW) n w2) in *. destruct (n_Send n w2) as [[u|e] w3] eqn:E3; cbn in Hd3; [|by apply event_due].
  destruct f as [f|]; [|by apply event_due].
  destruct (save (f s1) w3) as [[s2|] w4] eqn:E4; (apply save_step in E4; [destruct E4 as [Hd4 _]|settle|by auto]); [by apply event_due|by apply stateFailure_due].
Qed.

(** *** The notices are valid *)

Lemma valid_parts s : PersistentState_valid s = true ->
  0 <= ps_ConsecutiveFailures s <= 100 /\ (ps_Feed s = "" \/ ValidFeedName (ps_Feed s) = true) /\
  (ps_RecoveryPending s = true \/ ps_Notified s = true -> ps_Key s = failure_key /\ ValidFailureCategory (ps_Failure s) = true).
Proof.
  unfold PersistentState_valid. rewrite !andb_true_iff, !negb_true_iff. intros [[[[H1 H2] _] H3] _].
  rewrite !orb_false_iff in H1. destruct H1 as [[Hk H1] H1']. split; [lia|]. split.
  - destruct (String.eqb_spec (ps_Feed s) ""); [by left|right]. by destruct (ValidFeedName (ps_Feed s)).
  - intros Hp. assert ((0 <? ps_ConsecutiveFailures s) || ps_Notified s || ps_RecoveryPending s = true) as E
      by (destruct Hp as [-> | ->]; by rewrite ?orb_true_r).
    rewrite E in H3. cbn [andb] in H3. apply orb_false_iff in H3 as [H3%negb_false_iff%String.eqb_eq H4%negb_false_iff].
    split; [|done]. apply negb_false_iff in Hk. unfold StateKey_valid in Hk. rewrite H3 in Hk.
    unfold failure_key. destruct (ps_Key s) as [k f]. cbn in *. subst k. apply String.eqb_eq in Hk. by subst f.
Qed.

Lemma failure_result r : Result_Validate r = None -> failed_outcome (rs_Outcome r) = true ->
  ValidFailureCategory (rs_Failure r) = true /\ (failedFeed r = "" \/ ValidFeedName (failedFeed r) = true).
Proof.
  unfold Result_Validate. destruct (result_outcome_ok r) eqn:Eo; cbn [negb]; [|done].
  destruct (_ || _); [done|]. destruct (feeds_valid _ _) eqn:Ef; [|done]. intros _ Hf. split.
  - unfold result_outcome_ok in Eo. unfold failed_outcome in Hf.
    destruct (String.eqb_spec (rs_Outcome r) OutcomeSuccess) as [E|_]; [by rewrite E in Hf|].
    apply one_of_In in Hf. assert (one_of (rs_Outcome r) [OutcomeDegraded; OutcomeFailed] = true) as E
      by (apply one_of_In; cbn in *; tauto).
    by rewrite E in Eo.
  - apply feeds_valid_true in Ef as [Ef _]. unfold failedFeed.
    destruct (List.find _ _) as [f|] eqn:E; [right|by left]. apply find_some in E as [Hin _].
    rewrite List.Forall_forall in Ef. specialize (Ef f Hin). unfold FeedResult_valid in Ef.
    by apply andb_true_iff in Ef as [[[? _]%andb_true_iff _]%andb_true_iff _].
Qed.

Lemma result_counts r : Result_Validate r = None -> Counts_valid (rs_Counts r) = true.
Proof.
  unfold Result_Validate. destruct (negb _); [done|]. destruct (_ || _) eqn:E; [done|]. intros _.
  apply orb_false_iff in E as [E _]. by apply orb_false_iff in E as [_ E%negb_false_iff].
Qed.

Lemma feed_clause feed : feed = "" \/ ValidFeedName feed = true -> negb (String.eqb feed "") && negb (ValidFeedName feed) = false.
Proof. intros [->| ->]; [done|]. by rewrite andb_false_r. Qed.

Lemma failure_notice_valid feed failure n now : now <> 0 -> feed = "" \/ ValidFeedName feed = true ->
  ValidFailureCategory failure = true -> 1 <= n <= 100 ->
  Notice_Validate (MkNotice KindRepeatedFailure SeverityWarning feed failure no_counts n now) = None.
Proof.
  intros Ht Hf Hc Hn. unfold Notice_Validate. cbn [nt_At nt_Severity nt_Counts nt_ConsecutiveFailures nt_Feed].
  unfold time_IsZero. rewrite (proj2 (Z.eqb_neq _ _) Ht), (proj2 (Z.ltb_ge n 0)), (proj2 (Z.ltb_ge 100 n)) by lia. cbn [orb].
  rewrite (feed_clause _ Hf). unfold notice_kind_ok. cbn [nt_Kind nt_Failure nt_ConsecutiveFailures].
  rewrite Hc, (proj2 (Z.leb_le 1 n)) by lia. done.
Qed.

Lemma recovery_notice_valid feed failure now : now <> 0 -> feed = "" \/ ValidFeedName feed = true ->
  ValidFailureCategory failure = true ->
  Notice_Validate (MkNotice KindRecovery SeverityInfo feed failure no_counts 0 now) = None.
Proof.
  intros Ht Hf Hc. unfold Notice_Validate. cbn [nt_At nt_Severity nt_Counts nt_ConsecutiveFailures nt_Feed].
  unfold time_IsZero. rewrite (proj2 (Z.eqb_neq _ _) Ht), (feed_clause _ Hf). unfold notice_kind_ok. cbn [nt_Kind nt_Failure].
  by rewrite Hc.
Qed.

Lemma plain_notice_valid kind severity feed counts now : now <> 0 -> validSeverity severity = true -> Counts_valid counts = true ->
  (feed = "" /\ one_of kind [KindStartup; KindFirstSuccess; KindRoutineSuccess; KindStaleSync] = true \/
   kind = KindSuspiciousChange /\ ValidFeedName feed = true) ->
  Notice_Validate (plain_notice kind severity feed counts now) = None.
Proof.
  intros Ht Hs Hc Hk. unfold Notice_Validate, plain_notice.
  cbn [nt_At nt_Severity nt_Counts nt_ConsecutiveFailures nt_Feed]. unfold time_IsZero.
  rewrite (proj2 (Z.eqb_neq _ _) Ht), Hs, Hc. cbn [negb orb Z.ltb Z.compare].
  unfold notice_kind_ok. cbn [nt_Kind nt_Failure nt_Feed nt_ConsecutiveFailures]. destruct Hk as [[-> ->]|[-> Hf]]; [done|].
  rewrite Hf, andb_false_r. destruct feed; [by vm_compute in Hf|done].
Qed.

(** *** Every call *)

Context (threshold_pos : 1 <= mg_failureThreshold m).

Lemma handleFailure_due r : Result_Validate r = None -> failed_outcome (rs_Outcome r) = true -> behaves (handleFailure m r).
Proof.
  intros Hv Hf w Hd. unfold handleFailure. destruct (failure_result r Hv Hf) as [Hc Hfeed].
  destruct (load failure_key w) as [[[s found]|] w1] eqn:El; apply load_step in El as [Hd1 Hl]; auto; [|by apply stateFailure_due].
  destruct Hl as (_ & Hkey & _ & _).
  destruct (save _ w1) as [[s1|] w2] eqn:Es; (apply save_step in Es; [destruct Es as [Hd2 Hs]|settle|by auto]); [|by apply stateFailure_due].
  destruct Hs as (t & l & _ & E1 & Hv1 & El & _). destruct (_ || _) eqn:En; [done|].
  apply orb_false_iff in En as [_ En%Z.ltb_ge].
  destruct (n_Now w2) as [now w3] eqn:E3. apply now_step in E3 as (Hn & _ & Hk3 & Hd3).
  assert (ps_Key s1 = failure_key) as Hk1.
  { rewrite E1. by apply next_failure_key. }
  apply valid_parts in Hv1 as (Hcount & _ & _). apply attempt_due; [intros ? ? [= <-] ?; by left|auto| |].
  - rewrite Hk3, El, known_snoc. cbn. by rewrite bool_decide_true.
  - split; [apply failure_notice_valid; auto; lia|]. rewrite Hk1. split; by left.
Qed.

Lemma notify_recovery_due s : PersistentState_valid s = true -> ps_RecoveryPending s = true -> forall w : LW,
  all_due w.2 -> known (ps_Key s) w.2 = Some s -> all_due (notify_recovery m s w).2.2.
Proof.
  intros Hv Hp w Hd Hk. unfold notify_recovery. destruct (n_Now w) as [now w1] eqn:E.
  apply now_step in E as (Hn & _ & Hk1 & Hd1). apply valid_parts in Hv as (_ & Hf & Hr). destruct Hr as [Hkey Hc]; [by left|].
  apply attempt_due; [intros ? ? [= <-] _; by right; left|auto|by rewrite Hk1|]. split; [by apply recovery_notice_valid|]. rewrite Hkey. split; [by right|by left].
Qed.

Lemma clearFailure_due : behaves (clearFailure m).
Proof.
  intros w Hd. unfold clearFailure.
  destruct (load failure_key w) as [[[s found]|] w1] eqn:El; apply load_step in El as [Hd1 Hl]; auto; [|by apply stateFailure_due].
  destruct Hl as (Hk & Hkey & _ & Hfound). destruct found; cbn [negb orb]; [|done].
  destruct ((_ =? 0) && _ && _); [done|]. destruct (_ || _) eqn:Eq.
  { destruct (save _ w1) as [[s1|] w2] eqn:Es; (apply save_step in Es; [destruct Es as [Hd2 _]|settle|by auto]); [done|by apply stateFailure_due]. }
  destruct (ps_RecoveryPending s) eqn:Ep; [apply notify_recovery_due; auto; by rewrite Hkey|].
  destruct (save _ w1) as [[s1|] w2] eqn:Es; (apply save_step in Es; [destruct Es as [Hd2 Hs]|settle|by auto]); [|by apply stateFailure_due].
  destruct Hs as (t & l & _ & E1 & Hv1 & El & _). apply notify_recovery_due; [done|by rewrite E1|done|].
  rewrite El, known_snoc. cbn. by rewrite bool_decide_true.
Qed.

Lemma clearStale_due : behaves clearStale.
Proof.
  intros w Hd. unfold clearStale.
  destruct (load stale_key w) as [[[s found]|] w1] eqn:El; apply load_step in El as [Hd1 _]; auto; [|by apply stateFailure_due].
  destruct (_ || _); [done|].
  destruct (save _ w1) as [[s1|] w2] eqn:Es; (apply save_step in Es; [destruct Es as [Hd2 _]|settle|by auto]); [done|by apply stateFailure_due].
Qed.

(** The common end of the simple notices: the clock is read and the notice of
    the key is attempted. *)
Lemma plain_attempt_due key s found kind severity feed counts f (w : LW) :
  f = None \/ f = Some set_sent -> all_due w.2 -> known key w.2 = Some s /\ ps_Key s = key /\ found -> sk_Kind key = kind -> sk_Feed key = feed ->
  validSeverity severity = true -> Counts_valid counts = true ->
  (feed = "" /\ one_of kind [KindStartup; KindFirstSuccess; KindRoutineSuccess; KindStaleSync] = true \/
   kind = KindSuspiciousChange /\ ValidFeedName feed = true) ->
  all_due (let '(now, w) := n_Now w in attempt m (plain_notice kind severity feed counts now) s f w).2.2.
Proof.
  intros Hf Hd (Hk & Hkey & _) Hkind Hfeed Hs Hc Hp. destruct (n_Now w) as [now w1] eqn:E. apply now_step in E as (Hn & _ & Hk1 & Hd1).
  apply attempt_due; [intros ? ? ->; by destruct Hf as [|[= ->]]; left|auto|by rewrite Hk1, Hkey|]. split; [by apply plain_notice_valid|]. rewrite Hkey. cbn.
  split; [by left|by right].
Qed.

Lemma successPolicy_due r : Result_Validate r = None -> behaves (successPolicy m r).
Proof.
  intros Hv w Hd. unfold successPolicy.
  destruct (load first_key w) as [[[s found]|] w1] eqn:El; apply load_step in El as [Hd1 Hl]; auto; [|by apply stateFailure_due].
  destruct (_ && _). { by eapply plain_attempt_due; [auto|done|exact Hl|..|left]. }
  destruct (mg_routineSuccessNotification m); cbn [negb]; [|done].
  destruct (load routine_key w1) as [[[s2 found2]|] w2] eqn:E2; apply load_step in E2 as [Hd2 Hl2]; auto; [|by apply stateFailure_due].
  eapply plain_attempt_due; [auto|done|exact Hl2|done|done|done|by apply result_counts|by left].
Qed.

Lemma also_due f g : behaves f -> behaves g -> behaves (also f g).
Proof.
  intros Hf Hg w Hd. unfold also. specialize (Hf w Hd). destruct (f w) as [es w1]. specialize (Hg w1 Hf).
  by destruct (g w1) as [es' w2].
Qed.

Lemma nothing_due : behaves nothing.
Proof. by intros w H. Qed.

Lemma HandleSync_due r : behaves (HandleSync m r).
Proof.
  unfold HandleSync. destruct (Result_Validate r) eqn:Ev; [apply nothing_due|]. destruct (_ || _); [apply nothing_due|].
  apply also_due; [destruct (safeSynchronization r); [apply clearStale_due|apply nothing_due]|].
  destruct (failed_outcome (rs_Outcome r)) eqn:Ef; [by apply handleFailure_due|].
  destruct (String.eqb _ _); cbn [negb]; [|apply nothing_due]. apply also_due; [apply clearFailure_due|by apply successPolicy_due].
Qed.

Lemma Startup_due : behaves (Startup m).
Proof.
  intros w Hd. unfold Startup. destruct (_ || _); [done|].
  destruct (load startup_key w) as [[[s found]|] w1] eqn:El; apply load_step in El as [Hd1 Hl]; auto; [|by apply stateFailure_due].
  by eapply plain_attempt_due; [auto|done|exact Hl|..|left].
Qed.

Lemma SuspiciousChange_due feed counts : behaves (SuspiciousChange m feed counts).
Proof.
  intros w Hd. unfold SuspiciousChange. destruct (ValidFeedName feed) eqn:Ef; cbn [negb orb]; [|done].
  destruct (Counts_valid counts) eqn:Ec; cbn [negb orb]; [|done]. destruct (_ || _); [done|].
  destruct (load _ w) as [[[s found]|] w1] eqn:El; apply load_step in El as [Hd1 Hl]; auto; [|by apply stateFailure_due].
  by eapply plain_attempt_due; [auto|done|exact Hl|..|right].
Qed.

Lemma StaleSync_due : behaves (StaleSync m).
Proof.
  intros w Hd. unfold StaleSync. destruct (_ || _); [done|].
  destruct (load stale_key w) as [[[s found]|] w1] eqn:El; apply load_step in El as [Hd1 Hl]; auto; [|by apply stateFailure_due].
  destruct (ps_Sent s); [done|]. by eapply plain_attempt_due; [auto|done|exact Hl|..|left].
Qed.
End Due.

(** The calls of the manager. *)
Inductive notify_call : Type :=
| CallHandleSync (r : ops_Result)
| CallStartup
| CallSuspiciousChange (feed : string) (counts : Counts)
| CallStaleSync
| CallClose.

Section Calls.
Context {W : Type} `{!NotifyWorld W}.

(** A call, on the manager and the world. *)
Definition notify_exec (c : notify_call) (mw : Manager * W) : Manager * W :=
  let '(m, w) := mw in
  match c with
  | CallHandleSync r => (m, (HandleSync m r w).2)
  | CallStartup => (m, (Startup m w).2)
  | CallSuspiciousChange feed counts => (m, (SuspiciousChange m feed counts w).2)
  | CallStaleSync => (m, (StaleSync m w).2)
  | CallClose => (Manager_Close m, w)
  end.

Definition notify_calls (cs : list notify_call) (mw : Manager * W) : Manager * W := fold_left (fun mw c => notify_exec c mw) cs mw.
End Calls.

(** What a call does not change of a manager. *)
Definition same_rules (m m' : Manager) : Prop :=
  mg_minimumSeverity m' = mg_minimumSeverity m /\ mg_cooldown m' = mg_cooldown m /\
  mg_failureThreshold m' = mg_failureThreshold m.

Lemma all_due_rules m m' l : same_rules m m' -> all_due m l -> all_due m' l.
Proof.
  intros (E1 & E2 & _) H l1 a l2 E. specialize (H _ _ _ E). destruct a as [| |s r|n r|]; try done.
  destruct H as (s & s0 & [H1 H2 H3 H4 H5 H6 H7]). exists s, s0.
  split; [done|done|done|by rewrite E1|done| |done]. unfold withinCooldown in *. by rewrite E2.
Qed.

Lemma calls_due {W} `{!NotifyWorld W} enabled severity threshold cooldown b1 b2 b3 b4 b5 b6 m cs (w : W) :
  NewManager enabled severity threshold cooldown b1 b2 b3 b4 b5 b6 = Ok m -> (forall w : W, (n_Now w).1 <> 0) ->
  all_due m (notify_calls cs (m, (w, []))).2.2.
Proof.
  intros Hm Hc. unfold NewManager in Hm. destruct (_ || _) eqn:E; [done|]. injection Hm as Em.
  assert (1 <= mg_failureThreshold m) as Ht by (rewrite <- Em; cbn; rewrite !orb_false_iff in E; lia). clear E Em.
  assert (forall (cs : list notify_call) (m' : Manager) (wl : W * list naction), same_rules m m' -> all_due m wl.2 ->
    all_due m (notify_calls cs (m', wl)).2.2) as H; [|by apply H; [|apply all_due_nil]].
  clear cs w. intros cs. induction cs as [|c cs IH]; intros m' wl Hs Hd; [exact Hd|].
  assert (same_rules m' m) as Hs' by (destruct Hs as (? & ? & ?); by split_and!).
  assert (1 <= mg_failureThreshold m') as Ht' by (by rewrite (proj2 (proj2 Hs))).
  apply (all_due_rules m m') in Hd; [|done].
  unfold notify_calls in *. cbn [fold_left]. destruct c; cbn [notify_exec]; (apply IH; [exact Hs|apply (all_due_rules m'); [done|]]).
  - by apply HandleSync_due.
  - by apply Startup_due.
  - by apply SuspiciousChange_due.
  - by apply StaleSync_due.
  - exact Hd.
Qed.

(** C25: in any sequence of calls on a manager, with any answers of its store
    and its transport and a clock that runs, every notice that is sent is due: it
    is valid; its severity is at least the configured one; the attempt was stored,
    with its time, in the step before; and the last state that the manager had
    loaded or stored for the same condition was out of its cooldown at that time.
    So two notices of a condition are a cooldown apart, unless in between the
    store answered, or the manager stored, a state of the condition with another
    last attempt or none.  The manager itself forgets an attempt for two
    conditions only: for failures (when the category or the feed changes, and when
    they end) and for staleness (after a safe synchronisation). *)
Theorem sent_notices_due {W} `{!NotifyWorld W} enabled severity threshold cooldown b1 b2 b3 b4 b5 b6 m cs (w : W) :
  NewManager enabled severity threshold cooldown b1 b2 b3 b4 b5 b6 = Ok m -> (forall w : W, (n_Now w).1 <> 0) ->
  let log := (notify_calls cs (m, (w, []))).2.2 in
  (forall l1 n r l2, log = l1 ++ NSend n r :: l2 -> exists s s0, due m l1 n s s0) /\
  (forall l1 s n r mid s' n' r' l2,
     log = l1 ++ [NSave s (Ok tt); NSend n r] ++ mid ++ [NSave s' (Ok tt); NSend n' r'] ++ l2 ->
     ps_Key s' = ps_Key s -> Forall (stands s) mid ->
     Before (ps_LastAttempt s') (ps_LastAttempt s) = false /\
     mg_cooldown m <= time_Sub (ps_LastAttempt s') (ps_LastAttempt s)) /\
  (forall s r, In (NSave s r) log -> ps_LastAttempt s = 0 -> ps_Key s = failure_key \/ ps_Key s = stale_key).
Proof.
  intros Hm Hc log. pose proof (calls_due _ _ _ _ _ _ _ _ _ _ m cs w Hm Hc) as H. fold log in H. split_and!.
  - intros l1 n r l2 E. exact (H _ _ _ E).
  - intros l1 s n r mid s' n' r' l2 E Hk Hs.
    assert (exists t t0, due m (l1 ++ [NSave s (Ok tt)]) n t t0) as (t & t0 & D1).
    { apply (H _ (NSend n r) (mid ++ [NSave s' (Ok tt); NSend n' r'] ++ l2)). rewrite E. cbn. by rewrite <- app_assoc. }
    assert (exists t t0, due m (l1 ++ [NSave s (Ok tt); NSend n r] ++ mid ++ [NSave s' (Ok tt)]) n' t t0) as (t' & t0' & D2).
    { apply (H _ (NSend n' r') l2). rewrite E. cbn. by rewrite <- !app_assoc; cbn; rewrite <- app_assoc. }
    assert (t = s) as ->. { destruct (du_saved _ _ _ _ _ D1) as (? & [_ E1]%app_inj_tail & _). congruence. }
    rewrite !app_assoc in D2. assert (t' = s') as ->. { destruct (du_saved _ _ _ _ _ D2) as (? & [_ E1]%app_inj_tail & _). congruence. }
    eapply due_apart; [exact D1| |exact Hk|exact Hs]. rewrite <- app_assoc in D2 |- *. cbn in D2 |- *.
    rewrite <- !app_assoc in D2. exact D2.
  - intros s r Hin Hz. apply in_split in Hin as (l1 & l2 & E). destruct (H _ _ _ E) as [?|?]; done.
Qed.
