(* ===== verification/NotifyStreak.v ===== *)
(** * The notices about failures, as a counter

    While its store and its transport work, the manager is a counter: it
    counts the results that fail in the same way, tells once when the count
    reaches the threshold, and tells the recovery of what it told. *)

From S2P Require Export NotifyRun.

(** ** A reliable world *)

#[export] Instance StateKey_countable : Countable StateKey :=
  inj_countable' (fun k => (sk_Kind k, sk_Feed k)) (fun p => MkStateKey p.1 p.2) ltac:(by intros []).

(** The clock, which moves with every reading, what is stored, and what was
    sent. *)
Record Reliable : Type := MkReliable {
  rw_now : Time; rw_states : gmap StateKey PersistentState; rw_sent : list Notice }.

#[export] Instance reliable : NotifyWorld Reliable := {|
  n_Now w := (rw_now w, MkReliable (rw_now w + 1) (rw_states w) (rw_sent w));
  n_Load k := fun w => (Ok (rw_states w !! k), w);
  n_Save s := fun w => (Ok tt, MkReliable (rw_now w) (<[ps_Key s := s]> (rw_states w)) (rw_sent w));
  n_Send n := fun w => (Ok tt, MkReliable (rw_now w) (rw_states w) (rw_sent w ++ [n]));
  n_Observe _ w := w |}.

(** ** The counter *)

Record streak : Type := MkStreak { st_failure : FailureCategory; st_feed : string; st_count : Z; st_told : bool }.

(** What a notice about failures tells. *)
Definition tells : Type := (notice_Kind * FailureCategory * string * Z)%type.
Definition tells_of (n : Notice) : tells := (nt_Kind n, nt_Failure n, nt_Feed n, nt_ConsecutiveFailures n).

Definition about_failures (n : Notice) : bool := one_of (nt_Kind n) [KindRepeatedFailure; KindRecovery].
Definition told_of (w : Reliable) : list tells := tells_of <$> List.filter about_failures (rw_sent w).

Section Spec.
Context (m : Manager).

Definition count_failure (st : option streak) (failure : FailureCategory) (feed : string) : streak :=
  match st with
  | Some s => if String.eqb (st_failure s) failure && String.eqb (st_feed s) feed
              then MkStreak failure feed (Z.min 100 (st_count s + 1)) (st_told s)
              else MkStreak failure feed 1 false
  | None => MkStreak failure feed 1 false
  end.

(** A recovery that would be told. *)
Definition tells_recovery : bool := mg_recoveryNotifications m && allowedSeverity m SeverityInfo.

Definition streak_step (st : option streak) (r : ops_Result) : option streak * list tells :=
  if failed_outcome (rs_Outcome r) then
    let s := count_failure st (rs_Failure r) (failedFeed r) in
    if st_told s || (st_count s <? mg_failureThreshold m) || negb (allowedSeverity m SeverityWarning) then (Some s, [])
    else (Some (MkStreak (st_failure s) (st_feed s) (st_count s) true),
          [(KindRepeatedFailure, st_failure s, st_feed s, st_count s)])
  else if String.eqb (rs_Outcome r) OutcomeSuccess then
    (None, match st with
           | Some s => if st_told s && tells_recovery then [(KindRecovery, st_failure s, st_feed s, 0)] else []
           | None => []
           end)
  else (st, []).

Fixpoint streak_run (st : option streak) (rs : list ops_Result) : list tells :=
  match rs with
  | [] => []
  | r :: rest => let '(st, l) := streak_step st r in l ++ streak_run st rest
  end.

(** The stored state of a streak. *)
Definition represents (st : option streak) (stored : option PersistentState) : Prop :=
  match stored with
  | None => st = None
  | Some s =>
      PersistentState_valid s = true /\ ps_Key s = failure_key /\
      match st with
      | None => (ps_Failure s = "" /\ ps_ConsecutiveFailures s = 0 /\ ps_Notified s = false /\ ps_RecoveryPending s = false) \/
                (ps_RecoveryPending s = true /\ ps_Notified s = false /\ mg_recoveryNotifications m = true /\
                 allowedSeverity m SeverityInfo = false)
      | Some k => ps_Failure s = st_failure k /\ ps_Feed s = st_feed k /\ ps_ConsecutiveFailures s = st_count k /\
                  1 <= st_count k /\ ps_Notified s = st_told k /\ ps_RecoveryPending s = false /\
                  (st_told k = false -> ps_LastAttempt s = 0)
      end
  end.

#[local] Arguments event : simpl never.
#[local] Arguments save : simpl never.
#[local] Arguments stateFailure : simpl never.
#[local] Arguments attempt : simpl never.

(** ** Steps that do not concern failures *)

Definition aside (w w' : Reliable) : Prop :=
  rw_states w' !! failure_key = rw_states w !! failure_key /\ told_of w' = told_of w /\ (0 < rw_now w -> 0 < rw_now w').

#[local] Instance aside_preorder : PreOrder aside.
Proof. split; [by intros w|]. intros a b c (A1 & A2 & A3) (B1 & B2 & B3). split_and!; [congruence..|auto]. Qed.

Lemma now_aside w : aside w (n_Now w).2.
Proof. split_and!; [done|done|cbn; lia]. Qed.

Lemma event_aside n o f w : aside w (event n o f w).2.
Proof. unfold event. destruct (n_Now w) as [t w1] eqn:E. injection E as <- <-. destruct (Event_Validate _); apply now_aside. Qed.

Lemma stateFailure_aside feed w : aside w (stateFailure feed w).2.
Proof.
  unfold stateFailure. destruct (n_Now w) as [t w1] eqn:E. injection E as <- <-.
  etransitivity; [apply now_aside|]. apply event_aside.
Qed.

Lemma save_aside s w : ps_Key s <> failure_key -> aside w (save s w).2.
Proof.
  intros Hk. unfold save. cbn. destruct (negb _); [apply now_aside|]. etransitivity; [apply now_aside|].
  split_and!; [|done|done]. cbn. by rewrite lookup_insert_ne.
Qed.

Lemma save_key s w s' w' : save s w = (Some s', w') -> ps_Key s' = ps_Key s.
Proof. unfold save. cbn. destruct (negb _); [done|]. by intros [= <- _]. Qed.

Lemma load_keeps key w : (load key w).2 = w.
Proof. unfold load. cbn. destruct (rw_states w !! key); [|done]. by destruct (_ && _). Qed.

Lemma attempt_aside n s f w : ps_Key s <> failure_key -> about_failures n = false ->
  (forall g s', f = Some g -> ps_Key s' = ps_Key s -> ps_Key (g s') = ps_Key s) -> aside w (attempt m n s f w).2.
Proof.
  intros Hk Hn Hf. unfold attempt. destruct (negb _); [reflexivity|]. pose proof (now_aside w) as H1.
  destruct (n_Now w) as [now w1]. cbn [snd] in H1. destruct (withinCooldown _ _ _); [exact H1|].
  etransitivity; [exact H1|]. destruct (save _ w1) as [o w2] eqn:E.
  assert (aside w1 w2) as H2 by (change w2 with (o, w2).2; rewrite <- E; by apply save_aside).
  etransitivity; [exact H2|]. destruct o as [s2|]; [|apply stateFailure_aside]. apply save_key in E. cbn in E.
  assert (aside w2 (n_Send n w2).2) as H3.
  { split_and!; [done| |done]. unfold told_of. cbn [n_Send reliable snd rw_sent]. rewrite List.filter_app.
    change (List.filter about_failures [n]) with (if about_failures n then [n] else []). by rewrite Hn, app_nil_r. }
  etransitivity; [exact H3|]. destruct (n_Send n w2) as [r w3] eqn:E3. injection E3 as <- <-. cbn [snd].
  destruct f as [g|]; [|apply event_aside].
  set (w3 := MkReliable _ _ _). destruct (save (g s2) w3) as [o3 w4] eqn:E4.
  assert (aside w3 w4) as H4 by (change w4 with (o3, w4).2; rewrite <- E4; apply save_aside; by rewrite (Hf g s2)).
  etransitivity; [exact H4|]. destruct o3; [apply event_aside|apply stateFailure_aside].
Qed.

Lemma clearStale_aside w : aside w (clearStale w).2.
Proof.
  unfold clearStale. pose proof (load_keeps stale_key w) as Hw. destruct (load stale_key w) as [[[s found]|] w1]; cbn [snd] in Hw;
    subst w1; [|apply stateFailure_aside].
  destruct (_ || _); [reflexivity|]. pose proof (save_aside (new_state stale_key) w) as H.
  destruct (save (new_state stale_key) w) as [[s1|] w1]; [by apply H|]. etransitivity; [by apply H|apply stateFailure_aside].
Qed.

Lemma load_key key w s found w' : load key w = (Some (s, found), w') -> ps_Key s = key /\ w' = w.
Proof.
  unfold load. cbn. destruct (rw_states w !! key) as [s0|]; [|by intros [= <- _ <-]].
  destruct (_ && _) eqn:E; [|done]. intros [= <- _ <-]. by apply andb_true_iff in E as [E%bool_decide_eq_true _].
Qed.

Lemma plain_aside key s found kind severity feed counts f w w1 : load key w = (Some (s, found), w1) -> key <> failure_key ->
  one_of kind [KindRepeatedFailure; KindRecovery] = false -> (f = None \/ f = Some set_sent) ->
  aside w (let '(now, w) := n_Now w1 in attempt m (plain_notice kind severity feed counts now) s f w).2.
Proof.
  intros Hl Hk Hn Hf. apply load_key in Hl as [Hs ->]. pose proof (now_aside w) as H1. destruct (n_Now w) as [now w2].
  cbn [snd] in H1. etransitivity; [exact H1|]. apply attempt_aside; [by rewrite Hs|exact Hn|].
  intros g s' -> Hs'. by destruct Hf as [?|[= ->]].
Qed.

Lemma successPolicy_aside r w : aside w (successPolicy m r w).2.
Proof.
  unfold successPolicy. destruct (load first_key w) as [[[s found]|] w1] eqn:El.
  - destruct (_ && _); [eapply plain_aside; [exact El|done|done|by right]|].
    destruct (negb (mg_routineSuccessNotification m)); [by apply load_key in El as [_ ->]|].
    apply load_key in El as [_ ->]. destruct (load routine_key w) as [[[s2 found2]|] w2] eqn:E2.
    + eapply plain_aside; [exact E2|done|done|by left].
    + pose proof (load_keeps routine_key w) as Hw. rewrite E2 in Hw. cbn [snd] in Hw. subst w2. apply stateFailure_aside.
  - pose proof (load_keeps first_key w) as Hw. rewrite El in Hw. cbn [snd] in Hw. subst w1. apply stateFailure_aside.
Qed.

(** ** Steps that do *)

(** A state the manager may store for the failure key. *)
Definition sound (s : PersistentState) : Prop :=
  ps_Key s = failure_key /\ 0 <= ps_ConsecutiveFailures s <= 100 /\ (ps_Feed s = "" \/ ValidFeedName (ps_Feed s) = true) /\
  ValidFailureCategory (ps_Failure s) = true.

Lemma sound_valid s t : sound s -> t <> 0 -> PersistentState_valid (set_updated t s) = true.
Proof.
  intros (Hk & Hc & Hf & Hv) Ht. unfold PersistentState_valid, set_updated.
  cbn [ps_Key ps_ConsecutiveFailures ps_Feed ps_Failure ps_Notified ps_RecoveryPending ps_LastAttempt ps_UpdatedAt].
  rewrite Hk, (feed_clause _ Hf), Hv. change (StateKey_valid failure_key) with true.
  rewrite (proj2 (Z.ltb_ge _ _)), (proj2 (Z.ltb_ge 100 _)) by lia.
  change (String.eqb (sk_Kind failure_key) KindRepeatedFailure) with true. cbn [negb orb andb]. rewrite !andb_false_r.
  unfold time_IsZero. by rewrite (proj2 (Z.eqb_neq _ _) Ht), andb_false_r.
Qed.

Lemma valid_sound s : PersistentState_valid s = true -> ps_Key s = failure_key -> ValidFailureCategory (ps_Failure s) = true -> sound s.
Proof. intros H Hk Hf. apply valid_parts in H as (Hc & Hfeed & _). split; [done|]. split; [done|]. by split. Qed.

Lemma save_sound s w : sound s -> 0 < rw_now w ->
  save s w = (Some (set_updated (rw_now w) s),
              MkReliable (rw_now w + 1) (<[failure_key := set_updated (rw_now w) s]> (rw_states w)) (rw_sent w)).
Proof.
  intros Hs Hn. unfold save. cbn [n_Now reliable]. rewrite sound_valid by (done || lia). cbn [negb n_Save reliable].
  destruct Hs as [Hk _]. change (ps_Key (set_updated (rw_now w) s)) with (ps_Key s). by rewrite Hk.
Qed.

Lemma save_reset w : 0 < rw_now w ->
  save (new_state failure_key) w = (Some (set_updated (rw_now w) (new_state failure_key)),
    MkReliable (rw_now w + 1) (<[failure_key := set_updated (rw_now w) (new_state failure_key)]> (rw_states w)) (rw_sent w)).
Proof.
  intros Hn. unfold save. cbn [n_Now reliable].
  assert (PersistentState_valid (set_updated (rw_now w) (new_state failure_key)) = true) as -> by (vm_compute; done).
  done.
Qed.

Definition savable (s : PersistentState) : Prop := forall w, 0 < rw_now w ->
  save s w = (Some (set_updated (rw_now w) s),
              MkReliable (rw_now w + 1) (<[failure_key := set_updated (rw_now w) s]> (rw_states w)) (rw_sent w)).

(** What a delivered attempt leaves. *)
Record delivers (n : Notice) (s : PersistentState) (w w' : Reliable) : Prop := {
  dv_state : exists t, rw_states w' !! failure_key = Some (set_updated t s) /\ t <> 0;
  dv_told : told_of w' = told_of w ++ [tells_of n];
  dv_now : 0 < rw_now w' }.

Lemma attempt_delivers n s g w : allowedSeverity m (nt_Severity n) = true -> ps_LastAttempt s = 0 -> sound s -> 0 < rw_now w ->
  about_failures n = true ->
  let s1 := set_updated (rw_now w + 1) (set_attempt (rw_now w) s) in
  savable (g s1) -> delivers n (g s1) w (attempt m n s (Some g) w).2.
Proof.
  intros Ha Hl Hs Hn Hk s1 Hg. unfold attempt. rewrite Ha. cbn [negb n_Now reliable]. unfold withinCooldown. rewrite Hl.
  change (time_IsZero 0) with true. cbv iota. set (w1 := MkReliable _ _ _).
  assert (sound (set_attempt (rw_now w) s)) as Hs' by exact Hs.
  rewrite (save_sound _ w1 Hs') by (cbn; lia). change (rw_now w1) with (rw_now w + 1). fold s1.
  cbn [n_Send reliable rw_now rw_states rw_sent]. set (w2 := MkReliable _ _ _).
  rewrite (Hg w2) by (cbn; lia). set (w3 := MkReliable (rw_now w2 + 1) _ _).
  destruct (event_aside n OutcomeSuccess "" w3) as (E1 & E2 & E3). split.
  - exists (rw_now w2). rewrite E1. cbn [w3 rw_states]. rewrite lookup_insert_eq. split; [done|]. cbn. lia.
  - rewrite E2. unfold told_of. cbn [w3 w2 w1 rw_sent]. rewrite List.filter_app, fmap_app.
    change (List.filter about_failures [n]) with (if about_failures n then [n] else []). by rewrite Hk.
  - apply E3. cbn. lia.
Qed.

Lemma next_failure_streak st stored s r : represents st stored -> Result_Validate r = None ->
  failed_outcome (rs_Outcome r) = true -> s = default (new_state failure_key) stored ->
  let k := count_failure st (rs_Failure r) (failedFeed r) in let s' := next_failure s (rs_Failure r) (failedFeed r) in
  sound s' /\ ps_Failure s' = st_failure k /\ ps_Feed s' = st_feed k /\ ps_ConsecutiveFailures s' = st_count k /\
  1 <= st_count k /\ ps_Notified s' = st_told k /\ ps_RecoveryPending s' = false /\ (st_told k = false -> ps_LastAttempt s' = 0).
Proof.
  intros Hr Hv Hf ->. destruct (failure_result r Hv Hf) as [Hc Hfeed]. cbv zeta.
  assert (forall s0, next_failure s0 (rs_Failure r) (failedFeed r) = MkPersistentState failure_key (rs_Failure r) (failedFeed r) 1
            false false false 0 0 -> count_failure st (rs_Failure r) (failedFeed r) = MkStreak (rs_Failure r) (failedFeed r) 1 false ->
          let k := count_failure st (rs_Failure r) (failedFeed r) in let s' := next_failure s0 (rs_Failure r) (failedFeed r) in
          sound s' /\ ps_Failure s' = st_failure k /\ ps_Feed s' = st_feed k /\ ps_ConsecutiveFailures s' = st_count k /\
          1 <= st_count k /\ ps_Notified s' = st_told k /\ ps_RecoveryPending s' = false /\
          (st_told k = false -> ps_LastAttempt s' = 0)) as Hfresh.
  { intros s0 E1 E2. cbv zeta. rewrite E1, E2. cbn. split_and!; try done. }
  assert (ps_Failure (new_state failure_key) <> rs_Failure r) as Hne by (intros E; rewrite <- E in Hc; by vm_compute in Hc).
  destruct stored as [s|]; cbn [default from_option]; unfold id.
  2:{ apply Hfresh; [|by rewrite Hr]. unfold next_failure. by rewrite (proj2 (String.eqb_neq _ _) Hne). }
  destruct Hr as (Hvs & Hkey & Hr). destruct st as [k|].
  2:{ apply Hfresh; [|done]. unfold next_failure. destruct Hr as [(E & _)|(E & _)].
      - rewrite E. cbn in Hne. by rewrite (proj2 (String.eqb_neq "" _)) by congruence.
      - by rewrite E, orb_true_r. }
  destruct Hr as (E1 & E2 & E3 & Hk & E4 & E5 & E6).
  destruct (String.eqb_spec (st_failure k) (rs_Failure r)) as [F1|F1];
    [|apply Hfresh; [unfold next_failure; by rewrite E1, (proj2 (String.eqb_neq _ _) F1)|
       unfold count_failure; by rewrite (proj2 (String.eqb_neq _ _) F1)]].
  destruct (String.eqb_spec (st_feed k) (failedFeed r)) as [F2|F2];
    [|apply Hfresh; [unfold next_failure; by rewrite E2, (proj2 (String.eqb_neq _ _) F2), orb_true_r|
       unfold count_failure; by rewrite (proj2 (String.eqb_neq _ _) F2), andb_false_r]].
  unfold next_failure, count_failure. rewrite E1, E2, E5, F1, F2, !String.eqb_refl. cbn [negb orb andb].
  pose proof (proj1 (valid_parts _ Hvs)) as Hcount.
  assert (sound s) as Hs by (apply valid_sound; [done|done|by rewrite E1, F1]).
  destruct (Z.ltb_spec (ps_ConsecutiveFailures s) 100); cbn [st_failure st_feed st_count st_told].
  - assert (sound (with_streak (ps_ConsecutiveFailures s + 1) s)) as Hs'.
    { destruct Hs as (S1 & S2 & S3 & S4). split; [done|]. split; [cbn; lia|done]. }
    split; [exact Hs'|]. cbn. split_and!; try done; try congruence; lia.
  - split; [exact Hs|]. split_and!; try done; try congruence; lia.
Qed.

Lemma load_represents st w : represents st (rw_states w !! failure_key) ->
  load failure_key w = (Some (default (new_state failure_key) (rw_states w !! failure_key),
                              match rw_states w !! failure_key with Some _ => true | None => false end), w).
Proof.
  intros H. unfold load. cbn [n_Load reliable]. destruct (rw_states w !! failure_key) as [s|]; [|done].
  destruct H as (Hv & Hk & _). by rewrite Hk, bool_decide_true, Hv.
Qed.

(** One result takes the manager from one streak to the next and tells what
    the counter tells. *)
Definition follows (out : option streak * list tells) (w w' : Reliable) : Prop :=
  represents out.1 (rw_states w' !! failure_key) /\ told_of w' = told_of w ++ out.2 /\ 0 < rw_now w'.

Lemma follows_aside out w0 w1 w2 : follows out w0 w1 -> aside w1 w2 -> follows out w0 w2.
Proof. intros (H1 & H2 & H3) (A1 & A2 & A3). split_and!; [by rewrite A1|congruence|auto]. Qed.

Lemma aside_follows out w0 w1 w2 : aside w0 w1 -> follows out w1 w2 -> follows out w0 w2.
Proof. intros (A1 & A2 & A3) (H1 & H2 & H3). split_and!; [done|by rewrite H2, A2|done]. Qed.

(** The state of a streak after it was saved at some time. *)
Lemma represents_streak k s t : sound s -> t <> 0 -> ps_Failure s = st_failure k -> ps_Feed s = st_feed k ->
  ps_ConsecutiveFailures s = st_count k -> 1 <= st_count k -> ps_Notified s = st_told k -> ps_RecoveryPending s = false ->
  (st_told k = false -> ps_LastAttempt s = 0) -> represents (Some k) (Some (set_updated t s)).
Proof. intros Hs Ht **. split; [by apply sound_valid|]. split; [apply Hs|]. by split_and!. Qed.

Lemma handleFailure_follows st r w : represents st (rw_states w !! failure_key) -> Result_Validate r = None ->
  failed_outcome (rs_Outcome r) = true -> 0 < rw_now w -> follows (streak_step st r) w (handleFailure m r w).2.
Proof.
  intros Hr Hv Hf Hn. unfold streak_step. rewrite Hf.
  destruct (next_failure_streak st _ _ r Hr Hv Hf eq_refl) as (Hs & F1 & F2 & F3 & F4 & F5 & F6 & F7).
  unfold handleFailure. rewrite (load_represents st w Hr). set (k := count_failure _ _ _) in *.
  set (s := next_failure _ _ _) in *. rewrite (save_sound s w Hs Hn). set (w1 := MkReliable _ _ _).
  change (ps_Notified (set_updated (rw_now w) s)) with (ps_Notified s).
  change (ps_ConsecutiveFailures (set_updated (rw_now w) s)) with (ps_ConsecutiveFailures s). rewrite F5, F3.
  assert (represents (Some k) (rw_states w1 !! failure_key)) as Hr1.
  { cbn. rewrite lookup_insert_eq. apply represents_streak; try done. lia. }
  assert (follows (Some k, []) w w1) as Hw1 by (split_and!; [done|by rewrite app_nil_r|cbn; lia]).
  destruct (st_told k || _) eqn:Et; cbn [orb]; [exact Hw1|]. apply orb_false_iff in Et as [Et _].
  pose proof (now_aside w1) as A. destruct (n_Now w1) as [now w2]. cbn [snd] in A.
  assert (follows (Some k, []) w w2) as Hw2 by (eapply follows_aside; [exact Hw1|exact A]).
  destruct (allowedSeverity m SeverityWarning) eqn:Ea; cbn [negb].
  2:{ unfold attempt. change (nt_Severity _) with SeverityWarning. by rewrite Ea. }
  set (s2 := set_updated (rw_now w) s). set (n := MkNotice _ _ _ _ _ _ _).
  assert (sound s2) as Hs2 by exact Hs.
  destruct (attempt_delivers n s2 set_notified w2) as [(t & D1 & D2) D3 D4]; [exact Ea|by apply F7|done|apply Hw2|done| |].
  { intros w3 Hn3. by apply save_sound. }
  assert (tells_of n = (KindRepeatedFailure, st_failure k, st_feed k, st_count k)) as Hn1.
  { unfold n, tells_of. cbn. try change (ps_ConsecutiveFailures s2) with (ps_ConsecutiveFailures s). rewrite ?F3. unfold k, count_failure. destruct st as [k0|]; [|done]. by destruct (_ && _). }
  split_and!; cbn [fst snd]; [|rewrite D3, (proj1 (proj2 Hw2)), Hn1; cbn; by rewrite app_nil_r|done].
  rewrite D1. apply represents_streak; try done.
Qed.

(** The recovery that is pending is told, or it is not wanted. *)
Lemma notify_recovery_follows s w : sound s -> ps_RecoveryPending s = true -> ps_Notified s = false -> ps_LastAttempt s = 0 ->
  mg_recoveryNotifications m = true -> PersistentState_valid s = true -> rw_states w !! failure_key = Some s -> 0 < rw_now w ->
  follows (None, if allowedSeverity m SeverityInfo then [(KindRecovery, ps_Failure s, ps_Feed s, 0)] else []) w
    (notify_recovery m s w).2.
Proof.
  intros Hs Hp Hno Hl Hm Hv Hst Hn. unfold notify_recovery. pose proof (now_aside w) as A.
  destruct (n_Now w) as [now w1]. cbn [snd] in A. eapply aside_follows; [exact A|]. destruct A as (A1 & _ & A3).
  destruct (allowedSeverity m SeverityInfo) eqn:Ea.
  - set (n := MkNotice _ _ _ _ _ _ _).
    destruct (attempt_delivers n s (fun _ => new_state failure_key) w1) as [(t & D1 & D2) D3 D4];
      [exact Ea|exact Hl|exact Hs|auto|done|intros w3 H3; by apply save_reset|].
    split_and!; [|exact D3|exact D4]. cbn [fst]. rewrite D1. split; [|split; [done|by left]].
    unfold PersistentState_valid. cbn. done.
  - unfold attempt. change (nt_Severity _) with SeverityInfo. rewrite Ea. cbn [negb snd].
    split_and!; [|by rewrite app_nil_r|auto]. cbn [fst]. rewrite A1, Hst. split; [done|]. split; [apply Hs|by right].
Qed.

Lemma notify_unwanted s w : allowedSeverity m SeverityInfo = false -> aside w (notify_recovery m s w).2.
Proof.
  intros Ha. unfold notify_recovery. pose proof (now_aside w) as A. destruct (n_Now w) as [now w1].
  unfold attempt. change (nt_Severity _) with SeverityInfo. by rewrite Ha.
Qed.

Lemma clearFailure_follows st r w : represents st (rw_states w !! failure_key) -> 0 < rw_now w ->
  failed_outcome (rs_Outcome r) = false -> rs_Outcome r = OutcomeSuccess -> follows (streak_step st r) w (clearFailure m w).2.
Proof.
  intros Hr Hn Hf Ho. unfold streak_step. rewrite Hf, Ho, String.eqb_refl. unfold clearFailure. rewrite (load_represents st w Hr).
  destruct (rw_states w !! failure_key) as [s|] eqn:Est; cbn [default from_option negb orb]; unfold id.
  2:{ rewrite Hr. cbn [snd]. split_and!; [by rewrite Est|by rewrite app_nil_r|done]. }
  destruct Hr as (Hv & Hk & Hr). destruct st as [k|].
  - destruct Hr as (F1 & F2 & F3 & F4 & F5 & F6 & F7). rewrite F3, F5, F6, (proj2 (Z.eqb_neq _ _)) by lia.
    cbn [andb]. rewrite andb_true_r. unfold tells_recovery. destruct (mg_recoveryNotifications m && st_told k) eqn:E.
    + apply andb_true_iff in E as [E1 E2]. rewrite E1, E2. cbn [negb orb andb].
      assert (sound (pend_recovery s)) as Hs.
      { pose proof Hv as Hv'. apply valid_parts in Hv' as (_ & Hfeed & Hcat). destruct Hcat as [_ Hcat]; [right; congruence|].
        split; [exact Hk|]. split; [cbn; lia|]. by split. }
      rewrite (save_sound _ w Hs Hn). set (s1 := set_updated _ _). set (w1 := MkReliable _ _ _).
      assert (follows (None, if allowedSeverity m SeverityInfo then [(KindRecovery, ps_Failure s1, ps_Feed s1, 0)] else []) w1
                (notify_recovery m s1 w1).2) as H.
      { apply notify_recovery_follows; try done; [apply sound_valid; [done|lia]|cbn; by rewrite lookup_insert_eq|cbn; lia]. }
      change (ps_Failure s1) with (ps_Failure s) in H. change (ps_Feed s1) with (ps_Feed s) in H. rewrite F1, F2 in H. exact H.
    + assert (negb (mg_recoveryNotifications m) || negb (st_told k) = true) as -> by (by rewrite <- negb_andb, E).
      assert (st_told k && (mg_recoveryNotifications m && allowedSeverity m SeverityInfo) = false) as ->
        by (destruct (mg_recoveryNotifications m), (st_told k); done).
      rewrite (save_reset w Hn). split_and!; [|by rewrite app_nil_r|cbn; lia]. cbn. rewrite lookup_insert_eq.
      split; [vm_compute; done|]. split; [done|by left].
  - destruct Hr as [(F1 & F2 & F3 & F4)|(F1 & F2 & F3 & F4)].
    + rewrite F2, F3, F4. cbn [Z.eqb negb andb snd]. split_and!; [|by rewrite app_nil_r|done]. cbn [fst]. rewrite Est. split; [done|]. split; [done|by left].
    + rewrite F1, F2, F3. cbn [negb orb andb]. rewrite andb_false_r.
      eapply follows_aside; [|by apply notify_unwanted]. split_and!; [|by rewrite app_nil_r|done]. cbn. rewrite Est.
      split; [done|]. split; [done|by right].
Qed.

Lemma HandleSync_follows st r w : mg_enabled m = true -> mg_closed m = false -> represents st (rw_states w !! failure_key) ->
  Result_Validate r = None -> 0 < rw_now w -> follows (streak_step st r) w (HandleSync m r w).2.
Proof.
  intros He Hc Hr Hv Hn. unfold HandleSync. rewrite Hv, He, Hc. cbn [negb orb]. unfold also.
  set (f := if safeSynchronization r then _ else _). assert (aside w (f w).2) as A.
  { unfold f. destruct (safeSynchronization r); [apply clearStale_aside|reflexivity]. }
  destruct (f w) as [es w1]. cbn [snd] in A. pose proof A as (A1 & _ & A3). specialize (A3 Hn). rewrite <- A1 in Hr.
  destruct (failed_outcome (rs_Outcome r)) eqn:Ef.
  - pose proof (handleFailure_follows st r w1 Hr Hv Ef A3) as H. destruct (handleFailure m r w1). by eapply aside_follows.
  - destruct (String.eqb_spec (rs_Outcome r) OutcomeSuccess) as [Eo|Eo]; cbn [negb].
    + pose proof (clearFailure_follows st r w1 Hr A3 Ef Eo) as H. destruct (clearFailure m w1) as [es2 w2]. cbn [snd] in H.
      pose proof (successPolicy_aside r w2) as A4. destruct (successPolicy m r w2) as [es3 w3].
      eapply aside_follows; [exact A|]. eapply follows_aside; [exact H|exact A4].
    + unfold streak_step. rewrite Ef, (proj2 (String.eqb_neq _ _) Eo). unfold nothing. cbn [snd].
      eapply aside_follows; [exact A|]. split_and!; [exact Hr|by rewrite app_nil_r|done].
Qed.

(** A failure of the local API, which the documents promise to tell at once. *)
Definition of_lapi (r : ops_Result) : bool := one_of (rs_Failure r) [FailureLAPI; FailureLAPIAuth].

(** C26: while its store and its transport work, an open manager whose minimum
    severity is info is the counter of [streak_run] for the failures other than
    those of the local API, whatever else it sends: it counts the results that
    fail in the same way, with the same feed, up to 100; it tells them once, when
    their count reaches the threshold; and the success that ends a told streak
    tells its recovery, once, if recoveries are on.  (A failure of the local API
    is counted in the same way, where the documents promise an immediate notice,
    and with a higher minimum severity the promised recovery is not told: both
    are findings, and neither is claimed here.) *)
Theorem failures_told_once (w : Reliable) rs :
  mg_enabled m = true -> mg_closed m = false -> mg_minimumSeverity m = SeverityInfo ->
  rw_states w !! failure_key = None -> 0 < rw_now w ->
  Forall (fun r => Result_Validate r = None /\ of_lapi r = false) rs ->
  told_of (fold_left (fun w r => (HandleSync m r w).2) rs w) = told_of w ++ streak_run None rs.
Proof.
  intros He Hc _ Hw Hn Hrs. assert (represents None (rw_states w !! failure_key)) as Hr by (by rewrite Hw).
  clear Hw. revert w Hn Hr. generalize (@None streak) as st. induction Hrs as [|r rs [Hv _] _ IH]; intros st w Hn Hr; cbn [fold_left streak_run].
  { by rewrite app_nil_r. }
  destruct (HandleSync_follows st r w He Hc Hr Hv Hn) as (H1 & H2 & H3). destruct (streak_step st r) as [st' l].
  rewrite (IH st' _ H3 H1), H2. by rewrite app_assoc.
Qed.
End Spec.
