(* ===== verification/NotifyExamples.v ===== *)
(** * Notifications, evaluated

    The manager over the repository of the states, and over the reliable
    world; they are the witnesses of the theorems on the manager. *)

From S2P Require Export NotifyStore NotifyStreak.

Definition ex_at : Time := Unix 1700000000.

(** The manager over the database, with a clock that stands still and a
    transport that keeps what it was given. *)
#[export] Instance stored_notify : NotifyWorld (SW * list Notice) := {|
  n_Now w := (ex_at, w);
  n_Load k := fun w => let '(r, s) := NotificationStateStore_Load k w.1 in (r, (s, w.2));
  n_Save st := fun w => let '(r, s) := NotificationStateStore_Save st w.1 in (r, (s, w.2));
  n_Send n := fun w => (Ok tt, (w.1, w.2 ++ [n]));
  n_Observe _ w := w |}.

Definition ex_failure (c : FailureCategory) : ops_Result := MkOpsResult OutcomeFailed c true ex_at ex_at no_counts [].
Definition ex_success : ops_Result := MkOpsResult OutcomeSuccess "" false ex_at ex_at no_counts [].

(** The default settings, and a minimum severity that lets everything pass. *)
Definition ex_manager (minimum : Severity) : Manager := MkManager true false minimum 3 Hour true true true false false false.

Definition ex_results : list ops_Result :=
  [ex_failure FailureOwnership; ex_failure FailureDatabase; ex_failure FailureDatabase; ex_failure FailureDatabase;
   ex_failure FailureDatabase; ex_success; ex_success; ex_failure FailureOwnership].

Definition ex_reliable : Reliable := MkReliable ex_at ∅ [].
Definition ex_after (minimum : Severity) : Reliable :=
  fold_left (fun w r => (HandleSync (ex_manager minimum) r w).2) ex_results ex_reliable.

Example ex_told : told_of (ex_after SeverityInfo) =
  [(KindRepeatedFailure, FailureDatabase, "", 3); (KindRecovery, FailureDatabase, "", 0)].
Proof. vm_compute. reflexivity. Qed.

Lemma ex_results_valid : Forall (fun r => Result_Validate r = None /\ of_lapi r = false) ex_results.
Proof. repeat (constructor; [split; vm_compute; reflexivity|]). constructor. Qed.

Lemma failures_told_once_witness :
  told_of (fold_left (fun w r => (HandleSync (ex_manager SeverityInfo) r w).2) ex_results ex_reliable) =
  told_of ex_reliable ++ streak_run (ex_manager SeverityInfo) None ex_results.
Proof.
  apply (failures_told_once (ex_manager SeverityInfo) ex_reliable ex_results);
    [reflexivity|reflexivity|reflexivity|reflexivity|reflexivity|exact ex_results_valid].
Defined.

(** With the default minimum severity a recovery is never told, although
    recovery notifications are on: the manager gives its notice a severity
    below the default minimum. *)
Theorem default_recovery_untold :
  mg_recoveryNotifications (ex_manager SeverityWarning) = true /\
  told_of (ex_after SeverityWarning) = [(KindRepeatedFailure, FailureDatabase, "", 3)].
Proof. split; vm_compute; reflexivity. Qed.

Definition ex_calls : list notify_call :=
  map CallHandleSync ex_results ++ [CallStaleSync; CallSuspiciousChange "ranges" no_counts; CallStaleSync].

Definition ex_log : list naction := (notify_calls ex_calls (ex_manager SeverityInfo, ((MkSW empty_db [], []), []))).2.2.

Lemma sent_notices_due_witness :
  (forall l1 n r l2, ex_log = l1 ++ NSend n r :: l2 -> exists s s0, due (ex_manager SeverityInfo) l1 n s s0) /\
  (forall s r, In (NSave s r) ex_log -> ps_LastAttempt s = 0 -> ps_Key s = failure_key \/ ps_Key s = stale_key).
Proof.
  assert (forall w : SW * list Notice, (n_Now w).1 <> 0) as Hc by (intros w; cbn; by vm_compute).
  destruct (sent_notices_due (W := SW * list Notice) true SeverityInfo 3 Hour true true true false false false
    (ex_manager SeverityInfo) ex_calls (MkSW empty_db [], []) eq_refl Hc) as (H1 & _ & H3).
  split; [exact H1|exact H3].
Defined.

Example ex_stored : map nt_Kind (notify_calls ex_calls (ex_manager SeverityInfo, ((MkSW empty_db [], []), []))).2.1.2 =
  [KindRepeatedFailure; KindRecovery; KindStaleSync; KindSuspiciousChange].
Proof. vm_compute. reflexivity. Qed.

(** ** The repository *)

Definition ex_state : PersistentState :=
  MkPersistentState failure_key FailureLAPI "ranges" 2 false false false 0 (ex_at + 250).

Lemma delivery_round_trip_witness :
  forall faults, exists w2, NotificationStateStore_Load failure_key
     (MkSW (sw_db (NotificationStateStore_Save ex_state (MkSW empty_db [])).2) (None :: faults)) =
   (Ok (Some (in_seconds ex_state)), w2).
Proof.
  destruct (delivery_round_trip ex_state (MkSW empty_db []) (NotificationStateStore_Save ex_state (MkSW empty_db [])).2) as [H _];
    [vm_compute; reflexivity|exact H].
Defined.
