(* ===== verification/Readiness.v ===== *)
(** * Readiness ([internal/health/readiness.go])

    What the service tells about itself, from what its parts reported: the
    tracker keeps the last report of each part, and a snapshot is ready exactly
    when the history of the reports says so. *)

From S2P Require Export Ops.

Definition health_ErrInvalidOptions : error := Foreign "invalid health options".
Definition ErrInvalidObservation : error := Foreign "invalid health observation".

Inductive health_Status : Type := StatusReady | StatusNotReady.

Inductive Reason : Type :=
| ReasonReady | ReasonConfigurationPending | ReasonConfigurationInvalid | ReasonCredentialsPending
| ReasonCredentialsUnavailable | ReasonDatabasePending | ReasonDatabaseUnavailable | ReasonLAPIPending
| ReasonLAPIUnavailable | ReasonSyncPending | ReasonSyncStale | ReasonRuntimeFatal | ReasonStopping.

Inductive Component : Type :=
| ComponentPending | ComponentValid | ComponentInvalid | ComponentLoaded | ComponentAvailable | ComponentUnavailable
| ComponentGrace | ComponentCurrent | ComponentStale | ComponentRunning | ComponentFatal | ComponentStopping.
#[export] Instance Component_eq_dec : EqDecision Component.
Proof. solve_decision. Defined.

Record health_Response : Type := MkHealthResponse {
  hr_Status : health_Status; hr_Reason : Reason; hr_Configuration : Component; hr_Credentials : Component;
  hr_Database : Component; hr_LAPI : Component; hr_Synchronization : Component; hr_Runtime : Component }.

Record Tracker : Type := MkTracker {
  tk_maxSyncAge : Duration; tk_lapiOutageGrace : Duration; tk_configuration : Component; tk_credentials : Component;
  tk_database : Component; tk_lapi : Component; tk_runtime : Component; tk_lapiEverReady : bool; tk_lapiOutageAt : Time;
  tk_lastSuccess : Time }.

Definition Tracker_New (maxSyncAge lapiOutageGrace : Duration) : result error Tracker :=
  if (maxSyncAge <=? 0) || (30 * 24 * Hour <? maxSyncAge) || (lapiOutageGrace <=? 0) || (maxSyncAge <? lapiOutageGrace)
  then Err health_ErrInvalidOptions
  else Ok (MkTracker maxSyncAge lapiOutageGrace ComponentPending ComponentPending ComponentPending ComponentPending
             ComponentRunning false 0 0).

(** ** Reports *)

Definition MarkConfiguration (valid : bool) (t : Tracker) : Tracker :=
  MkTracker (tk_maxSyncAge t) (tk_lapiOutageGrace t) (if valid then ComponentValid else ComponentInvalid) (tk_credentials t)
    (tk_database t) (tk_lapi t) (tk_runtime t) (tk_lapiEverReady t) (tk_lapiOutageAt t) (tk_lastSuccess t).
Definition MarkCredentials (loaded : bool) (t : Tracker) : Tracker :=
  MkTracker (tk_maxSyncAge t) (tk_lapiOutageGrace t) (tk_configuration t) (if loaded then ComponentLoaded else ComponentUnavailable)
    (tk_database t) (tk_lapi t) (tk_runtime t) (tk_lapiEverReady t) (tk_lapiOutageAt t) (tk_lastSuccess t).
Definition MarkDatabase (available : bool) (t : Tracker) : Tracker :=
  MkTracker (tk_maxSyncAge t) (tk_lapiOutageGrace t) (tk_configuration t) (tk_credentials t)
    (if available then ComponentAvailable else ComponentUnavailable) (tk_lapi t) (tk_runtime t) (tk_lapiEverReady t)
    (tk_lapiOutageAt t) (tk_lastSuccess t).

(** [now] is the time of the clock. *)
Definition MarkLAPI (available : bool) (now : Time) (t : Tracker) : Tracker :=
  if available
  then MkTracker (tk_maxSyncAge t) (tk_lapiOutageGrace t) (tk_configuration t) (tk_credentials t) (tk_database t)
         ComponentAvailable (tk_runtime t) true 0 (tk_lastSuccess t)
  else MkTracker (tk_maxSyncAge t) (tk_lapiOutageGrace t) (tk_configuration t) (tk_credentials t) (tk_database t)
         ComponentUnavailable (tk_runtime t) (tk_lapiEverReady t)
         (if negb (bool_decide (tk_lapi t = ComponentUnavailable)) then now else tk_lapiOutageAt t) (tk_lastSuccess t).

Definition set_runtime_state (c : Component) (t : Tracker) : Tracker :=
  MkTracker (tk_maxSyncAge t) (tk_lapiOutageGrace t) (tk_configuration t) (tk_credentials t) (tk_database t) (tk_lapi t) c
    (tk_lapiEverReady t) (tk_lapiOutageAt t) (tk_lastSuccess t).
Definition MarkRuntimeFatal (t : Tracker) : Tracker := set_runtime_state ComponentFatal t.
Definition MarkStopping (t : Tracker) : Tracker :=
  if negb (bool_decide (tk_runtime t = ComponentFatal)) then set_runtime_state ComponentStopping t else t.

(** [if at.After(t.lastSuccess) { t.lastSuccess = at }] *)
Definition later_success (at_ : Time) (t : Tracker) : Tracker :=
  if After at_ (tk_lastSuccess t)
  then MkTracker (tk_maxSyncAge t) (tk_lapiOutageGrace t) (tk_configuration t) (tk_credentials t) (tk_database t) (tk_lapi t)
         (tk_runtime t) (tk_lapiEverReady t) (tk_lapiOutageAt t) at_
  else t.

(** Synchronised, or degraded only by its feeds. *)
Definition safe_outcome (outcome : Outcome) (failure : FailureCategory) : bool :=
  String.eqb outcome OutcomeSuccess ||
  (String.eqb outcome OutcomeDegraded && one_of failure [FailureFeedDownload; FailureFeedValidation]).

Definition health_safeSynchronization (r : ops_Result) : bool := safe_outcome (rs_Outcome r) (rs_Failure r).

Definition RecordSync (r : ops_Result) (t : Tracker) : option error * Tracker :=
  match Result_Validate r with
  | Some _ => (Some ErrInvalidObservation, t)
  | None => if negb (health_safeSynchronization r) then (None, t) else (None, later_success (rs_CompletedAt r) t)
  end.

Definition recordSafeSuccess (at_ : Time) (t : Tracker) : Tracker := if time_IsZero at_ then t else later_success at_ t.

Definition ApplyEvent (e : Event) (now : Time) (t : Tracker) : option error * Tracker :=
  match Event_Validate e with
  | Some _ => (Some ErrInvalidObservation, t)
  | None =>
      (None,
       if String.eqb (ev_Code e) CodeLAPIStateChanged then
         if one_of (ev_Outcome e) [OutcomeAvailable; OutcomeRecovered] then MarkLAPI true now t
         else if String.eqb (ev_Outcome e) OutcomeUnavailable then MarkLAPI false now t else t
       else if String.eqb (ev_Code e) CodeDatabaseStateChange then
         if one_of (ev_Outcome e) [OutcomeAvailable; OutcomeRecovered] then MarkDatabase true t
         else if one_of (ev_Outcome e) [OutcomeUnavailable; OutcomeFailed] then MarkDatabase false t else t
       else if String.eqb (ev_Code e) CodeRuntimeFatal then MarkRuntimeFatal t
       else if one_of (ev_Code e) [CodeServiceStopping; CodeServiceStopped] then MarkStopping t
       else if String.eqb (ev_Code e) CodeSyncCompleted then
         if safe_outcome (ev_Outcome e) (ev_Failure e) then recordSafeSuccess (ev_At e) t else t
       else t)
  end.

(** ** Snapshots *)

Definition baseResponse (t : Tracker) (reason : Reason) : health_Response :=
  MkHealthResponse StatusNotReady reason (tk_configuration t) (tk_credentials t) (tk_database t) (tk_lapi t) ComponentPending
    (tk_runtime t).

Definition with_sync (status : health_Status) (reason : Reason) (lapi sync : Component) (t : Tracker) : health_Response :=
  MkHealthResponse status reason (tk_configuration t) (tk_credentials t) (tk_database t) lapi sync (tk_runtime t).

Definition within_grace (t : Tracker) (now : Time) : bool :=
  tk_lapiEverReady t && negb (time_IsZero (tk_lapiOutageAt t)) && (time_Sub now (tk_lapiOutageAt t) <=? tk_lapiOutageGrace t).

(** The age of the last safe synchronisation, after everything else passed. *)
Definition sync_response (lapi : Component) (now : Time) (t : Tracker) : health_Response :=
  if time_IsZero (tk_lastSuccess t) then with_sync StatusNotReady ReasonSyncPending lapi ComponentPending t
  else if tk_maxSyncAge t <? time_Sub now (tk_lastSuccess t)
  then with_sync StatusNotReady ReasonSyncStale lapi ComponentStale t
  else with_sync StatusReady ReasonReady lapi ComponentCurrent t.

Definition Snapshot_at (now : Time) (t : Tracker) : health_Response :=
  match tk_runtime t with
  | ComponentFatal => baseResponse t ReasonRuntimeFatal
  | ComponentStopping => baseResponse t ReasonStopping
  | _ =>
  match tk_configuration t with
  | ComponentPending => baseResponse t ReasonConfigurationPending
  | ComponentInvalid => baseResponse t ReasonConfigurationInvalid
  | _ =>
  match tk_credentials t with
  | ComponentPending => baseResponse t ReasonCredentialsPending
  | ComponentUnavailable => baseResponse t ReasonCredentialsUnavailable
  | _ =>
  match tk_database t with
  | ComponentPending => baseResponse t ReasonDatabasePending
  | ComponentUnavailable => baseResponse t ReasonDatabaseUnavailable
  | _ =>
  match tk_lapi t with
  | ComponentPending => baseResponse t ReasonLAPIPending
  | ComponentUnavailable =>
      if within_grace t now then sync_response ComponentGrace now t else baseResponse t ReasonLAPIUnavailable
  | lapi => sync_response lapi now t
  end end end end end.

(** The code of [/readyz]. *)
Definition readyz_status (r : health_Response) : Z := match hr_Status r with StatusReady => 200 | StatusNotReady => 503 end.

(** ** The history *)

(** The reports, with the time of the clock where they read it. *)
Inductive report : Type :=
| RConfiguration (valid : bool)
| RCredentials (loaded : bool)
| RDatabase (available : bool)
| RLAPI (available : bool) (now : Time)
| RRuntimeFatal
| RStopping
| RSync (r : ops_Result)
| REvent (e : Event) (now : Time).

Definition take_report (t : Tracker) (r : report) : Tracker :=
  match r with
  | RConfiguration valid => MarkConfiguration valid t
  | RCredentials loaded => MarkCredentials loaded t
  | RDatabase available => MarkDatabase available t
  | RLAPI available now => MarkLAPI available now t
  | RRuntimeFatal => MarkRuntimeFatal t
  | RStopping => MarkStopping t
  | RSync r => (RecordSync r t).2
  | REvent e now => (ApplyEvent e now t).2
  end.

Definition valid_event (e : Event) (code : Code) : bool :=
  match Event_Validate e with None => String.eqb (ev_Code e) code | Some _ => false end.

(** What a report says of each part. *)
Definition says_configuration (r : report) : option bool := match r with RConfiguration b => Some b | _ => None end.
Definition says_credentials (r : report) : option bool := match r with RCredentials b => Some b | _ => None end.
Definition says_database (r : report) : option bool :=
  match r with
  | RDatabase b => Some b
  | REvent e _ =>
      if negb (valid_event e CodeDatabaseStateChange) then None
      else if one_of (ev_Outcome e) [OutcomeAvailable; OutcomeRecovered] then Some true
      else if one_of (ev_Outcome e) [OutcomeUnavailable; OutcomeFailed] then Some false else None
  | _ => None
  end.
Definition says_lapi (r : report) : option (bool * Time) :=
  match r with
  | RLAPI b now => Some (b, now)
  | REvent e now =>
      if negb (valid_event e CodeLAPIStateChanged) then None
      else if one_of (ev_Outcome e) [OutcomeAvailable; OutcomeRecovered] then Some (true, now)
      else if String.eqb (ev_Outcome e) OutcomeUnavailable then Some (false, now) else None
  | _ => None
  end.
Definition says_end (r : report) : bool :=
  match r with
  | RRuntimeFatal | RStopping => true
  | REvent e _ => existsb (valid_event e) [CodeRuntimeFatal; CodeServiceStopping; CodeServiceStopped]
  | _ => false
  end.
Definition says_safe (r : report) : option Time :=
  match r with
  | RSync r => match Result_Validate r with
               | None => if health_safeSynchronization r then Some (rs_CompletedAt r) else None
               | Some _ => None
               end
  | REvent e _ => if valid_event e CodeSyncCompleted && safe_outcome (ev_Outcome e) (ev_Failure e) then Some (ev_At e) else None
  | _ => None
  end.

(** The local API is available, or its outage began after it had been
    available, no longer ago than the grace period. *)
Definition lapi_fit (grace : Duration) (now : Time) (l : list (bool * Time)) : Prop :=
  (exists l1 t0, l = l1 ++ [(true, t0)]) \/
  (exists l1 t0 t1 l2, l = l1 ++ (true, t0) :: (false, t1) :: l2 /\ Forall (fun bt => bt.1 = false) l2 /\
     t1 <> 0 /\ time_Sub now t1 <= grace).

(** The latest safe synchronisation is not too old. *)
Definition sync_fit (age : Duration) (now : Time) (l : list Time) : Prop :=
  exists t, t ∈ l /\ 0 < t /\ Forall (fun u => u <= t) l /\ time_Sub now t <= age.

(** ** What the tracker keeps of the history *)

Definition marked {A} (good bad : A) (b : bool) : A := if b then good else bad.

(** The three fields about the local API after one more report of it. *)
Definition lapi_next (s : Component * bool * Time) (r : bool * Time) : Component * bool * Time :=
  match r with
  | (true, _) => (ComponentAvailable, true, 0)
  | (false, now) =>
      (ComponentUnavailable, s.1.2, if negb (bool_decide (s.1.1 = ComponentUnavailable)) then now else s.2)
  end.

Definition lapi_fields (t : Tracker) : Component * bool * Time := (tk_lapi t, tk_lapiEverReady t, tk_lapiOutageAt t).

Record taken (t t' : Tracker) (r : report) : Prop := MkTaken {
  taken_age : tk_maxSyncAge t' = tk_maxSyncAge t;
  taken_grace : tk_lapiOutageGrace t' = tk_lapiOutageGrace t;
  taken_configuration : tk_configuration t' =
    from_option (marked ComponentValid ComponentInvalid) (tk_configuration t) (says_configuration r);
  taken_credentials : tk_credentials t' =
    from_option (marked ComponentLoaded ComponentUnavailable) (tk_credentials t) (says_credentials r);
  taken_database : tk_database t' =
    from_option (marked ComponentAvailable ComponentUnavailable) (tk_database t) (says_database r);
  taken_lapi : lapi_fields t' = from_option (lapi_next (lapi_fields t)) (lapi_fields t) (says_lapi r);
  taken_runtime : if says_end r then tk_runtime t' = ComponentFatal \/ tk_runtime t' = ComponentStopping
                  else tk_runtime t' = tk_runtime t;
  taken_success : tk_lastSuccess t' = from_option (fun a => Z.max (tk_lastSuccess t) a) (tk_lastSuccess t) (says_safe r) }.

Lemma later_success_max at_ t : tk_lastSuccess (later_success at_ t) = Z.max (tk_lastSuccess t) at_.
Proof. unfold later_success, After. destruct (_ <? _) eqn:E; cbn; lia. Qed.

Lemma later_success_rest at_ t :
  tk_maxSyncAge (later_success at_ t) = tk_maxSyncAge t /\ tk_lapiOutageGrace (later_success at_ t) = tk_lapiOutageGrace t /\
  tk_configuration (later_success at_ t) = tk_configuration t /\ tk_credentials (later_success at_ t) = tk_credentials t /\
  tk_database (later_success at_ t) = tk_database t /\ lapi_fields (later_success at_ t) = lapi_fields t /\
  tk_runtime (later_success at_ t) = tk_runtime t.
Proof. unfold later_success. destruct (After _ _); auto 10. Qed.

Lemma taken_nothing t r :
  says_configuration r = None -> says_credentials r = None -> says_database r = None -> says_lapi r = None ->
  says_end r = false -> says_safe r = None -> taken t t r.
Proof. intros E1 E2 E3 E4 E5 E6. split; rewrite ?E1, ?E2, ?E3, ?E4, ?E5, ?E6; reflexivity. Qed.

(** A safe synchronisation, reported either way. *)
Lemma taken_later t r at_ :
  says_configuration r = None -> says_credentials r = None -> says_database r = None -> says_lapi r = None ->
  says_end r = false -> says_safe r = Some at_ -> taken t (later_success at_ t) r.
Proof.
  intros E1 E2 E3 E4 E5 E6. destruct (later_success_rest at_ t) as (? & ? & ? & ? & ? & ? & ?).
  split; rewrite ?E1, ?E2, ?E3, ?E4, ?E5, ?E6; cbn; auto using later_success_max.
Qed.

Lemma taken_runtime_only t c r :
  says_configuration r = None -> says_credentials r = None -> says_database r = None -> says_lapi r = None ->
  says_end r = true -> says_safe r = None -> c = ComponentFatal \/ c = ComponentStopping -> taken t (set_runtime_state c t) r.
Proof. intros E1 E2 E3 E4 E5 E6 Hc. split; rewrite ?E1, ?E2, ?E3, ?E4, ?E5, ?E6; cbn; auto. Qed.

Lemma taken_stopping t r :
  says_configuration r = None -> says_credentials r = None -> says_database r = None -> says_lapi r = None ->
  says_end r = true -> says_safe r = None -> taken t (MarkStopping t) r.
Proof.
  intros E1 E2 E3 E4 E5 E6. unfold MarkStopping. case_bool_decide as Hf; cbn [negb].
  - split; rewrite ?E1, ?E2, ?E3, ?E4, ?E5, ?E6; auto.
  - by apply taken_runtime_only; auto.
Qed.

Lemma taken_lapi_only t b now r :
  says_configuration r = None -> says_credentials r = None -> says_database r = None -> says_lapi r = Some (b, now) ->
  says_end r = false -> says_safe r = None -> taken t (MarkLAPI b now t) r.
Proof.
  intros E1 E2 E3 E4 E5 E6. split; rewrite ?E1, ?E2, ?E3, ?E4, ?E5, ?E6; destruct b; reflexivity.
Qed.

Lemma taken_database_only t b r :
  says_configuration r = None -> says_credentials r = None -> says_database r = Some b -> says_lapi r = None ->
  says_end r = false -> says_safe r = None -> taken t (MarkDatabase b t) r.
Proof.
  intros E1 E2 E3 E4 E5 E6. split; rewrite ?E1, ?E2, ?E3, ?E4, ?E5, ?E6; destruct b; reflexivity.
Qed.

#[local] Arguments one_of : simpl never.

Ltac says_event Ev E := cbn; unfold valid_event; rewrite ?Ev, ?E; cbn; try reflexivity.

(** An event says what its code is about, and nothing if it is not valid. *)
Lemma taken_event t e now : taken t (take_report t (REvent e now)) (REvent e now).
Proof.
  cbn [take_report]. unfold ApplyEvent. destruct (Event_Validate e) as [err |] eqn:Ev; cbn [snd].
  { apply taken_nothing; cbn; unfold valid_event; rewrite ?Ev; reflexivity. }
  destruct (String.eqb_spec (ev_Code e) CodeLAPIStateChanged) as [E | N1].
  { destruct (one_of _ [OutcomeAvailable; OutcomeRecovered]) eqn:Eo; [| destruct (String.eqb _ OutcomeUnavailable) eqn:Eu].
    - apply taken_lapi_only; says_event Ev E. by rewrite Eo.
    - apply taken_lapi_only; says_event Ev E. by rewrite Eo, Eu.
    - apply taken_nothing; says_event Ev E. by rewrite Eo, Eu. }
  destruct (String.eqb_spec (ev_Code e) CodeDatabaseStateChange) as [E | N2].
  { destruct (one_of _ [OutcomeAvailable; OutcomeRecovered]) eqn:Eo; [| destruct (one_of _ [OutcomeUnavailable; OutcomeFailed]) eqn:Eu].
    - apply taken_database_only; says_event Ev E. by rewrite Eo.
    - apply taken_database_only; says_event Ev E. by rewrite Eo, Eu.
    - apply taken_nothing; says_event Ev E. by rewrite Eo, Eu. }
  destruct (String.eqb_spec (ev_Code e) CodeRuntimeFatal) as [E | N3].
  { apply taken_runtime_only; auto; says_event Ev E. }
  destruct (one_of (ev_Code e) [CodeServiceStopping; CodeServiceStopped]) eqn:Es.
  { assert (ev_Code e = CodeServiceStopping \/ ev_Code e = CodeServiceStopped) as [E | E].
    { unfold one_of in Es. cbn [existsb] in Es. rewrite orb_false_r in Es. apply orb_true_iff in Es.
      by rewrite !String.eqb_eq in Es. }
    all: apply taken_stopping; says_event Ev E. }
  apply String.eqb_neq in N1, N2, N3.
  unfold one_of in Es. cbn [existsb] in Es. rewrite orb_false_r in Es. apply orb_false_iff in Es as [N4 N5].
  destruct (String.eqb (ev_Code e) CodeSyncCompleted && safe_outcome (ev_Outcome e) (ev_Failure e)) eqn:Ec.
  - apply andb_true_iff in Ec as [Ec Eo]. rewrite Ec, Eo. unfold recordSafeSuccess.
    destruct (time_IsZero (ev_At e)) eqn:Ez.
    + exfalso. unfold Event_Validate in Ev. destruct (codeOperation _); [| done]. by rewrite Ez, orb_true_r in Ev.
    + apply taken_later; cbn; unfold valid_event; rewrite ?Ev, ?N1, ?N2, ?N3, ?N4, ?N5, ?Ec, ?Eo; reflexivity.
  - replace (if String.eqb (ev_Code e) CodeSyncCompleted then _ else t) with t.
    2: { unfold recordSafeSuccess. destruct (String.eqb (ev_Code e) CodeSyncCompleted), (safe_outcome _ _); try discriminate Ec; reflexivity. }
    apply taken_nothing; cbn; unfold valid_event; rewrite ?Ev, ?N1, ?N2, ?N3, ?N4, ?N5, ?Ec; reflexivity.
Qed.

Lemma take_report_taken t r : taken t (take_report t r) r.
Proof.
  destruct r as [b | b | b | b now | | | r | e now].
  - split; reflexivity.
  - split; reflexivity.
  - by apply taken_database_only.
  - by apply taken_lapi_only.
  - by apply taken_runtime_only; auto.
  - by apply taken_stopping.
  - cbn [take_report]. unfold RecordSync. destruct (Result_Validate r) eqn:Ev; cbn [snd].
    { apply taken_nothing; cbn; rewrite ?Ev; reflexivity. }
    destruct (health_safeSynchronization r) eqn:Es; cbn [negb snd].
    + apply taken_later; cbn; rewrite ?Ev, ?Es; reflexivity.
    + apply taken_nothing; cbn; rewrite ?Ev, ?Es; reflexivity.
  - apply taken_event.
Qed.

(** *** The parts after a history *)

Lemma omap_app_last {A B} (f : A -> option B) l x :
  list.last (omap f (l ++ [x])) = match f x with Some y => Some y | None => list.last (omap f l) end.
Proof. rewrite omap_app. cbn. destruct (f x); [by rewrite last_snoc | by rewrite app_nil_r]. Qed.

(** The fields about the local API, from the reports of it. *)
Definition lapi_state (s : Component * bool * Time) (l : list (bool * Time)) : Prop :=
  (l = [] /\ s = (ComponentPending, false, 0)) \/
  (exists l1 t0, l = l1 ++ [(true, t0)] /\ s = (ComponentAvailable, true, 0)) \/
  (exists l1 t0 t1 l2, l = l1 ++ (true, t0) :: (false, t1) :: l2 /\ Forall (fun bt => bt.1 = false) l2 /\
     s = (ComponentUnavailable, true, t1)) \/
  (Forall (fun bt => bt.1 = false) l /\ s.1 = (ComponentUnavailable, false)).

Lemma lapi_next_state s l x : lapi_state s l -> lapi_state (lapi_next s x) (l ++ [x]).
Proof.
  destruct x as [[] now]; [intros _; right; left; by exists l, now |].
  intros [[-> ->] | [(l1 & t0 & -> & ->) | [(l1 & t0 & t1 & l2 & -> & Hl2 & ->) | [Hl Hs]]]].
  - right; right; right. split; [by constructor | done].
  - right; right; left. exists l1, t0, now, []. rewrite <- app_assoc. split; [done | split; [constructor | done]].
  - right; right; left. exists l1, t0, t1, (l2 ++ [(false, now)]). rewrite <- app_assoc. split; [done | split; [| done]].
    apply Forall_app. split; [done | by constructor].
  - right; right; right. split; [apply Forall_app; split; [done | by constructor] |].
    destruct s as [[c b] at_]. cbn in Hs. by simplify_eq.
Qed.

Record history (age grace : Duration) (rs : list report) (t : Tracker) : Prop := MkHistory {
  h_age : tk_maxSyncAge t = age;
  h_grace : tk_lapiOutageGrace t = grace;
  h_configuration : tk_configuration t =
    from_option (marked ComponentValid ComponentInvalid) ComponentPending (list.last (omap says_configuration rs));
  h_credentials : tk_credentials t =
    from_option (marked ComponentLoaded ComponentUnavailable) ComponentPending (list.last (omap says_credentials rs));
  h_database : tk_database t =
    from_option (marked ComponentAvailable ComponentUnavailable) ComponentPending (list.last (omap says_database rs));
  h_lapi : lapi_state (lapi_fields t) (omap says_lapi rs);
  h_runtime : if existsb says_end rs then tk_runtime t = ComponentFatal \/ tk_runtime t = ComponentStopping
              else tk_runtime t = ComponentRunning;
  h_success : tk_lastSuccess t = foldr Z.max 0 (omap says_safe rs) }.

Lemma max_snoc l x : foldr Z.max 0 (l ++ [x]) = Z.max (foldr Z.max 0 l) x.
Proof. induction l as [| y l IH]; cbn; lia. Qed.

Lemma history_step age grace rs t r t' : history age grace rs t -> taken t t' r -> history age grace (rs ++ [r]) t'.
Proof.
  intros [H1 H2 H3 H4 H5 H6 H7 H8] [T1 T2 T3 T4 T5 T6 T7 T8].
  split; rewrite ?omap_app_last, ?T1, ?T2, ?T3, ?T4, ?T5, ?T6, ?T8, ?H1, ?H2, ?H3, ?H4, ?H5, ?H8, ?existsb_app, ?omap_app;
    try reflexivity;
    try solve [destruct (says_configuration r); reflexivity | destruct (says_credentials r); reflexivity
              | destruct (says_database r); reflexivity].
  - cbn. destruct (says_lapi r); cbn; [by apply lapi_next_state | by rewrite app_nil_r].
  - cbn [existsb]. rewrite orb_false_r. destruct (says_end r); [by rewrite orb_true_r |]. rewrite orb_false_r, T7. done.
  - cbn. destruct (says_safe r); cbn; [by rewrite max_snoc | by rewrite app_nil_r].
Qed.

(** What the tracker holds is what the reports said. *)
Lemma take_reports_history age grace t0 rs :
  Tracker_New age grace = Ok t0 -> history age grace rs (fold_left take_report rs t0).
Proof.
  intros Hnew. unfold Tracker_New in Hnew. destruct (_ || _); [done |]. apply (f_equal (fun x => match x with Ok t => t | Err _ => t0 end)) in Hnew.
  cbn in Hnew. subst t0.
  induction rs as [| r rs IH] using rev_ind; [split; try reflexivity; by left |].
  rewrite fold_left_app. cbn [fold_left]. eapply history_step; [exact IH | apply take_report_taken].
Qed.

(** ** Ready exactly when the reports say so *)

Lemma max_list_spec l : 0 < foldr Z.max 0 l <-> exists t, t ∈ l /\ 0 < t /\ Forall (fun u => u <= t) l.
Proof.
  assert (Hub : Forall (fun u => u <= foldr Z.max 0 l) l).
  { induction l as [| x l IH]; cbn; constructor; [lia |]. eapply List.Forall_impl; [| exact IH]. cbn. lia. }
  assert (Hin : 0 < foldr Z.max 0 l -> foldr Z.max 0 l ∈ l).
  { clear Hub. induction l as [| x l IH]; cbn; [lia |]. intros Hpos.
    destruct (Z.max_spec x (foldr Z.max 0 l)) as [[Hlt ->] | [Hle ->]]; [right; apply IH; lia | left]. }
  split.
  - intros Hpos. exists (foldr Z.max 0 l). auto.
  - intros (t & Hin' & Hpos & _). rewrite List.Forall_forall in Hub. specialize (Hub t). rewrite <- list_elem_of_In in Hub.
    specialize (Hub Hin'). lia.
Qed.

Lemma max_list_unique l t : t ∈ l -> 0 < t -> Forall (fun u => u <= t) l -> foldr Z.max 0 l = t.
Proof.
  intros Hin Hpos Hub. apply Z.le_antisymm.
  - clear Hin. induction Hub; cbn; lia.
  - clear Hub. induction Hin; cbn; lia.
Qed.

Lemma sync_fit_last age now l :
  sync_fit age now l <-> time_IsZero (foldr Z.max 0 l) = false /\ (age <? time_Sub now (foldr Z.max 0 l)) = false.
Proof.
  unfold time_IsZero. assert (Hnn : 0 <= foldr Z.max 0 l) by (induction l; cbn; lia). split.
  - intros (t & Hin & Hpos & Hub & Hage). rewrite (max_list_unique l t) by done. lia.
  - intros [Hz Hage]. destruct (proj1 (max_list_spec l)) as (t & Hin & Hpos & Hub); [lia |].
    exists t. rewrite (max_list_unique l t) in Hage by done. repeat split; [done | done | done | lia].
Qed.

(** The decision of a snapshot about the local API. *)
Definition lapi_passes (t : Tracker) (now : Time) : bool :=
  match tk_lapi t with
  | ComponentPending => false
  | ComponentUnavailable => within_grace t now
  | _ => true
  end.

Lemma snoc_inj {A} (l1 l2 : list A) x y : l1 ++ [x] = l2 ++ [y] -> l1 = l2 /\ x = y.
Proof. intros H. by apply app_inj_tail in H. Qed.

(** Read backwards, a history of the local API splits in only one way at the
    last report that it was available. *)
Lemma last_available_unique (l1 l1' l2 l2' : list (bool * Time)) a a' :
  Forall (fun bt => bt.1 = false) l2 -> Forall (fun bt => bt.1 = false) l2' ->
  l1 ++ (true, a) :: l2 = l1' ++ (true, a') :: l2' -> l2 = l2'.
Proof.
  intros H2. revert l2'. induction l2 as [| x l2 IH] using rev_ind; intros l2' H2' He.
  - destruct l2' as [| y l2' _] using rev_ind; [done |]. exfalso.
    rewrite (app_comm_cons l2' [y] (true, a')), app_assoc in He. apply snoc_inj in He as [_ <-].
    apply Forall_app in H2' as [_ Hy]. by inversion Hy.
  - destruct l2' as [| y l2' _] using rev_ind.
    + exfalso. rewrite (app_comm_cons l2 [x] (true, a)), app_assoc in He. apply snoc_inj in He as [_ ->].
      apply Forall_app in H2 as [_ Hy]. by inversion Hy.
    + rewrite (app_comm_cons l2 [x] (true, a)), (app_comm_cons l2' [y] (true, a')), !app_assoc in He.
      apply snoc_inj in He as [He ->]. apply Forall_app in H2 as [H2 _], H2' as [H2' _]. by rewrite (IH H2 l2' H2' He).
Qed.

Lemma lapi_fit_passes t now l : lapi_state (lapi_fields t) l -> lapi_fit (tk_lapiOutageGrace t) now l <-> lapi_passes t now = true.
Proof.
  unfold lapi_fields, lapi_passes, within_grace, time_IsZero.
  intros [[-> E] | [(l1 & t0 & -> & E) | [(l1 & t0 & t1 & l2 & -> & Hl2 & E) | [Hl E]]]]; cbn in E; injection E as E1 E2.
  - rewrite E1. split; [| done]. intros [(k1 & u0 & Hk) | (k1 & u0 & u1 & k2 & Hk & _)]; by destruct k1.
  - rewrite E1. split; [done |]. intros _. left. by exists l1, t0.
  - rewrite E1, E2. assert (E3 : tk_lapiOutageAt t = t1) by congruence. rewrite E3. cbn [andb].
    assert (Hf : Forall (fun bt : bool * Time => bt.1 = false) ((false, t1) :: l2)) by (by constructor). split.
    + intros [(k1 & u0 & Hk) | (k1 & u0 & u1 & k2 & Hk & Hk2 & Hz & Hg)].
      * exfalso. assert (Hn : ((false, t1) :: l2) = []); [| done].
        eapply last_available_unique; [exact Hf | constructor | exact Hk].
      * assert (Hs : ((false, t1) :: l2) = (false, u1) :: k2).
        { eapply last_available_unique; [exact Hf | by constructor | exact Hk]. }
        simplify_eq. lia.
    + intros Hg. right. exists l1, t0, t1, l2. repeat split; [done | lia | lia].
  - rewrite E1, E2. cbn. split; [| done].
    assert (Hno : forall k1 u k2, l = k1 ++ (true, u) :: k2 -> False).
    { intros k1 u k2 ->. apply Forall_app in Hl as [_ Hl]. by inversion Hl. }
    intros [(k1 & u0 & Hk) | (k1 & u0 & u1 & k2 & Hk & _)]; destruct (Hno _ _ _ Hk).
Qed.

Lemma sync_response_ready lapi now t :
  hr_Status (sync_response lapi now t) = StatusReady <->
  time_IsZero (tk_lastSuccess t) = false /\ (tk_maxSyncAge t <? time_Sub now (tk_lastSuccess t)) = false.
Proof. unfold sync_response. destruct (time_IsZero _); [naive_solver |]. destruct (_ <? _); naive_solver. Qed.

(** C28: The service reports itself ready exactly when it was not ended, the
    last reports of its configuration, credentials and database were good, its
    local API is available or in the grace of an outage that began after it had
    been available, and its latest safe synchronisation is not too old. *)
Theorem ready_exactly_when age grace t0 rs now (Hnew : Tracker_New age grace = Ok t0) :
  hr_Status (Snapshot_at now (fold_left take_report rs t0)) = StatusReady <->
  existsb says_end rs = false /\
  list.last (omap says_configuration rs) = Some true /\
  list.last (omap says_credentials rs) = Some true /\
  list.last (omap says_database rs) = Some true /\
  lapi_fit grace now (omap says_lapi rs) /\ sync_fit age now (omap says_safe rs).
Proof.
  destruct (take_reports_history age grace t0 rs Hnew) as [H1 H2 H3 H4 H5 H6 H7 H8].
  set (t := fold_left take_report rs t0) in *. clearbody t.
  rewrite sync_fit_last, <- H8, <- H2, (lapi_fit_passes t now _ H6), <- H1. unfold Snapshot_at.
  destruct (existsb says_end rs); [destruct H7 as [-> | ->]; naive_solver | rewrite H7].
  rewrite H3. destruct (list.last (omap says_configuration rs)) as [[] |]; cbn; [| naive_solver | naive_solver].
  rewrite H4. destruct (list.last (omap says_credentials rs)) as [[] |]; cbn; [| naive_solver | naive_solver].
  rewrite H5. destruct (list.last (omap says_database rs)) as [[] |]; cbn; [| naive_solver | naive_solver].
  unfold lapi_passes. destruct (tk_lapi t); rewrite ?sync_response_ready; try destruct (within_grace t now);
    rewrite ?sync_response_ready; naive_solver.
Qed.

(** *** A service in the grace of an outage *)

Definition ex_ready_at : Time := 63000000000 * Second.
Definition ex_synced : ops_Result :=
  MkOpsResult OutcomeDegraded FailureFeedDownload true ex_ready_at (ex_ready_at + Second) no_counts [].
Definition ex_reports : list report :=
  [RConfiguration true; RCredentials false; RDatabase true; RCredentials true; RLAPI true ex_ready_at; RSync ex_synced;
   RLAPI false (ex_ready_at + 2 * Second); RLAPI false (ex_ready_at + 60 * Second)].
Definition ex_tracker : Tracker :=
  MkTracker Hour Minute ComponentPending ComponentPending ComponentPending ComponentPending ComponentRunning false 0 0.

Example ready_exactly_when_witness :
  hr_Status (Snapshot_at (ex_ready_at + 62 * Second) (fold_left take_report ex_reports ex_tracker)) = StatusReady /\
  lapi_fit Minute (ex_ready_at + 62 * Second) (omap says_lapi ex_reports) /\
  sync_fit Hour (ex_ready_at + 62 * Second) (omap says_safe ex_reports).
Proof.
  split; [vm_compute; reflexivity |].
  exact (proj2 (proj2 (proj2 (proj2 (proj1
    (ready_exactly_when Hour Minute ex_tracker ex_reports (ex_ready_at + 62 * Second) eq_refl) eq_refl))))).
Defined.

(** One second later the outage has lasted too long. *)
Example grace_over :
  Snapshot_at (ex_ready_at + 63 * Second) (fold_left take_report ex_reports ex_tracker) =
  MkHealthResponse StatusNotReady ReasonLAPIUnavailable ComponentValid ComponentLoaded ComponentAvailable
    ComponentUnavailable ComponentPending ComponentRunning.
Proof. vm_compute. reflexivity. Qed.
