(* ===== verification/HttpDate.v ===== *)
(** * Dates of HTTP

    [http.ParseTime] and [Time.Format(http.TimeFormat)] of the Go standard
    library, as [internal/feed/fetcher.go] uses them: the three layouts a server
    may send, the one the program writes, and the proof that what it writes
    reads back. *)

From S2P Require Export GoTime.

(** ** The fields of an instant *)

(** The year and the day of it, from the days since January 1 of year 1. *)
Definition civil_year (days : Z) : Z * Z :=
  let n400 := days / 146097 in
  let d := days mod 146097 in
  let n100 := Z.min 3 (d / 36524) in
  let d := d - 36524 * n100 in
  let n4 := d / 1461 in
  let d := d mod 1461 in
  let n1 := Z.min 3 (d / 365) in
  (400 * n400 + 100 * n100 + 4 * n4 + n1 + 1, d - 365 * n1).

(** The month that holds a day of the year, and the day in it, from 0. *)
Fixpoint civil_month (fuel : nat) (month year day : Z) : Z * Z :=
  match fuel with
  | O => (month, day)
  | S n => if day <? daysIn month year then (month, day) else civil_month n (month + 1) year (day - daysIn month year)
  end.

Record Civil : Type := MkCivil {
  cv_year : Z; cv_month : Z; cv_day : Z; cv_hour : Z; cv_min : Z; cv_sec : Z; cv_weekday : Z }.

Definition civil (t : Time) : Civil :=
  let secs := t / Second in
  let days := secs / 86400 in
  let s := secs mod 86400 in
  let '(year, yday) := civil_year days in
  let '(month, mday) := civil_month 11 1 year yday in
  MkCivil year month (mday + 1) (s / 3600) (s / 60 mod 60) (s mod 60) ((days + 1) mod 7).

(** ** [Format] with the layout [http.TimeFormat] *)

Definition shortMonthNames : list string :=
  ["Jan"; "Feb"; "Mar"; "Apr"; "May"; "Jun"; "Jul"; "Aug"; "Sep"; "Oct"; "Nov"; "Dec"].
Definition shortDayNames : list string := ["Sun"; "Mon"; "Tue"; "Wed"; "Thu"; "Fri"; "Sat"].
Definition longDayNames : list string :=
  ["Sunday"; "Monday"; "Tuesday"; "Wednesday"; "Thursday"; "Friday"; "Saturday"].

Definition name_at (tab : list string) (i : Z) : string := default "" (tab !! Z.to_nat i).

Definition digit_char (z : Z) : ascii := chr (48 + z).
Definition two_digits (z : Z) : string := String (digit_char (z / 10)) (String (digit_char (z mod 10)) "").
Definition four_digit_year (z : Z) : string := two_digits (z / 100) +:+ two_digits (z mod 100).

(** For years of at most four digits. *)
Definition Format_TimeFormat (t : Time) : string :=
  let c := civil t in
  name_at shortDayNames (cv_weekday c) +:+ ", " +:+ two_digits (cv_day c) +:+ " " +:+
  name_at shortMonthNames (cv_month c - 1) +:+ " " +:+ four_digit_year (cv_year c) +:+ " " +:+ two_digits (cv_hour c) +:+ ":" +:+
  two_digits (cv_min c) +:+ ":" +:+ two_digits (cv_sec c) +:+ " GMT".

(** ** [time.Parse] for the three layouts *)

(** [match]: equality up to the case of ASCII letters. *)
Definition fold_char (c : ascii) : ascii := if in_range 65 90 (byte_of c) then chr (byte_of c + 32) else c.

Fixpoint cut_fold (p s : string) : option string :=
  match p, s with
  | EmptyString, _ => Some s
  | String a p', String b s' => if Ascii.eqb (fold_char a) (fold_char b) then cut_fold p' s' else None
  | String _ _, EmptyString => None
  end.

(** [lookup]: the first name of the table the text begins with. *)
Fixpoint lookup_name (i : Z) (tab : list string) (s : string) : option (Z * string) :=
  match tab with
  | [] => None
  | v :: rest => match cut_fold v s with Some s' => Some (i, s') | None => lookup_name (i + 1) rest s end
  end.

(** [cutspace] *)
Fixpoint cut_spaces (s : string) : string :=
  match s with String c s' => if Ascii.eqb c " " then cut_spaces s' else s | EmptyString => s end.

(** [skip] of one space of the layout: any number of them, but the text may not
    go on with something else. *)
Definition skip_space (s : string) : option string :=
  match s with
  | EmptyString => Some s
  | String c _ => if Ascii.eqb c " " then Some (cut_spaces s) else None
  end.

(** The [06] field. *)
Definition get_short_year (s : string) : option (Z * string) :=
  match s with
  | String a (String b rest) =>
      match atoi (String a (String b "")) with
      | Some y => Some ((if 69 <=? y then y + 1900 else y + 2000), rest)
      | None => None
      end
  | _ => None
  end.

(** [parseSignedOffset]: the length of the offset, 0 if there is none. *)
Definition parseSignedOffset (s : string) : nat :=
  match s with
  | String sign rest =>
      if negb (Ascii.eqb sign "-" || Ascii.eqb sign "+") then 0%nat
      else match leadingInt 0 rest with
           | Some (x, rem) =>
               if (len rem =? len rest) || (23 <? x) then 0%nat else (String.length s - String.length rem)%nat
           | None => 0%nat
           end
  | EmptyString => 0%nat
  end.

Fixpoint upper_prefix (n : nat) (s : string) : nat :=
  match n, s with
  | S n', String c s' => if in_range 65 90 (byte_of c) then S (upper_prefix n' s') else 0%nat
  | _, _ => 0%nat
  end.

Definition prefix_of_length (n : nat) (s : string) : string := String.substring 0 n s.
Definition rest_after (n : nat) (s : string) : string := String.substring n (String.length s - n) s.

(** [parseTimeZone]: the length of the name of a zone. *)
Definition parseTimeZone (s : string) : option nat :=
  if len s <? 3 then None
  else if String.eqb (prefix_of_length 4 s) "ChST" || String.eqb (prefix_of_length 4 s) "MeST" then Some 4%nat
  else if String.eqb (prefix_of_length 3 s) "GMT" then Some (3 + parseSignedOffset (rest_after 3 s))%nat
  else match s with
       | String "+" _ | String "-" _ => match parseSignedOffset s with O => None | n => Some n end
       | _ =>
           match upper_prefix 6 s with
           | 5%nat => if String.eqb (rest_after 4 (prefix_of_length 5 s)) "T" then Some 5%nat else None
           | 4%nat => if String.eqb (rest_after 3 (prefix_of_length 4 s)) "T" || String.eqb (prefix_of_length 4 s) "WITA"
                      then Some 4%nat else None
           | 3%nat => Some 3%nat
           | _ => None
           end
       end.

(** The offsets, in seconds, of the zone names of the machine's own location at
    an instant. *)
Class LocalZone : Type := { zone_offset : string -> Time -> option Z }.

Section Parse.
Context {zone : LocalZone}.

(** The [MST] field and the instant it makes of one read as UTC: a name that is
    not known here does not move it. *)
Definition get_zone_name (s : string) : option ((Time -> Time) * string) :=
  if String.eqb (prefix_of_length 3 s) "UTC" then Some (fun t => t, rest_after 3 s)
  else match parseTimeZone s with
       | Some n =>
           Some (fun t => match zone_offset (prefix_of_length n s) t with Some o => t - o * Second | None => t end,
                 rest_after n s)
       | None => None
       end.

Definition valid_day (year month day : Z) : bool := in_range 1 (daysIn month year) day.

(** ["Mon, 02 Jan 2006 15:04:05 GMT"] *)
Definition parse_TimeFormat (s : string) : option Time :=
  let^ (_, s) := lookup_name 0 shortDayNames s in let^ s := skip "," s in let^ s := skip_space s in
  let^ (day, s) := getnum s true in let^ s := skip_space s in
  let^ (m, s) := lookup_name 0 shortMonthNames s in let^ s := skip_space s in
  let^ (year, s) := get_year s in let^ s := skip_space s in
  let^ (hour, min, sec, nsec, s) := parse_clock s in
  let^ s := skip_space s in let^ s := cut_prefix "GMT" s in
  if negb (String.eqb s "") then None
  else if negb (valid_day year (m + 1) day) then None
  else Some (time_Date year (m + 1) day hour min sec nsec).

(** [time.RFC850]: ["Monday, 02-Jan-06 15:04:05 MST"] *)
Definition parse_RFC850 (s : string) : option Time :=
  let^ (_, s) := lookup_name 0 longDayNames s in let^ s := skip "," s in let^ s := skip_space s in
  let^ (day, s) := getnum s true in let^ s := skip "-" s in
  let^ (m, s) := lookup_name 0 shortMonthNames s in let^ s := skip "-" s in
  let^ (year, s) := get_short_year s in let^ s := skip_space s in
  let^ (hour, min, sec, nsec, s) := parse_clock s in let^ s := skip_space s in
  let^ (move, s) := get_zone_name s in
  if negb (String.eqb s "") then None
  else if negb (valid_day year (m + 1) day) then None
  else Some (move (time_Date year (m + 1) day hour min sec nsec)).

(** The [_2] field. *)
Definition get_under_day (s : string) : option (Z * string) :=
  getnum (match s with String " " rest => rest | _ => s end) false.

(** [time.ANSIC]: ["Mon Jan _2 15:04:05 2006"] *)
Definition parse_ANSIC (s : string) : option Time :=
  let^ (_, s) := lookup_name 0 shortDayNames s in let^ s := skip_space s in
  let^ (m, s) := lookup_name 0 shortMonthNames s in let^ s := skip_space s in
  let^ (day, s) := get_under_day s in let^ s := skip_space s in
  let^ (hour, min, sec, nsec, s) := parse_clock s in let^ s := skip_space s in
  let^ (year, s) := get_year s in
  if negb (String.eqb s "") then None
  else if negb (valid_day year (m + 1) day) then None
  else Some (time_Date year (m + 1) day hour min sec nsec).

(** [http.ParseTime] *)
Definition http_ParseTime (s : string) : result error Time :=
  match parse_TimeFormat s with
  | Some t => Ok t
  | None => match parse_RFC850 s with
            | Some t => Ok t
            | None => match parse_ANSIC s with Some t => Ok t | None => Err err_parse end
            end
  end.
End Parse.

#[local] Instance no_local_zone : LocalZone := { zone_offset _ _ := None }.
Definition example_date : Time := Unix 784111777.
Example http_format_1 : Format_TimeFormat example_date = "Sun, 06 Nov 1994 08:49:37 GMT".
Proof. by vm_compute. Qed.
Example http_parse_1 : http_ParseTime "sun,  06 nov 1994 8:49:37.5 GMT" = Ok (example_date + 500 * Millisecond).
Proof. by vm_compute. Qed.
Example http_parse_2 : http_ParseTime "Sunday, 06-Nov-94 08:49:37 GMT" = Ok example_date.
Proof. by vm_compute. Qed.
Example http_parse_3 : http_ParseTime "Sun Nov  6 08:49:37 1994" = Ok example_date.
Proof. by vm_compute. Qed.
Example http_parse_4 : http_ParseTime "Wed, 29 Feb 2023 08:49:37 GMT" = Err err_parse.
Proof. by vm_compute. Qed.

(** ** The fields of an instant give it back *)

(** [lia] with division and remainder. *)
Ltac dlia := Z.to_euclidean_division_equations; lia.

Definition year_length (y : Z) : Z := if is_leap y then 366 else 365.

Lemma civil_year_spec days :
  days = days_before_year (civil_year days).1 + (civil_year days).2 /\
  0 <= (civil_year days).2 < year_length (civil_year days).1.
Proof.
  unfold civil_year. cbn [fst snd]. set (a := days / 146097). set (d0 := days mod 146097).
  set (b := Z.min 3 (d0 / 36524)). set (d1 := d0 - 36524 * b). set (c := d1 / 1461). set (d2 := d1 mod 1461).
  set (e := Z.min 3 (d2 / 365)).
  assert (Hd0 : days = 146097 * a + d0 /\ 0 <= d0 < 146097) by (unfold a, d0; dlia).
  assert (Hd1 : d0 = 36524 * b + d1 /\ 0 <= b <= 3 /\ 0 <= d1 /\ (b < 3 -> d1 < 36524) /\ d1 < 36525) by (unfold b, d1, b; dlia).
  assert (Hd2 : d1 = 1461 * c + d2 /\ 0 <= d2 < 1461 /\ 0 <= c <= 24 /\ (b < 3 -> c = 24 -> d2 < 1460)) by (unfold c, d2; dlia).
  assert (He : 0 <= e <= 3 /\ 0 <= d2 - 365 * e /\ (e < 3 -> d2 - 365 * e < 365) /\ d2 - 365 * e < 366)
    by (unfold e; dlia).
  clearbody a b c e d0 d1 d2.
  assert (Hq : 400 * a + 100 * b + 4 * c + e + 1 - 1 = 400 * a + 100 * b + 4 * c + e) by lia.
  unfold days_before_year, year_length, is_leap. rewrite Hq.
  set (y := 400 * a + 100 * b + 4 * c + e).
  assert (H4 : y / 4 = 100 * a + 25 * b + c) by (unfold y; dlia).
  assert (H100 : y / 100 = 4 * a + b) by (unfold y; dlia).
  assert (H400 : y / 400 = a) by (unfold y; dlia).
  rewrite H4, H100, H400. split; [unfold y; dlia |].
  assert (Hl : e = 3 -> d2 - 365 * e = 365 ->
    ((y + 1) mod 4 =? 0) && (negb ((y + 1) mod 100 =? 0) || ((y + 1) mod 400 =? 0)) = true).
  { intros -> Hd. assert ((y + 1) mod 4 = 0) by (symmetry; apply Z.mod_unique with (100 * a + 25 * b + c + 1); unfold y; lia). destruct (Z.eq_dec c 24) as [-> | Hc].
    - assert (b = 3) as -> by lia. assert ((y + 1) mod 400 = 0) by (symmetry; apply Z.mod_unique with (a + 1); unfold y; lia). lia.
    - assert ((y + 1) mod 100 = 4 * c + 4) by (symmetry; apply Z.mod_unique with (4 * a + b); unfold y; lia). lia. }
  destruct ((y + 1) mod 4 =? 0), ((y + 1) mod 100 =? 0), ((y + 1) mod 400 =? 0); cbn [andb orb negb] in *; lia.
Qed.

Lemma days_before_month_year y : days_before_month 12 y = year_length y.
Proof. unfold days_before_month, daysIn, year_length. cbn -[is_leap]. destruct (is_leap y); reflexivity. Qed.

(** The month is found before the fuel runs out. *)
Lemma civil_month_spec fuel : forall month year day,
  1 <= month -> month + Z.of_nat fuel = 12 -> 0 <= day ->
  days_before_month (Z.to_nat (month - 1)) year + day < year_length year ->
  let r := civil_month fuel month year day in
  1 <= r.1 <= 12 /\ 0 <= r.2 < daysIn r.1 year /\
  days_before_month (Z.to_nat (r.1 - 1)) year + r.2 = days_before_month (Z.to_nat (month - 1)) year + day.
Proof.
  assert (Hstep : forall month year, 1 <= month ->
    days_before_month (Z.to_nat (month + 1 - 1)) year = days_before_month (Z.to_nat (month - 1)) year + daysIn month year).
  { intros month year Hm. replace (Z.to_nat (month + 1 - 1)) with (S (Z.to_nat (month - 1))) by lia. cbn [days_before_month].
    do 2 f_equal. lia. }
  induction fuel as [| n IH]; intros month year day Hm Hf Hd Hlt; cbn [civil_month].
  - assert (month = 12) as -> by lia. cbn [fst snd]. split; [lia | split; [| lia]]. split; [lia |].
    rewrite <- days_before_month_year in Hlt. replace (Z.to_nat (12 - 1)) with 11%nat in Hlt by lia.
    change (days_before_month 12 year) with (days_before_month 11 year + daysIn 12 year) in Hlt. lia.
  - destruct (day <? daysIn month year) eqn:E; [cbn [fst snd]; lia |].
    destruct (IH (month + 1) year (day - daysIn month year)) as (H1 & H2 & H3); rewrite ?Hstep by lia; try lia.
    split; [exact H1 | split; [exact H2 |]]. rewrite H3, Hstep by lia. lia.
Qed.

(** The fields are in their ranges and [time.Date] gives the instant back, in
    whole seconds. *)
Lemma civil_spec t :
  let c := civil t in
  time_Date (cv_year c) (cv_month c) (cv_day c) (cv_hour c) (cv_min c) (cv_sec c) 0 = t - t mod Second /\
  1 <= cv_month c <= 12 /\ valid_day (cv_year c) (cv_month c) (cv_day c) = true /\
  0 <= cv_hour c <= 23 /\ 0 <= cv_min c <= 59 /\ 0 <= cv_sec c <= 59 /\ 0 <= cv_weekday c <= 6.
Proof.
  unfold civil. pose proof (civil_year_spec (t / Second / 86400)) as [Hy Hd].
  destruct (civil_year (t / Second / 86400)) as [year yday]. cbn [fst snd] in Hy, Hd.
  pose proof (civil_month_spec 11 1 year yday ltac:(lia) eq_refl (proj1 Hd) (proj2 Hd)) as Hm. cbn zeta in Hm.
  destruct (civil_month 11 1 year yday) as [month mday]. cbn [fst snd] in Hm. destruct Hm as (Hm & Hmd & He).
  cbn [cv_year cv_month cv_day cv_hour cv_min cv_sec cv_weekday]. unfold valid_day, in_range, time_Date.
  change (days_before_month (Z.to_nat (1 - 1)) year) with 0 in He. unfold Second in *.
  split; [| dlia]. replace (mday + 1 - 1) with mday by lia. rewrite <- Z.add_assoc, He. dlia.
Qed.

(** ** What is written reads back *)

Lemma digit_char_spec z : 0 <= z <= 9 -> is_digit (digit_char z) = true /\ digit_of (digit_char z) = z.
Proof. intros Hz. unfold is_digit, digit_of, digit_char. rewrite chr_byte by lia. unfold in_range. lia. Qed.

Lemma digit_not_space c : is_digit c = true -> Ascii.eqb c " " = false.
Proof. intros Hc. apply Ascii.eqb_neq. by intros ->. Qed.

Lemma two_digits_spec n rest : 0 <= n <= 99 -> exists a b, two_digits n +:+ rest = String a (String b rest) /\
  is_digit a = true /\ is_digit b = true /\ digit_of a * 10 + digit_of b = n.
Proof.
  intros Hn. exists (digit_char (n / 10)), (digit_char (n mod 10)).
  destruct (digit_char_spec (n / 10)) as [H1 H2]; [dlia |]. destruct (digit_char_spec (n mod 10)) as [H3 H4]; [dlia |].
  rewrite H2, H4. split; [reflexivity | split; [done | split; [done | dlia]]].
Qed.

Lemma getnum_two_digits n rest fixed : 0 <= n <= 99 -> getnum (two_digits n +:+ rest) fixed = Some (n, rest).
Proof.
  intros Hn. destruct (two_digits_spec n rest Hn) as (a & b & -> & Ha & Hb & Hv). cbn [getnum]. by rewrite Ha, Hb, Hv.
Qed.

Lemma skip_space_two n rest : 0 <= n <= 99 -> skip_space (" " +:+ two_digits n +:+ rest) = Some (two_digits n +:+ rest).
Proof.
  intros Hn. destruct (two_digits_spec n rest Hn) as (a & b & -> & Ha & _).
  change (Some (cut_spaces (String a (String b rest))) = Some (String a (String b rest))). cbn [cut_spaces]. by rewrite (digit_not_space a Ha).
Qed.

Lemma year_split y rest : four_digit_year y +:+ rest = two_digits (y / 100) +:+ (two_digits (y mod 100) +:+ rest).
Proof. reflexivity. Qed.

Lemma digits_value_4 a b c d :
  is_digit a = true -> is_digit b = true -> is_digit c = true -> is_digit d = true ->
  digits_value (String a (String b (String c (String d "")))) =
    Some (((digit_of a * 10 + digit_of b) * 10 + digit_of c) * 10 + digit_of d).
Proof.
  intros Ha Hb Hc Hd. unfold digits_value. cbn [all_chars]. rewrite Ha, Hb, Hc, Hd. cbn. unfold digit_of. f_equal; lia.
Qed.

Lemma get_year_four y rest : 0 <= y <= 9999 -> get_year (four_digit_year y +:+ rest) = Some (y, rest).
Proof.
  intros Hy. rewrite year_split.
  destruct (two_digits_spec (y / 100) (two_digits (y mod 100) +:+ rest)) as (a & b & -> & Ha & Hb & Hv); [dlia |].
  destruct (two_digits_spec (y mod 100) rest) as (c & d & -> & Hc & Hd & Hw); [dlia |].
  unfold get_year. rewrite Ha, digits_value_4 by done. cbn. do 2 f_equal. dlia.
Qed.

Lemma skip_space_year y rest : 0 <= y <= 9999 -> skip_space (" " +:+ four_digit_year y +:+ rest) = Some (four_digit_year y +:+ rest).
Proof. intros Hy. rewrite year_split. apply skip_space_two. dlia. Qed.

Lemma lookup_day i rest : 0 <= i <= 6 ->
  lookup_name 0 shortDayNames (name_at shortDayNames i +:+ rest) = Some (i, rest).
Proof.
  intros Hi. assert (i = 0 \/ i = 1 \/ i = 2 \/ i = 3 \/ i = 4 \/ i = 5 \/ i = 6) as Hc by lia.
  repeat destruct Hc as [-> | Hc]; [reflexivity ..| subst; reflexivity].
Qed.

(** The name of a month, and the space before it. *)
Lemma lookup_month i rest : 0 <= i <= 11 ->
  skip_space (" " +:+ name_at shortMonthNames i +:+ rest) = Some (name_at shortMonthNames i +:+ rest) /\
  lookup_name 0 shortMonthNames (name_at shortMonthNames i +:+ rest) = Some (i, rest).
Proof.
  intros Hi. assert (i = 0 \/ i = 1 \/ i = 2 \/ i = 3 \/ i = 4 \/ i = 5 \/ i = 6 \/ i = 7 \/ i = 8 \/ i = 9 \/ i = 10 \/ i = 11)
    as Hc by lia.
  repeat destruct Hc as [-> | Hc]; [split; reflexivity ..| subst; split; reflexivity].
Qed.

Lemma ranged_in lo hi v rest : lo <= v <= hi -> ranged lo hi (Some (v, rest)) = Some (v, rest).
Proof. intros Hv. unfold ranged, in_range. replace ((lo <=? v) && (v <=? hi)) with true by lia. done. Qed.

Lemma parse_clock_format h m s : 0 <= h <= 23 -> 0 <= m <= 59 -> 0 <= s <= 59 ->
  parse_clock (two_digits h +:+ ":" +:+ two_digits m +:+ ":" +:+ two_digits s +:+ " GMT") = Some (h, m, s, 0, " GMT").
Proof.
  intros Hh Hm Hs. unfold parse_clock. rewrite getnum_two_digits, ranged_in by lia. cbn [obind].
  change (skip ":" (":" +:+ ?x)) with (Some x). cbn [obind]. rewrite getnum_two_digits, ranged_in by lia. cbn [obind].
  change (skip ":" (":" +:+ ?x)) with (Some x). cbn [obind]. rewrite getnum_two_digits, ranged_in by lia. reflexivity.
Qed.

(** A date the program writes reads back, in whole seconds. *)
Theorem ParseTime_Format {zone : LocalZone} t : 0 <= cv_year (civil t) <= 9999 ->
  http_ParseTime (Format_TimeFormat t) = Ok (t - t mod Second).
Proof.
  intros Hy. destruct (civil_spec t) as (Ht & Hmo & Hv & Hh & Hmi & Hs & Hw).
  assert (Hday : 0 <= cv_day (civil t) <= 99).
  { unfold valid_day, in_range, daysIn in Hv. destruct (is_leap _); repeat case_match; lia. }
  unfold http_ParseTime. enough (H : parse_TimeFormat (Format_TimeFormat t) = Some (t - t mod Second)) by (by rewrite H).
  unfold parse_TimeFormat, Format_TimeFormat. set (c := civil t) in *. clearbody c. rewrite lookup_day by lia. cbn [obind].
  change (skip "," (", " +:+ ?x)) with (Some (" " +:+ x)). cbn [obind]. rewrite skip_space_two by lia. cbn [obind].
  rewrite getnum_two_digits by lia. cbn [obind].
  destruct (lookup_month (cv_month c - 1) (" " +:+ four_digit_year (cv_year c) +:+ " " +:+ two_digits (cv_hour c) +:+ ":" +:+
    two_digits (cv_min c) +:+ ":" +:+ two_digits (cv_sec c) +:+ " GMT")) as [-> E]; [lia |]. cbn [obind]. rewrite E. cbn [obind].
  rewrite skip_space_year by lia. cbn [obind]. rewrite get_year_four by lia. cbn [obind].
  rewrite skip_space_two by lia. cbn [obind]. rewrite parse_clock_format by lia. cbn -[time_Date valid_day Z.add Z.sub].
  replace (cv_month c - 1 + 1) with (cv_month c) by lia. by rewrite Hv, Ht.
Qed.

(** ** The dates that are read have years of four digits *)

Lemma days_before_year_mono y z : y <= z -> days_before_year y <= days_before_year z.
Proof. intros Hle. unfold days_before_year. dlia. Qed.

Lemma div_next k y : 0 < k -> y / k = (y - 1) / k + (if y mod k =? 0 then 1 else 0).
Proof.
  intros Hk. pose proof (Z.div_mod y k ltac:(lia)) as Hy. pose proof (Z.mod_pos_bound y k Hk) as Hr.
  destruct (Z.eqb_spec (y mod k) 0) as [E | E].
  - rewrite <- (Z.div_unique (y - 1) k (y / k - 1) (k - 1)); lia.
  - rewrite <- (Z.div_unique (y - 1) k (y / k) (y mod k - 1)); lia.
Qed.

Lemma mod_divides k l y : 0 < k -> 0 < l -> y mod (k * l) = 0 -> y mod k = 0.
Proof.
  intros Hk Hl H. apply Z.mod_divide in H as [c ->]; [| nia]. apply Z.mod_divide; [lia |]. exists (c * l). lia.
Qed.

Lemma days_before_year_next y : days_before_year (y + 1) = days_before_year y + year_length y.
Proof.
  unfold days_before_year, year_length, is_leap. replace (y + 1 - 1) with y by lia.
  rewrite (div_next 4 y), (div_next 100 y), (div_next 400 y) by lia.
  pose proof (mod_divides 4 25 y) as H1. pose proof (mod_divides 100 4 y) as H2.
  change (4 * 25) with 100 in H1. change (100 * 4) with 400 in H2.
  destruct (Z.eqb_spec (y mod 4) 0), (Z.eqb_spec (y mod 100) 0), (Z.eqb_spec (y mod 400) 0); cbn [andb orb negb]; lia.
Qed.

Lemma daysIn_pos m y : 28 <= daysIn m y <= 31.
Proof. unfold daysIn. destruct (is_leap y); repeat case_match; lia. Qed.

Lemma days_before_month_mono n m y : (n <= m)%nat -> days_before_month n y <= days_before_month m y.
Proof. induction 1 as [| m _ IH]; [lia |]. cbn [days_before_month]. pose proof (daysIn_pos (Z.of_nat (S m)) y). lia. Qed.

Lemma month_in_year month year : 1 <= month <= 12 ->
  0 <= days_before_month (Z.to_nat (month - 1)) year /\
  days_before_month (Z.to_nat (month - 1)) year + daysIn month year <= year_length year.
Proof.
  intros Hm. split; [apply (days_before_month_mono 0); lia |].
  rewrite <- days_before_month_year. etrans; [| apply (days_before_month_mono (S (Z.to_nat (month - 1)))); lia].
  cbn [days_before_month]. replace (Z.of_nat (S (Z.to_nat (month - 1)))) with month by lia. lia.
Qed.

(** An instant of a year, by the fields of [time.Date]. *)
Lemma time_Date_year year month day hour min sec nsec :
  1 <= month <= 12 -> valid_day year month day = true -> 0 <= hour <= 23 -> 0 <= min <= 59 -> 0 <= sec <= 59 ->
  0 <= nsec < Second ->
  days_before_year year * 86400 * Second <= time_Date year month day hour min sec nsec <
    days_before_year (year + 1) * 86400 * Second.
Proof.
  intros Hm Hv Hh Hmi Hs Hn. unfold valid_day, in_range in Hv. rewrite days_before_year_next. unfold time_Date.
  pose proof (month_in_year month year Hm) as Hy.
  unfold Second in *. lia.
Qed.

Lemma civil_year_bounds t lo hi : 0 < Second ->
  days_before_year lo * 86400 * Second <= t < days_before_year (hi + 1) * 86400 * Second -> lo <= cv_year (civil t) <= hi.
Proof.
  intros _ Ht. unfold civil. pose proof (civil_year_spec (t / Second / 86400)) as [Hy Hd].
  destruct (civil_year _) as [year yday]. destruct (civil_month _ _ _ _). cbn [fst snd cv_year] in *.
  assert (Hb : days_before_year lo <= t / Second / 86400 < days_before_year (hi + 1)) by (unfold Second in *; dlia).
  pose proof (days_before_year_next year) as Hn. split.
  - destruct (Z.lt_ge_cases year lo) as [Hlt | Hge]; [| lia]. pose proof (days_before_year_mono (year + 1) lo). lia.
  - destruct (Z.lt_ge_cases hi year) as [Hlt | Hge]; [| lia]. pose proof (days_before_year_mono (hi + 1) year). lia.
Qed.

(** One field after the other of a text that was read. *)
Ltac read_field H :=
  lazymatch type of H with
  | obind ?c _ = Some _ =>
      let E := fresh "E" in
      destruct c eqn:E; cbn [obind] in H; [| discriminate H]; repeat match type of H with context [let (_, _) := ?p in _] => is_var p; destruct p end
  end.

Lemma lookup_name_range i tab s j r : lookup_name i tab s = Some (j, r) -> i <= j < i + Z.of_nat (length tab).
Proof.
  revert i. induction tab as [| v tab IH]; intros i; cbn [lookup_name]; [done |].
  destruct (cut_fold v s); [intros [= -> ->]; cbn; lia | intros H%IH; cbn; lia].
Qed.

Lemma is_digit_range c : is_digit c = true -> 0 <= digit_of c <= 9.
Proof. unfold is_digit, in_range, digit_of. lia. Qed.

Lemma take_digits_all s : all_chars is_digit (take_digits s).1 = true.
Proof.
  induction s as [| c s IH]; [done |]. cbn [take_digits]. destruct (is_digit c) eqn:E; [| done].
  destruct (take_digits s) as [ds r]. cbn [fst] in *. cbn [all_chars]. by rewrite E, IH.
Qed.

Lemma nanoseconds_range n ds : all_chars is_digit ds = true -> 0 <= nanoseconds n ds < 10 ^ Z.of_nat n.
Proof.
  revert ds. induction n as [| n IH]; intros ds Hd; cbn [nanoseconds]; [lia |].
  destruct ds as [| c ds]; [lia |]. cbn [all_chars] in Hd. apply andb_true_iff in Hd as [Hc Hd].
  pose proof (is_digit_range c Hc) as Hr. specialize (IH ds Hd). replace (Z.of_nat (S n)) with (Z.succ (Z.of_nat n)) by lia.
  rewrite Z.pow_succ_r by lia. nia.
Qed.

Lemma get_fraction_range s : 0 <= (get_fraction s).1 < Second.
Proof.
  unfold get_fraction, Second. destruct s as [| c [| d s]]; cbn [fst]; [lia | lia |].
  destruct (_ && _); cbn [fst]; [| lia].
  pose proof (take_digits_all (String d s)) as Hd. destruct (take_digits (String d s)) as [ds r]. cbn [fst] in *.
  exact (nanoseconds_range 9 ds Hd).
Qed.

Lemma ranged_spec lo hi o v rest : ranged lo hi o = Some (v, rest) -> o = Some (v, rest) /\ lo <= v <= hi.
Proof.
  unfold ranged, in_range. destruct o as [[w r] |]; [| done]. destruct (_ && _) eqn:E; [| done]. intros [= -> ->]. split; [done | lia].
Qed.

Lemma parse_clock_range s h m sec ns r : parse_clock s = Some (h, m, sec, ns, r) ->
  0 <= h <= 23 /\ 0 <= m <= 59 /\ 0 <= sec <= 59 /\ 0 <= ns < Second.
Proof.
  unfold parse_clock. intros H. do 5 read_field H. pose proof (get_fraction_range s4) as Hf.
  destruct (get_fraction s4) as [ns' r']. injection H as <- <- <- <- <-.
  apply ranged_spec in E as [_ ?], E1 as [_ ?], E3 as [_ ?]. repeat split; cbn [fst] in Hf; lia.
Qed.

Lemma get_year_range s y r : get_year s = Some (y, r) -> 0 <= y <= 9999.
Proof.
  unfold get_year. destruct s as [| a [| b [| c [| d s]]]]; try done. destruct (is_digit a) eqn:Ha; cbn [negb]; [| done].
  destruct (is_digit b) eqn:Hb, (is_digit c) eqn:Hc, (is_digit d) eqn:Hd; try solve [unfold digits_value; cbn [all_chars]; by rewrite Ha, ?Hb, ?Hc, ?Hd].
  rewrite digits_value_4 by done. intros [= <- <-].
  apply is_digit_range in Ha, Hb, Hc, Hd. lia.
Qed.

Lemma digits_value_short a s v : digits_value (String a s) = Some v -> (String.length s <= 1)%nat -> 0 <= v <= 99.
Proof.
  unfold digits_value. destruct (all_chars is_digit (String a s)) eqn:E; [| done]. intros [= <-].
  cbn [all_chars] in E. apply andb_true_iff in E as [Ha Hs]. apply is_digit_range in Ha. unfold digit_of in Ha.
  destruct s as [| b s]; cbn; [lia |]. cbn [all_chars] in Hs. apply andb_true_iff in Hs as [Hb _]. apply is_digit_range in Hb.
  unfold digit_of in Hb. destruct s; cbn; lia.
Qed.

Lemma get_short_year_range s y r : get_short_year s = Some (y, r) -> 1969 <= y <= 2068.
Proof.
  unfold get_short_year. destruct s as [| a [| b s]]; try done. destruct (atoi _) as [v |] eqn:Ea; [| done]. intros [= <- <-].
  assert (Hv : -9 <= v <= 99); [| destruct (69 <=? v) eqn:E; lia].
  assert (Hd : forall c, is_Some (digits_value (String c "")) -> forall w, digits_value (String c "") = Some w -> 0 <= w <= 9).
  { intros c _ w. unfold digits_value. destruct (all_chars _ _) eqn:E; [| done]. intros [= <-]. cbn [all_chars] in E.
    rewrite andb_true_r in E. apply is_digit_range in E. unfold digit_of in E. cbn. lia. }
  unfold atoi in Ea.
  destruct (Ascii.eqb_spec a "-") as [-> | Hm].
  { destruct (digits_value (String b "")) as [w |] eqn:E; [| done]. specialize (Hd b (mk_is_Some _ _ E) w E).
    destruct (_ && _); [| done]. injection Ea as <-. lia. }
  destruct (Ascii.eqb_spec a "+") as [-> | Hp].
  { destruct (digits_value (String b "")) as [w |] eqn:E; [| done]. specialize (Hd b (mk_is_Some _ _ E) w E).
    destruct (_ && _); [| done]. injection Ea as <-. lia. }
  assert (Hg : match digits_value (String a (String b "")) with
               | Some z => if (min_int64 <=? z) && (z <=? max_int64) then Some z else None | None => None end = Some v).
  { destruct a as [[] [] [] [] [] [] [] []]; first [exact Ea | by destruct Hm | by destruct Hp]. }
  destruct (digits_value (String a (String b ""))) as [w |] eqn:E; [| done]. apply digits_value_short in E; [| cbn; lia].
  destruct (_ && _); [| done]. injection Hg as <-. lia.
Qed.

(** The years of the dates that are read, given that no zone is a year or more
    away from UTC. *)
Definition zones_near (zone : LocalZone) : Prop :=
  forall name t o, zone_offset name t = Some o -> - (365 * 86400) <= o <= 365 * 86400.

Definition four_digits (t : Time) : Prop :=
  days_before_year 0 * 86400 * Second <= t < days_before_year 10000 * 86400 * Second.

Lemma date_four_digits year month day hour min sec nsec :
  0 <= year <= 9999 -> 1 <= month <= 12 -> valid_day year month day = true -> 0 <= hour <= 23 -> 0 <= min <= 59 ->
  0 <= sec <= 59 -> 0 <= nsec < Second -> four_digits (time_Date year month day hour min sec nsec).
Proof.
  intros Hy Hm Hv Hh Hmi Hs Hn. pose proof (time_Date_year year month day hour min sec nsec Hm Hv Hh Hmi Hs Hn).
  pose proof (days_before_year_mono 0 year ltac:(lia)). pose proof (days_before_year_mono (year + 1) 10000 ltac:(lia)).
  unfold four_digits, Second in *. lia.
Qed.

Ltac read_ranges :=
  repeat match goal with
  | H : lookup_name _ _ _ = Some _ |- _ => apply lookup_name_range in H; cbn in H
  | H : parse_clock _ = Some _ |- _ => apply parse_clock_range in H
  | H : get_year _ = Some _ |- _ => apply get_year_range in H
  | H : get_short_year _ = Some _ |- _ => apply get_short_year_range in H
  end.

Lemma get_zone_name_near (zone : LocalZone) s move r t : zones_near zone -> get_zone_name s = Some (move, r) ->
  t - 365 * 86400 * Second <= move t <= t + 365 * 86400 * Second.
Proof.
  intros Hz. unfold get_zone_name, Second. destruct (String.eqb _ _); [intros [= <- <-]; lia |].
  destruct (parseTimeZone s) as [n |]; [| done]. intros [= <- <-].
  destruct (zone_offset _ t) as [o |] eqn:E; [| lia]. apply Hz in E. unfold Second. lia.
Qed.

Lemma ParseTime_four_digits (zone : LocalZone) s t : zones_near zone -> http_ParseTime s = Ok t -> four_digits t.
Proof.
  intros Hz. unfold http_ParseTime.
  assert (H1 : parse_TimeFormat s = Some t -> four_digits t).
  { unfold parse_TimeFormat. intros H. do 12 read_field H. destruct (negb (String.eqb _ _)); [done |].
    destruct (valid_day _ _ _) eqn:Ev; [| done]. injection H as <-. read_ranges. apply date_four_digits; try done; lia. }
  assert (H2 : parse_ANSIC s = Some t -> four_digits t).
  { unfold parse_ANSIC. intros H. do 9 read_field H. destruct (negb (String.eqb _ _)); [done |].
    destruct (valid_day _ _ _) eqn:Ev; [| done]. injection H as <-. read_ranges. apply date_four_digits; try done; lia. }
  assert (H3 : parse_RFC850 s = Some t -> four_digits t).
  { unfold parse_RFC850. intros H. do 12 read_field H. destruct (negb (String.eqb _ _)); [done |].
    destruct (valid_day _ _ _) eqn:Ev; [| done]. injection H as <-. 
    match goal with Hzn : get_zone_name _ = Some (?f, _) |- four_digits (?f ?d) =>
      pose proof (get_zone_name_near zone _ f _ d Hz Hzn) as Hnear end.
    read_ranges. match type of Hnear with context [time_Date ?y ?m ?d ?h ?mi ?sc ?n] =>
      pose proof (time_Date_year y m d h mi sc n ltac:(lia) Ev ltac:(lia) ltac:(lia) ltac:(lia) ltac:(lia)) as Hd;
      pose proof (days_before_year_mono 1969 y ltac:(lia)); pose proof (days_before_year_mono (y + 1) 2069 ltac:(lia)) end.
    change (days_before_year 1969) with 718797 in *. change (days_before_year 2069) with 755322 in *.
    unfold four_digits. change (days_before_year 0) with (-366). change (days_before_year 10000) with 3652059.
    unfold Second in *. lia. }
  destruct (parse_TimeFormat s); [naive_solver |]. destruct (parse_RFC850 s); [naive_solver |].
  destruct (parse_ANSIC s); naive_solver.
Qed.

(** The canonical text of a date that was read: reading and writing it again
    changes nothing more. *)
Corollary ParseTime_canonical (zone : LocalZone) s t : zones_near zone -> http_ParseTime s = Ok t ->
  http_ParseTime (Format_TimeFormat t) = Ok (t - t mod Second) /\
  Format_TimeFormat (t - t mod Second) = Format_TimeFormat t.
Proof.
  intros Hz Ht%ParseTime_four_digits; [| done]. split.
  - apply ParseTime_Format. apply (civil_year_bounds t 0 9999); done.
  - unfold Format_TimeFormat, civil. replace ((t - t mod Second) / Second) with (t / Second); [done |].
    unfold Second. dlia.
Qed.
