(* ===== verification/Fetcher.v ===== *)
(** * The feed fetcher ([internal/feed/fetcher.go])

    One conditional GET of a feed: the checks of its request and its URL, the
    redirects it may follow, the addresses it may dial, and the checks of the
    response before its body is taken over.

    Parsing URLs and media types are the parameters of the model; the network
    is an interface.  The loop of [http.Client] over the redirects is written
    out, as the guarantees of the fetcher depend on it. *)

From S2P Require Export HttpDate Syncer.

(** ** Libraries *)

(** [net/url], [mime.ParseMediaType] and the dial address of [net/http].
    [url_Resolve] is [URL.Parse] and [url_Referer] the referrer the client
    sends. *)
Class HttpLibrary : Type := {
  url : Type;
  url_ParseRequestURI : string -> result error url;
  url_Parse : string -> result error url;
  url_Resolve : url -> string -> option url;
  url_String : url -> string;
  url_fields : url -> URL;
  url_Address : url -> string;
  url_Referer : url -> url -> string;
  mime_ParseMediaType : string -> option string }.

Definition errSSRFBlocked : error := Foreign "feed target blocked".
Definition errRedirect : error := Foreign "feed redirect blocked".

(** [errors.Is] for these two. *)
Definition is_Foreign (name : string) (e : error) : bool :=
  match chain_find (fun e => match e with Foreign n => if String.eqb n name then Some tt else None | _ => None end) e with
  | Some _ => true | None => false end.
Definition is_SSRFBlocked (e : error) : bool := is_Foreign "feed target blocked" e.
Definition is_Redirect (e : error) : bool := is_Foreign "feed redirect blocked" e.

(** ** Texts *)

Definition hasHeaderControl (value : string) : bool :=
  existsb (fun r => is_control r.1.1 && negb (r.1.1 =? 9)) (runes value).

Definition fetcher_validUserAgent (value : string) : bool :=
  negb (String.eqb value "") && (len value <=? 128) && (count_byte "/" value =? 1) && negb (hasHeaderControl value).

Definition validConditional (value : string) (max : Z) : bool := (len value <=? max) && negb (hasHeaderControl value).

(** [strings.EqualFold] where one of the texts is ASCII: besides the letters,
    only U+017F and U+212A fold to an ASCII character. *)
Definition fold_rune (r : Z) : Z :=
  if in_range 65 90 r then r + 32 else if r =? 383 then 115 else if r =? 8490 then 107 else r.
Definition EqualFold (s t : string) : bool :=
  bool_decide (map (fun r => fold_rune r.1.1) (runes s) = map (fun r => fold_rune r.1.1) (runes t)).

Fixpoint lower_ascii (s : string) : string :=
  match s with String c s' => String (fold_char c) (lower_ascii s') | EmptyString => "" end.

Definition byte_order_mark : string := String "239" (String "187" (String "191" "")).

(** [strings.ToLower] differs from [lower_ascii] only on characters that are
    not ASCII, and of those only U+0130 and U+212A become ASCII, [i] and [k]:
    the prefixes have neither. *)
Definition looksLikeHTML (body : string) : bool :=
  let head := String.substring 0 512 body in
  let head := match cut_prefix byte_order_mark head with Some rest => rest | None => head end in
  let prefix := lower_ascii (trim_space head) in
  existsb (fun p => match cut_prefix p prefix with Some _ => true | None => false end)
    ["<!doctype html"; "<html"; "<head"; "<body"].

(** ** Addresses *)

Definition safeAddress (address : Addr) : bool :=
  let address := Unmap address in fst (IsSafePrefix (PrefixFrom address (BitLen address))).

(** [net.JoinHostPort] *)
Definition JoinHostPort (host port : string) : string :=
  if contains_byte ":" host then "[" +:+ host +:+ "]:" +:+ port else host +:+ ":" +:+ port.

(** The resolver, and the dialer of [net]: a connection is a [C]. *)
Class DialNet (W C : Type) : Type := {
  n_LookupNetIP : Duration -> string -> M W error (list Addr);
  n_DialContext : Duration -> string -> string -> M W error C }.

Record secureDialer : Type := MkSecureDialer { sd_dnsTimeout : Duration; sd_connectTimeout : Duration }.

Section Dialer.
Context {W C : Type} `{!DialNet W C}.
Context (d : secureDialer).

(** The first address that connects, or the last error. *)
Fixpoint dial_first (networkName port : string) (addresses : list Addr) (lastError : error) : M W error C :=
  match addresses with
  | [] => mfail lastError
  | resolved :: rest =>
      let~ r := n_DialContext (sd_connectTimeout d) networkName (JoinHostPort (addr_String resolved) port) in
      match r with Ok connection => mok connection | Err e => dial_first networkName port rest e end
  end.

Definition resolve (host : string) : M W error (list Addr) :=
  match ParseAddr host with
  | Some literal => mok [Unmap literal]
  | None => n_LookupNetIP (sd_dnsTimeout d) host
  end.

Definition DialContext (networkName address : string) : M W error C :=
  match SplitHostPort address with
  | None => mfail errSSRFBlocked
  | Some (host, port) =>
      let! addresses := resolve host in
      if (Z.of_nat (length addresses) =? 0) || (16 <? Z.of_nat (length addresses)) then mfail errSSRFBlocked
      else if negb (forallb safeAddress addresses) then mfail errSSRFBlocked
      else dial_first networkName port addresses errSSRFBlocked
  end.
End Dialer.

(** ** Requests and responses *)

Definition Header : Type := list (string * string).

(** [Header.Get] and [Header.Set] of a canonical key. *)
Fixpoint header_Get (h : Header) (key : string) : string :=
  match h with
  | [] => ""
  | (k, v) :: rest => if String.eqb k key then v else header_Get rest key
  end.
Definition header_Set (h : Header) (key value : string) : Header :=
  List.filter (fun kv : string * string => negb (String.eqb kv.1 key)) h ++ [(key, value)].

(** [Fetcher] and [FetcherOptions]; the client and the transport are the
    functions below. *)
Record FetcherOptions : Type := MkFetcherOptions {
  fo_UserAgent : string; fo_MaxRedirects : Z; fo_AllowHTTP : bool; fo_ConnectTimeout : Duration;
  fo_DNSLookupTimeout : Duration; fo_TLSHandshakeTimeout : Duration; fo_ResponseHeaderTimeout : Duration }.

Record Fetcher : Type := MkFetcher { fx_userAgent : string; fx_maxRedirects : Z; fx_allowHTTP : bool; fx_dialer : secureDialer }.

Definition NewFetcher (options : FetcherOptions) : result error Fetcher :=
  if negb (fetcher_validUserAgent (fo_UserAgent options)) || (fo_MaxRedirects options <? 0) || (10 <? fo_MaxRedirects options) ||
     (fo_ConnectTimeout options <=? 0) || (fo_DNSLookupTimeout options <=? 0) || (fo_TLSHandshakeTimeout options <=? 0) ||
     (fo_ResponseHeaderTimeout options <=? 0)
  then Err (feedError feed.ErrPolicy None)
  else Ok (MkFetcher (fo_UserAgent options) (fo_MaxRedirects options) (fo_AllowHTTP options)
             (MkSecureDialer (fo_DNSLookupTimeout options) (fo_ConnectTimeout options))).

(** A response: the bytes of its body, and the error that ends them, if any. *)
Record HttpResponse : Type := MkHttpResponse {
  hp_Status : Z; hp_Header : Header; hp_ContentLength : Z; hp_Body : string; hp_BodyError : option error }.

Section Http.
Context {lib : HttpLibrary} {zone : LocalZone}.

Record HttpRequest : Type := MkHttpRequest { hq_URL : url; hq_Header : Header; hq_Timeout : Duration }.

Definition u_scheme (u : url) : string := u_Scheme (url_fields u).

Definition validateFetchURL (raw : string) (allowHTTP : bool) : result error url :=
  match url_ParseRequestURI raw with
  | Err e => Err (feedError feed.ErrRequest (Some e))
  | Ok parsed =>
      let f := url_fields parsed in
      if String.eqb (u_Scheme f) "" || String.eqb (u_Hostname f) "" || u_User f || negb (String.eqb (u_Fragment f) "") ||
         hasHeaderControl (u_Host f) then Err (feedError feed.ErrRequest None)
      else if negb (String.eqb (u_Scheme f) "https") && (negb (String.eqb (u_Scheme f) "http") || negb allowHTTP)
      then Err (feedError feed.ErrRequest None)
      else match ParseAddr (u_Hostname f) with
           | Some literal => if safeAddress literal then Ok parsed else Err errSSRFBlocked
           | None => Ok parsed
           end
  end.

(** [via]: the requests so far, the oldest first. *)
Definition redirectPolicy (maxRedirects : Z) (allowHTTP : bool) (request : HttpRequest) (via : list HttpRequest)
  : option error :=
  if maxRedirects <? Z.of_nat (length via) then Some errRedirect
  else match validateFetchURL (url_String (hq_URL request)) allowHTTP with
       | Err _ => Some errRedirect
       | Ok parsed =>
           match list.last via with
           | Some previous =>
               if String.eqb (u_scheme (hq_URL previous)) "https" && negb (String.eqb (u_scheme parsed) "https")
               then Some errRedirect else None
           | None => None
           end
       end.

Definition allowedContentType (raw : string) (allowed : list string) : bool :=
  match mime_ParseMediaType raw with
  | None => false
  | Some mediaType =>
      if String.eqb mediaType "" || EqualFold mediaType "text/html" then false
      else existsb (fun candidate => EqualFold (trim_space candidate) mediaType) allowed
  end.

Definition responseValidators (header : Header) : result error (string * string) :=
  let etag := header_Get header "Etag" in
  if negb (validConditional etag 256) then Err (feedError feed.ErrResponseHeader None)
  else
    let lastModified := header_Get header "Last-Modified" in
    if String.eqb lastModified "" then Ok (etag, "")
    else match http_ParseTime lastModified with
         | Err e => Err (feedError feed.ErrResponseHeader (Some e))
         | Ok parsed => Ok (etag, Format_TimeFormat parsed)
         end.

(** [now] is the time of the clock; the product of the seconds wraps around. *)
Definition parseRetryAfter (value : string) (now : Time) : Duration :=
  if String.eqb value "" then 0
  else match atoi value with
       | Some seconds =>
           let delay := int64_wrap (seconds * Second) in
           if (0 <? delay) && (delay <=? 24 * Hour) then delay else 0
       | None =>
           match http_ParseTime value with
           | Ok target =>
               let delay := time_Sub target now in
               if (0 <? delay) && (delay <=? 24 * Hour) then delay else 0
           | Err _ => 0
           end
       end.

Definition validateFetchRequest (request : FetchRequest) : option error :=
  if (fq_Timeout request <=? 0) || (10 * Minute <? fq_Timeout request) || (fq_MaxBytes request <? 1) ||
     (Z.shiftl 64 20 <? fq_MaxBytes request) || (Z.of_nat (length (fq_ContentTypes request)) =? 0)
  then Some (feedError feed.ErrPolicy None)
  else if negb (validConditional (fq_ETag request) 256) || negb (validConditional (fq_LastModified request) 128)
  then Some (feedError feed.ErrRequest None)
  else match (if String.eqb (fq_LastModified request) "" then Ok 0 else http_ParseTime (fq_LastModified request)) with
       | Err e => Some (feedError feed.ErrRequest (Some e))
       | Ok _ =>
           if existsb (fun contentType => String.eqb (trim_space contentType) "" || hasHeaderControl contentType)
                (fq_ContentTypes request)
           then Some (feedError feed.ErrPolicy None) else None
       end.

(** ** The client *)

(** One exchange with the network, and the clock. *)
Class HttpNet (W : Type) : Type := {
  h_RoundTrip : HttpRequest -> M W error HttpResponse;
  h_Now : W -> Time * W }.

Section Fetch.
Context {W : Type} `{!HttpNet W}.
Context (f : Fetcher).

Definition errLocation : error := Foreign "failed to parse Location header".
Definition errTurns : error := Foreign "out of turns".

(** [redirectBehavior] of a request without a body. *)
Definition is_redirect (status : Z) : bool :=
  bool_decide (status ∈ [301; 302; 303; 307; 308]).

(** The request that follows a redirect: the first one's header and the
    referrer. *)
Definition redirected (first : HttpRequest) (previous : HttpRequest) (u : url) : HttpRequest :=
  let referer := url_Referer (hq_URL previous) u in
  MkHttpRequest u (if String.eqb referer "" then hq_Header first else header_Set (hq_Header first) "Referer" referer)
    (hq_Timeout first).

(** [Client.Do]: one exchange for each turn; the policy lets no more than
    [maxRedirects] redirects pass. *)
Fixpoint client_turns (turns : nat) (first : HttpRequest) (via : list HttpRequest) (request : HttpRequest)
  : M W error HttpResponse :=
  match turns with
  | O => mfail errTurns
  | S turns =>
      let! response := h_RoundTrip request in
      let location := header_Get (hp_Header response) "Location" in
      if negb (is_redirect (hp_Status response)) || String.eqb location "" then mok response
      else match url_Resolve (hq_URL request) location with
           | None => mfail errLocation
           | Some u =>
               let next := redirected first request u in
               let via := via ++ [request] in
               match redirectPolicy (fx_maxRedirects f) (fx_allowHTTP f) next via with
               | Some e => mfail e
               | None => client_turns turns first via next
               end
           end
  end.

Definition client_Do (request : HttpRequest) : M W error HttpResponse :=
  client_turns (S (Z.to_nat (fx_maxRedirects f))) request [] request.

(** The request that is sent. *)
Definition http_request (request : FetchRequest) (u : url) : HttpRequest :=
  let header := [("User-Agent", fx_userAgent f); ("Accept", String.concat ", " (fq_ContentTypes request))] in
  let header := if String.eqb (fq_ETag request) "" then header else header_Set header "If-None-Match" (fq_ETag request) in
  let header := if String.eqb (fq_LastModified request) "" then header
                else header_Set header "If-Modified-Since" (fq_LastModified request) in
  MkHttpRequest u header (fq_Timeout request).

(** [io.ReadAll] of at most one byte more than the limit. *)
Definition read_limited (maxBytes : Z) (response : HttpResponse) : result error string :=
  if maxBytes <? len (hp_Body response) then Ok (String.substring 0 (Z.to_nat (maxBytes + 1)) (hp_Body response))
  else match hp_BodyError response with Some e => Err e | None => Ok (hp_Body response) end.

(** What [Fetch] makes of a response. *)
Definition take_response (request : FetchRequest) (response : HttpResponse) : M W error FetchResult :=
  match responseValidators (hp_Header response) with
  | Err e => mfail e
  | Ok (etag, lastModified) =>
      if hp_Status response =? 304 then mok (MkFetchResult "" true etag lastModified "")
      else if negb (hp_Status response =? 200) then
        fun w => let '(now, w) := h_Now w in
                 (Err (statusError (parseRetryAfter (header_Get (hp_Header response) "Retry-After") now)), w)
      else if fq_MaxBytes request <? hp_ContentLength response then mfail (feedError feed.ErrBodySize None)
      else if negb (allowedContentType (header_Get (hp_Header response) "Content-Type") (fq_ContentTypes request))
      then mfail (feedError feed.ErrContentType None)
      else match read_limited (fq_MaxBytes request) response with
           | Err e => mfail (feedError feed.ErrRequest (Some e))
           | Ok body =>
               if fq_MaxBytes request <? len body then mfail (feedError feed.ErrBodySize None)
               else if looksLikeHTML body then mfail (feedError feed.ErrHTML None)
               else mok (MkFetchResult body false etag lastModified (sha256_hex body))
           end
  end.

Definition fetch_error (e : error) : error :=
  if is_SSRFBlocked e then feedError feed.ErrSSRF (Some e)
  else if is_Redirect e then feedError feed.ErrRedirect (Some e)
  else feedError feed.ErrRequest (Some e).

Definition Fetch (request : FetchRequest) : M W error FetchResult :=
  if negb (fetcher_validUserAgent (fx_userAgent f)) then mfail (feedError feed.ErrPolicy None)
  else match validateFetchRequest request with
       | Some e => mfail e
       | None =>
           match validateFetchURL (fq_URL request) (fx_allowHTTP f) with
           | Err e => mfail (if is_SSRFBlocked e then feedError feed.ErrSSRF (Some e) else e)
           | Ok parsed =>
               match url_Parse (url_String parsed) with
               | Err e => mfail (feedError feed.ErrRequest (Some e))
               | Ok u =>
                   let~ r := client_Do (http_request request u) in
                   match r with
                   | Err e => mfail (fetch_error e)
                   | Ok response => take_response request response
                   end
               end
           end
       end.

#[export] Instance fetcher_client : FetchClient W := { f_Fetch := Fetch }.
End Fetch.
End Http.
