(* ===== verification/FetcherRun.v ===== *)
(** * What the fetcher reaches, and what it returns

    Every address a fetch dials is safe, however the transport uses its
    connections; every request it sends passed the checks of its URL; and what
    it returns is within the limits of its request and can be stored and sent
    back. *)

From S2P Require Export Fetcher.

(** ** Safe addresses *)

(** A host outside the special-purpose ranges. *)
Definition public_host (a : Addr) : Prop :=
  IsGlobalUnicast (withoutZone (Unmap a)) = true /\
  forall s, In s safetyPrefixes -> Contains s (withoutZone (Unmap a)) = false.

Definition host_prefix (a : Addr) : Prefix := PrefixFrom (Unmap a) (BitLen (Unmap a)).

Lemma host_prefix_spec a : addr_wf a -> Unmap a <> AddrZero ->
  prefix_wf (host_prefix a) /\ Contains (host_prefix a) (withoutZone (Unmap a)) = true /\
  p_addr (host_prefix a) = withoutZone (Unmap a).
Proof.
  intros Hwf Hz. assert (Ha : a <> AddrZero) by (by intros ->). apply Unmap_wf in Hwf as [Hwf _]; [| done]. unfold host_prefix. destruct (Unmap a) as [| v | v z]; [done | |].
  all: unfold PrefixFrom; rewrite bool_decide_eq_false_2 by done; cbn [negb andb BitLen withoutZone].
  all: split; [unfold prefix_wf, addr_wf in *; cbn in *; repeat split; try done; lia |].
  all: unfold Contains; cbn; rewrite Z.lxor_nilpotent; done.
Qed.

Lemma safeAddress_public a : addr_wf a -> safeAddress a = true -> public_host a.
Proof.
  intros Hwf Hs. unfold safeAddress in Hs. fold (host_prefix a) in Hs.
  destruct (decide (Unmap a = AddrZero)) as [Ez | Hz].
  { exfalso. unfold host_prefix in Hs. rewrite Ez in Hs. vm_compute in Hs. done. }
  destruct (host_prefix_spec a Hwf Hz) as (Hp & Hc & Ha). apply IsSafePrefix_sound_complete in Hs as (_ & Hg & Hr); [| done].
  rewrite Ha in Hg. split; [done |]. intros s Hin. apply (Hr s); [done | | | done].
  - rewrite <- Ha. apply Hp.
  - rewrite <- Ha. apply Hp.
Qed.

(** ** The log of what is dialled *)

(** The text of a host that may be dialled. *)
Definition safe_target (text : string) : Prop :=
  exists a port, text = JoinHostPort (addr_String a) port /\ public_host a.

Section Dials.
Context {W C : Type} {netw : DialNet W C}.

(** The world with the texts that were dialled; a connection keeps the text it
    was dialled with. *)
#[export] Instance logged_dials : DialNet (W * list string) (string * C) := {
  n_LookupNetIP t host s := let '(r, w) := n_LookupNetIP (C := C) t host s.1 in (r, (w, s.2));
  n_DialContext t network text s :=
    let '(r, w) := n_DialContext (C := C) t network text s.1 in
    (match r with Ok c => Ok (text, c) | Err e => Err e end, (w, s.2 ++ [text])) }.

(** The resolver answers with addresses. *)
Definition resolver_wf : Prop :=
  forall t host w l w', n_LookupNetIP (C := C) t host w = (Ok l, w') -> Forall addr_wf l.

(** A call dials safe targets only, no more than [n] of them, and connects to
    the last one it dialled. *)
Definition dials_safely (n : nat) (m : M (W * list string) error (string * C)) : Prop :=
  forall w log, exists dialled,
    (m (w, log)).2.2 = log ++ dialled /\ (length dialled <= n)%nat /\ Forall safe_target dialled /\
    match (m (w, log)).1 with Ok c => list.last dialled = Some c.1 | Err _ => True end.

Lemma dial_first_safely d network port addresses e :
  Forall public_host addresses -> dials_safely (length addresses) (dial_first d network port addresses e).
Proof.
  intros Ha. revert e. induction Ha as [| a addresses Hp _ IH]; intros e w log; cbn [dial_first].
  { exists []. by rewrite app_nil_r. }
  unfold mtry. cbn [n_DialContext logged_dials fst snd].
  destruct (n_DialContext _ _ _ w) as [[c | e'] w'].
  - exists [JoinHostPort (addr_String a) port]. cbn. split; [done | split; [lia | split; [| done]]].
    constructor; [by exists a, port | constructor].
  - destruct (IH e' w' (log ++ [JoinHostPort (addr_String a) port])) as (dialled & -> & Hl & Hs & Hr).
    exists (JoinHostPort (addr_String a) port :: dialled). rewrite <- app_assoc. split; [done | split; [cbn; lia | split]].
    + constructor; [by exists a, port | done].
    + destruct (dial_first _ _ _ _ _ _) as [[c | e2] s]; [| done]. cbn in *. destruct dialled; [done | exact Hr].
Qed.

Lemma dials_nothing n e : dials_safely n (mfail e).
Proof. intros w log. exists []. rewrite app_nil_r. cbn. split; [done | split; [lia | done]]. Qed.

(** The dialer of the fetcher reaches no address that is not public, and gives
    up if any address of a host is not, whatever the resolver answers. *)
Theorem DialContext_safe d network address : resolver_wf -> dials_safely 16 (DialContext d network address).
Proof.
  intros Hwf. unfold DialContext. destruct (SplitHostPort address) as [[host port] |]; [| apply dials_nothing].
  intros w log. unfold mthen.
  assert (Hr : exists r w', resolve d host (w, log) = (r, (w', log)) /\
            match r with Ok l => Forall addr_wf l | Err _ => True end).
  { unfold resolve. destruct (ParseAddr host) as [a |] eqn:E.
    - exists (Ok [Unmap a]), w. split; [done |]. constructor; [| constructor].
      apply ParseAddr_wf in E as [Ha Hz]. by apply Unmap_wf.
    - cbn. destruct (n_LookupNetIP _ host w) as [[l | e] w'] eqn:El; [| by exists (Err e), w'].
      exists (Ok l), w'. split; [done | by eapply Hwf]. }
  destruct Hr as (r & w' & -> & Hl). destruct r as [l | e]; [| by apply (dials_nothing 16 e w' log)].
  destruct (_ || _) eqn:En; [apply (dials_nothing 16 _ w' log) |].
  destruct (forallb safeAddress l) eqn:Es; cbn [negb]; [| apply (dials_nothing 16 _ w' log)].
  destruct (dial_first_safely d network port l errSSRFBlocked) with (w := w') (log := log) as (ds & H1 & H2 & H3 & H4).
  - apply List.Forall_forall. intros a Hin. rewrite forallb_forall in Es. apply safeAddress_public; [| by apply Es].
    rewrite List.Forall_forall in Hl. by apply Hl.
  - exists ds. split; [done | split; [| done]]. apply orb_false_iff in En as [_ En]. lia.
Qed.
End Dials.

(** ** Whatever the transport does *)

(** The transport of [net/http] reaches the network only through the dialer it
    was given; when it dials, which of its connections it uses and how often it
    tries again is its own affair.  A plan is any such behaviour for one
    request: connections are named by their number in the pool. *)
Inductive plan : Type :=
| Return (r : result error HttpResponse)
| Dial (network address : string) (k : option error -> plan)
| Exchange (i : nat) (k : result error HttpResponse -> plan).

Class Transporter (lib : HttpLibrary) (W C : Type) : Type := {
  tr_plan : HttpRequest -> W -> plan;
  tr_exchange : C -> HttpRequest -> M W error HttpResponse;
  tr_Now : W -> Time * W }.

(** The network with what was dialled, the pool of the connections with the
    text each was dialled with, and the texts of those that were used. *)
Record TW (W C : Type) : Type := MkTW {
  tw_net : W * list string; tw_pool : list (string * C); tw_used : list string }.
Arguments MkTW {W C}.
Arguments tw_net {W C}.
Arguments tw_pool {W C}.
Arguments tw_used {W C}.

Section Transport.
Context {lib : HttpLibrary} {zone : LocalZone} {W C : Type} {netw : DialNet W C} {tr : Transporter lib W C}.
Context (f : Fetcher).

Definition errNoConnection : error := Foreign "no such connection".

Fixpoint run_transport (request : HttpRequest) (p : plan) (s : TW W C) : result error HttpResponse * TW W C :=
  match p with
  | Return r => (r, s)
  | Dial network address k =>
      match DialContext (fx_dialer f) network address (tw_net s) with
      | (Ok c, net) => run_transport request (k None) (MkTW net (tw_pool s ++ [c]) (tw_used s))
      | (Err e, net) => run_transport request (k (Some e)) (MkTW net (tw_pool s) (tw_used s))
      end
  | Exchange i k =>
      match tw_pool s !! i with
      | None => run_transport request (k (Err errNoConnection)) s
      | Some (text, c) =>
          let '(r, w) := tr_exchange c request (tw_net s).1 in
          run_transport request (k r) (MkTW (w, (tw_net s).2) (tw_pool s) (tw_used s ++ [text]))
      end
  end.

#[export] Instance dialed_net : HttpNet (TW W C) := {
  h_RoundTrip request s := run_transport request (tr_plan request (tw_net s).1) s;
  h_Now s := let '(t, w) := tr_Now (tw_net s).1 in (t, MkTW (w, (tw_net s).2) (tw_pool s) (tw_used s)) }.

(** All that was dialled, is connected and was used is safe. *)
Definition network_safe (s : TW W C) : Prop :=
  Forall safe_target (tw_net s).2 /\ Forall (fun c : string * C => safe_target c.1) (tw_pool s) /\
  Forall safe_target (tw_used s).

Lemma run_transport_safe request p : resolver_wf (netw := netw) -> forall s, network_safe s -> network_safe (run_transport request p s).2.
Proof.
  intros Hwf. induction p as [r | network address k IH | i k IH]; intros s (Hd & Hp & Hu); cbn [run_transport]; [done | |].
  - destruct s as [[w log] pool used]. cbn [tw_net tw_pool tw_used fst snd] in *.
    destruct (DialContext_safe (fx_dialer f) network address Hwf w log) as (ds & H1 & _ & H3 & H4).
    destruct (DialContext _ _ _ _) as [[c | e] [w' log']]; cbn [fst snd] in *; subst log'; apply IH;
      (split; [by apply Forall_app | split; cbn [tw_pool tw_used]; [| done]]).
    + apply Forall_app. split; [done |]. constructor; [| constructor].
      rewrite List.Forall_forall in H3. apply H3. apply list_elem_of_In, last_Some_elem_of. exact H4.
    + done.
  - destruct (tw_pool s !! i) as [[text c] |] eqn:E; [| by apply IH].
    destruct (tr_exchange _ _ _) as [r w]. apply IH. split; [done | split; [done |]]. cbn [tw_used].
    apply Forall_app. split; [done |]. constructor; [| constructor].
    apply list_elem_of_lookup_2, list_elem_of_In in E. rewrite List.Forall_forall in Hp. exact (Hp _ E).
Qed.
End Transport.

(** ** The requests of a fetch *)

Section Requests.
Context {lib : HttpLibrary} {zone : LocalZone} {W : Type} {net : HttpNet W}.
Context (f : Fetcher).

(** What every exchange and every look at the clock keeps, a fetch keeps. *)
Lemma client_turns_keeps (P : W -> Prop) :
  (forall r w, P w -> P (h_RoundTrip r w).2) ->
  forall turns first via request w, P w -> P (client_turns f turns first via request w).2.
Proof.
  intros Hr. induction turns as [| turns IH]; intros first via request w Hw; cbn [client_turns]; [done |].
  unfold mthen. specialize (Hr request w Hw). destruct (h_RoundTrip request w) as [[response | e] w']; cbn [snd] in *; [| done].
  destruct (_ || _); [done |]. destruct (url_Resolve _ _) as [u |]; [| done].
  destruct (redirectPolicy _ _ _ _); [done |]. by apply IH.
Qed.

Lemma take_response_keeps (P : W -> Prop) request response w :
  (forall w, P w -> P (h_Now w).2) -> P w -> P (take_response request response w).2.
Proof.
  intros Hn Hw. unfold take_response. destruct (responseValidators _) as [[etag lm] | e]; [| done].
  destruct (_ =? 304); [done |]. destruct (negb (_ =? 200)).
  { specialize (Hn w Hw). destruct (h_Now w). done. }
  repeat case_match; done.
Qed.

Lemma Fetch_keeps (P : W -> Prop) request w :
  (forall r w, P w -> P (h_RoundTrip r w).2) -> (forall w, P w -> P (h_Now w).2) -> P w -> P (Fetch f request w).2.
Proof.
  intros Hr Hn Hw. unfold Fetch. destruct (negb _); [done |]. destruct (validateFetchRequest _); [done |].
  destruct (validateFetchURL _ _) as [parsed | e]; [| done]. destruct (url_Parse _) as [u | e]; [| done].
  unfold mtry. pose proof (client_turns_keeps P Hr (S (Z.to_nat (fx_maxRedirects f))) (http_request f request u) []
    (http_request f request u) w Hw) as Hc. unfold client_Do.
  destruct (client_turns _ _ _ _ _ w) as [[response | e] w']; cbn [snd] in *; [by apply take_response_keeps | done].
Qed.
End Requests.

(** C5: Whatever the transport does with its connections, and whatever the
    resolver and the servers answer, a fetch dials only hosts outside the
    special-purpose ranges, and sends nothing over any other connection. *)
Theorem Fetch_reaches_public_hosts {lib : HttpLibrary} {zone : LocalZone} {W C : Type} {netw : DialNet W C}
  {tr : Transporter lib W C} (f : Fetcher) (request : FetchRequest) (s : TW W C)
  (Hresolver : resolver_wf (netw := netw)) (Hs : network_safe s) :
  network_safe (@Fetch lib zone _ (dialed_net f) f request s).2.
Proof.
  apply (Fetch_keeps (net := dialed_net f) f network_safe); [| | done].
  - intros r w Hw. by apply run_transport_safe.
  - intros w Hw. cbn. by destruct (tr_Now _).
Qed.

(** ** Redirects *)

Section Redirects.
Context {lib : HttpLibrary} {zone : LocalZone} {W : Type} {net : HttpNet W}.
Context (f : Fetcher).

(** The world with the requests that were sent. *)
#[export] Instance logged_net : HttpNet (W * list HttpRequest) := {
  h_RoundTrip request s := let '(r, w) := h_RoundTrip request s.1 in (r, (w, s.2 ++ [request]));
  h_Now s := let '(t, w) := h_Now s.1 in (t, (w, s.2)) }.

(** The next request passed the checks of a feed's URL and did not leave
    HTTPS. *)
Definition follows_safely (previous next : HttpRequest) : Prop :=
  exists parsed, validateFetchURL (url_String (hq_URL next)) (fx_allowHTTP f) = Ok parsed /\
    (u_scheme (hq_URL previous) = "https" -> u_scheme parsed = "https").

(** The header of the first request, with a referrer of its own. *)
Definition same_header (first next : HttpRequest) : Prop :=
  forall key, key <> "Referer" -> header_Get (hq_Header next) key = header_Get (hq_Header first) key.

Definition redirect_chain (sent : list HttpRequest) : Prop :=
  (forall i p n, sent !! i = Some p -> sent !! S i = Some n -> follows_safely p n) /\
  (forall p n, head sent = Some p -> n ∈ sent -> same_header p n).

Lemma header_Set_other h key value key' : key' <> key -> header_Get (header_Set h key value) key' = header_Get h key'.
Proof.
  intros Hne. unfold header_Set. induction h as [| [k v] h IH]; cbn.
  - destruct (String.eqb_spec key key'); [by subst | done].
  - destruct (String.eqb_spec k key) as [-> | Hk]; cbn; [by destruct (String.eqb_spec key key') |].
    destruct (String.eqb k key'); [done | exact IH].
Qed.

Lemma redirected_header first previous u : same_header first (redirected first previous u).
Proof.
  intros key Hk. unfold redirected. cbn [hq_Header]. destruct (String.eqb _ ""); [done | by apply header_Set_other].
Qed.

Lemma redirectPolicy_follows_safely request via previous :
  redirectPolicy (fx_maxRedirects f) (fx_allowHTTP f) request (via ++ [previous]) = None ->
  Z.of_nat (length via) + 1 <= fx_maxRedirects f /\ follows_safely previous request.
Proof.
  unfold redirectPolicy. rewrite last_snoc, length_app, Nat2Z.inj_add. cbn [length]. destruct (_ <? _) eqn:El; [done |]. apply Z.ltb_ge in El.
  destruct (validateFetchURL _ _) as [parsed | e] eqn:Ev; [| done]. intros H. split; [lia |].
  exists parsed. split; [done |]. intros Hs. rewrite Hs in H. cbn in H.
  destruct (String.eqb_spec (u_scheme parsed) "https"); done.
Qed.

Lemma client_turns_sent turns : forall first via request w log,
  Z.of_nat (length via) <= Z.max 0 (fx_maxRedirects f) -> same_header first request ->
  exists sent, (client_turns f turns first via request (w, log)).2.2 = log ++ sent /\
    (length sent <= turns)%nat /\ Z.of_nat (length via) + Z.of_nat (length sent) <= Z.max 0 (fx_maxRedirects f) + 1 /\
    (turns <> 0%nat -> head sent = Some request) /\
    (forall i p n, sent !! i = Some p -> sent !! S i = Some n -> follows_safely p n) /\
    Forall (same_header first) sent.
Proof.
  induction turns as [| turns IH]; intros first via request w log Hvia Hh; cbn [client_turns].
  { exists []. rewrite app_nil_r. cbn [length].
    split; [done |]. split; [lia |]. split; [lia |]. split; [done |]. split; [by intros i p n | constructor]. }
  unfold mthen. cbn [h_RoundTrip logged_net fst snd].
  assert (Hone : exists sent, log ++ [request] = log ++ sent /\ (length sent <= S turns)%nat /\
    Z.of_nat (length via) + Z.of_nat (length sent) <= Z.max 0 (fx_maxRedirects f) + 1 /\
    (S turns <> 0%nat -> head sent = Some request) /\
    (forall i p n, sent !! i = Some p -> sent !! S i = Some n -> follows_safely p n) /\ Forall (same_header first) sent).
  { exists [request]. cbn [length].
    split; [done |]. split; [lia |]. split; [lia |]. split; [done |]. split; [by intros [| i] p n | by constructor]. }
  destruct (h_RoundTrip request w) as [[response | e] w']; [| exact Hone].
  destruct (_ || _); [exact Hone |]. destruct (url_Resolve _ _) as [u |]; [| exact Hone].
  destruct (redirectPolicy _ _ _ _) eqn:Ep; [exact Hone |]. clear Hone.
  apply redirectPolicy_follows_safely in Ep as [Hlen Hf].
  destruct (IH first (via ++ [request]) (redirected first request u) w' (log ++ [request])) as (sent & H1 & H2 & H3 & H4 & H5 & H6).
  { rewrite length_app, Nat2Z.inj_add. cbn [length]. lia. }
  { apply redirected_header. }
  exists (request :: sent). rewrite length_app, Nat2Z.inj_add in H3. cbn [length] in *. rewrite H1, <- app_assoc.
  split; [done |]. split; [lia |]. split; [lia |]. split; [done |]. split; [| by constructor].
  intros [| i] p n; cbn; [| apply H5]. intros [= <-] Hn. destruct sent as [| next sent]; [done |].
  injection Hn as <-. destruct turns; [cbn in H2; lia |]. injection (H4 ltac:(done)) as ->. exact Hf.
Qed.

(** More turns change nothing: the policy ends the loop before they run out. *)
Lemma client_turns_enough turns more : forall first via request (w : W),
  Z.of_nat (length via) <= fx_maxRedirects f < Z.of_nat (length via) + Z.of_nat turns ->
  client_turns f (turns + more) first via request w = client_turns f turns first via request w.
Proof.
  induction turns as [| turns IH]; intros first via request w Hlen; [lia |].
  cbn [client_turns Nat.add]. unfold mthen. destruct (h_RoundTrip request w) as [[response | e] w']; [| done].
  destruct (_ || _); [done |]. destruct (url_Resolve _ _) as [u |]; [| done].
  destruct (redirectPolicy _ _ _ _) eqn:Ep; [done |]. apply redirectPolicy_follows_safely in Ep as [Hl _].
  apply IH. rewrite length_app, Nat2Z.inj_add. cbn [length]. lia.
Qed.

(** The first request of a fetch: the checked URL, with the validators. *)
Definition first_request (request : FetchRequest) (r : HttpRequest) : Prop :=
  exists parsed u, validateFetchURL (fq_URL request) (fx_allowHTTP f) = Ok parsed /\ url_Parse (url_String parsed) = Ok u /\
    r = http_request f request u.

Lemma Fetch_sent request w log :
  0 <= fx_maxRedirects f ->
  exists sent, (Fetch f request (w, log)).2.2 = log ++ sent /\ Z.of_nat (length sent) <= fx_maxRedirects f + 1 /\
    (forall r, head sent = Some r -> first_request request r) /\ redirect_chain sent.
Proof.
  intros Hmax. unfold Fetch.
  assert (Hnone : exists sent, log = log ++ sent /\ Z.of_nat (length sent) <= fx_maxRedirects f + 1 /\
    (forall r, head sent = Some r -> first_request request r) /\ redirect_chain sent).
  { exists []. rewrite app_nil_r. cbn [length].
    split; [done |]. split; [lia |]. split; [done |]. split; [by intros i p n | by intros p n]. }
  destruct (negb _); [exact Hnone |]. destruct (validateFetchRequest _); [exact Hnone |].
  destruct (validateFetchURL _ _) as [parsed | e] eqn:Ev; [| exact Hnone].
  destruct (url_Parse _) as [u | e] eqn:Eu; [| exact Hnone]. clear Hnone. unfold mtry.
  pose proof (client_turns_sent (S (Z.to_nat (fx_maxRedirects f))) (http_request f request u) [] (http_request f request u) w log)
    as Hc. fold (client_Do f (http_request f request u)) in Hc. unfold client_Do in *.
  destruct Hc as (sent & H1 & _ & H3 & H4 & H5 & H6); [cbn; lia | done |].
  cbn [length] in H3. specialize (H4 ltac:(done)).
  exists sent. split; [| split; [lia | split]].
  - destruct (client_turns _ _ _ _ _ _) as [[response | e] [w' log']]; cbn [fst snd] in *; [| done].
    rewrite <- H1. apply (take_response_keeps (fun s : W * list HttpRequest => s.2 = log')); [| done].
    intros [w2 l2]. cbn. by destruct (h_Now w2).
  - intros r Hr. rewrite H4 in Hr. injection Hr as <-. by exists parsed, u.
  - split; [exact H5 |]. intros p n Hp Hn. rewrite H4 in Hp. injection Hp as <-.
    rewrite List.Forall_forall in H6. apply H6. by apply list_elem_of_In.
Qed.
End Redirects.

(** The requests a fetch sends: the first for the checked URL of the feed,
    at most one for each redirect that is allowed besides it; each next one
    passed the same checks and did not leave HTTPS, with the header of the
    first; and the loop over the redirects ends by its own guard. *)
Theorem Fetch_requests {lib : HttpLibrary} {zone : LocalZone} {W : Type} {net : HttpNet W} (options : FetcherOptions)
  (f : Fetcher) (request : FetchRequest) (w : W) (log : list HttpRequest) (Hnew : NewFetcher options = Ok f) :
  (exists sent, (@Fetch lib zone _ logged_net f request (w, log)).2.2 = log ++ sent /\
     Z.of_nat (length sent) <= fo_MaxRedirects options + 1 <= 11 /\
     (forall r, head sent = Some r -> first_request f request r) /\ redirect_chain f sent) /\
  (forall first more, client_turns f (S (Z.to_nat (fx_maxRedirects f)) + more) first [] first w = client_Do f first w).
Proof.
  unfold NewFetcher in Hnew. destruct (_ || _) eqn:E; [done |]. rewrite !orb_false_iff in E.
  assert (Hmax : fx_maxRedirects f = fo_MaxRedirects options) by (by injection Hnew as <-).
  destruct E as ((((((_ & E2) & E3) & _) & _) & _) & _). split.
  - destruct (Fetch_sent f request w log) as (sent & H1 & H2 & H3 & H4); [lia |]. exists sent.
    split; [done | split; [lia | done]].
  - intros first more. unfold client_Do. apply client_turns_enough. cbn [length]. lia.
Qed.

(** ** Texts without control characters *)

(** What a rune leaves of the bytes: it takes at least the first, and no byte of
    its rest is ASCII. *)
Lemma decode_rune_ascii a l r ok rest : decode_rune (a :: l) = Some (r, ok, rest) ->
  (length rest <= length l)%nat /\
  forall b, byte_of b < 128 -> In b (a :: l) -> r = byte_of b \/ In b rest.
Proof.
  cbn [decode_rune]. destruct (byte_of a <? 128) eqn:Ea.
  { intros [= <- <- <-]. split; [lia |]. intros b _ [-> | Hin]; auto. }
  assert (Hbad : forall r, Some (RuneError, false, l) = Some (r, ok, rest) -> (length rest <= length l)%nat /\
    forall b, byte_of b < 128 -> In b (a :: l) -> r = byte_of b \/ In b rest).
  { intros r' [= _ _ <-]. split; [lia |]. intros b Hb [-> | Hin]; [lia | auto]. }
  assert (Hc : forall c, cont_byte c = true -> 128 <= byte_of c) by (unfold cont_byte, in_range; lia).
  assert (Hr : forall c lo hi, 128 <= lo -> in_range lo hi (byte_of c) = true -> 128 <= byte_of c) by (unfold in_range; lia).
  repeat case_match; subst; try apply Hbad; intros [= <- <- <-].
  all: repeat match goal with H : _ && _ = true |- _ => apply andb_true_iff in H as [? ?] end.
  all: repeat match goal with H : cont_byte _ = true |- _ => apply Hc in H end.
  all: try match goal with H : in_range _ _ (byte_of _) = true |- _ => apply Hr in H; [| lia] end.
  all: split; [cbn [length]; lia |]; intros b' Hb Hin; cbn [In] in Hin; intuition (subst; try lia; auto).
Qed.

Lemma runes_fuel_has n : forall l b, (length l <= n)%nat -> byte_of b < 128 -> In b l ->
  exists r, In r (runes_fuel n l) /\ r.1.1 = byte_of b.
Proof.
  induction n as [| n IH]; intros l b Hl Hb Hin; [by destruct l; [| cbn in Hl; lia] |].
  destruct l as [| a l]; [done |]. cbn [runes_fuel].
  destruct (decode_rune (a :: l)) as [[[r ok] rest] |] eqn:E.
  - apply decode_rune_ascii in E as [Hlen Hr]. destruct (Hr b Hb Hin) as [-> | Hin'].
    + eexists. split; [by left | done].
    + destruct (IH rest b) as (r' & Hr' & He); [cbn in Hl; lia | done | done |]. exists r'. split; [by right | done].
  - exfalso. cbn [decode_rune] in E. repeat case_match; discriminate.
Qed.

Lemma cut_byte_In c s p : cut_byte c s = Some p -> In c (String.list_ascii_of_string s).
Proof.
  revert p. induction s as [| d s IH]; intros p; cbn; [done |]. destruct (Ascii.eqb_spec d c) as [-> |]; [by left |].
  destruct (cut_byte c s) as [q |]; [| done]. intros _. right. by apply (IH q).
Qed.

(** What may be a header may be stored: it has no line break and no zero. *)
Lemma no_control_stored s max : validConditional s max = true -> validValidator s max = true.
Proof.
  unfold validConditional, validValidator. intros [-> Hc]%andb_true_iff. cbn [andb]. apply negb_true_iff in Hc.
  apply negb_true_iff, not_true_iff_false. unfold contains_any. intros (c & Hc' & Hin)%existsb_exists.
  unfold contains_byte in Hin. destruct (cut_byte c s) as [p |] eqn:E; [| done]. apply cut_byte_In in E.
  assert (Hb : byte_of c < 128 /\ is_control (byte_of c) && negb (byte_of c =? 9) = true).
  { destruct Hc' as [<- | [<- | [<- | []]]]; vm_compute; done. }
  destruct (runes_fuel_has (length (String.list_ascii_of_string s)) (String.list_ascii_of_string s) c) as (r & Hr & He);
    [lia | apply Hb | done |].
  apply not_true_iff_false in Hc. apply Hc. apply existsb_exists. exists r. split; [exact Hr |]. rewrite He. apply Hb.
Qed.

Definition plain_ascii (c : ascii) : bool := in_range 32 126 (byte_of c).

Lemma plain_no_control s : all_chars plain_ascii s = true -> hasHeaderControl s = false.
Proof.
  rewrite all_chars_forallb. unfold hasHeaderControl, runes. generalize (String.list_ascii_of_string s) as l.
  intros l. generalize (length l) as n. intros n. revert l. induction n as [| n IH]; intros l Hl; [done |].
  destruct l as [| a l]; [done |]. cbn [forallb] in Hl. apply andb_true_iff in Hl as [Ha Hl].
  unfold plain_ascii, in_range in Ha. cbn [runes_fuel decode_rune]. replace (byte_of a <? 128) with true by lia.
  cbn [existsb fst]. rewrite (IH l Hl). unfold is_control, in_range. lia.
Qed.

(** ** The dates that are sent *)

Lemma digit_plain z : 0 <= z <= 9 -> plain_ascii (digit_char z) = true.
Proof. intros [Hd _]%digit_char_spec. unfold is_digit, plain_ascii, in_range in *. lia. Qed.

Lemma two_digits_plain n : 0 <= n <= 99 -> all_chars plain_ascii (two_digits n) = true /\ len (two_digits n) = 2.
Proof.
  intros Hn. unfold two_digits. cbn [all_chars]. rewrite !digit_plain by dlia. done.
Qed.

Lemma name_plain tab i : Forall (fun s => all_chars plain_ascii s = true /\ len s = 3) tab ->
  0 <= i < Z.of_nat (length tab) -> all_chars plain_ascii (name_at tab i) = true /\ len (name_at tab i) = 3.
Proof.
  intros Ht Hi. unfold name_at. destruct (lookup_lt_is_Some_2 tab (Z.to_nat i)) as [s Hs]; [lia |]. rewrite Hs. cbn [default].
  apply list_elem_of_lookup_2, list_elem_of_In in Hs. rewrite List.Forall_forall in Ht. exact (Ht s Hs).
Qed.

Lemma len_app s t : len (s +:+ t) = len s + len t.
Proof. unfold len. rewrite <- Nat2Z.inj_add. f_equal. induction s as [| c s IH]; [done |].
  change (S (String.length (s +:+ t)) = S (String.length s + String.length t)). by rewrite IH. Qed.

Lemma Format_plain t : 0 <= cv_year (civil t) <= 9999 ->
  all_chars plain_ascii (Format_TimeFormat t) = true /\ len (Format_TimeFormat t) = 29.
Proof.
  intros Hy. destruct (civil_spec t) as (_ & Hmo & Hv & Hh & Hmi & Hs & Hw). unfold Format_TimeFormat, four_digit_year.
  set (c := civil t) in *. clearbody c.
  assert (Hday : 0 <= cv_day c <= 99).
  { unfold valid_day, in_range in Hv. pose proof (daysIn_pos (cv_month c) (cv_year c)). lia. }
  destruct (name_plain shortDayNames (cv_weekday c)) as [D1 D2]; [by repeat constructor | cbn; lia |].
  destruct (name_plain shortMonthNames (cv_month c - 1)) as [M1 M2]; [by repeat constructor | cbn; lia |].
  destruct (two_digits_plain (cv_day c)) as [E1 E2]; [lia |]. destruct (two_digits_plain (cv_hour c)) as [F1 F2]; [lia |].
  destruct (two_digits_plain (cv_min c)) as [G1 G2]; [lia |]. destruct (two_digits_plain (cv_sec c)) as [H1 H2]; [lia |].
  destruct (two_digits_plain (cv_year c / 100)) as [I1 I2]; [dlia |]. destruct (two_digits_plain (cv_year c mod 100)) as [J1 J2]; [dlia |].
  rewrite !all_chars_app, !len_app, D1, D2, M1, M2, E1, E2, F1, F2, G1, G2, H1, H2, I1, I2, J1, J2. done.
Qed.

(** ** What a fetch returns *)

Section Results.
Context {lib : HttpLibrary} {zone : LocalZone} {W : Type} {net : HttpNet W}.
Context (f : Fetcher).

(** The validators of a response. *)
Lemma responseValidators_spec header etag lm : zones_near zone -> responseValidators header = Ok (etag, lm) ->
  validConditional etag 256 = true /\ validConditional lm 128 = true /\
  (if String.eqb lm "" then Ok 0 else http_ParseTime lm) <> Err err_parse /\ exists t,
  (if String.eqb lm "" then Ok 0 else http_ParseTime lm) = Ok t.
Proof.
  intros Hz. unfold responseValidators. destruct (validConditional (header_Get header "Etag") 256) eqn:Ee; cbn [negb]; [| done].
  destruct (String.eqb _ ""); [intros [= <- <-]; split; [done | split; [done | split; [done | by exists 0]]] |].
  destruct (http_ParseTime _) as [t | e] eqn:Et; [| done]. intros [= <- <-]. split; [done |].
  assert (Hy : 0 <= cv_year (civil t) <= 9999).
  { apply (civil_year_bounds t 0 9999); [done | by eapply ParseTime_four_digits]. }
  destruct (Format_plain t Hy) as [Hp Hl].
  assert (Hc : validConditional (Format_TimeFormat t) 128 = true).
  { unfold validConditional. by rewrite Hl, plain_no_control. }
  assert (Hparse : (if String.eqb (Format_TimeFormat t) "" then Ok 0 else http_ParseTime (Format_TimeFormat t)) = Ok (t - t mod Second)).
  { destruct (String.eqb_spec (Format_TimeFormat t) "") as [E | _]; [by rewrite E in Hl | by apply ParseTime_Format]. }
  rewrite Hparse. split; [done | split; [done | by eexists]].
Qed.

(** The same request with the validators of a result, as the next run sends it. *)
Definition next_request (request : FetchRequest) (r : FetchResult) : FetchRequest :=
  MkFetchRequest (fq_URL request) (fq_Timeout request) (fq_MaxBytes request) (fq_ContentTypes request) (ft_ETag r)
    (ft_LastModified r).

(** What is returned for a response to a request. *)
Definition result_of (request : FetchRequest) (response : HttpResponse) (r : FetchResult) : Prop :=
  (ft_NotModified r = true /\ hp_Status response = 304 /\ ft_Body r = "" /\ ft_ContentHash r = "") \/
  (ft_NotModified r = false /\ hp_Status response = 200 /\ ft_Body r = hp_Body response /\ hp_BodyError response = None /\
   len (ft_Body r) <= fq_MaxBytes request /\ looksLikeHTML (ft_Body r) = false /\
   allowedContentType (header_Get (hp_Header response) "Content-Type") (fq_ContentTypes request) = true /\
   ft_ContentHash r = sha256_hex (ft_Body r)).

(** The result can be stored, and its validators sent with the next request. *)
Definition reusable (request : FetchRequest) (r : FetchResult) : Prop :=
  validValidator (ft_ETag r) 256 = true /\ validValidator (ft_LastModified r) 128 = true /\
  validateFetchRequest (next_request request r) = None.

Lemma substring_length n s : (n <= String.length s)%nat -> String.length (String.substring 0 n s) = n.
Proof.
  revert s. induction n as [| n IH]; intros [| c s] Hn; cbn in *; [done | done | lia |]. rewrite IH by lia. done.
Qed.

Lemma read_limited_spec maxBytes response body : 0 < maxBytes -> read_limited maxBytes response = Ok body ->
  len body <= maxBytes -> body = hp_Body response /\ hp_BodyError response = None.
Proof.
  intros Hm. unfold read_limited. destruct (_ <? _) eqn:E.
  - intros [= <-]. unfold len in *. rewrite substring_length by lia. lia.
  - destruct (hp_BodyError response); [done |]. by intros [= <-].
Qed.

Lemma validators_reusable request header r : zones_near zone -> validateFetchRequest request = None ->
  responseValidators header = Ok (ft_ETag r, ft_LastModified r) -> reusable request r.
Proof.
  intros Hz Hreq (He & Hl & _ & t & Ht)%responseValidators_spec; [| done].
  split; [by apply no_control_stored | split; [by apply no_control_stored |]].
  revert Hreq. unfold validateFetchRequest, next_request. cbn [fq_URL fq_Timeout fq_MaxBytes fq_ContentTypes fq_ETag fq_LastModified].
  destruct (_ || _); [done |]. rewrite He, Hl, Ht. cbn [negb orb].
  destruct (negb _ || negb _); [done |]. intros H. destruct (if String.eqb _ "" then _ else _) in H; [| done].
  exact H.
Qed.

Lemma take_response_spec request response w r w' : zones_near zone -> validateFetchRequest request = None ->
  take_response request response w = (Ok r, w') -> w' = w /\ result_of request response r /\ reusable request r.
Proof.
  intros Hz Hreq. unfold take_response. destruct (responseValidators _) as [[etag lm] | e] eqn:Ev; [| done].
  destruct (hp_Status response =? 304) eqn:E3.
  { apply Z.eqb_eq in E3. intros [= <- <-]. split; [done |]. split; [by left |].
    by eapply validators_reusable. }
  destruct (Z.eqb_spec (hp_Status response) 200) as [E2 | E2]; cbn [negb]; [| by destruct (h_Now w)].
  destruct (_ <? hp_ContentLength _); [done |].
  destruct (allowedContentType _ _) eqn:Ec; cbn [negb]; [| done].
  destruct (read_limited _ _) as [body | e] eqn:Er; [| done].
  destruct (_ <? len body) eqn:El; [done |]. destruct (looksLikeHTML body) eqn:Eh; [done |]. intros [= <- <-].
  split; [done |]. split; [| by eapply validators_reusable]. right. cbn.
  assert (Hm : 0 < fq_MaxBytes request).
  { unfold validateFetchRequest in Hreq. destruct (_ || _) eqn:E in Hreq; [done |]. rewrite !orb_false_iff in E. destruct E as (((_ & E) & _) & _). lia. }
  apply read_limited_spec in Er as [-> Hb]; [| done | lia]. apply Z.ltb_ge in El. by split_and!.
Qed.
End Results.

(** C14: A fetch that succeeds returns what the last response of its exchange
    holds: nothing for a 304, or the whole body of a 200 within the limit of the
    request, of an allowed type, not HTML, with its hash; and its validators can
    be stored and sent with the next request. *)
Theorem Fetch_result {lib : HttpLibrary} {zone : LocalZone} {W : Type} {net : HttpNet W} (f : Fetcher)
  (request : FetchRequest) (w w' : W) (r : FetchResult) (Hzone : zones_near zone)
  (Hok : Fetch f request w = (Ok r, w')) :
  exists u response, client_Do f (http_request f request u) w = (Ok response, w') /\
    result_of request response r /\ reusable request r.
Proof.
  revert Hok. unfold Fetch. destruct (negb _); [done |]. destruct (validateFetchRequest request) eqn:Ev; [done |].
  destruct (validateFetchURL _ _); [| done]. destruct (url_Parse _) as [u | e]; [| done]. unfold mtry.
  destruct (client_Do _ _ _) as [[response | e] w1] eqn:Ec; [| done]. intros Ht.
  apply take_response_spec in Ht as (-> & Hr & Hu); [| done | done]. by exists u, response.
Qed.

(** The categories of the errors of a fetch. *)
Definition fetch_category (c : feed.ErrorCategory) : bool :=
  match c with
  | feed.ErrPolicy | feed.ErrRequest | feed.ErrSSRF | feed.ErrRedirect | feed.ErrHTTPStatus | feed.ErrBodySize
  | feed.ErrContentType | feed.ErrHTML | feed.ErrResponseHeader => true
  | _ => false
  end.

Definition fetch_failure (e : error) : Prop :=
  exists c cause after, e = FeedError c cause after /\ fetch_category c = true /\ 0 <= after <= 24 * Hour /\
    (c <> feed.ErrHTTPStatus -> after = 0).

Lemma feedError_failure c cause : fetch_category c = true -> fetch_failure (feedError c cause).
Proof. intros Hc. exists c, cause, 0. by split_and!. Qed.
#[local] Hint Resolve feedError_failure : core.

Lemma parseRetryAfter_range {zone : LocalZone} value now : 0 <= parseRetryAfter value now <= 24 * Hour.
Proof.
  unfold parseRetryAfter. assert (0 <= 24 * Hour) by (vm_compute; done).
  assert (Hin : forall d, 0 <= (if (0 <? d) && (d <=? 24 * Hour) then d else 0) <= 24 * Hour).
  { intros d. destruct (_ && _) eqn:E; [to_prop; lia | lia]. }
  destruct (String.eqb _ _); [lia |]. destruct (atoi value); [apply Hin |].
  destruct (http_ParseTime value); [apply Hin | lia].
Qed.

Lemma validateFetchRequest_failure {zone : LocalZone} request e : validateFetchRequest request = Some e -> fetch_failure e.
Proof. unfold validateFetchRequest. intros H. repeat case_match; simplify_eq; auto. Qed.

Lemma take_response_failure {lib : HttpLibrary} {zone : LocalZone} {W : Type} {net : HttpNet W} request response (w : W) e :
  (take_response request response w).1 = Err e -> fetch_failure e.
Proof.
  unfold take_response. destruct (responseValidators _) as [[etag lm] | e1] eqn:Ev.
  2: { intros [= <-]. unfold responseValidators in Ev. repeat case_match; simplify_eq; auto. }
  destruct (_ =? 304); [done |]. destruct (negb (_ =? 200)).
  { destruct (h_Now w) as [now w1]. intros [= <-]. eexists feed.ErrHTTPStatus, _, _. split; [done |]. split; [done |].
    split; [apply parseRetryAfter_range | done]. }
  destruct (_ <? hp_ContentLength _); [intros [= <-]; auto |].
  destruct (negb _); [intros [= <-]; auto |]. destruct (read_limited _ _); [| intros [= <-]; auto].
  destruct (_ <? len _); [intros [= <-]; auto |]. destruct (looksLikeHTML _); [intros [= <-]; auto | done].
Qed.

(** Every error of a fetch is of a category of its own, and the delay a server
    asks for is at most a day. *)
Theorem Fetch_failure {lib : HttpLibrary} {zone : LocalZone} {W : Type} {net : HttpNet W} (f : Fetcher)
  (request : FetchRequest) (w : W) e : (Fetch f request w).1 = Err e -> fetch_failure e.
Proof.
  unfold Fetch. destruct (negb _); [intros [= <-]; auto |].
  destruct (validateFetchRequest request) eqn:Ev; [intros [= <-]; by eapply validateFetchRequest_failure |].
  destruct (validateFetchURL _ _) as [parsed | e1] eqn:Eu.
  2: { intros [= <-]. destruct (is_SSRFBlocked e1) eqn:Es; [auto |]. unfold validateFetchURL in Eu.
       repeat case_match; simplify_eq; auto. }
  destruct (url_Parse _) as [u | e1]; [| intros [= <-]; auto]. unfold mtry.
  destruct (client_Do _ _ _) as [[response | e1] w1]; [apply take_response_failure |].
  intros [= <-]. unfold fetch_error. repeat case_match; auto.
Qed.
