(* ===== verification/FetcherExamples.v ===== *)
(** * Fetches, evaluated

    A feed that is downloaded, a host that redirects to an internal address,
    and one that redirects for ever; the witnesses of the theorems on the
    fetcher. *)

From S2P Require Export FetcherRun.

(** ** Libraries *)

Definition ex_feed : string := "https://lists.example/drop.netset".
Definition ex_moved : string := "https://internal.example/drop.netset".

Definition ex_host (s : string) : string :=
  match cut_prefix "https://" s with
  | Some rest => match cut_byte "/" rest with Some (host, _) => host | None => rest end
  | None => ""
  end.

(** URLs as texts, all of them of HTTPS, and media types without parameters. *)
#[local] Instance text_urls : HttpLibrary := {
  url := string;
  url_ParseRequestURI s := if String.eqb (ex_host s) "" then Err (Foreign "url") else Ok s;
  url_Parse s := Ok s;
  url_Resolve _ s := Some s;
  url_String s := s;
  url_fields s := MkURL "https" (ex_host s) (ex_host s) false "";
  url_Address s := ex_host s +:+ ":443";
  url_Referer _ _ := "";
  mime_ParseMediaType s := Some s }.

#[local] Instance utc_only : LocalZone := { zone_offset _ _ := None }.
Lemma utc_only_near : zones_near utc_only.
Proof. done. Qed.

Definition ex_options : FetcherOptions :=
  MkFetcherOptions "crowdshield/test" 1 false (5 * Second) (5 * Second) (5 * Second) (5 * Second).
Definition ex_dialer : secureDialer := MkSecureDialer (5 * Second) (5 * Second).
Definition ex_fetcher : Fetcher := MkFetcher "crowdshield/test" 1 false ex_dialer.
Example ex_fetcher_new : NewFetcher ex_options = Ok ex_fetcher.
Proof. vm_compute. reflexivity. Qed.

Definition ex_fetch (etag lastModified : string) : FetchRequest :=
  MkFetchRequest ex_feed (30 * Second) 64 ["text/plain"] etag lastModified.

(** ** A redirect to an internal host *)

(** The resolver knows a public and an internal host; connections are host
    names. *)
#[local] Instance ex_resolver : DialNet unit string := {
  n_LookupNetIP _ host w :=
    (if String.eqb host "lists.example" then Ok [Addr4 134744072]
     else if String.eqb host "internal.example" then Ok [Addr4 134744072; Addr4 167772161] else Err (Foreign "dns"), w);
  n_DialContext _ _ text w := (Ok text, w) }.

Lemma ex_resolver_wf : resolver_wf (netw := ex_resolver).
Proof.
  intros t host w l w'. cbn. destruct (String.eqb host "lists.example"); [| destruct (String.eqb host "internal.example")].
  - intros [= <- _]. repeat constructor; vm_compute; done.
  - intros [= <- _]. repeat constructor; vm_compute; done.
  - done.
Qed.

(** It dials the host of each request, and the public one answers with a
    redirect to the internal one. *)
#[local] Instance ex_transport : Transporter text_urls unit string := {
  tr_plan request _ :=
    Dial "tcp" (url_Address (hq_URL request)) (fun e =>
      match e with Some e => Return (Err e) | None => Exchange 0 (fun r => Return r) end);
  tr_exchange _ _ w := (Ok (MkHttpResponse 302 [("Location", ex_moved)] 0 "" None), w);
  tr_Now w := (0, w) }.

Definition ex_idle : TW unit string := MkTW (tt, []) [] [].
Abbreviation ex_internal := (@Fetch text_urls utc_only _ (dialed_net ex_fetcher) ex_fetcher (ex_fetch "" "") ex_idle).

Example Fetch_reaches_public_hosts_witness :
  network_safe ex_internal.2 /\
  (tw_net ex_internal.2).2 = ["8.8.8.8:443"] /\ tw_used ex_internal.2 = ["8.8.8.8:443"] /\
  ex_internal.1 = Err (feedError feed.ErrSSRF (Some errSSRFBlocked)).
Proof.
  split; [| split; [vm_compute; reflexivity | split; vm_compute; reflexivity]].
  apply (Fetch_reaches_public_hosts ex_fetcher (ex_fetch "" "") ex_idle ex_resolver_wf).
  repeat split; constructor.
Defined.

(** ** A redirect for ever *)

(** Servers that answer every request alike. *)
#[local] Instance always (response : HttpResponse) : HttpNet unit := {
  h_RoundTrip _ w := (Ok response, w); h_Now w := (Unix 784111777, w) }.

Definition ex_redirect : HttpResponse := MkHttpResponse 307 [("Location", ex_feed)] 0 "" None.
Abbreviation ex_looping := (@Fetch text_urls utc_only _ (logged_net (net := always ex_redirect)) ex_fetcher (ex_fetch "v1" "") (tt, [])).

Example Fetch_requests_witness :
  (exists sent, ex_looping.2.2 = [] ++ sent /\ Z.of_nat (length sent) <= fo_MaxRedirects ex_options + 1 <= 11 /\
     (forall r, head sent = Some r -> first_request ex_fetcher (ex_fetch "v1" "") r) /\ redirect_chain ex_fetcher sent) /\
  length ex_looping.2.2 = 2%nat /\ ex_looping.1 = Err (feedError feed.ErrRedirect (Some errRedirect)).
Proof.
  split; [| split; vm_compute; reflexivity].
  exact (proj1 (Fetch_requests (net := always ex_redirect) ex_options ex_fetcher (ex_fetch "v1" "") tt [] ex_fetcher_new)).
Defined.

(** ** A download *)

Definition ex_download : HttpResponse :=
  MkHttpResponse 200 [("Content-Type", "Text/Plain"); ("Etag", "v2"); ("Last-Modified", "Sunday, 06-Nov-94 08:49:37 GMT")]
    (-1) "192.0.2.0/24" None.
Definition ex_downloaded : FetchResult :=
  MkFetchResult "192.0.2.0/24" false "v2" "Sun, 06 Nov 1994 08:49:37 GMT" (sha256_hex "192.0.2.0/24").

Example Fetch_result_witness :
  @Fetch text_urls utc_only _ (always ex_download) ex_fetcher (ex_fetch "" "") tt = (Ok ex_downloaded, tt) /\
  reusable (ex_fetch "" "") ex_downloaded.
Proof.
  assert (H : @Fetch text_urls utc_only _ (always ex_download) ex_fetcher (ex_fetch "" "") tt = (Ok ex_downloaded, tt))
    by (vm_compute; reflexivity).
  split; [exact H |].
  destruct (Fetch_result (net := always ex_download) ex_fetcher (ex_fetch "" "") tt tt ex_downloaded utc_only_near H)
    as (u & response & _ & _ & Hr).
  exact Hr.
Defined.

(** The product of a very large delay wraps around: such a header asks for less
    than a second. *)
Example retry_after_wraps : parseRetryAfter "18446744074" 0 = 290448384.
Proof. vm_compute. reflexivity. Qed.

(** A date that is read may ask for a delay too. *)
Example retry_after_date : parseRetryAfter "Sun, 06 Nov 1994 08:50:07 GMT" (Unix 784111777) = 30 * Second.
Proof. vm_compute. reflexivity. Qed.
