(* ===== verification/Metrics.v ===== *)
(** * Metrics ([internal/metrics/metrics.go])

    The registry of counters and gauges: what each observation adds to it, and
    the text it shows.  The shortest decimal text of a float is a parameter of
    the model. *)

From S2P Require Export Config Ops.

Definition metrics_ErrInvalidOptions : error := Foreign "invalid metrics options".
Definition metrics_ErrInvalidObservation : error := Foreign "invalid metrics observation".

Definition metrics_maxFeeds : Z := 256.
Definition maxGaugeCount : Z := 100000000.
Definition max_uint64 : Z := 2 ^ 64 - 1.

Definition Mode : Type := string.
Definition ModeEnforce : Mode := "enforce".
Definition ModeDryRun : Mode := "dry_run".

Definition modes : list Mode := [ModeEnforce; ModeDryRun].
Definition syncOutcomes : list Outcome := [OutcomeSuccess; OutcomeDegraded; OutcomeFailed; OutcomeCancelled].
Definition failureCategories : list FailureCategory :=
  [FailureConfig; FailureCredential; FailureFeedDownload; FailureFeedValidation; FailureLAPIAuth; FailureLAPI;
   FailureDatabase; FailureNotification; FailureOwnership; FailureTimeout; FailureCancelled; FailureRuntime;
   FailureInternal].
Definition notificationOutcomes : list Outcome := [OutcomeSuccess; OutcomeFailed; OutcomeDegraded].

(** ** The registry *)

(** [buildinfo.Info] *)
Record Info : Type := MkInfo {
  bi_Name : string; bi_Version : string; bi_Revision : string; bi_BuildDate : string; bi_GoVersion : string;
  bi_GOOS : string; bi_GOARCH : string }.

Record feedState : Type := MkFeedState {
  fs_lastSuccess : float64; fs_entries : Z; fs_downloadFailures : Z; fs_validationFailures : Z }.

Definition float_zero : float64 := S754_zero false.
Definition new_feed : feedState := MkFeedState float_zero 0 0 0.

Record Registry : Type := MkRegistry {
  rg_build : Info; rg_feeds : list string; rg_feed : gmap string feedState;
  rg_lastSyncAttempt : float64; rg_lastSyncSuccess : float64; rg_duration : gmap Mode float64;
  rg_durationAt : gmap Mode Time; rg_syncRuns : gmap string Z; rg_syncFailures : gmap FailureCategory Z;
  rg_activeDecisions : Z; rg_decisionsAdded : Z; rg_decisionsFresh : Z; rg_decisionsRemoved : Z; rg_entriesRejected : Z;
  rg_lapiRequests : gmap Outcome Z; rg_lapiFailures : gmap FailureCategory Z; rg_databaseFailures : Z;
  rg_notifications : gmap Outcome Z }.

Definition is_alnum (c : ascii) : bool := is_digit c || is_lower c || in_range 65 90 (byte_of c).

(** [^[A-Za-z0-9][A-Za-z0-9._+:/-]{0,63}$] *)
Definition buildLabelPattern (s : string) : bool :=
  match s with
  | String c s' =>
      is_alnum c && all_chars (fun d => is_alnum d || existsb (Ascii.eqb d) ["."; "_"; "+"; ":"; "/"; "-"]%char) s' &&
      (len s' <=? 63)
  | EmptyString => false
  end.

(** [net.ParseIP] and [net.ParseCIDR] accept the text. *)
Definition parses_ip (s : string) : bool :=
  match ParseAddr s with Some a => String.eqb (Zone a) "" | None => false end.
Definition parses_cidr (s : string) : bool :=
  match cut_byte "/" s with
  | Some (addr, mask) =>
      match ParseAddr addr, digits_value mask with
      | Some a, Some n => String.eqb (Zone a) "" && (n <=? BitLen a)
      | _, _ => false
      end
  | None => false
  end.

(** The pattern admits ASCII only, where [strings.ToLower] is [lower_char] on
    each byte. *)
Fixpoint lower_text (s : string) : string :=
  match s with String c s' => String (lower_char c) (lower_text s') | EmptyString => "" end.

Definition safeBuildLabel (value : string) : string :=
  if negb (buildLabelPattern value) then "unknown"
  else if existsb (fun forbidden => contains_text forbidden (lower_text value))
            ["password"; "token"; "secret"; "bearer"; "jwt"; "canary"; "://"] then "unknown"
  else if parses_ip value then "unknown"
  else if parses_cidr value then "unknown"
  else
    let parts := split_on "." "" value in
    if (Z.of_nat (length parts) =? 3) && forallb (fun part => 8 <=? len part) parts then "unknown" else value.

Definition sanitizeBuild (info : Info) : Info :=
  MkInfo "crowdshield" (safeBuildLabel (bi_Version info)) (safeBuildLabel (bi_Revision info)) "unknown"
    (safeBuildLabel (bi_GoVersion info)) (safeBuildLabel (bi_GOOS info)) (safeBuildLabel (bi_GOARCH info)).

Fixpoint add_feeds (feeds : list string) (m : gmap string feedState) : option (gmap string feedState) :=
  match feeds with
  | [] => Some m
  | name :: rest =>
      if negb (ValidFeedName name) then None
      else if bool_decide (is_Some (m !! name)) then None
      else add_feeds rest (<[name := new_feed]> m)
  end.

Definition metrics_New (build : Info) (feeds : list string) : result error Registry :=
  if metrics_maxFeeds <? Z.of_nat (length feeds) then Err metrics_ErrInvalidOptions
  else
    let feeds := sort_func cmp_string feeds in
    match add_feeds feeds ∅ with
    | None => Err metrics_ErrInvalidOptions
    | Some states =>
        Ok (MkRegistry (sanitizeBuild build) feeds states float_zero float_zero ∅ ∅ ∅ ∅ 0 0 0 0 0 ∅ ∅ 0 ∅)
    end.

(** ** Observations *)

Definition validMode (mode : Mode) : bool := String.eqb mode ModeEnforce || String.eqb mode ModeDryRun.

Definition runKey (mode : Mode) (outcome : Outcome) : string := mode +:+ String "000" outcome.

(** The saturating sum of a [uint64] and an [int64]. *)
Definition add_count (current value : Z) : Z :=
  if value <=? 0 then current else if max_uint64 - current <? value then max_uint64 else current + value.

(** [m[k] = add(m[k], v)] *)
Definition add_at (k : string) (value : Z) (m : gmap string Z) : gmap string Z := <[k := add_count (default 0 (m !! k)) value]> m.

(** [Time.UnixNano]; undefined outside the range of an [int64], where it wraps
    around. *)
Definition UnixNano (t : Time) : Z := int64_wrap (t - unix_epoch * Second).

Definition laterUnix (current : float64) (candidate : Time) : float64 :=
  let value := float_div (float_of_int (UnixNano candidate)) (float_of_int Second) in
  if float_lt current value then value else current.

(** [Duration.Seconds] of a duration that is not negative. *)
Definition Seconds (d : Duration) : float64 :=
  SFadd 53 1024 (float_of_int (d / Second)) (float_div (float_of_int (d mod Second)) (float_of_int Second)).

Definition metrics_safeSynchronization (r : ops_Result) : bool :=
  String.eqb (rs_Outcome r) OutcomeSuccess ||
  (String.eqb (rs_Outcome r) OutcomeDegraded && one_of (rs_Failure r) [FailureFeedDownload; FailureFeedValidation]).

(** The part of [ObserveSync] that dry runs do too. *)
Definition observe_run (mode : Mode) (r : ops_Result) (g : Registry) : Registry :=
  let later := After (rs_CompletedAt r) (default 0 (rg_durationAt g !! mode)) in
  MkRegistry (rg_build g) (rg_feeds g) (rg_feed g) (laterUnix (rg_lastSyncAttempt g) (rs_StartedAt r)) (rg_lastSyncSuccess g)
    (if later then <[mode := Seconds (time_Sub (rs_CompletedAt r) (rs_StartedAt r))]> (rg_duration g) else rg_duration g)
    (if later then <[mode := rs_CompletedAt r]> (rg_durationAt g) else rg_durationAt g)
    (add_at (runKey mode (rs_Outcome r)) 1 (rg_syncRuns g)) (rg_syncFailures g) (rg_activeDecisions g)
    (rg_decisionsAdded g) (rg_decisionsFresh g) (rg_decisionsRemoved g) (rg_entriesRejected g) (rg_lapiRequests g)
    (rg_lapiFailures g) (rg_databaseFailures g) (rg_notifications g).

Definition observe_feed (at_ : Time) (o : ops_FeedResult) (s : feedState) : feedState :=
  if String.eqb (fres_Outcome o) OutcomeSuccess then
    MkFeedState (laterUnix (fs_lastSuccess s) at_) (fres_Accepted o) (fs_downloadFailures s) (fs_validationFailures s)
  else if String.eqb (fres_Outcome o) OutcomeNotModified then
    MkFeedState (laterUnix (fs_lastSuccess s) at_) (fs_entries s) (fs_downloadFailures s) (fs_validationFailures s)
  else if one_of (fres_Outcome o) [OutcomeFailed; OutcomeDegraded] then
    if String.eqb (fres_Failure o) FailureFeedDownload then
      MkFeedState (fs_lastSuccess s) (fs_entries s) (add_count (fs_downloadFailures s) 1) (fs_validationFailures s)
    else if String.eqb (fres_Failure o) FailureFeedValidation then
      MkFeedState (fs_lastSuccess s) (fs_entries s) (fs_downloadFailures s) (add_count (fs_validationFailures s) 1)
    else s
  else s.

Definition observe_feeds (at_ : Time) (feeds : list ops_FeedResult) (m : gmap string feedState) : gmap string feedState :=
  fold_left (fun m o => <[fres_Name o := observe_feed at_ o (default new_feed (m !! fres_Name o))]> m) feeds m.

(** The part only enforcing runs do. *)
Definition observe_enforced (r : ops_Result) (g : Registry) : Registry :=
  let safe := metrics_safeSynchronization r in
  let c := rs_Counts r in
  MkRegistry (rg_build g) (rg_feeds g) (observe_feeds (rs_CompletedAt r) (rs_Feeds r) (rg_feed g)) (rg_lastSyncAttempt g)
    (if safe then laterUnix (rg_lastSyncSuccess g) (rs_CompletedAt r) else rg_lastSyncSuccess g) (rg_duration g)
    (rg_durationAt g) (rg_syncRuns g)
    (if one_of (rs_Outcome r) [OutcomeFailed; OutcomeDegraded] then add_at (rs_Failure r) 1 (rg_syncFailures g)
     else rg_syncFailures g)
    (if safe then cn_ActiveDecisions c else rg_activeDecisions g)
    (add_count (rg_decisionsAdded g) (cn_Added c)) (add_count (rg_decisionsFresh g) (cn_Refreshed c))
    (add_count (rg_decisionsRemoved g) (cn_Removed c)) (add_count (rg_entriesRejected g) (cn_Rejected c))
    (add_at (rs_Outcome r) (cn_LAPIRequests c) (rg_lapiRequests g))
    (if one_of (rs_Failure r) [FailureLAPIAuth; FailureLAPI; FailureTimeout] then add_at (rs_Failure r) 1 (rg_lapiFailures g)
     else rg_lapiFailures g)
    (if String.eqb (rs_Failure r) FailureDatabase then add_count (rg_databaseFailures g) 1 else rg_databaseFailures g)
    (rg_notifications g).

(** [feedSet] and [feed] have the same keys. *)
Definition known_feed (g : Registry) (name : string) : bool := bool_decide (is_Some (rg_feed g !! name)).

Definition ObserveSync (mode : Mode) (r : ops_Result) (g : Registry) : option error * Registry :=
  if negb (validMode mode) || bool_decide (Result_Validate r <> None) then (Some metrics_ErrInvalidObservation, g)
  else if negb (forallb (fun o => known_feed g (fres_Name o)) (rs_Feeds r)) then (Some metrics_ErrInvalidObservation, g)
  else
    let g := observe_run mode r g in
    (None, if String.eqb mode ModeDryRun then g else observe_enforced r g).

Definition SetActiveDecisions (value : Z) (g : Registry) : option error * Registry :=
  if (value <? 0) || (maxGaugeCount <? value) then (Some metrics_ErrInvalidObservation, g)
  else
    (None, MkRegistry (rg_build g) (rg_feeds g) (rg_feed g) (rg_lastSyncAttempt g) (rg_lastSyncSuccess g) (rg_duration g)
       (rg_durationAt g) (rg_syncRuns g) (rg_syncFailures g) value (rg_decisionsAdded g) (rg_decisionsFresh g)
       (rg_decisionsRemoved g) (rg_entriesRejected g) (rg_lapiRequests g) (rg_lapiFailures g) (rg_databaseFailures g)
       (rg_notifications g)).

Definition metrics_ApplyEvent (e : Event) (g : Registry) : option error * Registry :=
  if bool_decide (Event_Validate e <> None) then (Some metrics_ErrInvalidObservation, g)
  else if negb (String.eqb (ev_Feed e) "") && negb (known_feed g (ev_Feed e)) then (Some metrics_ErrInvalidObservation, g)
  else if negb (String.eqb (ev_Code e) CodeNotificationResult) then (None, g)
  else if negb (one_of (ev_Outcome e) [OutcomeSuccess; OutcomeFailed; OutcomeDegraded])
  then (Some metrics_ErrInvalidObservation, g)
  else
    (None, MkRegistry (rg_build g) (rg_feeds g) (rg_feed g) (rg_lastSyncAttempt g) (rg_lastSyncSuccess g) (rg_duration g)
       (rg_durationAt g) (rg_syncRuns g) (rg_syncFailures g) (rg_activeDecisions g) (rg_decisionsAdded g)
       (rg_decisionsFresh g) (rg_decisionsRemoved g) (rg_entriesRejected g) (rg_lapiRequests g) (rg_lapiFailures g)
       (rg_databaseFailures g) (add_at (ev_Outcome e) 1 (rg_notifications g))).

(** ** The text *)

(** [strconv.FormatFloat(value, 'g', -1, 64)] *)
Class FloatText : Type := { FormatFloat : float64 -> string }.

Record label : Type := MkLabel { lb_name : string; lb_value : string }.
#[export] Instance label_eq_dec : EqDecision label.
Proof. solve_decision. Defined.

Definition quote : string := String "034" "".
Definition backslash : string := String "092" "".

(** The replacer: one byte after the other. *)
Fixpoint escapeLabel (value : string) : string :=
  match value with
  | EmptyString => ""
  | String c rest =>
      (if Ascii.eqb c "092" then backslash +:+ backslash
       else if Ascii.eqb c "010" then backslash +:+ "n"
       else if Ascii.eqb c "034" then backslash +:+ quote
       else String c "") +:+ escapeLabel rest
  end.

Definition writeDescriptor (name metricType help : string) : string :=
  "# HELP " +:+ name +:+ " " +:+ help +:+ newline +:+ "# TYPE " +:+ name +:+ " " +:+ metricType +:+ newline.

Definition label_text (l : label) : string := lb_name l +:+ "=" +:+ quote +:+ escapeLabel (lb_value l) +:+ quote.

Fixpoint labels_text (ls : list label) : string :=
  match ls with
  | [] => ""
  | [l] => label_text l
  | l :: rest => label_text l +:+ "," +:+ labels_text rest
  end.

Definition writeSample (name : string) (labels : list label) (value : string) : string :=
  name +:+ (match labels with [] => "" | _ => "{" +:+ labels_text labels +:+ "}" end) +:+ " " +:+ value +:+ newline.

(** One metric: its descriptor and its samples. *)
Definition sample : Type := list label * string.
Record metric : Type := MkMetric { mt_name : string; mt_type : string; mt_help : string; mt_samples : list sample }.

Definition writeMetric (m : metric) : string :=
  writeDescriptor (mt_name m) (mt_type m) (mt_help m) +:+
  String.concat "" (map (fun s : sample => writeSample (mt_name m) s.1 s.2) (mt_samples m)).

Section Text.
Context {text : FloatText}.

Definition counterValue (value : Z) : string := itoa value.

Definition one (value : string) : list sample := [([], value)].
Definition by_label {A} (name : string) (xs : list A) (label_of : A -> string) (value : A -> string) : list sample :=
  map (fun x => ([MkLabel name (label_of x)], value x)) xs.

Definition feed_at (g : Registry) (name : string) : feedState := default new_feed (rg_feed g !! name).
Definition count_at (m : gmap string Z) (k : string) : string := counterValue (default 0 (m !! k)).

Definition runs_samples (g : Registry) : list sample :=
  flat_map (fun mode => map (fun outcome =>
    ([MkLabel "mode" mode; MkLabel "outcome" outcome], count_at (rg_syncRuns g) (runKey mode outcome))) syncOutcomes) modes.

Definition build_samples (g : Registry) : list sample :=
  let b := rg_build g in
  [([MkLabel "version" (bi_Version b); MkLabel "revision" (bi_Revision b); MkLabel "go_version" (bi_GoVersion b);
     MkLabel "goos" (bi_GOOS b); MkLabel "goarch" (bi_GOARCH b)], "1")].

Definition metrics (g : Registry) : list metric :=
  let same x := x in
  [MkMetric "crowdshield_build_info" "gauge" "Build identity for the running Crowdshield process." (build_samples g);
   MkMetric "crowdshield_last_sync_attempt_timestamp_seconds" "gauge" "Unix timestamp of the latest synchronization attempt."
     (one (FormatFloat (rg_lastSyncAttempt g)));
   MkMetric "crowdshield_last_sync_success_timestamp_seconds" "gauge"
     "Unix timestamp of the latest safe enforced synchronization." (one (FormatFloat (rg_lastSyncSuccess g)));
   MkMetric "crowdshield_sync_duration_seconds" "gauge" "Duration of the latest synchronization by execution mode."
     (by_label "mode" modes same (fun mode => FormatFloat (default float_zero (rg_duration g !! mode))));
   MkMetric "crowdshield_sync_runs_total" "counter" "Synchronization runs by bounded mode and outcome." (runs_samples g);
   MkMetric "crowdshield_sync_failures_total" "counter" "Enforced synchronization failures by bounded category."
     (by_label "category" failureCategories same (count_at (rg_syncFailures g)));
   MkMetric "crowdshield_feed_last_success_timestamp_seconds" "gauge" "Unix timestamp of the latest successful feed result."
     (by_label "feed" (rg_feeds g) same (fun name => FormatFloat (fs_lastSuccess (feed_at g name))));
   MkMetric "crowdshield_feed_entries" "gauge" "Accepted entries in current local feed state."
     (by_label "feed" (rg_feeds g) same (fun name => itoa (fs_entries (feed_at g name))));
   MkMetric "crowdshield_feed_download_failures_total" "counter" "Feed download failures by configured feed."
     (by_label "feed" (rg_feeds g) same (fun name => counterValue (fs_downloadFailures (feed_at g name))));
   MkMetric "crowdshield_feed_validation_failures_total" "counter" "Feed validation failures by configured feed."
     (by_label "feed" (rg_feeds g) same (fun name => counterValue (fs_validationFailures (feed_at g name))));
   MkMetric "crowdshield_active_decisions" "gauge" "Current Crowdshield-owned active decisions."
     (one (itoa (rg_activeDecisions g)));
   MkMetric "crowdshield_decisions_added_total" "counter" "Enforced decisions successfully added."
     (one (counterValue (rg_decisionsAdded g)));
   MkMetric "crowdshield_decisions_refreshed_total" "counter" "Enforced decisions successfully refreshed."
     (one (counterValue (rg_decisionsFresh g)));
   MkMetric "crowdshield_decisions_removed_total" "counter" "Owned decisions safely removed."
     (one (counterValue (rg_decisionsRemoved g)));
   MkMetric "crowdshield_entries_rejected_total" "counter" "Feed entries rejected by enforced synchronization."
     (one (counterValue (rg_entriesRejected g)));
   MkMetric "crowdshield_lapi_requests_total" "counter" "LAPI requests attributed to enforced synchronization outcomes."
     (by_label "outcome" syncOutcomes same (count_at (rg_lapiRequests g)));
   MkMetric "crowdshield_lapi_failures_total" "counter" "LAPI failures by bounded category."
     (by_label "category" failureCategories same (count_at (rg_lapiFailures g)));
   MkMetric "crowdshield_database_failures_total" "counter" "Database failures observed by enforced synchronization."
     (one (counterValue (rg_databaseFailures g)));
   MkMetric "crowdshield_notifications_total" "counter" "Notification outcomes from the bounded operational event stream."
     (by_label "outcome" notificationOutcomes same (count_at (rg_notifications g)))].

Definition WritePrometheus (g : Registry) : string := String.concat "" (map writeMetric (metrics g)).

(** An answer of the handler: its code, its headers and its body. *)
Record HttpAnswer : Type := MkHttpAnswer { ha_Status : Z; ha_Header : list (string * string); ha_Body : string }.

Definition metrics_ServeHTTP (method : string) (g : Registry) : HttpAnswer :=
  let headers := [("Content-Type", "text/plain; version=0.0.4; charset=utf-8"); ("Cache-Control", "no-store")] in
  if negb (String.eqb method "GET") && negb (String.eqb method "HEAD")
  then MkHttpAnswer 405 [("Allow", "GET, HEAD"); ("Content-Type", "text/plain; charset=utf-8");
                         ("X-Content-Type-Options", "nosniff")] ("method not allowed" +:+ newline)
  else if String.eqb method "HEAD" then MkHttpAnswer 200 headers ""
  else MkHttpAnswer 200 headers (WritePrometheus g).
End Text.
