(* ===== verification/MetricsRun.v ===== *)
(** * What the metrics count

    After any observations every counter is the saturated sum of what the
    accepted observations add to it, and the gauges show the last of them. *)

From S2P Require Export Metrics.

(** ** Observations and counters *)

Inductive observation : Type :=
| OSync (mode : Mode) (r : ops_Result)
| OActive (value : Z)
| OEvent (e : Event).

Definition observe (g : Registry) (o : observation) : Registry :=
  match o with
  | OSync mode r => (ObserveSync mode r g).2
  | OActive value => (SetActiveDecisions value g).2
  | OEvent e => (metrics_ApplyEvent e g).2
  end.

(** The observations that are accepted when [known] are the configured feeds. *)
Definition accepts (known : string -> bool) (o : observation) : bool :=
  match o with
  | OSync mode r => validMode mode && bool_decide (Result_Validate r = None) && forallb (fun o => known (fres_Name o)) (rs_Feeds r)
  | OActive value => (0 <=? value) && (value <=? maxGaugeCount)
  | OEvent e =>
      bool_decide (Event_Validate e = None) && (String.eqb (ev_Feed e) "" || known (ev_Feed e)) &&
      (negb (String.eqb (ev_Code e) CodeNotificationResult) ||
       one_of (ev_Outcome e) [OutcomeSuccess; OutcomeFailed; OutcomeDegraded])
  end.

Inductive counter : Type :=
| CRuns (mode : Mode) (outcome : Outcome)
| CSyncFailures (c : FailureCategory)
| CDownloadFailures (feed : string)
| CValidationFailures (feed : string)
| CAdded | CRefreshed | CRemoved | CRejected
| CLapiRequests (outcome : Outcome)
| CLapiFailures (c : FailureCategory)
| CDatabaseFailures
| CNotifications (outcome : Outcome).

Definition counter_of (c : counter) (g : Registry) : Z :=
  match c with
  | CRuns mode outcome => default 0 (rg_syncRuns g !! runKey mode outcome)
  | CSyncFailures c => default 0 (rg_syncFailures g !! c)
  | CDownloadFailures feed => fs_downloadFailures (feed_at g feed)
  | CValidationFailures feed => fs_validationFailures (feed_at g feed)
  | CAdded => rg_decisionsAdded g
  | CRefreshed => rg_decisionsFresh g
  | CRemoved => rg_decisionsRemoved g
  | CRejected => rg_entriesRejected g
  | CLapiRequests outcome => default 0 (rg_lapiRequests g !! outcome)
  | CLapiFailures c => default 0 (rg_lapiFailures g !! c)
  | CDatabaseFailures => rg_databaseFailures g
  | CNotifications outcome => default 0 (rg_notifications g !! outcome)
  end.

Definition one_if (b : bool) : Z := if b then 1 else 0.

(** The failures of a feed in the results of a run. *)
Definition feed_failures (category : FailureCategory) (feed : string) (feeds : list ops_FeedResult) : Z :=
  foldr (fun o n => one_if (String.eqb (fres_Name o) feed && one_of (fres_Outcome o) [OutcomeFailed; OutcomeDegraded] &&
                            String.eqb (fres_Failure o) category) + n) 0 feeds.

(** What an enforcing run adds. *)
Definition enforced_adds (c : counter) (r : ops_Result) : Z :=
  match c with
  | CSyncFailures c => one_if (one_of (rs_Outcome r) [OutcomeFailed; OutcomeDegraded] && String.eqb (rs_Failure r) c)
  | CDownloadFailures feed => feed_failures FailureFeedDownload feed (rs_Feeds r)
  | CValidationFailures feed => feed_failures FailureFeedValidation feed (rs_Feeds r)
  | CAdded => cn_Added (rs_Counts r)
  | CRefreshed => cn_Refreshed (rs_Counts r)
  | CRemoved => cn_Removed (rs_Counts r)
  | CRejected => cn_Rejected (rs_Counts r)
  | CLapiRequests outcome => if String.eqb (rs_Outcome r) outcome then cn_LAPIRequests (rs_Counts r) else 0
  | CLapiFailures c =>
      one_if (one_of (rs_Failure r) [FailureLAPIAuth; FailureLAPI; FailureTimeout] && String.eqb (rs_Failure r) c)
  | CDatabaseFailures => one_if (String.eqb (rs_Failure r) FailureDatabase)
  | CRuns _ _ | CNotifications _ => 0
  end.

(** What an observation adds to a counter. *)
Definition adds (known : string -> bool) (c : counter) (o : observation) : Z :=
  if negb (accepts known o) then 0
  else match o with
       | OSync mode r =>
           match c with
           | CRuns m outcome => one_if (String.eqb mode m && String.eqb (rs_Outcome r) outcome)
           | _ => if String.eqb mode ModeDryRun then 0 else enforced_adds c r
           end
       | OActive _ => 0
       | OEvent e =>
           match c with
           | CNotifications outcome =>
               one_if (String.eqb (ev_Code e) CodeNotificationResult && String.eqb (ev_Outcome e) outcome)
           | _ => 0
           end
       end.

Definition total (known : string -> bool) (c : counter) (os : list observation) : Z :=
  foldr (fun o n => adds known c o + n) 0 os.

(** A run after which the decisions are those that were wanted: it succeeded, or
    only a feed of it could not be had. *)
Definition safe_run (r : ops_Result) : bool :=
  bool_decide (rs_Outcome r = OutcomeSuccess \/
    rs_Outcome r = OutcomeDegraded /\ (rs_Failure r = FailureFeedDownload \/ rs_Failure r = FailureFeedValidation)).

Lemma safe_run_spec r : metrics_safeSynchronization r = safe_run r.
Proof.
  apply eq_true_iff_eq. unfold safe_run. rewrite bool_decide_eq_true. unfold metrics_safeSynchronization.
  rewrite orb_true_iff, andb_true_iff, !String.eqb_eq, one_of_In. cbn [In]. naive_solver.
Qed.

(** The value an observation gives to the gauge of the decisions, and those it
    gives to the gauge of the entries of a feed. *)
Definition says_active (known : string -> bool) (o : observation) : option Z :=
  if negb (accepts known o) then None
  else match o with
       | OSync mode r =>
           if negb (String.eqb mode ModeDryRun) && safe_run r then Some (cn_ActiveDecisions (rs_Counts r)) else None
       | OActive value => Some value
       | OEvent _ => None
       end.

Definition says_entries (known : string -> bool) (feed : string) (o : observation) : list Z :=
  match o with
  | OSync mode r =>
      if negb (accepts known o) || String.eqb mode ModeDryRun then []
      else omap (fun o => if String.eqb (fres_Name o) feed && String.eqb (fres_Outcome o) OutcomeSuccess
                          then Some (fres_Accepted o) else None) (rs_Feeds r)
  | _ => []
  end.

(** ** Times

    The gauges of times and durations are about the runs that are accepted. *)

Definition run : Type := Mode * ops_Result.

Definition run_of (known : string -> bool) (o : observation) : list run :=
  match o with OSync mode r => if accepts known o then [(mode, r)] else [] | _ => [] end.

Definition enforcing (x : run) : bool := String.eqb x.1 ModeEnforce.

(** The times of a run the gauges are told: when it was attempted, whatever its
    mode; when it was enforced safely; when a feed of it was had. *)
Definition attempt_of (x : run) : list Time := [rs_StartedAt x.2].
Definition success_of (x : run) : list Time := if enforcing x && safe_run x.2 then [rs_CompletedAt x.2] else [].
Definition feed_success_of (feed : string) (x : run) : list Time :=
  if enforcing x
  then map (fun _ => rs_CompletedAt x.2)
         (List.filter (fun f => String.eqb (fres_Name f) feed && one_of (fres_Outcome f) [OutcomeSuccess; OutcomeNotModified])
            (rs_Feeds x.2))
  else [].

(** The seconds of a time, and the latest of some times: one of them, or zero,
    and none of them is later. *)
Definition unix_seconds (t : Time) : float64 := float_div (float_of_int (UnixNano t)) (float_of_int 1000000000).

Definition latest (times : list Time) (v : float64) : Prop :=
  (v = float_zero \/ exists t, t ∈ times /\ v = unix_seconds t) /\
  float_lt v float_zero = false /\ forall t, t ∈ times -> float_lt v (unix_seconds t) = false.

(** The duration a mode shows: that of the first of the runs of the mode that
    were completed last, and none before a run was completed after year 1. *)
Definition shown_run (rs : list ops_Result) (r : ops_Result) : Prop :=
  exists before after, rs = before ++ r :: after /\ 0 < rs_CompletedAt r /\
    (forall x, x ∈ before -> rs_CompletedAt x < rs_CompletedAt r) /\ (forall x, x ∈ after -> rs_CompletedAt x <= rs_CompletedAt r).

Definition shows_duration (rs : list ops_Result) (d : option float64) : Prop :=
  (d = None /\ forall x, x ∈ rs -> rs_CompletedAt x <= 0) \/
  (exists r, shown_run rs r /\ d = Some (Seconds (time_Sub (rs_CompletedAt r) (rs_StartedAt r)))).

Definition runs_in (mode : Mode) (xs : list run) : list ops_Result :=
  omap (fun x : run => if String.eqb x.1 mode then Some x.2 else None) xs.

(** ** Saturation *)

Definition saturated (n : Z) : Z := Z.min max_uint64 n.

Lemma add_saturated a v : 0 <= a -> 0 <= v -> add_count (saturated a) v = saturated (a + v).
Proof.
  intros Ha Hv. unfold add_count, saturated. assert (Hm : 0 < max_uint64) by done.
  destruct (Z.leb_spec v 0); [f_equal; lia |]. destruct (Z.ltb_spec (max_uint64 - Z.min max_uint64 a) v); lia.
Qed.

Lemma lookup_add_at k k' v m : default 0 (add_at k v m !! k') =
  if String.eqb k k' then add_count (default 0 (m !! k)) v else default 0 (m !! k').
Proof.
  unfold add_at. destruct (String.eqb_spec k k') as [-> | Hne]; [by rewrite lookup_insert_eq | by rewrite lookup_insert_ne].
Qed.

(** A counter of a map, one more of its sums. *)
Lemma add_at_saturated m k k' v n : 0 <= n -> 0 <= v -> default 0 (m !! k') = saturated n ->
  default 0 (add_at k v m !! k') = saturated (n + (if String.eqb k k' then v else 0)).
Proof.
  intros Hn Hv Hm. rewrite lookup_add_at. destruct (String.eqb_spec k k') as [-> |]; [| by rewrite Z.add_0_r].
  by rewrite Hm, add_saturated.
Qed.

Lemma add_one_saturated m k k' n : 0 <= n -> default 0 (m !! k') = saturated n ->
  default 0 (add_at k 1 m !! k') = saturated (n + one_if (String.eqb k k')).
Proof. intros Hn Hm. by apply add_at_saturated. Qed.

Lemma add_if_saturated (b : bool) m k k' n : 0 <= n -> default 0 (m !! k') = saturated n ->
  default 0 ((if b then add_at k 1 m else m) !! k') = saturated (n + one_if (b && String.eqb k k')).
Proof. intros Hn Hm. destruct b; [by apply add_one_saturated | by rewrite Z.add_0_r]. Qed.

(** ** The feeds *)

Lemma observe_feeds_lookup at_ feeds m name :
  default new_feed (observe_feeds at_ feeds m !! name) =
  fold_left (fun s o => if String.eqb (fres_Name o) name then observe_feed at_ o s else s) feeds (default new_feed (m !! name)).
Proof.
  revert m. induction feeds as [| o feeds IH]; intros m; [done |]. cbn [observe_feeds fold_left] in *.
  unfold observe_feeds in IH. rewrite IH. f_equal.
  destruct (String.eqb_spec (fres_Name o) name) as [-> | Hne]; [by rewrite lookup_insert_eq | by rewrite lookup_insert_ne].
Qed.

Lemma observe_feed_downloads at_ o s n : 0 <= n -> fs_downloadFailures s = saturated n ->
  fs_downloadFailures (observe_feed at_ o s) =
    saturated (n + one_if (one_of (fres_Outcome o) [OutcomeFailed; OutcomeDegraded] && String.eqb (fres_Failure o) FailureFeedDownload)).
Proof.
  intros Hn Hs. unfold observe_feed.
  destruct (String.eqb_spec (fres_Outcome o) OutcomeSuccess) as [-> |]; [cbn; by rewrite Z.add_0_r |].
  destruct (String.eqb_spec (fres_Outcome o) OutcomeNotModified) as [-> |]; [cbn; by rewrite Z.add_0_r |].
  destruct (one_of _ _); cbn [andb]; [| by rewrite Z.add_0_r].
  destruct (String.eqb_spec (fres_Failure o) FailureFeedDownload); cbn [one_if fs_downloadFailures].
  - by rewrite Hs, add_saturated.
  - rewrite Z.add_0_r. by destruct (String.eqb _ FailureFeedValidation).
Qed.

Lemma observe_feed_validations at_ o s n : 0 <= n -> fs_validationFailures s = saturated n ->
  fs_validationFailures (observe_feed at_ o s) =
    saturated (n + one_if (one_of (fres_Outcome o) [OutcomeFailed; OutcomeDegraded] && String.eqb (fres_Failure o) FailureFeedValidation)).
Proof.
  intros Hn Hs. unfold observe_feed.
  destruct (String.eqb_spec (fres_Outcome o) OutcomeSuccess) as [-> |]; [cbn; by rewrite Z.add_0_r |].
  destruct (String.eqb_spec (fres_Outcome o) OutcomeNotModified) as [-> |]; [cbn; by rewrite Z.add_0_r |].
  destruct (one_of _ _); cbn [andb]; [| by rewrite Z.add_0_r].
  destruct (String.eqb_spec (fres_Failure o) FailureFeedDownload) as [-> |]; [cbn; by rewrite Z.add_0_r |].
  destruct (String.eqb_spec (fres_Failure o) FailureFeedValidation); cbn [one_if fs_validationFailures].
  - by rewrite Hs, add_saturated.
  - by rewrite Z.add_0_r.
Qed.

Lemma feed_failures_nonneg category name feeds : 0 <= feed_failures category name feeds.
Proof.
  induction feeds as [| o feeds IH]; [done |]. cbn [feed_failures foldr]. fold (feed_failures category name feeds).
  unfold one_if. destruct (_ && _); lia.
Qed.

Lemma fold_failures (p : feedState -> Z) category at_ name :
  (forall o s n, 0 <= n -> p s = saturated n -> p (observe_feed at_ o s) =
     saturated (n + one_if (one_of (fres_Outcome o) [OutcomeFailed; OutcomeDegraded] && String.eqb (fres_Failure o) category))) ->
  forall feeds s n, 0 <= n -> p s = saturated n ->
  p (fold_left (fun s o => if String.eqb (fres_Name o) name then observe_feed at_ o s else s) feeds s) =
    saturated (n + feed_failures category name feeds).
Proof.
  intros Hp. induction feeds as [| o feeds IH]; intros s n Hn Hs; cbn [fold_left feed_failures foldr]; [by rewrite Z.add_0_r |].
  fold (feed_failures category name feeds). rewrite Z.add_assoc.
  destruct (String.eqb (fres_Name o) name); cbn [andb].
  - apply IH; [unfold one_if; destruct (_ && _); lia | by apply Hp].
  - cbn [one_if]. rewrite Z.add_0_r. by apply IH.
Qed.

Lemma fold_entries at_ name feeds s :
  fs_entries (fold_left (fun s o => if String.eqb (fres_Name o) name then observe_feed at_ o s else s) feeds s) =
  default (fs_entries s) (list.last (omap (fun o =>
    if String.eqb (fres_Name o) name && String.eqb (fres_Outcome o) OutcomeSuccess then Some (fres_Accepted o) else None) feeds)).
Proof.
  revert s. induction feeds as [| o feeds IH] using rev_ind; intros s; [done |].
  rewrite fold_left_app, omap_app. cbn. destruct (String.eqb (fres_Name o) name); cbn [andb]; [| by rewrite app_nil_r, IH].
  unfold observe_feed. destruct (String.eqb (fres_Outcome o) OutcomeSuccess); cbn; [by rewrite last_snoc |].
  rewrite app_nil_r. repeat case_match; cbn; apply IH.
Qed.

(** ** One observation *)

Definition known_as (known : string -> bool) (g : Registry) : Prop := forall name, known_feed g name = known name.

Lemma observe_feeds_known at_ feeds m name :
  Forall (fun o => is_Some (m !! fres_Name o)) feeds ->
  is_Some (observe_feeds at_ feeds m !! name) <-> is_Some (m !! name).
Proof.
  revert m. induction feeds as [| o feeds IH]; intros m Hf; [done |]. inversion Hf as [| ? ? Ho Hrest]; subst.
  unfold observe_feeds in *. cbn [fold_left]. rewrite IH.
  - destruct (decide (fres_Name o = name)) as [<- | Hne]; [rewrite lookup_insert_eq; naive_solver | by rewrite lookup_insert_ne].
  - eapply List.Forall_impl; [| exact Hrest]. intros o' Ho'. cbn.
    destruct (decide (fres_Name o = fres_Name o')) as [<- | Hne]; [by rewrite lookup_insert_eq | by rewrite lookup_insert_ne].
Qed.

Lemma forallb_eq {A} (p q : A -> bool) xs : (forall x, p x = q x) -> forallb p xs = forallb q xs.
Proof. intros He. induction xs as [| x xs IH]; cbn; [done | by rewrite He, IH]. Qed.

(** The two ways an observation can go. *)
Lemma observe_cases known g o : known_as known g ->
  (accepts known o = false /\ observe g o = g) \/
  (accepts known o = true /\
   match o with
   | OSync mode r => observe g o = (if String.eqb mode ModeDryRun then observe_run mode r g
                                    else observe_enforced r (observe_run mode r g)) /\
       Result_Validate r = None /\ (mode = ModeEnforce \/ mode = ModeDryRun) /\ forallb (fun o => known (fres_Name o)) (rs_Feeds r) = true
   | OActive value => rg_activeDecisions (observe g o) = value /\ (forall c, counter_of c (observe g o) = counter_of c g) /\
       rg_feed (observe g o) = rg_feed g /\ rg_feeds (observe g o) = rg_feeds g
   | OEvent e =>
       (String.eqb (ev_Code e) CodeNotificationResult = false /\ observe g o = g) \/
       (String.eqb (ev_Code e) CodeNotificationResult = true /\
        rg_activeDecisions (observe g o) = rg_activeDecisions g /\ rg_feed (observe g o) = rg_feed g /\
        rg_feeds (observe g o) = rg_feeds g /\
        rg_notifications (observe g o) = add_at (ev_Outcome e) 1 (rg_notifications g) /\
        forall c, (forall outcome, c <> CNotifications outcome) -> counter_of c (observe g o) = counter_of c g)
   end).
Proof.
  intros Hk. destruct o as [mode r | value | e]; cbn [observe accepts].
  - unfold ObserveSync. rewrite (forallb_eq (fun o => known_feed g (fres_Name o)) (fun o => known (fres_Name o))) by (intros o; apply Hk).
    destruct (Result_Validate r) as [err |].
    { rewrite (bool_decide_eq_true_2 (Some err <> None)), (bool_decide_eq_false_2 (Some err = None)) by done.
      rewrite orb_true_r, andb_false_r. by left. }
    rewrite (bool_decide_eq_false_2 (None <> None)), (bool_decide_eq_true_2 (None = None)) by naive_solver.
    rewrite orb_false_r, andb_true_r. destruct (validMode mode) eqn:Em; cbn [negb andb]; [| by left].
    destruct (forallb _ _) eqn:Ef; cbn [negb snd]; [right | by left].
    split; [done |]. split; [done |]. split; [done |]. split; [| done].
    unfold validMode in Em. apply orb_true_iff in Em. by rewrite !String.eqb_eq in Em.
  - unfold SetActiveDecisions. rewrite (Z.leb_antisym value 0), (Z.leb_antisym maxGaugeCount value).
    destruct (value <? 0), (maxGaugeCount <? value); cbn; [by left .. |]. right. split; [done |]. split; [done |].
    split; [by intros [] | done].
  - unfold metrics_ApplyEvent. destruct (Event_Validate e) as [err |].
    { rewrite (bool_decide_eq_true_2 (Some err <> None)), (bool_decide_eq_false_2 (Some err = None)) by done. by left. }
    rewrite (bool_decide_eq_false_2 (None <> None)), (bool_decide_eq_true_2 (None = None)) by naive_solver. cbn [andb].
    pose proof (Hk (ev_Feed e)) as Hkf. destruct (known_feed g (ev_Feed e)), (known (ev_Feed e)); try discriminate Hkf; clear Hkf.
    all: destruct (String.eqb (ev_Feed e) ""); cbn [negb andb orb]; try by left.
    all: destruct (String.eqb (ev_Code e) CodeNotificationResult); cbn [negb orb]; [| right; split; [done | by left]].
    all: destruct (one_of _ _); cbn [negb snd]; [right | by left]; split; [done |]; right; split; [done |].
    all: do 4 (split; [done |]); intros c Hc; destruct c; try reflexivity; exfalso; eapply Hc; reflexivity.
Qed.

(** ** The invariant *)

Lemma Result_counts r : Result_Validate r = None -> List.Forall (fun z => 0 <= z <= maxCount) (count_values (rs_Counts r)).
Proof.
  unfold Result_Validate. destruct (negb (result_outcome_ok r)); [done |]. destruct (_ || _) eqn:E; [done |]. intros _.
  apply orb_false_iff in E as [E _]. apply orb_false_iff in E as [_ E]. apply negb_false_iff in E. by apply Counts_valid_true.
Qed.

Lemma one_if_nonneg b : 0 <= one_if b.
Proof. by destruct b. Qed.

Lemma enforced_adds_nonneg c r : Result_Validate r = None -> 0 <= enforced_adds c r.
Proof.
  intros Hv%Result_counts. rewrite List.Forall_forall in Hv.
  assert (Hc : forall z, In z (count_values (rs_Counts r)) -> 0 <= z) by (intros z Hz; apply Hv in Hz; lia).
  destruct c; cbn [enforced_adds]; try done; try apply one_if_nonneg; try apply feed_failures_nonneg.
  5: destruct (String.eqb _ _); [| done].
  all: apply Hc; cbn; auto 12.
Qed.

Lemma adds_nonneg known c o : 0 <= adds known c o.
Proof.
  unfold adds. destruct (accepts known o) eqn:Ea; cbn [negb]; [| done]. destruct o as [mode r | value | e].
  - cbn [accepts] in Ea. apply andb_true_iff in Ea as [Ea _]. apply andb_true_iff in Ea as [_ Ev]. apply bool_decide_eq_true in Ev.
    destruct c; try apply one_if_nonneg; destruct (String.eqb mode ModeDryRun); try done; by apply enforced_adds_nonneg.
  - done.
  - destruct c; try done; apply one_if_nonneg.
Qed.

Lemma total_nonneg known c os : 0 <= total known c os.
Proof. induction os as [| o os IH]; [done |]. cbn [total foldr]. fold (total known c os). pose proof (adds_nonneg known c o). lia. Qed.

Lemma total_snoc known c os o : total known c (os ++ [o]) = total known c os + adds known c o.
Proof. induction os as [| x os IH]; cbn [total foldr app] in *; [lia |]. fold (total known c (os ++ [o])) (total known c os). unfold total in *. lia. Qed.

(** The counters of runs are those of the two modes. *)
Definition counter_exists (c : counter) : Prop :=
  match c with CRuns mode _ => mode = ModeEnforce \/ mode = ModeDryRun | _ => True end.

Record counted (known : string -> bool) (feeds : list string) (os : list observation) (g : Registry) : Prop := MkCounted {
  ct_known : known_as known g;
  ct_feeds : rg_feeds g = feeds;
  ct_counters : forall c, counter_exists c -> counter_of c g = saturated (total known c os);
  ct_active : rg_activeDecisions g = default 0 (list.last (omap (says_active known) os));
  ct_entries : forall feed, fs_entries (feed_at g feed) = default 0 (list.last (os ≫= says_entries known feed)) }.

Lemma runKey_eq mode mode' outcome outcome' :
  mode = ModeEnforce \/ mode = ModeDryRun -> mode' = ModeEnforce \/ mode' = ModeDryRun ->
  String.eqb (runKey mode outcome) (runKey mode' outcome') = String.eqb mode mode' && String.eqb outcome outcome'.
Proof. intros [-> | ->] [-> | ->]; reflexivity. Qed.

(** The counters after a run. *)
Lemma observe_run_counter mode r g c n :
  0 <= n -> counter_exists c -> mode = ModeEnforce \/ mode = ModeDryRun -> counter_of c g = saturated n ->
  counter_of c (observe_run mode r g) =
    saturated (n + match c with CRuns m outcome => one_if (String.eqb mode m && String.eqb (rs_Outcome r) outcome) | _ => 0 end).
Proof.
  intros Hn Hc Hm Hg. destruct c; try (rewrite Z.add_0_r; exact Hg).
  cbn [counter_of observe_run rg_syncRuns] in *. rewrite <- runKey_eq by done. by apply add_one_saturated.
Qed.

Lemma feed_at_enforced r g name : feed_at (observe_enforced r g) name =
  fold_left (fun s o => if String.eqb (fres_Name o) name then observe_feed (rs_CompletedAt r) o s else s) (rs_Feeds r) (feed_at g name).
Proof. exact (observe_feeds_lookup (rs_CompletedAt r) (rs_Feeds r) (rg_feed g) name). Qed.

Lemma observe_enforced_counter r g c n :
  Result_Validate r = None -> 0 <= n -> counter_of c g = saturated n ->
  counter_of c (observe_enforced r g) = saturated (n + enforced_adds c r).
Proof.
  intros Hv%Result_counts Hn Hg. rewrite List.Forall_forall in Hv.
  assert (Hc : forall z, In z (count_values (rs_Counts r)) -> 0 <= z) by (intros z Hz; apply Hv in Hz; lia).
  destruct c; cbn [counter_of observe_enforced enforced_adds rg_syncRuns rg_syncFailures rg_decisionsAdded rg_decisionsFresh
    rg_decisionsRemoved rg_entriesRejected rg_lapiRequests rg_lapiFailures rg_databaseFailures rg_notifications] in *.
  - by rewrite Z.add_0_r.
  - by apply add_if_saturated.
  - rewrite feed_at_enforced. apply (fold_failures _ FailureFeedDownload); [| done | exact Hg].
    intros o s m. apply observe_feed_downloads.
  - rewrite feed_at_enforced. apply (fold_failures _ FailureFeedValidation); [| done | exact Hg].
    intros o s m. apply observe_feed_validations.
  - rewrite Hg. apply add_saturated; [done | apply Hc; cbn; auto 12].
  - rewrite Hg. apply add_saturated; [done | apply Hc; cbn; auto 12].
  - rewrite Hg. apply add_saturated; [done | apply Hc; cbn; auto 12].
  - rewrite Hg. apply add_saturated; [done | apply Hc; cbn; auto 12].
  - apply add_at_saturated; [done | apply Hc; cbn; auto 12 | done].
  - by apply add_if_saturated.
  - destruct (String.eqb _ _); cbn [one_if]; [rewrite Hg; by apply add_saturated | by rewrite Z.add_0_r].
  - by rewrite Z.add_0_r.
Qed.

Lemma feed_at_same g g' feed : rg_feed g' = rg_feed g -> feed_at g' feed = feed_at g feed.
Proof. unfold feed_at. by intros ->. Qed.

Lemma adds_accepted known c o : accepts known o = true -> adds known c o =
  match o with
  | OSync mode r => match c with
                    | CRuns m outcome => one_if (String.eqb mode m && String.eqb (rs_Outcome r) outcome)
                    | _ => if String.eqb mode ModeDryRun then 0 else enforced_adds c r
                    end
  | OActive _ => 0
  | OEvent e => match c with
                | CNotifications outcome => one_if (String.eqb (ev_Code e) CodeNotificationResult && String.eqb (ev_Outcome e) outcome)
                | _ => 0
                end
  end.
Proof. unfold adds. by intros ->. Qed.

Lemma sync_counters g mode r c n :
  0 <= n -> counter_exists c -> mode = ModeEnforce \/ mode = ModeDryRun -> Result_Validate r = None ->
  counter_of c g = saturated n ->
  counter_of c (if String.eqb mode ModeDryRun then observe_run mode r g else observe_enforced r (observe_run mode r g)) =
    saturated (n + match c with
                   | CRuns m outcome => one_if (String.eqb mode m && String.eqb (rs_Outcome r) outcome)
                   | _ => if String.eqb mode ModeDryRun then 0 else enforced_adds c r
                   end).
Proof.
  intros Hn Hc Hm Hv Hg. pose proof (observe_run_counter mode r g c n Hn Hc Hm Hg) as Hr.
  destruct (String.eqb mode ModeDryRun).
  - rewrite Hr. by destruct c.
  - assert (Hnr : 0 <= n + match c with CRuns m outcome => one_if (String.eqb mode m && String.eqb (rs_Outcome r) outcome) | _ => 0 end).
    { destruct c; try lia. pose proof (one_if_nonneg (String.eqb mode mode0 && String.eqb (rs_Outcome r) outcome)). lia. }
    rewrite (observe_enforced_counter r (observe_run mode r g) c _ Hv Hnr Hr). f_equal. destruct c; cbn [enforced_adds]; lia.
Qed.

Lemma omap_snoc_last {A B} (f : A -> option B) l x : list.last (omap f (l ++ [x])) =
  match f x with Some y => Some y | None => list.last (omap f l) end.
Proof. rewrite omap_app. cbn. destruct (f x); [by rewrite last_snoc | by rewrite app_nil_r]. Qed.

Lemma sync_known known g mode r : known_as known g -> forallb (fun o => known (fres_Name o)) (rs_Feeds r) = true ->
  known_as known (if String.eqb mode ModeDryRun then observe_run mode r g else observe_enforced r (observe_run mode r g)).
Proof.
  intros Hk Hf name. destruct (String.eqb mode ModeDryRun); [apply Hk |]. rewrite <- Hk. unfold known_feed.
  cbn [observe_enforced observe_run rg_feed]. apply bool_decide_ext. apply observe_feeds_known.
  apply List.Forall_forall. intros o Ho. rewrite forallb_forall in Hf. specialize (Hf o Ho). rewrite <- Hk in Hf.
  unfold known_feed in Hf. by apply bool_decide_eq_true in Hf.
Qed.

Lemma counted_step known feeds os g o : counted known feeds os g -> counted known feeds (os ++ [o]) (observe g o).
Proof.
  intros [Hk Hf Hc Ha He].
  assert (Hsame : forall g', g' = g -> (forall c, adds known c o = 0) -> says_active known o = None ->
    (forall feed, says_entries known feed o = []) -> counted known feeds (os ++ [o]) g').
  { intros g' -> H1 H2 H3. split; [done | done | | by rewrite omap_snoc_last, H2 |].
    - intros c Hx. rewrite total_snoc, H1, Z.add_0_r. by apply Hc.
    - intros feed. rewrite bind_app. cbn. by rewrite H3, !app_nil_r. }
  destruct (observe_cases known g o Hk) as [[Hn ->] | [Hacc Hcase]].
  { apply Hsame; unfold adds, says_active, says_entries; rewrite ?Hn; [done | done | done | by destruct o]. }
  destruct o as [mode r | value | e].
  - destruct Hcase as (-> & Hv & Hm & Hknown). split.
    + by apply sync_known.
    + by destruct (String.eqb mode ModeDryRun).
    + intros c Hx. rewrite total_snoc, (adds_accepted _ _ _ Hacc).
      apply sync_counters; auto using total_nonneg.
    + rewrite omap_snoc_last. unfold says_active. rewrite Hacc. cbn [negb].
      destruct (String.eqb mode ModeDryRun); cbn [negb andb]; [exact Ha |].
      cbn [observe_enforced rg_activeDecisions]. rewrite safe_run_spec. by destruct (safe_run r).
    + intros feed. rewrite bind_app. cbn [mbind list_bind says_entries]. rewrite Hacc, app_nil_r. cbn [negb orb].
      destruct (String.eqb mode ModeDryRun); [rewrite app_nil_r; apply He |]. rewrite feed_at_enforced, fold_entries, last_app.
      change (feed_at (observe_run mode r g) feed) with (feed_at g feed). rewrite He. by destruct (list.last (omap _ (rs_Feeds r))).
  - destruct Hcase as (H1 & H2 & H3 & H4). split.
    + intros name. rewrite <- Hk. unfold known_feed. by rewrite H3.
    + by rewrite H4.
    + intros c Hx. rewrite total_snoc, (adds_accepted _ _ _ Hacc), Z.add_0_r, H2. by apply Hc.
    + rewrite omap_snoc_last. unfold says_active. by rewrite Hacc.
    + intros feed. rewrite bind_app. cbn. rewrite app_nil_r, (feed_at_same g) by done. apply He.
  - destruct Hcase as [[Hcode ->] | (Hcode & H1 & H2 & H3 & H4 & H5)].
    { apply Hsame; [done | | unfold says_active; by rewrite Hacc | done].
      intros c. rewrite (adds_accepted _ _ _ Hacc), Hcode. by destruct c. }
    split.
    + intros name. rewrite <- Hk. unfold known_feed. by rewrite H2.
    + by rewrite H3.
    + intros c Hx. rewrite total_snoc, (adds_accepted _ _ _ Hacc), Hcode. cbn [andb]. specialize (Hc c Hx).
      destruct c; try (rewrite Z.add_0_r, H5 by done; exact Hc).
      cbn [counter_of] in *. rewrite H4. apply add_one_saturated; auto using total_nonneg.
    + rewrite omap_snoc_last. unfold says_active. rewrite Hacc. cbn [negb]. by rewrite H1.
    + intros feed. rewrite bind_app. cbn. rewrite app_nil_r, (feed_at_same g) by done. apply He.
Qed.

(** ** A new registry *)

Lemma add_feeds_spec feeds : forall m m', add_feeds feeds m = Some m' ->
  NoDup feeds /\ Forall (fun name => ValidFeedName name = true /\ m !! name = None) feeds /\
  (forall name, m' !! name = if bool_decide (name ∈ feeds) then Some new_feed else m !! name).
Proof.
  induction feeds as [| name feeds IH]; intros m m'; cbn [add_feeds].
  - intros [= <-]. split; [constructor | split; [constructor | done]].
  - destruct (ValidFeedName name) eqn:Ev; cbn [negb]; [| done]. case_bool_decide as Hs; [done |].
    assert (Hnone : m !! name = None) by (by apply eq_None_not_Some).
    intros (H1 & H2 & H3)%IH. rewrite List.Forall_forall in H2. assert (Hn : name ∉ feeds).
    { intros Hin%list_elem_of_In. apply H2 in Hin as [_ Hin]. by rewrite lookup_insert_eq in Hin. }
    split; [by constructor | split].
    + constructor; [done |]. apply List.Forall_forall. intros x Hx. destruct (H2 x Hx) as [Hv Hl]. split; [done |].
      rewrite lookup_insert_ne in Hl; [done |]. intros ->. apply Hn. by apply list_elem_of_In.
    + intros x. rewrite H3. destruct (decide (x = name)) as [-> | Hne].
      * rewrite bool_decide_eq_false_2, lookup_insert_eq, bool_decide_eq_true_2; [done | by left | done].
      * rewrite lookup_insert_ne by done. repeat case_bool_decide; try done; set_solver.
Qed.

Lemma metrics_New_spec build feeds g : metrics_New build feeds = Ok g ->
  NoDup feeds /\ Forall (fun name => ValidFeedName name = true) feeds /\
  counted (fun name => one_of name feeds) (sort_func cmp_string feeds) [] g.
Proof.
  unfold metrics_New. destruct (_ <? _); [done |]. destruct (add_feeds _ _) as [m |] eqn:E; [| done].
  apply add_feeds_spec in E as (H1 & H2 & H3). intros [= <-]. split; [by apply (NoDup_sort_func cmp_string) | split].
  - rewrite List.Forall_forall in *. intros x Hx. apply (H2 x). apply list_elem_of_In. rewrite (elem_of_sort_func cmp_string).
    by apply list_elem_of_In.
  - split; cbn [rg_feeds rg_activeDecisions].
    + intros name. unfold known_feed. cbn [rg_feed]. rewrite H3. apply eq_true_iff_eq. rewrite one_of_In, <- list_elem_of_In.
      etrans; [| apply (elem_of_sort_func cmp_string)]. rewrite bool_decide_eq_true.
      destruct (decide (name ∈ sort_func cmp_string feeds)) as [Hin | Hin].
      * rewrite bool_decide_eq_true_2 by done. naive_solver.
      * rewrite bool_decide_eq_false_2, lookup_empty by done. split; [by intros [] | done].
    + done.
    + intros c _. destruct c; try reflexivity; cbn [counter_of]; unfold feed_at; cbn [rg_feed]; rewrite H3; by destruct (bool_decide _).
    + done.
    + intros feed. unfold feed_at. cbn [rg_feed]. rewrite H3. by destruct (bool_decide _).
Qed.

(** What a registry holds after any observations. *)
Lemma observe_counted build feeds g0 os : metrics_New build feeds = Ok g0 ->
  counted (fun name => one_of name feeds) (sort_func cmp_string feeds) os (fold_left observe os g0).
Proof.
  intros (_ & _ & H0)%metrics_New_spec. induction os as [| o os IH] using rev_ind; [exact H0 |].
  rewrite fold_left_app. by apply counted_step.
Qed.

(** ** The times of the runs *)

Lemma float_compare_trans a b c : SFcompare a b = Some Lt -> SFcompare b c = Some Lt -> SFcompare a c = Some Lt.
Proof.
  destruct a as [s1 | s1 | | s1 m1 e1], b as [s2 | s2 | | s2 m2 e2], c as [s3 | s3 | | s3 m3 e3]; cbn; try done.
  all: try (destruct s1, s2; done).
  all: try (destruct s2, s3; done).
  all: try (destruct s1, s3; done).
  all: try (destruct s1, s2, s3; done).
  change (Pos.compare_cont Eq ?x ?y) with (Pos.compare x y).
  destruct s1, s2, s3; try done; destruct (Z.compare_spec e1 e2), (Z.compare_spec e2 e3), (Z.compare_spec e1 e3); subst; try done; try lia;
    rewrite <- ?Pos.compare_antisym; intros [= Hab] [= Hbc]; f_equal; rewrite ?Pos.compare_lt_iff in *; eauto using Pos.lt_trans.
Qed.

Lemma float_lt_trans a b c : float_lt a b = true -> float_lt b c = true -> float_lt a c = true.
Proof.
  unfold float_lt, SFltb. intros H1 H2. rewrite (float_compare_trans a b c); [done | |].
  - by destruct (SFcompare a b) as [[] |].
  - by destruct (SFcompare b c) as [[] |].
Qed.

(** A later time is shown, and the latest stays. *)
Lemma latest_later times v t : latest times v -> latest (times ++ [t]) (laterUnix v t).
Proof.
  intros (Hv & Hz & Hl). unfold laterUnix. change (float_div _ _) with (unix_seconds t).
  destruct (float_lt v (unix_seconds t)) eqn:E.
  - assert (Hup : forall x, float_lt v x = false -> float_lt (unix_seconds t) x = false).
    { intros x Hx. apply not_true_iff_false. intros Ht. apply not_true_iff_false in Hx. apply Hx. by eapply float_lt_trans. }
    split; [right; exists t; split; [set_solver | done] |]. split; [by apply Hup |].
    intros x [Hx | ->%list_elem_of_singleton]%elem_of_app; [by apply Hup, Hl |].
    apply not_true_iff_false. intros Ht. apply not_true_iff_false in Ht; [done |].
    unfold float_lt, SFltb in *. destruct (unix_seconds t) as [[] | [] | | [] m e]; cbn; try done;
      rewrite Z.compare_refl; change (Pos.compare_cont Eq m m) with (Pos.compare m m); by rewrite Pos.compare_refl.
  - split; [destruct Hv as [-> | (x & Hx & ->)]; [by left | right; exists x; split; [set_solver | done]] |].
    split; [done |]. intros x [Hx | ->%list_elem_of_singleton]%elem_of_app; [by apply Hl | done].
Qed.

Lemma latest_new : latest [] float_zero.
Proof. split; [by left |]. split; [done |]. intros t Ht. by apply elem_of_nil in Ht. Qed.

(** A run more: what a mode shows, and the time it was completed at. *)
Definition timed_as (rs : list ops_Result) (d : option float64) (at_ : option Time) : Prop :=
  (d = None /\ at_ = None /\ forall x, x ∈ rs -> rs_CompletedAt x <= 0) \/
  (exists r, shown_run rs r /\ d = Some (Seconds (time_Sub (rs_CompletedAt r) (rs_StartedAt r))) /\ at_ = Some (rs_CompletedAt r)).

Lemma timed_shows rs d at_ : timed_as rs d at_ -> shows_duration rs d.
Proof. intros [(-> & _ & H) | (r & H & -> & _)]; [by left | right; by exists r]. Qed.

Lemma timed_bound rs d at_ x : timed_as rs d at_ -> x ∈ rs -> rs_CompletedAt x <= default 0 at_.
Proof.
  intros [(_ & -> & H) | (r & (before & after & -> & _ & Hb & Ha) & _ & ->)] Hx; cbn; [by apply H |].
  apply elem_of_app in Hx as [Hx%Hb | Hx]; [lia |]. by apply elem_of_cons in Hx as [-> | Hx%Ha]; [| lia].
Qed.

Lemma timed_nonneg rs d at_ : timed_as rs d at_ -> 0 <= default 0 at_.
Proof. intros [(_ & -> & _) | (r & (before & after & _ & Hp & _) & _ & ->)]; cbn; lia. Qed.

Lemma timed_more rs d at_ r : timed_as rs d at_ ->
  let later := After (rs_CompletedAt r) (default 0 at_) in
  timed_as (rs ++ [r]) (if later then Some (Seconds (time_Sub (rs_CompletedAt r) (rs_StartedAt r))) else d)
    (if later then Some (rs_CompletedAt r) else at_).
Proof.
  intros H later. unfold later, After. destruct (Z.ltb_spec (default 0 at_) (rs_CompletedAt r)) as [Hl | Hl].
  - right. exists r. split; [| done]. exists rs, []. split; [done |]. split; [pose proof (timed_nonneg _ _ _ H); lia |].
    split; [| by intros x Hx%elem_of_nil]. intros x Hx%(timed_bound _ _ _ _ H). lia.
  - destruct H as [(-> & -> & H) | (r0 & (before & after & -> & Hp & Hb & Ha) & -> & ->)].
    + left. do 2 (split; [done |]). by intros x [Hx | ->%list_elem_of_singleton]%elem_of_app; [apply H |].
    + right. exists r0. split; [| done]. exists before, (after ++ [r]). rewrite <- app_assoc. do 3 (split; [done |]).
      by intros x [Hx | ->%list_elem_of_singleton]%elem_of_app; [apply Ha |].
Qed.

Lemma latest_feed at_ name feeds : forall times s, latest times (fs_lastSuccess s) ->
  latest (times ++ map (fun _ => at_) (List.filter (fun f => String.eqb (fres_Name f) name &&
      one_of (fres_Outcome f) [OutcomeSuccess; OutcomeNotModified]) feeds))
    (fs_lastSuccess (fold_left (fun s o => if String.eqb (fres_Name o) name then observe_feed at_ o s else s) feeds s)).
Proof.
  induction feeds as [| f feeds IH]; intros times s H; cbn [List.filter fold_left]; [by rewrite app_nil_r |].
  destruct (String.eqb (fres_Name f) name); cbn [andb]; [| by apply IH].
  destruct (one_of (fres_Outcome f) [OutcomeSuccess; OutcomeNotModified]) eqn:E.
  - cbn [map]. rewrite cons_middle, app_assoc. apply IH. apply one_of_In in E. unfold observe_feed.
    destruct E as [<- | [<- | []]]; by apply latest_later.
  - apply IH. unfold observe_feed. unfold one_of in E. cbn [existsb] in E. apply orb_false_iff in E as [E1 E].
    apply orb_false_iff in E as [E2 _]. rewrite E1, E2. by repeat case_match.
Qed.

(** What the gauges of times show after some runs. *)
Record clocked (xs : list run) (g : Registry) : Prop := MkClocked {
  ck_attempt : latest (xs ≫= attempt_of) (rg_lastSyncAttempt g);
  ck_success : latest (xs ≫= success_of) (rg_lastSyncSuccess g);
  ck_feed : forall feed, latest (xs ≫= feed_success_of feed) (fs_lastSuccess (feed_at g feed));
  ck_timed : forall mode, timed_as (runs_in mode xs) (rg_duration g !! mode) (rg_durationAt g !! mode) }.

Lemma timed_run mode r xs g : (forall m, timed_as (runs_in m xs) (rg_duration g !! m) (rg_durationAt g !! m)) ->
  forall m, timed_as (runs_in m (xs ++ [(mode, r)])) (rg_duration (observe_run mode r g) !! m) (rg_durationAt (observe_run mode r g) !! m).
Proof.
  intros H m. unfold runs_in. rewrite omap_app. cbn [omap list_omap fst snd observe_run rg_duration rg_durationAt].
  destruct (String.eqb_spec mode m) as [-> | Hne].
  - pose proof (timed_more _ _ _ r (H m)) as Ht. cbv zeta in Ht. destruct (After _ _); by rewrite ?lookup_insert_eq.
  - rewrite app_nil_r. destruct (After _ _); rewrite ?lookup_insert_ne by done; apply H.
Qed.

Lemma clocked_run mode r xs g : mode = ModeEnforce \/ mode = ModeDryRun -> clocked xs g ->
  clocked (xs ++ [(mode, r)]) (if String.eqb mode ModeDryRun then observe_run mode r g else observe_enforced r (observe_run mode r g)).
Proof.
  intros Hm [Ha Hs Hf Ht]. pose proof (timed_run mode r xs g Ht) as Ht'.
  split; [| | intros feed |]; rewrite ?bind_app; cbn [mbind list_bind]; rewrite ?app_nil_r.
  - by destruct Hm as [-> | ->]; apply latest_later.
  - destruct Hm as [-> | ->].
    + change (success_of (ModeEnforce, r)) with (if safe_run r then [rs_CompletedAt r] else []).
      change (String.eqb ModeEnforce ModeDryRun) with false. cbn [observe_enforced rg_lastSyncSuccess]. rewrite safe_run_spec.
      destruct (safe_run r); [by apply latest_later | by rewrite app_nil_r].
    + change (success_of (ModeDryRun, r)) with (@nil Time). by rewrite app_nil_r.
  - destruct Hm as [-> | ->].
    + change (if String.eqb ModeEnforce ModeDryRun then ?a else ?b) with b. rewrite feed_at_enforced. apply latest_feed, Hf.
    + change (feed_success_of feed (ModeDryRun, r)) with (@nil Time). rewrite app_nil_r. apply Hf.
  - by destruct Hm as [-> | ->].
Qed.

(** An observation that is not an accepted run leaves them alone. *)
Lemma observe_timeless known g o : known_as known g -> run_of known o = [] ->
  rg_lastSyncAttempt (observe g o) = rg_lastSyncAttempt g /\ rg_lastSyncSuccess (observe g o) = rg_lastSyncSuccess g /\
  rg_duration (observe g o) = rg_duration g /\ rg_durationAt (observe g o) = rg_durationAt g /\ rg_feed (observe g o) = rg_feed g.
Proof.
  intros Hk Hr. destruct o as [mode r | value | e].
  - destruct (observe_cases known g (OSync mode r) Hk) as [[_ ->] | [Ha _]]; [done |]. cbn [run_of] in Hr. by rewrite Ha in Hr.
  - cbn [observe]. unfold SetActiveDecisions. by case_match.
  - cbn [observe]. unfold metrics_ApplyEvent. by repeat case_match.
Qed.

Lemma clocked_step known xs g o : known_as known g -> clocked xs g -> clocked (xs ++ run_of known o) (observe g o).
Proof.
  intros Hk Hc. destruct (run_of known o) as [| x l] eqn:E.
  - rewrite app_nil_r. destruct (observe_timeless known g o Hk E) as (E1 & E2 & E3 & E4 & E5). destruct Hc as [Ha Hs Hf Ht].
    split; rewrite ?E1, ?E2, ?E3, ?E4; [done | done | | done]. intros feed. by rewrite (feed_at_same g).
  - destruct o as [mode r | |]; [| done ..]. cbn [run_of] in E.
    destruct (observe_cases known g (OSync mode r) Hk) as [[Hn _] | [Ha (-> & _ & Hm & _)]]; [by rewrite Hn in E |].
    rewrite Ha in E. injection E as <- <-. by apply clocked_run.
Qed.

Lemma metrics_New_clocked build feeds g : metrics_New build feeds = Ok g -> clocked [] g.
Proof.
  unfold metrics_New. destruct (_ <? _); [done |]. destruct (add_feeds _ _) as [m |] eqn:E; [| done].
  apply add_feeds_spec in E as (_ & _ & H). intros [= <-]. split; [exact latest_new | exact latest_new | |].
  - intros feed. unfold feed_at. cbn [rg_feed]. rewrite H. destruct (bool_decide _); exact latest_new.
  - intros mode. left. do 2 (split; [done |]). by intros x Hx%elem_of_nil.
Qed.

Lemma observe_clocked build feeds g0 os : metrics_New build feeds = Ok g0 ->
  clocked (os ≫= run_of (fun name => one_of name feeds)) (fold_left observe os g0).
Proof.
  intros H. induction os as [| o os IH] using rev_ind; [by eapply metrics_New_clocked |].
  rewrite fold_left_app, bind_app. cbn [mbind list_bind fold_left]. rewrite app_nil_r.
  apply clocked_step; [by eapply ct_known, observe_counted | done].
Qed.

(** C32: After any observations, in any order, every counter is the sum of what
    the accepted ones add to it, up to the largest number of 64 bits, and every
    gauge shows what it promises: the number of decisions and of the entries of a
    feed is the last an accepted observation gave; the last attempt is the latest
    time an accepted run was started at, the last success the latest time an
    enforcing run was completed at that was safe (a success, or degraded by a feed
    only), the last success of a feed the latest time of an enforcing run that had
    the feed; and the duration of a mode is that of the run of the mode that was
    completed last.  The feeds are those the
    registry was made with. *)
Theorem metrics_account build feeds g0 os (Hnew : metrics_New build feeds = Ok g0) :
  let known := fun name => one_of name feeds in
  let g := fold_left observe os g0 in
  let runs := os ≫= run_of known in
  (forall c, counter_exists c -> counter_of c g = Z.min max_uint64 (total known c os)) /\
  rg_activeDecisions g = default 0 (list.last (omap (says_active known) os)) /\
  (forall feed, fs_entries (feed_at g feed) = default 0 (list.last (os ≫= says_entries known feed))) /\
  latest (runs ≫= attempt_of) (rg_lastSyncAttempt g) /\
  latest (runs ≫= success_of) (rg_lastSyncSuccess g) /\
  (forall feed, latest (runs ≫= feed_success_of feed) (fs_lastSuccess (feed_at g feed))) /\
  (forall mode, shows_duration (runs_in mode runs) (rg_duration g !! mode)) /\
  rg_feeds g = sort_func cmp_string feeds.
Proof.
  intros known g runs. destruct (observe_counted build feeds g0 os Hnew), (observe_clocked build feeds g0 os Hnew).
  split_and!; try done. intros mode. by eapply timed_shows.
Qed.
