(* ===== verification/MetricsText.v ===== *)
(** * The text of the metrics

    A reader of the Prometheus text format gets back exactly the samples that
    were written, whatever the labels hold; and the series of a registry are
    fixed when it is made. *)

From Stdlib Require Import DecimalString.
From S2P Require Export MetricsRun.

(** ** A reader *)

Definition unescape (c : ascii) : option ascii :=
  if Ascii.eqb c "092" then Some "092"%char
  else if Ascii.eqb c "n" then Some "010"%char
  else if Ascii.eqb c "034" then Some "034"%char else None.

Definition cons_fst (c : ascii) (p : option (string * string)) : option (string * string) :=
  match p with Some (s, rest) => Some (String c s, rest) | None => None end.

(** The value of a label, up to the quote that closes it. *)
Fixpoint read_escaped (s : string) : option (string * string) :=
  match s with
  | EmptyString => None
  | String c rest =>
      if Ascii.eqb c "034" then Some ("", rest)
      else if Ascii.eqb c "010" then None
      else if Ascii.eqb c "092" then
        match rest with
        | String d rest' => match unescape d with Some x => cons_fst x (read_escaped rest') | None => None end
        | EmptyString => None
        end
      else cons_fst c (read_escaped rest)
  end.

(** Labels up to the brace that closes them; each takes a character, so the
    length of the text is fuel enough. *)
Fixpoint read_labels (fuel : nat) (s : string) : option (list label * string) :=
  match fuel with
  | O => None
  | S fuel =>
      match cut_byte "=" s with
      | Some (name, String q rest) =>
          if negb (Ascii.eqb q "034") then None
          else match read_escaped rest with
               | Some (value, String c rest') =>
                   if Ascii.eqb c "}" then Some ([MkLabel name value], rest')
                   else if Ascii.eqb c "," then
                     match read_labels fuel rest' with
                     | Some (ls, rest'') => Some (MkLabel name value :: ls, rest'')
                     | None => None
                     end
                   else None
               | _ => None
               end
      | _ => None
      end
  end.

Fixpoint read_name (s : string) : string * string :=
  match s with
  | EmptyString => ("", "")
  | String c rest =>
      if Ascii.eqb c "{" || Ascii.eqb c " " then ("", s) else let '(n, r) := read_name rest in (String c n, r)
  end.

Definition series : Type := string * list label.

(** One sample: its name, its labels, its value and the end of its line. *)
Definition read_sample (s : string) : option (series * string * string) :=
  let '(name, rest) := read_name s in
  let labels := match rest with
                | String c rest' => if Ascii.eqb c "{" then read_labels (String.length rest') rest' else Some ([], rest)
                | EmptyString => None
                end in
  match labels with
  | Some (ls, String c rest') =>
      if negb (Ascii.eqb c " ") then None
      else match cut_byte "010" rest' with Some (value, rest'') => Some ((name, ls), value, rest'') | None => None end
  | _ => None
  end.

Fixpoint read_exposition (fuel : nat) (s : string) : option (list (series * string)) :=
  match fuel with
  | O => match s with EmptyString => Some [] | _ => None end
  | S fuel =>
      match s with
      | EmptyString => Some []
      | String c _ =>
          if Ascii.eqb c "#" then
            match cut_byte "010" s with Some (_, rest) => read_exposition fuel rest | None => None end
          else
            match read_sample s with
            | Some (key, value, rest) =>
                match read_exposition fuel rest with Some l => Some ((key, value) :: l) | None => None end
            | None => None
            end
      end
  end.

(** The samples that are written. *)
Definition samples_of (m : metric) : list (series * string) := map (fun s : sample => ((mt_name m, s.1), s.2)) (mt_samples m).
Definition samples {text : FloatText} (g : Registry) : list (series * string) := flat_map samples_of (metrics g).

(** ** What is written reads back *)

Lemma read_escaped_app v rest : read_escaped (escapeLabel v +:+ quote +:+ rest) = Some (v, rest).
Proof.
  induction v as [| c v IH]; [reflexivity |]. cbn [escapeLabel]. rewrite string_app_assoc.
  set (x := escapeLabel v +:+ quote +:+ rest) in *.
  destruct (Ascii.eqb_spec c "092") as [-> | H1].
  { change (cons_fst "092" (read_escaped x) = Some (String "092" v, rest)). by rewrite IH. }
  destruct (Ascii.eqb_spec c "010") as [-> | H2].
  { change (cons_fst "010" (read_escaped x) = Some (String "010" v, rest)). by rewrite IH. }
  destruct (Ascii.eqb_spec c "034") as [-> | H3].
  { change (cons_fst "034" (read_escaped x) = Some (String "034" v, rest)). by rewrite IH. }
  change ((String c "") +:+ x) with (String c x). cbn [read_escaped].
  rewrite (proj2 (Ascii.eqb_neq c "034")), (proj2 (Ascii.eqb_neq c "010")), (proj2 (Ascii.eqb_neq c "092")) by done. by rewrite IH.
Qed.

Definition free_of (cs : list ascii) (s : string) : bool := all_chars (fun c => negb (existsb (Ascii.eqb c) cs)) s.

Lemma cut_byte_free c s rest : free_of [c] s = true -> cut_byte c (s +:+ String c rest) = Some (s, rest).
Proof.
  intros Hf. apply cut_byte_app. unfold free_of in Hf. clear - Hf. induction s as [| d s IH]; [done |].
  cbn [all_chars existsb] in *. rewrite orb_false_r in Hf. apply andb_true_iff in Hf as [-> Hf]. by apply IH.
Qed.

Lemma cut_byte_free_none c s : free_of [c] s = true -> cut_byte c s = None.
Proof.
  intros Hf. apply cut_byte_none. unfold free_of in Hf. clear - Hf. induction s as [| d s IH]; [done |].
  cbn [all_chars existsb] in *. rewrite orb_false_r in Hf. apply andb_true_iff in Hf as [-> Hf]. by apply IH.
Qed.

Lemma string_length_app a b : String.length (a +:+ b) = (String.length a + String.length b)%nat.
Proof.
  induction a as [| x a IH]; [done |].
  change (S (String.length (a +:+ b)) = S (String.length a + String.length b)). by rewrite IH.
Qed.

Definition label_ok (l : label) : Prop := free_of ["="%char] (lb_name l) = true.

Lemma label_text_app l rest : label_text l +:+ rest = lb_name l +:+ String "=" (String "034" (escapeLabel (lb_value l) +:+ quote +:+ rest)).
Proof. unfold label_text. rewrite !string_app_assoc. reflexivity. Qed.

Lemma read_labels_app ls rest : forall fuel, ls <> [] -> Forall label_ok ls -> (length ls <= fuel)%nat ->
  read_labels fuel (labels_text ls +:+ String "}" rest) = Some (ls, rest).
Proof.
  induction ls as [| l ls IH]; intros fuel Hne Hok Hf; [done |]. inversion Hok as [| ? ? Hl Hls]; subst.
  destruct fuel as [| fuel]; [cbn in Hf; lia |]. cbn [read_labels labels_text].
  destruct ls as [| l' ls].
  - rewrite label_text_app, cut_byte_free by exact Hl. cbn [negb Ascii.eqb]. rewrite read_escaped_app. cbn. by destruct l.
  - rewrite string_app_assoc, label_text_app, cut_byte_free by exact Hl. cbn [negb Ascii.eqb]. rewrite read_escaped_app.
    change ("," +:+ labels_text (l' :: ls)) with (String "," (labels_text (l' :: ls))).
    change (String "," (labels_text (l' :: ls)) +:+ String "}" rest) with (String "," (labels_text (l' :: ls) +:+ String "}" rest)).
    cbn [Ascii.eqb]. rewrite IH; [by destruct l | done | done | cbn in *; lia].
Qed.

Lemma labels_text_length ls : (length ls <= String.length (labels_text ls))%nat.
Proof.
  induction ls as [| l ls IH]; [done |]. assert (Hl : (1 <= String.length (label_text l))%nat).
  { unfold label_text. rewrite !string_length_app. cbn [String.length]. lia. }
  cbn [labels_text]. destruct ls as [| l' ls]; [exact Hl |]. rewrite !string_length_app. cbn [length String.length] in *. lia.
Qed.

Definition name_ok (name : string) : Prop :=
  free_of ["{"%char; " "%char; "#"%char; "010"%char] name = true /\ name <> "".

Lemma read_name_app name c rest : free_of ["{"%char; " "%char; "#"%char; "010"%char] name = true -> c = "{"%char \/ c = " "%char ->
  read_name (name +:+ String c rest) = (name, String c rest).
Proof.
  intros Hn Hc. unfold free_of in Hn. induction name as [| d name IH].
  - by destruct Hc as [-> | ->].
  - cbn [all_chars existsb] in Hn. apply andb_true_iff in Hn as [Hd Hn]. apply negb_true_iff in Hd.
    apply orb_false_iff in Hd as [H1 Hd]. apply orb_false_iff in Hd as [H2 _].
    change (String d name +:+ String c rest) with (String d (name +:+ String c rest)). cbn [read_name]. by rewrite H1, H2, IH.
Qed.

Definition sample_ok (s : sample) : Prop := Forall label_ok s.1 /\ free_of ["010"%char] s.2 = true.

Lemma read_sample_app name s rest : name_ok name -> sample_ok s ->
  read_sample (writeSample name s.1 s.2 +:+ rest) = Some ((name, s.1), s.2, rest).
Proof.
  intros [Hn _] [Hl Hv]. destruct s as [ls v]. cbn [fst snd] in *. unfold writeSample, read_sample. rewrite !string_app_assoc.
  assert (Htail : forall x, " " +:+ v +:+ newline +:+ x = String " " (v +:+ String "010" x)) by done.
  rewrite Htail. destruct ls as [| l ls].
  - change ("" +:+ ?x) with x. rewrite read_name_app by auto.
    change (Ascii.eqb " " "{") with false. change (Ascii.eqb " " " ") with true. cbn [negb]. by rewrite cut_byte_free.
  - rewrite !string_app_assoc. change ("{" +:+ ?x) with (String "{" x). change ("}" +:+ ?x) with (String "}" x).
    rewrite read_name_app by auto. change (Ascii.eqb "{" "{") with true. cbv iota. rewrite read_labels_app; [| done | done |].
    2: { rewrite string_length_app. pose proof (labels_text_length (l :: ls)). lia. }
    change (Ascii.eqb " " " ") with true. cbn [negb]. by rewrite cut_byte_free.
Qed.

Definition prepend {A} (l : list A) (o : option (list A)) : option (list A) :=
  match o with Some l' => Some (l ++ l') | None => None end.

Lemma string_head_append c a b : String c a +:+ b = String c (a +:+ b).
Proof. reflexivity. Qed.

(** The text [line] reads as the samples [l], before anything. *)
Definition reads_as (line : string) (l : list (series * string)) : Prop :=
  forall rest fuel, (String.length (line +:+ rest) <= fuel)%nat ->
    exists fuel', (String.length rest <= fuel')%nat /\ read_exposition fuel (line +:+ rest) = prepend l (read_exposition fuel' rest).

Lemma reads_nothing : reads_as "" [].
Proof. intros rest fuel Hf. exists fuel. split; [done |]. change ("" +:+ rest) with rest. by destruct (read_exposition fuel rest). Qed.

Lemma reads_app a b l k : reads_as a l -> reads_as b k -> reads_as (a +:+ b) (l ++ k).
Proof.
  intros Ha Hb rest fuel Hf. rewrite string_app_assoc in *. destruct (Ha _ _ Hf) as (f1 & Hf1 & ->).
  destruct (Hb _ _ Hf1) as (f2 & Hf2 & ->). exists f2. split; [done |].
  destruct (read_exposition f2 rest); cbn; [by rewrite app_assoc | done].
Qed.

Lemma reads_comment text : free_of ["010"%char] text = true -> reads_as ("#" +:+ text +:+ newline) [].
Proof.
  intros Ht rest fuel. rewrite !string_app_assoc.
  change ("#" +:+ text +:+ newline +:+ rest) with (String "#" (text +:+ String "010" rest)). intros Hf.
  destruct fuel as [| fuel]; [cbn in Hf; lia |]. cbn [read_exposition]. change (Ascii.eqb "#" "#") with true. cbv iota.
  assert (Hc : cut_byte "010" (String "#" (text +:+ String "010" rest)) = Some (String "#" text, rest)).
  { apply (cut_byte_free "010" (String "#" text) rest). exact Ht. }
  rewrite Hc. exists fuel. split; [| by destruct (read_exposition fuel rest)].
  cbn [String.length] in Hf. rewrite string_length_app in Hf. cbn [String.length] in Hf. lia.
Qed.

Lemma name_ok_head name rest : name_ok name -> exists c s, name +:+ rest = String c s /\ Ascii.eqb c "#" = false.
Proof.
  intros [Hf Hne]. destruct name as [| c name]; [done |]. exists c, (name +:+ rest). split; [done |].
  unfold free_of in Hf. cbn [all_chars existsb] in Hf. apply andb_true_iff in Hf as [Hc _].
  apply negb_true_iff in Hc. apply orb_false_iff in Hc as [_ Hc]. apply orb_false_iff in Hc as [_ Hc].
  by apply orb_false_iff in Hc as [Hc _].
Qed.

Lemma reads_sample name s : name_ok name -> sample_ok s -> reads_as (writeSample name s.1 s.2) [((name, s.1), s.2)].
Proof.
  intros Hn Hs rest fuel Hf. pose proof (read_sample_app name s rest Hn Hs) as Hr.
  assert (Hlen : (String.length rest < String.length (writeSample name s.1 s.2 +:+ rest))%nat).
  { unfold writeSample. rewrite !string_length_app. cbn [String.length newline]. change (String.length " ") with 1%nat. lia. }
  destruct (name_ok_head name ((match s.1 with [] => "" | _ => "{" +:+ labels_text s.1 +:+ "}" end +:+ " " +:+ s.2 +:+ newline) +:+ rest) Hn)
    as (c & x & He & Hc).
  assert (Hx : writeSample name s.1 s.2 +:+ rest = String c x) by (unfold writeSample; by rewrite <- He, !string_app_assoc).
  rewrite Hx in *. destruct fuel as [| fuel]; [cbn in Hf; lia |]. cbn [read_exposition]. rewrite Hc, Hr.
  exists fuel. split; [lia |]. by destruct (read_exposition fuel rest).
Qed.

Lemma reads_concat lines ls : Forall2 reads_as lines ls -> reads_as (String.concat "" lines) (List.concat ls).
Proof.
  induction 1 as [| line l lines ls Hl Hls IH]; [apply reads_nothing |]. cbn [List.concat].
  destruct lines as [| line' lines].
  - inversion Hls; subst. cbn. rewrite app_nil_r. exact Hl.
  - change (String.concat "" (line :: line' :: lines)) with (line +:+ "" +:+ String.concat "" (line' :: lines)).
    by apply reads_app.
Qed.

(** A metric whose names can be read. *)
Definition metric_ok (m : metric) : Prop :=
  name_ok (mt_name m) /\ free_of ["010"%char] (mt_type m) = true /\ free_of ["010"%char] (mt_help m) = true /\
  Forall sample_ok (mt_samples m).

Lemma free_of_app cs a b : free_of cs (a +:+ b) = free_of cs a && free_of cs b.
Proof. apply all_chars_app. Qed.

Lemma reads_metric m : metric_ok m -> reads_as (writeMetric m) (samples_of m).
Proof.
  intros (Hn & Ht & Hh & Hs). unfold writeMetric, writeDescriptor.
  assert (Hname : free_of ["010"%char] (mt_name m) = true).
  { destruct Hn as [Hf _]. revert Hf. apply all_chars_impl. intros c. cbn [existsb].
    destruct (Ascii.eqb c "010"); [by rewrite !orb_true_r | done]. }
  rewrite <- (app_nil_l (samples_of m)). apply reads_app.
  - assert (He : "# HELP " +:+ mt_name m +:+ " " +:+ mt_help m +:+ newline +:+ "# TYPE " +:+ mt_name m +:+ " " +:+ mt_type m +:+ newline =
      ("#" +:+ (" HELP " +:+ mt_name m +:+ " " +:+ mt_help m) +:+ newline) +:+ ("#" +:+ (" TYPE " +:+ mt_name m +:+ " " +:+ mt_type m) +:+ newline)).
    { rewrite !string_app_assoc. reflexivity. }
    rewrite He. apply (reads_app _ _ [] []); apply reads_comment; by rewrite !free_of_app, Hname, ?Ht, ?Hh.
  - unfold samples_of.
    replace (map (fun s : sample => (mt_name m, s.1, s.2)) (mt_samples m))
      with (List.concat (map (fun s : sample => [((mt_name m, s.1), s.2)]) (mt_samples m))).
    2: { generalize (mt_samples m) as xs. induction xs as [| x xs IH]; cbn; [done | by rewrite IH]. }
    apply reads_concat. induction Hs as [| s xs Hs _ IH]; cbn [map]; constructor; [by apply reads_sample | exact IH].
Qed.

(** ** The registry *)

Lemma digits_no_newline s : all_chars is_digit s = true -> free_of ["010"%char] s = true.
Proof.
  apply all_chars_impl. intros c Hc. cbn [existsb]. rewrite orb_false_r. apply negb_true_iff. apply Ascii.eqb_neq. by intros ->.
Qed.

Lemma itoa_no_newline z : free_of ["010"%char] (itoa z) = true.
Proof.
  assert (Hu : forall u, free_of ["010"%char] (NilZero.string_of_uint u) = true).
  { intros u. destruct u; try (apply digits_no_newline, string_of_uint_digits). done. }
  unfold itoa, NilZero.string_of_int. destruct (Z.to_int z) as [u | u]; [apply Hu |]. exact (Hu u).
Qed.

(** The texts of floats have no line break. *)
Definition floats_plain (text : FloatText) : Prop := forall f, free_of ["010"%char] (FormatFloat f) = true.

Section Registry.
Context {text : FloatText}.

Definition metric_series (m : metric) : string * list (list label) := (mt_name m, map fst (mt_samples m)).

Lemma by_label_series {A} name (xs : list A) f v : map fst (by_label name xs f v) = map (fun x => [MkLabel name (f x)]) xs.
Proof. unfold by_label. rewrite map_map. done. Qed.

Lemma metric_series_fixed g g' : rg_build g = rg_build g' -> rg_feeds g = rg_feeds g' ->
  map metric_series (metrics g) = map metric_series (metrics g').
Proof.
  intros Hb Hf. unfold metrics, metric_series. cbn [map mt_name mt_samples]. rewrite !by_label_series. unfold build_samples.
  rewrite Hb, Hf. reflexivity.
Qed.

Lemma samples_keys g : map fst (samples g) = flat_map (fun p => map (pair p.1) p.2) (map metric_series (metrics g)).
Proof.
  unfold samples. generalize (metrics g) as ms. induction ms as [| m ms IH]; [done |]. cbn [flat_map map]. rewrite map_app, IH.
  f_equal. unfold samples_of, metric_series. cbn [fst snd]. rewrite !map_map. done.
Qed.

Lemma NoDup_keys {A B} (l : list (A * list B)) : NoDup (map fst l) -> Forall (fun p => NoDup p.2) l ->
  NoDup (flat_map (fun p => map (pair p.1) p.2) l).
Proof.
  intros Hn Hl. induction Hl as [| [a bs] l Hbs Hl IH]; [constructor |]. cbn [map flat_map fst snd] in *.
  apply list.NoDup_cons in Hn as [Ha Hn]. apply list.NoDup_app. split; [| split; [| by apply IH]].
  - by apply (NoDup_fmap_2 (pair a)).
  - intros [a' b] Hin Hin'. apply list_elem_of_fmap in Hin as (b' & [= -> ->] & _). apply Ha.
    apply list_elem_of_In, in_flat_map in Hin' as ([a2 bs2] & Hin2 & Hb). apply in_map_iff in Hb as (b2 & [= -> ->] & _).
    apply list_elem_of_In. apply in_map_iff. by exists (a, bs2).
Qed.

Lemma by_label_nodup {A} name (xs : list A) f v : NoDup xs -> (forall x y, f x = f y -> x = y) -> NoDup (map fst (by_label name xs f v)).
Proof.
  intros Hn Hf. rewrite by_label_series. apply (NoDup_fmap_2_strong (fun x => [MkLabel name (f x)])); [| done].
  intros x y _ _ [= H]. by apply Hf.
Qed.

(** No series is shown twice. *)
Lemma samples_NoDup g : NoDup (rg_feeds g) -> NoDup (map fst (samples g)).
Proof.
  intros Hf. rewrite samples_keys. apply NoDup_keys.
  - rewrite map_map. unfold metrics. cbn [map metric_series fst mt_name]. apply (bool_decide_unpack _). vm_compute. exact I.
  - unfold metrics, metric_series. cbn [map mt_name mt_samples].
    repeat (apply List.Forall_cons; [cbn [snd] |]); try apply List.Forall_nil.
    all: try (apply by_label_nodup; [| done]); try exact Hf; try (apply (bool_decide_unpack _); vm_compute; exact I).
    all: try apply NoDup_singleton.
Qed.

Lemma by_label_ok {A} name (xs : list A) f v : free_of ["="%char] name = true ->
  (forall x, free_of ["010"%char] (v x) = true) -> Forall sample_ok (by_label name xs f v).
Proof.
  intros Hn Hv. unfold by_label. apply List.Forall_forall. intros s Hs. apply in_map_iff in Hs as (x & <- & _).
  split; [by repeat constructor | apply Hv].
Qed.

Lemma one_ok v : free_of ["010"%char] v = true -> Forall sample_ok (one v).
Proof. intros Hv. by repeat constructor. Qed.

(** Every metric can be read, whatever the labels hold. *)
Lemma metrics_ok g : floats_plain text -> Forall metric_ok (metrics g).
Proof.
  intros Hf. unfold metrics. repeat (apply List.Forall_cons; [| ]); try apply List.Forall_nil.
  all: split; [by split | split; [reflexivity | split; [reflexivity |]]].
  all: cbn [mt_samples]; try (apply by_label_ok; [reflexivity |]; intros x); try apply one_ok; try apply Hf; try apply itoa_no_newline.
  - repeat constructor.
  - unfold runs_samples. apply List.Forall_forall. intros s Hs. apply in_flat_map in Hs as (mode & _ & Hs).
    apply in_map_iff in Hs as (outcome & <- & _). split; [by repeat constructor | apply itoa_no_newline].
Qed.

Lemma WritePrometheus_reads g : floats_plain text -> reads_as (WritePrometheus g) (samples g).
Proof.
  intros Hf. unfold WritePrometheus, samples. rewrite List.flat_map_concat_map. apply reads_concat.
  induction (metrics_ok g Hf) as [| m ms Hm _ IH]; cbn [map]; constructor; [by apply reads_metric | exact IH].
Qed.
End Registry.

Lemma observe_build g o : rg_build (observe g o) = rg_build g.
Proof.
  destruct o as [mode r | value | e]; cbn [observe].
  - unfold ObserveSync. repeat case_match; done.
  - unfold SetActiveDecisions. by case_match.
  - unfold metrics_ApplyEvent. repeat case_match; done.
Qed.

(** C33: What the registry shows after any observations reads back as its
    samples, whatever its labels hold; and its series are distinct and those it
    had when it was made: no observation adds one. *)
Theorem exposition_round_trip {text : FloatText} build feeds g0 os (Hnew : metrics_New build feeds = Ok g0)
  (Hfloats : floats_plain text) :
  let g := fold_left observe os g0 in
  read_exposition (String.length (WritePrometheus g)) (WritePrometheus g) = Some (samples g) /\
  map fst (samples g) = map fst (samples g0) /\ NoDup (map fst (samples g)).
Proof.
  intros g. destruct (metrics_New_spec build feeds g0 Hnew) as (Hn & _ & H0). destruct H0 as [_ Hfeeds0 _ _ _].
  destruct (observe_counted build feeds g0 os Hnew) as [_ Hfeeds _ _ _]. fold g in Hfeeds.
  assert (Hb : rg_build g = rg_build g0).
  { unfold g. clear. induction os as [| o os IH] using rev_ind; [done |]. rewrite fold_left_app. cbn. by rewrite observe_build. }
  split; [| split].
  - destruct (WritePrometheus_reads g Hfloats "" (String.length (WritePrometheus g))) as (f & _ & Hr); rewrite ?string_app_nil in *; [lia |].
    rewrite Hr. destruct f; cbn; by rewrite app_nil_r.
  - rewrite !samples_keys. f_equal. apply metric_series_fixed; [done | congruence].
  - apply samples_NoDup. rewrite Hfeeds. by apply (NoDup_sort_func cmp_string).
Qed.

(** ** A registry, evaluated *)

Definition ex_info : Info := MkInfo "crowdshield" "v1.2.3" "10.0.0.1" "unknown" "go1.25" "linux" "amd64".
Definition no_registry : Registry :=
  MkRegistry ex_info [] ∅ float_zero float_zero ∅ ∅ ∅ ∅ 0 0 0 0 0 ∅ ∅ 0 ∅.
Definition ex_registry : Registry :=
  Eval vm_compute in match metrics_New ex_info ["b-feed"; "a-feed"] with Ok g => g | Err _ => no_registry end.

Definition ex_metrics_at : Time := Unix 1700000000.
Definition ex_metrics_counts : Counts := MkCounts 1 1 0 0 5 0 2 3 0 4 40.
Definition ex_degraded : ops_Result :=
  MkOpsResult OutcomeDegraded FailureFeedDownload true ex_metrics_at (ex_metrics_at + 3 * Second) ex_metrics_counts
    [MkOpsFeedResult "a-feed" OutcomeSuccess "" 17 3; MkOpsFeedResult "b-feed" OutcomeFailed FailureFeedDownload 0 0].
Definition ex_unknown : ops_Result :=
  MkOpsResult OutcomeSuccess "" false ex_metrics_at ex_metrics_at no_counts [MkOpsFeedResult "c-feed" OutcomeSuccess "" 17 3].
Definition ex_observations : list observation :=
  [OSync ModeEnforce ex_degraded; OSync ModeDryRun ex_degraded; OSync ModeEnforce ex_unknown; OActive (-1);
   OSync ModeEnforce ex_degraded].

Example metrics_account_witness :
  let g := fold_left observe ex_observations ex_registry in
  counter_of CAdded g = 10 /\ counter_of (CDownloadFailures "b-feed") g = 2 /\
  counter_of (CRuns ModeDryRun OutcomeDegraded) g = 1 /\ rg_activeDecisions g = 40 /\ fs_entries (feed_at g "a-feed") = 17 /\
  latest (replicate 3 ex_metrics_at) (rg_lastSyncAttempt g) /\ latest (replicate 2 (ex_metrics_at + 3 * Second)) (rg_lastSyncSuccess g) /\
  latest (replicate 2 (ex_metrics_at + 3 * Second)) (fs_lastSuccess (feed_at g "a-feed")) /\
  latest [] (fs_lastSuccess (feed_at g "b-feed")) /\ shows_duration [ex_degraded] (rg_duration g !! ModeDryRun) /\
  rg_duration g !! ModeEnforce = Some (float_of_int 3).
Proof.
  destruct (metrics_account ex_info ["b-feed"; "a-feed"] ex_registry ex_observations eq_refl) as (Hc & Ha & He & Ht & Hs & Hf & Hd & _).
  cbv zeta. rewrite (Hc CAdded I), (Hc (CDownloadFailures "b-feed") I), (Hc (CRuns ModeDryRun OutcomeDegraded) (or_intror eq_refl)), Ha, He.
  do 5 (split; [by vm_compute |]). do 2 (split; [assumption |]).
  split; [exact (Hf "a-feed") |]. split; [exact (Hf "b-feed") |]. split; [exact (Hd ModeDryRun) | by vm_compute].
Defined.

#[local] Instance zero_floats : FloatText := { FormatFloat _ := "0" }.

Example exposition_round_trip_witness :
  let g := fold_left observe ex_observations ex_registry in
  read_exposition (String.length (WritePrometheus g)) (WritePrometheus g) = Some (samples g) /\
  length (samples g) = 60%nat /\
  (* a revision that is an address is not shown *)
  map (fun l => lb_value l) (default [] (fst <$> (head (build_samples g)))) = ["v1.2.3"; "unknown"; "go1.25"; "linux"; "amd64"].
Proof.
  split; [| split; vm_compute; reflexivity].
  exact (proj1 (exposition_round_trip ex_info ["b-feed"; "a-feed"] ex_registry ex_observations eq_refl (fun _ => eq_refl))).
Defined.
