(* ===== verification/Runtime.v ===== *)
(** * The runtime ([internal/app/runtime.go])

    What the service does from its start to its end: it brings up the store,
    the local API and the notifications, runs the scheduler and the HTTP server
    side by side until one of them or its context ends, and then releases
    everything it was given.

    Its collaborators are the operations of a world.  The two goroutines are
    part of that world: it starts them, says which of the three channels of the
    [select] is ready first, and how each goroutine ended. *)

From S2P Require Export SyncJob StatePrune.

Definition ErrRuntimeAlreadyRun : error := Foreign "runtime already run".
Definition ErrRuntimeStartup : error := Foreign "runtime startup failure".
Definition ErrRuntimeFailure : error := Foreign "runtime worker failure".
Definition ErrRuntimeShutdown : error := Foreign "runtime shutdown failure".

(** How the function of a goroutine ends. *)
Inductive worker_end : Type :=
| Returned (err : option error)
| Panicked.

Definition runRuntimeWorker (worker : option worker_end) : option error :=
  match worker with
  | None => Some ErrRuntimeFailure
  | Some Panicked => Some ErrRuntimeFailure
  | Some (Returned (Some _)) => Some ErrRuntimeFailure
  | Some (Returned None) => None
  end.

(** The case of the [select] that is taken. *)
Inductive ready_channel : Type :=
| ContextDone
| SchedulerDone (e : worker_end)
| HttpDone (e : worker_end).

Class RuntimeWorld (W : Type) : Type := {
  r_now : W -> Time * W;
  r_RecoverInterruptedSyncRuns : Time -> M W error Z;
  r_RuntimeTimestamp : RuntimeTimestampKey -> M W error (option Time);
  r_PruneHistory : Time -> Duration -> Z -> M W error PruneResult;
  r_ListActiveDecisions : M W error (list DecisionRecord);
  r_State_Close : W -> option error * W;
  r_Authenticate : W -> option error * W;
  r_MarkConfiguration : bool -> W -> W;
  r_MarkCredentials : bool -> W -> W;
  r_MarkDatabase : bool -> W -> W;
  r_MarkLAPI : bool -> W -> W;
  r_MarkRuntimeFatal : W -> W;
  r_MarkStopping : W -> W;
  r_RecordSync : ops_Result -> W -> option error * W;
  r_SetActiveDecisions : Z -> W -> option error * W;
  r_Startup : W -> W;
  r_Notifications_Close : W -> W;
  r_Observe : Event -> W -> W;
  r_start_workers : W -> W;
  r_select : W -> ready_channel * W;
  r_cancelWorkers : W -> W;
  r_schedulerDone : W -> worker_end * W;
  r_Shutdown : W -> option error * W;
  r_httpDone : W -> worker_end * W;
  r_Listener_Close : W -> W;
  r_CloseIdleConnections : nat -> W -> W;
  r_Destroy : W -> W }.

(** The settings; the idle closers are known by their position. *)
Record Runtime : Type := MkRuntime {
  rt_idleClosers : nat; rt_historyRetention : Duration; rt_maxHistoryEntries : Z; rt_pruneInterval : Duration }.

(** [NewRuntime]: the guards of the settings; the collaborators are the world. *)
Definition NewRuntime (idleClosers : nat) (historyRetention : Duration) (maxHistoryEntries : Z) (pruneInterval : Duration)
  : result error Runtime :=
  if (historyRetention <? Hour) || (10 * 365 * 24 * Hour <? historyRetention) ||
     (maxHistoryEntries <? 1) || (1000000 <? maxHistoryEntries) ||
     (pruneInterval <? Hour) || (30 * 24 * Hour <? pruneInterval)
  then Err ErrInvalidRuntimeOptions
  else Ok (MkRuntime idleClosers historyRetention maxHistoryEntries pruneInterval).

(** [for _, value := range values { ...; total += value }] *)
Fixpoint total_removed (values : list Z) (total : Z) : option Z :=
  match values with
  | [] => Some total
  | value :: rest =>
      if (value <? 0) || (100000000 <? value) || (100000000 - value <? total) then None
      else total_removed rest (total + value)
  end.

Definition pruneRemoved (r : PruneResult) : option Z :=
  total_removed [pr_SyncRuns r; pr_Operations r; pr_Decisions r; pr_Alerts r; pr_EnforcementObjects r; pr_FeedEntries r] 0.

(** ** Events *)

Definition runtime_event (code : Code) (outcome : Outcome) (severity : Severity) (failure : FailureCategory) (at_ : Time)
  : Event := MkEvent code OperationService "" outcome severity failure at_ 0 0 no_counts.

Definition database_event (outcome : Outcome) (severity : Severity) (failure : FailureCategory) (at_ : Time) : Event :=
  MkEvent CodeDatabaseStateChange OperationDatabase "" outcome severity failure at_ 0 0 no_counts.

Definition runtime_lapi_event (outcome : Outcome) (severity : Severity) (failure : FailureCategory) (at_ : Time) : Event :=
  MkEvent CodeLAPIStateChanged OperationLAPI "" outcome severity failure at_ 0 0 no_counts.

Definition prune_event (removed : Z) (at_ : Time) : Event :=
  MkEvent CodePruneCompleted OperationPrune "" OutcomeSuccess SeverityInfo "" at_ 0 0 (MkCounts 0 0 0 0 0 0 removed 0 0 0 0).

Definition safe_sync_at (at_ : Time) : ops_Result := MkOpsResult OutcomeSuccess "" false at_ at_ no_counts [].

Section Runtime.
Context {W : Type} `{!RuntimeWorld W} (rt : Runtime).

Definition runtime_emit (e : Event) (w : W) : W :=
  match Event_Validate e with None => r_Observe e w | Some _ => w end.

(** ** The start *)

(** [MarkDatabase(false)], the event, and the error. *)
Definition database_failed (now : Time) : M W error unit := fun w =>
  let w := r_MarkDatabase false w in
  let w := runtime_emit (database_event OutcomeUnavailable SeverityError FailureDatabase now) w in
  (Err ErrRuntimeStartup, w).

Definition says (f : W -> W) : M W error unit := fun w => (Ok tt, f w).

Definition failing (f : W -> option error * W) : M W error (option error) := fun w =>
  let '(e, w) := f w in (Ok e, w).

Definition recover_runs (now : Time) : M W error unit :=
  let~ r := r_RecoverInterruptedSyncRuns now in
  match r with
  | Err _ => database_failed now
  | Ok _ =>
      let! _ := says (r_MarkDatabase true) in
      says (runtime_emit (database_event OutcomeAvailable SeverityInfo "" now))
  end.

Definition restore_sync (now : Time) : M W error unit :=
  let~ r := r_RuntimeTimestamp RuntimeLastSafeSync in
  match r with
  | Err _ => database_failed now
  | Ok None => mok tt
  | Ok (Some lastSafe) =>
      let! e := failing (r_RecordSync (safe_sync_at lastSafe)) in
      match e with Some _ => mfail ErrRuntimeStartup | None => mok tt end
  end.

Definition prune_due (now : Time) (lastPrune : option Time) : bool :=
  match lastPrune with
  | None => true
  | Some last => negb (Before now last) && (rt_pruneInterval rt <=? time_Sub now last)
  end.

(** A failing [PruneHistory] returns no counts. *)
Definition prune_history (now : Time) : M W error unit :=
  let~ r := r_PruneHistory now (rt_historyRetention rt) (rt_maxHistoryEntries rt) in
  match r with
  | Err _ => database_failed now
  | Ok pruned =>
      match pruneRemoved pruned with
      | None => database_failed now
      | Some removed => says (runtime_emit (prune_event removed now))
      end
  end.

Definition prune_if_due (now : Time) : M W error unit :=
  let~ r := r_RuntimeTimestamp RuntimeLastPrune in
  match r with
  | Err _ => database_failed now
  | Ok lastPrune => if prune_due now lastPrune then prune_history now else mok tt
  end.

Definition count_active : M W error unit :=
  let~ r := r_ListActiveDecisions in
  match r with
  | Err _ => mfail ErrRuntimeStartup
  | Ok active =>
      let! e := failing (r_SetActiveDecisions (Z.of_nat (List.length active))) in
      match e with Some _ => mfail ErrRuntimeStartup | None => mok tt end
  end.

Definition authenticate (now : Time) : M W error unit :=
  let! e := failing r_Authenticate in
  match e with
  | Some _ =>
      let! _ := says (r_MarkLAPI false) in
      let! _ := says (runtime_emit (runtime_lapi_event OutcomeUnavailable SeverityError FailureLAPIAuth now)) in
      mfail ErrRuntimeStartup
  | None =>
      let! _ := says (r_MarkLAPI true) in
      says (runtime_emit (runtime_lapi_event OutcomeAvailable SeverityInfo "" now))
  end.

(** From the clock on. *)
Definition bootstrap_at (now : Time) : M W error unit :=
  if time_IsZero now || (unix now <? 0) then mfail ErrRuntimeStartup
  else
    let! _ := says (runtime_emit (runtime_event CodeServiceStarting OutcomeStarted SeverityInfo "" now)) in
    let! _ := says (r_MarkConfiguration true) in
    let! _ := says (r_MarkCredentials true) in
    let! _ := recover_runs now in
    let! _ := restore_sync now in
    let! _ := prune_if_due now in
    let! _ := count_active in
    let! _ := authenticate now in
    let! _ := says r_Startup in
    says (runtime_emit (runtime_event CodeServiceStarted OutcomeSuccess SeverityInfo "" now)).

Definition bootstrap : M W error unit := fun w => let '(now, w) := r_now w in bootstrap_at now w.

(** ** The end *)

Definition closeResources (w : W) : option error * W :=
  let w := r_Listener_Close w in
  let w := fold_left (fun w i => r_CloseIdleConnections i w) (seq 0 (rt_idleClosers rt)) w in
  let '(closeErr, w) := r_State_Close w in
  (closeErr, r_Destroy w).

(** [MarkRuntimeFatal] and its event. *)
Definition runtime_fatal (now : Time) (w : W) : W :=
  runtime_emit (runtime_event CodeRuntimeFatal OutcomeFailed SeverityError FailureRuntime now) (r_MarkRuntimeFatal w).

Definition failStartup (w : W) : option error * W :=
  let '(now, w) := r_now w in
  let w := runtime_fatal now w in
  let w := r_Notifications_Close w in
  let '(_, w) := closeResources w in
  (Some ErrRuntimeStartup, w).

(** [if err := <-done; err != nil && runtimeErr == nil { runtimeErr = ErrRuntimeFailure }],
    for a goroutine that has not ended yet. *)
Definition joined (finished : bool) (done : W -> worker_end * W) (runtimeErr : option error) (w : W) : option error * W :=
  if finished then (runtimeErr, w)
  else
    let '(e, w) := done w in
    (match runRuntimeWorker (Some e), runtimeErr with Some _, None => Some ErrRuntimeFailure | _, _ => runtimeErr end, w).

(** From the ready channel on. *)
Definition shutdown (first : ready_channel) (w : W) : option error * W :=
  let runtimeErr := match first with ContextDone => None | _ => Some ErrRuntimeFailure end in
  let schedulerFinished := match first with SchedulerDone _ => true | _ => false end in
  let httpFinished := match first with HttpDone _ => true | _ => false end in
  let '(now, w) := r_now w in
  let w := match runtimeErr with Some _ => runtime_fatal now w | None => w end in
  let w := r_MarkStopping w in
  let w := runtime_emit (runtime_event CodeServiceStopping OutcomeStarted SeverityInfo "" now) w in
  let w := r_cancelWorkers w in
  let '(runtimeErr, w) := joined schedulerFinished r_schedulerDone runtimeErr w in
  let w := r_Notifications_Close w in
  let '(shutdownErr, w) := r_Shutdown w in
  let '(runtimeErr, w) := joined httpFinished r_httpDone runtimeErr w in
  let '(closeErr, w) := closeResources w in
  let runtimeErr := match closeErr, shutdownErr, runtimeErr with
                    | None, None, _ | _, _, Some _ => runtimeErr
                    | _, _, None => Some ErrRuntimeShutdown
                    end in
  let '(now, w) := r_now w in
  (runtimeErr, runtime_emit (runtime_event CodeServiceStopped OutcomeStopped SeverityInfo "" now) w).

(** [ran] is the flag the call finds: a runtime runs once. *)
Definition Runtime_Run (ran : bool) (w : W) : option error * W :=
  if ran then (Some ErrRuntimeAlreadyRun, w)
  else
    match bootstrap w with
    | (Err _, w) => failStartup w
    | (Ok _, w) =>
        let w := r_start_workers w in
        let '(first, w) := r_select w in
        shutdown first w
    end.
End Runtime.
