(* ===== verification/RuntimeRun.v ===== *)
(** * What the runtime does

    An abstract specification of a run of the service, as the sequences of what
    it does to its collaborators; the proof that the code follows it; and what
    the specification guarantees: nothing is started before the start-up
    succeeded, everything is released exactly once, and the store is closed last
    of all that use it. *)

From S2P Require Export Runtime.

(** ** Logged worlds *)

Inductive doing : Type :=
| DoNow (t : Time)
| DoRecover (now : Time) (r : result error Z)
| DoTimestamp (key : RuntimeTimestampKey) (r : result error (option Time))
| DoPrune (now : Time) (r : result error PruneResult)
| DoListActive (r : result error (list DecisionRecord))
| DoAuthenticate (e : option error)
| DoMarkConfiguration (valid : bool)
| DoMarkCredentials (loaded : bool)
| DoMarkDatabase (available : bool)
| DoMarkLAPI (available : bool)
| DoMarkFatal
| DoMarkStopping
| DoRecordSync (r : ops_Result) (e : option error)
| DoSetActive (n : Z) (e : option error)
| DoStartup
| DoObserve (e : Event)
| DoStart
| DoSelect (first : ready_channel)
| DoCancel
| DoSchedulerEnds (e : worker_end)
| DoShutdown (e : option error)
| DoHttpEnds (e : worker_end)
| DoNotificationsClose
| DoListenerClose
| DoCloseIdle (i : nat)
| DoStateClose (e : option error)
| DoDestroy.

Section Logged.
Context {W : Type} `{!RuntimeWorld W}.

(** An operation of the world, and what the log says about it. *)
Definition noted {A} (f : W -> A * W) (note : A -> doing) (wl : W * list doing) : A * (W * list doing) :=
  let '(a, w) := f wl.1 in (a, (w, wl.2 ++ [note a])).

Definition noted_only (f : W -> W) (note : doing) (wl : W * list doing) : W * list doing := (f wl.1, wl.2 ++ [note]).

#[export] Instance runtime_logged : RuntimeWorld (W * list doing) := {|
  r_now := noted r_now DoNow;
  r_RecoverInterruptedSyncRuns now := noted (r_RecoverInterruptedSyncRuns now) (DoRecover now);
  r_RuntimeTimestamp key := noted (r_RuntimeTimestamp key) (DoTimestamp key);
  r_PruneHistory now retention limit := noted (r_PruneHistory now retention limit) (DoPrune now);
  r_ListActiveDecisions := noted r_ListActiveDecisions DoListActive;
  r_State_Close := noted r_State_Close DoStateClose;
  r_Authenticate := noted r_Authenticate DoAuthenticate;
  r_MarkConfiguration b := noted_only (r_MarkConfiguration b) (DoMarkConfiguration b);
  r_MarkCredentials b := noted_only (r_MarkCredentials b) (DoMarkCredentials b);
  r_MarkDatabase b := noted_only (r_MarkDatabase b) (DoMarkDatabase b);
  r_MarkLAPI b := noted_only (r_MarkLAPI b) (DoMarkLAPI b);
  r_MarkRuntimeFatal := noted_only r_MarkRuntimeFatal DoMarkFatal;
  r_MarkStopping := noted_only r_MarkStopping DoMarkStopping;
  r_RecordSync r := noted (r_RecordSync r) (DoRecordSync r);
  r_SetActiveDecisions n := noted (r_SetActiveDecisions n) (DoSetActive n);
  r_Startup := noted_only r_Startup DoStartup;
  r_Notifications_Close := noted_only r_Notifications_Close DoNotificationsClose;
  r_Observe e := noted_only (r_Observe e) (DoObserve e);
  r_start_workers := noted_only r_start_workers DoStart;
  r_select := noted r_select DoSelect;
  r_cancelWorkers := noted_only r_cancelWorkers DoCancel;
  r_schedulerDone := noted r_schedulerDone DoSchedulerEnds;
  r_Shutdown := noted r_Shutdown DoShutdown;
  r_httpDone := noted r_httpDone DoHttpEnds;
  r_Listener_Close := noted_only r_Listener_Close DoListenerClose;
  r_CloseIdleConnections i := noted_only (r_CloseIdleConnections i) (DoCloseIdle i);
  r_Destroy := noted_only r_Destroy DoDestroy |}.
End Logged.

(** ** The specification *)

#[local] Arguments pruneRemoved : simpl never.
#[local] Arguments total_removed : simpl never.

(** What a part of the start-up does, and whether it goes on. *)
Abbreviation part := (list doing -> bool -> Prop).

(** The parts in order, until the first that fails. *)
Inductive parts : list part -> list doing -> bool -> Prop :=
| parts_done : parts [] [] true
| parts_failed (P : part) Ps l : P l false -> parts (P :: Ps) l false
| parts_next (P : part) Ps l1 l2 ok : P l1 true -> parts Ps l2 ok -> parts (P :: Ps) (l1 ++ l2) ok.

(** An event that is valid is observed. *)
Definition said (e : Event) : list doing := match Event_Validate e with None => [DoObserve e] | Some _ => [] end.

Definition database_lost (now : Time) : list doing :=
  DoMarkDatabase false :: said (database_event OutcomeUnavailable SeverityError FailureDatabase now).

Section Spec.
Context (rt : Runtime).

Inductive clock_part (now : Time) : part :=
| clock_bad : time_IsZero now || (unix now <? 0) = true -> clock_part now [] false
| clock_good : time_IsZero now || (unix now <? 0) = false -> clock_part now [] true.

Inductive announce_part (now : Time) : part :=
| announced : announce_part now (said (runtime_event CodeServiceStarting OutcomeStarted SeverityInfo "" now) ++
                                 [DoMarkConfiguration true; DoMarkCredentials true]) true.

Inductive recover_part (now : Time) : part :=
| recover_fails e : recover_part now (DoRecover now (Err e) :: database_lost now) false
| recovered n : recover_part now (DoRecover now (Ok n) :: DoMarkDatabase true ::
    said (database_event OutcomeAvailable SeverityInfo "" now)) true.

Inductive restore_part (now : Time) : part :=
| restore_fails e : restore_part now (DoTimestamp RuntimeLastSafeSync (Err e) :: database_lost now) false
| restore_none : restore_part now [DoTimestamp RuntimeLastSafeSync (Ok None)] true
| restore_refused at_ e : restore_part now
    [DoTimestamp RuntimeLastSafeSync (Ok (Some at_)); DoRecordSync (safe_sync_at at_) (Some e)] false
| restored at_ : restore_part now
    [DoTimestamp RuntimeLastSafeSync (Ok (Some at_)); DoRecordSync (safe_sync_at at_) None] true.

Inductive prune_part (now : Time) : part :=
| prune_unknown e : prune_part now (DoTimestamp RuntimeLastPrune (Err e) :: database_lost now) false
| prune_not_due last : prune_due rt now last = false -> prune_part now [DoTimestamp RuntimeLastPrune (Ok last)] true
| prune_fails last e : prune_due rt now last = true ->
    prune_part now (DoTimestamp RuntimeLastPrune (Ok last) :: DoPrune now (Err e) :: database_lost now) false
| prune_miscounts last r : prune_due rt now last = true -> pruneRemoved r = None ->
    prune_part now (DoTimestamp RuntimeLastPrune (Ok last) :: DoPrune now (Ok r) :: database_lost now) false
| prunes last r removed : prune_due rt now last = true -> pruneRemoved r = Some removed ->
    prune_part now (DoTimestamp RuntimeLastPrune (Ok last) :: DoPrune now (Ok r) :: said (prune_event removed now)) true.

Inductive active_part : part :=
| active_unknown e : active_part [DoListActive (Err e)] false
| active_refused ds e : active_part [DoListActive (Ok ds); DoSetActive (Z.of_nat (List.length ds)) (Some e)] false
| active_known ds : active_part [DoListActive (Ok ds); DoSetActive (Z.of_nat (List.length ds)) None] true.

Inductive lapi_part (now : Time) : part :=
| lapi_refuses e : lapi_part now (DoAuthenticate (Some e) :: DoMarkLAPI false ::
    said (runtime_lapi_event OutcomeUnavailable SeverityError FailureLAPIAuth now)) false
| lapi_accepts : lapi_part now (DoAuthenticate None :: DoMarkLAPI true ::
    said (runtime_lapi_event OutcomeAvailable SeverityInfo "" now)) true.

Inductive ready_part (now : Time) : part :=
| ready_said : ready_part now (DoStartup :: said (runtime_event CodeServiceStarted OutcomeSuccess SeverityInfo "" now)) true.

Definition startup_parts (now : Time) : list part :=
  [clock_part now; announce_part now; recover_part now; restore_part now; prune_part now; active_part; lapi_part now;
   ready_part now].

(** The release of everything, and the error of closing the store. *)
Definition released (closeErr : option error) : list doing :=
  DoListenerClose :: map DoCloseIdle (seq 0 (rt_idleClosers rt)) ++ [DoStateClose closeErr; DoDestroy].

Definition fatal_said (now : Time) : list doing :=
  DoMarkFatal :: said (runtime_event CodeRuntimeFatal OutcomeFailed SeverityError FailureRuntime now).

(** How a worker that is awaited ends, or nothing for the one that ended first. *)
Definition awaited (finished : bool) (note : worker_end -> doing) (e : worker_end) : list doing :=
  if finished then [] else [note e].

Definition scheduler_first (f : ready_channel) : bool := match f with SchedulerDone _ => true | _ => false end.
Definition http_first (f : ready_channel) : bool := match f with HttpDone _ => true | _ => false end.

(** A worker that ended by itself, or badly. *)
Definition worker_failed (f : ready_channel) (se he : worker_end) : bool :=
  match f with
  | ContextDone => negb (bool_decide (runRuntimeWorker (Some se) = None) && bool_decide (runRuntimeWorker (Some he) = None))
  | _ => true
  end.

Definition run_error (f : ready_channel) (se he : worker_end) (shutdownErr closeErr : option error) : option error :=
  if worker_failed f se he then Some ErrRuntimeFailure
  else match shutdownErr, closeErr with None, None => None | _, _ => Some ErrRuntimeShutdown end.

Definition stopping (f : ready_channel) (now t : Time) (se he : worker_end) (shutdownErr closeErr : option error) : list doing :=
  DoStart :: DoSelect f :: DoNow now :: match f with ContextDone => [] | _ => fatal_said now end ++
  DoMarkStopping :: said (runtime_event CodeServiceStopping OutcomeStarted SeverityInfo "" now) ++
  DoCancel :: awaited (scheduler_first f) DoSchedulerEnds se ++
  DoNotificationsClose :: DoShutdown shutdownErr :: awaited (http_first f) DoHttpEnds he ++
  released closeErr ++ DoNow t :: said (runtime_event CodeServiceStopped OutcomeStopped SeverityInfo "" t).

(** A whole run, and the error it returns. *)
Inductive runtime_trace : list doing -> option error -> Prop :=
| startup_failed now l t closeErr : parts (startup_parts now) l false ->
    runtime_trace (DoNow now :: l ++ DoNow t :: fatal_said t ++ DoNotificationsClose :: released closeErr)
      (Some ErrRuntimeStartup)
| service_ran now l f t t' se he shutdownErr closeErr : parts (startup_parts now) l true ->
    runtime_trace (DoNow now :: l ++ stopping f t t' se he shutdownErr closeErr)
      (run_error f se he shutdownErr closeErr).
End Spec.

(** ** The code follows it *)

Section Follows.
Context {W : Type} `{!RuntimeWorld W} (rt : Runtime).
Abbreviation LW := (W * list doing)%type.

Lemma emit_said e (w : LW) : (runtime_emit e w).2 = w.2 ++ said e.
Proof. unfold runtime_emit, said. destruct (Event_Validate e); cbn; [by rewrite app_nil_r|done]. Qed.

(** [m] does what the part says. *)
Definition follows (m : M LW error unit) (P : part) : Prop := forall w, exists l ok,
  P l ok /\ (m w).2.2 = w.2 ++ l /\ (m w).1 = if ok then Ok tt else Err ErrRuntimeStartup.

Lemma follows_intro (m : M LW error unit) (P : part) (w : LW) l ok :
  P l ok -> (m w).2.2 = w.2 ++ l -> (m w).1 = (if ok then Ok tt else Err ErrRuntimeStartup) ->
  exists l ok, P l ok /\ (m w).2.2 = w.2 ++ l /\ (m w).1 = if ok then Ok tt else Err ErrRuntimeStartup.
Proof. eauto. Qed.

Lemma follows_then m k P Ps : follows m P -> follows k (parts Ps) -> follows (let! _ := m in k) (parts (P :: Ps)).
Proof.
  intros Hm Hk w. destruct (Hm w) as (l & [] & HP & Hl & Hr); unfold mthen; destruct (m w) as [r w1] eqn:Em; cbn in Hl, Hr; subst r.
  - destruct (Hk w1) as (l2 & ok & HPs & Hl2 & Hr2). exists (l ++ l2), ok. split; [by apply (parts_next P)|].
    by rewrite Hl2, Hl, app_assoc.
  - exists l, false. split; [by apply parts_failed|done].
Qed.

Lemma follows_last m P : follows m P -> follows m (parts [P]).
Proof.
  intros Hm w. destruct (Hm w) as (l & [] & HP & Hl & Hr).
  - exists (l ++ []), true. split; [apply (parts_next P); [done|constructor]|]. by rewrite app_nil_r.
  - exists l, false. by split; [apply parts_failed|].
Qed.

Lemma database_failed_log now (w : LW) : (database_failed now w).2.2 = w.2 ++ database_lost now.
Proof. unfold database_failed, database_lost. cbn [snd]. rewrite emit_said. cbn. by rewrite <- app_assoc. Qed.

Lemma recover_follows now : follows (recover_runs now) (recover_part now).
Proof.
  intros w. unfold recover_runs, mtry. cbn. unfold noted. destruct (r_RecoverInterruptedSyncRuns now w.1) as [[n|e] w1].
  - exists (DoRecover now (Ok n) :: DoMarkDatabase true :: said (database_event OutcomeAvailable SeverityInfo "" now)), true.
    split; [constructor|]. split; [|done]. cbn. rewrite emit_said. cbn. by rewrite <- !app_assoc.
  - exists (DoRecover now (Err e) :: database_lost now), false. split; [constructor|]. split; [|done].
    rewrite database_failed_log. cbn. by rewrite <- app_assoc.
Qed.

Lemma restore_follows now : follows (restore_sync now) (restore_part now).
Proof.
  intros w. unfold restore_sync, mtry. cbn. unfold noted.
  destruct (r_RuntimeTimestamp RuntimeLastSafeSync w.1) as [[[at_|]|e] w1]; cbn.
  - unfold mthen, failing. cbn. unfold noted. cbn. destruct (r_RecordSync _ w1) as [[e|] w2]; cbn.
    + eexists _, false. split; [apply (restore_refused now at_ e)|]. by rewrite <- app_assoc.
    + eexists _, true. split; [apply (restored now at_)|]. by rewrite <- app_assoc.
  - eexists _, true. split; [apply restore_none|]. done.
  - eexists _, false. split; [apply (restore_fails now e)|]. cbn. split; [|done].
    rewrite emit_said. cbn. by rewrite <- !app_assoc.
Qed.

Lemma prune_follows now : follows (prune_if_due rt now) (prune_part rt now).
Proof.
  intros w. unfold prune_if_due, mtry. cbn. unfold noted.
  destruct (r_RuntimeTimestamp RuntimeLastPrune w.1) as [[last|e] w1]; cbn.
  2:{ eexists _, false. split; [apply (prune_unknown rt now e)|]. cbn. split; [|done].
      rewrite emit_said. cbn. by rewrite <- !app_assoc. }
  destruct (prune_due rt now last) eqn:Hdue; cbn.
  2:{ eexists _, true. by split; [apply prune_not_due|]. }
  unfold prune_history, mtry. cbn. unfold noted. cbn. destruct (r_PruneHistory _ _ _ w1) as [[r|e] w2]; cbn.
  - destruct (pruneRemoved r) as [n|] eqn:Hr; cbn.
    + eexists _, true. split; [by apply (prunes rt now last r n)|]. split; [|done].
      rewrite emit_said. cbn. by rewrite <- !app_assoc.
    + eexists _, false. split; [by apply (prune_miscounts rt now last r)|]. split; [|done].
      rewrite emit_said. cbn. by rewrite <- !app_assoc.
  - eexists _, false. split; [by apply (prune_fails rt now last e)|]. split; [|done].
    rewrite emit_said. cbn. by rewrite <- !app_assoc.
Qed.

Lemma active_follows : follows count_active active_part.
Proof.
  intros w. unfold count_active, mtry. cbn. unfold noted. destruct (r_ListActiveDecisions w.1) as [[ds|e] w1]; cbn.
  2:{ eexists _, false. by split; [apply (active_unknown e)|]. }
  unfold mthen, failing. cbn. unfold noted. cbn. destruct (r_SetActiveDecisions _ w1) as [[e|] w2]; cbn.
  - eexists _, false. split; [apply (active_refused ds e)|]. by rewrite <- app_assoc.
  - eexists _, true. split; [apply (active_known ds)|]. by rewrite <- app_assoc.
Qed.

Lemma lapi_follows now : follows (authenticate now) (lapi_part now).
Proof.
  intros w. unfold authenticate, mthen, failing. cbn. unfold noted. destruct (r_Authenticate w.1) as [[e|] w1]; cbn.
  - eexists _, false. split; [apply (lapi_refuses now e)|]. split; [|done]. rewrite emit_said. cbn. by rewrite <- !app_assoc.
  - eexists _, true. split; [apply lapi_accepts|]. split; [|done]. rewrite emit_said. cbn. by rewrite <- !app_assoc.
Qed.

Lemma ready_follows now :
  follows (let! _ := says r_Startup in says (runtime_emit (runtime_event CodeServiceStarted OutcomeSuccess SeverityInfo "" now)))
    (ready_part now).
Proof.
  intros w. eexists _, true. split; [apply ready_said|]. split; [|done]. cbn. rewrite emit_said. cbn. by rewrite <- app_assoc.
Qed.

Lemma bootstrap_at_follows now : follows (bootstrap_at rt now) (parts (startup_parts rt now)).
Proof.
  intros w. unfold bootstrap_at, startup_parts. destruct (time_IsZero now || (unix now <? 0)) eqn:Hc.
  { exists [], false. split; [by apply parts_failed, clock_bad|]. cbn. by rewrite app_nil_r. }
  assert (follows (let! _ := recover_runs now in let! _ := restore_sync now in let! _ := prune_if_due rt now in
    let! _ := count_active in let! _ := authenticate now in let! _ := says r_Startup in
    says (runtime_emit (runtime_event CodeServiceStarted OutcomeSuccess SeverityInfo "" now)))
    (parts [recover_part now; restore_part now; prune_part rt now; active_part; lapi_part now; ready_part now])) as H.
  { auto 10 using follows_then, follows_last, recover_follows, restore_follows, prune_follows, active_follows, lapi_follows,
      ready_follows. }
  cbn [mthen says].
  edestruct H as (l & ok & Hl & El & Er). exists ([] ++ (said (runtime_event CodeServiceStarting OutcomeStarted SeverityInfo "" now) ++
    [DoMarkConfiguration true; DoMarkCredentials true]) ++ l), ok.
  split; [by apply parts_next; [apply clock_good|apply parts_next; [constructor|apply Hl]]|].
  split; [|exact Er]. etransitivity; [exact El|]. cbn. rewrite emit_said, <- !app_assoc. cbn. by rewrite <- ?app_assoc.
Qed.
End Follows.

Section Refines.
Context {W : Type} `{!RuntimeWorld W} (rt : Runtime).
Abbreviation LW := (W * list doing)%type.

Lemma close_idle_log is_ (w : LW) :
  (fold_left (fun w i => r_CloseIdleConnections i w) is_ w).2 = w.2 ++ map DoCloseIdle is_.
Proof.
  revert w. induction is_ as [|i is_ IH]; intros w; cbn [fold_left map]; [by rewrite app_nil_r|].
  rewrite IH. cbn. by rewrite <- app_assoc.
Qed.

Lemma closeResources_log (w : LW) : exists closeErr,
  (closeResources rt w).1 = closeErr /\ (closeResources rt w).2.2 = w.2 ++ released rt closeErr.
Proof.
  unfold closeResources, released. destruct (fold_left _ _ _) as [w1 l1] eqn:E.
  pose proof (close_idle_log (seq 0 (rt_idleClosers rt)) (r_Listener_Close w)) as H. rewrite E in H. cbn in H. subst l1.
  cbn. unfold noted. cbn. destruct (r_State_Close w1) as [e w2]. exists e. split; [done|]. cbn.
  by rewrite <- !app_assoc.
Qed.

Lemma runtime_fatal_log now (w : LW) : (runtime_fatal now w).2 = w.2 ++ fatal_said now.
Proof. unfold runtime_fatal, fatal_said. rewrite emit_said. cbn. by rewrite <- app_assoc. Qed.

Lemma failStartup_log (w : LW) : exists t closeErr, failStartup rt w = (Some ErrRuntimeStartup, (failStartup rt w).2) /\
  (failStartup rt w).2.2 = w.2 ++ DoNow t :: fatal_said t ++ DoNotificationsClose :: released rt closeErr.
Proof.
  unfold failStartup. cbn. unfold noted. destruct (r_now w.1) as [t w1]. cbn [fst snd].
  destruct (closeResources_log (r_Notifications_Close (runtime_fatal t (w1, w.2 ++ [DoNow t])))) as (e & He & Hl).
  destruct (closeResources rt _) as [e' w2]. cbn in He, Hl. exists t, e. split; [done|]. cbn. rewrite Hl.
  rewrite runtime_fatal_log. cbn. by rewrite <- !app_assoc.
Qed.

(** Awaiting a worker. *)
Lemma joined_log finished (done : LW -> worker_end * LW) note err (w : LW) :
  (forall w, (done w).2.2 = w.2 ++ [note (done w).1]) ->
  exists e, (joined finished done err w).2.2 = w.2 ++ awaited finished note e /\
    (joined finished done err w).1 = match runRuntimeWorker (Some e), err with
      | Some _, None => if finished then None else Some ErrRuntimeFailure | _, _ => err end.
Proof.
  intros Hd. unfold joined, awaited. destruct finished.
  - exists (Returned None). cbn. by rewrite app_nil_r.
  - specialize (Hd w). destruct (done w) as [e w1]. exists e. by destruct e as [[]|], err.
Qed.

Lemma schedulerDone_log (w : LW) : (r_schedulerDone w).2.2 = w.2 ++ [DoSchedulerEnds (r_schedulerDone w).1].
Proof. cbn. unfold noted. by destruct (r_schedulerDone w.1). Qed.
Lemma httpDone_log (w : LW) : (r_httpDone w).2.2 = w.2 ++ [DoHttpEnds (r_httpDone w).1].
Proof. cbn. unfold noted. by destruct (r_httpDone w.1). Qed.

Lemma shutdown_log f (w : LW) : exists now t se he shutdownErr closeErr,
  (shutdown rt f w).2.2 = w.2 ++ DoNow now :: match f with ContextDone => [] | _ => fatal_said now end ++
    DoMarkStopping :: said (runtime_event CodeServiceStopping OutcomeStarted SeverityInfo "" now) ++
    DoCancel :: awaited (scheduler_first f) DoSchedulerEnds se ++
    DoNotificationsClose :: DoShutdown shutdownErr :: awaited (http_first f) DoHttpEnds he ++
    released rt closeErr ++ DoNow t :: said (runtime_event CodeServiceStopped OutcomeStopped SeverityInfo "" t) /\
  (shutdown rt f w).1 = run_error f se he shutdownErr closeErr.
Proof.
  unfold shutdown. destruct (r_now w) as [now w0] eqn:E0. cbn in E0. unfold noted in E0. destruct (r_now w.1) as [now' w0'].
  injection E0 as <- <-.
  set (err0 := match f with ContextDone => None | _ => Some ErrRuntimeFailure end).
  set (w1 := match err0 with Some _ => runtime_fatal now' _ | None => _ end).
  assert (w1.2 = w.2 ++ DoNow now' :: match f with ContextDone => [] | _ => fatal_said now' end) as Hw1.
  { subst w1 err0. destruct f; cbn; rewrite ?runtime_fatal_log; cbn; by rewrite <- ?app_assoc. }
  set (w2 := r_cancelWorkers _).
  assert (w2.2 = w1.2 ++ DoMarkStopping :: said (runtime_event CodeServiceStopping OutcomeStarted SeverityInfo "" now') ++ [DoCancel]) as Hw2.
  { subst w2. cbn. rewrite emit_said. cbn. by rewrite <- !app_assoc. }
  destruct (joined_log (scheduler_first f) r_schedulerDone DoSchedulerEnds err0 w2 schedulerDone_log) as (se & Hse & Ese).
  change (match f with SchedulerDone _ => true | _ => false end) with (scheduler_first f).
  change (match f with HttpDone _ => true | _ => false end) with (http_first f).
  destruct (joined (scheduler_first f) r_schedulerDone err0 w2) as [err1 w3]. cbn [fst snd] in Hse, Ese.
  destruct (r_Shutdown (r_Notifications_Close w3)) as [shutdownErr w4] eqn:E4. cbn in E4. unfold noted in E4. cbn in E4.
  destruct (r_Shutdown _) as [se' w4'] in E4. injection E4 as -> <-.
  set (w4 := (w4', _)).
  destruct (joined_log (http_first f) r_httpDone DoHttpEnds err1 w4 httpDone_log) as (he & Hhe & Ehe).
  destruct (joined (http_first f) r_httpDone err1 w4) as [err2 w5]. cbn [fst snd] in Hhe, Ehe.
  destruct (closeResources_log w5) as (closeErr & Ec & Hc). destruct (closeResources rt w5) as [c w6]. cbn [fst snd] in Ec, Hc. subst c.
  destruct (r_now w6) as [t w7] eqn:E7. cbn in E7. unfold noted in E7. destruct (r_now w6.1) as [t' w7'] in E7. injection E7 as -> <-.
  exists now', t, se, he, shutdownErr, closeErr. cbn [fst snd]. split.
  - rewrite emit_said. cbn [snd]. rewrite Hc, Hhe. subst w4. cbn [snd]. rewrite Hse, Hw2, Hw1.
    rewrite <- !app_assoc. cbn. rewrite <- ?app_assoc. cbn. by rewrite <- ?app_assoc.
  - subst err1 err2 err0. unfold run_error, worker_failed.
    destruct f, se as [[]|], he as [[]|], closeErr, shutdownErr; reflexivity.
Qed.

(** What a first run of the runtime does to its collaborators, and the error it
    returns, are those of the specification. *)
Lemma Runtime_Run_log (w : LW) : exists l,
  (Runtime_Run rt false w).2.2 = w.2 ++ l /\ runtime_trace rt l (Runtime_Run rt false w).1.
Proof.
  unfold Runtime_Run, bootstrap. destruct (r_now w) as [now w0] eqn:E0. cbn in E0. unfold noted in E0.
  destruct (r_now w.1) as [now' w0']. injection E0 as <- <-.
  destruct (bootstrap_at_follows rt now' (w0', w.2 ++ [DoNow now'])) as (l & ok & Hl & El & Er).
  destruct (bootstrap_at rt now' _) as [r w1]. cbn [fst snd] in El, Er. subst r. destruct ok.
  - destruct (r_select (r_start_workers w1)) as [f w2] eqn:E2. cbn in E2. unfold noted in E2. cbn in E2.
    destruct (r_select _) as [f' w2'] in E2. injection E2 as -> <-.
    destruct (shutdown_log f (w2', (w1.2 ++ [DoStart]) ++ [DoSelect f])) as (now & t & se & he & sErr & cErr & Hs & Es).
    eexists. rewrite Hs, Es. split; [|by apply (service_ran rt now' l f now t se he sErr cErr)].
    cbn [snd]. rewrite El. unfold stopping. cbn [snd]. rewrite <- !app_assoc. cbn [app]. by rewrite <- ?app_assoc.
  - destruct (failStartup_log w1) as (t & c & Ef & Hf). rewrite Ef. cbn [fst snd].
    eexists. rewrite Hf. split; [|by apply (startup_failed rt now' l t c)].
    rewrite El. cbn. by rewrite <- !app_assoc.
Qed.
End Refines.

(** ** What the specification guarantees *)

(** Releasing what the runtime was given. *)
Definition is_release (d : doing) : bool :=
  match d with DoNotificationsClose | DoListenerClose | DoCloseIdle _ | DoStateClose _ | DoDestroy => true | _ => false end.

(** Steps of the two workers, which start after the start-up. *)
Definition worker_step (d : doing) : bool :=
  match d with
  | DoStart | DoSelect _ | DoCancel | DoSchedulerEnds _ | DoHttpEnds _ | DoShutdown _ => true
  | _ => false
  end.

(** The store is used by the start-up, by the workers while they run, and by
    the notifications. *)
Definition uses_store (d : doing) : bool :=
  match d with
  | DoRecover _ _ | DoTimestamp _ _ | DoPrune _ _ | DoListActive _ | DoStartup => true
  | d => worker_step d
  end.

Definition plain (d : doing) : Prop := is_release d = false /\ worker_step d = false.

Lemma Forall_said (P : doing -> Prop) e : P (DoObserve e) -> Forall P (said e).
Proof. unfold said. destruct (Event_Validate e); auto. Qed.

Lemma Forall_parts (P : doing -> Prop) Ps l ok :
  Forall (fun part => forall l ok, part l ok -> Forall P l) Ps -> parts Ps l ok -> Forall P l.
Proof. intros HPs H. induction H; inv HPs; eauto using Forall_app_2. Qed.

#[local] Hint Resolve Forall_said Forall_app_2 : core.

Lemma startup_plain rt now l ok : parts (startup_parts rt now) l ok -> Forall plain l.
Proof.
  apply Forall_parts. unfold startup_parts, database_lost.
  apply Forall_fold_right. cbn [fold_right].
  split_and!; try done; intros ? ? []; unfold database_lost; cbn [app];
    repeat first [apply Forall_said | apply Forall_app_2 | apply Forall_cons_2 | apply Forall_nil_2]; done.
Qed.

(** An element of a list that is written out. *)
Ltac find_in :=
  solve [apply list_elem_of_here | apply list_elem_of_further; find_in | apply elem_of_app; left; find_in
        | apply elem_of_app; right; find_in].

(** Everything a start-up that succeeds did, in order: it reads the clock, says
    that it starts, recovers the runs, restores the last safe synchronisation that
    was stored, prunes when it is due, counts the active decisions, authenticates,
    and says that it is up; each of these succeeded. *)
Definition came_up (rt : Runtime) (up : list doing) : Prop :=
  exists now n lastSafe lastPrune pruned removed ds,
    time_IsZero now || (unix now <? 0) = false /\ pruneRemoved pruned = Some removed /\
    up = DoNow now ::
      (said (runtime_event CodeServiceStarting OutcomeStarted SeverityInfo "" now) ++
       [DoMarkConfiguration true; DoMarkCredentials true]) ++
      (DoRecover now (Ok n) :: DoMarkDatabase true :: said (database_event OutcomeAvailable SeverityInfo "" now)) ++
      (DoTimestamp RuntimeLastSafeSync (Ok lastSafe) ::
       match lastSafe with Some at_ => [DoRecordSync (safe_sync_at at_) None] | None => [] end) ++
      (DoTimestamp RuntimeLastPrune (Ok lastPrune) ::
       if prune_due rt now lastPrune then DoPrune now (Ok pruned) :: said (prune_event removed now) else []) ++
      [DoListActive (Ok ds); DoSetActive (Z.of_nat (List.length ds)) None] ++
      (DoAuthenticate None :: DoMarkLAPI true :: said (runtime_lapi_event OutcomeAvailable SeverityInfo "" now)) ++
      (DoStartup :: said (runtime_event CodeServiceStarted OutcomeSuccess SeverityInfo "" now)).

Definition no_pruned : PruneResult := MkPruneResult 0 0 0 0 0 0.

(** The parts of a start-up that succeed, as the lists of what they do. *)
Lemma restore_success now l : restore_part now l true -> exists lastSafe,
  l = DoTimestamp RuntimeLastSafeSync (Ok lastSafe) ::
    match lastSafe with Some at_ => [DoRecordSync (safe_sync_at at_) None] | None => [] end.
Proof. intros H. inv H; [by exists None|by eexists (Some _)]. Qed.

Lemma prune_success rt now l : prune_part rt now l true -> exists lastPrune pruned removed, pruneRemoved pruned = Some removed /\
  l = DoTimestamp RuntimeLastPrune (Ok lastPrune) ::
    if prune_due rt now lastPrune then DoPrune now (Ok pruned) :: said (prune_event removed now) else [].
Proof.
  intros H. inv H as [|last Hd| | |last r removed Hd Hr].
  - exists last, no_pruned, 0. split; [reflexivity|]. by rewrite Hd.
  - exists last, r, removed. split; [done|]. by rewrite Hd.
Qed.

Lemma startup_success rt now l : parts (startup_parts rt now) l true -> came_up rt (DoNow now :: l).
Proof.
  unfold startup_parts. intros H.
  repeat match goal with H : parts (_ :: _) _ true |- _ => inv H end.
  repeat match goal with
  | H : parts [] _ true |- _ => inv H | H : clock_part _ _ true |- _ => inv H | H : announce_part _ _ true |- _ => inv H
  | H : recover_part _ _ true |- _ => inv H | H : active_part _ true |- _ => inv H | H : lapi_part _ _ true |- _ => inv H
  | H : ready_part _ _ true |- _ => inv H
  | H : restore_part _ _ true |- _ => apply restore_success in H as [? ->]
  | H : prune_part _ _ _ true |- _ => apply prune_success in H as (? & ? & ? & ? & ->)
  end.
  do 7 eexists. split_and!; [done|done|]. rewrite ?app_nil_r. reflexivity.
Qed.

Lemma filter_plain l : Forall plain l -> List.filter is_release l = [].
Proof. induction 1 as [|d l [Hd _] _ IH]; [done|]. cbn. by rewrite Hd. Qed.

Lemma filter_released rt e : List.filter is_release (released rt e) = released rt e.
Proof.
  unfold released. cbn. f_equal. rewrite List.filter_app. cbn. f_equal.
  induction (seq _ _) as [|i is_ IH]; [done|]. cbn. by rewrite IH.
Qed.

Lemma filter_said e : List.filter is_release (said e) = [].
Proof. unfold said. by destruct (Event_Validate e). Qed.

Lemma filter_awaited b note e : (forall e, is_release (note e) = false) -> List.filter is_release (awaited b note e) = [].
Proof. intros Hn. unfold awaited. destruct b; cbn; [done|]. by rewrite Hn. Qed.

Ltac filter_trace :=
  repeat first [rewrite List.filter_app | rewrite filter_said | rewrite filter_awaited by done | rewrite filter_released
               | progress cbn [List.filter is_release app]].

Lemma trace_releases rt l r : runtime_trace rt l r ->
  exists closeErr, List.filter is_release l = DoNotificationsClose :: released rt closeErr.
Proof.
  intros [now up t closeErr H|now up f t t' se he sErr closeErr H]; exists closeErr;
    pose proof (filter_plain up (startup_plain _ _ _ _ H)) as Hup.
  - unfold fatal_said. filter_trace. by rewrite Hup.
  - unfold stopping. filter_trace. rewrite Hup.
    destruct f; unfold fatal_said; filter_trace; by rewrite ?app_nil_r.
Qed.

(** Both workers have ended. *)
Definition workers_ended (l : list doing) : Prop :=
  (exists e, DoSelect (SchedulerDone e) ∈ l \/ DoSchedulerEnds e ∈ l) /\
  (exists e, DoSelect (HttpDone e) ∈ l \/ DoHttpEnds e ∈ l).

Lemma no_start l : Forall (fun d => worker_step d = false) l -> DoStart ∉ l.
Proof. rewrite List.Forall_forall. intros H Hin%list_elem_of_In. by specialize (H _ Hin). Qed.

Lemma plain_no_worker l : Forall plain l -> Forall (fun d => worker_step d = false) l.
Proof. apply Forall_impl. by intros d []. Qed.

Lemma released_no_worker rt e : Forall (fun d => worker_step d = false) (released rt e).
Proof.
  unfold released. constructor; [done|]. apply Forall_app_2; [|by repeat constructor].
  induction (seq _ _); constructor; auto.
Qed.

Ltac app_flat := repeat first [rewrite <- app_assoc | progress cbn [app]].

Lemma split_released rt e (l1 l2 : list doing) : exists l0,
  l1 ++ released rt e ++ l2 = (l1 ++ DoListenerClose :: l0) ++ DoStateClose e :: DoDestroy :: l2.
Proof.
  exists (map DoCloseIdle (seq 0 (rt_idleClosers rt))). unfold released. by app_flat.
Qed.

(** The store is closed after everything that uses it. *)
Lemma trace_store_closed rt l r : runtime_trace rt l r ->
  exists l1 e l2, l = l1 ++ DoStateClose e :: l2 /\ Forall (fun d => uses_store d = false) l2 /\
    (DoStart ∈ l -> workers_ended l1 /\ exists up rest, l = up ++ DoStart :: rest /\ came_up rt up).
Proof.
  intros [now up t closeErr H|now up f t t' se he sErr closeErr H].
  - destruct (split_released rt closeErr (DoNow now :: up ++ DoNow t :: fatal_said t ++ [DoNotificationsClose]) []) as (l0 & E).
    rewrite app_nil_r in E.
    exists (DoNow now :: up ++ (DoNow t :: fatal_said t ++ DoNotificationsClose :: DoListenerClose :: l0)), closeErr, [DoDestroy].
    split_and!.
    + etransitivity; [etransitivity; [|exact E]|]; by app_flat.
    + by repeat constructor.
    + intros Hs. exfalso. revert Hs. apply no_start. apply startup_plain, plain_no_worker in H.
      unfold fatal_said. cbn [app].
      repeat first [apply released_no_worker | apply Forall_said | apply Forall_app_2 | apply Forall_cons_2]; done.
  - unfold stopping.
    set (mid := DoStart :: DoSelect f :: DoNow t :: match f with ContextDone => [] | _ => fatal_said t end ++
      DoMarkStopping :: said (runtime_event CodeServiceStopping OutcomeStarted SeverityInfo "" t) ++
      DoCancel :: awaited (scheduler_first f) DoSchedulerEnds se ++
      DoNotificationsClose :: DoShutdown sErr :: awaited (http_first f) DoHttpEnds he).
    set (fin := DoNow t' :: said (runtime_event CodeServiceStopped OutcomeStopped SeverityInfo "" t')).
    destruct (split_released rt closeErr (DoNow now :: up ++ mid) fin) as (l0 & E).
    exists ((DoNow now :: up ++ mid) ++ DoListenerClose :: l0), closeErr, (DoDestroy :: fin). split_and!.
    + etransitivity; [|exact E]. subst mid fin. by app_flat.
    + subst fin. repeat constructor. by apply Forall_said.
    + intros _. split.
      * subst mid. unfold workers_ended, awaited, scheduler_first, http_first.
        destruct f; (split; [first [exists se; right; find_in | eexists; left; find_in]
                             | first [exists he; right; find_in | eexists; left; find_in]]).
      * exists (DoNow now :: up). eexists. split; [reflexivity|]. by apply startup_success.
Qed.

Lemma trace_error rt l r : runtime_trace rt l r ->
  (r = Some ErrRuntimeStartup <-> DoStart ∉ l) /\ (r = None -> DoSelect ContextDone ∈ l /\ DoShutdown None ∈ l /\ DoStateClose None ∈ l) /\
  (forall e, r = Some e -> In e [ErrRuntimeStartup; ErrRuntimeFailure; ErrRuntimeShutdown]).
Proof.
  intros [now up t closeErr H|now up f t t' se he sErr closeErr H].
  - split_and!; [|done|]. 2:{ intros e [= <-]. by left. }
    split; [intros _|done]. apply no_start. apply startup_plain, plain_no_worker in H. unfold fatal_said. cbn [app].
    repeat first [apply released_no_worker | apply Forall_said | apply Forall_app_2 | apply Forall_cons_2]; done.
  - unfold run_error. split_and!.
    + split.
      * destruct (worker_failed _ _ _); [discriminate|]. by destruct sErr, closeErr.
      * intros Hn. exfalso. apply Hn. unfold stopping. find_in.
    + destruct (worker_failed f se he) eqn:Ef; [done|]. destruct sErr, closeErr; try done. intros _.
      destruct f; [|done..]. unfold stopping, released. split_and!; [find_in|find_in|].
      set (m := map _ _). find_in.
    + intros e. destruct (worker_failed f se he); [intros [= <-]; right; by left|].
      destruct sErr, closeErr; try done; intros [= <-]; right; right; by left.
Qed.

(** What a run of the service does to its collaborators is one of the runs of
    the specification: the parts of the start-up in order until one fails; then,
    after a failure, the release of everything; otherwise the workers, until the
    context or one of them ends, then the end of the other, and the release; and the
    error it returns tells how it ended. *)
Theorem Runtime_Run_refines {W} `{!RuntimeWorld W} (rt : Runtime) (w : W) :
  let '(r, (_, l)) := Runtime_Run rt false (w, []) in runtime_trace rt l r.
Proof.
  destruct (Runtime_Run_log rt (w, [])) as (l & Hl & Ht). destruct (Runtime_Run rt false (w, [])) as [r [w' l']].
  cbn in *. by subst l'.
Qed.

(** C10: however a run goes, it releases the notifications, the listener, the idle
    connections, the store and the credentials, each exactly once and in this
    order; the workers start only after the whole start-up succeeded, each of its
    steps done once, in order and without an error; nothing uses
    the store once it is closed, and it is closed only after both workers ended;
    the start-up error is returned exactly when the workers were not started, and
    no error only when the context ended the service and it stopped cleanly. *)
Theorem Runtime_releases {W} `{!RuntimeWorld W} (rt : Runtime) (w : W) :
  let '(r, (_, l)) := Runtime_Run rt false (w, []) in
  (exists closeErr, List.filter is_release l = DoNotificationsClose :: released rt closeErr) /\
  (exists l1 e l2, l = l1 ++ DoStateClose e :: l2 /\ Forall (fun d => uses_store d = false) l2 /\
     (DoStart ∈ l -> workers_ended l1 /\ exists up rest, l = up ++ DoStart :: rest /\ came_up rt up)) /\
  (r = Some ErrRuntimeStartup <-> DoStart ∉ l) /\
  (r = None -> DoSelect ContextDone ∈ l /\ DoShutdown None ∈ l /\ DoStateClose None ∈ l) /\
  (forall e, r = Some e -> In e [ErrRuntimeStartup; ErrRuntimeFailure; ErrRuntimeShutdown]).
Proof.
  destruct (Runtime_Run_log rt (w, [])) as (l & Hl & Ht). destruct (Runtime_Run rt false (w, [])) as [r [w' l']].
  cbn in Hl, Ht. subst l'. split; [by eapply trace_releases|]. split; [by eapply trace_store_closed|]. by eapply trace_error.
Qed.
