(* ===== verification/RuntimeStore.v ===== *)
(** * The start-up over the store and the readiness tracker

    The start-up of the runtime composed with the store of this development and
    the tracker: what has recovered, what is pruned, and when the service is
    ready, once it came up. *)

From S2P Require Export RuntimeRun NotifyStore StateAll Readiness.

(** What the collaborators promise: the repositories work on the store, the
    reports reach the tracker, and the rest touches neither, except that the
    notifications keep their own table. *)
Class RuntimeOver (W : Type) `{!RuntimeWorld W} (st : W -> SW) (tk : W -> Tracker) : Prop := {
  over_now : forall w, st (r_now w).2 = st w /\ tk (r_now w).2 = tk w;
  over_recover : forall now w, let '(r, w') := r_RecoverInterruptedSyncRuns now w in
    RecoverInterruptedSyncRuns now (st w) = (r, st w') /\ tk w' = tk w;
  over_timestamp : forall key w, let '(r, w') := r_RuntimeTimestamp key w in
    RuntimeTimestamp key (st w) = (r, st w') /\ tk w' = tk w;
  over_prune : forall now retention limit w, let '(r, w') := r_PruneHistory now retention limit w in
    PruneHistory now retention limit (st w) = (r, st w') /\ tk w' = tk w;
  over_active : forall w, let '(r, w') := r_ListActiveDecisions w in
    ListActiveDecisions (st w) = (r, st w') /\ tk w' = tk w;
  over_authenticate : forall w, st (r_Authenticate w).2 = st w /\ tk (r_Authenticate w).2 = tk w;
  over_set_active : forall n w, st (r_SetActiveDecisions n w).2 = st w /\ tk (r_SetActiveDecisions n w).2 = tk w;
  over_configuration : forall b w, st (r_MarkConfiguration b w) = st w /\
    tk (r_MarkConfiguration b w) = take_report (tk w) (RConfiguration b);
  over_credentials : forall b w, st (r_MarkCredentials b w) = st w /\
    tk (r_MarkCredentials b w) = take_report (tk w) (RCredentials b);
  over_database : forall b w, st (r_MarkDatabase b w) = st w /\ tk (r_MarkDatabase b w) = take_report (tk w) (RDatabase b);
  over_lapi : forall b w, st (r_MarkLAPI b w) = st w /\
    exists now, tk (r_MarkLAPI b w) = take_report (tk w) (RLAPI b now);
  over_sync : forall r w, st (r_RecordSync r w).2 = st w /\ (r_RecordSync r w).1 = (RecordSync r (tk w)).1 /\
    tk (r_RecordSync r w).2 = take_report (tk w) (RSync r);
  over_observe : forall e w, st (r_Observe e w) = st w /\
    exists now, tk (r_Observe e w) = take_report (tk w) (REvent e now);
  over_startup : forall w, tk (r_Startup w) = tk w /\
    (exists t, sw_db (st (r_Startup w)) = set_delivery t (sw_db (st w))) /\
    (delivery_ok (sw_db (st w)) -> delivery_ok (sw_db (st (r_Startup w)))) }.

Lemma RuntimeTimestamp_Ok key w r w' : RuntimeTimestamp key w = (Ok r, w') ->
  r = Unix <$> timestamp key (sw_db w) /\ sw_db w' = sw_db w.
Proof.
  unfold RuntimeTimestamp. intros H. apply require_Ok in H as [_ H].
  apply mthen_ok in H as (raw & w1 & H1 & H). apply wrap_query_Ok in H1 as [-> E1].
  unfold timestamp. destruct (runtime_value key (sw_db w)) as [value|]; [|by injection H as <- <-].
  unfold lift in H. destruct (parse_seconds value) as [s|e]; [|done].
  by injection H as <- <-.
Qed.

Lemma timestamp_nonneg key d s : timestamp key d = Some s -> 0 <= s.
Proof.
  unfold timestamp, parse_seconds. destruct (runtime_value key d) as [raw|]; [|done].
  destruct (atoi raw) as [z|]; [|done]. destruct (Z.ltb_spec z 0); cbn [orb]; [done|].
  destruct (negb _); [done|]. by intros [= <-].
Qed.

(** No run is left open. *)
Definition no_running (d : DB) : Prop := forall id row, db_runs d !! id = Some row -> is_running row = false.

Lemma recover_Ok now w n w' : RecoverInterruptedSyncRuns now w = (Ok n, w') ->
  no_running (sw_db w') /\ db_runtime (sw_db w') = db_runtime (sw_db w) /\ (all_ok (sw_db w) -> all_ok (sw_db w')).
Proof.
  intros H. assert (all_ok (sw_db w) -> all_ok (sw_db w')) as Hok.
  { intros Hw. eapply (all_exec_ok (inl (inr (CallRecoverInterruptedSyncRuns now))) w (Ok tt)); [done| |done].
    cbn. unfold void, mthen. by rewrite H. }
  unfold RecoverInterruptedSyncRuns in H. apply require_Ok in H as [_ H].
  apply wrap_stmt_Ok in H. injection H as _ E. split_and!; [|by rewrite <- E|done].
  intros id row. rewrite <- E. cbn. rewrite lookup_fmap. intros (row0 & _ & ->)%fmap_Some.
  by destruct (is_running row0) eqn:Er.
Qed.

Lemma pruned_no_running cutoff limit d : no_running d -> no_running (pruned cutoff limit d).
Proof. intros H id row Hr. apply (H id). cbn in Hr. by eapply kept_sub. Qed.

Lemma no_running_runtime t d : no_running d -> no_running (set_runtime t d).
Proof. intros H. exact H. Qed.

Lemma prune_Ok now retention limit w r w' : PruneHistory now retention limit w = (Ok r, w') -> unix now <= max_int64 ->
  (no_running (sw_db w) -> no_running (sw_db w')) /\ (all_ok (sw_db w) -> all_ok (sw_db w')) /\
  timestamp RuntimeLastPrune (sw_db w') = Some (later_of (timestamp RuntimeLastPrune (sw_db w)) (unix now)).
Proof.
  intros H Hmax. split_and!.
  - apply PruneHistory_Ok in H as (_ & _ & w1 & w2 & E1 & Hs & E2). intros Hno.
    apply setRuntimeTimestamp_Ok in Hs as ((t & E) & _); [|done]. rewrite E2, E, E1.
    apply no_running_runtime, pruned_no_running, Hno.
  - intros Hok. eapply (all_exec_ok (inr (inl (CallPruneHistory now retention limit))) w (Ok tt)); [done| |done].
    cbn. unfold void, mthen. by rewrite H.
  - apply PruneHistory_Ok in H as (_ & _ & w1 & w2 & E1 & Hs & E2).
    apply setRuntimeTimestamp_Ok in Hs as (_ & Ht & _); [|done]. by rewrite E2, Ht, E1.
Qed.

(** An instant and its stored seconds are less than a second apart. *)
Lemma Unix_unix t : 0 <= t - Unix (unix t) < Second.
Proof.
  unfold Unix, unix, time_Unix. replace (t / Second - unix_epoch + unix_epoch) with (t / Second) by lia.
  pose proof (Z.div_mod t Second ltac:(done)). pose proof (Z.mod_pos_bound t Second ltac:(done)). lia.
Qed.

Lemma unix_mono t u : t <= u -> unix t <= unix u.
Proof. intros H. unfold unix, time_Unix. pose proof (Z.div_le_mono t u Second ltac:(done) H). lia. Qed.

Lemma unix_Unix s : unix (Unix s) = s.
Proof. unfold unix, time_Unix, Unix. rewrite Z.div_mul by done. lia. Qed.

Lemma time_Sub_small t u : 0 <= t - u < Second -> time_Sub t u = t - u.
Proof.
  intros H. unfold time_Sub. assert (Second < max_int64) by done. assert (min_int64 < 0) by done.
  destruct (Z.ltb_spec max_int64 (t - u)); [lia|]. destruct (Z.ltb_spec (t - u) min_int64); [lia|done].
Qed.

(** A pruning that was due is not due any more. *)
Lemma pruned_not_due rt now last : Second <= rt_pruneInterval rt ->
  prune_due rt now (Unix <$> last) = true -> prune_due rt now (Some (Unix (later_of last (unix now)))) = false.
Proof.
  intros Hi Hdue. unfold prune_due in *. apply andb_false_iff. right. apply Z.leb_gt.
  assert (later_of last (unix now) = unix now) as ->.
  { destruct last as [l|]; cbn in *; [|done]. apply andb_prop in Hdue as [Hb _]. apply negb_true_iff, Z.ltb_ge in Hb.
    apply unix_mono in Hb. rewrite unix_Unix in Hb. lia. }
  pose proof (Unix_unix now). rewrite time_Sub_small by done. lia.
Qed.

(** ** The events of the start-up *)

Lemma runtime_event_valid code outcome severity failure now : time_IsZero now = false ->
  codeOperation code = Some OperationService ->
  Event_Validate (runtime_event code outcome severity failure 1) = None ->
  Event_Validate (runtime_event code outcome severity failure now) = None.
Proof. unfold Event_Validate. cbn. intros -> ->. done. Qed.

Lemma database_event_valid now : time_IsZero now = false ->
  Event_Validate (database_event OutcomeAvailable SeverityInfo "" now) = None.
Proof. unfold Event_Validate. cbn. by intros ->. Qed.

Lemma lapi_event_valid now : time_IsZero now = false ->
  Event_Validate (runtime_lapi_event OutcomeAvailable SeverityInfo "" now) = None.
Proof. unfold Event_Validate. cbn. by intros ->. Qed.

Lemma total_removed_bound values : forall total n, 0 <= total <= 100000000 -> total_removed values total = Some n ->
  0 <= n <= 100000000.
Proof.
  induction values as [|v vs IH]; intros total n Ht H; cbn [total_removed] in H; [by injection H as <-|].
  destruct (_ || _) eqn:E in H; [done|]. to_prop. eapply IH; [|exact H]. lia.
Qed.

Lemma prune_event_valid removed now : time_IsZero now = false -> 0 <= removed <= 100000000 ->
  Event_Validate (prune_event removed now) = None.
Proof.
  intros Hz Hr. unfold Event_Validate. change (codeOperation (ev_Code (prune_event removed now))) with (Some OperationPrune).
  assert (Counts_valid (ev_Counts (prune_event removed now)) = true) as ->.
  { apply Counts_valid_true. unfold prune_event, count_values, maxCount. cbn. repeat constructor; lia. }
  cbn. by rewrite Hz.
Qed.

Section Startup.
Context {W : Type} `{!RuntimeWorld W} (st : W -> SW) (tk : W -> Tracker) `{!RuntimeOver W st tk} (rt : Runtime).

(** The reports that reached the tracker. *)
Definition reports (w w' : W) (rs : list report) : Prop := tk w' = fold_left take_report rs (tk w).

Lemma reports_app w w1 w2 rs rs' : reports w w1 rs -> reports w1 w2 rs' -> reports w w2 (rs ++ rs').
Proof. unfold reports. intros H1 H2. by rewrite fold_left_app, H2, H1. Qed.

Lemma emit_over e w : Event_Validate e = None ->
  st (runtime_emit e w) = st w /\ exists now, reports w (runtime_emit e w) [REvent e now].
Proof. unfold runtime_emit. intros ->. destruct (over_observe e w) as (E & now & H). eauto. Qed.

Lemma recover_over now w w' : time_IsZero now = false -> recover_runs now w = (Ok tt, w') ->
  (exists n, RecoverInterruptedSyncRuns now (st w) = (Ok n, st w')) /\
  exists t, reports w w' [RDatabase true; REvent (database_event OutcomeAvailable SeverityInfo "" now) t].
Proof.
  unfold recover_runs, mtry. intros Hz H. pose proof (over_recover now w) as Ho.
  destruct (r_RecoverInterruptedSyncRuns now w) as [[n|e] w1]; [|done]. destruct Ho as [Ho Ht].
  cbn in H. injection H as <-. destruct (over_database true w1) as [E1 E2].
  destruct (emit_over _ (r_MarkDatabase true w1) (database_event_valid now Hz)) as (E3 & t & E4).
  rewrite E3, E1. split; [eauto|]. exists t. unfold reports in *. cbn in *. by rewrite E4, E2, Ht.
Qed.

(** The report of the last safe synchronisation, where there is one. *)
Definition sync_report (s : option Z) : list report :=
  match s with Some s => [RSync (safe_sync_at (Unix s))] | None => [] end.

Lemma restore_over now w w' : restore_sync now w = (Ok tt, w') ->
  sw_db (st w') = sw_db (st w) /\ reports w w' (sync_report (timestamp RuntimeLastSafeSync (sw_db (st w)))).
Proof.
  unfold restore_sync, mtry. intros H. pose proof (over_timestamp RuntimeLastSafeSync w) as Ho.
  destruct (r_RuntimeTimestamp RuntimeLastSafeSync w) as [[at_|e] w1]; [|done]. destruct Ho as [Ho Ht].
  apply RuntimeTimestamp_Ok in Ho as [-> Hdb]. unfold reports. rewrite <- Ht.
  destruct (timestamp RuntimeLastSafeSync (sw_db (st w))) as [s|]; cbn in H |- *; [|by injection H as <-].
  unfold mthen, failing in H. pose proof (over_sync (safe_sync_at (Unix s)) w1) as (E1 & E2 & E3).
  destruct (r_RecordSync _ w1) as [[e|] w2]; [done|]. injection H as <-. cbn in *. by rewrite E1, E3.
Qed.

Lemma prune_over now w w' : time_IsZero now = false -> unix now <= max_int64 -> Second <= rt_pruneInterval rt ->
  prune_if_due rt now w = (Ok tt, w') ->
  (no_running (sw_db (st w)) -> no_running (sw_db (st w'))) /\ (all_ok (sw_db (st w)) -> all_ok (sw_db (st w'))) /\
  (exists s, timestamp RuntimeLastPrune (sw_db (st w')) = Some s /\ prune_due rt now (Some (Unix s)) = false) /\
  exists rs, reports w w' rs /\ forall r, r ∈ rs -> exists n t, r = REvent (prune_event n now) t /\ Event_Validate (prune_event n now) = None.
Proof.
  unfold prune_if_due, mtry. intros Hz Hmax Hi H. pose proof (over_timestamp RuntimeLastPrune w) as Ho.
  destruct (r_RuntimeTimestamp RuntimeLastPrune w) as [[last|e] w1]; [|done]. destruct Ho as [Ho Ht].
  apply RuntimeTimestamp_Ok in Ho as [-> Hdb]. rewrite <- Hdb in *. destruct (prune_due _ _ _) eqn:Hdue.
  - unfold prune_history, mtry in H. pose proof (over_prune now (rt_historyRetention rt) (rt_maxHistoryEntries rt) w1) as Hp.
    destruct (r_PruneHistory _ _ _ w1) as [[r|e] w2]; [|done]. destruct Hp as [Hp Hp2].
    destruct (pruneRemoved r) as [removed|] eqn:Hr; [|done]. cbn in H. injection H as <-.
    assert (Event_Validate (prune_event removed now) = None) as Hv.
    { apply prune_event_valid; [done|]. eapply total_removed_bound; [|exact Hr]. lia. }
    destruct (emit_over _ w2 Hv) as (E1 & t & E2). rewrite E1. apply prune_Ok in Hp as (H1 & H2 & H3); [|done].
    split_and!; [done|done| |].
    + eexists. split; [exact H3|]. by apply pruned_not_due.
    + exists [REvent (prune_event removed now) t]. split; [unfold reports in *; by rewrite E2, Hp2, Ht|].
      intros r0 ->%list_elem_of_singleton. eauto.
  - injection H as <-. split_and!; [done|done| |].
    + destruct (timestamp RuntimeLastPrune (sw_db (st w1))) as [s|]; [by exists s|done].
    + exists []. split; [by unfold reports|]. by intros r ?%elem_of_nil.
Qed.

Lemma active_over w w' : count_active w = (Ok tt, w') -> sw_db (st w') = sw_db (st w) /\ tk w' = tk w.
Proof.
  unfold count_active, mtry. intros H. pose proof (over_active w) as Ho.
  destruct r_ListActiveDecisions as [[ds|e] w1]; [|done]. destruct Ho as [Ho Ht].
  apply wrap_query_Ok in Ho as [_ Hdb]. unfold mthen, failing in H.
  destruct (over_set_active (Z.of_nat (List.length ds)) w1) as [E1 E2].
  destruct (r_SetActiveDecisions _ w1) as [[e|] w2]; [done|]. injection H as <-. cbn in *. by rewrite E1, E2.
Qed.

Lemma lapi_over now w w' : time_IsZero now = false -> authenticate now w = (Ok tt, w') ->
  st w' = st w /\ exists t t', reports w w' [RLAPI true t; REvent (runtime_lapi_event OutcomeAvailable SeverityInfo "" now) t'].
Proof.
  unfold authenticate, mthen, failing. intros Hz H. destruct (over_authenticate w) as [E1 E2].
  destruct (r_Authenticate w) as [[e|] w1]; [done|]. cbn in *. injection H as <-.
  destruct (over_lapi true w1) as (E3 & t & E4).
  destruct (emit_over _ (r_MarkLAPI true w1) (lapi_event_valid now Hz)) as (E5 & t' & E6).
  split; [by rewrite E5, E3|]. exists t, t'. unfold reports in *. cbn in *. by rewrite E6, E4, E2.
Qed.
End Startup.

(** ** What the tracker was told *)

(** The reports of a start-up that succeeded; the pruning's are in [rs]. *)
Definition startup_reports (now t1 t2 t3 t4 t5 : Time) (s : option Z) (rs : list report) : list report :=
  [REvent (runtime_event CodeServiceStarting OutcomeStarted SeverityInfo "" now) t1; RConfiguration true; RCredentials true] ++
  [RDatabase true; REvent (database_event OutcomeAvailable SeverityInfo "" now) t2] ++ sync_report s ++ rs ++
  [RLAPI true t3; REvent (runtime_lapi_event OutcomeAvailable SeverityInfo "" now) t4] ++
  [REvent (runtime_event CodeServiceStarted OutcomeSuccess SeverityInfo "" now) t5].

Lemma omap_nothing {A B} (f : A -> option B) l : (forall x, x ∈ l -> f x = None) -> omap f l = [].
Proof.
  induction l as [|x l IH]; intros H; [done|]. cbn. rewrite (H x) by left. apply IH. intros y Hy. apply H. by right.
Qed.

Lemma starting_valid now : time_IsZero now = false ->
  Event_Validate (runtime_event CodeServiceStarting OutcomeStarted SeverityInfo "" now) = None.
Proof. intros Hz. by apply runtime_event_valid. Qed.
Lemma started_valid now : time_IsZero now = false ->
  Event_Validate (runtime_event CodeServiceStarted OutcomeSuccess SeverityInfo "" now) = None.
Proof. intros Hz. by apply runtime_event_valid. Qed.

(** After them the tracker is ready exactly while the last safe synchronisation
    is recent. *)
Lemma startup_ready age grace t0 now t1 t2 t3 t4 t5 s rs t : Tracker_New age grace = Ok t0 -> time_IsZero now = false ->
  (forall x, s = Some x -> 0 <= x) ->
  (forall r, r ∈ rs -> exists n t, r = REvent (prune_event n now) t /\ Event_Validate (prune_event n now) = None) ->
  hr_Status (Snapshot_at t (fold_left take_report (startup_reports now t1 t2 t3 t4 t5 s rs) t0)) = StatusReady <->
  exists x, s = Some x /\ time_Sub t (Unix x) <= age.
Proof.
  intros Hnew Hz Hs Hrs. rewrite (ready_exactly_when age grace t0 _ t Hnew).
  assert (forall {B} (f : report -> option B), (forall n t, Event_Validate (prune_event n now) = None ->
    f (REvent (prune_event n now) t) = None) -> omap f rs = []) as Hnone.
  { intros B f Hf. apply omap_nothing. intros r (n & u & -> & Hv)%Hrs. auto. }
  assert (existsb says_end rs = false) as Hend.
  { apply not_true_is_false. rewrite existsb_exists. intros (r & Hin%list_elem_of_In & Hr).
    apply Hrs in Hin as (n & u & -> & Hv). cbn in Hr. unfold valid_event in Hr. by rewrite Hv in Hr. }
  pose proof (starting_valid now Hz) as V1. pose proof (started_valid now Hz) as V2.
  pose proof (database_event_valid now Hz) as V3. pose proof (lapi_event_valid now Hz) as V4.
  assert (forall x, s = Some x -> says_safe (RSync (safe_sync_at (Unix x))) = Some (Unix x)) as Hsafe.
  { intros x ->. cbn. unfold Result_Validate. cbn. unfold time_IsZero, Before.
    specialize (Hs x eq_refl). destruct (Z.eqb_spec (Unix x) 0) as [E|_].
    - unfold Unix, unix_epoch, Second in E. lia.
    - destruct (Z.ltb_spec (Unix x) (Unix x)); [lia|]. cbn. unfold time_Sub. by rewrite Z.sub_diag. }
  assert (omap says_safe (startup_reports now t1 t2 t3 t4 t5 s rs) = match s with Some x => [Unix x] | None => [] end) as Es.
  { unfold startup_reports. rewrite !omap_app, (Hnone _ says_safe).
    - cbn. unfold valid_event. rewrite V1, V2, V3, V4. cbn. destruct s as [x|]; [|done]. cbn -[says_safe]. by rewrite (Hsafe x).
    - intros n u Hv. cbn. unfold valid_event. by rewrite Hv. }
  rewrite Es. unfold startup_reports. rewrite !omap_app, !existsb_app, Hend,
    (Hnone _ says_configuration), (Hnone _ says_credentials), (Hnone _ says_database), (Hnone _ says_lapi)
    by (intros n u Hv; cbn; unfold valid_event; by rewrite ?Hv).
  cbn. unfold valid_event. rewrite V1, V2, V3, V4. cbn.
  assert (forall {B} (f : report -> option B), f (RSync (safe_sync_at 0)) = None ->
    (forall r, f (RSync r) = f (RSync (safe_sync_at 0))) -> omap f (sync_report s) = []) as Hsync.
  { intros B f H0 Hf. destruct s; cbn; [|done]. by rewrite Hf, H0. }
  rewrite !Hsync by done. assert (existsb says_end (sync_report s) = false) as -> by (by destruct s). cbn. split.
  - intros (_ & _ & _ & _ & _ & u & Hu & Hpos & _ & Hage). destruct s as [x|]; [|by apply elem_of_nil in Hu].
    apply list_elem_of_singleton in Hu as ->. eauto.
  - intros (x & -> & Hage). split_and!; try done.
    + left. by exists [(true, t3)], t4.
    + specialize (Hs x eq_refl). exists (Unix x). split_and!; [left|unfold Unix, unix_epoch, Second; lia|by repeat constructor|done].
Qed.

(** a start-up that succeeds leaves no run open and no table broken, and the
    history pruned within the interval; and from then on the service is ready at
    an instant exactly when a safe synchronisation was stored and is not too old. *)
Theorem bootstrap_recovers {W} `{!RuntimeWorld W} (st : W -> SW) (tk : W -> Tracker) `{!RuntimeOver W st tk}
    idle retention limit interval rt age grace w w' :
  NewRuntime idle retention limit interval = Ok rt -> Tracker_New age grace = Ok (tk w) -> all_ok (sw_db (st w)) ->
  unix (r_now w).1 <= max_int64 -> bootstrap rt w = (Ok tt, w') ->
  all_ok (sw_db (st w')) /\ no_running (sw_db (st w')) /\
  (exists s, timestamp RuntimeLastPrune (sw_db (st w')) = Some s /\ prune_due rt (r_now w).1 (Some (Unix s)) = false) /\
  forall t, hr_Status (Snapshot_at t (tk w')) = StatusReady <->
    exists s, timestamp RuntimeLastSafeSync (sw_db (st w)) = Some s /\ time_Sub t (Unix s) <= age.
Proof.
  intros Hrt Hnew Hok Hmax H.
  assert (Second <= rt_pruneInterval rt) as Hi.
  { unfold NewRuntime in Hrt. destruct (_ || _) eqn:E in Hrt; [done|]. injection Hrt as <-. cbn. to_prop. unfold Hour, Minute in *. 
    unfold Second in *. lia. }
  unfold bootstrap in H. destruct (over_now w) as [S0 T0]. destruct (r_now w) as [now w0]. cbn [fst snd] in *.
  unfold bootstrap_at in H. destruct (time_IsZero now || (unix now <? 0)) eqn:Hc; [done|].
  apply orb_false_iff in Hc as [Hz _]. cbn [says mthen] in H.
  destruct (emit_over st tk _ w0 (starting_valid now Hz)) as (S1 & t1 & T1). set (w1 := runtime_emit _ w0) in *.
  destruct (over_configuration true w1) as [S2 T2]. destruct (over_credentials true (r_MarkConfiguration true w1)) as [S3 T3].
  apply mthen_ok in H as ([] & w4 & H4 & H). apply (recover_over st tk) in H4 as ((n & S4) & t2 & T4); [|done].
  apply recover_Ok in S4 as (N4 & R4 & A4).
  apply mthen_ok in H as ([] & w5 & H5 & H). apply (restore_over st tk) in H5 as (S5 & T5).
  apply mthen_ok in H as ([] & w6 & H6 & H).
  apply (prune_over st tk) in H6 as (N6 & A6 & P6 & rs & T6 & Hrs); [|done..].
  apply mthen_ok in H as ([] & w7 & H7 & H). apply (active_over st tk) in H7 as (S7 & T7).
  apply mthen_ok in H as ([] & w8 & H8 & H). apply (lapi_over st tk) in H8 as (S8 & t3 & t4 & T8); [|done].
  destruct (over_startup w8) as (T9 & (x & S9) & D9).
  destruct (emit_over st tk _ (r_Startup w8) (started_valid now Hz)) as (S10 & t5 & T10). injection H as <-.
  rewrite S9, S8 in D9. rewrite S10, S9, S8. rewrite S3, S2, S1, S0 in *.
  assert (timestamp RuntimeLastSafeSync (sw_db (st w4)) = timestamp RuntimeLastSafeSync (sw_db (st w))) as E4.
  { unfold timestamp, runtime_value. by rewrite R4. }
  assert (all_ok (sw_db (st w7))) as Hok7.
  { rewrite S7. apply A6. rewrite S5. apply A4. exact Hok. }
  split_and!.
  - destruct Hok7 as [[[D1 D2 D3 D4 D5 D6 D7 D8] Df] [R1 R2 R3] Hd]. split; [split; [by split|]|by split|by apply D9].
    eapply same_feeds_ok; [|exact Df]. reflexivity.
  - change (no_running (sw_db (st w7))). rewrite S7. apply N6. rewrite S5. exact N4.
  - destruct P6 as (s & Hs & Hd). exists s. split; [|done]. rewrite <- S7 in Hs. exact Hs.
  - intros t. rewrite E4 in T5.
    assert (reports tk w (runtime_emit (runtime_event CodeServiceStarted OutcomeSuccess SeverityInfo "" now) (r_Startup w8))
      (startup_reports now t1 t2 t3 t4 t5 (timestamp RuntimeLastSafeSync (sw_db (st w))) rs)) as HT.
    { unfold startup_reports, reports in *. rewrite !fold_left_app. rewrite T10, T9, T8, T7, T6, T5, T4, T3, T2, T1, T0. reflexivity. }
    unfold reports in HT. rewrite HT. apply (startup_ready age grace (tk w)); [done|done| |done].
    intros y Hy. by eapply timestamp_nonneg.
Qed.

(** ** A service, evaluated *)

(** A store and a tracker, a clock that stands still, the channel that will be
    ready first, and whether the local API accepts. *)
Record Service : Type := MkService {
  sv_store : SW; sv_health : Tracker; sv_now : Time; sv_first : ready_channel; sv_accepts : bool }.

Definition with_store (s : SW) (w : Service) : Service :=
  MkService s (sv_health w) (sv_now w) (sv_first w) (sv_accepts w).
Definition with_health (t : Tracker) (w : Service) : Service :=
  MkService (sv_store w) t (sv_now w) (sv_first w) (sv_accepts w).
Definition on_store {A} (m : Store A) : M Service error A := fun w =>
  let '(r, s) := m (sv_store w) in (r, with_store s w).
Definition told (r : report) (w : Service) : Service := with_health (take_report (sv_health w) r) w.

#[export] Instance service_world : RuntimeWorld Service := {|
  r_now w := (sv_now w, w);
  r_RecoverInterruptedSyncRuns now := on_store (RecoverInterruptedSyncRuns now);
  r_RuntimeTimestamp key := on_store (RuntimeTimestamp key);
  r_PruneHistory now retention limit := on_store (PruneHistory now retention limit);
  r_ListActiveDecisions := on_store ListActiveDecisions;
  r_State_Close w := (None, w);
  r_Authenticate w := (if sv_accepts w then None else Some (lapiError lapi.ErrAuth None), w);
  r_MarkConfiguration b := told (RConfiguration b);
  r_MarkCredentials b := told (RCredentials b);
  r_MarkDatabase b := told (RDatabase b);
  r_MarkLAPI b w := told (RLAPI b (sv_now w)) w;
  r_MarkRuntimeFatal := told RRuntimeFatal;
  r_MarkStopping := told RStopping;
  r_RecordSync r w := ((RecordSync r (sv_health w)).1, told (RSync r) w);
  r_SetActiveDecisions n w := (None, w);
  r_Startup w := w;
  r_Notifications_Close w := w;
  r_Observe e w := told (REvent e (sv_now w)) w;
  r_start_workers w := w;
  r_select w := (sv_first w, w);
  r_cancelWorkers w := w;
  r_schedulerDone w := (Returned None, w);
  r_Shutdown w := (None, w);
  r_httpDone w := (Returned None, w);
  r_Listener_Close w := w;
  r_CloseIdleConnections _ w := w;
  r_Destroy w := w |}.

#[export] Instance service_over : RuntimeOver Service sv_store sv_health.
Proof.
  split; cbn; unfold on_store, told; try (intros; by repeat split); intros.
  - by destruct (RecoverInterruptedSyncRuns _ _).
  - by destruct (RuntimeTimestamp _ _).
  - by destruct (PruneHistory _ _ _ _).
  - by destruct (ListActiveDecisions _).
  - split; [done|eauto].
  - split; [done|eauto].
  - split; [done|]. split; [|done]. exists (db_delivery (sw_db (sv_store w))). by destruct (sw_db (sv_store w)).
Qed.

Definition ex_runtime : Runtime := MkRuntime 2 (30 * 24 * Hour) 100 (24 * Hour).
Definition ex_boot_at : Time := Unix 1700000000.

(** A run was interrupted, another was safe an hour ago. *)
Definition ex_interrupted : DB :=
  set_runtime {[ RuntimeLastSafeSync := (itoa 1699996400, 1699996400) ]}
  (set_runs {[ 1 := MkRunRow 1699996300 (Some 1699996400) SyncModeEnforce "" RunStatusSuccess 0 0 0 0 0 0 0 0 "";
               2 := MkRunRow 1699999000 None SyncModeEnforce "" RunStatusRunning 0 0 0 0 0 0 0 0 "" ]} empty_db).

Definition ex_health : Tracker :=
  MkTracker (2 * Hour) Minute ComponentPending ComponentPending ComponentPending ComponentPending ComponentRunning false 0 0.

Definition ex_service (first : ready_channel) (accepts : bool) : Service :=
  MkService (MkSW ex_interrupted []) ex_health ex_boot_at first accepts.

Lemma ex_interrupted_ok : all_ok ex_interrupted.
Proof.
  destruct empty_all_ok as [Hs Hr _]. split; [| |done].
  - destruct Hs as [[D1 D2 D3 D4 D5 D6 D7 D8] Df]. split; [by split|]. eapply same_feeds_ok; [|exact Df]. reflexivity.
  - split.
    + intros id row Hr'. cbn in Hr'. apply lookup_insert_Some in Hr' as [[<- <-]|[_ Hr']]; [by vm_compute|].
      apply lookup_singleton_Some in Hr' as [<- <-]. by vm_compute.
    + intros k row Hk. done.
    + intros key. destruct (decide (key = RuntimeLastSafeSync)) as [->|Hne].
      * right. exists 1699996400. by vm_compute.
      * left. unfold runtime_value, ex_interrupted. cbn [db_runtime set_runtime]. by rewrite lookup_singleton_ne.
Qed.

(** Five minutes after the start the service is ready; two hours later, without
    another synchronisation, it is not. *)
Lemma bootstrap_recovers_witness : exists w',
  bootstrap ex_runtime (ex_service ContextDone true) = (Ok tt, w') /\ no_running (sw_db (sv_store w')) /\
  hr_Status (Snapshot_at (ex_boot_at + 5 * Minute) (sv_health w')) = StatusReady /\
  hr_Status (Snapshot_at (ex_boot_at + 2 * Hour) (sv_health w')) = StatusNotReady.
Proof.
  set (w0 := ex_service ContextDone true).
  assert (fst (bootstrap ex_runtime w0) = Ok tt) as E by (by vm_compute).
  destruct (bootstrap ex_runtime w0) as [r w'] eqn:Hb. cbn [fst] in E. subst r. exists w'.
  assert (unix (r_now w0).1 <= max_int64) as Hmax by (by vm_compute).
  destruct (bootstrap_recovers sv_store sv_health 2 (30 * 24 * Hour) 100 (24 * Hour) ex_runtime (2 * Hour) Minute w0 _
    eq_refl eq_refl ex_interrupted_ok Hmax Hb) as (_ & Hno & _ & Hr).
  split; [done|]. split; [exact Hno|]. clear Hb Hno. split.
  - apply Hr. exists 1699996400. split; [by vm_compute|]. by vm_compute.
  - destruct (hr_Status _) eqn:Es; [|done]. apply Hr in Es as (s & Hs & Ht).
    assert (s = 1699996400) as -> by (vm_compute in Hs; congruence). by vm_compute in Ht.
Defined.

(** Whole runs: the context ends a service that then says it is stopping; the
    HTTP server ends by itself; the local API refuses. *)
Example run_stopped :
  let '(r, w) := Runtime_Run ex_runtime false (ex_service ContextDone true) in
  r = None /\ hr_Reason (Snapshot_at ex_boot_at (sv_health w)) = ReasonStopping.
Proof. by vm_compute. Qed.

Example run_http_ended :
  let '(r, w) := Runtime_Run ex_runtime false (ex_service (HttpDone (Returned None)) true) in
  r = Some ErrRuntimeFailure /\ hr_Reason (Snapshot_at ex_boot_at (sv_health w)) = ReasonRuntimeFatal.
Proof. by vm_compute. Qed.

Example run_refused :
  let '(r, w) := Runtime_Run ex_runtime false (ex_service ContextDone false) in
  r = Some ErrRuntimeStartup /\ hr_Reason (Snapshot_at ex_boot_at (sv_health w)) = ReasonRuntimeFatal.
Proof. by vm_compute. Qed.
