(* ===== verification/Migrate.v ===== *)
(** * Migrations of the schema ([migrations/embed.go], [internal/state/migrate.go])

    The embedded scripts with their versions and checksums, and the transaction
    that brings a database to the last of them.  What a script does to the data
    is SQLite's: a parameter of the model; the table of the applied versions is
    the program's. *)

From S2P Require Export StateDB Sha256.

Record Migration : Type := MkMigration {
  mg_Version : Z; mg_Name : string; mg_SQL : string; mg_Checksum : string }.

(** ** The embedded files ([migrations.All]) *)

(** An entry of the directory, and what reading it returns. *)
Record DirEntry : Type := MkDirEntry { de_Name : string; de_IsDir : bool; de_Body : Prelude.result error string }.

Definition embed_error (what : string) : error := Foreign what.

Definition compare_versions (a b : Migration) : Z := cmp_int (mg_Version a) (mg_Version b).

(** One turn of the loop over the entries. *)
Definition read_entry (e : DirEntry) : Prelude.result error (option Migration) :=
  if de_IsDir e || negb (has_suffix ".sql" (de_Name e)) then Ok None
  else
    match cut_byte "_" (de_Name e) with
    | None => Err (embed_error "invalid migration name")
    | Some (number, _) =>
        match atoi number with
        | None => Err (embed_error "invalid migration version")
        | Some version =>
            if version <? 1 then Err (embed_error "invalid migration version")
            else
              match de_Body e with
              | Err _ => Err (embed_error "read embedded migration")
              | Ok body => Ok (Some (MkMigration version (de_Name e) body (sha256_hex body)))
              end
        end
    end.

Fixpoint read_entries (entries : list DirEntry) : Prelude.result error (list Migration) :=
  match entries with
  | [] => Ok []
  | e :: rest =>
      let? m := read_entry e in
      let? ms := read_entries rest in
      Ok (match m with Some m => m :: ms | None => ms end)
  end.

(** [for index, migration := range migrations] *)
Fixpoint sequential (index : Z) (ms : list Migration) : bool :=
  match ms with
  | [] => true
  | m :: rest =>
      negb (negb (mg_Version m =? index + 1) || String.eqb (mg_SQL m) "" || String.eqb (mg_Checksum m) "") &&
      sequential (index + 1) rest
  end.

(** [dir] is what [fs.ReadDir] returns. *)
Definition All (dir : Prelude.result error (list DirEntry)) : Prelude.result error (list Migration) :=
  match dir with
  | Err _ => Err (embed_error "read embedded migrations")
  | Ok entries =>
      let? migrations := read_entries entries in
      let migrations := sort_func compare_versions migrations in
      if negb (sequential 0 migrations) then Err (embed_error "non-sequential embedded migrations")
      else match migrations with
           | [] => Err (embed_error "no embedded migrations")
           | _ => Ok migrations
           end
  end.

(** ** Their validation *)

Definition migration_error (cause : option error) : error := stateError state.ErrMigration cause.

(** [items] is what is left of the items, [sorted] of their sorted copy. *)
Fixpoint validate_from (index : Z) (sorted items : list Migration) : bool :=
  match sorted, items with
  | item :: sorted, given :: items =>
      negb (negb (mg_Version item =? index + 1) || String.eqb (mg_Name item) "" || String.eqb (mg_SQL item) "" ||
            negb (String.eqb (mg_Checksum item) (sha256_hex (mg_SQL item)))) &&
      (mg_Version item =? mg_Version given) && validate_from (index + 1) sorted items
  | _, _ => true
  end.

Definition validateMigrations (items : list Migration) : option error :=
  match items with
  | [] => Some (migration_error None)
  | _ => if validate_from 0 (sort_func compare_versions items) items then None else Some (migration_error None)
  end.

(** ** The database *)

(** What a script does to the data. *)
Class Scripts (D : Type) : Type := { exec_script : string -> D -> Prelude.result error D }.

Record mig_row : Type := MkMigRow { mr_name : string; mr_checksum : string; mr_applied_at : Z }.

(** The table [schema_migrations], where it exists, and the data. *)
Record MDB (D : Type) : Type := MkMDB { md_table : option (gmap Z mig_row); md_data : D }.
Arguments MkMDB {D}.
Arguments md_table {D}.
Arguments md_data {D}.

(** The database and the faults of the statements to come. *)
Record MW (D : Type) : Type := MkMW { mw_db : MDB D; mw_faults : list (option error) }.
Arguments MkMW {D}.
Arguments mw_db {D}.
Arguments mw_faults {D}.

Section Migrate.
Context {D : Type} `{!Scripts D}.
Abbreviation Schema A := (M (MW D) error A).

Definition mstmt {A} (run : MDB D -> Prelude.result error (A * MDB D)) : Schema A := fun w =>
  match mw_faults w with
  | Some e :: rest => (Err (migration_error (Some e)), MkMW (mw_db w) rest)
  | fs =>
      match run (mw_db w) with
      | Ok (a, d) => (Ok a, MkMW d (tail fs))
      | Err e => (Err (migration_error (Some e)), MkMW (mw_db w) (tail fs))
      end
  end.

(** [BeginTx], the body and [Commit]; the deferred [Rollback] restores the
    database when any of them fails. *)
Definition mtx {A} (body : Schema A) : Schema A := fun w =>
  let rolled (w' : MW D) := MkMW (mw_db w) (mw_faults w') in
  match mstmt (fun d => Ok (tt, d)) w with
  | (Err e, w') => (Err e, rolled w')
  | (Ok _, w1) =>
      match body w1 with
      | (Err e, w') => (Err e, rolled w')
      | (Ok a, w2) =>
          match mstmt (fun d => Ok (tt, d)) w2 with
          | (Err e, w') => (Err e, rolled w')
          | (Ok _, w') => (Ok a, w')
          end
      end
  end.

(** [CREATE TABLE IF NOT EXISTS] *)
Definition create_table (d : MDB D) : Prelude.result error (unit * MDB D) :=
  Ok (tt, MkMDB (Some (default ∅ (md_table d))) (md_data d)).

Definition no_table : error := sqlite "no such table: schema_migrations".

(** [SELECT version, checksum FROM schema_migrations ORDER BY version] *)
Definition applied_versions (t : gmap Z mig_row) : list (Z * string) :=
  sort_func (fun a b => cmp_int a.1 b.1) (map (fun kv => (kv.1, mr_checksum kv.2)) (map_to_list t)).

Definition select_versions (d : MDB D) : Prelude.result error (list (Z * string) * MDB D) :=
  match md_table d with Some t => Ok (applied_versions t, d) | None => Err no_table end.

Definition execute_sql (sql : string) (d : MDB D) : Prelude.result error (unit * MDB D) :=
  let? data := exec_script sql (md_data d) in Ok (tt, MkMDB (md_table d) data).

Definition insert_version (item : Migration) (at_ : Z) (d : MDB D) : Prelude.result error (unit * MDB D) :=
  match md_table d with
  | None => Err no_table
  | Some t =>
      match t !! mg_Version item with
      | Some _ => Err (sqlite "UNIQUE constraint failed: schema_migrations.version")
      | None => Ok (tt, MkMDB (Some (<[mg_Version item := MkMigRow (mg_Name item) (mg_Checksum item) at_]> t)) (md_data d))
      end
  end.

(** A version that was applied is one of the items, with its checksum. *)
Definition known_version (items : list Migration) (applied : Z * string) : bool :=
  negb ((applied.1 <? 1) || (Z.of_nat (List.length items) <? applied.1)) &&
  match items !! Z.to_nat (applied.1 - 1) with Some item => String.eqb (mg_Checksum item) applied.2 | None => false end.

(** One turn of the loop over the items; [clock] is the time of the clock. *)
Definition apply_item (clock : Z -> Time) (applied : list (Z * string)) (item : Migration) : Schema unit :=
  if existsb (fun a => a.1 =? mg_Version item) applied then mok tt
  else
    let! _ := mstmt (execute_sql (mg_SQL item)) in
    mstmt (insert_version item (unix (clock (mg_Version item)))).

Definition migrate_body (clock : Z -> Time) (items : list Migration) : Schema unit :=
  let! _ := mstmt create_table in
  let! applied := mstmt select_versions in
  if negb (forallb (known_version items) applied) then mfail (migration_error None)
  else mfor (apply_item clock applied) items.

Definition Migrate (clock : Z -> Time) (items : list Migration) : Schema unit :=
  match validateMigrations items with
  | Some e => mfail e
  | None => mtx (migrate_body clock items)
  end.

(** ** Reading the version *)

(** [SELECT MAX(version)] *)
Definition SchemaVersion : Schema Z := fun w =>
  match mw_faults w with
  | Some e :: rest => (Err (stateError state.ErrQuery (Some e)), MkMW (mw_db w) rest)
  | fs =>
      let w' := MkMW (mw_db w) (tail fs) in
      match md_table (mw_db w) with
      | None => (Err (stateError state.ErrQuery (Some no_table)), w')
      | Some t =>
          (Ok (match map fst (map_to_list t) with [] => 0 | v :: vs => fold_left Z.max vs v end), w')
      end
  end.

(** The loop over the rows: [all] is what is left of the migrations. *)
Fixpoint verify_rows (rows : list (Z * string)) (all : list Migration) : bool :=
  match rows, all with
  | [], [] => true
  | (version, checksum) :: rows, m :: all =>
      negb (negb (version =? mg_Version m) || negb (String.eqb checksum (mg_Checksum m))) && verify_rows rows all
  | _, _ => false
  end.

(** [verifyReadOnlyMigrations]; [all] is what [migrations.All] returns. *)
Definition verifyReadOnlyMigrations (all : Prelude.result error (list Migration)) : Schema unit :=
  match all with
  | Err e => mfail (migration_error (Some e))
  | Ok all =>
      let! rows := mstmt select_versions in
      if verify_rows rows all then mok tt else mfail (migration_error None)
  end.
End Migrate.
