(* ===== verification/MigrateRun.v ===== *)
(** * What the migrations achieve

    The embedded scripts are valid as the migration wants them; a migration runs
    exactly the scripts that were not applied yet, once and in order, or changes
    nothing; and coming to a version in steps is the same as coming to it at
    once. *)

From S2P Require Export Migrate.

#[export] Instance compare_versions_laws : CmpLaws compare_versions.
Proof. apply (cmp_on_laws mg_Version cmp_int). apply _. Qed.

(** A list in order is what sorting it gives, when the order tells its elements apart. *)
Lemma sort_func_id {A} (cmp : A -> A -> Z) `{!CmpLaws cmp} xs :
  (forall x y, x ∈ xs -> y ∈ xs -> cmp x y = 0 -> x = y) -> StronglySorted (cmp_le cmp) xs -> sort_func cmp xs = xs.
Proof.
  intros Heq Hs. apply (StronglySorted_unique_strong (cmp_le cmp)).
  - intros x y Hx Hy. rewrite elem_of_sort_func in Hx. unfold cmp_le. intros H1 H2. apply Heq; [done..|].
    pose proof (cmp_sym (cmp:=cmp) x y). lia.
  - by apply sort_func_sorted.
  - done.
  - apply sort_func_perm.
Qed.

(** ** Valid migrations *)

(** The migrations from an index on are complete and numbered. *)
Fixpoint numbered (index : Z) (ms : list Migration) : Prop :=
  match ms with
  | [] => True
  | m :: rest => mg_Version m = index + 1 /\ mg_Name m <> "" /\ mg_SQL m <> "" /\
                 mg_Checksum m = sha256_hex (mg_SQL m) /\ numbered (index + 1) rest
  end.

(** Only the numbers. *)
Fixpoint versions_from (index : Z) (ms : list Migration) : Prop :=
  match ms with [] => True | m :: rest => mg_Version m = index + 1 /\ versions_from (index + 1) rest end.

Lemma versions_from_bound index ms m : versions_from index ms -> m ∈ ms ->
  index < mg_Version m <= index + Z.of_nat (List.length ms).
Proof.
  revert index. induction ms as [|x ms IH]; intros index H Hm; [by apply elem_of_nil in Hm|]. destruct H as [Hv H].
  cbn [List.length]. apply elem_of_cons in Hm as [->|Hm]; [lia|]. specialize (IH _ H Hm). lia.
Qed.

Lemma versions_from_inj index ms m m' : versions_from index ms -> m ∈ ms -> m' ∈ ms -> mg_Version m = mg_Version m' -> m = m'.
Proof.
  revert index. induction ms as [|x ms IH]; intros index H Hm Hm' E; [by apply elem_of_nil in Hm|]. destruct H as [Hv H].
  apply elem_of_cons in Hm as [->|Hm]; apply elem_of_cons in Hm' as [->|Hm']; [done| | |by eapply IH].
  - pose proof (versions_from_bound _ _ _ H Hm'). lia.
  - pose proof (versions_from_bound _ _ _ H Hm). lia.
Qed.

Lemma versions_from_sorted index ms : versions_from index ms -> StronglySorted (cmp_le compare_versions) ms.
Proof.
  revert index. induction ms as [|x ms IH]; intros index H; constructor; destruct H as [Hv H]; [by eapply IH|].
  apply List.Forall_forall. intros y Hy%list_elem_of_In. unfold cmp_le, compare_versions, cmp_int.
  pose proof (versions_from_bound _ _ _ H Hy). apply cmp_of_le. fold (mg_Version x <= mg_Version y). lia.
Qed.

Lemma versions_from_sort index ms : versions_from index ms -> sort_func compare_versions ms = ms.
Proof.
  intros H. apply sort_func_id; [apply _| |by eapply versions_from_sorted]. intros x y Hx Hy E.
  eapply versions_from_inj; [done..|]. by apply cmp_int_eq.
Qed.

Lemma numbered_versions index ms : numbered index ms -> versions_from index ms.
Proof. revert index. induction ms as [|m ms IH]; intros index H; cbn in *; [done|]. naive_solver. Qed.

Lemma validate_from_versions index sorted items : List.length sorted = List.length items ->
  validate_from index sorted items = true -> versions_from index items.
Proof.
  revert index items. induction sorted as [|s sorted IH]; intros index [|i items] Hl H; try done. cbn in *.
  apply andb_prop in H as [H H2]. apply andb_prop in H as [H1 H3]. to_prop. split; [lia|]. apply IH; [lia|done].
Qed.

Lemma validate_from_numbered index items : validate_from index items items = true <-> numbered index items.
Proof.
  revert index. induction items as [|m ms IH]; intros index; cbn; [done|]. rewrite !andb_true_iff, IH, negb_true_iff, !orb_false_iff,
    !negb_false_iff, !Z.eqb_eq, !String.eqb_neq, String.eqb_eq. intuition.
Qed.

Lemma validateMigrations_numbered items : validateMigrations items = None <-> items <> [] /\ numbered 0 items.
Proof.
  unfold validateMigrations. destruct items as [|m ms]; [split; [done|by intros []]|]. set (items := m :: ms).
  destruct (validate_from 0 (sort_func compare_versions items) items) eqn:E.
  - split; [|done]. intros _. split; [done|].
    pose proof (validate_from_versions _ _ _ (length_sort_func compare_versions items) E) as Hv.
    rewrite (versions_from_sort _ _ Hv) in E. by apply validate_from_numbered.
  - split; [done|]. intros [_ H]. exfalso. rewrite (versions_from_sort 0) in E by (by apply numbered_versions).
    apply validate_from_numbered in H. congruence.
Qed.

(** The embedded migrations are valid. *)
Lemma read_entries_whole entries ms : read_entries entries = Ok ms ->
  Forall (fun m => mg_Checksum m = sha256_hex (mg_SQL m) /\ mg_Name m <> "") ms.
Proof.
  revert ms. induction entries as [|e rest IH]; intros ms H; cbn in H; [by injection H as <-|].
  unfold rbind in H. destruct (read_entry e) as [m|] eqn:E; [|done]. destruct (read_entries rest) as [ms'|]; [|done].
  injection H as <-. specialize (IH _ eq_refl). destruct m as [m|]; [|done]. constructor; [|done].
  unfold read_entry in E. destruct (_ || _) eqn:Es; [done|]. destruct (cut_byte _ _) as [[number rest']|] eqn:Ec; [|done].
  destruct (atoi number); [|done]. destruct (_ <? 1); [done|]. destruct (de_Body e); [|done].
  injection E as <-. split; [done|]. cbn. intros Hn. by rewrite Hn in Ec.
Qed.

Lemma sequential_numbered index ms : sequential index ms = true ->
  Forall (fun m => mg_Checksum m = sha256_hex (mg_SQL m) /\ mg_Name m <> "") ms -> numbered index ms.
Proof.
  revert index. induction ms as [|m ms IH]; intros index H Hf; cbn in *; [done|]. inv Hf.
  apply andb_prop in H as [H Hs]. apply negb_true_iff in H. apply orb_false_iff in H as [H _]. apply orb_false_iff in H as [H Hq].
  apply negb_false_iff, Z.eqb_eq in H. apply String.eqb_neq in Hq. naive_solver.
Qed.

Lemma All_valid dir ms : All dir = Ok ms -> validateMigrations ms = None.
Proof.
  unfold All, rbind. intros H. destruct dir as [entries|]; [|done]. destruct (read_entries entries) as [ms0|] eqn:E; [|done].
  destruct (sequential 0 (sort_func compare_versions ms0)) eqn:Es; cbn [negb] in H; [|done].
  assert (ms = sort_func compare_versions ms0 /\ ms <> []) as [-> Hne] by (destruct (sort_func compare_versions ms0); [done|by injection H as <-]).
  apply validateMigrations_numbered. split; [done|]. apply sequential_numbered; [done|].
  rewrite sort_func_perm. by apply read_entries_whole in E.
Qed.

(** ** What a migration does *)

Section MigrateRun.
Context {D : Type} `{!Scripts D}.

(** The scripts in order. *)
Fixpoint run_scripts (ms : list Migration) (data : D) : Prelude.result error D :=
  match ms with
  | [] => Ok data
  | m :: rest => let? data := exec_script (mg_SQL m) data in run_scripts rest data
  end.

(** The migrations that a table does not have yet. *)
Definition pending (t : gmap Z mig_row) (items : list Migration) : list Migration :=
  List.filter (fun m => match t !! mg_Version m with Some _ => false | None => true end) items.

Definition row_for (clock : Z -> Time) (m : Migration) : mig_row :=
  MkMigRow (mg_Name m) (mg_Checksum m) (unix (clock (mg_Version m))).

Definition add_rows (clock : Z -> Time) (ms : list Migration) (t : gmap Z mig_row) : gmap Z mig_row :=
  fold_left (fun t m => <[mg_Version m := row_for clock m]> t) ms t.

(** The table of a database, where it exists. *)
Definition table_of (d : MDB D) : gmap Z mig_row := default ∅ (md_table d).

(** Every applied version is one of the items, with its checksum. *)
Definition table_known (items : list Migration) (t : gmap Z mig_row) : Prop :=
  forall v row, t !! v = Some row -> 1 <= v /\ exists m, items !! Z.to_nat (v - 1) = Some m /\ mg_Checksum m = mr_checksum row.

Lemma mstmt_Ok {A} (run : MDB D -> Prelude.result error (A * MDB D)) w a w' :
  mstmt run w = (Ok a, w') -> run (mw_db w) = Ok (a, mw_db w').
Proof.
  unfold mstmt. destruct (mw_faults w) as [|[e|] fs]; try done;
    (destruct (run (mw_db w)) as [[b d]|] eqn:E; intros [= <- <-]; done).
Qed.

Lemma mstmt_same (w : MW D) r w' : mstmt (fun d => Ok (tt, d)) w = (r, w') -> mw_db w' = mw_db w.
Proof. unfold mstmt. by destruct (mw_faults w) as [|[e|] fs]; intros [= <- <-]. Qed.

Lemma mtx_Ok {A} (body : M (MW D) error A) w a w' : mtx body w = (Ok a, w') ->
  exists w1 w2, mw_db w1 = mw_db w /\ body w1 = (Ok a, w2) /\ mw_db w' = mw_db w2.
Proof.
  unfold mtx. destruct (mstmt _ w) as [[u|e] w1] eqn:E1; [|done]. destruct (body w1) as [[b|e] w2] eqn:E2; [|done].
  destruct (mstmt _ w2) as [[u'|e] w3] eqn:E3; [|done]. intros [= <- <-]. exists w1, w2.
  apply mstmt_same in E1, E3. done.
Qed.

Lemma mtx_Err {A} (body : M (MW D) error A) w e w' : mtx body w = (Err e, w') -> mw_db w' = mw_db w.
Proof.
  unfold mtx. destruct (mstmt _ w) as [[u|e1] w1] eqn:E1; [|by intros [= _ <-]].
  destruct (body w1) as [[b|e2] w2] eqn:E2; [|by intros [= _ <-]].
  destruct (mstmt _ w2) as [[u'|e3] w3] eqn:E3; [done|by intros [= _ <-]].
Qed.

Lemma in_applied v c t : (v, c) ∈ applied_versions t <-> exists row, t !! v = Some row /\ c = mr_checksum row.
Proof.
  unfold applied_versions. rewrite elem_of_sort_func, list_elem_of_fmap. split.
  - intros ([k row] & [= -> ->] & H%elem_of_map_to_list). eauto.
  - intros (row & H & ->). exists (v, row). split; [done|]. by apply elem_of_map_to_list.
Qed.

Lemma applied_exists v t : existsb (fun a => a.1 =? v) (applied_versions t) = match t !! v with Some _ => true | None => false end.
Proof.
  destruct (t !! v) as [row|] eqn:E.
  - apply existsb_exists. exists (v, mr_checksum row). split; [|cbn; lia]. apply list_elem_of_In, in_applied. eauto.
  - apply not_true_is_false. rewrite existsb_exists. intros ([v' c] & Hin%list_elem_of_In & Hv). cbn in Hv.
    apply Z.eqb_eq in Hv as ->. apply in_applied in Hin as (row & H & _). congruence.
Qed.

Lemma known_table items t : forallb (known_version items) (applied_versions t) = true <-> table_known items t.
Proof.
  rewrite forallb_forall. unfold table_known, known_version. split.
  - intros H v row Hv. specialize (H (v, mr_checksum row)). cbn in H. rewrite <- list_elem_of_In, in_applied in H.
    specialize (H (ex_intro _ row (conj Hv eq_refl))). apply andb_prop in H as [Hr Hc]. to_prop. split; [lia|].
    destruct (items !! Z.to_nat (v - 1)) as [m|]; [|done]. apply String.eqb_eq in Hc. eauto.
  - intros H [v c] Hin%list_elem_of_In. apply in_applied in Hin as (row & Hv & ->). destruct (H v row Hv) as (H1 & m & Hm & Hc).
    cbn. rewrite Hm, Hc, String.eqb_refl, andb_true_r. apply negb_true_iff, orb_false_iff.
    rewrite !Z.ltb_ge. apply lookup_lt_Some in Hm. lia.
Qed.

(** The loop over the items. *)
Lemma apply_items_Ok clock t0 items : forall w w', mfor (apply_item clock (applied_versions t0)) items w = (Ok tt, w') ->
  forall t, md_table (mw_db w) = Some t ->
  md_table (mw_db w') = Some (add_rows clock (pending t0 items) t) /\
  run_scripts (pending t0 items) (md_data (mw_db w)) = Ok (md_data (mw_db w')).
Proof.
  induction items as [|m items IH]; intros w w' H t Ht; [by injection H as <-|].
  cbn [mfor] in H. apply mthen_ok in H as ([] & w1 & H1 & H). unfold apply_item in H1. rewrite applied_exists in H1.
  cbn [pending List.filter]. destruct (t0 !! mg_Version m) as [row|].
  - injection H1 as <-. by apply IH.
  - apply mthen_ok in H1 as ([] & w2 & H2 & H3). apply mstmt_Ok in H2, H3. unfold execute_sql, rbind in H2.
    destruct (exec_script (mg_SQL m) (md_data (mw_db w))) as [data|] eqn:Ed; [|done]. injection H2 as H2.
    unfold insert_version in H3. rewrite <- H2 in H3. cbn [md_table] in H3. rewrite Ht in H3.
    destruct (t !! mg_Version m); [done|]. injection H3 as H3. cbn [run_scripts rbind add_rows fold_left]. rewrite Ed. cbn [rbind].
    specialize (IH w1 w' H). rewrite <- H3 in IH. cbn [md_table md_data] in IH. by apply IH.
Qed.

Lemma lookup_add_rows clock ms t v : NoDup (map mg_Version ms) ->
  add_rows clock ms t !! v = match List.find (fun m => mg_Version m =? v) ms with Some m => Some (row_for clock m) | None => t !! v end.
Proof.
  revert t. induction ms as [|m ms IH]; intros t Hnd; [done|]. cbn in Hnd. apply list.NoDup_cons in Hnd as [Hm Hnd].
  cbn [List.find]. change (add_rows clock (m :: ms) t) with (add_rows clock ms (<[mg_Version m := row_for clock m]> t)). rewrite IH by done.
  destruct (Z.eqb_spec (mg_Version m) v) as [<-|Hne]; [|destruct (List.find _ ms); [done|by apply lookup_insert_ne]].
  destruct (List.find _ ms) as [m'|] eqn:E; [|apply lookup_insert_eq]. exfalso. apply Hm.
  apply List.find_some in E as [Hin E]. apply Z.eqb_eq in E. apply list_elem_of_fmap. exists m'. by rewrite list_elem_of_In.
Qed.

Lemma versions_from_NoDup index ms : versions_from index ms -> NoDup (map mg_Version ms).
Proof.
  revert index. induction ms as [|m ms IH]; intros index H; [constructor|]. destruct H as [Hv H]. cbn. apply list.NoDup_cons.
  split; [|by eapply IH]. rewrite list_elem_of_fmap. intros (m' & E & Hm'). pose proof (versions_from_bound _ _ _ H Hm'). lia.
Qed.

Lemma pending_NoDup t ms : NoDup (map mg_Version ms) -> NoDup (map mg_Version (pending t ms)).
Proof.
  unfold pending. induction ms as [|m ms IH]; intros H; [done|]. cbn in H. apply list.NoDup_cons in H as [Hm H].
  cbn. destruct (t !! mg_Version m); [by apply IH|]. cbn. apply list.NoDup_cons. split; [|by apply IH].
  intros Hin. apply Hm. apply list_elem_of_fmap in Hin as (m' & -> & Hin). apply list_elem_of_fmap. exists m'. split; [done|].
  apply list_elem_of_In, List.filter_In in Hin as [Hin _]. by apply list_elem_of_In.
Qed.

Lemma versions_lookup index ms i m : versions_from index ms -> ms !! i = Some m -> mg_Version m = index + Z.of_nat i + 1.
Proof.
  revert index i. induction ms as [|x ms IH]; intros index [|i] H Hi; try done; destruct H as [Hv H]; cbn in Hi.
  - injection Hi as ->. lia.
  - rewrite (IH _ _ H Hi). lia.
Qed.

(** The row of a version after a migration: what was there, or the new one. *)
Lemma migrated_row clock t items v : versions_from 0 items ->
  add_rows clock (pending t items) t !! v =
  match t !! v with
  | Some row => Some row
  | None => if 1 <=? v then row_for clock <$> items !! Z.to_nat (v - 1) else None
  end.
Proof.
  intros Hv. rewrite lookup_add_rows by (by eapply pending_NoDup, versions_from_NoDup).
  destruct (List.find _ (pending t items)) as [m|] eqn:E.
  - apply List.find_some in E as [Hin E]. apply Z.eqb_eq in E. subst v. apply List.filter_In in Hin as [Hin Ht].
    destruct (t !! mg_Version m); [done|]. apply list_elem_of_In, list_elem_of_lookup in Hin as [i Hi].
    pose proof (versions_lookup _ _ _ _ Hv Hi) as E. destruct (Z.leb_spec 1 (mg_Version m)); [|lia].
    replace (Z.to_nat (mg_Version m - 1)) with i by lia. by rewrite Hi.
  - destruct (t !! v) as [row|] eqn:Et; [done|]. destruct (Z.leb_spec 1 v); [|done].
    destruct (items !! Z.to_nat (v - 1)) as [m|] eqn:Hm; [|done]. exfalso.
    pose proof (versions_lookup _ _ _ _ Hv Hm) as E'. 
    assert (In m (pending t items)) as Hin.
    { apply List.filter_In. split; [by apply list_elem_of_In, list_elem_of_lookup_2 with (Z.to_nat (v - 1))|].
      replace (mg_Version m) with v by lia. by rewrite Et. }
    pose proof (List.find_none _ _ E m Hin) as Hf. cbn in Hf. lia.
Qed.

(** Without faults the loop fails only where a script does. *)
Lemma apply_items_total clock t0 data' items : forall w t, mw_faults w = [] -> md_table (mw_db w) = Some t ->
  NoDup (map mg_Version items) -> (forall m, m ∈ items -> t !! mg_Version m = t0 !! mg_Version m) ->
  run_scripts (pending t0 items) (md_data (mw_db w)) = Ok data' ->
  exists w', mfor (apply_item clock (applied_versions t0)) items w = (Ok tt, w') /\ mw_faults w' = [].
Proof.
  induction items as [|m items IH]; intros w t Hf Ht Hnd Hag Hr; [by exists w|].
  cbn [map] in Hnd. apply list.NoDup_cons in Hnd as [Hm Hnd].
  cbn [mfor]. unfold mthen at 1, apply_item at 1. rewrite applied_exists. cbn [pending List.filter] in Hr.
  pose proof (Hag m ltac:(left)) as Em.
  destruct (t0 !! mg_Version m) as [row|] eqn:E0.
  - cbn. apply (IH w t); [done..| |done]. intros m' Hm'. apply Hag. by right.
  - cbn [run_scripts] in Hr. unfold rbind in Hr. destruct (exec_script (mg_SQL m) (md_data (mw_db w))) as [data|] eqn:Ed; [|done].
    unfold mthen, mstmt. rewrite Hf. unfold execute_sql, rbind. rewrite Ed. cbn [mw_faults mw_db tail].
    unfold insert_version. cbn [md_table]. rewrite Ht, Em. cbn [tail].
    eapply IH; [done|done|done| |exact Hr]. intros m' Hm'. cbn. rewrite lookup_insert_ne; [apply Hag; by right|].
    intros E. apply Hm. rewrite E. apply list_elem_of_fmap. eauto.
Qed.

(** The body of the transaction. *)
Lemma migrate_body_Ok clock items w w' : migrate_body clock items w = (Ok tt, w') ->
  let t := table_of (mw_db w) in
  table_known items t /\ md_table (mw_db w') = Some (add_rows clock (pending t items) t) /\
  run_scripts (pending t items) (md_data (mw_db w)) = Ok (md_data (mw_db w')).
Proof.
  intros H t. unfold migrate_body in H. apply mthen_ok in H as ([] & w1 & H1 & H). apply mthen_ok in H as (rows & w2 & H2 & H).
  apply mstmt_Ok in H1. injection H1 as H1. apply mstmt_Ok in H2. unfold select_versions in H2. rewrite <- H1 in H2.
  cbn [md_table] in H2. change (default ∅ (md_table (mw_db w))) with t in *. injection H2 as <- H2.
  destruct (forallb _ _) eqn:Hk; cbn [negb] in H; [|done]. split; [by apply known_table|].
  destruct (apply_items_Ok clock t items w2 w' H t) as [E1 E2]; [by rewrite <- H2|]. split; [exact E1|].
  by rewrite <- H2 in E2.
Qed.

Lemma Migrate_Ok clock items w w' : Migrate clock items w = (Ok tt, w') ->
  let t := table_of (mw_db w) in
  items <> [] /\ numbered 0 items /\ table_known items t /\
  md_table (mw_db w') = Some (add_rows clock (pending t items) t) /\
  run_scripts (pending t items) (md_data (mw_db w)) = Ok (md_data (mw_db w')).
Proof.
  intros H t. unfold Migrate in H. destruct (validateMigrations items) eqn:Hv; [done|].
  apply validateMigrations_numbered in Hv as [Hne Hn]. apply mtx_Ok in H as (w1 & w2 & E1 & H & E2).
  apply migrate_body_Ok in H. rewrite E1 in H. rewrite E2. done.
Qed.

(** *** What a read-only open checks *)

Lemma verify_rows_items items : verify_rows (map (fun m => (mg_Version m, mg_Checksum m)) items) items = true.
Proof.
  induction items as [|m items IH]; [done|]. cbn. by rewrite Z.eqb_refl, String.eqb_refl, IH.
Qed.

(** The rows of a table that has exactly the items. *)
Lemma applied_versions_items items t : versions_from 0 items -> table_known items t ->
  (forall m, m ∈ items -> is_Some (t !! mg_Version m)) ->
  applied_versions t = map (fun m => (mg_Version m, mg_Checksum m)) items.
Proof.
  intros Hv Hk Hall. set (cmp := fun a b : Z * string => cmp_int a.1 b.1).
  assert (CmpLaws cmp) as Hl by (apply (cmp_on_laws fst cmp_int); apply _).
  set (rows := map _ items). change (applied_versions t) with
    (sort_func cmp (map (fun kv => (kv.1, mr_checksum kv.2)) (map_to_list t))).
  assert (forall v c, (v, c) ∈ applied_versions t <-> (v, c) ∈ rows) as Hin.
  { intros v c. rewrite in_applied. unfold rows. rewrite list_elem_of_fmap. split.
    - intros (row & Ht & ->). destruct (Hk v row Ht) as (Hpos & m & Hm & <-). exists m.
      pose proof (versions_lookup _ _ _ _ Hv Hm). split; [f_equal; lia|by eapply list_elem_of_lookup_2].
    - intros (m & [= -> ->] & Hm). destruct (Hall m Hm) as [row Ht]. exists row. split; [done|].
      destruct (Hk _ _ Ht) as (Hpos & m' & Hm' & <-). pose proof (versions_lookup _ _ _ _ Hv Hm').
      f_equal. eapply versions_from_inj; [exact Hv|done|by eapply list_elem_of_lookup_2|lia]. }
  assert (NoDup (map (fun kv : Z * mig_row => (kv.1, mr_checksum kv.2)) (map_to_list t))) as Hnd1.
  { eapply (list.NoDup_fmap_1 fst). rewrite <- list_fmap_compose. apply (NoDup_fst_map_to_list t). }
  assert (NoDup rows) as Hnd2.
  { apply (list.NoDup_fmap_1 fst). unfold rows. rewrite <- list_fmap_compose. by eapply versions_from_NoDup. }
  rewrite (sort_func_unique cmp _ rows).
  - apply sort_func_id; [done| |].
    + intros x y Hx Hy E%cmp_int_eq. unfold rows in Hx, Hy. apply list_elem_of_fmap in Hx as (m & -> & Hm).
      apply list_elem_of_fmap in Hy as (m' & -> & Hm'). cbn in E. by rewrite (versions_from_inj 0 items m m').
    + unfold rows. pose proof (versions_from_sorted _ _ Hv) as Hs. clear -Hs.
      induction Hs as [|m items Hs IH Hf]; constructor; [done|]. by apply Forall_fmap.
  - intros x y Hx Hy E%cmp_int_eq. apply list_elem_of_fmap in Hx as ([k r] & -> & Hx). apply list_elem_of_fmap in Hy as ([k' r'] & -> & Hy).
    cbn in *. subst k'. apply elem_of_map_to_list in Hx, Hy. rewrite Hx in Hy. by injection Hy as ->.
  - apply NoDup_Permutation; [done..|]. intros [v c]. rewrite <- Hin. unfold applied_versions. by rewrite elem_of_sort_func.
Qed.

(** What a migration leaves passes the check of a read-only open. *)
Lemma Migrate_verified clock items w w' : Migrate clock items w = (Ok tt, w') ->
  verifyReadOnlyMigrations (Ok items) (MkMW (mw_db w') []) = (Ok tt, MkMW (mw_db w') []).
Proof.
  intros (_ & Hn & Hk & Ht & _)%Migrate_Ok. pose proof (numbered_versions _ _ Hn) as Hv.
  unfold verifyReadOnlyMigrations, mthen, mstmt, select_versions. cbn [mw_faults mw_db tail]. rewrite Ht.
  set (t := table_of (mw_db w)) in *. rewrite (applied_versions_items items).
  - by rewrite verify_rows_items.
  - done.
  - intros v row. rewrite migrated_row by done. destruct (t !! v) as [r|] eqn:E; [intros [= <-]; by apply (Hk v)|].
    destruct (Z.leb_spec 1 v); [|done]. destruct (items !! Z.to_nat (v - 1)) as [m|] eqn:Em; [|done].
    intros [= <-]. split; [done|]. by exists m.
  - intros m Hm. rewrite migrated_row by done. destruct (t !! mg_Version m); [done|].
    apply list_elem_of_lookup in Hm as [i Hi]. pose proof (versions_lookup _ _ _ _ Hv Hi).
    destruct (Z.leb_spec 1 (mg_Version m)); [|lia]. replace (Z.to_nat (mg_Version m - 1)) with i by lia. by rewrite Hi.
Qed.
End MigrateRun.

(** a migration that succeeds ran, in order and once, exactly the scripts whose
    versions the table did not have, kept the rows it had and added the others, and
    its result passes the check of a read-only open; it refuses a table with an
    unknown version or another checksum; one that fails changes nothing; and
    without faults it fails only for invalid migrations, such a table, or a
    script. *)
Theorem Migrate_exact {D} `{!Scripts D} clock items (w : MW D) :
  let t := table_of (mw_db w) in
  let '(r, w') := Migrate clock items w in
  (forall e, r = Err e -> mw_db w' = mw_db w) /\
  (r = Ok tt -> items <> [] /\ numbered 0 items /\ table_known items t /\
     run_scripts (pending t items) (md_data (mw_db w)) = Ok (md_data (mw_db w')) /\
     (exists t', md_table (mw_db w') = Some t' /\ forall v, t' !! v =
        match t !! v with Some row => Some row | None => if 1 <=? v then row_for clock <$> items !! Z.to_nat (v - 1) else None end) /\
     verifyReadOnlyMigrations (Ok items) (MkMW (mw_db w') []) = (Ok tt, MkMW (mw_db w') [])) /\
  (mw_faults w = [] -> items <> [] -> numbered 0 items -> table_known items t ->
     (exists data, run_scripts (pending t items) (md_data (mw_db w)) = Ok data) -> r = Ok tt).
Proof.
  intros t. destruct (Migrate clock items w) as [r w'] eqn:H. split_and!.
  - intros e ->. unfold Migrate in H. destruct (validateMigrations items); [by injection H as _ <-|]. by apply mtx_Err in H.
  - intros ->. pose proof (Migrate_verified _ _ _ _ H) as Hver. apply Migrate_Ok in H as (Hne & Hn & Hk & Ht & Hr).
    split_and!; [done..| |done]. eexists. split; [exact Ht|]. intros v. apply migrated_row. by apply numbered_versions.
  - intros Hf Hne Hn Hk (data & Hr). revert H. unfold Migrate. rewrite (proj2 (validateMigrations_numbered items)) by done.
    unfold mtx, mstmt at 1. rewrite Hf. unfold migrate_body, mthen. unfold mstmt at 1. cbn [mw_faults mw_db tail create_table].
    unfold mstmt at 1, select_versions. cbn [mw_faults mw_db tail md_table]. change (default ∅ (md_table (mw_db w))) with t.
    rewrite (proj2 (known_table items t) Hk). cbn [negb].
    destruct (apply_items_total clock t data items (MkMW (MkMDB (Some t) (md_data (mw_db w))) []) t) as (w2 & E & Hf2); try done.
    { eapply versions_from_NoDup. by apply numbered_versions. }
    rewrite E. unfold mstmt. rewrite Hf2. by intros [= <- _].
Qed.

Lemma filter_none {A} (f : A -> bool) l : (forall x, In x l -> f x = false) -> List.filter f l = [].
Proof.
  induction l as [|x l IH]; intros H; [done|]. cbn. rewrite (H x) by (by left). apply IH. intros y Hy. apply H. by right.
Qed.

Lemma pending_empty ms : pending ∅ ms = ms.
Proof. unfold pending. induction ms as [|m ms IH]; [done|]. cbn. rewrite lookup_empty. by rewrite IH. Qed.

Lemma run_scripts_app {D} `{!Scripts D} ms1 ms2 (data : D) :
  run_scripts (ms1 ++ ms2) data = rbind (run_scripts ms1 data) (run_scripts ms2).
Proof. revert data. induction ms1 as [|m ms1 IH]; intros data; [done|]. cbn. destruct (exec_script _ data); [apply IH|done]. Qed.

(** A version of a new database after a migration. *)
Lemma new_row clock ms v : versions_from 0 ms ->
  add_rows clock ms ∅ !! v = if 1 <=? v then row_for clock <$> ms !! Z.to_nat (v - 1) else None.
Proof. intros Hv. rewrite <- (pending_empty ms) at 1. by rewrite migrated_row, lookup_empty. Qed.

(** After a prefix the rest is pending. *)
Lemma pending_prefix clock items k : versions_from 0 items -> versions_from 0 (take k items) ->
  pending (add_rows clock (take k items) ∅) items = drop k items.
Proof.
  intros Hv Hv1. set (t1 := add_rows clock (take k items) ∅).
  assert (forall i m, items !! i = Some m -> t1 !! mg_Version m = row_for clock <$> take k items !! i) as Hl.
  { intros i m Hi. unfold t1. rewrite new_row by done. pose proof (versions_lookup _ _ _ _ Hv Hi).
    destruct (Z.leb_spec 1 (mg_Version m)); [|lia]. by replace (Z.to_nat (mg_Version m - 1)) with i by lia. }
  rewrite <- (take_drop k items) at 1. unfold pending. rewrite List.filter_app.
  rewrite (filter_none _ (take k items)); [cbn [app]; apply forallb_filter_id, forallb_forall|].
  - intros m Hm%list_elem_of_In. destruct (list_elem_of_lookup_1 _ _ Hm) as [i Hi]. rewrite lookup_drop in Hi.
    rewrite (Hl _ _ Hi), lookup_take_ge by lia. done.
  - intros m Hm%list_elem_of_In. destruct (list_elem_of_lookup_1 _ _ Hm) as [i Hi].
    by rewrite (Hl i m (proj1 (proj1 (lookup_take_Some _ _ _ _) Hi))), Hi.
Qed.

(** coming to a version in steps is coming to it at once: a new database
    migrated to an earlier version first, and then to the last, has the same data
    and the same versions, names and checksums as one migrated in one go. *)
Theorem Migrate_incremental {D} `{!Scripts D} clock1 clock2 clock items k (w w1 w2 w' : MW D) :
  md_table (mw_db w) = None ->
  Migrate clock1 (take k items) w = (Ok tt, w1) -> Migrate clock2 items w1 = (Ok tt, w2) ->
  Migrate clock items w = (Ok tt, w') ->
  md_data (mw_db w2) = md_data (mw_db w') /\
  forall v, (fun r => (mr_name r, mr_checksum r)) <$> table_of (mw_db w2) !! v =
            (fun r => (mr_name r, mr_checksum r)) <$> table_of (mw_db w') !! v.
Proof.
  intros H0 (Hne1 & Hn1 & _ & Ht1 & Hr1)%Migrate_Ok (_ & Hn & _ & Ht2 & Hr2)%Migrate_Ok (_ & _ & _ & Ht' & Hr')%Migrate_Ok.
  pose proof (numbered_versions _ _ Hn1) as Hv1. pose proof (numbered_versions _ _ Hn) as Hv.
  unfold table_of in *. rewrite H0 in *. cbn [default id] in *. rewrite Ht1 in *. cbn [default id] in *.
  rewrite !pending_empty in *. rewrite pending_prefix in * by done. split.
  - rewrite <- (take_drop k items), run_scripts_app, Hr1 in Hr'. cbn [rbind] in Hr'. congruence.
  - intros v. rewrite Ht2, Ht'. cbn [default id]. rewrite <- (pending_prefix clock1 items k), migrated_row, !new_row by done.
    destruct (1 <=? v); [|done]. destruct (take k items !! Z.to_nat (v - 1)) as [m|] eqn:E; cbn [fmap option_fmap option_map].
    + by apply lookup_take_Some in E as [-> _].
    + by destruct (items !! Z.to_nat (v - 1)).
Qed.

(** ** Migrations, evaluated *)

(** Data that remembers the scripts it has seen. *)
#[local] Instance script_log : Scripts (list string) := {| exec_script sql data := Ok (data ++ [sql]) |}.

Definition ex_files : list DirEntry :=
  [MkDirEntry "002_more.sql" false (Ok "ALTER"%string); MkDirEntry "001_initial.sql" false (Ok "CREATE"%string);
   MkDirEntry "embed.go" false (Ok "package"%string); MkDirEntry "old.sql" true (Ok ""%string)].

Definition ex_migrations : list Migration :=
  [MkMigration 1 "001_initial.sql" "CREATE" (sha256_hex "CREATE"); MkMigration 2 "002_more.sql" "ALTER" (sha256_hex "ALTER")].

Example ex_all : All (Ok ex_files) = Ok ex_migrations.
Proof. by vm_compute. Qed.

Definition ex_clock (at_ : Time) : Z -> Time := fun _ => at_.
Definition ex_new : MW (list string) := MkMW (MkMDB None []) [].

Lemma Migrate_exact_witness :
  fst (Migrate (ex_clock (Unix 1000)) ex_migrations ex_new) = Ok tt /\
  md_data (mw_db (snd (Migrate (ex_clock (Unix 1000)) ex_migrations ex_new))) = ["CREATE"%string; "ALTER"%string].
Proof.
  pose proof (Migrate_exact (ex_clock (Unix 1000)) ex_migrations ex_new) as H.
  destruct (Migrate (ex_clock (Unix 1000)) ex_migrations ex_new) as [r w'] eqn:E. cbv zeta in H.
  destruct H as (_ & Hok & Hr). assert (r = Ok tt) as ->.
  { apply Hr; [done|done| |by intros v row ?|by eexists].
    eapply (proj1 (validateMigrations_numbered ex_migrations)). apply (All_valid (Ok ex_files)). exact ex_all. }
  split; [done|]. destruct (Hok eq_refl) as (_ & _ & _ & Hrun & _).
  change (@Ok error (list string) ["CREATE"%string; "ALTER"%string] = Ok (md_data (mw_db w'))) in Hrun.
  cbn [snd]. by injection Hrun.
Defined.

(** A database that was changed after its migration is refused. *)
Example tampered_refused :
  let w := (Migrate (ex_clock 0) ex_migrations
    (MkMW (MkMDB (Some {[ 1 := MkMigRow "001_initial.sql" (sha256_hex "DROP") 0 ]}) []) [])) in
  w.1 = Err (migration_error None) /\ md_data (mw_db w.2) = [].
Proof. by vm_compute. Qed.

(** The first version a year ago, the second today. *)
Lemma Migrate_incremental_witness :
  let w1 := snd (Migrate (ex_clock (Unix 1000)) (take 1 ex_migrations) ex_new) in
  let w2 := snd (Migrate (ex_clock (Unix 9000)) ex_migrations w1) in
  md_data (mw_db w2) = ["CREATE"%string; "ALTER"%string].
Proof.
  intros w1 w2. destruct (Migrate_incremental (ex_clock (Unix 1000)) (ex_clock (Unix 9000)) (ex_clock 0) ex_migrations 1 ex_new w1 w2
    (snd (Migrate (ex_clock 0) ex_migrations ex_new)) eq_refl) as [E _].
  - by vm_compute.
  - by vm_compute.
  - by vm_compute.
  - etransitivity; [exact E|by vm_compute].
Defined.
