(* ===== verification/Operator.v ===== *)
(** * The operator's questions and maintenance ([app/operator_read.go], [operator_maintenance.go], [cli/types.go])

    What [status], [feeds], [explain], [prune] and [db check] answer from the
    stored state, and the checks of these answers before they are printed.  The
    store and the file system are the operations of a world; all but a confirmed
    pruning open the store read-only. *)

From S2P Require Export StatePrune ConfigReady.

(** ** Answers ([cli/types.go]) *)

Definition ErrInvalidOperatorResult : error := Foreign "invalid operator result".
Definition maxOperatorCount : Z := 100000000.

Inductive ExplainKind : Type := ExplainIP | ExplainRange.

Record ExplainResult : Type := MkExplainResult {
  xr_Canonical : string; xr_Kind : ExplainKind; xr_Desired : bool; xr_Allowlisted : bool; xr_Covered : bool;
  xr_CoveringPrefix : string; xr_Contributors : list string; xr_Owned : bool; xr_OwnershipConflict : bool }.

(** A prefix that is its own canonical text. *)
Definition canonical_text (text : string) : bool :=
  match ParsePrefix text with Some prefix => String.eqb (prefix_String (Masked prefix)) text | None => false end.

Definition explain_canonical (r : ExplainResult) : bool :=
  match xr_Kind r with
  | ExplainIP =>
      match ParseAddr (xr_Canonical r) with
      | Some address => String.eqb (addr_String (Unmap address)) (xr_Canonical r)
      | None => false
      end
  | ExplainRange => canonical_text (xr_Canonical r)
  end.

Definition ExplainResult_Validate (r : ExplainResult) : option error :=
  if negb (explain_canonical r) then Some ErrInvalidOperatorResult
  else if (if xr_Covered r then negb (canonical_text (xr_CoveringPrefix r)) else negb (String.eqb (xr_CoveringPrefix r) ""))
  then Some ErrInvalidOperatorResult
  else if 256 <? Z.of_nat (List.length (xr_Contributors r)) then Some ErrInvalidOperatorResult
  else if negb (forallb ValidFeedName (xr_Contributors r)) then Some ErrInvalidOperatorResult
  else None.

Inductive StatusReason : Type := CliReady | CliSyncPending | CliSyncStale | CliDatabase | CliRuntime.

Record CliFeedStatus : Type := MkCliFeedStatus {
  fst_Name : string; fst_Enabled : bool; fst_LastSuccess : Time; fst_ConsecutiveFailures : Z;
  fst_LastFailure : FailureCategory }.

Definition CliFeedStatus_Validate (f : CliFeedStatus) : option error :=
  if negb (ValidFeedName (fst_Name f)) || (fst_ConsecutiveFailures f <? 0) || (100 <? fst_ConsecutiveFailures f)
  then Some ErrInvalidOperatorResult
  else if negb (String.eqb (fst_LastFailure f) "") && negb (ValidFailureCategory (fst_LastFailure f))
  then Some ErrInvalidOperatorResult
  else if (0 <? fst_ConsecutiveFailures f) && String.eqb (fst_LastFailure f) "" then Some ErrInvalidOperatorResult
  else None.

Record CliStatus : Type := MkCliStatus {
  cst_Ready : bool; cst_Reason : StatusReason; cst_LastSafeSync : Time; cst_ActiveDecisions : Z;
  cst_LastOutcome : Outcome; cst_LastFailure : FailureCategory }.

Definition validStatusOutcome (outcome : Outcome) : bool :=
  one_of outcome [""%string; OutcomeSuccess; OutcomeDegraded; OutcomeFailed; OutcomeCancelled].

Definition CliStatus_Validate (s : CliStatus) : option error :=
  if (cst_ActiveDecisions s <? 0) || (maxOperatorCount <? cst_ActiveDecisions s) || negb (validStatusOutcome (cst_LastOutcome s))
  then Some ErrInvalidOperatorResult
  else if (if cst_Ready s then match cst_Reason s with CliReady => false | _ => true end
           else match cst_Reason s with CliReady => true | _ => false end)
  then Some ErrInvalidOperatorResult
  else if negb (String.eqb (cst_LastFailure s) "") && negb (ValidFailureCategory (cst_LastFailure s))
  then Some ErrInvalidOperatorResult
  else if String.eqb (cst_LastOutcome s) OutcomeSuccess && negb (String.eqb (cst_LastFailure s) "")
  then Some ErrInvalidOperatorResult
  else if String.eqb (cst_LastOutcome s) "" && negb (String.eqb (cst_LastFailure s) "")
  then Some ErrInvalidOperatorResult
  else None.

(** [cli.PruneResult] ([cli/prune.go]) *)
Record CliPruneResult : Type := MkCliPrune { cpr_Counts : PruneResult; cpr_OwnershipConflicts : Z }.

Definition operator_count (count : Z) : bool := negb ((count <? 0) || (maxOperatorCount <? count)).

Definition CliPruneResult_Validate (r : CliPruneResult) : option error :=
  let c := cpr_Counts r in
  if forallb operator_count [pr_SyncRuns c; pr_Operations c; pr_Decisions c; pr_Alerts c; pr_EnforcementObjects c;
                             pr_FeedEntries c; cpr_OwnershipConflicts r]
  then None else Some ErrInvalidOperatorResult.

(** ** The world *)

(** [os_missing]: [os.Stat] says the file does not exist; [os_regular]:
    [os.Lstat] finds a regular file. *)
Class OperatorState (W : Type) : Type := {
  os_missing : string -> W -> bool * W;
  os_regular : string -> W -> bool * W;
  os_OpenReadOnly : DatabaseConfig -> M W error unit;
  os_Open : DatabaseConfig -> M W error unit;
  os_Close : W -> option error * W;
  os_RuntimeTimestamp : RuntimeTimestampKey -> M W error (option Time);
  os_ListSyncRuns : Z -> M W error (list SyncRunRecord);
  os_ListActiveDecisions : M W error (list DecisionRecord);
  os_ListEnforcementObjects : M W error (list EnforcementRecord);
  os_OpenOperations : M W error (list Operation);
  os_ListFeeds : M W error (list FeedRecord);
  os_CountAmbiguousOperations : M W error Z;
  os_PlanPruneHistory : Time -> Duration -> Z -> M W error PruneResult;
  os_PruneHistory : Time -> Duration -> Z -> M W error PruneResult;
  os_SchemaVersion : M W error Z }.

Definition ErrOperatorPrune : error := Foreign "operator prune failed".
Definition ErrOperatorDBCheck : error := Foreign "operator database check failed".
Definition ErrOperatorStatus : error := Foreign "operator status failed".
Definition ErrOperatorFeeds : error := Foreign "operator feed status failed".
Definition ErrOperatorExplain : error := Foreign "operator explanation failed".

(** ** The explanation, from what was read *)

Definition prefixCovers (cover target : Prefix) : bool :=
  IsValid cover && IsValid target && (BitLen (p_addr cover) =? BitLen (p_addr target)) &&
  (p_bits cover <=? p_bits target) && Contains cover (p_addr target).

Definition explainAllowlisted (target : Prefix) (cidrs : list Prefix) : bool := existsb (Overlaps target) cidrs.

Definition decisionPrefix (record : DecisionRecord) : result error Prefix :=
  match ParseValue (dr_Value record) with
  | Err _ => Err ErrOperatorExplain
  | Ok (prefix, kind) =>
      match dr_Scope record, kind with
      | ScopeIP, KindIP | ScopeRange, KindRange => Ok prefix
      | _, _ => Err ErrOperatorExplain
      end
  end.

(** [a.Less(b)] *)
Definition addr_Less (a b : Addr) : bool := addr_compare a b <? 0.

(** The object at [target], and the most specific desired range that covers it. *)
Definition closer_cover (o : EnforcementRecord) (cover : option EnforcementRecord) : option EnforcementRecord :=
  match cover with
  | None => Some o
  | Some c =>
      if (p_bits (er_Prefix c) <? p_bits (er_Prefix o)) ||
         ((p_bits (er_Prefix o) =? p_bits (er_Prefix c)) && addr_Less (p_addr (er_Prefix o)) (p_addr (er_Prefix c)))
      then Some o else cover
  end.

Definition is_covering (target : Prefix) (o : EnforcementRecord) : bool :=
  er_Desired o && bool_decide (er_Scope o = ScopeRange) && prefixCovers (er_Prefix o) target.

Fixpoint find_objects (target : Prefix) (exact cover : option EnforcementRecord) (objects : list EnforcementRecord)
  : option EnforcementRecord * option EnforcementRecord :=
  match objects with
  | [] => (exact, cover)
  | o :: rest =>
      if bool_decide (er_Prefix o = target) then find_objects target (Some o) cover rest
      else if negb (is_covering target o) then find_objects target exact cover rest
      else find_objects target exact (closer_cover o cover) rest
  end.

Fixpoint feed_names (seen : gset string) (sources : list Contributor) : list string :=
  match sources with
  | [] => []
  | c :: rest =>
      if bool_decide (ct_FeedName c ∈ seen) then feed_names seen rest
      else ct_FeedName c :: feed_names ({[ct_FeedName c]} ∪ seen) rest
  end.

(** The loop over the decisions stops at the first that covers the target. *)
Fixpoint owned_by (target : Prefix) (decisions : list DecisionRecord) : result error bool :=
  match decisions with
  | [] => Ok false
  | d :: rest =>
      let? prefix := decisionPrefix d in
      if prefixCovers prefix target then Ok true else owned_by target rest
  end.

Definition object_by_id (objects : list EnforcementRecord) : gmap Z EnforcementRecord :=
  fold_left (fun m o => <[er_ID o := o]> m) objects ∅.

Definition ownership_conflict (target : Prefix) (objects : list EnforcementRecord) (operations : list Operation) : bool :=
  existsb (fun op =>
    bool_decide (op_Status op = OperationAmbiguous) &&
    existsb (fun item =>
      match object_by_id objects !! oi_ObjectID item with
      | Some o => prefixCovers (er_Prefix o) target
      | None => false
      end) (op_Items op)) operations.

Definition explain_target (target : Prefix) (kind : Kind) (cidrs : list Prefix) : ExplainResult :=
  let allowlisted := explainAllowlisted target cidrs in
  match kind with
  | KindIP => MkExplainResult (addr_String (p_addr target)) ExplainIP false allowlisted false "" [] false false
  | _ => MkExplainResult (prefix_String target) ExplainRange false allowlisted false "" [] false false
  end.

Definition explain_stored (target : Prefix) (kind : Kind) (cidrs : list Prefix) (objects : list EnforcementRecord)
    (decisions : list DecisionRecord) (operations : list Operation) : result error ExplainResult :=
  let base := explain_target target kind cidrs in
  let '(exact, cover) := find_objects target None None objects in
  let desired := match exact with Some o => er_Desired o | None => false end in
  let allowlisted := xr_Allowlisted base ||
    match exact with Some o => String.eqb (er_Suppression o) (suppression_text SuppressedAllowlist) | None => false end in
  let? _ := match cover, exact with
            | None, Some o =>
                if String.eqb (er_Suppression o) (suppression_text SuppressedCovered)
                then Err ErrOperatorExplain else Ok tt
            | _, _ => Ok tt
            end in
  let covering := match cover with Some o => prefix_String (er_Prefix o) | None => ""%string end in
  let source := match exact with Some o => Some o | None => cover end in
  let contributors := match source with Some o => sort_func cmp_string (feed_names ∅ (er_Sources o)) | None => [] end in
  let? owned := owned_by target decisions in
  let r := MkExplainResult (xr_Canonical base) (xr_Kind base) desired allowlisted
             (match cover with Some _ => true | None => false end) covering contributors owned
             (ownership_conflict target objects operations) in
  match ExplainResult_Validate r with None => Ok r | Some _ => Err ErrOperatorExplain end.

(** ** The commands *)

Definition databaseUnavailableStatus : CliStatus := MkCliStatus false CliDatabase 0 0 "" "".

Definition syncOutcome (status : RunStatus) : Outcome :=
  if String.eqb status RunStatusSuccess then OutcomeSuccess
  else if String.eqb status RunStatusDegraded then OutcomeDegraded
  else if String.eqb status RunStatusFailed then OutcomeFailed
  else if String.eqb status RunStatusCancelled then OutcomeCancelled
  else "".

Definition download_categories : list string :=
  map category_text [feed.ErrRequest; feed.ErrSSRF; feed.ErrRedirect; feed.ErrHTTPStatus; feed.ErrBodySize;
    feed.ErrContentType; feed.ErrHTML; feed.ErrResponseHeader].
Definition validation_categories : list string :=
  map category_text [feed.ErrFormat; feed.ErrPolicy; feed.ErrEmpty; feed.ErrLineTooLong; feed.ErrTruncated;
    feed.ErrMetadata; feed.ErrMalformedThreshold; feed.ErrEntryCount; feed.ErrSuspiciousChange].

Definition operatorFeedFailure (category : string) : option FailureCategory :=
  if one_of category download_categories then Some FailureFeedDownload
  else if one_of category validation_categories then Some FailureFeedValidation
  else None.

Definition configuredFeedStatus (cfg : Config) : list CliFeedStatus :=
  map (fun f => MkCliFeedStatus (fc_Name f) (fc_Enabled f) 0 0 "") (cf_Feeds cfg).

Definition records_by_name (records : list FeedRecord) : gmap string FeedRecord :=
  fold_left (fun m r => <[rec_Name r := r]> m) records ∅.

(** One turn of the loop over the configured feeds. *)
Definition merge_feed (byName : gmap string FeedRecord) (f : CliFeedStatus) : result error CliFeedStatus :=
  match byName !! fst_Name f with
  | None => Ok f
  | Some record =>
      let success := match rec_LastSuccess record with Some t => t | None => fst_LastSuccess f end in
      let failures := if 100 <? rec_ConsecutiveFailures record then 100 else rec_ConsecutiveFailures record in
      if 0 <? rec_ConsecutiveFailures record then
        match operatorFeedFailure (rec_LastErrorCategory record) with
        | Some failure => Ok (MkCliFeedStatus (fst_Name f) (fst_Enabled f) success failures failure)
        | None => Err ErrOperatorFeeds
        end
      else Ok (MkCliFeedStatus (fst_Name f) (fst_Enabled f) success failures (fst_LastFailure f))
  end.

Fixpoint merge_feeds (byName : gmap string FeedRecord) (fs : list CliFeedStatus) : result error (list CliFeedStatus) :=
  match fs with
  | [] => Ok []
  | f :: rest => let? f := merge_feed byName f in let? rest := merge_feeds byName rest in Ok (f :: rest)
  end.

(** The status, from what was read. *)
Definition status_answer (cfg : Config) (now : Time) (lastSafe : option Time) (runs : list SyncRunRecord)
    (active : list DecisionRecord) : CliStatus :=
  let n := Z.of_nat (List.length active) in
  let '(outcome, failure) := match runs with
                             | [run] => (syncOutcome (srr_Status run), srr_Failure run)
                             | _ => (""%string, ""%string)
                             end in
  match lastSafe with
  | None => MkCliStatus false CliSyncPending 0 n outcome failure
  | Some at_ =>
      if sv_ReadinessMaxSyncAge (cf_Server cfg) <? time_Sub now at_
      then MkCliStatus false CliSyncStale at_ n outcome failure
      else MkCliStatus true CliReady at_ n outcome failure
  end.

Section Commands.
Context {W : Type} `{!OperatorState W} {lib : TextLibrary}.

(** A configuration that validates, in its canonical form. *)
Definition valid_config (cfg : Config) (e : error) : M W error Config :=
  match Config_Validate cfg with Ok cfg => mok cfg | Err _ => mfail e end.

Definition close_error : M W error (option error) := fun w => let '(e, w) := os_Close w in (Ok e, w).

Definition asks (f : W -> bool * W) : M W error bool := fun w => let '(b, w) := f w in (Ok b, w).

(** [now] is the time of the clock. *)
Definition statusCLIWithOptions (cfg : Config) (now : Time) : M W error CliStatus :=
  if time_IsZero now then mfail ErrOperatorStatus
  else
    let! cfg := valid_config cfg ErrOperatorStatus in
    let~ opened := os_OpenReadOnly (cf_Database cfg) in
    match opened with
    | Err _ => mok databaseUnavailableStatus
    | Ok _ =>
        let~ safe := os_RuntimeTimestamp RuntimeLastSafeSync in
        let~ runs := os_ListSyncRuns 1 in
        let~ active := os_ListActiveDecisions in
        let! closeErr := close_error in
        match safe, runs, active, closeErr with
        | Ok lastSafe, Ok runs, Ok active, None =>
            mok (status_answer cfg now lastSafe runs active)
        | _, _, _, _ => mok databaseUnavailableStatus
        end
    end.

Definition ListFeedsCLI (cfg : Config) : M W error (list CliFeedStatus) :=
  let! cfg := valid_config cfg ErrOperatorFeeds in
  let result := configuredFeedStatus cfg in
  let~ opened := os_OpenReadOnly (cf_Database cfg) in
  match opened with
  | Err _ =>
      let! missing := asks (os_missing (dbc_Path (cf_Database cfg))) in
      if missing then mok result else mfail ErrOperatorFeeds
  | Ok _ =>
      let~ records := os_ListFeeds in
      let! closeErr := close_error in
      match records, closeErr with
      | Ok records, None =>
          match merge_feeds (records_by_name records) result with Ok r => mok r | Err e => mfail e end
      | _, _ => mfail ErrOperatorFeeds
      end
  end.

Definition ExplainCLI (cfg : Config) (input : string) : M W error ExplainResult :=
  match ParseValue input with
  | Err _ => mfail ErrOperatorExplain
  | Ok (target, kind) =>
      let! cfg := valid_config cfg ErrOperatorExplain in
      let cidrs := al_CIDRs (cf_Allowlists cfg) in
      let~ opened := os_OpenReadOnly (cf_Database cfg) in
      match opened with
      | Err _ =>
          let! missing := asks (os_missing (dbc_Path (cf_Database cfg))) in
          if missing then mok (explain_target target kind cidrs) else mfail ErrOperatorExplain
      | Ok _ =>
          let~ objects := os_ListEnforcementObjects in
          let~ decisions := os_ListActiveDecisions in
          let~ operations := os_OpenOperations in
          let! closeErr := close_error in
          match objects, decisions, operations, closeErr with
          | Ok objects, Ok decisions, Ok operations, None =>
              match explain_stored target kind cidrs objects decisions operations with
              | Ok r => mok r
              | Err e => mfail e
              end
          | _, _, _, _ => mfail ErrOperatorExplain
          end
      end
  end.

(** [conflicts], what [prune] found, and the result of closing. *)
Definition prune_answer (counts : result error PruneResult) (conflicts : Z) (closeErr : option error)
  : M W error CliPruneResult :=
  match counts, closeErr with
  | Ok counts, None =>
      let r := MkCliPrune counts conflicts in
      match CliPruneResult_Validate r with None => mok r | Some _ => mfail ErrOperatorPrune end
  | _, _ => mfail ErrOperatorPrune
  end.

Definition prune_confirmed (d : DatabaseConfig) (now : Time) : M W error CliPruneResult :=
  let! regular := asks (os_regular (dbc_Path d)) in
  if negb regular then mfail ErrOperatorPrune
  else
    let~ opened := os_Open d in
    match opened with
    | Err _ => mfail ErrOperatorPrune
    | Ok _ =>
        let~ conflicts := os_CountAmbiguousOperations in
        match conflicts with
        | Err _ => let! _ := close_error in mfail ErrOperatorPrune
        | Ok conflicts =>
            let~ counts := if 0 <? conflicts then os_PlanPruneHistory now (dbc_HistoryRetention d) (dbc_MaxHistoryEntries d)
                           else os_PruneHistory now (dbc_HistoryRetention d) (dbc_MaxHistoryEntries d) in
            let! closeErr := close_error in
            prune_answer counts (if 0 <? conflicts then conflicts else 0) closeErr
        end
    end.

Definition prune_planned (d : DatabaseConfig) (now : Time) : M W error CliPruneResult :=
  let~ opened := os_OpenReadOnly d in
  match opened with
  | Err _ => mfail ErrOperatorPrune
  | Ok _ =>
      let~ conflicts := os_CountAmbiguousOperations in
      let~ planned := os_PlanPruneHistory now (dbc_HistoryRetention d) (dbc_MaxHistoryEntries d) in
      let! closeErr := close_error in
      match conflicts with
      | Ok conflicts => prune_answer planned conflicts closeErr
      | Err _ => mfail ErrOperatorPrune
      end
  end.

Definition pruneCLIWithOptions (cfg : Config) (confirmed : bool) (now : Time) : M W error CliPruneResult :=
  let! cfg := valid_config cfg ErrOperatorPrune in
  if time_IsZero now || (unix now <? 0) then mfail ErrOperatorPrune
  else if confirmed then prune_confirmed (cf_Database cfg) now else prune_planned (cf_Database cfg) now.

Definition DBCheckCLI (cfg : Config) : M W error unit :=
  let! cfg := valid_config cfg ErrOperatorDBCheck in
  let d := cf_Database cfg in
  let~ opened := os_OpenReadOnly (MkDatabaseConfig (dbc_Path d) (dbc_BusyTimeout d) true (dbc_HistoryRetention d)
                                    (dbc_MaxHistoryEntries d)) in
  match opened with
  | Err _ => mfail ErrOperatorDBCheck
  | Ok _ =>
      let~ version := os_SchemaVersion in
      let! closeErr := close_error in
      match version, closeErr with
      | Ok version, None => if version <? 1 then mfail ErrOperatorDBCheck else mok tt
      | _, _ => mfail ErrOperatorDBCheck
      end
  end.
End Commands.
