(* ===== verification/OperatorRun.v ===== *)
(** * What the operator's answers mean

    The explanation of an address or a range against the stored rows, the
    agreement of the explanation with the plan that was stored, the status, and
    what the commands may change. *)

From S2P Require Export Operator StatePlan NetIPText.

(** ** A prefix that covers another *)

(** Every address of [p] is one of [q]. *)
Definition subnet (p q : Prefix) : Prop :=
  forall a, addr_wf a -> a <> AddrZero -> Contains p a = true -> Contains q a = true.

Lemma lxor_bit_high v k n : 0 <= k < n -> Z.shiftr (Z.lxor v (2 ^ k)) n = Z.shiftr v n.
Proof.
  intros H. rewrite Z.shiftr_lxor, <- Z.shiftl_1_l, (Z.shiftr_eq_0 (Z.shiftl 1 k)); [by rewrite Z.lxor_0_r| |].
  - apply Z.shiftl_nonneg. lia.
  - rewrite Z.shiftl_1_l, Z.log2_pow2; lia.
Qed.

Lemma lxor_bit_low v k n : 0 <= n <= k -> Z.shiftr (Z.lxor v (2 ^ k)) n <> Z.shiftr v n.
Proof.
  intros H E. apply (f_equal (fun z => Z.testbit z (k - n))) in E.
  rewrite !Z.shiftr_spec, Z.lxor_spec, Z.pow2_bits_eqb in E by lia.
  replace (k - n + n) with k in E by lia. rewrite Z.eqb_refl in E. by destruct (Z.testbit v k).
Qed.

Lemma lxor_bit_range v k w : 0 <= k < w -> 0 <= v < 2 ^ w -> 0 <= Z.lxor v (2 ^ k) < 2 ^ w.
Proof.
  intros Hk Hv. apply lxor_bound; [lia|done|]. split; [lia|]. apply Z.pow_lt_mono_r; lia.
Qed.

Lemma prefixCovers_true c t : prefix_wf c -> prefix_wf t ->
  prefixCovers c t = true <-> BitLen (p_addr c) = BitLen (p_addr t) /\ p_bits c <= p_bits t /\ Contains c (p_addr t) = true.
Proof.
  intros (_ & _ & _ & Hc) (_ & _ & _ & Ht). unfold prefixCovers, IsValid.
  rewrite !andb_true_iff, !Z.leb_le, Z.eqb_eq. naive_solver lia.
Qed.

(** The check of the code is the inclusion of the addresses. *)
Lemma prefixCovers_subnet c t : prefix_wf c -> prefix_wf t -> prefixCovers c t = true <-> subnet t c.
Proof.
  intros Hc Ht. rewrite prefixCovers_true by done.
  pose proof Hc as (Hcw & Hcz & Hczone & Hcb). pose proof Ht as (Htw & Htz & Htzone & Htb). split.
  - intros (HL & Hb & Hin) a Ha Haz. rewrite !Contains_spec in * by done.
    intros (Hzone & HA & Hn). destruct Hin as (_ & _ & Hin). split_and!; [done|congruence|].
    rewrite <- Hin. unfold net in *. rewrite <- (net_coarser (p_bits c) (p_bits t) (addr_value a)) by lia.
    rewrite <- (net_coarser (p_bits c) (p_bits t) (addr_value (p_addr t))) by lia. by rewrite Hn.
  - intros Hs. pose proof (Hs (p_addr t) Htw Htz (Contains_self _ Ht)) as Hin.
    pose proof Hin as (_ & HL & Hn)%Contains_spec; [|done..]. split_and!; [done| |done].
    apply Z.nlt_ge. intros Hlt. set (w := BitLen (p_addr t)) in *. set (k := w - p_bits t - 1).
    set (a := with_value (p_addr t) (Z.lxor (addr_value (p_addr t)) (2 ^ k))).
    assert (BitLen a = w) as Ea by apply BitLen_with_value.
    assert (addr_value a = Z.lxor (addr_value (p_addr t)) (2 ^ k)) as Ev by (unfold a; by destruct (p_addr t)).
    assert (Zone a = ""%string /\ a <> AddrZero) as [Ez Hz] by (unfold a; by destruct (p_addr t)).
    assert (addr_wf a) as Ha by (unfold addr_wf; rewrite Ea, Ev; apply lxor_bit_range; [lia|exact Htw]).
    assert (Contains t a = true) as Hta.
    { apply Contains_spec; [done..|]. split_and!; [done..|]. unfold net. rewrite Ea, Ev. apply lxor_bit_high. lia. }
    apply Hs in Hta; [|done..]. apply Contains_spec in Hta as (_ & _ & H2); [|done..]. rewrite <- Hn in H2.
    revert H2. unfold net. rewrite Ea, Ev. fold w. apply lxor_bit_low. lia.
Qed.

(** Prefixes of the same length that contain the same address are the same. *)
Lemma same_range_unique p q a : canonical p -> canonical q -> p_bits p = p_bits q -> addr_wf a -> a <> AddrZero ->
  Contains p a = true -> Contains q a = true -> p = q.
Proof.
  intros [Hp Hpm _] [Hq Hqm _] Hb Ha Haz H1 H2.
  apply Contains_spec in H1 as (_ & L1 & N1); [|done..]. apply Contains_spec in H2 as (_ & L2 & N2); [|done..].
  rewrite <- Hpm, <- Hqm, !Masked_eq by done.
  destruct Hp as (_ & _ & Zp & _), Hq as (_ & _ & Zq & _).
  f_equal; [|done]. rewrite <- N1, <- N2, <- L1, <- L2, Hb.
  destruct (p_addr p), (p_addr q); cbn in *; congruence.
Qed.

(** ** The objects at and above a target *)

(** What the listing of the stored objects promises. *)
Record stored_ok (objects : list EnforcementRecord) : Prop := {
  so_canonical : forall o, o ∈ objects -> canonical (er_Prefix o);
  so_prefixes : forall o o', o ∈ objects -> o' ∈ objects -> er_Prefix o = er_Prefix o' -> o = o';
  so_ids : forall o o', o ∈ objects -> o' ∈ objects -> er_ID o = er_ID o' -> o = o' }.

(** A desired range, other than the target, that has all its addresses. *)
Definition cover_of (objects : list EnforcementRecord) (target : Prefix) (o : EnforcementRecord) : Prop :=
  o ∈ objects /\ er_Desired o = true /\ er_Scope o = ScopeRange /\ er_Prefix o <> target /\ subnet target (er_Prefix o).

Definition object_at (objects : list EnforcementRecord) (target : Prefix) (o : EnforcementRecord) : Prop :=
  o ∈ objects /\ er_Prefix o = target.

(** The last of the initial and the listed objects at the target, and the best
    of the initial and the listed covers. *)
Lemma find_objects_spec target objects : forall exact cover,
  let '(e, c) := find_objects target exact cover objects in
  (forall o, e = Some o -> exact = Some o \/ object_at objects target o) /\
  (e = None -> exact = None /\ forall o, ~ object_at objects target o) /\
  (forall o, c = Some o -> cover = Some o \/ (o ∈ objects /\ er_Prefix o <> target /\ is_covering target o = true)) /\
  (forall o, cover = Some o \/ (o ∈ objects /\ er_Prefix o <> target /\ is_covering target o = true) ->
     exists o', c = Some o' /\ p_bits (er_Prefix o) <= p_bits (er_Prefix o')).
Proof.
  unfold object_at. induction objects as [|o rest IH]; intros exact cover; cbn [find_objects].
  { split_and!; [by left|..]; intros; split_and?; try done; [set_solver|by left|]. set_unfold. naive_solver. }
  case_bool_decide as Hp; [|destruct (is_covering target o) eqn:Hc; cbn [negb]].
  - specialize (IH (Some o) cover). destruct (find_objects target (Some o) cover rest) as [e c].
    destruct IH as (H1 & H2 & H3 & H4). split_and!.
    + intros x [[= <-]|[Hx Ex]]%H1; right; [split; [by apply list_elem_of_here|done]|].
      split; [by apply list_elem_of_further|done].
    + by intros [? _]%H2.
    + intros x [?|(Hx & ?)]%H3; [by left|right]. split; [by apply list_elem_of_further|done].
    + intros x [Hx|(Hx & Hne & Hcx)]; [by apply H4; left|]. apply elem_of_cons in Hx as [->|Hx]; [done|].
      apply H4. by right.
  - specialize (IH exact (closer_cover o cover)). destruct (find_objects target exact _ rest) as [e c].
    destruct IH as (H1 & H2 & H3 & H4).
    assert (closer_cover o cover = Some o \/ closer_cover o cover = cover /\ is_Some cover) as Hcl.
    { unfold closer_cover. destruct cover as [x|]; [|by left]. case_match; [by left|right; eauto]. }
    split_and!.
    + intros x [?|[Hx Ex]]%H1; [by left|right]. split; [by apply list_elem_of_further|done].
    + intros [He Hn]%H2. split; [done|]. intros x [[->|Hx]%elem_of_cons Ex]; [done|]. by apply (Hn x).
    + intros x [Hx|(Hx & ?)]%H3; [|right; split; [by apply list_elem_of_further|done]].
      destruct Hcl as [E|[E _]]; rewrite E in Hx; [|by left]. injection Hx as <-. right.
      split; [by apply list_elem_of_here|done].
    + assert (forall x, cover = Some x \/ x = o -> exists x', closer_cover o cover = Some x' /\
                p_bits (er_Prefix x) <= p_bits (er_Prefix x')) as Hb.
      { intros x Hx. unfold closer_cover. destruct cover as [y|]; [|exists o; naive_solver lia].
        destruct (_ || _) eqn:E; [exists o|exists y]; (split; [done|]).
        - apply orb_prop in E as [E%Z.ltb_lt|(E%Z.eqb_eq & _)%andb_prop]; naive_solver lia.
        - apply orb_false_elim in E as [E%Z.ltb_ge _]. naive_solver lia. }
      intros x Hx. assert ((cover = Some x \/ x = o) \/ (x ∈ rest /\ er_Prefix x <> target /\ is_covering target x = true)) as [Hx'|Hx'].
      { destruct Hx as [?|([->|?]%elem_of_cons & ? & ?)]; naive_solver. }
      * destruct (Hb x Hx') as (x' & E & Hle). destruct (H4 x') as (x'' & E' & Hle'); [by left|].
        exists x''. split; [done|lia].
      * apply H4. by right.
  - specialize (IH exact cover). destruct (find_objects target exact cover rest) as [e c].
    destruct IH as (H1 & H2 & H3 & H4). split_and!.
    + intros x [?|[Hx Ex]]%H1; [by left|right]. split; [by apply list_elem_of_further|done].
    + intros [He Hn]%H2. split; [done|]. intros x [[->|Hx]%elem_of_cons Ex]; [done|]. by apply (Hn x).
    + intros x [?|(Hx & ?)]%H3; [by left|right]. split; [by apply list_elem_of_further|done].
    + intros x [Hx|([->|Hx]%elem_of_cons & Hne & Hcx)]; [by apply H4; left|congruence|]. apply H4. by right.
Qed.

(** ** Owners, conflicts and contributors *)

Lemma is_covering_true objects target o : canonical target -> stored_ok objects -> o ∈ objects ->
  is_covering target o = true <-> er_Desired o = true /\ er_Scope o = ScopeRange /\ subnet target (er_Prefix o).
Proof.
  intros Ht Hs Ho. unfold is_covering. rewrite !andb_true_iff, bool_decide_eq_true, prefixCovers_subnet; [tauto| |apply Ht].
  by apply (so_canonical _ Hs).
Qed.

Lemma decisionPrefix_wf d p : decisionPrefix d = Ok p -> prefix_wf p.
Proof.
  unfold decisionPrefix. destruct (ParseValue (dr_Value d)) as [[q k]|] eqn:E; [|done].
  apply ParseValue_canonical in E as [[Hq _ _] _]. intros H. destruct (dr_Scope d), k; congruence.
Qed.

Definition owned_spec (target : Prefix) (decisions : list DecisionRecord) : Prop :=
  exists d p, d ∈ decisions /\ decisionPrefix d = Ok p /\ subnet target p.

Lemma owned_by_spec target : prefix_wf target -> forall decisions,
  match owned_by target decisions with
  | Ok b => b = true <-> owned_spec target decisions
  | Err e => e = ErrOperatorExplain /\ exists d, d ∈ decisions /\ decisionPrefix d = Err ErrOperatorExplain
  end.
Proof.
  intros Ht. unfold owned_spec. induction decisions as [|d rest IH]; cbn [owned_by]; [set_solver|].
  destruct (decisionPrefix d) as [p|e] eqn:Ed; cbn [rbind].
  - pose proof (decisionPrefix_wf _ _ Ed) as Hp. destruct (prefixCovers p target) eqn:Ec.
    + split; [|done]. intros _. exists d, p. split_and!; [apply list_elem_of_here|done|]. by apply prefixCovers_subnet.
    + destruct (owned_by target rest) as [b|e];
        [|destruct IH as (-> & x & Hx & ?); split; [done|]; exists x; split; [by apply list_elem_of_further|done]]. rewrite IH.
      apply not_true_iff_false in Ec. rewrite prefixCovers_subnet in Ec by done. split.
      * intros (x & q & Hx & ?). exists x, q. split; [by apply list_elem_of_further|done].
      * intros (x & q & [->|Hx]%elem_of_cons & Eq & Hsub); [congruence|]. by exists x, q.
  - assert (e = ErrOperatorExplain) as -> by (revert Ed; unfold decisionPrefix; destruct (ParseValue _) as [[? []]|], (dr_Scope d); congruence).
    split; [done|]. exists d. split; [apply list_elem_of_here|done].
Qed.

Lemma object_by_id_spec objects : stored_ok objects -> forall id o,
  object_by_id objects !! id = Some o <-> o ∈ objects /\ er_ID o = id.
Proof.
  intros [_ _ Hu] id o. unfold object_by_id.
  assert (forall l (m : gmap Z EnforcementRecord), (forall o, o ∈ l -> o ∈ objects) ->
    (forall id o, m !! id = Some o -> o ∈ objects /\ er_ID o = id) ->
    forall id o, fold_left (fun m o => <[er_ID o := o]> m) l m !! id = Some o <->
      (m !! id = Some o /\ o ∈ objects) \/ (o ∈ l /\ er_ID o = id)) as H.
  { induction l as [|x l IH]; intros m Hl Hm i y; cbn [fold_left]; [set_unfold; naive_solver|]. rewrite IH.
    - rewrite lookup_insert_Some, elem_of_cons. split.
      + intros [[[[<- <-]|[_ ?]] ?]|[? ?]]; [by right; split; [left|]|by left|by right; split; [right|]].
      + intros [[Hy ?]|[[->|?] <-]];
          [|by left; split; [left|apply Hl, list_elem_of_here]|by right]. destruct (decide (er_ID x = i)) as [E|?]; [|by left; split; [right|]].
        destruct (Hm _ _ Hy) as [? Ey]. assert (x = y) as -> by (apply Hu; [apply Hl, list_elem_of_here|done|congruence]).
        by left; split; [left|].
    - intros. apply Hl. by apply list_elem_of_further.
    - intros j z [[<- <-]|[_ ?]]%lookup_insert_Some; [|by apply Hm]. split; [apply Hl, list_elem_of_here|done]. }
  rewrite H; [|done|done]. split; [intros [[Hf _]|?]; [done|done]|by right].
Qed.

Definition conflict_spec (target : Prefix) (objects : list EnforcementRecord) (operations : list Operation) : Prop :=
  exists op item o, op ∈ operations /\ op_Status op = OperationAmbiguous /\ item ∈ op_Items op /\
    o ∈ objects /\ er_ID o = oi_ObjectID item /\ subnet target (er_Prefix o).

Lemma ownership_conflict_spec target objects operations : prefix_wf target -> stored_ok objects ->
  ownership_conflict target objects operations = true <-> conflict_spec target objects operations.
Proof.
  intros Ht Hs. unfold ownership_conflict, conflict_spec. rewrite existsb_exists. setoid_rewrite andb_true_iff.
  setoid_rewrite existsb_exists. setoid_rewrite bool_decide_eq_true. setoid_rewrite <- list_elem_of_In. split.
  - intros (op & Ho & Hst & item & Hi & Hc). destruct (object_by_id objects !! oi_ObjectID item) as [o|] eqn:E; [|done].
    apply object_by_id_spec in E as [Hin E]; [|done]. exists op, item, o. split_and!; try done.
    by apply prefixCovers_subnet in Hc; [|apply (so_canonical _ Hs)|].
  - intros (op & item & o & Ho & Hst & Hi & Hin & E & Hc). exists op. split; [done|]. split; [done|]. exists item. split; [done|].
    rewrite (proj2 (object_by_id_spec _ Hs _ o)) by done. by apply prefixCovers_subnet; [apply (so_canonical _ Hs)|..].
Qed.

Lemma feed_names_spec sources : forall seen,
  NoDup (feed_names seen sources) /\
  (forall n, n ∈ feed_names seen sources <-> (n ∉ seen) /\ (exists c, c ∈ sources /\ ct_FeedName c = n)) /\
  (List.length (feed_names seen sources) <= List.length sources)%nat.
Proof.
  induction sources as [|c rest IH]; intros seen; cbn [feed_names].
  { split_and!; [constructor|set_solver|done]. }
  case_bool_decide as Hc.
  - destruct (IH seen) as (H1 & H2 & H3). split_and!; [done| |cbn; lia]. intros n. rewrite H2. set_unfold. naive_solver.
  - destruct (IH ({[ct_FeedName c]} ∪ seen)) as (H1 & H2 & H3). split_and!; [|..|cbn; lia].
    + constructor; [|done]. rewrite H2. set_solver.
    + intros n. rewrite elem_of_cons, H2. destruct (decide (n = ct_FeedName c)) as [->|]; set_unfold; naive_solver.
Qed.

(** The feeds of an object, each once, in order. *)
Definition feeds_listed (sources : list Contributor) (names : list string) : Prop :=
  NoDup names /\ StronglySorted (cmp_le cmp_string) names /\
  forall n, n ∈ names <-> exists c, c ∈ sources /\ ct_FeedName c = n.

Lemma feed_names_listed sources : feeds_listed sources (sort_func cmp_string (feed_names ∅ sources)).
Proof.
  destruct (feed_names_spec sources ∅) as (H1 & H2 & _). unfold feeds_listed. split_and!.
  - by rewrite (sort_func_perm cmp_string).
  - apply (sort_func_sorted cmp_string).
  - intros n. rewrite (elem_of_sort_func cmp_string), H2. set_solver.
Qed.

(** ** The explanation *)

Lemma canonical_text_prefix p : canonical p -> canonical_text (prefix_String p) = true.
Proof.
  intros [Hw Hm Hf]. unfold canonical_text. rewrite ParsePrefix_String, Hm by done. by apply String.eqb_eq.
Qed.

Lemma canonical_text_nonempty p : canonical p -> String.eqb (prefix_String p) "" = false.
Proof.
  intros Hp. apply String.eqb_neq. intros E. pose proof (canonical_round_trip p Hp) as H. by rewrite E in H.
Qed.

Lemma explain_target_canonical target kind cidrs input : ParseValue input = Ok (target, kind) ->
  explain_canonical (explain_target target kind cidrs) = true.
Proof.
  intros H. pose proof (ParseValue_canonical _ _ _ H) as [[Hw Hm Hf] _]. pose proof Hw as (Ha & Hz & Hzone & _).
  unfold explain_target, explain_canonical. destruct kind; cbn; [by apply canonical_text_prefix| |by apply canonical_text_prefix].
  rewrite ParseAddr_String by done. unfold Unmap. rewrite Hf. by apply String.eqb_eq.
Qed.

(** Two prefixes share an address. *)
Definition share_address (p q : Prefix) : Prop :=
  exists a, addr_wf a /\ a <> AddrZero /\ Contains p a = true /\ Contains q a = true.

(** The object whose feeds are named: the one at the target, or else its cover. *)
Definition source_object (objects : list EnforcementRecord) (target : Prefix) (o : EnforcementRecord) : Prop :=
  object_at objects target o \/
  ((forall o', ~ object_at objects target o') /\ cover_of objects target o /\
   forall o', cover_of objects target o' -> subnet (er_Prefix o) (er_Prefix o')).

(** What an explanation says. *)
Record explains (target : Prefix) (cidrs : list Prefix) (objects : list EnforcementRecord)
    (decisions : list DecisionRecord) (operations : list Operation) (r : ExplainResult) : Prop := {
  ex_desired : xr_Desired r = true <-> exists o, object_at objects target o /\ er_Desired o = true;
  ex_allowlisted : xr_Allowlisted r = true <->
    (exists a, a ∈ cidrs /\ share_address target a) \/
    exists o, object_at objects target o /\ er_Suppression o = suppression_text SuppressedAllowlist;
  ex_covered :
    (xr_Covered r = false /\ xr_CoveringPrefix r = ""%string /\ forall o, ~ cover_of objects target o) \/
    (xr_Covered r = true /\ exists c, cover_of objects target c /\ xr_CoveringPrefix r = prefix_String (er_Prefix c) /\
       forall o, cover_of objects target o -> subnet (er_Prefix c) (er_Prefix o));
  ex_contributors :
    (exists o, source_object objects target o /\ feeds_listed (er_Sources o) (xr_Contributors r)) \/
    ((forall o, ~ source_object objects target o) /\ xr_Contributors r = []);
  ex_owned : xr_Owned r = true <-> owned_spec target decisions;
  ex_conflict : xr_OwnershipConflict r = true <-> conflict_spec target objects operations }.

(** What keeps an explanation from being given. *)
Inductive unexplained (target : Prefix) (objects : list EnforcementRecord) (decisions : list DecisionRecord) : Prop :=
| cover_missing o : object_at objects target o -> er_Suppression o = suppression_text SuppressedCovered ->
    (forall c, ~ cover_of objects target c) -> unexplained target objects decisions
| decision_unreadable d : d ∈ decisions -> decisionPrefix d = Err ErrOperatorExplain -> unexplained target objects decisions
| feeds_unprintable o : source_object objects target o ->
    (256 < List.length (er_Sources o))%nat \/ (exists c, c ∈ er_Sources o /\ ValidFeedName (ct_FeedName c) = false) ->
    unexplained target objects decisions.

(** Covers of a target are nested. *)
Lemma covers_nested objects target o c : canonical target -> stored_ok objects ->
  cover_of objects target o -> cover_of objects target c -> p_bits (er_Prefix o) <= p_bits (er_Prefix c) ->
  subnet (er_Prefix c) (er_Prefix o).
Proof.
  intros [Wt _ _] Hs (Ho & _ & _ & _ & So) (Hc & _ & _ & _ & Sc) Hb.
  pose proof (so_canonical _ Hs _ Ho) as [Wo _ _]. pose proof (so_canonical _ Hs _ Hc) as [Wc _ _].
  apply prefixCovers_subnet in So; [|done..]. apply prefixCovers_subnet in Sc; [|done..]. apply prefixCovers_subnet; [done..|].
  apply prefixCovers_true in So as (Lo & Bo & No); [|done..]. apply prefixCovers_true in Sc as (Lc & Bc & Nc); [|done..].
  apply prefixCovers_true; [done..|]. split_and!; [congruence|done|].
  pose proof Wo as (_ & _ & _ & ?). pose proof Wc as (Ac & Zc & Tc & ?). pose proof Wt as (At & Zt & _ & ?).
  apply Contains_spec in No as (_ & _ & No); [|done..]. apply Contains_spec in Nc as (_ & _ & Nc); [|done..].
  apply Contains_spec; [done..|]. split_and!; [done|congruence|]. rewrite <- No. unfold net in *.
  rewrite <- (net_coarser (p_bits (er_Prefix o)) (p_bits (er_Prefix c))) by lia.
  rewrite <- Nc, (net_coarser (p_bits (er_Prefix o)) (p_bits (er_Prefix c))) by lia. done.
Qed.

(** What the search found, for well-formed rows. *)
Lemma find_objects_stored target objects : canonical target -> stored_ok objects ->
  let '(exact, cover) := find_objects target None None objects in
  (forall o, exact = Some o <-> object_at objects target o) /\
  match cover with
  | Some c => cover_of objects target c /\ forall o, cover_of objects target o -> subnet (er_Prefix c) (er_Prefix o)
  | None => forall o, ~ cover_of objects target o
  end.
Proof.
  intros Ht Hs. pose proof (find_objects_spec target objects None None) as H.
  destruct (find_objects target None None objects) as [e c]. destruct H as (H1 & H2 & H3 & H4).
  assert (forall o, cover_of objects target o <-> o ∈ objects /\ er_Prefix o <> target /\ is_covering target o = true) as Hc.
  { intros o. unfold cover_of. split; [intros (Ho & ? & ? & ? & ?)|intros (Ho & ? & Hi)];
      [|apply (is_covering_true objects) in Hi as (? & ? & ?); [|done..]]; split_and!; try done.
    by apply (is_covering_true objects). }
  split.
  - intros o. split; [intros [?|?]%H1; done|]. intros Ho. destruct e as [o'|]; [|by destruct (proj2 (H2 eq_refl) o)].
    destruct (H1 o' eq_refl) as [|[Ho' E']]; [done|]. f_equal. apply (so_prefixes _ Hs); [done|apply Ho|]. rewrite E'. symmetry. apply Ho.
  - destruct c as [c|].
    + destruct (H3 c eq_refl) as [|Hcc]; [done|]. apply Hc in Hcc. split; [done|]. intros o Ho.
      destruct (H4 o) as (c' & [= <-] & Hb); [right; by apply Hc|]. by eapply covers_nested.
    + intros o Ho. destruct (H4 o) as (c' & ? & _); [right; by apply Hc|done].
Qed.

Lemma explainAllowlisted_spec target cidrs : prefix_wf target -> Forall prefix_wf cidrs ->
  explainAllowlisted target cidrs = true <-> exists a, a ∈ cidrs /\ share_address target a.
Proof.
  intros Ht Hw. rewrite list.Forall_forall in Hw. unfold explainAllowlisted. rewrite existsb_exists.
  setoid_rewrite <- list_elem_of_In. unfold share_address.
  split; intros (a & Ha & H); exists a; (split; [done|]); [apply Overlaps_iff_shared in H|apply Overlaps_iff_shared]; auto.
Qed.

Lemma ExplainResult_Validate_cases r : explain_canonical r = true ->
  (if xr_Covered r then canonical_text (xr_CoveringPrefix r) = true else xr_CoveringPrefix r = ""%string) ->
  ExplainResult_Validate r <> None ->
  (256 < List.length (xr_Contributors r))%nat \/ exists n, n ∈ xr_Contributors r /\ ValidFeedName n = false.
Proof.
  intros Hc Hp. unfold ExplainResult_Validate. rewrite Hc. cbn [negb].
  assert ((if xr_Covered r then negb (canonical_text (xr_CoveringPrefix r)) else negb (String.eqb (xr_CoveringPrefix r) "")) = false) as ->.
  { destruct (xr_Covered r); rewrite Hp; done. }
  destruct (Z.ltb_spec 256 (Z.of_nat (List.length (xr_Contributors r)))); [left; lia|].
  destruct (forallb ValidFeedName (xr_Contributors r)) eqn:E; [done|]. right.
  apply not_true_iff_false in E. rewrite forallb_forall in E.
  destruct (list_find (fun n => ValidFeedName n = false) (xr_Contributors r)) as [[i n]|] eqn:Ef.
  - apply list_find_Some in Ef as (Hi & Hn & _). exists n. split; [by eapply list_elem_of_lookup_2|done].
  - exfalso. apply E. intros n Hn%list_elem_of_In. apply list_find_None in Ef. rewrite list.Forall_forall in Ef.
    by apply not_false_iff_true, Ef.
Qed.

Lemma source_of_cases target objects exact cover :
  (forall o, exact = Some o <-> object_at objects target o) ->
  match cover with
  | Some c => cover_of objects target c /\ forall o, cover_of objects target o -> subnet (er_Prefix c) (er_Prefix o)
  | None => forall o, ~ cover_of objects target o
  end ->
  match (match exact with Some o => Some o | None => cover end) with
  | Some o => source_object objects target o
  | None => forall o, ~ source_object objects target o
  end.
Proof.
  intros He Hc. unfold source_object. destruct exact as [o|]; [left; by apply He|].
  assert (forall o, ~ object_at objects target o) as Hn by (intros o Ho%He; done).
  destruct cover as [c|]; [right; by split|]. intros o [Ho|(_ & Ho & _)]; [by apply (Hn o)|by apply (Hc o)].
Qed.

(** What is answered from the stored rows, and what keeps it from being answered. *)
Lemma explain_stored_spec input target kind cidrs objects decisions operations :
  ParseValue input = Ok (target, kind) -> Forall prefix_wf cidrs -> stored_ok objects ->
  match explain_stored target kind cidrs objects decisions operations with
  | Ok r => explains target cidrs objects decisions operations r
  | Err e => e = ErrOperatorExplain /\ unexplained target objects decisions
  end.
Proof.
  intros Hin Hal Hs. pose proof (ParseValue_canonical _ _ _ Hin) as [Ht _]. pose proof Ht as [Wt _ _].
  unfold explain_stored. pose proof (find_objects_stored target objects Ht Hs) as Hf.
  destruct (find_objects target None None objects) as [exact cover]. destruct Hf as [He Hc].
  pose proof (source_of_cases target objects exact cover He Hc) as Hsrc.
  pose proof (owned_by_spec target Wt decisions) as Hown.
  set (missing := match cover, exact with None, Some o => _ | _, _ => _ end).
  assert (missing = Ok tt \/ missing = Err ErrOperatorExplain /\ unexplained target objects decisions) as [->|[-> ?]]; [|cbn [rbind]|done].
  { subst missing. destruct cover as [c|], exact as [o|]; [by left..| |by left].
    destruct (String.eqb_spec (er_Suppression o) (suppression_text SuppressedCovered)) as [E|]; [right|by left].
    split; [done|]. by apply (cover_missing _ _ _ o); [apply He|..]. }
  destruct (owned_by target decisions) as [b|e]; cbn [rbind]; [|destruct Hown as (-> & d & ? & ?)];
    [|split; [done|]; by eapply decision_unreadable].
  set (r := MkExplainResult _ _ _ _ _ _ _ _ _).
  destruct (ExplainResult_Validate r) as [e|] eqn:Ev.
  - split; [done|]. assert (ExplainResult_Validate r <> None) as Hbad by (by rewrite Ev).
    apply ExplainResult_Validate_cases in Hbad.
    + subst r. cbn in Hbad. destruct (match exact with Some o => Some o | None => cover end) as [o|] eqn:Eo.
      * apply (feeds_unprintable _ _ _ o); [done|]. rewrite length_sort_func in Hbad.
        destruct (feed_names_spec (er_Sources o) ∅) as (_ & H2 & H3). destruct Hbad as [?|(n & Hn & Hv)]; [left; lia|right].
        rewrite (elem_of_sort_func cmp_string), H2 in Hn. destruct Hn as (_ & c & ? & <-). eauto.
      * cbn in Hbad. destruct Hbad as [?|(n & Hn & _)]; [lia|by apply elem_of_nil in Hn].
    + exact (explain_target_canonical _ _ cidrs _ Hin).
    + subst r. cbn. destruct cover as [c|]; [|done]. apply canonical_text_prefix, (so_canonical _ Hs), Hc.
  - split; subst r; cbn.
    + setoid_rewrite <- He. destruct exact as [o|]; naive_solver.
    + rewrite orb_true_iff, <- explainAllowlisted_spec by done. setoid_rewrite <- He.
      apply Morphisms_Prop.or_iff_morphism.
      * by destruct kind.
      * destruct exact as [o|]; [|naive_solver]. rewrite String.eqb_eq. naive_solver.
    + destruct cover as [c|]; [right|left]; naive_solver.
    + destruct (match exact with Some o => Some o | None => cover end) as [o|]; [left|by right].
      exists o. split; [done|]. apply feed_names_listed.
    + done.
    + by apply ownership_conflict_spec.
Qed.

(** ** The explanation and the plan *)

Lemma Forall2_some_l {A B} (P : A -> B -> Prop) l k x : Forall2 P l k -> x ∈ l -> exists y, y ∈ k /\ P x y.
Proof. intros H. induction H; set_solver. Qed.
Lemma Forall2_some_r {A B} (P : A -> B -> Prop) l k y : Forall2 P l k -> y ∈ k -> exists x, x ∈ l /\ P x y.
Proof. intros H. induction H; set_solver. Qed.

Lemma elem_of_objects_in_order d id row : (id, row) ∈ objects_in_order d <-> db_objects d !! id = Some row.
Proof. unfold objects_in_order. by rewrite elem_of_sort_func, elem_of_map_to_list. Qed.

(** The listing of a sound database is well formed. *)
Lemma listed_ok d records : db_ok d -> Forall2 (shows d) (objects_in_order d) records -> stored_ok records.
Proof.
  intros Hok H. assert (forall rec, rec ∈ records -> exists id row, db_objects d !! id = Some row /\ shows d (id, row) rec) as Hrow.
  { intros rec ([id row] & Hin & Hs)%(Forall2_some_r _ _ _ _ H). exists id, row. by rewrite <- elem_of_objects_in_order. }
  assert (NoDup (objects_in_order d)) as Hnd by (unfold objects_in_order; rewrite sort_func_perm; apply NoDup_map_to_list).
  assert (forall l k, Forall2 (shows d) l k -> NoDup l ->
    (forall x y, x ∈ l -> y ∈ l -> x.1 = y.1 -> x = y) ->
    forall o o', o ∈ k -> o' ∈ k -> er_ID o = er_ID o' -> o = o') as Hids.
  { clear. intros l k HF. induction HF as [|x y l k Hxy HF IH]; [set_solver|].
    intros [Hx Hl]%list.NoDup_cons Hu o o' Ho Ho' E.
    assert (forall z, z ∈ k -> er_ID z <> er_ID y) as Hne.
    { intros z Hz Ez. destruct (Forall2_some_r _ _ _ _ HF Hz) as (x' & Hx' & Hs). apply Hx.
      rewrite (Hu x x'); [done|apply list_elem_of_here|by apply list_elem_of_further|].
      by rewrite <- (sh_id _ _ _ Hxy), <- (sh_id _ _ _ Hs). }
    apply elem_of_cons in Ho as [->|Ho], Ho' as [->|Ho']; [done|by destruct (Hne o')|by destruct (Hne o)|].
    apply IH; try done. intros a b Ha Hb. apply Hu; by apply list_elem_of_further. }
  assert (forall o o', o ∈ records -> o' ∈ records -> er_ID o = er_ID o' -> o = o') as Huid.
  { apply (Hids _ _ H Hnd). intros [i r] [j s] Hi%elem_of_objects_in_order Hj%elem_of_objects_in_order [= ->]. congruence. }
  split; [| |done].
  - intros o (id & row & _ & Hs)%Hrow. apply Hs.
  - intros o o' Ho Ho' E. apply Huid; [done..|].
    destruct (Hrow o Ho) as (id & row & Hr & Hs), (Hrow o' Ho') as (id' & row' & Hr' & Hs').
    rewrite (sh_id _ _ _ Hs), (sh_id _ _ _ Hs'). apply (ok_object_unique _ Hok _ _ _ _ Hr Hr').
    pose proof (sh_prefix _ _ _ Hs) as [E1 _]. pose proof (sh_prefix _ _ _ Hs') as [E2 _]. cbn in *. by rewrite E1, E2, E.
Qed.

(** A record that shows an object of a plan. *)
Record record_of (d : DB) (o : Object) (rec : EnforcementRecord) : Prop := {
  rf_prefix : er_Prefix rec = ob_Prefix o;
  rf_scope : er_Scope rec = ob_Scope o;
  rf_desired : er_Desired rec = ob_Desired o;
  rf_suppression : er_Suppression rec = suppression_text (ob_Suppression o);
  rf_feeds : forall n, (exists c, c ∈ er_Sources rec /\ ct_FeedName c = n) <->
    exists c f, c ∈ ob_Contributors o /\ db_feeds d !! ct_FeedID c = Some f /\ fr_name f = n }.

Lemma shows_object now d id o rec : db_ok d -> canonical (ob_Prefix o) ->
  (forall c, c ∈ ob_Contributors o -> ct_Kind c <> KindInvalid) ->
  carries now d id o -> forall row, db_objects d !! id = Some row -> shows d (id, row) rec -> record_of d o rec.
Proof.
  intros Hok Hc Hk [[created Hrow] Hsrc] row Hr [_ [Hp Hcan] (Hsc & Hd & Hsu & _) Hso]. cbn in *.
  rewrite Hrow in Hr. injection Hr as <-. cbn in *. split; [symmetry; by eapply prefix_String_inj|done..|].
  intros n. split.
  - intros (c & (f & Hin & _ & Hf & Hn & _)%list_elem_of_In%Hso & <-).
    apply Hsrc in Hin as (c' & Hc'%list_elem_of_In & E & _). exists c', f. by rewrite <- E.
  - intros (c & f & Hin & Hf & <-). exists (MkContributor (ct_FeedID c) (fr_name f) 0 (ct_Kind c)). split; [|done].
    apply list_elem_of_In, Hso. exists f. cbn. split_and!; try done; [|by apply Hk].
    apply Hsrc. exists c. split_and!; [by apply list_elem_of_In|done..].
Qed.

(** The records after a plan: every object has one, and the others are not desired. *)
Lemma plan_records objects now w records w' :
  db_ok (sw_db w) -> List.Forall (fun o => prefix_wf (ob_Prefix o)) objects ->
  ApplyEnforcementPlan objects now w = (Ok records, w') ->
  stored_ok records /\
  (forall o, o ∈ objects -> canonical (ob_Prefix o) /\
     (ob_Scope o = ScopeIP -> p_bits (ob_Prefix o) = BitLen (p_addr (ob_Prefix o))) /\
     exists rec, rec ∈ records /\ record_of (sw_db w') o rec) /\
  (forall rec, rec ∈ records -> er_Desired rec = true -> exists o, o ∈ objects /\ record_of (sw_db w') o rec).
Proof.
  intros Hok Hwf H. apply ApplyEnforcementPlan_Ok in H as (Hv & Hok' & [_ Hd Hr _] & Hs); [|done..].
  apply validate_plan_all in Hv as (Hv & _). rewrite List.Forall_forall in Hv, Hwf.
  assert (forall o, In o objects -> canonical (ob_Prefix o) /\
    (ob_Scope o = ScopeIP -> p_bits (ob_Prefix o) = BitLen (p_addr (ob_Prefix o))) /\
    forall c, c ∈ ob_Contributors o -> ct_Kind c <> KindInvalid) as Hobj.
  { intros o Ho. pose proof (Hv o Ho) as Hvo. destruct (validateEnforcementObject_facts o Hvo (Hwf o Ho)) as (? & _ & ? & _).
    split_and!; [done..|]. intros c Hc%list_elem_of_In. unfold validateEnforcementObject in Hvo. to_prop.
    match goal with Hf : forallb valid_source _ = true |- _ => rewrite forallb_forall in Hf; specialize (Hf c Hc) end.
    unfold valid_source in *. intros E. rewrite E in *. by rewrite andb_false_r in *. }
  split_and!.
  - by apply (listed_ok (sw_db w')).
  - intros o Ho%list_elem_of_In. destruct (Hobj o Ho) as (Hc & Hb & Hk). split_and!; [done..|].
    destruct (Hd o Ho) as (id & Hcar). pose proof Hcar as [[created Hrow] _].
    apply elem_of_objects_in_order in Hrow as Hin. destruct (Forall2_some_l _ _ _ _ Hs Hin) as (rec & Hrec & Hsh).
    exists rec. split; [done|]. by eapply shows_object.
  - intros rec Hrec Hdes. destruct (Forall2_some_r _ _ _ _ Hs Hrec) as ([id row] & Hin & Hsh).
    apply elem_of_objects_in_order in Hin. destruct (Hr id row Hin) as [(o & Ho & Hcar)|(_ & (r0 & _ & ->) & _)].
    + destruct (Hobj o Ho) as (Hc & Hb & Hk). exists o. split; [by apply list_elem_of_In|]. by eapply shows_object.
    + pose proof (sh_fields _ _ _ Hsh) as (_ & E & _). cbn in E. congruence.
Qed.

(** The explanation of an object of the plan. *)
Record explains_object (d : DB) (o : Object) (r : ExplainResult) : Prop := {
  eo_desired : xr_Desired r = ob_Desired o;
  eo_allowlisted : xr_Allowlisted r = true <-> ob_Suppression o = SuppressedAllowlist;
  eo_covering : ob_Suppression o = SuppressedCovered -> xr_Covered r = true /\ exists c, ob_CoveredBy o = Some c /\ xr_CoveringPrefix r = prefix_String c;
  eo_feeds : forall n, n ∈ xr_Contributors r <->
    exists c f, c ∈ ob_Contributors o /\ db_feeds d !! ct_FeedID c = Some f /\ fr_name f = n }.

(** The cover of a withheld host that the plan recorded is the one that is found. *)
Lemma plan_cover cs al now w records w' o c rec :
  let objects := (BuildDesired cs al).1 in
  db_ok (sw_db w) -> List.Forall (fun o => prefix_wf (ob_Prefix o)) objects ->
  ApplyEnforcementPlan objects now w = (Ok records, w') -> o ∈ objects -> ob_Scope o = ScopeIP ->
  desired_range_over objects o c -> (forall p, desired_range_over objects o p -> p_bits p <= p_bits c) ->
  (exists q, cover_of records (ob_Prefix o) q /\ er_Prefix q = c) /\
  (cover_of records (ob_Prefix o) rec ->
   (forall q, cover_of records (ob_Prefix o) q -> subnet (er_Prefix rec) (er_Prefix q)) -> er_Prefix rec = c).
Proof.
  intros objects Hok Hwf H Ho Hip Hc Hmax. destruct (plan_records _ _ _ _ _ Hok Hwf H) as (Hst & Hplan & Hdes).
  destruct (Hplan o Ho) as (Hco & Hfull & _). specialize (Hfull Hip). pose proof Hco as [Wo _ _]. pose proof Wo as (Ao & Zo & _).
  destruct Hc as (r & Hr%list_elem_of_In & Hrd & Hrs & Hrp & Hrb & Hrc).
  destruct (Hplan r Hr) as (Hcr & _ & q & Hq & [Qp Qs Qd _ _]). rewrite Hrp in Hcr. pose proof Hcr as [Wr _ _].
  assert (cover_of records (ob_Prefix o) q) as Hcov.
  { split_and!; [done|congruence|congruence| |]; rewrite Qp, Hrp; [intros E; rewrite E in Hrb; lia|].
    apply prefixCovers_subnet, prefixCovers_true; [done..|]. pose proof Hrc as (_ & ? & _)%Contains_spec; [|done..].
    split_and!; [congruence|lia|done]. }
  split; [exists q; split; [done|congruence]|]. intros Hrec Hin.
  pose proof Hrec as (Hrr & Hrecd & Hrecs & Hne & Hsub).
  pose proof (so_canonical _ Hst _ Hrr) as Hcc. pose proof Hcc as [Wc _ _].
  pose proof (Hsub _ Ao Zo (Contains_self _ Wo)) as Hself.
  apply prefixCovers_subnet, prefixCovers_true in Hsub as (HL & Hb & _); [|done..].
  assert (p_bits (er_Prefix rec) <> BitLen (p_addr (ob_Prefix o))) as Hnf.
  { intros E. apply Hne. eapply same_range_unique; [done..| |exact Ao|exact Zo|done|by apply Contains_self]. lia. }
  assert (p_bits (er_Prefix rec) <= p_bits c) as Hle.
  { apply Hmax. destruct (Hdes rec Hrr Hrecd) as (o' & Ho' & [Pp Ps Pd _ _]).
    exists o'. split_and!; [by apply list_elem_of_In|congruence|congruence|done|lia|done]. }
  specialize (Hin q Hcov). rewrite Qp, Hrp in Hin. apply prefixCovers_subnet, prefixCovers_true in Hin as (_ & Hge & _); [|done..].
  eapply same_range_unique; [done..|lia|exact Ao|exact Zo|done|done].
Qed.

(** The allowlist of the plan withholds what shares an address with an entry. *)
Lemma allowlist_shared al p : Forall prefix_wf al -> prefix_wf p ->
  overlapsAllowlist p al = true <-> exists a, a ∈ al /\ share_address p a.
Proof.
  intros Hal Hp. rewrite list.Forall_forall in Hal. rewrite overlapsAllowlist_true. setoid_rewrite <- list_elem_of_In.
  split; intros (a & Ha & H); pose proof (Hal a Ha) as Wa; pose proof (Masked_wf _ Wa) as Wm; exists a; (split; [done|]).
  - destruct H as [_ (x & Hx & Hz & H1 & H2)%Overlaps_iff_shared]; [|done..].
    exists x. rewrite Contains_Masked in H2 by done. done.
  - destruct H as (x & Hx & Hz & H1 & H2). split; [apply Z.leb_le, Wa|].
    apply Overlaps_iff_shared; [done..|]. exists x. by rewrite Contains_Masked.
Qed.

Lemma suppression_text_allowlist s : suppression_text s = suppression_text SuppressedAllowlist <-> s = SuppressedAllowlist.
Proof. by destruct s. Qed.
Lemma suppression_text_covered s : suppression_text s = suppression_text SuppressedCovered <-> s = SuppressedCovered.
Proof. by destruct s. Qed.

(** C30: the explanation of a stored plan is the plan.  Once the desired objects of
    the candidates are stored, the explanation of the address or range of any of
    them, in whatever way it is written, calls the object desired exactly when the
    plan does, allowlisted exactly when the plan withholds it for the allowlist,
    shows the range that the plan recorded as its cover, and names the feeds of
    its contributors, whatever decisions and operations the database has.  It is
    given unless a stored decision cannot be read, or the record of the object has
    more than 256 sources or one of a feed whose name cannot be printed; then the
    error of the command is answered. *)
Theorem explain_plan cs al now w records w' o input kind decisions operations :
  let objects := (BuildDesired cs al).1 in
  db_ok (sw_db w) -> List.Forall (fun o => prefix_wf (ob_Prefix o)) objects -> Forall prefix_wf al ->
  ApplyEnforcementPlan objects now w = (Ok records, w') ->
  o ∈ objects -> ParseValue input = Ok (ob_Prefix o, kind) ->
  match explain_stored (ob_Prefix o) kind al records decisions operations with
  | Ok r => explains_object (sw_db w') o r
  | Err e => e = ErrOperatorExplain /\
      ((exists d, d ∈ decisions /\ decisionPrefix d = Err ErrOperatorExplain) \/
       exists rec, rec ∈ records /\ er_Prefix rec = ob_Prefix o /\
         ((256 < List.length (er_Sources rec))%nat \/ exists c, c ∈ er_Sources rec /\ ValidFeedName (ct_FeedName c) = false))
  end.
Proof.
  intros objects Hok Hwf Hal H Ho Hin. destruct (plan_records _ _ _ _ _ Hok Hwf H) as (Hst & Hplan & _).
  destruct (Hplan o Ho) as (Hco & _ & rec & Hrec & Hof).
  assert (object_at records (ob_Prefix o) rec) as Hat by (split; [done|apply Hof]).
  assert (forall q, object_at records (ob_Prefix o) q <-> q = rec) as Hq.
  { intros q. split; [|by intros ->]. intros [Hq Eq]. apply (so_prefixes _ Hst); [done..|]. rewrite Eq. symmetry. apply Hof. }
  pose proof (suppression_facts cs al o (proj1 (list_elem_of_In _ _) Ho)) as Hsup. cbv zeta in Hsup.
  pose proof (explain_stored_spec input (ob_Prefix o) kind al records decisions operations Hin Hal Hst) as He.
  destruct (explain_stored _ _ _ _ _ _) as [r|e].
  - destruct He as [E1 E2 E3 E4 _ _]. setoid_rewrite Hq in E1. setoid_rewrite Hq in E2. split.
    + apply bool_iff. rewrite E1, <- (rf_desired _ _ _ Hof). split; [by intros (q & -> & ?)|by exists rec].
    + rewrite E2, <- allowlist_shared by (done || apply Hco).
      transitivity (overlapsAllowlist (ob_Prefix o) al = true \/ ob_Suppression o = SuppressedAllowlist).
      * apply Morphisms_Prop.or_iff_morphism; [done|]. rewrite <- suppression_text_allowlist, <- (rf_suppression _ _ _ Hof).
        split; [by intros (q & -> & ?)|by exists rec].
      * clear -Hsup. destruct (ob_Suppression o); destruct Hsup as [-> _]; (split; [intros [?|?]|right]; done).
    + intros Es. rewrite Es in Hsup. destruct Hsup as (_ & _ & Hip & c & Ec & Hc & Hmax).
      destruct E3 as [(_ & _ & Hno)|(E & q & Hcq & Et & Hinner)].
      * destruct (plan_cover _ _ _ _ _ _ o c rec Hok Hwf H Ho Hip Hc Hmax) as [(q & Hcq & _) _]. by destruct (Hno q).
      * split; [done|]. exists c. split; [done|]. rewrite Et. f_equal.
        exact (proj2 (plan_cover _ _ _ _ _ _ o c q Hok Hwf H Ho Hip Hc Hmax) Hcq Hinner).
    + intros n. rewrite <- (rf_feeds _ _ _ Hof). destruct E4 as [(q & Hsq & Hl)|[Hno _]]; [|by destruct (Hno rec); left].
      assert (q = rec) as -> by (destruct Hsq as [Hx|[Hx _]]; [by apply Hq|by destruct (Hx rec)]). apply Hl.
  - destruct He as [-> [q Hx Hs Hno|d Hd Hbad|q Hsq Hbad]]; (split; [done|]).
    + exfalso. apply Hq in Hx as ->. rewrite (rf_suppression _ _ _ Hof) in Hs. apply suppression_text_covered in Hs. rewrite Hs in Hsup.
      destruct Hsup as (_ & _ & Hip & c & _ & Hc & Hmax).
      destruct (plan_cover _ _ _ _ _ _ o c rec Hok Hwf H Ho Hip Hc Hmax) as [(q & Hcq & _) _]. by destruct (Hno q).
    + left. by exists d.
    + right. assert (q = rec) as -> by (destruct Hsq as [Hx|[Hx _]]; [by apply Hq|by destruct (Hx rec)]).
      exists rec. destruct Hat as [? ?]. by split_and!.
Qed.
