(* ===== verification/OperatorStore.v ===== *)
(** * The operator's commands over the store

    The commands composed with the repositories of this development: what they
    answer about the stored state, and that all but a confirmed pruning leave it
    as it is. *)

From S2P Require Export OperatorRun StateAll.

(** What the store and the file system promise: the reads and the pruning are
    those of the repositories, a read-only open and a close touch nothing, and an
    open for writing finds the schema current and leaves the rows alone. *)
Class OperatorOver (W : Type) `{!OperatorState W} (st : W -> SW) : Prop := {
  ov_missing : forall path w, st (os_missing path w).2 = st w;
  ov_regular : forall path w, st (os_regular path w).2 = st w;
  ov_open_read : forall d w, st (os_OpenReadOnly d w).2 = st w;
  ov_open : forall d w, sw_db (st (os_Open d w).2) = sw_db (st w);
  ov_close : forall w, st (os_Close w).2 = st w;
  ov_version : forall w, sw_db (st (os_SchemaVersion w).2) = sw_db (st w);
  ov_timestamp : forall key w, RuntimeTimestamp key (st w) = ((os_RuntimeTimestamp key w).1, st (os_RuntimeTimestamp key w).2);
  ov_runs : forall n w, ListSyncRuns n (st w) = ((os_ListSyncRuns n w).1, st (os_ListSyncRuns n w).2);
  ov_active : forall w, ListActiveDecisions (st w) = ((os_ListActiveDecisions w).1, st (os_ListActiveDecisions w).2);
  ov_objects : forall w, ListEnforcementObjects (st w) = ((os_ListEnforcementObjects w).1, st (os_ListEnforcementObjects w).2);
  ov_operations : forall w, OpenOperations (st w) = ((os_OpenOperations w).1, st (os_OpenOperations w).2);
  ov_feeds : forall w, ListFeeds (st w) = ((os_ListFeeds w).1, st (os_ListFeeds w).2);
  ov_ambiguous : forall w, CountAmbiguousOperations (st w) = ((os_CountAmbiguousOperations w).1, st (os_CountAmbiguousOperations w).2);
  ov_plan : forall now keep limit w, PlanPruneHistory now keep limit (st w) =
    ((os_PlanPruneHistory now keep limit w).1, st (os_PlanPruneHistory now keep limit w).2);
  ov_prune : forall now keep limit w, PruneHistory now keep limit (st w) =
    ((os_PruneHistory now keep limit w).1, st (os_PruneHistory now keep limit w).2) }.

(** ** The reads of the store change nothing *)

Ltac reads :=
  repeat first [ apply does_then; [apply _| |intros ?] | apply does_fold; [apply _|intros ? ?] | apply does_wrap
               | apply does_query; apply _ | apply does_mok; apply _ | apply does_mfail; apply _
               | apply does_require; apply _ | apply does_lift; apply _ | progress case_match ].

Lemma reads_timestamp key : does eq (RuntimeTimestamp key).
Proof. unfold RuntimeTimestamp. reads. Qed.
Lemma reads_active : does eq ListActiveDecisions.
Proof. unfold ListActiveDecisions. reads. Qed.
Lemma reads_objects : does eq ListEnforcementObjects.
Proof. unfold ListEnforcementObjects. reads. Qed.
Lemma reads_operations : does eq OpenOperations.
Proof. unfold OpenOperations. reads. Qed.
Lemma reads_plan now keep limit : does eq (PlanPruneHistory now keep limit).
Proof. unfold PlanPruneHistory. reads. Qed.
Lemma reads_ambiguous : does eq CountAmbiguousOperations.
Proof. unfold CountAmbiguousOperations. reads. Qed.
Lemma reads_feeds : does eq ListFeeds.
Proof. unfold ListFeeds. reads. Qed.
Lemma reads_runs n : does eq (ListSyncRuns n).
Proof. unfold ListSyncRuns. reads. Qed.

Section Commands.
Context {W : Type} `{!OperatorState W} (st : W -> SW) `{!OperatorOver W st} {lib : TextLibrary}.

(** What leaves the stored rows alone. *)
Definition leaves {A} (m : M W error A) : Prop := forall w, sw_db (st (m w).2) = sw_db (st w).

Lemma leaves_ok {A} (a : A) : leaves (mok a).
Proof. done. Qed.
Lemma leaves_fail {A} e : leaves (mfail (A:=A) e).
Proof. done. Qed.
Lemma leaves_then {A B} (m : M W error A) (k : A -> M W error B) : leaves m -> (forall a, leaves (k a)) -> leaves (mthen m k).
Proof.
  intros Hm Hk w. unfold mthen. specialize (Hm w). destruct (m w) as [[a|e] w1]; cbn in *; [|done]. by rewrite Hk.
Qed.
Lemma leaves_try {A B} (m : M W error A) (k : result error A -> M W error B) :
  leaves m -> (forall r, leaves (k r)) -> leaves (mtry m k).
Proof. intros Hm Hk w. unfold mtry. specialize (Hm w). destruct (m w) as [r w1]; cbn in *. by rewrite Hk. Qed.

(** An operation of the world that is a read of the store. *)
Lemma leaves_read {A} (m : M W error A) (s : Store A) : does eq s -> (forall w, s (st w) = ((m w).1, st (m w).2)) -> leaves m.
Proof. intros Hs Hm w. symmetry. eapply Hs, Hm. Qed.

Lemma leaves_asks (f : W -> bool * W) : (forall w, st (f w).2 = st w) -> leaves (asks f).
Proof. intros Hf w. unfold asks. specialize (Hf w). destruct (f w). cbn in *. congruence. Qed.
Lemma leaves_close : leaves close_error.
Proof. intros w. unfold close_error. pose proof (ov_close w) as E. destruct (os_Close w). cbn in *. congruence. Qed.
Lemma leaves_config cfg e : leaves (valid_config cfg e).
Proof. unfold valid_config. by destruct (Config_Validate cfg). Qed.
Lemma leaves_open_read d : leaves (os_OpenReadOnly d).
Proof. intros w. by rewrite ov_open_read. Qed.
Lemma leaves_open d : leaves (os_Open d).
Proof. intros w. apply ov_open. Qed.
Lemma leaves_version : leaves os_SchemaVersion.
Proof. intros w. apply ov_version. Qed.
Lemma leaves_missing p : leaves (asks (os_missing p)).
Proof. apply leaves_asks, ov_missing. Qed.
Lemma leaves_regular p : leaves (asks (os_regular p)).
Proof. apply leaves_asks, ov_regular. Qed.
End Commands.

Ltac leaves :=
  repeat first
    [ apply leaves_then; [|intros ?] | apply leaves_try; [|intros ?] | apply leaves_config | apply leaves_ok | apply leaves_fail
    | apply leaves_close | apply leaves_open_read | apply leaves_open | apply leaves_version | apply leaves_missing | apply leaves_regular
    | eapply leaves_read; [|apply ov_timestamp]; apply reads_timestamp | eapply leaves_read; [|apply ov_runs]; apply reads_runs
    | eapply leaves_read; [|apply ov_active]; apply reads_active | eapply leaves_read; [|apply ov_objects]; apply reads_objects
    | eapply leaves_read; [|apply ov_operations]; apply reads_operations | eapply leaves_read; [|apply ov_feeds]; apply reads_feeds
    | eapply leaves_read; [|apply ov_ambiguous]; apply reads_ambiguous | eapply leaves_read; [|apply ov_plan]; apply reads_plan
    | assumption | progress case_match | progress cbv zeta ].

Section Reads.
Context {W : Type} `{!OperatorState W} (st : W -> SW) `{!OperatorOver W st} {lib : TextLibrary}.
Lemma status_leaves cfg now : leaves st (statusCLIWithOptions cfg now).
Proof. unfold statusCLIWithOptions. leaves. Qed.
Lemma feeds_leaves cfg : leaves st (ListFeedsCLI cfg).
Proof. unfold ListFeedsCLI. leaves. Qed.
Lemma explain_leaves cfg input : leaves st (ExplainCLI cfg input).
Proof. unfold ExplainCLI. leaves. Qed.
Lemma check_leaves cfg : leaves st (DBCheckCLI cfg).
Proof. unfold DBCheckCLI. leaves. Qed.
Lemma prune_planned_leaves d now : leaves st (prune_planned d now).
Proof. unfold prune_planned, prune_answer. leaves. Qed.
End Reads.

(** ** What the commands answer *)

(** The operations that nobody knows the outcome of. *)
Definition ambiguous_operations (d : DB) : Z :=
  count_rows (fun _ r => bool_decide (pw_status r = OperationAmbiguous)) (db_operations d).

Lemma CountAmbiguous_Ok w n w' : CountAmbiguousOperations w = (Ok n, w') -> n = ambiguous_operations (sw_db w) /\ sw_db w' = sw_db w.
Proof.
  unfold CountAmbiguousOperations. intros H. apply mthen_ok in H as (count & w1 & H1 & H).
  apply wrap_query_Ok in H1 as [-> E]. apply require_Ok in H as [_ H]. by injection H as <- <-.
Qed.

Lemma PlanPrune_Ok now keep limit w r w' : PlanPruneHistory now keep limit w = (Ok r, w') ->
  r = plan_counts (prune_cutoff now keep) limit (sw_db w) /\ sw_db w' = sw_db w.
Proof. unfold PlanPruneHistory. intros H. apply require_Ok in H as [_ H]. by apply wrap_query_Ok in H. Qed.

Section Answers.
Context {W : Type} `{!OperatorState W} (st : W -> SW) `{!OperatorOver W st} {lib : TextLibrary}.

Lemma valid_config_Ok cfg e w c w' : valid_config (W:=W) cfg e w = (Ok c, w') -> Config_Validate cfg = Ok c /\ w' = w.
Proof. unfold valid_config. destruct (Config_Validate cfg) as [c'|]; [|done]. by intros [= <- <-]. Qed.

Lemma closing w o w' : close_error w = (o, w') -> sw_db (st w') = sw_db (st w).
Proof. intros H. pose proof (leaves_close st w) as E. by rewrite H in E. Qed.

Lemma prune_answer_Ok counts n closeErr (w : W) r w' : prune_answer counts n closeErr w = (Ok r, w') ->
  w' = w /\ counts = Ok (cpr_Counts r) /\ cpr_OwnershipConflicts r = n /\ CliPruneResult_Validate r = None.
Proof.
  unfold prune_answer. destruct counts as [c|?], closeErr as [?|]; try done.
  destruct (CliPruneResult_Validate _) eqn:E; [done|]. by intros [= <- <-].
Qed.

(** A planned pruning counts the rows of the stored database. *)
Lemma prune_planned_Ok d now w r w' : prune_planned d now w = (Ok r, w') ->
  cpr_Counts r = plan_counts (prune_cutoff now (dbc_HistoryRetention d)) (dbc_MaxHistoryEntries d) (sw_db (st w)) /\
  cpr_OwnershipConflicts r = ambiguous_operations (sw_db (st w)).
Proof.
  unfold prune_planned, mtry. pose proof (ov_open_read (st:=st) d w) as Eo. destruct (os_OpenReadOnly d w) as [[u|] w1]; [|done]. cbn in Eo.
  pose proof (ov_ambiguous (st:=st) w1) as Ea. destruct (os_CountAmbiguousOperations w1) as [n w2]. cbn in Ea.
  pose proof (ov_plan (st:=st) now (dbc_HistoryRetention d) (dbc_MaxHistoryEntries d) w2) as Ep.
  destruct (os_PlanPruneHistory _ _ _ w2) as [p w3]. cbn in Ep. intros H. apply mthen_ok in H as (ce & w4 & _ & H).
  destruct n as [n|]; [|done]. apply prune_answer_Ok in H as (_ & -> & -> & _).
  apply CountAmbiguous_Ok in Ea as [-> E2]. apply PlanPrune_Ok in Ep as [-> _]. by rewrite E2, Eo.
Qed.

(** A confirmed pruning counts the same rows; it deletes them if nothing is
    ambiguous, and otherwise deletes nothing. *)
Lemma prune_confirmed_db d now w r w' : prune_confirmed d now w = (r, w') ->
  let cutoff := prune_cutoff now (dbc_HistoryRetention d) in
  let db := sw_db (st w) in
  (ambiguous_operations db <> 0 -> sw_db (st w') = db) /\
  forall a, r = Ok a ->
    cpr_Counts a = plan_counts cutoff (dbc_MaxHistoryEntries d) db /\
    cpr_OwnershipConflicts a = ambiguous_operations db /\
    (ambiguous_operations db = 0 -> exists s1 s2, sw_db s1 = pruned cutoff (dbc_MaxHistoryEntries d) db /\
       setRuntimeTimestamp RuntimeLastPrune now s1 = (Ok tt, s2) /\ sw_db (st w') = sw_db s2).
Proof.
  unfold prune_confirmed. intros H. unfold mthen at 1, asks at 1 in H.
  pose proof (ov_regular (st:=st) (dbc_Path d) w) as Er. destruct (os_regular _ w) as [reg w1]. cbn in Er.
  destruct reg; cbn [negb] in H; [|injection H as <- <-; by rewrite Er].
  unfold mtry at 1 in H. pose proof (ov_open (st:=st) d w1) as Eo. destruct (os_Open d w1) as [[u|] w2]; cbn in Eo;
    [|injection H as <- <-; by rewrite Eo, Er].
  unfold mtry at 1 in H. pose proof (ov_ambiguous (st:=st) w2) as Ea. pose proof (reads_ambiguous _ _ _ Ea) as E2.
  destruct (os_CountAmbiguousOperations w2) as [[n|] w3]; cbn in Ea, E2.
  2: { assert (leaves st (let! _ := close_error in mfail (A:=CliPruneResult) ErrOperatorPrune)) as Hl by leaves.
       specialize (Hl w3). pose proof (Hl : sw_db _ = _) as E3. rewrite H in E3. cbn in E3. split; [by rewrite E3, <- E2, Eo, Er|].
       unfold mthen, close_error, mfail in H. destruct (os_Close w3) as [ce w4]. injection H as <- _. done. }
  apply CountAmbiguous_Ok in Ea as [Hn _]. rewrite Eo, Er in Hn. set (db := sw_db (st w)) in *.
  assert (sw_db (st w3) = db) as E3 by (unfold db; by rewrite <- E2, Eo, Er). clear Eo Er E2.
  assert (0 <= n) as Hpos by (rewrite Hn; unfold ambiguous_operations, count_rows; lia).
  destruct (Z.ltb_spec 0 n).
  - assert (leaves st (let~ counts := os_PlanPruneHistory now (dbc_HistoryRetention d) (dbc_MaxHistoryEntries d) in
      let! closeErr := close_error in prune_answer counts n closeErr)) as Hl by (unfold prune_answer; leaves).
    specialize (Hl w3). rewrite H in Hl. cbn in Hl. split; [by rewrite Hl|]. intros a ->. unfold mtry in H.
    pose proof (ov_plan (st:=st) now (dbc_HistoryRetention d) (dbc_MaxHistoryEntries d) w3) as Ep.
    destruct (os_PlanPruneHistory _ _ _ w3) as [p w4]. cbn in Ep. apply mthen_ok in H as (ce & w5 & _ & H).
    apply prune_answer_Ok in H as (_ & -> & -> & _). apply PlanPrune_Ok in Ep as [-> _]. rewrite E3, Hn. split_and!; [done..|lia].
  - assert (n = 0) as -> by lia. split; [lia|]. intros a ->. unfold mtry in H.
    pose proof (ov_prune (st:=st) now (dbc_HistoryRetention d) (dbc_MaxHistoryEntries d) w3) as Ep.
    destruct (os_PruneHistory _ _ _ w3) as [p w4]. cbn in Ep. apply mthen_ok in H as (ce & w5 & Hc & H).
    apply prune_answer_Ok in H as (-> & -> & -> & _). apply PruneHistory_Ok in Ep as (_ & -> & s1 & s2 & E4 & Hs & E5).
    rewrite E3 in *. split_and!; [done..|]. intros _. exists s1, s2. split_and!; [done..|]. by rewrite (closing _ _ _ Hc).
Qed.

(** C31: the pruning command: it answers with the exact number of rows of every
    table that are past their time, whether it is confirmed or only asked, and
    with the operations whose outcome nobody knows; unconfirmed, or while there
    is such an operation, it leaves every row, also when it fails; confirmed
    otherwise, it leaves the database without exactly the counted rows and records
    the time. *)
Theorem pruneCLI_exact cfg confirmed now w r w' :
  pruneCLIWithOptions cfg confirmed now w = (r, w') ->
  let db := sw_db (st w) in
  (confirmed = false \/ ambiguous_operations db <> 0 -> sw_db (st w') = db) /\
  forall a, r = Ok a -> exists c, Config_Validate cfg = Ok c /\
    let cutoff := prune_cutoff now (dbc_HistoryRetention (cf_Database c)) in
    let limit := dbc_MaxHistoryEntries (cf_Database c) in
    cpr_Counts a = plan_counts cutoff limit db /\ cpr_OwnershipConflicts a = ambiguous_operations db /\
    (confirmed = true -> ambiguous_operations db = 0 -> exists s1 s2, sw_db s1 = pruned cutoff limit db /\
       setRuntimeTimestamp RuntimeLastPrune now s1 = (Ok tt, s2) /\ sw_db (st w') = sw_db s2).
Proof.
  intros H db. unfold pruneCLIWithOptions, mthen, valid_config in H.
  destruct (Config_Validate cfg) as [c|]; [|by injection H as <- <-]. unfold mok in H.
  destruct (_ || _) in H; [by injection H as <- <-|]. destruct confirmed.
  - destruct (prune_confirmed_db _ _ _ _ _ H) as [Hk Ha]. split; [intros [?|?]; [done|by apply Hk]|].
    intros a Hr. exists c. split; [done|]. destruct (Ha a Hr) as (? & ? & ?). by split_and!.
  - pose proof (prune_planned_leaves st (cf_Database c) now w) as Hl. rewrite H in Hl. split; [done|].
    intros a ->. exists c. split; [done|]. apply prune_planned_Ok in H as [? ?]. by split_and!.
Qed.

(** What a status that could be read says. *)
Record status_of (c : Config) (now : Time) (d : DB) (r : CliStatus) : Prop := {
  sto_ready : cst_Ready r = true <-> exists s, timestamp RuntimeLastSafeSync d = Some s /\
    time_Sub now (Unix s) <= sv_ReadinessMaxSyncAge (cf_Server c);
  sto_reason : cst_Reason r = match timestamp RuntimeLastSafeSync d with
    | None => CliSyncPending | Some _ => if cst_Ready r then CliReady else CliSyncStale end;
  sto_safe : cst_LastSafeSync r = default 0 (Unix <$> timestamp RuntimeLastSafeSync d);
  sto_active : cst_ActiveDecisions r =
    Z.of_nat (List.length (decisions_where (fun x _ => bool_decide (dw_status x = DecisionActive)) d));
  sto_last : exists runs s s', sw_db s = d /\ ListSyncRuns 1 s = (Ok runs, s') /\
    (cst_LastOutcome r, cst_LastFailure r) =
      match runs with [run] => (syncOutcome (srr_Status run), srr_Failure run) | _ => (""%string, ""%string) end }.

Lemma timestamp_Ok key w r w' : RuntimeTimestamp key w = (Ok r, w') -> r = Unix <$> timestamp key (sw_db w).
Proof.
  unfold RuntimeTimestamp. intros H. apply require_Ok in H as [_ H].
  apply mthen_ok in H as (raw & w1 & H1 & H). apply wrap_query_Ok in H1 as [-> _].
  unfold timestamp. destruct (runtime_value key (sw_db w)) as [value|]; [|by injection H as <- _].
  unfold lift in H. destruct (parse_seconds value) as [s|e]; [|done]. by injection H as <- _.
Qed.

Lemma status_answer_of c now d rs s s' : sw_db s = d -> ListSyncRuns 1 s = (Ok rs, s') ->
  status_of c now d (status_answer c now (Unix <$> timestamp RuntimeLastSafeSync d) rs
    (decisions_where (fun x _ => bool_decide (dw_status x = DecisionActive)) d)).
Proof.
  intros Hs Hr. unfold status_answer.
  destruct (match rs with [run] => (syncOutcome (srr_Status run), srr_Failure run) | _ => (""%string, ""%string) end)
    as [outcome failure] eqn:Eout.
  assert (exists runs s s', sw_db s = d /\ ListSyncRuns 1 s = (Ok runs, s') /\
    (outcome, failure) = match runs with [run] => (syncOutcome (srr_Status run), srr_Failure run) | _ => (""%string, ""%string) end) as Hlast
    by (exists rs, s, s'; by rewrite Eout).
  clear Eout Hr. destruct (timestamp RuntimeLastSafeSync d) as [t|] eqn:Et; cbn [fmap option_fmap option_map].
  - destruct (Z.ltb_spec (sv_ReadinessMaxSyncAge (cf_Server c)) (time_Sub now (Unix t)));
      (split; [|by rewrite Et|by rewrite Et|done|exact Hlast]); rewrite Et; (split; [|]); cbn; try done.
    + intros (t' & [= <-] & ?). lia.
    + intros _. by exists t.
  - split; [|by rewrite Et|by rewrite Et|done|exact Hlast]. rewrite Et. split; [done|by intros (t & ? & _)].
Qed.

(** The reads of a sound store without faults succeed. *)
Lemma status_reads s : all_ok (sw_db s) -> sw_faults s = [] ->
  (exists t, RuntimeTimestamp RuntimeLastSafeSync s = (Ok t, s)) /\ (exists runs, ListSyncRuns 1 s = (Ok runs, s)) /\
  exists active, ListActiveDecisions s = (Ok active, s).
Proof.
  destruct s as [d f]. cbn. intros Hok ->. split_and!.
  - unfold RuntimeTimestamp, require. cbn [validRuntimeKey one_of existsb String.eqb]. unfold mthen, mok at 1, wrap.
    change (validRuntimeKey RuntimeLastSafeSync) with true. cbn iota. unfold mok at 1. rewrite query_no_fault by done. cbn [sw_db].
    destruct (ro_runtime _ (ao_runs _ Hok) RuntimeLastSafeSync) as [->|[t Ht]]; [by eexists|].
    revert Ht. unfold timestamp. destruct (runtime_value _ d) as [raw|]; [|done]. unfold lift.
    destruct (parse_seconds raw); [by eexists|done].
  - destruct (ListSyncRuns_ok 1 d (ao_runs _ Hok)) as (runs & E & _); [done|eauto].
  - unfold ListActiveDecisions, wrap. rewrite query_no_fault by done. by eexists.
Qed.

(** the status is always answered and changes nothing: it is unavailable, and
    then not ready, or it says what is stored: ready exactly when the last safe
    synchronisation is not older than the configured age, the number of the active
    decisions, and how the last run ended.  With a sound database that opens and
    closes it is never unavailable. *)
Theorem status_exact cfg c now w :
  Config_Validate cfg = Ok c -> time_IsZero now = false ->
  let d := sw_db (st w) in
  let '(a, w') := statusCLIWithOptions cfg now w in
  sw_db (st w') = d /\ exists r, a = Ok r /\
  (r = databaseUnavailableStatus \/ status_of c now d r) /\
  (all_ok d -> (os_OpenReadOnly (cf_Database c) w).1 = Ok tt -> sw_faults (st w) = [] -> (forall v, (os_Close v).1 = None) ->
   status_of c now d r).
Proof.
  intros Hc Hz d. pose proof (status_leaves st cfg now w) as Hl. fold d in Hl.
  destruct (statusCLIWithOptions cfg now w) as [a w'] eqn:H. cbn [snd] in Hl. split; [done|].
  unfold statusCLIWithOptions in H. rewrite Hz in H. unfold valid_config, mthen at 1 in H. rewrite Hc in H. unfold mok at 1, mtry in H.
  pose proof (ov_open_read (st:=st) (cf_Database c) w) as Eo.
  destruct (os_OpenReadOnly (cf_Database c) w) as [[u|e] w1]; cbn [fst snd] in *;
    [destruct u|injection H as <- <-; exists databaseUnavailableStatus; split; [done|]; split; [by left|done]].
  pose proof (ov_timestamp (st:=st) RuntimeLastSafeSync w1) as E1. destruct (os_RuntimeTimestamp _ w1) as [safe w2].
  pose proof (ov_runs (st:=st) 1 w2) as E2. destruct (os_ListSyncRuns 1 w2) as [runs w3].
  pose proof (ov_active (st:=st) w3) as E3. destruct (os_ListActiveDecisions w3) as [active w4]. cbn [fst snd] in *.
  pose proof (reads_timestamp _ _ _ _ E1) as D1. pose proof (reads_runs _ _ _ _ E2) as D2. rewrite Eo in *.
  unfold mthen, close_error in H. destruct (os_Close w4) as [closed w5] eqn:E4.
  assert (forall t rs l, safe = Ok t -> runs = Ok rs -> active = Ok l -> status_of c now d (status_answer c now t rs l)) as Hall.
  { intros t rs l -> -> ->. apply timestamp_Ok in E1 as ->. apply wrap_query_Ok in E3 as [-> _]. rewrite <- D2, <- D1. fold d.
    eapply status_answer_of; [|exact E2]. by rewrite <- D1. }
  assert (a = Ok databaseUnavailableStatus /\ w5 = w' \/ exists t rs l, safe = Ok t /\ runs = Ok rs /\ active = Ok l /\
    a = Ok (status_answer c now t rs l)) as Ha.
  { destruct safe as [t|], runs as [rs|], active as [l|], closed; unfold mok in H; injection H as <- <-; eauto 8. }
  destruct Ha as [[-> _]|(t & rs & l & Et & Er & El & ->)].
  - exists databaseUnavailableStatus. split; [done|]. split; [by left|]. intros Hok _ Hf Hcl. exfalso.
    destruct (status_reads (st w) Hok Hf) as ((t & F1) & (rs & F2) & l & F3).
    rewrite F1 in E1. injection E1 as <- S1. rewrite <- S1, F2 in E2. injection E2 as <- S2. rewrite <- S2, F3 in E3.
    injection E3 as <- _. specialize (Hcl w4). rewrite E4 in Hcl. cbn in Hcl. subst closed. unfold mok in H. injection H as H _.
    unfold status_answer in H. by repeat case_match.
  - exists (status_answer c now t rs l). split; [done|]. split; [right|intros _ _ _ _]; by apply Hall.
Qed.

Lemma validated_cidrs cfg c : Config_Validate cfg = Ok c ->
  (forall p, p ∈ al_CIDRs (cf_Allowlists cfg) -> IsValid p = true -> prefix_wf p) ->
  Forall prefix_wf (al_CIDRs (cf_Allowlists c)).
Proof.
  intros H Hw. unfold Config_Validate in H. steps H. injection H as <-. cbn.
  match goal with E : canonical_cidrs _ _ _ = Ok _ |- _ => apply canonical_cidrs_ok in E as (_ & Hl & Hv) end.
  apply list.Forall_forall. intros p. rewrite sort_func_perm, Hl. intros [(q & -> & Hq)%list_elem_of_fmap _].
  apply Masked_wf, Hw; [done|]. rewrite List.Forall_forall in Hv. by apply Hv, list_elem_of_In.
Qed.

(** the explanation of an address or a range changes nothing and is exact.
    It is about the canonical form of what was asked, under the canonical
    allowlist.  Without a database it says only whether the allowlist has a common
    address with it.  With one, it is desired exactly when its own stored object
    is; allowlisted exactly when it shares an address with an entry or its object
    was withheld for one; the cover shown is the innermost of the desired ranges
    around it; the feeds are those of its object or else of the cover, each once
    and in order; it is owned exactly when a decision covers all of it; and a
    conflict is an uncertain operation on a range that covers it. *)
Theorem explain_exact cfg input w r w' :
  (forall p, p ∈ al_CIDRs (cf_Allowlists cfg) -> IsValid p = true -> prefix_wf p) ->
  db_ok (sw_db (st w)) -> ExplainCLI cfg input w = (Ok r, w') ->
  let d := sw_db (st w) in
  sw_db (st w') = d /\
  exists target kind c, ParseValue input = Ok (target, kind) /\ Config_Validate cfg = Ok c /\
    let cidrs := al_CIDRs (cf_Allowlists c) in
    (r = explain_target target kind cidrs /\
       (xr_Allowlisted r = true <-> exists a, a ∈ cidrs /\ share_address target a)) \/
    exists records operations s s', Forall2 (shows d) (objects_in_order d) records /\
      sw_db s = d /\ OpenOperations s = (Ok operations, s') /\
      explains target cidrs records (decisions_where (fun x _ => bool_decide (dw_status x = DecisionActive)) d) operations r.
Proof.
  intros Hw Hok H d. split; [pose proof (explain_leaves st cfg input w) as E; by rewrite H in E|].
  unfold ExplainCLI in H. destruct (ParseValue input) as [[target kind]|] eqn:Hin; [|done].
  apply mthen_ok in H as (c & w0 & Hc & H). apply valid_config_Ok in Hc as [Hc ->].
  exists target, kind, c. split; [done|]. split; [done|]. pose proof (validated_cidrs _ _ Hc Hw) as Hal.
  pose proof (ParseValue_canonical _ _ _ Hin) as [[Wt _ _] _]. intros cidrs. unfold mtry in H.
  pose proof (ov_open_read (st:=st) (cf_Database c) w) as Eo.
  destruct (os_OpenReadOnly (cf_Database c) w) as [[u|e] w1]; cbn [fst snd] in *.
  2: { apply mthen_ok in H as ([] & w2 & _ & H); [|done]. injection H as <- _. left. split; [done|].
       rewrite <- explainAllowlisted_spec by done. by destruct kind. }
  pose proof (ov_objects (st:=st) w1) as E1. destruct (os_ListEnforcementObjects w1) as [objects w2].
  pose proof (ov_active (st:=st) w2) as E2. destruct (os_ListActiveDecisions w2) as [decisions w3].
  pose proof (ov_operations (st:=st) w3) as E3. destruct (os_OpenOperations w3) as [operations w4]. cbn [fst snd] in *.
  pose proof (reads_objects _ _ _ E1) as D1. pose proof (reads_active _ _ _ E2) as D2. rewrite Eo in *.
  apply mthen_ok in H as (closed & w5 & _ & H).
  destruct objects as [records|], decisions as [ds|], operations as [ops|], closed as [|]; try done.
  apply ListEnforcementObjects_Ok in E1 as [_ Hrec]; [|done]. apply wrap_query_Ok in E2 as [-> _]. rewrite <- D1 in *.
  fold cidrs d in H. fold cidrs in Hal. right. exists records, ops, (st w3), (st w4).
  set (ds := decisions_where _ _) in H. pose proof (explain_stored_spec _ _ _ cidrs records ds ops Hin Hal (listed_ok _ _ Hok Hrec)) as He.
  destruct (explain_stored _ _ _ _ _ _) as [r'|e']; [|done]. injection H as <- _. split_and!; [done|by rewrite <- D2|done|exact He].
Qed.
End Answers.
