(* ===== verification/OperatorExamples.v ===== *)
(** * The operator's commands, evaluated

    A database file over the store of this development, and the commands on the
    stored plan of an example: the theorems of the commands at concrete inputs. *)

From S2P Require Export OperatorStore RuntimeStore.
Import ConfigExamples.

(** ** A database file *)

Record DatabaseFile : Type := MkDatabaseFile { fl_store : SW; fl_exists : bool }.

Definition on_store {A} (m : Store A) : M DatabaseFile error A :=
  fun w => let '(r, s) := m (fl_store w) in (r, MkDatabaseFile s (fl_exists w)).

Definition open_file : M DatabaseFile error unit :=
  fun w => if fl_exists w then (Ok tt, w) else (Err (Foreign "no such file"), w).

#[export] Instance file_operator : OperatorState DatabaseFile := {|
  os_missing _ w := (negb (fl_exists w), w);
  os_regular _ w := (fl_exists w, w);
  os_OpenReadOnly _ := open_file;
  os_Open _ := open_file;
  os_Close w := (None, w);
  os_RuntimeTimestamp key := on_store (RuntimeTimestamp key);
  os_ListSyncRuns n := on_store (ListSyncRuns n);
  os_ListActiveDecisions := on_store ListActiveDecisions;
  os_ListEnforcementObjects := on_store ListEnforcementObjects;
  os_OpenOperations := on_store OpenOperations;
  os_ListFeeds := on_store ListFeeds;
  os_CountAmbiguousOperations := on_store CountAmbiguousOperations;
  os_PlanPruneHistory now keep limit := on_store (PlanPruneHistory now keep limit);
  os_PruneHistory now keep limit := on_store (PruneHistory now keep limit);
  os_SchemaVersion w := (Ok 1, w) |}.

Lemma on_store_runs {A} (m : Store A) w : m (fl_store w) = ((on_store m w).1, fl_store (on_store m w).2).
Proof. unfold on_store. by destruct (m (fl_store w)). Qed.

#[export] Instance file_over : OperatorOver DatabaseFile fl_store.
Proof.
  split; intros; try done; try apply on_store_runs; cbn; unfold open_file; by destruct (fl_exists w).
Qed.

Definition file_of (d : DB) : DatabaseFile := MkDatabaseFile (MkSW d []) true.

Lemma file_sound d : db_ok d -> db_ok (sw_db (fl_store (file_of d))).
Proof. exact id. Qed.
Lemma file_same d d' : d' = sw_db (fl_store (file_of d)) -> d' = d.
Proof. exact id. Qed.

(** ** The stored plan *)

Definition planned : result error (list EnforcementRecord) * SW := ApplyEnforcementPlan ex_plan ex_now (MkSW ex_db []).
Definition planned_records : list EnforcementRecord := match planned.1 with Ok records => records | Err _ => [] end.
Definition planned_db : DB := sw_db planned.2.

Lemma planned_eq : planned = (Ok planned_records, planned.2).
Proof.
  assert (match planned.1 with Ok _ => true | Err _ => false end = true) as E by (by vm_compute).
  unfold planned_records. destruct planned as [[records|e] s]; [done|discriminate].
Qed.

Lemma planned_db_ok : db_ok planned_db.
Proof. apply (ApplyEnforcementPlan_Ok ex_plan ex_now (MkSW ex_db []) planned_records planned.2); [exact ex_db_ok|exact ex_plan_wf|exact planned_eq]. Qed.

(** What an explanation says, in short. *)
Definition explained (a : result error ExplainResult * DatabaseFile) : option (bool * bool * string * list string) :=
  match a.1 with Ok r => Some (xr_Desired r, xr_Covered r, xr_CoveringPrefix r, xr_Contributors r) | Err _ => None end.

(** The host is withheld for the range around it, and says so; text with a space
    is refused. *)
Example explain_space : explained (ExplainCLI ex_config " 8.8.8.8" (file_of planned_db)) = None.
Proof. vm_compute. reflexivity. Qed.

Lemma explain_exact_witness : exists r w', ExplainCLI ex_config "8.8.8.8" (file_of planned_db) = (Ok r, w') /\
  sw_db (fl_store w') = planned_db /\
  (xr_Desired r, xr_Covered r, xr_CoveringPrefix r, xr_Contributors r) = (false, true, "8.8.8.0/24"%string, ["ips"; "ranges"]%string).
Proof.
  set (a := ExplainCLI ex_config "8.8.8.8" (file_of planned_db)).
  assert (explained a = Some (false, true, "8.8.8.0/24"%string, ["ips"; "ranges"]%string)) as E by (vm_compute; reflexivity).
  assert (exists r, a = (Ok r, a.2) /\ (xr_Desired r, xr_Covered r, xr_CoveringPrefix r, xr_Contributors r) =
    (false, true, "8.8.8.0/24"%string, ["ips"; "ranges"]%string)) as (r & H & Hr).
  { clearbody a. destruct a as [[r|e] w']; [|discriminate]. exists r. split; [reflexivity|]. cbn in E. congruence. }
  exists r, a.2. split; [exact H|]. split; [|exact Hr].
  apply file_same. exact (proj1 (explain_exact fl_store ex_config "8.8.8.8" (file_of planned_db) r a.2 ex_config_wf
    (file_sound _ planned_db_ok) H)).
Defined.

(** The withheld host of the plan. *)
Definition ex_host : Object := nth 1 ex_plan (MkObject ZeroPrefix ScopeIP [] no_contributor false SuppressedNone None).

(** Its explanation is what the plan says. *)
Lemma explain_plan_witness : ob_Suppression ex_host = SuppressedCovered /\
  exists r, explain_stored (ob_Prefix ex_host) KindIP ex_allowlist planned_records [] [] = Ok r /\ explains_object planned_db ex_host r.
Proof.
  split; [vm_compute; reflexivity|].
  assert (Forall prefix_wf ex_allowlist) as Hal by (constructor; [|constructor]; apply prefix_wfb_true; by vm_compute).
  assert (ex_host ∈ (BuildDesired ex_candidates ex_allowlist).1) as Hin by (vm_compute; right; left).
  pose proof (explain_plan ex_candidates ex_allowlist ex_now (MkSW ex_db []) planned_records planned.2 ex_host "8.8.8.8" KindIP [] []
    ex_db_ok ex_plan_wf Hal planned_eq Hin eq_refl) as H.
  assert (is_Some (match explain_stored (ob_Prefix ex_host) KindIP ex_allowlist planned_records [] [] with Ok r => Some r | Err _ => None end))
    as [r Hr] by (vm_compute; by eexists).
  destruct (explain_stored _ _ _ _ _ _) as [r'|e]; [|done]. exists r'. split; [reflexivity|exact H].
Defined.

(** ** Pruning and status *)

(** The example of pruning, with an operation whose outcome nobody knows. *)
Definition ex_uncertain : DB :=
  set_operations {[ ex_token := MkOperationRow OperationCreate 1 60 ex_hash OperationAmbiguous 1000 None "" ]} ex_old.

(** The configured retention, and a time past it. *)
Definition ex_later : Time := Unix 1900000000.

Definition pruned_counts (a : result error CliPruneResult * DatabaseFile) : option (PruneResult * Z) :=
  match a.1 with Ok r => Some (cpr_Counts r, cpr_OwnershipConflicts r) | Err _ => None end.

(** Asked and confirmed, the counts are the same; confirmed, the old run is gone. *)
Example prune_asked : pruned_counts (pruneCLIWithOptions ex_config false ex_later (file_of ex_old)) =
  pruned_counts (pruneCLIWithOptions ex_config true ex_later (file_of ex_old)).
Proof. vm_compute. reflexivity. Qed.

Example prune_done : db_runs (sw_db (fl_store (pruneCLIWithOptions ex_config true ex_later (file_of ex_old)).2)) !! 1 = None.
Proof. vm_compute. reflexivity. Qed.

(** Confirmed with a conflict, nothing is deleted. *)
Lemma pruneCLI_exact_witness :
  sw_db (fl_store (pruneCLIWithOptions ex_config true ex_later (file_of ex_uncertain)).2) = ex_uncertain /\
  exists r, (pruneCLIWithOptions ex_config true ex_later (file_of ex_uncertain)).1 = Ok r /\ cpr_OwnershipConflicts r = 1.
Proof.
  destruct (pruneCLI_exact fl_store ex_config true ex_later (file_of ex_uncertain) _ _ (surjective_pairing _)) as [Hk Ha].
  assert (ambiguous_operations ex_uncertain = 1) as Hn by (vm_compute; reflexivity).
  change (sw_db (fl_store (file_of ex_uncertain))) with ex_uncertain in Hk, Ha. rewrite Hn in Hk, Ha. split; [apply Hk; by right|].
  set (a := pruneCLIWithOptions ex_config true ex_later (file_of ex_uncertain)) in *.
  assert (match a.1 with Ok _ => true | Err _ => false end = true) as E by (vm_compute; reflexivity).
  destruct (a.1) as [r|e]; [|discriminate]. exists r. split; [reflexivity|]. destruct (Ha r eq_refl) as (c & _ & _ & H & _). exact H.
Defined.

(** An hour after the last safe synchronisation the status is ready. *)
Lemma status_exact_witness : exists r,
  (statusCLIWithOptions ex_config (ex_boot_at + 5 * Minute) (file_of ex_interrupted)).1 = Ok r /\ cst_Ready r = true.
Proof.
  assert (Config_Validate ex_config = Ok ex_c) as Hc by (vm_compute; reflexivity).
  pose proof (status_exact fl_store ex_config ex_c (ex_boot_at + 5 * Minute) (file_of ex_interrupted) Hc eq_refl) as H.
  destruct (statusCLIWithOptions ex_config (ex_boot_at + 5 * Minute) (file_of ex_interrupted)) as [a w'].
  destruct H as (_ & r & -> & _ & H). exists r. split; [reflexivity|].
  specialize (H ex_interrupted_ok eq_refl eq_refl (fun v => eq_refl)). apply (sto_ready _ _ _ _ H).
  exists 1699996400. split; vm_compute; congruence.
Defined.
