(* ===== verification/Credentials.v ===== *)
(** * The credentials of the local API ([credentials/credentials.go], [errors.go])

    Loading the file with the login and the password: what is checked of the file
    before and after it is opened, of its size, of its fields and of its URL.  The
    file system is the operations of a world, the YAML decoder and the URL parser
    are functions. *)

From S2P Require Export LapiSession Config Fetcher.

Module credentials.
Inductive ErrorCategory : Type := ErrMissing | ErrFileType | ErrPermissions | ErrSize | ErrYAML | ErrFields | ErrURL.
End credentials.

(** [*credentials.Error]: a category and a cause. *)
Record credential_error : Type := CredentialError { ce_Category : credentials.ErrorCategory; ce_cause : option error }.
Definition credentialError (c : credentials.ErrorCategory) (cause : option error) : credential_error := CredentialError c cause.

Definition DefaultMaxBytes : Z := Z.shiftl 64 10.

Record Loader : Type := MkLoader { ld_MaxBytes : Z; ld_StrictPermissions : bool; ld_AllowedHTTPHosts : list string }.

Record rawCredentials : Type := MkRawCredentials { rc_URL : string; rc_Login : string; rc_Password : string }.

(** More of [net/url]: the path and the query of a URL, [JoinPath], which keeps
    the scheme and the host, and the assignment of [Host]; the parser is that of
    [TextLibrary]. *)
Class UrlLibrary {http : HttpLibrary} {lib : TextLibrary} : Type := {
  url_Path : url -> string;
  url_RawQuery : url -> string;
  url_JoinPath : url -> string -> url;
  url_WithHost : url -> string -> url;
  url_Parse_agrees : forall raw, url_parse raw = match url_Parse raw with Ok u => Some (url_fields u) | Err _ => None end;
  url_JoinPath_host : forall u element, u_Scheme (url_fields (url_JoinPath u element)) = u_Scheme (url_fields u) /\
    u_Host (url_fields (url_JoinPath u element)) = u_Host (url_fields u);
  url_WithHost_fields : forall u host, u_Scheme (url_fields (url_WithHost u host)) = u_Scheme (url_fields u) /\
    u_Host (url_fields (url_WithHost u host)) = host }.

(** What the decoder returns after the first document: [io.EOF], or anything else. *)
Inductive yaml_end : Type := YamlEOF | YamlMore (err : option error).

(** [yaml_decode]: the first document of the text as credentials, without other
    keys, and what follows. *)
Class CredentialsCodec : Type := { yaml_decode : string -> result error (rawCredentials * yaml_end) }.

(** [os.FileInfo]: the device and the inode are the identity that [os.SameFile]
    compares. *)
Record FileInfo : Type := MkFileInfo { fi_Regular : bool; fi_Perm : Z; fi_Size : Z; fi_Identity : Z * Z }.

Definition SameFile (a b : FileInfo) : bool := bool_decide (fi_Identity a = fi_Identity b).

(** A handle is a number.  [f_ReadAll h n] is [io.ReadAll(io.LimitReader(file, n))]. *)
Class FileSystem (W : Type) : Type := {
  f_Lstat : string -> M W error FileInfo;
  f_Open : string -> M W error Z;
  f_Stat : Z -> M W error FileInfo;
  f_ReadAll : Z -> Z -> M W error string;
  f_Close : Z -> W -> W }.

(** A guard of the loader. *)
Definition demand {W} (ok : bool) (c : credentials.ErrorCategory) : M W credential_error unit :=
  if ok then mok tt else mfail (credentialError c None).

(** An operation of the file system whose error is the cause. *)
Definition tried {W A} (c : credentials.ErrorCategory) (m : M W error A) : M W credential_error A :=
  fun w => match m w with (Ok a, w') => (Ok a, w') | (Err e, w') => (Err (credentialError c (Some e)), w') end.

Section Load.
Context {http : HttpLibrary} {lib : TextLibrary} {urls : UrlLibrary} {codec : CredentialsCodec} {W : Type} `{!FileSystem W}.
Context (l : Loader).

(** [strings.TrimSuffix(host, ".")] *)
Definition allowed_host (hostname : string) : bool :=
  existsb (fun host => EqualFold (trim_dot host) (trim_dot hostname)) (ld_AllowedHTTPHosts l).

(** The endpoint: its scheme and its path. *)
Definition validateURL (raw : string) : result credential_error (string * string) :=
  match url_Parse raw with
  | Err e => Err (credentialError credentials.ErrURL (Some e))
  | Ok parsed =>
      let u := url_fields parsed in
      if String.eqb (u_Scheme u) "" || String.eqb (u_Hostname u) "" then Err (credentialError credentials.ErrURL None)
      else if u_User u || negb (String.eqb (u_Fragment u) "") || negb (String.eqb (url_RawQuery parsed) "") || has_control (u_Host u)
      then Err (credentialError credentials.ErrURL None)
      else if String.eqb (u_Scheme u) "https" || (String.eqb (u_Scheme u) "http" && allowed_host (u_Hostname u))
      then Ok (u_Scheme u, trim_right "/" (url_Path parsed))
      else Err (credentialError credentials.ErrURL None)
  end.

Definition fields_present (raw : rawCredentials) : bool :=
  negb (String.eqb (trim_space (rc_URL raw)) "" || String.eqb (trim_space (rc_Login raw)) "" || String.eqb (rc_Password raw) "").

Definition fields_bounded (raw : rawCredentials) : bool :=
  negb ((128 <? len (rc_Login raw)) || has_control (rc_Login raw) || (4096 <? len (rc_Password raw)) ||
        contains_byte "000" (rc_Password raw)).

(** What the text of the file says. *)
Definition read_credentials (body : string) : result credential_error Credentials :=
  match yaml_decode body with
  | Err e => Err (credentialError credentials.ErrYAML (Some e))
  | Ok (raw, YamlMore err) => Err (credentialError credentials.ErrYAML err)
  | Ok (raw, YamlEOF) =>
      if negb (fields_present raw) then Err (credentialError credentials.ErrFields None)
      else if negb (fields_bounded raw) then Err (credentialError credentials.ErrFields None)
      else
        let? endpoint := validateURL (rc_URL raw) in
        Ok (MkCredentials (rc_Login raw) (rc_Password raw) endpoint.1 endpoint.2)
  end.

(** From the open file on; [before] is what was known of it by its name. *)
Definition load_open (maxBytes : Z) (before : FileInfo) (file : Z) : M W credential_error Credentials :=
  let! after := tried credentials.ErrFileType (f_Stat file) in
  let! _ := demand (fi_Regular after && SameFile before after) credentials.ErrFileType in
  let! body := tried credentials.ErrYAML (f_ReadAll file (int64_wrap (maxBytes + 1))) in
  let! _ := demand (negb (maxBytes <? len body)) credentials.ErrSize in
  match read_credentials body with Ok c => mok c | Err e => mfail e end.

Definition Load (path : string) : M W credential_error Credentials :=
  let maxBytes := if ld_MaxBytes l <=? 0 then DefaultMaxBytes else ld_MaxBytes l in
  let! before := tried credentials.ErrMissing (f_Lstat path) in
  let! _ := demand (fi_Regular before) credentials.ErrFileType in
  let! _ := demand (negb (ld_StrictPermissions l && negb (Z.land (fi_Perm before) 63 =? 0))) credentials.ErrPermissions in
  let! _ := demand (negb (maxBytes <? fi_Size before)) credentials.ErrSize in
  let! file := tried credentials.ErrMissing (f_Open path) in
  fun w => let '(r, w) := load_open maxBytes before file w in (r, f_Close file w).
End Load.

(** [Destroy]: the bytes of the password are cleared and dropped. *)
Definition Destroy (c : Credentials) : Credentials := MkCredentials (cd_Login c) "" (cd_Scheme c) (cd_BasePath c).

(** [String] and [GoString]: nothing of the values is printed. *)
Definition credentials_String (c : Credentials) : string := "CrowdSec credentials [REDACTED]".
Definition credentials_GoString (c : Credentials) : string := "credentials.Credentials{[REDACTED]}".

(** ** What loading the credentials checks

    The file system with a log of what is done to it: which file is read, when it
    is closed, and what the credentials that are returned satisfy. *)

Inductive file_act : Type :=
| ActLstat (path : string) (r : result error FileInfo)
| ActOpen (path : string) (r : result error Z)
| ActStat (file : Z) (r : result error FileInfo)
| ActRead (file limit : Z) (r : result error string)
| ActClose (file : Z).

#[export] Instance files_logged {W} `{!FileSystem W} : FileSystem (W * list file_act) := {|
  f_Lstat path wl := let '(r, w) := f_Lstat path wl.1 in (r, (w, wl.2 ++ [ActLstat path r]));
  f_Open path wl := let '(r, w) := f_Open path wl.1 in (r, (w, wl.2 ++ [ActOpen path r]));
  f_Stat h wl := let '(r, w) := f_Stat h wl.1 in (r, (w, wl.2 ++ [ActStat h r]));
  f_ReadAll h n wl := let '(r, w) := f_ReadAll h n wl.1 in (r, (w, wl.2 ++ [ActRead h n r]));
  f_Close h wl := (f_Close h wl.1, wl.2 ++ [ActClose h]) |}.

Section Checked.
Context {http : HttpLibrary} {lib : TextLibrary} {urls : UrlLibrary} {codec : CredentialsCodec}.

(** What is known of credentials that were returned. *)
Record usable (l : Loader) (c : Credentials) : Prop := {
  us_login : cd_Login c <> ""%string /\ len (cd_Login c) <= 128 /\ has_control (cd_Login c) = false;
  us_password : cd_Password c <> ""%string /\ len (cd_Password c) <= 4096 /\ contains_byte "000" (cd_Password c) = false;
  us_endpoint : exists raw u, url_Parse raw = Ok u /\ cd_Scheme c = u_Scheme (url_fields u) /\ cd_BasePath c = trim_right "/" (url_Path u) /\
    u_User (url_fields u) = false /\ url_RawQuery u = ""%string /\ u_Hostname (url_fields u) <> ""%string /\
    (cd_Scheme c = "https"%string \/ cd_Scheme c = "http"%string /\ allowed_host l (u_Hostname (url_fields u)) = true) }.

Lemma read_credentials_usable l body c : read_credentials l body = Ok c -> usable l c.
Proof.
  unfold read_credentials. destruct (yaml_decode body) as [[raw [|]]|]; [|done..].
  destruct (fields_present raw) eqn:Hp; [|done]. destruct (fields_bounded raw) eqn:Hb; [|done]. cbn [negb].
  destruct (validateURL l (rc_URL raw)) as [[scheme path]|] eqn:Hu; [|done]. cbn [rbind fst snd]. intros [= <-].
  unfold fields_present, fields_bounded in *. to_prop. split; cbn.
  - split_and!; [|lia|done]. intros E. rewrite E in *. done.
  - split_and!; [by apply String.eqb_neq|lia|done].
  - unfold validateURL in Hu. destruct (url_Parse (rc_URL raw)) as [u|] eqn:Eu; [|done]. exists (rc_URL raw), u.
    destruct (_ || _) eqn:E1 in Hu; [done|]. destruct (_ || _) eqn:E2 in Hu; [done|]. destruct (_ || _) eqn:E3 in Hu; [|done].
    injection Hu as <- <-. to_prop. split_and!; try done; [by apply String.eqb_eq|by apply String.eqb_neq|].
    apply orb_prop in E3 as [E3|[E3 ?]%andb_prop]; [left|right]; [by apply String.eqb_eq|split; [by apply String.eqb_eq|done]].
Qed.

Context {W : Type} `{!FileSystem W}.

Definition limit_of (l : Loader) : Z := if ld_MaxBytes l <=? 0 then DefaultMaxBytes else ld_MaxBytes l.

(** What the name of the file must lead to before the file is opened. *)
Definition acceptable (l : Loader) (before : FileInfo) : Prop :=
  fi_Regular before = true /\ (ld_StrictPermissions l = true -> Z.land (fi_Perm before) 63 = 0) /\ fi_Size before <= limit_of l.

(** What is done with the open file, and what comes of it. *)
Inductive read_file (l : Loader) (before : FileInfo) (file : Z) : list file_act -> result credential_error Credentials -> Prop :=
| stat_fails e : read_file l before file [ActStat file (Err e)] (Err (credentialError credentials.ErrFileType (Some e)))
| another_file after : fi_Regular after && SameFile before after = false ->
    read_file l before file [ActStat file (Ok after)] (Err (credentialError credentials.ErrFileType None))
| read_fails after e : fi_Regular after = true -> fi_Identity before = fi_Identity after ->
    read_file l before file [ActStat file (Ok after); ActRead file (int64_wrap (limit_of l + 1)) (Err e)]
      (Err (credentialError credentials.ErrYAML (Some e)))
| read_too_long after body : fi_Regular after = true -> fi_Identity before = fi_Identity after -> limit_of l < len body ->
    read_file l before file [ActStat file (Ok after); ActRead file (int64_wrap (limit_of l + 1)) (Ok body)]
      (Err (credentialError credentials.ErrSize None))
| file_read after body : fi_Regular after = true -> fi_Identity before = fi_Identity after -> len body <= limit_of l ->
    read_file l before file [ActStat file (Ok after); ActRead file (int64_wrap (limit_of l + 1)) (Ok body)] (read_credentials l body).

(** A whole call. *)
Inductive load_trace (l : Loader) (path : string) : list file_act -> result credential_error Credentials -> Prop :=
| no_file e : load_trace l path [ActLstat path (Err e)] (Err (credentialError credentials.ErrMissing (Some e)))
| refused_file before c : ~ acceptable l before -> In c [credentials.ErrFileType; credentials.ErrPermissions; credentials.ErrSize] ->
    load_trace l path [ActLstat path (Ok before)] (Err (credentialError c None))
| unopened before e : acceptable l before ->
    load_trace l path [ActLstat path (Ok before); ActOpen path (Err e)] (Err (credentialError credentials.ErrMissing (Some e)))
| opened before file acts r : acceptable l before -> read_file l before file acts r ->
    load_trace l path (ActLstat path (Ok before) :: ActOpen path (Ok file) :: acts ++ [ActClose file]) r.

Lemma load_open_trace l before file (w : W) acts0 :
  let '(r, (_, acts)) := load_open l (limit_of l) before file (w, acts0) in
  exists acts', acts = acts0 ++ acts' /\ read_file l before file acts' r.
Proof.
  unfold load_open, mthen, tried, demand. cbn [f_Stat files_logged fst snd].
  destruct (f_Stat file w) as [[after|e] w1]; [|eexists; split; [done|constructor]].
  destruct (fi_Regular after && SameFile before after) eqn:Hs; cbn [mok mfail];
    [|unfold mfail; eexists; split; [done|by constructor]].
  apply andb_prop in Hs as [Hr Hs%bool_decide_eq_true]. unfold mok. cbn [f_ReadAll files_logged fst snd].
  destruct (f_ReadAll file (int64_wrap (limit_of l + 1)) w1) as [[body|e] w2]; [|rewrite <- app_assoc; eexists; split; [done|by constructor]].
  destruct (Z.ltb_spec (limit_of l) (len body)); cbn [negb]; unfold mfail; rewrite <- app_assoc;
    [eexists; split; [done|by constructor]|].
  pose proof (file_read l before file after body Hr Hs ltac:(lia)) as Hf.
  destruct (read_credentials l body) as [c|e]; eexists; (split; [done|exact Hf]).
Qed.

(** C35: loading the credentials.  The file is opened only if its name leads to a
    regular file that, where permissions are strict, nobody else can reach, and
    that is not too large; what is read is that same file, never more than a byte
    past the limit; it is closed exactly once, at the end, whatever happens in
    between; and credentials come only from a text that was read whole, with a
    login that has no control characters, a password, and an endpoint over
    HTTPS, or over HTTP on a host that is allowed. *)
Theorem Load_checked l path (w : W) :
  let '(r, (_, acts)) := Load l path (w, []) in
  load_trace l path acts r /\ (forall c, r = Ok c -> usable l c).
Proof.
  assert (forall acts r, load_trace l path acts r -> forall c, r = Ok c -> usable l c) as Hu.
  { intros acts r [| | |before file acts' r' _ Hr]; try done. intros c ->.
    inversion Hr as [| | | |after body ? ? ? E1 E2]; subst. by eapply read_credentials_usable. }
  enough (let '(r, (_, acts)) := Load l path (w, []) in load_trace l path acts r) as H.
  { destruct (Load l path (w, [])) as [r [w' acts]]. split; [done|]. by eapply Hu. }
  unfold Load. fold (limit_of l). unfold mthen, tried, demand. cbn [f_Lstat files_logged fst snd].
  destruct (f_Lstat path w) as [[before|e] w1]; [|constructor].
  destruct (fi_Regular before) eqn:E1; unfold mok, mfail; [|constructor; [unfold acceptable; by rewrite E1; intros (? & _)|cbn; tauto]].
  destruct (ld_StrictPermissions l && negb (Z.land (fi_Perm before) 63 =? 0)) eqn:E2; cbn [negb].
  { constructor; [|cbn; tauto]. apply andb_prop in E2 as [E2 E3]. apply negb_true_iff, Z.eqb_neq in E3. by intros (_ & H & _); apply E3, H. }
  destruct (Z.ltb_spec (limit_of l) (fi_Size before)); cbn [negb]; [constructor; [|cbn; tauto]; intros (_ & _ & ?); lia|].
  assert (acceptable l before) as Ha.
  { split_and!; [done| |lia]. intros Hs. rewrite Hs in E2. cbn in E2. apply negb_false_iff, Z.eqb_eq in E2. done. }
  cbn [f_Open files_logged fst snd]. destruct (f_Open path w1) as [[file|e] w2]; [|by constructor].
  pose proof (load_open_trace l before file w2 ([] ++ [ActLstat path (Ok before)] ++ [ActOpen path (Ok file)])) as Ht.
  rewrite app_assoc in Ht.
  destruct (load_open l (limit_of l) before file _) as [r [w3 acts]]. destruct Ht as (acts' & -> & Hr). cbn [f_Close files_logged fst snd].
  rewrite <- !app_assoc. cbn [app]. by constructor.
Qed.
End Checked.
