(* ===== verification/NotifyTransport.v ===== *)
(** * The transport of the notifications ([notify/transport.go])

    What is accepted as its settings, the request of a notice, and where the
    redirects of the server may lead.  Round trips are the operation of a world;
    the loop of [http.Client] is here, since the policy is a callback of it. *)

From S2P Require Export Notify Credentials.

Definition ErrInvalidTransport : error := Foreign "invalid notification transport".
Definition ErrTransport : error := Foreign "notification transport failure".
Definition ErrResponse : error := Foreign "notification response failure".

Record HTTPOptions : Type := MkHTTPOptions {
  ho_ServerURL : string; ho_Topic : string; ho_Token : string; ho_Timeout : Duration; ho_AllowHTTP : bool }.

(** [IsSet]: a token is set when it is not empty. *)
Definition validToken (token : string) : bool :=
  if String.eqb token "" then true
  else (len token <=? 4096) && negb (contains_any ["013"; "010"; "000"]%char token).

Section Transport.
Context {http : HttpLibrary} {lib : TextLibrary} {urls : UrlLibrary}.

Record HTTPTransport : Type := MkHTTPTransport { ht_endpoint : url; ht_token : string; ht_timeout : Duration }.

Definition NewHTTPTransport (o : HTTPOptions) : result error HTTPTransport :=
  if (len (ho_ServerURL o) =? 0) || (2048 <? len (ho_ServerURL o)) || negb (topicPattern (ho_Topic o)) ||
     (ho_Timeout o <=? 0) || (2 * Minute <? ho_Timeout o) || negb (validToken (ho_Token o))
  then Err ErrInvalidTransport
  else match url_Parse (ho_ServerURL o) with
       | Err _ => Err ErrInvalidTransport
       | Ok parsed =>
           let u := url_fields parsed in
           if String.eqb (u_Scheme u) "" || String.eqb (u_Hostname u) "" || u_User u ||
              negb (String.eqb (url_RawQuery parsed) "") || negb (String.eqb (u_Fragment u) "") ||
              contains_any ["013"; "010"; "000"]%char (u_Host u)
           then Err ErrInvalidTransport
           else if negb (String.eqb (u_Scheme u) "https") && (negb (String.eqb (u_Scheme u) "http") || negb (ho_AllowHTTP o))
           then Err ErrInvalidTransport
           else Ok (MkHTTPTransport (url_JoinPath parsed (ho_Topic o)) (ho_Token o) (ho_Timeout o))
       end.

Record PostRequest : Type := MkPostRequest { po_Method : string; po_URL : url; po_Header : Header; po_Body : string }.

Definition scheme_host (u : url) : string * string := (u_Scheme (url_fields u), u_Host (url_fields u)).

(** [CheckRedirect]; [via] is the requests so far, the oldest first. *)
Definition check_redirect (request : PostRequest) (via : list PostRequest) : option error :=
  match via with
  | [] => Some ErrTransport
  | first :: _ =>
      if (3 <=? Z.of_nat (List.length via)) ||
         negb (String.eqb (u_Scheme (url_fields (po_URL request))) (u_Scheme (url_fields (po_URL first)))) ||
         negb (String.eqb (u_Host (url_fields (po_URL request))) (u_Host (url_fields (po_URL first))))
      then Some ErrTransport else None
  end.

(** A round trip, and what [http.Client] makes of a redirect: the method, the
    header and the body of the next request are the library's, its URL is the one
    of the redirect. *)
Class PostNet (W : Type) : Type := {
  p_RoundTrip : PostRequest -> M W error HttpResponse;
  p_Redirected : PostRequest -> PostRequest -> Z -> url -> PostRequest;
  p_Redirected_URL : forall first previous status u, po_URL (p_Redirected first previous status u) = u }.

Section Send.
Context {W : Type} `{!PostNet W}.

Fixpoint post_turns (turns : nat) (first : PostRequest) (via : list PostRequest) (request : PostRequest)
  : M W error HttpResponse :=
  match turns with
  | O => mfail errTurns
  | S turns =>
      let! response := p_RoundTrip request in
      let location := header_Get (hp_Header response) "Location" in
      if negb (is_redirect (hp_Status response)) || String.eqb location "" then mok response
      else match url_Resolve (po_URL request) location with
           | None => mfail errLocation
           | Some u =>
               let next := p_Redirected first request (hp_Status response) u in
               let via := via ++ [request] in
               match check_redirect next via with
               | Some e => mfail e
               | None => post_turns turns first via next
               end
           end
  end.

(** [Client.Do]; its loop has no end of its own: [turns] is how long it is
    followed, and any number from three on gives the same ([post_turns_enough]). *)
Definition post_Do (turns : nat) (request : PostRequest) : M W error HttpResponse := post_turns turns request [] request.

Definition notice_request (t : HTTPTransport) (u : url) (r : renderedNotice) : PostRequest :=
  let header := [("Content-Type", "text/plain; charset=utf-8"); ("Title", rn_title r); ("Priority", rn_priority r);
                 ("Tags", rn_tags r)]%string in
  MkPostRequest "POST" u (if String.eqb (ht_token t) "" then header
                          else header_Set header "Authorization" ("Bearer " +:+ ht_token t)) (rn_body r).

(** [http.NewRequestWithContext] drops the colon of an empty port from the host. *)
Definition hasPort (host : string) : bool :=
  match cut_last_byte ":" host with Some (_, port) => negb (contains_byte "]" port) | None => false end.
Definition removeEmptyPort (host : string) : string := if hasPort host && ends_with ":" host then drop_last host else host.
Definition request_url (u : url) : url := url_WithHost u (removeEmptyPort (u_Host (url_fields u))).

(** Up to 4 KiB of the body of the response are read and dropped. *)
Definition Send (turns : nat) (t : HTTPTransport) (n : Notice) : M W error unit :=
  match renderNotice n with
  | Err _ => mfail ErrInvalidNotice
  | Ok rendered =>
      match url_Parse (url_String (ht_endpoint t)) with
      | Err _ => mfail ErrTransport
      | Ok u =>
          let~ r := post_Do turns (notice_request t (request_url u) rendered) in
          match r with
          | Err _ => mfail ErrTransport
          | Ok response =>
              if (hp_Status response <? 200) || (300 <=? hp_Status response) then mfail ErrResponse else mok tt
          end
      end
  end.
End Send.

(** ** Where a notice goes *)

Lemma check_redirect_None next via : check_redirect next via = None ->
  exists first rest, via = first :: rest /\ (List.length via < 3)%nat /\ scheme_host (po_URL next) = scheme_host (po_URL first).
Proof.
  unfold check_redirect. destruct via as [|first rest]; [done|]. destruct (_ || _) eqn:E; [done|]. intros _. to_prop.
  exists first, rest. split_and!; [done|lia|]. unfold scheme_host.
  repeat match goal with H : String.eqb _ _ = true |- _ => apply String.eqb_eq in H; rewrite H end. done.
Qed.

Section Enough.
Context {W : Type} `{!PostNet W}.

(** Three turns are enough: the policy refuses a third redirect. *)
Lemma post_turns_enough : forall turns turns' first via request (w : W),
  (3 <= List.length via + turns)%nat -> (3 <= List.length via + turns')%nat -> (List.length via < 3)%nat ->
  post_turns turns first via request w = post_turns turns' first via request w.
Proof.
  induction turns as [|turns IH]; intros [|turns'] first via request w Ht Ht' Hl; [lia..|]. cbn [post_turns]. unfold mthen.
  destruct (p_RoundTrip request w) as [[response|e] w1]; [|done]. destruct (_ || _); [done|].
  destruct (url_Resolve _ _) as [u|]; [|done]. destruct (check_redirect _ _) eqn:Hc; [done|].
  apply check_redirect_None in Hc as (? & ? & _ & Hlen & _). apply IH; rewrite length_app in *; cbn in *; lia.
Qed.
End Enough.

(** Every round trip, with its result. *)
#[export] Instance post_logged {W} `{!PostNet W} : PostNet (W * list (PostRequest * result error HttpResponse)) := {|
  p_RoundTrip q wl := let '(r, w) := p_RoundTrip q wl.1 in (r, (w, wl.2 ++ [(q, r)]));
  p_Redirected := p_Redirected (W:=W);
  p_Redirected_URL := p_Redirected_URL (W:=W) |}.

Section Where.
Context {W : Type} `{!PostNet W}.

Lemma post_turns_stays turns first : forall via request (w : W) (acts0 : list (PostRequest * result error HttpResponse)),
  (forall q, q ∈ via -> scheme_host (po_URL q) = scheme_host (po_URL first)) ->
  scheme_host (po_URL request) = scheme_host (po_URL first) ->
  (via <> [] -> exists rest, via = first :: rest) -> (via = [] -> request = first) -> (List.length via < 3)%nat ->
  let '(r, (_, acts)) := post_turns turns first via request (w, acts0) in
  exists new, acts = acts0 ++ new /\ (List.length via + List.length new <= 3)%nat /\
    (forall q, q ∈ new.*1 -> scheme_host (po_URL q) = scheme_host (po_URL first)) /\
    (turns <> O -> exists rest, new.*1 = request :: rest) /\
    (forall response, r = Ok response -> exists q, list.last new = Some (q, Ok response)).
Proof.
  induction turns as [|turns IH]; intros via request w acts0 Hv Hr Hf Hfirst Hl; cbn [post_turns].
  { exists []. rewrite app_nil_r. split_and!; [done|cbn; lia|by intros q Hq%elem_of_nil|done|done]. }
  unfold mthen. cbn [p_RoundTrip post_logged fst snd]. destruct (p_RoundTrip request w) as [[response|e] w1]; cbn iota.
  2: { exists [(request, Err e)]. split_and!; [done|cbn; lia| |by exists []|done]. by intros q [->|?%elem_of_nil]%elem_of_cons. }
  set (l1 := [(request, Ok response)]).
  assert (exists new, acts0 ++ l1 = acts0 ++ new /\ (List.length via + List.length new <= 3)%nat /\
    (forall q, q ∈ new.*1 -> scheme_host (po_URL q) = scheme_host (po_URL first)) /\ (S turns <> O -> exists rest, new.*1 = request :: rest) /\
    exists q, list.last new = Some (q, Ok response)) as Hone.
  { exists l1. split_and!; [done|cbn; lia| |by exists []|by exists request]. by intros q [->|?%elem_of_nil]%elem_of_cons. }
  destruct (_ || _); [destruct Hone as (new & ? & ? & ? & ? & ?); exists new; split_and!; try done; by intros ? [= <-]|].
  destruct (url_Resolve _ _) as [u|]; [|destruct Hone as (new & ? & ? & ? & ? & ?); exists new; by split_and!].
  destruct (check_redirect _ _) eqn:Hc; [destruct Hone as (new & ? & ? & ? & ? & ?); exists new; by split_and!|]. clear Hone.
  apply check_redirect_None in Hc as (first' & rest & Ev & Hlen & Hs).
  assert (first' = first) as ->.
  { destruct via as [|x via]; [injection Ev as <- <-; by apply Hfirst|]. destruct Hf as [rest' E]; [done|]. injection E as -> _. by injection Ev as <- _. }
  set (next := p_Redirected first request _ u) in *.
  specialize (IH (via ++ [request]) next w1 (acts0 ++ l1)). destruct (post_turns turns first (via ++ [request]) next _) as [r [w2 acts]].
  destruct IH as (new & -> & Hn & Hq & Hnext & Hlast).
  - intros q [?|[->|?%elem_of_nil]%elem_of_cons]%elem_of_app; auto; done.
  - done.
  - intros _. by exists rest.
  - by destruct via.
  - done.
  - exists (l1 ++ new). rewrite app_assoc. rewrite length_app in Hn. cbn in Hn. split_and!; [done|cbn; lia| |by eexists|].
    + intros q [->|?]%elem_of_cons; auto.
    + intros resp Hresp. destruct (Hlast resp Hresp) as [q El]. exists q. by rewrite list.last_app, El.
Qed.

(** C27: a notice goes only where it is meant to: however long the client follows
    redirects, it is sent at most three times and what comes of it does not depend
    on how long; the first time to the configured endpoint, with its title, its
    body and the token if there is one, and after that only where a redirect leads
    on the same scheme and the same host, those of the endpoint; an invalid notice
    is not sent at all; and sending succeeds only when the last answer is a
    success. *)
Theorem Send_stays more t n (w : W) :
  Send (3 + more) t n (w, []) = Send 3 t n (w, []) /\
  let '(r, (_, acts)) := Send (3 + more) t n (w, []) in
  (acts = [] /\ r <> Ok tt) \/
  exists u rendered rest, url_Parse (url_String (ht_endpoint t)) = Ok u /\ renderNotice n = Ok rendered /\
    acts.*1 = notice_request t (request_url u) rendered :: rest /\ (List.length acts <= 3)%nat /\
    Forall (fun q => scheme_host (po_URL q) = (u_Scheme (url_fields u), removeEmptyPort (u_Host (url_fields u)))) acts.*1 /\
    (r = Ok tt -> exists q response, list.last acts = Some (q, Ok response) /\ 200 <= hp_Status response < 300).
Proof.
  split.
  { unfold Send. destruct (renderNotice n); [|done]. destruct (url_Parse _); [|done]. unfold mtry, post_Do.
    by rewrite (post_turns_enough (3 + more) 3) by (cbn; lia). }
  unfold Send. destruct (renderNotice n) as [rendered|] eqn:En; [|by left].
  destruct (url_Parse (url_String (ht_endpoint t))) as [u|] eqn:Eu; [|by left].
  unfold mtry, post_Do. set (q0 := notice_request t (request_url u) rendered).
  pose proof (post_turns_stays (3 + more) q0 [] q0 w []) as H. destruct (post_turns (3 + more) q0 [] q0 (w, [])) as [r [w' acts]].
  destruct H as (new & -> & Hlen & Hall & Hfirst & Hlast); [by intros q ?%elem_of_nil|done|done|done|cbn; lia|].
  destruct Hfirst as [rest Hrest]; [done|]. cbn [app List.length] in *.
  assert (scheme_host (po_URL q0) = (u_Scheme (url_fields u), removeEmptyPort (u_Host (url_fields u)))) as Ehost.
  { unfold q0, notice_request, request_url, scheme_host. cbn [po_URL]. by destruct (url_WithHost_fields u (removeEmptyPort (u_Host (url_fields u)))) as [-> ->]. }
  assert (forall r' : result error unit, (r' = Ok tt -> exists q response, list.last new = Some (q, Ok response) /\ 200 <= hp_Status response < 300) ->
    exists u' rendered' rest', Ok (E:=error) u = Ok u' /\ Ok (E:=error) rendered = Ok rendered' /\
    new.*1 = notice_request t (request_url u') rendered' :: rest' /\ (List.length new <= 3)%nat /\
    Forall (fun q => scheme_host (po_URL q) = (u_Scheme (url_fields u'), removeEmptyPort (u_Host (url_fields u')))) new.*1 /\
    (r' = Ok tt -> exists q response, list.last new = Some (q, Ok response) /\ 200 <= hp_Status response < 300)) as Hgoal.
  { intros r' Hr'. exists u, rendered, rest. split_and!; [done..| |done]. rewrite <- Ehost. apply list.Forall_forall. exact Hall. }
  destruct r as [response|e]; [|right; by apply Hgoal].
  destruct ((hp_Status response <? 200) || _) eqn:Es; right; apply Hgoal; [done|]. intros _.
  destruct (Hlast response eq_refl) as [q Hq]. exists q, response. split; [done|]. to_prop. lia.
Qed.
End Where.

(** What is known of an accepted transport. *)
Lemma NewHTTPTransport_Ok o t : NewHTTPTransport o = Ok t ->
  exists u, url_Parse (ho_ServerURL o) = Ok u /\ ht_endpoint t = url_JoinPath u (ho_Topic o) /\ ht_token t = ho_Token o /\
    scheme_host (ht_endpoint t) = scheme_host u /\
    (u_Scheme (url_fields u) = "https"%string \/ u_Scheme (url_fields u) = "http"%string /\ ho_AllowHTTP o = true).
Proof.
  unfold NewHTTPTransport. destruct (_ || _) in |- *; [done|]. destruct (url_Parse (ho_ServerURL o)) as [u|]; [|done].
  destruct (_ || _) in |- *; [done|]. destruct (negb _ && _) eqn:E in |- *; [done|]. intros [= <-]. exists u. cbn.
  split_and!; [done..| |].
  - unfold scheme_host. destruct (url_JoinPath_host u (ho_Topic o)) as [-> ->]. done.
  - apply andb_false_iff in E as [E|E]; [left|right].
    + by apply negb_false_iff, String.eqb_eq in E.
    + apply orb_false_iff in E as [E1 E2]. apply negb_false_iff, String.eqb_eq in E1. by apply negb_false_iff in E2.
Qed.
End Transport.
