(* ===== verification/HealthServer.v ===== *)
(** * The HTTP server of the service ([health/handler.go], [health/server.go])

    What it answers about the service, and its life: [Serve] and [Shutdown] may
    be called from any number of goroutines, so the server is a step relation
    over threads, with the atomic flag and the [sync.Once] of the code. *)

From S2P Require Export Readiness Metrics MetricsText.

(** ** Answers *)

Definition Status_text (s : health_Status) : string :=
  match s with StatusReady => "ready" | StatusNotReady => "not_ready" end.

Definition Reason_text (r : Reason) : string :=
  match r with
  | ReasonReady => "ready" | ReasonConfigurationPending => "configuration_pending"
  | ReasonConfigurationInvalid => "configuration_invalid" | ReasonCredentialsPending => "credentials_pending"
  | ReasonCredentialsUnavailable => "credentials_unavailable" | ReasonDatabasePending => "database_pending"
  | ReasonDatabaseUnavailable => "database_unavailable" | ReasonLAPIPending => "lapi_pending"
  | ReasonLAPIUnavailable => "lapi_unavailable" | ReasonSyncPending => "sync_pending"
  | ReasonSyncStale => "sync_stale" | ReasonRuntimeFatal => "runtime_fatal" | ReasonStopping => "stopping"
  end.

Definition Component_text (c : Component) : string :=
  match c with
  | ComponentPending => "pending" | ComponentValid => "valid" | ComponentInvalid => "invalid"
  | ComponentLoaded => "loaded" | ComponentAvailable => "available" | ComponentUnavailable => "unavailable"
  | ComponentGrace => "grace" | ComponentCurrent => "current" | ComponentStale => "stale"
  | ComponentRunning => "running" | ComponentFatal => "fatal" | ComponentStopping => "stopping"
  end.

(** [json.Encoder] on a struct of strings that need no escape. *)
Definition json_string (s : string) : string := quote +:+ s +:+ quote.
Definition json_field (f : string * string) : string := json_string f.1 +:+ ":" +:+ json_string f.2.
Definition json_object (fs : list (string * string)) : string :=
  "{" +:+ String.concat "," (map json_field fs) +:+ "}" +:+ newline.

(** The names and the order of the tags of [Response]. *)
Definition Response_fields (r : health_Response) : list (string * string) :=
  [("status", Status_text (hr_Status r)); ("reason", Reason_text (hr_Reason r));
   ("configuration", Component_text (hr_Configuration r)); ("credentials", Component_text (hr_Credentials r));
   ("database", Component_text (hr_Database r)); ("lapi", Component_text (hr_LAPI r));
   ("synchronization", Component_text (hr_Synchronization r)); ("runtime", Component_text (hr_Runtime r))]%string.

Definition healthResponse : list (string * string) := [("status", "alive")]%string.

Definition JSONHeaders : list (string * string) :=
  [("Content-Type", "application/json; charset=utf-8"); ("Cache-Control", "no-store");
   ("X-Content-Type-Options", "nosniff")]%string.

Definition methodAllowed (method : string) : bool := String.eqb method "GET" || String.eqb method "HEAD".

(** The answer to any other method, by [http.Error]. *)
Definition method_not_allowed : HttpAnswer :=
  MkHttpAnswer 405 [("Allow", "GET, HEAD"); ("Content-Type", "text/plain; charset=utf-8");
                    ("X-Content-Type-Options", "nosniff")]%string ("method not allowed" +:+ newline).

Definition health_writeJSON (method : string) (status : Z) (value : list (string * string)) : HttpAnswer :=
  MkHttpAnswer status JSONHeaders (if String.eqb method "HEAD" then ""%string else json_object value).

Definition healthz (method : string) : HttpAnswer :=
  if negb (methodAllowed method) then method_not_allowed else health_writeJSON method 200 healthResponse.

Definition readyz (method : string) (now : Time) (t : Tracker) : HttpAnswer :=
  if negb (methodAllowed method) then method_not_allowed
  else let state := Snapshot_at now t in health_writeJSON method (readyz_status state) (Response_fields state).

(** The routes; a path that is none of them is answered by [http.ServeMux]. *)
Definition handle {text : FloatText} (method path : string) (now : Time) (t : Tracker) (g : Registry) : option HttpAnswer :=
  if String.eqb path "/healthz" then Some (healthz method)
  else if String.eqb path "/readyz" then Some (readyz method now t)
  else if String.eqb path "/metrics" then Some (metrics_ServeHTTP method g)
  else None.

(** ** The server *)

Record ServerOptions : Type := MkServerOptions {
  so_ReadHeaderTimeout : Duration; so_ReadTimeout : Duration; so_WriteTimeout : Duration; so_IdleTimeout : Duration;
  so_ShutdownTimeout : Duration }.

Definition validServerTimeout (value : Duration) : bool := (0 <? value) && (value <=? 10 * Minute).

(** The handler is not nil. *)
Definition NewServer (o : ServerOptions) : result error ServerOptions :=
  if negb (validServerTimeout (so_ReadHeaderTimeout o)) || negb (validServerTimeout (so_ReadTimeout o)) ||
     negb (validServerTimeout (so_WriteTimeout o)) || negb (validServerTimeout (so_IdleTimeout o)) ||
     negb (validServerTimeout (so_ShutdownTimeout o))
  then Err health_ErrInvalidOptions else Ok o.

Definition ErrAlreadyServing : error := Foreign "HTTP server already serving".
Definition ErrServe : error := Foreign "HTTP server failure".
Definition ErrShutdown : error := Foreign "HTTP shutdown failure".
Definition ErrShutdownTimeout : error := Foreign "HTTP shutdown timeout".

(** How the calls of [http.Server] end. *)
Inductive http_serve_end : Type := HttpServeNil | HttpServeClosed | HttpServeFailed.
Inductive http_shutdown_end : Type := HttpShutdownNil | HttpShutdownDeadline | HttpShutdownFailed.

Definition serve_result (r : http_serve_end) : option error :=
  match r with HttpServeFailed => Some ErrServe | _ => None end.
Definition shutdown_result (r : http_shutdown_end) : option error :=
  match r with
  | HttpShutdownNil => None
  | HttpShutdownDeadline => Some ErrShutdownTimeout
  | HttpShutdownFailed => Some ErrShutdown
  end.

(** [emit]: the event, if it is valid. *)
Definition http_event (code : Code) (outcome : Outcome) (now : Time) : Event :=
  MkEvent code OperationHTTP "" outcome SeverityInfo "" now 0 0 no_counts.
Definition emit_http (code : Code) (outcome : Outcome) (now : Time) : list Event :=
  let event := http_event code outcome now in
  match Event_Validate event with None => [event] | Some _ => [] end.

(** What the server does to its observer and to [http.Server]. *)
Inductive server_act : Type :=
| AStarted (events : list Event)
| AServed (r : http_serve_end)
| AStopped (events : list Event)
| AShutdown (r : http_shutdown_end)
| AClose.

(** Where a call of [Serve] is. *)
Inductive serve_pc : Type :=
| SEnter                            (* before [CompareAndSwap] *)
| SStarting                         (* before the first event *)
| SServing                          (* in [http.Server.Serve] *)
| SStopping (r : option error)      (* in the deferred function, before its event *)
| SClearing (r : option error)      (* before [serving.Store(false)] *)
| SReturned (r : option error).

(** Where a call of [Shutdown] is. *)
Inductive shutdown_pc : Type :=
| DEnter                            (* before [shutdownOnce.Do] *)
| DStopping                         (* in [http.Server.Shutdown] *)
| DClosing (r : http_shutdown_end)  (* before [http.Server.Close] *)
| DWaiting                          (* at [<-s.shutdownDone] *)
| DReturned (r : option error).

Inductive server_call : Type := CServe (pc : serve_pc) | CShutdown (pc : shutdown_pc).

(** [sync.Once]: a second [Do] waits for the end of the first. *)
Inductive once_state : Type := OnceFresh | OnceRunning | OnceDone.

Record http_Server : Type := MkHttpServer {
  srv_serving : bool; srv_once : once_state; srv_shutdownErr : option error; srv_log : list server_act;
  srv_calls : gmap nat server_call }.

Definition at_pc (i : nat) (c : server_call) (s : http_Server) : http_Server :=
  MkHttpServer (srv_serving s) (srv_once s) (srv_shutdownErr s) (srv_log s) (<[i := c]> (srv_calls s)).
Definition log_act (a : server_act) (s : http_Server) : http_Server :=
  MkHttpServer (srv_serving s) (srv_once s) (srv_shutdownErr s) (srv_log s ++ [a]) (srv_calls s).
Definition set_serving (b : bool) (s : http_Server) : http_Server :=
  MkHttpServer b (srv_once s) (srv_shutdownErr s) (srv_log s) (srv_calls s).
Definition set_once (o : once_state) (s : http_Server) : http_Server :=
  MkHttpServer (srv_serving s) o (srv_shutdownErr s) (srv_log s) (srv_calls s).

(** [setShutdownError] and the end of the function of the once. *)
Definition shutdown_over (e : option error) (s : http_Server) : http_Server :=
  MkHttpServer (srv_serving s) OnceDone e (srv_log s) (srv_calls s).

(** One step of one call. *)
Inductive server_step (s : http_Server) : http_Server -> Prop :=
| serve_refused i : srv_calls s !! i = Some (CServe SEnter) -> srv_serving s = true ->
    server_step s (at_pc i (CServe (SReturned (Some ErrAlreadyServing))) s)
| serve_enters i : srv_calls s !! i = Some (CServe SEnter) -> srv_serving s = false ->
    server_step s (at_pc i (CServe SStarting) (set_serving true s))
| serve_started i now : srv_calls s !! i = Some (CServe SStarting) ->
    server_step s (at_pc i (CServe SServing) (log_act (AStarted (emit_http CodeHTTPStarted OutcomeStarted now)) s))
| serve_served i r : srv_calls s !! i = Some (CServe SServing) ->
    server_step s (at_pc i (CServe (SStopping (serve_result r))) (log_act (AServed r) s))
| serve_stopped i r now : srv_calls s !! i = Some (CServe (SStopping r)) ->
    server_step s (at_pc i (CServe (SClearing r)) (log_act (AStopped (emit_http CodeHTTPStopped OutcomeStopped now)) s))
| serve_cleared i r : srv_calls s !! i = Some (CServe (SClearing r)) ->
    server_step s (at_pc i (CServe (SReturned r)) (set_serving false s))
| shutdown_first i : srv_calls s !! i = Some (CShutdown DEnter) -> srv_once s = OnceFresh ->
    server_step s (at_pc i (CShutdown DStopping) (set_once OnceRunning s))
| shutdown_later i : srv_calls s !! i = Some (CShutdown DEnter) -> srv_once s = OnceDone ->
    server_step s (at_pc i (CShutdown DWaiting) s)
| shutdown_clean i : srv_calls s !! i = Some (CShutdown DStopping) ->
    server_step s (at_pc i (CShutdown DWaiting) (shutdown_over None (log_act (AShutdown HttpShutdownNil) s)))
| shutdown_failed i r : srv_calls s !! i = Some (CShutdown DStopping) -> r <> HttpShutdownNil ->
    server_step s (at_pc i (CShutdown (DClosing r)) (log_act (AShutdown r) s))
| shutdown_closed i r : srv_calls s !! i = Some (CShutdown (DClosing r)) ->
    server_step s (at_pc i (CShutdown DWaiting) (shutdown_over (shutdown_result r) (log_act AClose s)))
| shutdown_returns i : srv_calls s !! i = Some (CShutdown DWaiting) ->
    server_step s (at_pc i (CShutdown (DReturned (srv_shutdownErr s))) s).

(** A new server, with calls that are about to be made. *)
Definition entering (c : server_call) : Prop := c = CServe SEnter \/ c = CShutdown DEnter.
Definition new_server (calls : gmap nat server_call) : http_Server := MkHttpServer false OnceFresh None [] calls.
