(* ===== verification/HealthServerRun.v ===== *)
(** * What the HTTP server answers, and that it serves one listener at a time

    The bodies of [/readyz] are read back; and whatever calls of [Serve] and
    [Shutdown] are interleaved, one of them serves, the underlying server is shut
    down once, and every [Shutdown] tells the same. *)

From S2P Require Export HealthServer.

(** ** Calls that serve *)

(** How far the events of a call that serves are. *)
Definition busy (c : server_call) : option nat :=
  match c with
  | CServe SStarting => Some 0%nat
  | CServe SServing => Some 1%nat
  | CServe (SStopping _) => Some 2%nat
  | CServe (SClearing _) => Some 0%nat
  | _ => None
  end.

(** Started, served, stopped; and again. *)
Definition turn (p : option nat) (a : server_act) : option nat :=
  match p, a with
  | Some 0%nat, AStarted _ => Some 1%nat
  | Some 1%nat, AServed _ => Some 2%nat
  | Some 2%nat, AStopped _ => Some 0%nat
  | Some p, (AShutdown _ | AClose) => Some p
  | _, _ => None
  end.
Definition turns (log : list server_act) : option nat := fold_left turn log (Some 0%nat).

#[local] Arguments turns : simpl never.

Lemma turns_snoc log a : turns (log ++ [a]) = turn (turns log) a.
Proof. unfold turns. by rewrite fold_left_app. Qed.

Definition calm_but (s : http_Server) (i : nat) : Prop := forall j c, srv_calls s !! j = Some c -> j <> i -> busy c = None.

Inductive serving_state (s : http_Server) : Prop :=
| serving_nobody : srv_serving s = false -> (forall j c, srv_calls s !! j = Some c -> busy c = None) ->
    turns (srv_log s) = Some 0%nat -> serving_state s
| serving_one i c p : srv_serving s = true -> srv_calls s !! i = Some c -> busy c = Some p -> calm_but s i ->
    turns (srv_log s) = Some p -> serving_state s.

(** ** The shutdown *)

Definition shutdown_acts (log : list server_act) : list server_act :=
  List.filter (fun a => match a with AShutdown _ | AClose => true | _ => false end) log.

#[local] Arguments shutdown_acts : simpl never.

Lemma shutdown_acts_snoc log a : shutdown_acts (log ++ [a]) =
  shutdown_acts log ++ match a with AShutdown _ | AClose => [a] | _ => [] end.
Proof. unfold shutdown_acts. rewrite List.filter_app. by destruct a. Qed.

(** The server is closed when it does not shut down. *)
Definition shut_down (r : http_shutdown_end) : list server_act :=
  AShutdown r :: match r with HttpShutdownNil => [] | _ => [AClose] end.

(** A call that is past the once, or in it. *)
Definition shutting (c : server_call) : bool :=
  match c with CShutdown DEnter => false | CShutdown _ => true | CServe _ => false end.

Inductive shutdown_state (s : http_Server) : Prop :=
| shutdown_fresh : srv_once s = OnceFresh -> shutdown_acts (srv_log s) = [] ->
    (forall j c, srv_calls s !! j = Some c -> shutting c = false) -> shutdown_state s
| shutdown_in i c : srv_once s = OnceRunning -> srv_calls s !! i = Some c ->
    (c = CShutdown DStopping /\ shutdown_acts (srv_log s) = [] \/
     exists r, c = CShutdown (DClosing r) /\ r <> HttpShutdownNil /\ shutdown_acts (srv_log s) = [AShutdown r]) ->
    (forall j c, srv_calls s !! j = Some c -> j <> i -> shutting c = false) -> shutdown_state s
| shutdown_done r : srv_once s = OnceDone -> shutdown_acts (srv_log s) = shut_down r ->
    srv_shutdownErr s = shutdown_result r ->
    (forall j c, srv_calls s !! j = Some c -> shutting c = true ->
       c = CShutdown DWaiting \/ c = CShutdown (DReturned (shutdown_result r))) -> shutdown_state s.

Ltac at_calls := let j := fresh "j" in let d := fresh "d" in let H := fresh "H" in
  intros j d H; cbn in H; apply lookup_insert_Some in H as [[<- <-]|[? H]].

(** ** Steps *)

Lemma serving_state_same s s' : srv_serving s = srv_serving s' -> srv_calls s = srv_calls s' ->
  turns (srv_log s) = turns (srv_log s') -> serving_state s -> serving_state s'.
Proof.
  intros E1 E2 E3 [Hb Hcalm Ht|i c p Hb Hi Hp Hcalm Ht].
  - apply serving_nobody; by rewrite <- ?E1, <- ?E2, <- ?E3.
  - eapply (serving_one _ i c p); unfold calm_but in *; by rewrite <- ?E1, <- ?E2, <- ?E3.
Qed.

(** A call that does not serve goes on. *)
Lemma serving_idle s i d c : serving_state s -> srv_calls s !! i = Some d -> busy d = None -> busy c = None ->
  serving_state (at_pc i c s).
Proof.
  intros [Hb Hcalm Ht|k e p Hb Hk Hp Hcalm Ht] Hi Hd Hc.
  - apply serving_nobody; [done| |done]. at_calls; eauto.
  - assert (i <> k) by congruence. eapply (serving_one _ k); [done|cbn; by rewrite lookup_insert_ne|done| |done].
    at_calls; [done|eauto].
Qed.

(** The call that serves goes on. *)
Lemma serving_on s i c p a c' q : serving_state s -> srv_calls s !! i = Some c -> busy c = Some p ->
  turn (Some p) a = Some q -> busy c' = Some q -> serving_state (at_pc i c' (log_act a s)).
Proof.
  intros [Hb Hcalm Ht|k e p' Hb Hk Hp Hcalm Ht] Hi Hc Ha Hc'; [by rewrite (Hcalm _ _ Hi) in Hc|].
  assert (i = k) as -> by (destruct (decide (i = k)) as [|Hne]; [done|by rewrite (Hcalm _ _ Hi Hne) in Hc]).
  assert (p' = p) as -> by congruence.
  eapply (serving_one _ k _ q); [done|cbn; by rewrite lookup_insert_eq|done| |cbn; by rewrite turns_snoc, Ht].
  at_calls; [done|eauto].
Qed.

Lemma serving_state_step s s' : serving_state s -> server_step s s' -> serving_state s'.
Proof.
  intros Hs Hstep. destruct Hstep as
    [i Hi E|i Hi E|i now Hi|i r Hi|i r now Hi|i r Hi|i Hi E|i Hi E|i Hi|i r Hi E|i r Hi|i Hi].
  all: try (by eapply serving_on). all: try (by eapply serving_idle).
  - destruct Hs as [Hb Hcalm Ht|]; [|congruence].
    eapply (serving_one _ i _ 0%nat); [done|cbn; by rewrite lookup_insert_eq|done| |done]. at_calls; [done|eauto].
  - destruct Hs as [Hb Hcalm Ht|k c p Hb Hk Hp Hcalm Ht]; [by specialize (Hcalm _ _ Hi)|].
    assert (i = k) as -> by (destruct (decide (i = k)) as [|Hne]; [done|by specialize (Hcalm _ _ Hi Hne)]).
    rewrite Hi in Hk. injection Hk as <-. apply serving_nobody; [done| |cbn in *; congruence]. at_calls; [done|eauto].
  - apply (serving_idle (set_once OnceRunning s) i (CShutdown DEnter)); [|done..]. by eapply serving_state_same, Hs.
  - eapply (serving_idle _ i (CShutdown DStopping)); [|done..]. eapply serving_state_same, Hs; [done..|].
    cbn. rewrite turns_snoc. by destruct (turns _) as [[|[|[|]]]|].
  - eapply (serving_idle _ i (CShutdown DStopping)); [|done..]. eapply serving_state_same, Hs; [done..|].
    cbn. rewrite turns_snoc. by destruct (turns _) as [[|[|[|]]]|].
  - eapply (serving_idle _ i (CShutdown (DClosing r))); [|done..]. eapply serving_state_same, Hs; [done..|].
    cbn. rewrite turns_snoc. by destruct (turns _) as [[|[|[|]]]|].
Qed.

Lemma shutdown_state_same s s' : srv_once s = srv_once s' -> srv_calls s = srv_calls s' ->
  srv_shutdownErr s = srv_shutdownErr s' -> shutdown_acts (srv_log s) = shutdown_acts (srv_log s') ->
  shutdown_state s -> shutdown_state s'.
Proof.
  intros E1 E2 E3 E4 [? ? H|i c ? ? ? H|r ? ? ? H].
  - apply shutdown_fresh; by rewrite <- ?E1, <- ?E2, <- ?E4.
  - eapply (shutdown_in _ i c); by rewrite <- ?E1, <- ?E2, <- ?E4.
  - eapply (shutdown_done _ r); by rewrite <- ?E1, <- ?E2, <- ?E3, <- ?E4.
Qed.

(** A call that does not shut down goes on. *)
Lemma shutdown_idle s i d c : shutdown_state s -> srv_calls s !! i = Some d -> shutting d = false -> shutting c = false ->
  shutdown_state (at_pc i c s).
Proof.
  intros [? ? H|k e ? Hk Hin H|r ? ? ? H] Hi Hd Hc.
  - apply shutdown_fresh; [done..|]. at_calls; eauto.
  - assert (i <> k) by (intros ->; rewrite Hi in Hk; destruct Hin as [[-> _]|(? & -> & _)]; by injection Hk as ->).
    eapply (shutdown_in _ k e); [done|cbn; by rewrite lookup_insert_ne|done|]. at_calls; eauto.
  - eapply (shutdown_done _ r); [done..|]. at_calls; [congruence|eauto].
Qed.

(** The call in the once. *)
Lemma shutdown_of s i c : shutdown_state s -> srv_calls s !! i = Some c ->
  (c = CShutdown DStopping \/ exists r, c = CShutdown (DClosing r)) ->
  srv_once s = OnceRunning /\ (forall j c, srv_calls s !! j = Some c -> j <> i -> shutting c = false) /\
  (c = CShutdown DStopping /\ shutdown_acts (srv_log s) = [] \/
   exists r, c = CShutdown (DClosing r) /\ r <> HttpShutdownNil /\ shutdown_acts (srv_log s) = [AShutdown r]).
Proof.
  intros [? ? H|k e ? Hk Hin H|r ? ? ? H] Hi Hc.
  - specialize (H _ _ Hi). by destruct Hc as [->|[? ->]].
  - assert (i = k) as ->.
    { destruct (decide (i = k)) as [|Hne]; [done|]. specialize (H _ _ Hi Hne). by destruct Hc as [->|[? ->]]. }
    rewrite Hi in Hk. injection Hk as <-. done.
  - specialize (H _ _ Hi). destruct Hc as [->|[? ->]]; by destruct H.
Qed.

Lemma shutdown_state_step s s' : shutdown_state s -> server_step s s' -> shutdown_state s'.
Proof.
  intros Hs Hstep. destruct Hstep as
    [i Hi E|i Hi E|i now Hi|i r Hi|i r now Hi|i r Hi|i Hi E|i Hi E|i Hi|i r Hi E|i r Hi|i Hi].
  all: try (eapply shutdown_idle; [eapply shutdown_state_same, Hs; [done..|cbn; rewrite ?shutdown_acts_snoc, ?app_nil_r; done]|done..]).
  - destruct Hs as [? ? H| |]; [|congruence..]. eapply (shutdown_in _ i); [done|cbn; by rewrite lookup_insert_eq|by left|].
    at_calls; [by intros []|eauto].
  - destruct Hs as [| |r ? ? ? H]; [congruence..|]. eapply (shutdown_done _ r); [done..|]. at_calls; [by left|eauto].
  - destruct (shutdown_of _ _ _ Hs Hi) as (Ho & H & [[_ Ha]|(? & ? & _)]); [by left| |done].
    eapply (shutdown_done _ HttpShutdownNil); [done|cbn; by rewrite shutdown_acts_snoc, Ha|done|].
    at_calls; [by left|]. intros Hsh. by rewrite (H _ _ H0) in Hsh.
  - destruct (shutdown_of _ _ _ Hs Hi) as (Ho & H & [[_ Ha]|(? & ? & _)]); [by left| |done].
    eapply (shutdown_in _ i); [done|cbn; by rewrite lookup_insert_eq| |].
    + right. exists r. cbn. by rewrite shutdown_acts_snoc, Ha.
    + at_calls; [by intros []|eauto].
  - destruct (shutdown_of _ _ _ Hs Hi) as (Ho & H & [[? _]|(r' & Er & Hr & Ha)]); [by right; eexists|done|].
    injection Er as <-. eapply (shutdown_done _ r); [done| |done|].
    + cbn. rewrite shutdown_acts_snoc, Ha. by destruct r.
    + at_calls; [by left|]. intros Hsh. by rewrite (H _ _ H0) in Hsh.
  - destruct Hs as [? ? H|k e ? Hk Hin H|r ? ? ? H].
    + by specialize (H _ _ Hi).
    + destruct (decide (i = k)) as [->|Hne]; [|by specialize (H _ _ Hi Hne)].
      rewrite Hi in Hk. destruct Hin as [[-> _]|(? & -> & _)]; by injection Hk.
    + eapply (shutdown_done _ r); [done..|]. at_calls; [|eauto]. intros _. right. cbn. congruence.
Qed.

Lemma server_reaches calls s : map_Forall (fun _ => entering) calls -> rtc server_step (new_server calls) s ->
  serving_state s /\ shutdown_state s.
Proof.
  intros Hc Hrun. remember (new_server calls) as s0 eqn:E0.
  assert (serving_state s0 /\ shutdown_state s0) as H0.
  { subst s0. split; [apply serving_nobody|apply shutdown_fresh]; try done; intros j c Hj; by destruct (Hc j c Hj) as [->| ->]. }
  clear E0. induction Hrun as [|s s' s'' Hstep _ IH]; [done|]. destruct H0.
  apply IH; eauto using serving_state_step, shutdown_state_step.
Qed.

Definition returned (c : server_call) : bool :=
  match c with CServe (SReturned _) | CShutdown (DReturned _) => true | _ => false end.

(** A call that cannot go on waits for another that can. *)
Lemma server_goes_on s i c : shutdown_state s -> srv_calls s !! i = Some c -> returned c = false -> exists s', server_step s s'.
Proof.
  intros Hs Hi Hr. destruct c as [pc|pc].
  - destruct pc; try done; [destruct (srv_serving s) eqn:E|..]; 
      [eexists; by apply (serve_refused _ i)|eexists; by apply (serve_enters _ i)|eexists; by eapply (serve_started _ i 0)|eexists; by eapply (serve_served _ i HttpServeNil)|
       eexists; by eapply (serve_stopped _ i r 0)|eexists; by eapply (serve_cleared _ i r)].
  - destruct pc; try done; [|eexists; eauto using server_step..].
    destruct Hs as [E _ _|k e E Hk Hin _|r E _ _ _]; [eexists; eauto using server_step| |eexists; eauto using server_step].
    destruct Hin as [[-> _]|(r & -> & _)]; eexists; eauto using server_step.
Qed.

(** *** What [Serve] answers *)

(** An answer of [Serve] is that of the underlying server, or that it serves already. *)
Definition answered (log : list server_act) (c : server_call) : Prop :=
  match c with
  | CServe (SStopping r) | CServe (SClearing r) => exists h, AServed h ∈ log /\ r = serve_result h
  | CServe (SReturned r) => r = Some ErrAlreadyServing \/ exists h, AServed h ∈ log /\ r = serve_result h
  | _ => True
  end.
Definition all_answered (s : http_Server) : Prop := map_Forall (fun _ => answered (srv_log s)) (srv_calls s).

Lemma answered_more log a c : answered log c -> answered (log ++ [a]) c.
Proof. destruct c as [[| | |r|r|r]|]; cbn; try done; [..|intros [?|H]; [by left|right; revert H]]; intros (h & Hh & ->); exists h; set_solver. Qed.

Lemma all_answered_at s i c : all_answered s -> answered (srv_log s) c -> all_answered (at_pc i c s).
Proof. intros Hs Hc. by apply map_Forall_insert_2. Qed.
Lemma all_answered_log s a : all_answered s -> all_answered (log_act a s).
Proof. intros Hs i c Hi. apply answered_more. by eapply Hs. Qed.

Lemma all_answered_step s s' : all_answered s -> server_step s s' -> all_answered s'.
Proof.
  intros Hs Hstep. destruct Hstep as
    [i Hi E|i Hi E|i now Hi|i r Hi|i r now Hi|i r Hi|i Hi E|i Hi E|i Hi|i r Hi E|i r Hi|i Hi];
    pose proof (Hs _ _ Hi) as Hc; cbn in Hc; try (apply all_answered_at; [first [done|by apply all_answered_log]|]); try done.
  - by left.
  - exists r. split; [cbn; set_solver|done].
  - destruct Hc as (h & ? & ->). exists h. split; [cbn; set_solver|done].
  - by right.
Qed.

Lemma all_answered_reaches calls s : map_Forall (fun _ => entering) calls -> rtc server_step (new_server calls) s -> all_answered s.
Proof.
  intros Hc Hrun. remember (new_server calls) as s0 eqn:E0.
  assert (all_answered s0) as H0 by (subst s0; intros i c Hi; by destruct (Hc i c Hi) as [->| ->]).
  clear E0. induction Hrun; eauto using all_answered_step.
Qed.

(** What becomes of a call of [Serve] that enters. *)
Lemma serve_enters_or_refused s s' i d : serving_state s -> server_step s s' ->
  srv_calls s !! i = Some (CServe SEnter) -> srv_calls s' !! i = Some d ->
  d = CServe SEnter \/
  (d = CServe SStarting /\ forall j c, srv_calls s !! j = Some c -> busy c = None) \/
  (d = CServe (SReturned (Some ErrAlreadyServing)) /\ exists j c, srv_calls s !! j = Some c /\ busy c <> None).
Proof.
  intros Hs Hstep Hi Hd. destruct Hstep as
    [j Hj E|j Hj E|j now Hj|j r Hj|j r now Hj|j r Hj|j Hj E|j Hj E|j Hj|j r Hj E|j r Hj|j Hj];
    cbn in Hd; (destruct (decide (j = i)) as [->|Hne]; [rewrite lookup_insert_eq in Hd|rewrite lookup_insert_ne in Hd by done; left; congruence]);
    try congruence; injection Hd as <-; right.
  - right. split; [done|]. destruct Hs as [|k c p _ Hk Hp _ _]; [congruence|]. exists k, c. by rewrite Hp.
  - left. split; [done|]. by destruct Hs as [|]; [|congruence].
Qed.

(** C29: the life of the HTTP server.  However the calls of [Serve] and
    [Shutdown] are interleaved: at most one of them serves at a time, and each
    time the start is told before the listener is served and the stop after it; a
    call of [Serve] is refused exactly while another one serves, and one that
    returns was refused, or the underlying server ended, and then it fails exactly
    when that failed; [http.Server.Shutdown] is called at most once, and [Close]
    only after it and when it failed; a [Shutdown] that returns does so after that,
    and all of them return the same, what that one call came to; and as long as a
    call has not returned, some call can go on. *)
Theorem server_life calls s (Hcalls : map_Forall (fun _ => entering) calls) (Hrun : rtc server_step (new_server calls) s) :
  (forall i j c d, srv_calls s !! i = Some c -> srv_calls s !! j = Some d -> busy c <> None -> busy d <> None -> i = j) /\
  turns (srv_log s) <> None /\
  (forall s' i d, server_step s s' -> srv_calls s !! i = Some (CServe SEnter) -> srv_calls s' !! i = Some d ->
     d = CServe SEnter \/
     (d = CServe SStarting /\ forall j c, srv_calls s !! j = Some c -> busy c = None) \/
     (d = CServe (SReturned (Some ErrAlreadyServing)) /\ exists j c, srv_calls s !! j = Some c /\ busy c <> None)) /\
  (forall i r, srv_calls s !! i = Some (CServe (SReturned r)) ->
     r = Some ErrAlreadyServing \/ exists h, AServed h ∈ srv_log s /\
       r = match h with HttpServeNil | HttpServeClosed => None | HttpServeFailed => Some ErrServe end) /\
  (exists r, shutdown_acts (srv_log s) `prefix_of` shut_down r /\
     forall i e, srv_calls s !! i = Some (CShutdown (DReturned e)) ->
       shutdown_acts (srv_log s) = shut_down r /\
       e = match r with
           | HttpShutdownNil => None
           | HttpShutdownDeadline => Some ErrShutdownTimeout
           | HttpShutdownFailed => Some ErrShutdown
           end) /\
  ((exists i c, srv_calls s !! i = Some c /\ returned c = false) -> exists s', server_step s s').
Proof.
  destruct (server_reaches calls s Hcalls Hrun) as [Hs Hd]. split_and!.
  - intros i j c d Hi Hj Hc Hd'. destruct Hs as [_ H _|k e p _ Hk Hp H _]; [by rewrite (H i c Hi) in Hc|].
    assert (forall m f, srv_calls s !! m = Some f -> busy f <> None -> m = k) as Hone.
    { intros m f Hm Hf. destruct (decide (m = k)) as [|Hne]; [done|]. by rewrite (H m f Hm Hne) in Hf. }
    by rewrite (Hone i c), (Hone j d).
  - destruct Hs as [_ _ ->|k e p _ _ _ _ ->]; done.
  - intros s' i d. by apply serve_enters_or_refused.
  - intros i r Hi. destruct (all_answered_reaches calls s Hcalls Hrun _ _ Hi) as [|(h & Hh & ->)]; [by left|]. right. exists h.
    split; [done|by destruct h].
  - destruct Hd as [_ Ha H|k e _ Hk Hin H|r _ Ha _ H].
    + exists HttpShutdownNil. rewrite Ha. split; [apply prefix_nil|]. intros i e Hi. by specialize (H _ _ Hi).
    + destruct Hin as [[-> Ha]|(r & -> & _ & Ha)];
        [exists HttpShutdownNil|exists r]; rewrite Ha; (split; [first [apply prefix_nil|by eexists]|]);
        intros i e Hi; (destruct (decide (i = k)) as [->|Hne]; [by rewrite Hi in Hk|by specialize (H _ _ Hi Hne)]).
    + exists r. rewrite Ha. split; [done|]. intros i e Hi. split; [done|]. destruct (H _ _ Hi) as [|E]; [done..|]. injection E as ->. by destruct r.
  - intros (i & c & Hi & Hc). by eapply server_goes_on.
Qed.

#[export] Instance entering_dec c : Decision (entering c).
Proof.
  refine (match c with CServe SEnter | CShutdown DEnter => left _ | _ => right _ end);
    unfold entering; first [by left|by right|by intros [|]].
Defined.

(** Two calls of [Serve] and two of [Shutdown], when the server does not shut down. *)
Definition ex_server_calls : gmap nat server_call :=
  {[1%nat := CServe SEnter; 2%nat := CServe SEnter; 3%nat := CShutdown DEnter; 4%nat := CShutdown DEnter]}.
Definition ex_shut : http_Server :=
  MkHttpServer true OnceDone (Some ErrShutdownTimeout)
    [AStarted (emit_http CodeHTTPStarted OutcomeStarted 7); AShutdown HttpShutdownDeadline; AClose]
    {[1%nat := CServe SServing; 2%nat := CServe (SReturned (Some ErrAlreadyServing));
      3%nat := CShutdown (DReturned (Some ErrShutdownTimeout)); 4%nat := CShutdown DEnter]}.

Example server_life_witness : rtc server_step (new_server ex_server_calls) ex_shut /\ exists s', server_step ex_shut s'.
Proof.
  assert (rtc server_step (new_server ex_server_calls) ex_shut) as Hrun.
  { eapply rtc_l; [apply (serve_enters _ 1); reflexivity|]. eapply rtc_l; [apply (serve_refused _ 2); reflexivity|].
    eapply rtc_l; [apply (serve_started _ 1 7); reflexivity|]. eapply rtc_l; [apply (shutdown_first _ 3); reflexivity|].
    eapply rtc_l; [apply (shutdown_failed _ 3 HttpShutdownDeadline); [reflexivity|discriminate]|].
    eapply rtc_l; [apply (shutdown_closed _ 3 HttpShutdownDeadline); reflexivity|].
    eapply rtc_l; [apply (shutdown_returns _ 3); reflexivity|]. vm_compute. apply rtc_refl. }
  split; [exact Hrun|].
  assert (map_Forall (fun _ => entering) ex_server_calls) as Hc by (apply (bool_decide_unpack _); vm_compute; exact I).
  apply (server_life ex_server_calls ex_shut Hc Hrun). by exists 4%nat, (CShutdown DEnter).
Defined.

(** ** What the bodies say *)

(** The pairs of quoted strings of a text; a string holds no quote. *)
Fixpoint read_pairs (fuel : nat) (s : string) : list (string * string) :=
  match fuel with
  | O => []
  | S fuel =>
      match cut_byte "034" s with
      | None => []
      | Some (_, s) =>
          match cut_byte "034" s with
          | None => []
          | Some (k, s) =>
              match cut_byte "034" s with
              | None => []
              | Some (_, s) =>
                  match cut_byte "034" s with
                  | None => []
                  | Some (v, s) => (k, v) :: read_pairs fuel s
                  end
              end
          end
      end
  end.

Definition all_reasons : list Reason :=
  [ReasonReady; ReasonConfigurationPending; ReasonConfigurationInvalid; ReasonCredentialsPending;
   ReasonCredentialsUnavailable; ReasonDatabasePending; ReasonDatabaseUnavailable; ReasonLAPIPending;
   ReasonLAPIUnavailable; ReasonSyncPending; ReasonSyncStale; ReasonRuntimeFatal; ReasonStopping].
Definition all_components : list Component :=
  [ComponentPending; ComponentValid; ComponentInvalid; ComponentLoaded; ComponentAvailable; ComponentUnavailable;
   ComponentGrace; ComponentCurrent; ComponentStale; ComponentRunning; ComponentFatal; ComponentStopping].

Definition read_as {A} (text : A -> string) (all : list A) (s : string) : option A := List.find (fun x => String.eqb (text x) s) all.

(** The snapshot that a body shows. *)
Definition read_response (body : string) : option health_Response :=
  match read_pairs 9 body with
  | [("status", s); ("reason", r); ("configuration", c); ("credentials", k); ("database", d); ("lapi", l);
     ("synchronization", y); ("runtime", u)]%string =>
      s ← read_as Status_text [StatusReady; StatusNotReady] s; r ← read_as Reason_text all_reasons r;
      let part := read_as Component_text all_components in
      c ← part c; k ← part k; d ← part d; l ← part l; y ← part y; u ← part u;
      Some (MkHealthResponse s r c k d l y u)
  | _ => None
  end.

Definition plain_field (f : string * string) : bool := free_of ["034"%char] f.1 && free_of ["034"%char] f.2.

Lemma json_field_app k v rest : json_field (k, v) +:+ rest =
  String "034" (k +:+ String "034" (":" +:+ String "034" (v +:+ String "034" rest))).
Proof. unfold json_field, json_string. cbn [fst snd]. rewrite !string_app_assoc. reflexivity. Qed.

Lemma read_pairs_field before f rest fuel : free_of ["034"%char] before = true -> plain_field f = true ->
  read_pairs (S fuel) (before +:+ json_field f +:+ rest) = f :: read_pairs fuel rest.
Proof.
  intros Hb Hf. apply andb_true_iff in Hf as [Hk Hv]. destruct f as [k v]. cbn [fst snd] in *.
  rewrite json_field_app. cbn [read_pairs]. by rewrite !cut_byte_free.
Qed.

Lemma read_pairs_fields fs : forall before fuel, free_of ["034"%char] before = true -> forallb plain_field fs = true ->
  (List.length fs < fuel)%nat ->
  read_pairs fuel (before +:+ String.concat "," (map json_field fs) +:+ "}" +:+ newline) = fs.
Proof.
  induction fs as [|f fs IH]; intros before [|fuel] Hb Hf Hl; [cbn in Hl; lia|..|cbn in Hl; lia|].
  - cbn [map String.concat read_pairs]. rewrite cut_byte_free_none; [done|]. by rewrite free_of_app, Hb.
  - cbn [forallb] in Hf. apply andb_true_iff in Hf as [Hf Hfs]. cbn in Hl.
    assert (forall t, read_pairs (S fuel) (before +:+ (json_field f +:+ t)) = f :: read_pairs fuel t) as Hone
      by (intros; by apply read_pairs_field).
    destruct fs as [|f' fs].
    + change (String.concat "," (map json_field [f])) with (json_field f). rewrite Hone. f_equal.
      apply (IH "" fuel); [done..|cbn; lia].
    + change (String.concat "," (map json_field (f :: f' :: fs))) with
        (json_field f +:+ ("," +:+ String.concat "," (map json_field (f' :: fs)))).
      rewrite string_app_assoc, Hone, string_app_assoc. f_equal. apply (IH "," fuel); [done..|cbn in *; lia].
Qed.

Lemma read_json_object fs fuel : forallb plain_field fs = true -> (List.length fs < fuel)%nat ->
  read_pairs fuel (json_object fs) = fs.
Proof. intros. by apply (read_pairs_fields fs "{"). Qed.

Lemma Status_text_read s : read_as Status_text [StatusReady; StatusNotReady] (Status_text s) = Some s.
Proof. by destruct s. Qed.
Lemma Reason_text_read r : read_as Reason_text all_reasons (Reason_text r) = Some r.
Proof. by destruct r. Qed.
Lemma Component_text_read c : read_as Component_text all_components (Component_text c) = Some c.
Proof. by destruct c. Qed.

Lemma Response_fields_plain r : forallb plain_field (Response_fields r) = true.
Proof.
  assert (forall s, free_of ["034"%char] (Status_text s) = true) as H1 by by intros [].
  assert (forall s, free_of ["034"%char] (Reason_text s) = true) as H2 by by intros [].
  assert (forall s, free_of ["034"%char] (Component_text s) = true) as H3 by by intros [].
  unfold Response_fields. cbn [forallb]. unfold plain_field. cbn [fst snd]. by rewrite H1, H2, !H3.
Qed.

Lemma read_response_object r : read_response (json_object (Response_fields r)) = Some r.
Proof.
  unfold read_response. rewrite read_json_object by (try apply Response_fields_plain; cbn; lia).
  destruct r as [s rs c k d l y u]. unfold Response_fields. cbn [hr_Status hr_Reason hr_Configuration hr_Credentials hr_Database
    hr_LAPI hr_Synchronization hr_Runtime]. rewrite Status_text_read, Reason_text_read, !Component_text_read. done.
Qed.

(** what the endpoints tell.  The code of [/readyz] is 200 exactly when the
    tracker is ready and 503 otherwise, and the body of a [GET] reads back as the
    snapshot; a [HEAD] has the same code and headers and no body; [/healthz] tells
    a living process from nothing else; any other method is refused on every path
    and told nothing of the state; and no other path is answered. *)
Theorem endpoints_tell {text : FloatText} now t g :
  (exists a, handle "GET" "/readyz" now t g = Some a /\ read_response (ha_Body a) = Some (Snapshot_at now t) /\
     ha_Status a = (match hr_Status (Snapshot_at now t) with StatusReady => 200 | StatusNotReady => 503 end)) /\
  (forall path a, handle "GET" path now t g = Some a -> handle "HEAD" path now t g = Some (MkHttpAnswer (ha_Status a) (ha_Header a) "")) /\
  (forall t' now' g' method, handle method "/healthz" now t g = handle method "/healthz" now' t' g') /\
  (forall method path a, method <> "GET"%string -> method <> "HEAD"%string -> handle method path now t g = Some a ->
     a = method_not_allowed) /\
  (forall method path, is_Some (handle method path now t g) <-> path ∈ ["/healthz"; "/readyz"; "/metrics"]%string).
Proof.
  split_and!.
  - exists (health_writeJSON "GET" (readyz_status (Snapshot_at now t)) (Response_fields (Snapshot_at now t))).
    split_and!; [done|apply read_response_object|done].
  - intros path a. unfold handle. repeat case_match; by intros [= <-].
  - done.
  - intros method path a Hg Hh. unfold handle, healthz, readyz, methodAllowed, metrics_ServeHTTP.
    apply String.eqb_neq in Hg, Hh. rewrite Hg, Hh. repeat case_match; by intros [= <-].
  - intros method path. unfold handle. rewrite !elem_of_cons, elem_of_nil, <- !String.eqb_eq.
    destruct (String.eqb path "/healthz"), (String.eqb path "/readyz"), (String.eqb path "/metrics"); naive_solver eauto.
Qed.
