(* ===== verification/Healthcheck.v ===== *)
(** * The health check of the command line ([cli/healthcheck.go])

    The container asks the service on its own loopback interface whether it is
    alive: one request, without redirects, whose answer must be the one of
    [HealthServer.healthz]. *)

From S2P Require Export HealthServer Credentials.

Definition maxHealthcheckTimeout : Duration := 10 * Second.
Definition maxHealthcheckBodyBytes : Z := 128.

Definition errInvalidHealthcheck : error := Foreign "invalid healthcheck options".
Definition errHealthcheckFailed : error := Foreign "healthcheck failed".

(** The rest of [url.URL], and the JSON decoder: the status in the first document
    of a text without other keys, and whether the text ends there. *)
Class HealthcheckLibrary {http : HttpLibrary} : Type := {
  url_RawPath : url -> string;
  url_Port : url -> string;
  json_status : string -> option (string * bool) }.

Section Healthcheck.
Context {http : HttpLibrary} {lib : TextLibrary} {urls : UrlLibrary} {local : HealthcheckLibrary}.

Definition healthcheckTarget (raw : string) : result error url :=
  match url_Parse raw with
  | Err _ => Err errInvalidHealthcheck
  | Ok parsed =>
      let u := url_fields parsed in
      if negb (String.eqb (u_Scheme u) "http") || u_User u || negb (String.eqb (url_RawQuery parsed) "") ||
         negb (String.eqb (u_Fragment u) "") || negb (String.eqb (url_Path parsed) "/healthz") ||
         negb (String.eqb (url_RawPath parsed) "") || contains_any ["013"; "010"; "000"]%char (u_Host u)
      then Err errInvalidHealthcheck
      else match ParseAddr (u_Hostname u) with
           | None => Err errInvalidHealthcheck
           | Some address =>
               if negb (IsLoopback address) || negb (String.eqb (Zone address) "") then Err errInvalidHealthcheck
               else match atoi (url_Port parsed) with
                    | None => Err errInvalidHealthcheck
                    | Some port => if (port <? 1) || (65535 <? port) then Err errInvalidHealthcheck else Ok parsed
                    end
           end
  end.

Definition decodeHealthcheck (body : string) : option error :=
  match json_status body with
  | None => Some errHealthcheckFailed
  | Some (status, eof) =>
      if negb (String.eqb status "alive") then Some errHealthcheckFailed
      else if negb eof then Some errHealthcheckFailed else None
  end.

(** A response. *)
Definition takeHealthcheck (response : HttpResponse) : option error :=
  if negb (hp_Status response =? 200) || (maxHealthcheckBodyBytes <? hp_ContentLength response) then Some errHealthcheckFailed
  else match mime_ParseMediaType (header_Get (hp_Header response) "Content-Type") with
       | None => Some errHealthcheckFailed
       | Some mediaType =>
           if negb (String.eqb mediaType "application/json") then Some errHealthcheckFailed
           else match read_limited maxHealthcheckBodyBytes response with
                | Err _ => Some errHealthcheckFailed
                | Ok body => if maxHealthcheckBodyBytes <? len body then Some errHealthcheckFailed else decodeHealthcheck body
                end
       end.

(** A round trip of the transport; a redirect is a response like any other. *)
Class HealthcheckNet (W : Type) : Type := { hc_RoundTrip : HttpRequest -> M W error HttpResponse }.

Context {W : Type} `{!HealthcheckNet W}.

Definition runHealthcheck (rawURL : string) (timeout : Duration) : M W error unit :=
  if (timeout <=? 0) || (maxHealthcheckTimeout <? timeout) then mfail errInvalidHealthcheck
  else match healthcheckTarget rawURL with
       | Err e => mfail e
       | Ok target =>
           match url_Parse (url_String target) with
           | Err _ => mfail errHealthcheckFailed
           | Ok u =>
               let~ r := hc_RoundTrip (MkHttpRequest u [("Accept", "application/json")]%string timeout) in
               match r with
               | Err _ => mfail errHealthcheckFailed
               | Ok response => match takeHealthcheck response with Some e => mfail e | None => mok tt end
               end
           end
       end.
End Healthcheck.

(** ** What is asked, and of whom *)

Section Asked.
Context {http : HttpLibrary} {lib : TextLibrary} {urls : UrlLibrary} {local : HealthcheckLibrary}.

(** A URL of the loopback interface. *)
Record loopback_target (u : url) : Prop := {
  lt_scheme : u_Scheme (url_fields u) = "http"%string;
  lt_path : url_Path u = "/healthz"%string;
  lt_plain : u_User (url_fields u) = false /\ url_RawQuery u = ""%string /\ u_Fragment (url_fields u) = ""%string;
  lt_host : exists a, ParseAddr (u_Hostname (url_fields u)) = Some a /\ IsLoopback a = true /\ Zone a = ""%string;
  lt_port : exists p, atoi (url_Port u) = Some p /\ 1 <= p <= 65535 }.

Lemma healthcheckTarget_Ok raw u : healthcheckTarget raw = Ok u -> url_Parse raw = Ok u /\ loopback_target u.
Proof.
  unfold healthcheckTarget. destruct (url_Parse raw) as [p|]; [|done]. destruct (_ || _) eqn:E1; [done|].
  destruct (ParseAddr _) as [a|] eqn:Ea; [|done]. destruct (negb (IsLoopback a) || _) eqn:E2; [done|].
  destruct (atoi _) as [port|] eqn:Ep; [|done]. destruct (_ || _) eqn:E3 in |- *; [done|]. intros [= <-]. split; [done|].
  repeat (apply orb_false_iff in E1 as [E1 ?]). apply orb_false_iff in E2 as [E2 ?]. apply orb_false_iff in E3 as [? ?].
  repeat match goal with
  | H : negb _ = false |- _ => apply negb_false_iff in H
  | H : String.eqb _ _ = true |- _ => apply String.eqb_eq in H
  end.
  split; [done..|by exists a|exists port; split; [done|lia]].
Qed.

Lemma healthcheckTarget_error raw e : healthcheckTarget raw = Err e -> e = errInvalidHealthcheck.
Proof. unfold healthcheckTarget. repeat case_match; by intros [= <-]. Qed.

Context {W : Type} `{!HealthcheckNet W}.

#[export] Instance healthcheck_logged : HealthcheckNet (W * list (HttpRequest * result error HttpResponse)) := {|
  hc_RoundTrip q wl := let '(r, w) := hc_RoundTrip q wl.1 in (r, (w, wl.2 ++ [(q, r)])) |}.

(** A response that says that the service is alive: 200, at most 128 bytes, and
    one JSON document with nothing but that status. *)
Definition says_alive (r : HttpResponse) : Prop :=
  hp_Status r = 200 /\ hp_ContentLength r <= 128 /\
  mime_ParseMediaType (header_Get (hp_Header r) "Content-Type") = Some "application/json"%string /\
  len (hp_Body r) <= 128 /\ hp_BodyError r = None /\ json_status (hp_Body r) = Some ("alive"%string, true).

Lemma substring_0_len s n : (n <= String.length s)%nat -> String.length (String.substring 0 n s) = n.
Proof. revert n. induction s as [|c s IH]; intros [|n] H; cbn in *; try lia. rewrite IH; lia. Qed.

Lemma takeHealthcheck_alive r : takeHealthcheck r = None <-> says_alive r.
Proof.
  unfold takeHealthcheck, says_alive, read_limited, decodeHealthcheck, maxHealthcheckBodyBytes.
  destruct (hp_Status r =? 200) eqn:E1; cbn [negb orb]; [|split; [done|lia]].
  destruct (128 <? hp_ContentLength r) eqn:E2; cbn [negb orb]; [split; [done|lia]|].
  destruct (mime_ParseMediaType _) as [mt|]; [|split; [done|by intros (? & ? & ? & _)]].
  destruct (String.eqb_spec mt "application/json") as [->|Hmt]; cbn [negb]; [|split; [done|by intros (? & ? & [= ?] & _)]].
  destruct (128 <? len (hp_Body r)) eqn:E3.
  { assert ((128 <? len (String.substring 0 (Z.to_nat (128 + 1)) (hp_Body r))) = true) as ->.
    { unfold len in *. change (Z.to_nat (128 + 1)) with 129%nat. rewrite substring_0_len; [done|]. change 129%nat with (Z.to_nat 129). lia. }
    split; [done|lia]. }
  destruct (hp_BodyError r) as [e|]; [split; [done|by intros (? & ? & ? & ? & ? & _)]|]. rewrite E3.
  destruct (json_status _) as [[status eof]|]; [|split; [done|by intros (? & ? & ? & ? & ? & ?)]].
  destruct (String.eqb_spec status "alive") as [->|Hs]; cbn [negb]; [|split; [done|by intros (? & ? & ? & ? & ? & [= ? ?])]].
  destruct eof; cbn [negb]; split; try done; try (by intros (? & ? & ? & ? & ? & [= ?])). intros _. split_and!; [lia..|done|lia|done|done].
Qed.

Lemma takeHealthcheck_error r e : takeHealthcheck r = Some e -> e = errHealthcheckFailed.
Proof. unfold takeHealthcheck, decodeHealthcheck. repeat case_match; by intros [= <-]. Qed.

(** the health check.  Whatever URL it is given, it sends at most one request,
    and that to the [/healthz] of a loopback address with a port, without
    credentials or a query; it succeeds exactly when the answer says that the
    service is alive; and options that are invalid are told apart from a service
    that is not, and send nothing. *)
Theorem runHealthcheck_local raw timeout (w : W) :
  let '(r, (_, acts)) := runHealthcheck raw timeout (w, []) in
  (acts = [] /\ r = Err errInvalidHealthcheck /\
     ((timeout <= 0 \/ maxHealthcheckTimeout < timeout) \/ healthcheckTarget raw = Err errInvalidHealthcheck)) \/
  (exists target, healthcheckTarget raw = Ok target /\ url_Parse raw = Ok target /\ loopback_target target /\
     ((acts = [] /\ r = Err errHealthcheckFailed) \/
      exists q answer, acts = [(q, answer)] /\ url_Parse (url_String target) = Ok (hq_URL q) /\ hq_Timeout q = timeout /\
        (r = Ok tt \/ r = Err errHealthcheckFailed) /\ (r = Ok tt <-> exists response, answer = Ok response /\ says_alive response))).
Proof.
  unfold runHealthcheck. destruct (_ || _) eqn:Et; [left; split_and!; [done..|]; lia|].
  destruct (healthcheckTarget raw) as [target|e] eqn:E; [|apply healthcheckTarget_error in E as ->; left; cbn; auto].
  destruct (healthcheckTarget_Ok _ _ E) as [Hp Hl].
  destruct (url_Parse (url_String target)) as [u|] eqn:Eu; [|by right; exists target; split_and!; auto].
  unfold mtry. cbn [hc_RoundTrip healthcheck_logged fst snd]. set (q := MkHttpRequest u _ timeout).
  destruct (hc_RoundTrip q w) as [[response|e] w']; cbn iota.
  - destruct (takeHealthcheck response) as [e|] eqn:Ea; right; exists target; (split_and!; [done..|right; exists q, (Ok response)]).
    + pose proof (takeHealthcheck_error _ _ Ea) as ->. split_and!; [done..|by right|]. split; [done|].
      intros (r' & [= <-] & Hr). by apply takeHealthcheck_alive in Hr as ?; congruence.
    + split_and!; [done..|by left|]. split; [|done]. intros _. exists response. split; [done|]. by apply takeHealthcheck_alive.
  - right. exists target. split_and!; [done..|right; exists q, (Err e)]. split_and!; [done..|by right|]. split; [done|]. by intros (? & ? & _).
Qed.
(** What a server answers, as the client reads it. *)
Definition answer_response (a : HttpAnswer) : HttpResponse :=
  MkHttpResponse (ha_Status a) (ha_Header a) (len (ha_Body a)) (ha_Body a) None.

(** The server of this service says that it is alive, whatever its state; a server
    that does not know the path, or the method, does not. *)
Lemma healthz_alive {text : FloatText} now t g :
  mime_ParseMediaType "application/json; charset=utf-8" = Some "application/json"%string ->
  json_status (json_object healthResponse) = Some ("alive"%string, true) ->
  exists a, handle "GET" "/healthz" now t g = Some a /\ says_alive (answer_response a).
Proof.
  intros Hm Hj. exists (health_writeJSON "GET" 200 healthResponse). split; [done|].
  split_and!; cbn [answer_response health_writeJSON hp_Status hp_ContentLength hp_Header hp_Body hp_BodyError ha_Status ha_Header ha_Body
    header_Get JSONHeaders]; [done|vm_compute; done|exact Hm|vm_compute; done|done|exact Hj].
Qed.
End Asked.
