(* ===== verification/StoreOpen.v ===== *)
(** * Opening the store ([internal/state/store.go])

    The name of the data source, the two ways to open it, the quick check and the
    end.  The driver is the operations of a world; the statements of the
    migrations are the programs of [Migrate], run on a handle. *)

From S2P Require Export Migrate Credentials.

(** ** The name of the data source

    [url.URL] and [url.Values] for what is written here: the escapes of a path
    and of a component of a query. *)

Definition upper_hex (z : Z) : ascii := if z <? 10 then chr (48 + z) else chr (55 + z).

Definition is_unreserved (c : ascii) : bool :=
  is_digit c || is_lower c || in_range 65 90 (byte_of c) || existsb (Ascii.eqb c) ["-"; "_"; "."; "~"]%char.

(** [shouldEscape], negated: in a path, and in a query. *)
Definition path_plain (c : ascii) : bool :=
  is_unreserved c || existsb (Ascii.eqb c) ["$"; "&"; "+"; ","; "/"; ":"; ";"; "="; "@"]%char.

Definition percent (c : ascii) : string :=
  String "%" (String (upper_hex (byte_of c / 16)) (String (upper_hex (byte_of c mod 16)) "")).

Definition escape_path_char (c : ascii) : string := if path_plain c then String c "" else percent c.
Definition escape_query_char (c : ascii) : string :=
  if Ascii.eqb c " " then "+"%string else if is_unreserved c then String c "" else percent c.

Fixpoint escape (f : ascii -> string) (s : string) : string :=
  match s with EmptyString => "" | String c rest => f c +:+ escape f rest end.

(** [Values.Encode], for pairs in the order of their keys. *)
Definition encode_pair (p : string * string) : string :=
  escape escape_query_char p.1 +:+ String "=" (escape escape_query_char p.2).
Definition encode_values (ps : list (string * string)) : string := String.concat "&" (map encode_pair ps).

(** [URL.String] of a [file] URL with an absolute path. *)
Definition file_url (path : string) (ps : list (string * string)) : string :=
  "file://" +:+ escape escape_path_char path +:+ String "?" (encode_values ps).

Record store_Options : Type := MkStoreOptions { st_Path : string; st_BusyTimeout : Duration; st_IntegrityCheck : bool }.

Definition valid_store_options (o : store_Options) : bool :=
  negb (String.eqb (st_Path o) "" || negb (IsAbs (st_Path o)) || (st_BusyTimeout o <=? 0) || (Minute <? st_BusyTimeout o)).

(** [fmt.Sprintf("busy_timeout(%d)", options.BusyTimeout.Milliseconds())] *)
Definition busy_timeout (o : store_Options) : string := "busy_timeout(" +:+ itoa (Z.quot (st_BusyTimeout o) Millisecond) +:+ ")".

Definition open_error (cause : option error) : error := stateError state.ErrOpen cause.

Definition write_values (o : store_Options) : list (string * string) :=
  [("_pragma", "foreign_keys(1)"); ("_pragma", busy_timeout o); ("_pragma", "trusted_schema(0)"); ("mode", "rwc")]%string.
Definition read_values (o : store_Options) : list (string * string) :=
  [("_pragma", "foreign_keys(1)"); ("_pragma", busy_timeout o); ("_pragma", "query_only(1)"); ("_pragma", "trusted_schema(0)");
   ("mode", "ro")]%string.

Definition dataSourceName (o : store_Options) : Prelude.result error string :=
  if negb (valid_store_options o) then Err (open_error None) else Ok (file_url (st_Path o) (write_values o)).

(** ** The driver *)

(** The rows of a query of one text each, and the error that ends them. *)
Record text_rows : Type := MkTextRows { tr_rows : list (Prelude.result error string); tr_err : option error }.

(** A handle is a number.  [sq_Schema] runs the statements of a migration. *)
Class SqlDriver (D W : Type) : Type := {
  sq_Lstat : string -> M W error bool;
  sq_Open : string -> M W error Z;
  sq_Ping : Z -> M W error unit;
  sq_Exec : Z -> string -> M W error unit;
  sq_Schema : forall A, Z -> M (MW D) error A -> M W error A;
  sq_Rows : Z -> string -> M W error text_rows;
  sq_Chmod : string -> Z -> M W error unit;
  sq_Close : Z -> W -> option error * W }.

Section Open.
Context {D : Type} `{!Scripts D} {W : Type} `{!SqlDriver D W}.
Context (clock : Z -> Time) (dir : Prelude.result error (list DirEntry)).

(** An operation of the driver that fails with a category. *)
Definition driven {A} (c : state.ErrorCategory) (m : M W error A) : M W error A :=
  fun w => match m w with (Err e, w') => (Err (stateError c (Some e)), w') | ok => ok end.

(** The loop over the rows of [PRAGMA quick_check], from [count] on. *)
Fixpoint quick_rows (count : Z) (rows : list (Prelude.result error string)) : Prelude.result error Z :=
  match rows with
  | [] => Ok count
  | row :: rest =>
      if 100 <? count + 1 then Err (stateError state.ErrIntegrity None)
      else match row with
           | Err e => Err (stateError state.ErrIntegrity (Some e))
           | Ok text => if negb (String.eqb text "ok") then Err (stateError state.ErrIntegrity None)
                        else quick_rows (count + 1) rest
           end
  end.

Definition quick_answer (r : text_rows) : Prelude.result error unit :=
  match quick_rows 0 (tr_rows r) with
  | Err e => Err e
  | Ok count =>
      match tr_err r with
      | Some e => Err (stateError state.ErrIntegrity (Some e))
      | None => if negb (count =? 1) then Err (stateError state.ErrIntegrity None) else Ok tt
      end
  end.

Definition QuickCheck (db : Z) : M W error unit :=
  let! rows := driven state.ErrIntegrity (sq_Rows (D:=D) db "PRAGMA quick_check") in
  match quick_answer rows with Ok _ => mok tt | Err e => mfail e end.

(** What is done with a new handle; it is closed when that fails. *)
Definition opened (db : Z) (body : M W error unit) : M W error Z := fun w =>
  match body w with
  | (Ok _, w) => (Ok db, w)
  | (Err e, w) => let '(_, w) := sq_Close (D:=D) db w in (Err e, w)
  end.

Definition open_pragmas : list string :=
  ["PRAGMA journal_mode=WAL"; "PRAGMA synchronous=NORMAL"; "PRAGMA temp_store=MEMORY"; "PRAGMA secure_delete=ON"]%string.

Definition check_integrity (o : store_Options) (db : Z) : M W error unit :=
  if st_IntegrityCheck o then QuickCheck db else mok tt.

Definition Open_body (o : store_Options) (db : Z) : M W error unit :=
  let! _ := driven state.ErrOpen (sq_Ping (D:=D) db) in
  let! _ := mfor (fun pragma => driven state.ErrOpen (sq_Exec (D:=D) db pragma)) open_pragmas in
  match All dir with
  | Err e => mfail (stateError state.ErrMigration (Some e))
  | Ok all =>
      let! _ := sq_Schema unit db (Migrate clock all) in
      let! _ := check_integrity o db in
      driven state.ErrOpen (sq_Chmod (D:=D) (st_Path o) 384)
  end.

Definition Open (o : store_Options) : M W error Z :=
  match dataSourceName o with
  | Err e => mfail e
  | Ok dsn =>
      let! db := driven state.ErrOpen (sq_Open (D:=D) dsn) in
      opened db (Open_body o db)
  end.

Definition readOnlyDataSourceName (o : store_Options) : M W error string :=
  if negb (valid_store_options o) then mfail (open_error None)
  else
    let! regular := driven state.ErrOpen (sq_Lstat (D:=D) (st_Path o)) in
    if negb regular then mfail (open_error None) else mok (file_url (st_Path o) (read_values o)).

Definition OpenReadOnly_body (o : store_Options) (db : Z) : M W error unit :=
  let! _ := driven state.ErrOpen (sq_Ping (D:=D) db) in
  let! _ := sq_Schema unit db (verifyReadOnlyMigrations (All dir)) in
  check_integrity o db.

Definition OpenReadOnly (o : store_Options) : M W error Z :=
  let! dsn := readOnlyDataSourceName o in
  let! db := driven state.ErrOpen (sq_Open (D:=D) dsn) in
  opened db (OpenReadOnly_body o db).

(** [Store.Close] *)
Definition store_Close (db : Z) (w : W) : option error * W :=
  match sq_Close (D:=D) db w with
  | (Some e, w) => (Some (open_error (Some e)), w)
  | (None, w) => (None, w)
  end.
End Open.
