(* ===== verification/StoreOpenRun.v ===== *)
(** * What opening the store guarantees

    No path can reach into the rest of the name of its data source; and a handle
    is given out only after everything it needs, and closed otherwise. *)

From S2P Require Export StoreOpen MigrateRun MetricsText.

(** ** The name of the data source *)

(** The inverse of the escapes; [plus] is set in a query. *)
Fixpoint url_unescape (plus : bool) (s : string) : option string :=
  match s with
  | EmptyString => Some ""%string
  | String c rest =>
      if Ascii.eqb c "%" then
        match rest with
        | String a (String b rest) =>
            match hex_value a, hex_value b with
            | Some x, Some y => String (chr (16 * x + y)) <$> url_unescape plus rest
            | _, _ => None
            end
        | _ => None
        end
      else String (if plus && Ascii.eqb c "+" then " "%char else c) <$> url_unescape plus rest
  end.

(** What a reader of a [file] URL finds: the path, and the pairs of the query. *)
Definition read_pair (s : string) : option (string * string) :=
  match cut_byte "=" s with
  | Some (k, v) => k ← url_unescape true k; v ← url_unescape true v; Some (k, v)
  | None => None
  end.
Fixpoint read_values_text (fuel : nat) (s : string) : option (list (string * string)) :=
  match fuel with
  | O => None
  | S fuel =>
      match cut_byte "&" s with
      | Some (first, rest) => p ← read_pair first; ps ← read_values_text fuel rest; Some (p :: ps)
      | None => p ← read_pair s; Some [p]
      end
  end.
Definition read_file_url (s : string) : option (string * list (string * string)) :=
  rest ← cut_prefix "file://" s;
  match cut_byte "?" rest with
  | Some (path, query) => path ← url_unescape false path; ps ← read_values_text 9 query; Some (path, ps)
  | None => None
  end.

Lemma unescape_path_char c rest :
  url_unescape false (escape_path_char c +:+ rest) = String c <$> url_unescape false rest.
Proof. destruct c as [[] [] [] [] [] [] [] []]; reflexivity. Qed.
Lemma unescape_query_char c rest :
  url_unescape true (escape_query_char c +:+ rest) = String c <$> url_unescape true rest.
Proof. destruct c as [[] [] [] [] [] [] [] []]; reflexivity. Qed.

Lemma unescape_escape plus f s :
  (forall c rest, url_unescape plus (f c +:+ rest) = String c <$> url_unescape plus rest) ->
  url_unescape plus (escape f s) = Some s.
Proof. intros H. induction s as [|c s IH]; [done|]. cbn [escape]. by rewrite H, IH. Qed.

Lemma escape_free f s cs : (forall c, free_of cs (f c) = true) -> free_of cs (escape f s) = true.
Proof. intros H. induction s as [|c s IH]; [done|]. cbn [escape]. by rewrite free_of_app, H. Qed.

Lemma path_char_free c : free_of ["?"%char] (escape_path_char c) = true.
Proof. destruct c as [[] [] [] [] [] [] [] []]; reflexivity. Qed.
Lemma query_char_free c : free_of ["&"%char; "="%char] (escape_query_char c) = true.
Proof. destruct c as [[] [] [] [] [] [] [] []]; reflexivity. Qed.

Lemma free_of_sub cs ds s : (forall d, d ∈ ds -> d ∈ cs) -> free_of cs s = true -> free_of ds s = true.
Proof.
  intros Hsub. unfold free_of. induction s as [|c s IH]; [done|]. cbn [all_chars]. rewrite !andb_true_iff, !negb_true_iff.
  intros [Hc Hs]. split; [|by apply IH]. apply not_true_iff_false. rewrite existsb_exists. intros (d & Hd & E).
  apply list_elem_of_In, Hsub, list_elem_of_In in Hd. apply not_true_iff_false in Hc. apply Hc. apply existsb_exists. by exists d.
Qed.

Lemma read_encode_pair p : read_pair (encode_pair p) = Some p.
Proof.
  unfold read_pair, encode_pair. rewrite cut_byte_free.
  - rewrite !unescape_escape by apply unescape_query_char. by destruct p.
  - eapply free_of_sub, escape_free, query_char_free. intros d Hd. apply list_elem_of_singleton in Hd as ->. apply elem_of_cons; right. by left.
Qed.

Lemma encode_pair_free p : free_of ["&"%char] (encode_pair p) = true.
Proof.
  unfold encode_pair. rewrite free_of_app. change (String "=" ?x) with ("=" +:+ x)%string. rewrite free_of_app.
  assert (forall s, free_of ["&"%char] (escape escape_query_char s) = true) as H; [|by rewrite !H].
  intros s. eapply free_of_sub, escape_free, query_char_free. intros d Hd. apply list_elem_of_singleton in Hd as ->. by left.
Qed.

Lemma read_encode_values ps fuel : ps <> [] -> (List.length ps <= fuel)%nat -> read_values_text fuel (encode_values ps) = Some ps.
Proof.
  revert fuel. induction ps as [|p [|q ps] IH]; intros [|fuel] Hne Hl; [done|done|cbn in Hl; lia|..|cbn in Hl; lia|]; cbn [read_values_text].
  - change (encode_values [p]) with (encode_pair p). rewrite cut_byte_free_none by apply encode_pair_free. by rewrite read_encode_pair.
  - change (encode_values (p :: q :: ps)) with (encode_pair p +:+ String "&" (encode_values (q :: ps))).
    rewrite cut_byte_free by apply encode_pair_free. rewrite read_encode_pair. cbn [mbind option_bind].
    rewrite IH; [done|done|cbn in *; lia].
Qed.

Lemma read_file_url_of path ps : ps <> [] -> (List.length ps <= 9)%nat -> read_file_url (file_url path ps) = Some (path, ps).
Proof.
  intros Hne Hl. unfold read_file_url, file_url. change (cut_prefix "file://" ("file://" +:+ ?x)) with (Some x). cbn [mbind option_bind].
  rewrite cut_byte_free by apply escape_free, path_char_free.
  rewrite unescape_escape by apply unescape_path_char. cbn [mbind option_bind]. by rewrite read_encode_values.
Qed.

(** ** What is done to the driver *)

Inductive driver_act {D : Type} : Type :=
| DLstat (path : string) (r : Prelude.result error bool)
| DOpen (dsn : string) (r : Prelude.result error Z)
| DPing (db : Z) (r : Prelude.result error unit)
| DExec (db : Z) (pragma : string) (r : Prelude.result error unit)
| DSchema (db : Z) (A : Type) (body : M (MW D) error A) (done : bool)
| DRows (db : Z) (sql : string) (r : Prelude.result error text_rows)
| DChmod (path : string) (mode : Z) (r : Prelude.result error unit)
| DClose (db : Z) (r : option error).
Arguments driver_act D : clear implicits.

Section Logged.
Context {D : Type} {W : Type} `{!SqlDriver D W}.

Definition driver_note {A} (m : M W error A) (note : Prelude.result error A -> driver_act D) : M (W * list (driver_act D)) error A :=
  fun wl => let '(r, w) := m wl.1 in (r, (w, wl.2 ++ [note r])).

Definition succeeded {A} (r : Prelude.result error A) : bool := match r with Ok _ => true | Err _ => false end.

#[export] Instance driver_logged : SqlDriver D (W * list (driver_act D)) := {|
  sq_Lstat path := driver_note (sq_Lstat (D:=D) path) (DLstat path);
  sq_Open dsn := driver_note (sq_Open (D:=D) dsn) (DOpen dsn);
  sq_Ping db := driver_note (sq_Ping (D:=D) db) (DPing db);
  sq_Exec db pragma := driver_note (sq_Exec (D:=D) db pragma) (DExec db pragma);
  sq_Schema A db body := driver_note (sq_Schema A db body) (fun r => DSchema db A body (succeeded r));
  sq_Rows db sql := driver_note (sq_Rows (D:=D) db sql) (DRows db sql);
  sq_Chmod path mode := driver_note (sq_Chmod (D:=D) path mode) (DChmod path mode);
  sq_Close db wl := let '(e, w) := sq_Close (D:=D) db wl.1 in (e, (w, wl.2 ++ [DClose db e])) |}.
End Logged.

(** A handle is used: it is neither opened nor closed. *)
Definition on_handle {D} (db : Z) (a : driver_act D) : bool :=
  match a with
  | DPing h _ | DExec h _ _ | DSchema h _ _ _ | DRows h _ _ => h =? db
  | DChmod _ _ _ => true
  | DLstat _ _ | DOpen _ _ | DClose _ _ => false
  end.

(** The quick check is clean exactly when its only row is [ok]. *)
Lemma quick_answer_ok r : quick_answer r = Ok tt <-> r = MkTextRows [Ok "ok"%string] None.
Proof.
  split; [|by intros ->]. unfold quick_answer. destruct r as [rows err]. cbn [tr_rows tr_err].
  assert (forall n count, 0 <= count -> quick_rows count rows = Ok n -> n = count + Z.of_nat (List.length rows) /\ Forall (fun r => r = Ok "ok"%string) rows) as H.
  { induction rows as [|row rows IH]; intros n count Hc; cbn [quick_rows]; [intros [= <-]; split; [cbn; lia|done]|].
    destruct (100 <? count + 1); [done|]. destruct row as [text|]; [|done].
    destruct (String.eqb_spec text "ok") as [->|]; [|done]. cbn [negb]. intros E. apply IH in E as [-> ?]; [|lia].
    split; [cbn [List.length]; lia|by constructor]. }
  destruct (quick_rows 0 rows) as [n|] eqn:E; [|done]. destruct err; [done|]. destruct (Z.eqb_spec n 1) as [->|]; [|done].
  intros _. apply H in E as [El Hf]; [|lia]. destruct rows as [|row [|]]; [cbn in El; lia| |cbn in El; lia].
  by inversion Hf; subst.
Qed.

Section Trace.
Context {D : Type} `{!Scripts D} {W : Type} `{!SqlDriver D W}.
Abbreviation LW := (W * list (driver_act D))%type.

(** A program that uses a handle: it adds [good] when it succeeds, and only uses
    of the handle otherwise. *)
Definition handling {A} (db : Z) (m : M LW error A) (good : list (driver_act D) -> Prop) : Prop :=
  forall w acts, let '(r, (_, acts')) := m (w, acts) in
    exists new, acts' = acts ++ new /\ Forall (fun a => on_handle db a = true) new /\ (succeeded r = true -> good new).

Lemma handling_impl {A} db (m : M LW error A) (P Q : list (driver_act D) -> Prop) : (forall l, P l -> Q l) -> handling db m P -> handling db m Q.
Proof.
  intros H Hm w acts. specialize (Hm w acts). destruct (m (w, acts)) as [r [w' acts']].
  destruct Hm as (new & ? & ? & ?). exists new. eauto.
Qed.

Lemma handling_done {A} db (a : A) : handling db (mok a) (eq []).
Proof. intros w acts. exists []. by rewrite app_nil_r. Qed.

Lemma handling_failed {A} db e P : handling db (mfail e : M LW error A) P.
Proof. intros w acts. exists []. by rewrite app_nil_r. Qed.

(** One operation of the driver, with its category. *)
Lemma handling_driven {A} db c (m : M W error A) note :
  (forall r, on_handle db (note r) = true) -> handling db (driven c (driver_note m note)) (fun l => exists a, l = [note (Ok a)]).
Proof.
  intros H w acts. unfold driven, driver_note. cbn [fst snd]. destruct (m w) as [[a|e] w'];
    (eexists; split; [reflexivity|split; [by repeat constructor|]]); [intros _; by exists a|done].
Qed.

Lemma handling_then {A B} db (m : M LW error A) (k : A -> M LW error B) P Q :
  handling db m P -> (forall a, handling db (k a) Q) ->
  handling db (mthen m k) (fun l => exists l1 l2, l = l1 ++ l2 /\ P l1 /\ Q l2).
Proof.
  intros Hm Hk w acts. unfold mthen. specialize (Hm w acts). destruct (m (w, acts)) as [[a|e] [w1 acts1]].
  - destruct Hm as (n1 & -> & H1 & G1). specialize (Hk a w1 (acts ++ n1)). destruct (k a _) as [r [w2 acts2]].
    destruct Hk as (n2 & -> & H2 & G2). exists (n1 ++ n2). rewrite app_assoc. split_and!; [done|by apply Forall_app|].
    intros Hr. exists n1, n2. auto.
  - destruct Hm as (n1 & -> & H1 & _). exists n1. by split_and!.
Qed.

(** The handle that is opened is closed when its use fails. *)
Lemma opened_trace db (body : M LW error unit) good w acts : handling db body good ->
  let '(r, (_, acts')) := opened (D:=D) db body (w, acts) in
  exists new, Forall (fun a => on_handle db a = true) new /\
    match r with
    | Ok h => h = db /\ acts' = acts ++ new /\ good new
    | Err _ => exists e, acts' = acts ++ new ++ [DClose db e]
    end.
Proof.
  intros H. specialize (H w acts). unfold opened. destruct (body (w, acts)) as [[[]|e] [w1 acts1]].
  - destruct H as (new & -> & Hu & Hg). exists new. split_and!; auto.
  - destruct H as (new & -> & Hu & _). cbn [sq_Close driver_logged fst snd]. destruct (sq_Close _ _) as [ce w2].
    exists new. split; [done|]. exists ce. by rewrite app_assoc.
Qed.

(** A clean quick check, if one is asked for. *)
Definition checked (o : store_Options) (db : Z) (l : list (driver_act D)) : Prop :=
  if st_IntegrityCheck o then l = [DRows db "PRAGMA quick_check" (Ok (MkTextRows [Ok "ok"%string] None))] else l = [].

Lemma check_integrity_handling o db : handling db (check_integrity (D:=D) o db) (checked o db).
Proof.
  unfold check_integrity, checked. destruct (st_IntegrityCheck o); [|eapply handling_impl, handling_done; by intros ? <-].
  intros w acts. unfold QuickCheck, mthen, driven. cbn [sq_Rows driver_logged]. unfold driver_note. cbn [fst snd].
  destruct (sq_Rows _ _ _) as [[rows|e] w1].
  - destruct (quick_answer rows) as [[]|e] eqn:E; (eexists; split; [reflexivity|split; [repeat constructor; cbn; lia|]]); [|done].
    intros _. by apply quick_answer_ok in E as ->.
  - eexists. split; [reflexivity|]. split; [repeat constructor; cbn; lia|done].
Qed.

Lemma handling_for {A} db (f : A -> M LW error unit) (note : A -> driver_act D) xs :
  (forall x, handling db (f x) (fun l => l = [note x])) -> handling db (mfor f xs) (fun l => l = map note xs).
Proof.
  intros H. induction xs as [|x xs IH]; [eapply handling_impl, handling_done; by intros ? <-|].
  eapply handling_impl, (handling_then db _ _ _ _ (H x) (fun _ => IH)). by intros ? (? & ? & -> & -> & ->).
Qed.

Lemma handling_schema {A} db (body : M (MW D) error A) :
  handling db (sq_Schema (W:=LW) A db body) (fun l => l = [DSchema db A body true]).
Proof.
  intros w acts. cbn [sq_Schema driver_logged]. unfold driver_note. cbn [fst snd]. destruct (sq_Schema A db body w) as [[a|e] w1];
    (eexists; split; [reflexivity|split; [repeat constructor; cbn; lia|done]]).
Qed.

Lemma handling_unit db c (m : M W error unit) note :
  (forall r, on_handle db (note r) = true) -> handling db (driven c (driver_note m note)) (fun l => l = [note (Ok tt)]).
Proof. intros H. eapply handling_impl, (handling_driven db c m note H). by intros ? [[] ->]. Qed.

Context (clock : Z -> Time) (dir : Prelude.result error (list DirEntry)) (o : store_Options).

(** What a run of the migrations does: one that succeeds knows every version
    that was applied, runs the scripts of the others in their order and records
    them; one that fails changes nothing; and one that may succeed does. *)
Definition brings_up (body : M (MW D) error unit) : Prop :=
  exists all, All dir = Ok all /\ forall v,
    let t := table_of (mw_db v) in
    match body v with
    | (Ok _, v') =>
        table_known all t /\ run_scripts (pending t all) (md_data (mw_db v)) = Ok (md_data (mw_db v')) /\
        exists t', md_table (mw_db v') = Some t' /\ forall n, t' !! n =
          match t !! n with
          | Some row => Some row
          | None => if 1 <=? n
                    then (fun m => MkMigRow (mg_Name m) (mg_Checksum m) (unix (clock (mg_Version m)))) <$> all !! Z.to_nat (n - 1)
                    else None
          end
    | (Err _, v') =>
        mw_db v' = mw_db v /\
        ~ (mw_faults v = [] /\ table_known all t /\ exists data, run_scripts (pending t all) (md_data (mw_db v)) = Ok data)
    end.

(** The versions of a table are exactly those of the program, with their checksums. *)
Definition applied_exactly (all : list Migration) (t : gmap Z mig_row) : Prop :=
  forall n, mr_checksum <$> t !! n = if 1 <=? n then mg_Checksum <$> all !! Z.to_nat (n - 1) else None.

(** What a check of the versions does: nothing is changed, and it succeeds only
    for a table with exactly the versions of the program, and then always unless
    a statement fails. *)
Definition only_compares (body : M (MW D) error unit) : Prop :=
  forall v, let '(r, v') := body v in
    let exact := exists all t, All dir = Ok all /\ md_table (mw_db v) = Some t /\ applied_exactly all t in
    mw_db v' = mw_db v /\ (r = Ok tt -> exact) /\ (mw_faults v = [] -> exact -> r = Ok tt).

(** Everything a store needs before it may be written. *)
Definition ready_to_write (db : Z) (l : list (driver_act D)) : Prop :=
  exists c migrations, checked o db c /\ brings_up migrations /\
    l = [DPing db (Ok tt); DExec db "PRAGMA journal_mode=WAL" (Ok tt); DExec db "PRAGMA synchronous=NORMAL" (Ok tt);
         DExec db "PRAGMA temp_store=MEMORY" (Ok tt); DExec db "PRAGMA secure_delete=ON" (Ok tt);
         DSchema db unit migrations true] ++ c ++ [DChmod (st_Path o) 384 (Ok tt)].

(** And before it may be read: nothing of it is changed. *)
Definition ready_to_read (db : Z) (l : list (driver_act D)) : Prop :=
  exists c comparison, checked o db c /\ only_compares comparison /\
    l = [DPing db (Ok tt); DSchema db unit comparison true] ++ c.

Lemma Migrate_brings_up all : All dir = Ok all -> brings_up (Migrate clock all).
Proof.
  intros Ha. exists all. split; [done |]. intros v t. destruct (Migrate clock all v) as [[[] | e] v'] eqn:E.
  - apply Migrate_Ok in E as (_ & Hn%numbered_versions & Hk & Ht & Hr). do 2 (split; [done |]). eexists. split; [exact Ht |].
    intros n. by apply migrated_row.
  - split.
    + unfold Migrate in E. destruct (validateMigrations all); [by injection E as _ <- | by eapply mtx_Err].
    + intros (Hf & Hk & data & Hd). pose proof (Migrate_exact clock all v) as H. rewrite E in H. destruct H as (_ & _ & H).
      assert (validateMigrations all = None) as [Hne Hn]%validateMigrations_numbered by (by eapply All_valid).
      by discriminate (H Hf Hne Hn Hk (ex_intro _ data Hd)).
Qed.

Lemma verify_rows_exact rows all : verify_rows rows all = true -> rows = map (fun m => (mg_Version m, mg_Checksum m)) all.
Proof.
  revert all. induction rows as [| [version checksum] rows IH]; intros [| m all]; cbn [verify_rows]; try done.
  rewrite andb_true_iff, negb_true_iff, orb_false_iff, !negb_false_iff, Z.eqb_eq, String.eqb_eq.
  intros [[-> ->] H]. cbn [map]. f_equal. by apply IH.
Qed.

Lemma applied_exactly_verified all t : versions_from 0 all ->
  verify_rows (applied_versions t) all = true <-> applied_exactly all t.
Proof.
  intros Hv. split.
  - intros H%verify_rows_exact n.
    assert (forall c, (exists row, t !! n = Some row /\ c = mr_checksum row) <->
                      exists m, m ∈ all /\ mg_Version m = n /\ c = mg_Checksum m) as Hin.
    { intros c. rewrite <- in_applied, H, list_elem_of_fmap. split; [intros (m & [= -> ->] & Hm) | intros (m & Hm & <- & ->)]; eauto. }
    destruct (t !! n) as [row |] eqn:E; cbn [fmap option_fmap option_map].
    + destruct (proj1 (Hin (mr_checksum row)) (ex_intro _ row (conj eq_refl eq_refl))) as (m & [i Hi]%list_elem_of_lookup_1 & <- & Hc).
      pose proof (versions_lookup _ _ _ _ Hv Hi) as En. destruct (Z.leb_spec 1 (mg_Version m)); [| lia].
      replace (Z.to_nat (mg_Version m - 1)) with i by lia. rewrite Hi. cbn. by rewrite Hc.
    + destruct (Z.leb_spec 1 n); [| done]. destruct (all !! Z.to_nat (n - 1)) as [m |] eqn:Em; [| done]. exfalso.
      pose proof (versions_lookup _ _ _ _ Hv Em) as En. destruct (proj2 (Hin (mg_Checksum m))) as (row & ? & _); [| done].
      exists m. split; [by eapply list_elem_of_lookup_2 | split; [lia | done]].
  - intros H. rewrite (applied_versions_items all); [apply verify_rows_items | done | |].
    + intros n row Hn. specialize (H n). rewrite Hn in H. cbn in H. destruct (Z.leb_spec 1 n); [| done]. split; [done |].
      destruct (all !! Z.to_nat (n - 1)) as [m |] eqn:Em; [| done]. injection H as H. eauto.
    + intros m [i Hi]%list_elem_of_lookup_1. pose proof (versions_lookup _ _ _ _ Hv Hi) as En. specialize (H (mg_Version m)).
      destruct (Z.leb_spec 1 (mg_Version m)); [| lia]. replace (Z.to_nat (mg_Version m - 1)) with i in H by lia.
      rewrite Hi in H. destruct (t !! mg_Version m); [by eexists | done].
Qed.

Lemma verify_only_compares : only_compares (verifyReadOnlyMigrations (All dir)).
Proof.
  intros v. unfold verifyReadOnlyMigrations. destruct (All dir) as [all | e] eqn:Ha.
  2: { split; [done |]. split; [done |]. intros _ (? & ? & ? & _). congruence. }
  assert (Hv : versions_from 0 all).
  { apply numbered_versions. apply All_valid, validateMigrations_numbered in Ha. tauto. }
  unfold mthen, mstmt, select_versions.
  destruct (mw_faults v) as [| [e |] fs] eqn:Hf; [| by split |]; (destruct (md_table (mw_db v)) as [t |] eqn:Et;
    [| split; [done |]; split; [done |]; intros _ (? & ? & _ & ? & _); congruence]);
    cbn beta iota delta [mw_db]; (destruct (verify_rows (applied_versions t) all) eqn:Hr; split; [done | split | done | split]; try done).
  all: try (intros _; exists all, t; split_and!; [done .. |]; by apply applied_exactly_verified).
  all: intros _ (all' & t' & Ha' & Ht' & H); assert (all' = all) as -> by congruence; assert (t' = t) as -> by congruence;
    apply applied_exactly_verified in H; [congruence | done].
Qed.

Lemma migrated_handling db : handling db
  match All dir with
  | Err e => mfail (stateError state.ErrMigration (Some e))
  | Ok all =>
      let! _ := sq_Schema unit db (Migrate clock all) in
      let! _ := check_integrity (D:=D) o db in
      driven state.ErrOpen (sq_Chmod (D:=D) (st_Path o) 384)
  end
  (fun l => exists c migrations, checked o db c /\ brings_up migrations /\
     l = DSchema db unit migrations true :: c ++ [DChmod (st_Path o) 384 (Ok tt)]).
Proof.
  destruct (All dir) as [all | e] eqn:Ha; [| apply handling_failed]. eapply handling_impl.
  2: { apply handling_then; [apply handling_schema |]. intros _. apply handling_then; [apply check_integrity_handling |]. intros _.
       by apply (handling_unit db _ _ (DChmod (st_Path o) 384)). }
  intros l (? & ? & -> & -> & c & ? & -> & Hc & ->). exists c, (Migrate clock all). split_and!; [done | by apply Migrate_brings_up | done].
Qed.

Lemma Open_body_handling db : handling db (Open_body clock dir o db) (ready_to_write db).
Proof.
  unfold Open_body. eapply handling_impl.
  2: { apply handling_then; [apply (handling_unit db _ _ (DPing db)); intros; cbn; lia |]. intros _.
       apply handling_then; [apply (handling_for db _ (fun pragma => DExec db pragma (Ok tt))) | intros _; apply migrated_handling].
       intros pragma. apply (handling_unit db _ _ (DExec db pragma)). intros; cbn; lia. }
  intros l (? & ? & -> & -> & ? & ? & -> & -> & c & migrations & Hc & Hm & ->). by exists c, migrations.
Qed.

Lemma OpenReadOnly_body_handling db : handling db (OpenReadOnly_body dir o db) (ready_to_read db).
Proof.
  unfold OpenReadOnly_body. eapply handling_impl.
  2: { apply handling_then; [apply (handling_unit db _ _ (DPing db)); intros; cbn; lia |]. intros _.
       apply handling_then; [apply handling_schema |]. intros _. apply check_integrity_handling. }
  intros l (? & ? & -> & -> & ? & c & -> & -> & Hc). exists c, (verifyReadOnlyMigrations (All dir)).
  split_and!; [done | exact verify_only_compares | done].
Qed.

(** An attempt to open the file of the options: [before] is what came first. *)
Inductive opening (values : list (string * string)) (good : Z -> list (driver_act D) -> Prop) (before : list (driver_act D))
  : Prelude.result error Z -> list (driver_act D) -> Prop :=
| opening_refused e dsn cause : read_file_url dsn = Some (st_Path o, values) ->
    opening values good before (Err e) (before ++ [DOpen dsn (Err cause)])
| opening_closed e dsn db new ce : read_file_url dsn = Some (st_Path o, values) -> Forall (fun a => on_handle db a = true) new ->
    opening values good before (Err e) (before ++ DOpen dsn (Ok db) :: new ++ [DClose db ce])
| opening_open dsn db new : read_file_url dsn = Some (st_Path o, values) -> good db new ->
    opening values good before (Ok db) (before ++ DOpen dsn (Ok db) :: new).

Lemma opening_of values good before body (w : W) dsn : read_file_url dsn = Some (st_Path o, values) ->
  (forall db, handling db (body db) (good db)) ->
  let '(r, (_, acts)) := (let! db := driven state.ErrOpen (sq_Open (D:=D) dsn) in opened db (body db)) (w, before) in
  opening values good before r acts.
Proof.
  intros Hd Hb. unfold mthen, driven. cbn [sq_Open driver_logged]. unfold driver_note. cbn [fst snd].
  destruct (sq_Open dsn w) as [[db|e] w1]; [|by apply opening_refused].
  pose proof (opened_trace db (body db) (good db) w1 (before ++ [DOpen dsn (Ok db)]) (Hb db)) as H.
  destruct (opened db (body db) _) as [[h|e] [w2 acts]]; destruct H as (new & Hn & H).
  - destruct H as (-> & -> & Hg). rewrite <- app_assoc. by apply opening_open.
  - destruct H as [ce ->]. rewrite <- app_assoc. by apply opening_closed.
Qed.

(** Options that may be used: an absolute path, and a busy timeout of at most a
    minute. *)
Definition openable (o : store_Options) : Prop :=
  st_Path o <> "" /\ IsAbs (st_Path o) = true /\ 0 < st_BusyTimeout o <= 60000000000.

Lemma valid_store_options_openable : valid_store_options o = true <-> openable o.
Proof.
  unfold valid_store_options, openable. change Minute with 60000000000.
  rewrite negb_true_iff, !orb_false_iff, negb_false_iff, String.eqb_neq, Z.leb_gt, Z.ltb_ge. tauto.
Qed.

Definition timeout_pragma : string := "busy_timeout(" +:+ itoa (Z.quot (st_BusyTimeout o) 1000000) +:+ ")".

(** C36: a store is open exactly when opening it succeeds.  Invalid options touch
    nothing, and for reading nothing but a regular file is opened.  The name of the
    data source reads back as the path, whatever its characters, and the pragmas:
    foreign keys enforced, the busy timeout, no trusted schema, and for reading no
    changes and the mode that only reads.  A handle that was opened is closed, once
    and last, when anything fails.  One that is given out for writing was pinged,
    set to a write-ahead log, normal synchronisation, temporary tables in memory and
    deletion that overwrites, and then brought up to the versions of the program;
    one for reading was pinged and found to have exactly those versions, nothing
    being changed; both passed the quick check if one was asked for, and a file that
    may be written was made private at the end. *)
Theorem opens_or_closes (w : W) :
  (let '(r, (_, acts)) := Open clock dir o (w, []) in
   ~ openable o /\ acts = [] /\ r = Err (open_error None) \/
   openable o /\
   opening [("_pragma", "foreign_keys(1)"); ("_pragma", timeout_pragma); ("_pragma", "trusted_schema(0)"); ("mode", "rwc")]%string
     ready_to_write [] r acts) /\
  (let '(r, (_, acts)) := OpenReadOnly dir o (w, []) in
   ~ openable o /\ acts = [] /\ r = Err (open_error None) \/
   openable o /\
   ((exists found, acts = [DLstat (st_Path o) found] /\ found <> Ok true /\ succeeded r = false) \/
    opening [("_pragma", "foreign_keys(1)"); ("_pragma", timeout_pragma); ("_pragma", "query_only(1)");
        ("_pragma", "trusted_schema(0)"); ("mode", "ro")]%string
      ready_to_read [DLstat (st_Path o) (Ok true)] r acts)).
Proof.
  pose proof valid_store_options_openable as Ho. split.
  - unfold Open, dataSourceName. destruct (valid_store_options o); cbn [negb]; [| left; naive_solver].
    pose proof (opening_of (write_values o) ready_to_write [] (Open_body clock dir o) w _
      (read_file_url_of (st_Path o) (write_values o) ltac:(done) ltac:(cbn; lia)) Open_body_handling) as H.
    destruct (mthen _ _ _) as [r [w' acts]]. right. split; [by apply Ho | done].
  - unfold OpenReadOnly, readOnlyDataSourceName. destruct (valid_store_options o); cbn [negb]; [| left; naive_solver].
    unfold mthen at 1, mthen at 1, driven at 1. cbn [sq_Lstat driver_logged]. unfold driver_note at 1. cbn [fst snd app].
    destruct (sq_Lstat (st_Path o) w) as [[[]|e] w1]; cbn [negb mok mfail].
    + pose proof (opening_of (read_values o) ready_to_read [DLstat (st_Path o) (Ok true)] (OpenReadOnly_body dir o) w1 _
        (read_file_url_of (st_Path o) (read_values o) ltac:(done) ltac:(cbn; lia)) OpenReadOnly_body_handling) as H.
      unfold mok. destruct (mthen _ _ _) as [r [w' acts]]. right. split; [by apply Ho | by right].
    + right. split; [by apply Ho | left]. by exists (Ok false).
    + right. split; [by apply Ho | left]. by exists (Err e).
Qed.
End Trace.

(** A path with the characters of a query. *)
Example dsn_of_strange_path :
  dataSourceName (MkStoreOptions "/var/lib/a?mode=memory&x#1" (5 * Second) true) =
  Ok "file:///var/lib/a%3Fmode=memory&x%231?_pragma=foreign_keys%281%29&_pragma=busy_timeout%285000%29&_pragma=trusted_schema%280%29&mode=rwc"%string.
Proof. vm_compute. reflexivity. Qed.
