(* ===== verification/Production.v ===== *)
(** * Building the service ([internal/app/production.go], [runCLIWithOptions])

    From a configuration to a runtime: every part is made by its own
    constructor, in the order of the code, and whatever was acquired is released
    when one of them refuses.  The file system, the driver, the listener and the
    release of what the standard library keeps are the operations of a world. *)

From S2P Require Export StoreOpen NotifyTransport HealthServer Runtime Syncer Reconcile LapiSession Scheduler Notify LogSafe.

Definition ErrProductionBuild : error := Foreign "production runtime build failure".
Definition ErrOperatorRuntime : error := Foreign "operator runtime failed".

(** What keeps idle connections. *)
Inductive idle_client : Type := IdleFetcher | IdleLAPI | IdleTransport.

(** A listener is a number. *)
Class BuildWorld (W : Type) : Type := {
  b_Listen : string -> string -> M W error Z;
  b_Listener_Close : Z -> W -> W;
  b_Manager_Close : W -> W;
  b_CloseIdleConnections : idle_client -> W -> W;
  b_Destroy : W -> W }.

(** The names of the enabled feeds. *)
Definition enabledFeedNames (cfg : Config) : list string := map fc_Name (List.filter fc_Enabled (cf_Feeds cfg)).

Definition loader_for (cfg : Config) : Loader := MkLoader DefaultMaxBytes true (cs_AllowedHTTPHosts (cf_CrowdSec cfg)).

Definition store_options (cfg : Config) : store_Options :=
  let d := cf_Database cfg in MkStoreOptions (dbc_Path d) (dbc_BusyTimeout d) (dbc_IntegrityCheckOnStart d).

Definition fetcher_options (cfg : Config) : FetcherOptions :=
  let v := cf_Validation cfg in let cs := cf_CrowdSec cfg in
  MkFetcherOptions (vc_UserAgent v) (vc_MaxRedirects v) (vc_AllowHTTP v) (cs_ConnectTimeout cs) (vc_DNSLookupTimeout v)
    (cs_ConnectTimeout cs) (cs_RequestTimeout cs).

Definition lapi_client (cfg : Config) (credentials : Credentials) : result error Client :=
  let cs := cf_CrowdSec cfg in
  lapi_New credentials (vc_UserAgent (cf_Validation cfg)) (cs_RequestTimeout cs) (cs_ConnectTimeout cs) (cs_MaxResponseBytes cs)
    (cs_AuthRefreshBefore cs).

Definition reconciler_for (cfg : Config) (credentials : Credentials) : result error Reconciler :=
  Reconcile.New (cd_Login credentials) (dc_Duration (cf_Decisions cfg)) (dc_RefreshBefore (cf_Decisions cfg))
    (cs_BatchSize (cf_CrowdSec cfg)).

Definition transport_options (cfg : Config) : HTTPOptions :=
  let n := cf_Notifications cfg in
  MkHTTPOptions (nc_ServerURL n) (nc_Topic n) (nc_Token n) (nc_RequestTimeout n) (nc_AllowHTTP n).

Definition manager_for (cfg : Config) : result error Manager :=
  let n := cf_Notifications cfg in
  NewManager (nc_Enabled n) (nc_MinimumSeverity n) (nc_FailureThreshold n) (nc_Cooldown n) (nc_RecoveryNotifications n)
    (nc_SuspiciousChangeNotifications n) (nc_StaleSyncNotifications n) (nc_StartupNotification n)
    (nc_FirstSuccessNotification n) (nc_SuccessNotification n).

Definition job_for (cfg : Config) : result error SyncJob :=
  NewSyncJob (dbc_BusyTimeout (cf_Database cfg)) (nc_StaleSyncAfter (cf_Notifications cfg)).

Definition scheduler_for (cfg : Config) : result error Scheduler :=
  let s := cf_Schedule cfg in let r := sc_Retry s in
  Scheduler_New (sc_Interval s) (sc_StartupJitter s) (sc_RunImmediately s)
    (MkRetryPolicy (rt_MaxAttempts r) (rt_InitialBackoff r) (rt_MaxBackoff r)).

Definition server_options (cfg : Config) : ServerOptions :=
  let s := cf_Server cfg in
  MkServerOptions (sv_ReadHeaderTimeout s) (sv_ReadTimeout s) (sv_WriteTimeout s) (sv_IdleTimeout s) (sv_ShutdownTimeout s).

Definition tracker_for (cfg : Config) : result error Tracker :=
  Tracker_New (sv_ReadinessMaxSyncAge (cf_Server cfg)) (sv_LAPIUnreachableGrace (cf_Server cfg)).

(** The observers of the events: the metrics and the readiness, at the time of
    the clock. *)
Definition event_observers (now : Time) : list (option (Event -> Registry * Tracker -> Registry * Tracker)) :=
  [Some (fun e s => ((metrics_ApplyEvent e s.1).2, s.2)); Some (fun e s => (s.1, (ApplyEvent e now s.2).2))].

Definition runtime_for (cfg : Config) : result error Runtime :=
  let d := cf_Database cfg in
  NewRuntime (if nc_Enabled (cf_Notifications cfg) then 3 else 2) (dbc_HistoryRetention d) (dbc_MaxHistoryEntries d) (24 * Hour).

(** ** What the build owns *)

Record Owned : Type := MkOwned {
  ow_manager : bool; ow_listener : option Z; ow_transport : bool; ow_fetcher : bool; ow_lapi : bool; ow_store : option Z }.

Definition owns_nothing : Owned := MkOwned false None false false false None.
Definition own_store (db : Z) (o : Owned) : Owned :=
  MkOwned (ow_manager o) (ow_listener o) (ow_transport o) (ow_fetcher o) (ow_lapi o) (Some db).
Definition own_lapi (o : Owned) : Owned :=
  MkOwned (ow_manager o) (ow_listener o) (ow_transport o) (ow_fetcher o) true (ow_store o).
Definition own_fetcher (o : Owned) : Owned :=
  MkOwned (ow_manager o) (ow_listener o) (ow_transport o) true (ow_lapi o) (ow_store o).
Definition own_transport (o : Owned) : Owned :=
  MkOwned (ow_manager o) (ow_listener o) true (ow_fetcher o) (ow_lapi o) (ow_store o).
Definition own_manager (o : Owned) : Owned :=
  MkOwned true (ow_listener o) (ow_transport o) (ow_fetcher o) (ow_lapi o) (ow_store o).
Definition own_listener (l : Z) (o : Owned) : Owned :=
  MkOwned (ow_manager o) (Some l) (ow_transport o) (ow_fetcher o) (ow_lapi o) (ow_store o).

(** The runtime with everything it was given. *)
Record Production {http : HttpLibrary} : Type := MkProduction {
  pd_credentials : Credentials; pd_store : Z; pd_lapi : Client; pd_reconciler : Reconciler; pd_fetcher : Fetcher;
  pd_engine : Config; pd_metrics : Registry; pd_tracker : Tracker; pd_observer : EventFanout (Registry * Tracker);
  pd_transport : option HTTPTransport; pd_manager : Manager; pd_job : SyncJob; pd_scheduler : Scheduler;
  pd_server : ServerOptions; pd_listener : Z; pd_runtime : Runtime }.

Section Production.
Context {lib : TextLibrary} {http : HttpLibrary} {urls : UrlLibrary} {codec : CredentialsCodec}.
Context {D : Type} `{!Scripts D} {W : Type} `{!FileSystem W} `{!SqlDriver D W} `{!BuildWorld W}.
Context (clock : Z -> Time) (dir : result error (list DirEntry)) (build : Info) (now : Time).

(** The deferred function, while the build owns what it acquired. *)
Definition release_owned (o : Owned) (w : W) : W :=
  let w := if ow_manager o then b_Manager_Close w else w in
  let w := match ow_listener o with Some l => b_Listener_Close l w | None => w end in
  let w := if ow_transport o then b_CloseIdleConnections IdleTransport w else w in
  let w := if ow_fetcher o then b_CloseIdleConnections IdleFetcher w else w in
  let w := if ow_lapi o then b_CloseIdleConnections IdleLAPI w else w in
  let w := match ow_store o with Some db => (store_Close (D:=D) db w).2 | None => w end in
  b_Destroy w.

(** A build: the world and what it owns. *)
Definition BM (A : Type) : Type := M (W * Owned) error A.

(** Every error becomes the one of the build. *)
Definition build_accept {E A} (r : result E A) : BM A := match r with Ok a => mok a | Err _ => mfail ErrProductionBuild end.
Definition build_attempt {E A} (m : M W E A) : BM A := fun s =>
  match m s.1 with (Ok a, w) => (Ok a, (w, s.2)) | (Err _, w) => (Err ErrProductionBuild, (w, s.2)) end.
Definition build_keep (f : Owned -> Owned) : BM unit := fun s => (Ok tt, (s.1, f s.2)).

Definition build_transport (cfg : Config) : BM (option HTTPTransport) :=
  if nc_Enabled (cf_Notifications cfg) then
    let! t := build_accept (NewHTTPTransport (transport_options cfg)) in
    let! _ := build_keep own_transport in
    mok (Some t)
  else mok None.

(** From the credentials on. *)
Definition build_body (cfg : Config) (logger : logsafe.Logger) (credentials : Credentials) : BM Production :=
  let! store := build_attempt (Open (D:=D) clock dir (store_options cfg)) in
  let! _ := build_keep (own_store store) in
  let! lapi := build_accept (lapi_client cfg credentials) in
  let! _ := build_keep own_lapi in
  let! reconciler := build_accept (reconciler_for cfg credentials) in
  let! fetcher := build_accept (NewFetcher (fetcher_options cfg)) in
  let! _ := build_keep own_fetcher in
  let! engine := build_accept (Engine_New cfg) in
  let! registry := build_accept (metrics_New build (enabledFeedNames cfg)) in
  let! tracker := build_accept (tracker_for cfg) in
  let! observer := build_accept (NewEventFanout (Some logger) (event_observers now)) in
  let! transport := build_transport cfg in
  let! manager := build_accept (manager_for cfg) in
  let! _ := build_keep own_manager in
  let! job := build_accept (job_for cfg) in
  let! scheduler := build_accept (scheduler_for cfg) in
  let! server := build_accept (NewServer (server_options cfg)) in
  let! listener := build_attempt (b_Listen "tcp" (sv_ListenAddress (cf_Server cfg))) in
  let! _ := build_keep (own_listener listener) in
  let! runtime := build_accept (runtime_for cfg) in
  mok (MkProduction _ credentials store lapi reconciler fetcher engine registry tracker observer transport manager job scheduler
         server listener runtime).

Definition BuildProduction (cfg : Config) : M W error Production :=
  match Config_Validate cfg with
  | Err _ => mfail ErrProductionBuild
  | Ok cfg =>
      match logsafe.New (Config.lg_Level (cf_Logging cfg)) with
      | Err _ => mfail ErrProductionBuild
      | Ok logger => fun w =>
          match Load (loader_for cfg) (cs_CredentialsFile (cf_CrowdSec cfg)) w with
          | (Err _, w) => (Err ErrProductionBuild, w)
          | (Ok credentials, w) =>
              match build_body cfg logger credentials (w, owns_nothing) with
              | (Ok p, (w, _)) => (Ok p, w)
              | (Err e, (w, o)) => (Err e, release_owned o w)
              end
          end
      end
  end.

(** ** The command [run] *)

Context (runtime_world : Production -> RuntimeWorld W).

(** [sync] is the one-shot synchronisation; what is printed is left out. *)
Definition runCLI (sync : Config -> M W error ops_Result) (runOnce : bool) (cfg : Config) : M W error unit :=
  match Config_Validate cfg with
  | Err _ => mfail ErrOperatorRuntime
  | Ok cfg =>
      if runOnce then
        let~ r := sync cfg in
        match r with
        | Err _ => mfail ErrOperatorRuntime
        | Ok result =>
            match Result_Validate result with
            | Some _ => mfail ErrOperatorRuntime
            | None => if negb (String.eqb (rs_Outcome result) OutcomeSuccess) then mfail ErrOperatorRuntime else mok tt
            end
        end
      else
        let~ r := BuildProduction cfg in
        match r with
        | Err _ => mfail ErrOperatorRuntime
        | Ok p => fun w =>
            match Runtime_Run (RuntimeWorld0 := runtime_world p) (pd_runtime p) false w with
            | (Some _, w) => (Err ErrOperatorRuntime, w)
            | (None, w) => (Ok tt, w)
            end
        end
  end.
End Production.
