(* ===== verification/Logged.v ===== *)
(** * A world with a log

    The world next to a list of what was done to it: a call that is noted, one
    that is not, and the programs that note nothing. *)

From S2P Require Export StoreOpen.

Section Quiet.
Context {Act W : Type}.
Abbreviation LW := (W * list Act)%type.

Definition quiet {E A} (m : M W E A) : M LW E A := fun wl => let '(r, w) := m wl.1 in (r, (w, wl.2)).
Definition noting {E A} (m : M W E A) (note : result E A -> Act) : M LW E A :=
  fun wl => let '(r, w) := m wl.1 in (r, (w, wl.2 ++ [note r])).

#[export] Instance quiet_files `{!FileSystem W} : FileSystem LW := {|
  f_Lstat path := quiet (f_Lstat path);
  f_Open path := quiet (f_Open path);
  f_Stat file := quiet (f_Stat file);
  f_ReadAll file n := quiet (f_ReadAll file n);
  f_Close file wl := (f_Close file wl.1, wl.2) |}.

(** A program that notes nothing. *)
Definition silent {E A} (m : M LW E A) : Prop := forall w acts, (m (w, acts)).2.2 = acts.

Lemma silent_quiet {E A} (m : M W E A) : silent (quiet m).
Proof. intros w acts. unfold quiet. cbn. by destruct (m w). Qed.
Lemma silent_ok {E A} (a : A) : silent (mok a : M LW E A).
Proof. done. Qed.
Lemma silent_fail {E A} (e : E) : silent (mfail e : M LW E A).
Proof. done. Qed.
Lemma silent_then {E A B} (m : M LW E A) (k : A -> M LW E B) : silent m -> (forall a, silent (k a)) -> silent (mthen m k).
Proof.
  intros Hm Hk w acts. unfold mthen. specialize (Hm w acts). destruct (m (w, acts)) as [[a|e] [w1 acts1]]; cbn in *; subst acts1; [|done].
  apply Hk.
Qed.
Lemma silent_driven {A} c (m : M LW error A) : silent m -> silent (driven c m).
Proof. intros H w acts. unfold driven. specialize (H w acts). by destruct (m (w, acts)) as [[a|e] [w1 acts1]]. Qed.
Lemma silent_tried {A} c (m : M LW error A) : silent m -> silent (tried c m).
Proof. intros H w acts. unfold tried. specialize (H w acts). by destruct (m (w, acts)) as [[a|e] [w1 acts1]]. Qed.
Lemma silent_for {A} (f : A -> M LW error unit) xs : (forall x, silent (f x)) -> silent (mfor f xs).
Proof. intros H. induction xs as [|x xs IH]; [apply silent_ok|]. by apply silent_then. Qed.

End Quiet.

Ltac silence :=
  repeat first [apply silent_ok | apply silent_fail | apply silent_driven | apply silent_tried | apply silent_quiet
               | apply silent_for; intros ? | apply silent_then; [|intros ?] | progress unfold demand, QuickCheck, check_integrity
               | case_match].

Lemma Load_silent {Act W} `{!FileSystem W} {http : HttpLibrary} {lib : TextLibrary} {urls : UrlLibrary}
    {codec : CredentialsCodec} l path : silent (Load l path : M (W * list Act) _ _).
Proof.
  unfold Load. do 4 (apply silent_then; [silence|intros ?]). apply silent_then; [silence|intros file].
  intros w acts. assert (silent (load_open l (if ld_MaxBytes l <=? 0 then DefaultMaxBytes else ld_MaxBytes l) a file : M (W * list Act) _ _)) as H
    by (unfold load_open; silence).
  specialize (H w acts). destruct (load_open _ _ _ _ _) as [r [w1 acts1]]. exact H.
Qed.

