(* ===== verification/ProductionRun.v ===== *)
(** * What building the service guarantees

    Nothing that is acquired is lost: a build that fails releases everything it
    had, once and in its order, and the runtime that a build returns releases
    the rest; and a configuration that was validated is built, unless the
    environment refuses. *)

From S2P Require Export Production Logged RuntimeRun Credentials ConfigReady MetricsRun.

(** ** What is acquired and released *)

Inductive build_act : Type :=
| BOpen (dsn : string) (r : result error Z)
| BClose (db : Z)
| BListen (address : string) (r : result error Z)
| BListenerClose (l : Z)
| BManagerClose
| BCloseIdle (c : idle_client)
| BDestroy.

Section Logged.
Context {D : Type} {W : Type} `{!FileSystem W} `{!SqlDriver D W} `{!BuildWorld W}.
Abbreviation LW := (W * list build_act)%type.

Definition logged_only (f : W -> W) (a : build_act) (wl : LW) : LW := (f wl.1, wl.2 ++ [a]).

#[export] Instance logged_driver : SqlDriver D LW := {|
  sq_Lstat path := quiet (sq_Lstat (D:=D) path);
  sq_Open dsn := noting (sq_Open (D:=D) dsn) (BOpen dsn);
  sq_Ping db := quiet (sq_Ping (D:=D) db);
  sq_Exec db pragma := quiet (sq_Exec (D:=D) db pragma);
  sq_Schema A db body := quiet (sq_Schema A db body);
  sq_Rows db sql := quiet (sq_Rows (D:=D) db sql);
  sq_Chmod path mode := quiet (sq_Chmod (D:=D) path mode);
  sq_Close db wl := let '(e, w) := sq_Close (D:=D) db wl.1 in (e, (w, wl.2 ++ [BClose db])) |}.

#[export] Instance logged_build : BuildWorld LW := {|
  b_Listen network address := noting (b_Listen network address) (BListen address);
  b_Listener_Close l := logged_only (b_Listener_Close l) (BListenerClose l);
  b_Manager_Close := logged_only b_Manager_Close BManagerClose;
  b_CloseIdleConnections c := logged_only (b_CloseIdleConnections c) (BCloseIdle c);
  b_Destroy := logged_only b_Destroy BDestroy |}.
End Logged.

(** What the deferred function releases, in its order. *)
Definition releases (o : Owned) : list build_act :=
  (if ow_manager o then [BManagerClose] else []) ++
  match ow_listener o with Some l => [BListenerClose l] | None => [] end ++
  (if ow_transport o then [BCloseIdle IdleTransport] else []) ++
  (if ow_fetcher o then [BCloseIdle IdleFetcher] else []) ++
  (if ow_lapi o then [BCloseIdle IdleLAPI] else []) ++
  match ow_store o with Some db => [BClose db] | None => [] end ++ [BDestroy].

Section Owns.
Context {lib : TextLibrary} {http : HttpLibrary} {urls : UrlLibrary} {codec : CredentialsCodec}.
Context {D : Type} `{!Scripts D} {W : Type} `{!FileSystem W} `{!SqlDriver D W} `{!BuildWorld W}.
Abbreviation LW := (W * list build_act)%type.

Lemma release_log (o : Owned) (w : LW) : (release_owned (D:=D) o w).2 = w.2 ++ releases o.
Proof.
  destruct o as [m l t f a s]. unfold release_owned, releases, store_Close. cbn.
  destruct m, l as [l|], t, f, a, s as [db|]; cbn; repeat (case_match; cbn); simplify_eq/=;
    rewrite <- ?app_assoc; reflexivity.
Qed.

Context (clock : Z -> Time) (dir : result error (list DirEntry)).

Lemma Open_body_silent o db : silent (Open_body (W:=LW) clock dir o db).
Proof.
  unfold Open_body. silence.
Qed.

(** An attempt to open the store that fails. *)
Definition no_store (l : list build_act) : Prop :=
  l = [] \/ (exists dsn e, l = [BOpen dsn (Err e)]) \/ (exists dsn db, l = [BOpen dsn (Ok db); BClose db]).

Lemma Open_log o w acts :
  match Open (W:=LW) clock dir o (w, acts) with
  | (Ok db, (_, acts')) => exists dsn, acts' = acts ++ [BOpen dsn (Ok db)]
  | (Err _, (_, acts')) => exists new, acts' = acts ++ new /\ no_store new
  end.
Proof.
  unfold Open. destruct (dataSourceName o) as [dsn|e]; [|exists []; rewrite app_nil_r; split; [done|by left]].
  unfold mthen, driven. cbn [sq_Open logged_driver]. unfold noting. cbn [fst snd]. destruct (sq_Open dsn w) as [[db|e] w1].
  2: { exists [BOpen dsn (Err e)]. split; [done|right; left; eauto]. }
  unfold StoreOpen.opened. pose proof (Open_body_silent o db w1 (acts ++ [BOpen dsn (Ok db)])) as H.
  destruct (Open_body _ _ _ _ _) as [[[]|e] [w2 acts2]]; cbn in H; subst acts2; [by exists dsn|].
  cbn [sq_Close logged_driver fst snd]. destruct (sq_Close _ _) as [e' w3]. exists [BOpen dsn (Ok db); BClose db].
  rewrite <- app_assoc. split; [done|right; right; eauto].
Qed.

(** ** Building *)

(** From [P], a build that succeeds ends in [Q], and one that fails in [R]. *)
Abbreviation BS := (Owned -> list build_act -> Prop).
Definition builds {A} (P : BS) (m : BM (W:=LW) A) (Q : A -> BS) (R : BS) : Prop :=
  forall w o acts, P o acts ->
    match m ((w, acts), o) with
    | (Ok a, ((_, acts'), o')) => Q a o' acts'
    | (Err e, ((_, acts'), o')) => e = ErrProductionBuild /\ R o' acts'
    end.

Lemma builds_then {A B} (P : BS) (m : BM A) (k : A -> BM B) Q T R :
  builds P m Q R -> (forall a, builds (Q a) (k a) T R) -> builds P (mthen m k) T R.
Proof.
  intros Hm Hk w o acts HP. unfold mthen. specialize (Hm w o acts HP). destruct (m _) as [[a|e] [[w1 acts1] o1]]; [|done].
  by apply Hk.
Qed.

Lemma builds_accept {E A} (r : result E A) (P R : BS) :
  (forall e o acts, r = Err e -> P o acts -> R o acts) -> builds P (build_accept r) (fun a o acts => P o acts /\ r = Ok a) R.
Proof. intros H w o acts HP. unfold build_accept. destruct r; cbn; eauto. Qed.

Lemma builds_keep f (P R : BS) : builds P (build_keep f) (fun _ o acts => exists o0, P o0 acts /\ o = f o0) R.
Proof. intros w o acts HP. cbn. eauto. Qed.

Lemma builds_ok {A} (a : A) (P : BS) R : builds P (mok a) (fun b o acts => P o acts /\ b = a) R.
Proof. intros w o acts HP. cbn. auto. Qed.

Lemma builds_weaken {A} (P P' : BS) (m : BM A) Q Q' R :
  (forall o acts, P o acts -> P' o acts) -> (forall a o acts, Q' a o acts -> Q a o acts) -> builds P' m Q' R -> builds P m Q R.
Proof.
  intros HP HQ Hm w o acts H. specialize (Hm w o acts (HP _ _ H)). destruct (m _) as [[a|e] [[w1 acts1] o1]]; auto.
Qed.

(** The store is open, and what else is owned. *)
Definition stage (db : Z) (a f t m : bool) : BS := fun o acts =>
  exists dsn, acts = [BOpen dsn (Ok db)] /\ o = MkOwned m None t f a (Some db).

Context (build : Info) (now : Time) (cfg : Config) (credentials : Credentials).

(** A constructor does not accept its settings. *)
Inductive refuses : Prop :=
| refuses_lapi e : lapi_client cfg credentials = Err e -> refuses
| refuses_reconciler e : reconciler_for cfg credentials = Err e -> refuses
| refuses_fetcher e : NewFetcher (fetcher_options cfg) = Err e -> refuses
| refuses_engine e : Engine_New cfg = Err e -> refuses
| refuses_metrics e : metrics_New build (enabledFeedNames cfg) = Err e -> refuses
| refuses_tracker e : tracker_for cfg = Err e -> refuses
| refuses_transport e : nc_Enabled (cf_Notifications cfg) = true -> NewHTTPTransport (transport_options cfg) = Err e -> refuses
| refuses_manager e : manager_for cfg = Err e -> refuses
| refuses_job e : job_for cfg = Err e -> refuses
| refuses_scheduler e : scheduler_for cfg = Err e -> refuses
| refuses_server e : NewServer (server_options cfg) = Err e -> refuses
| refuses_runtime e : runtime_for cfg = Err e -> refuses.

(** What had been made, by the settings alone: the constructors come in the order
    of the code, and each is reached when those before it accepted. *)
Definition is_made {E A} (r : result E A) : bool := match r with Ok _ => true | Err _ => false end.
Definition lapi_made : bool := is_made (lapi_client cfg credentials).
Definition fetcher_made : bool :=
  lapi_made && is_made (reconciler_for cfg credentials) && is_made (NewFetcher (fetcher_options cfg)).
Definition observed : bool :=
  fetcher_made && is_made (Engine_New cfg) && is_made (metrics_New build (enabledFeedNames cfg)) && is_made (tracker_for cfg).
Definition notifies : bool := nc_Enabled (cf_Notifications cfg).
Definition transport_made : bool := observed && notifies && is_made (NewHTTPTransport (transport_options cfg)).
Definition manager_made : bool :=
  observed && (negb notifies || is_made (NewHTTPTransport (transport_options cfg))) && is_made (manager_for cfg).

(** All of that, with the store and the listener. *)
Definition made (db : Z) (listener : option Z) : Owned :=
  MkOwned manager_made listener transport_made fetcher_made lapi_made (Some db).

(** All was made before the address is listened on. *)
Lemma made_before_listening db : manager_made = true -> made db None = MkOwned true None notifies true true (Some db).
Proof.
  unfold made, transport_made. intros Hm. rewrite Hm. revert Hm. unfold manager_made, observed, fetcher_made.
  rewrite !andb_true_iff. intros H. decompose [and] H. clear H.
  repeat match goal with E : ?b = true |- context [?b] => rewrite E end. cbn [andb].
  destruct notifies; [|done]. cbn [negb orb andb] in *. by repeat match goal with E : ?b = true |- context [?b] => rewrite E end.
Qed.

(** What a build that fails owns then, and what it did before. *)
Inductive held : BS :=
| held_nothing l : no_store l -> held owns_nothing l
| held_some dsn db : refuses -> held (made db None) [BOpen dsn (Ok db)]
| held_no_listener dsn db e : manager_made = true ->
    held (made db None) [BOpen dsn (Ok db); BListen (sv_ListenAddress (cf_Server cfg)) (Err e)]
| held_everything dsn db l : manager_made = true -> refuses ->
    held (made db (Some l)) [BOpen dsn (Ok db); BListen (sv_ListenAddress (cf_Server cfg)) (Ok l)].

(** The constructor that comes next. *)
Lemma builds_next {E A B} db a f t m (r : result E A) (k : A -> BM B) T :
  (forall e, r = Err e -> refuses /\ made db None = MkOwned m None t f a (Some db)) ->
  (forall x, r = Ok x -> builds (stage db a f t m) (k x) T held) ->
  builds (stage db a f t m) (mthen (build_accept r) k) T held.
Proof.
  intros Hr Hk. eapply builds_then; [apply builds_accept|].
  - intros e o acts He (dsn & -> & ->). destruct (Hr e He) as [Hf <-]. by apply held_some.
  - cbn. intros x w o acts [H Hx]. by apply Hk.
Qed.

(** Which constructors accepted is known by now. *)
Ltac by_settings :=
  unfold made, manager_made, transport_made, observed, notifies, fetcher_made, lapi_made;
  repeat match goal with H : ?r = Ok _ |- context [is_made ?r] => rewrite H | H : ?r = Err _ |- context [is_made ?r] => rewrite H end;
  cbn [is_made andb orb negb]; rewrite ?andb_false_r; try done.
Ltac refused := intros ? ?; split; [eauto using refuses|by by_settings].

(** Something more is owned. *)
Lemma builds_owns {B} f (k : BM B) P P' T :
  (forall o acts, P o acts -> P' (f o) acts) -> builds P' k T held -> builds P (let! _ := build_keep f in k) T held.
Proof.
  intros HP Hk. eapply builds_then; [apply builds_keep|]. cbn. intros _ w o acts (o0 & H & ->). apply Hk. by apply HP.
Qed.

(** The production of a build: what it acquired, and its parts. *)
Record produced (p : Production) (acts : list build_act) : Prop := MkProduced {
  pr_acquired : exists dsn, acts = [BOpen dsn (Ok (pd_store p)); BListen (sv_ListenAddress (cf_Server cfg)) (Ok (pd_listener p))];
  pr_credentials : pd_credentials p = credentials;
  pr_transport : match pd_transport p with
                 | Some t => nc_Enabled (cf_Notifications cfg) = true /\ NewHTTPTransport (transport_options cfg) = Ok t
                 | None => nc_Enabled (cf_Notifications cfg) = false
                 end;
  pr_runtime : runtime_for cfg = Ok (pd_runtime p) }.

Lemma build_transport_builds {B} db (k : option HTTPTransport -> BM B) T : observed = true ->
  (forall t, match t with
             | Some t => nc_Enabled (cf_Notifications cfg) = true /\ NewHTTPTransport (transport_options cfg) = Ok t
             | None => nc_Enabled (cf_Notifications cfg) = false
             end -> builds (stage db true true (bool_decide (t <> None)) false) (k t) T held) ->
  builds (stage db true true false false) (mthen (build_transport cfg) k) T held.
Proof.
  intros Ho Hk. assert (fetcher_made = true /\ lapi_made = true) as [Hf Hl].
  { revert Ho. unfold observed, fetcher_made. rewrite !andb_true_iff. tauto. }
  unfold build_transport. destruct (nc_Enabled (cf_Notifications cfg)) eqn:E.
  - destruct (NewHTTPTransport (transport_options cfg)) as [t|e] eqn:Et.
    + intros w o acts (dsn & -> & ->). cbn. unfold mthen, build_keep, mok. cbn. apply (Hk (Some t)); [by split|]. cbn. by exists dsn.
    + intros w o acts (dsn & -> & ->). cbn. split; [done|].
      assert (MkOwned false None false true true (Some db) = made db None) as ->; [|by apply held_some; eapply refuses_transport].
      unfold made, manager_made, transport_made, notifies. by rewrite Ho, Hf, Hl, E, Et.
  - intros w o acts H. cbn. unfold mthen, mok. by apply (Hk None).
Qed.

Lemma build_body_builds logger :
  builds (fun o acts => o = owns_nothing /\ acts = [])
    (build_body clock dir build now cfg logger credentials) (fun p _ acts => produced p acts) held.
Proof.
  unfold build_body. eapply (builds_then _ _ _ (fun db o acts => o = owns_nothing /\ exists dsn, acts = [BOpen dsn (Ok db)])).
  { intros w o acts [-> ->]. unfold build_attempt. cbn [fst snd]. pose proof (Open_log (store_options cfg) w []) as H.
    destruct (Open _ _ _ _) as [[db|e] [w1 acts1]]; cbn in H |- *; [by split|]. destruct H as (new & -> & Hn). split; [done|by constructor]. }
  intros db. apply (builds_owns _ _ _ (stage db false false false false)); [intros o acts [-> [dsn ->]]; by exists dsn|].
  apply builds_next; [refused|]. intros lapi Hlapi.
  apply (builds_owns _ _ _ (stage db true false false false)); [intros o acts (dsn & -> & ->); by exists dsn|].
  apply builds_next; [refused|]. intros reconciler Hrec. apply builds_next; [refused|]. intros fetcher Hfetch.
  apply (builds_owns _ _ _ (stage db true true false false)); [intros o acts (dsn & -> & ->); by exists dsn|].
  apply builds_next; [refused|]. intros engine Hengine. apply builds_next; [refused|]. intros registry Hmetrics.
  apply builds_next; [refused|]. intros tracker Htracker. apply builds_next; [done|]. intros observer _.
  assert (observed = true) as Hobs by by_settings.
  assert (fetcher_made = true /\ lapi_made = true) as [Hf Hl] by (split; by_settings).
  apply build_transport_builds; [done|]. intros t Ht. set (tr := bool_decide (t <> None)).
  assert (notifies = tr /\ (negb notifies || is_made (NewHTTPTransport (transport_options cfg))) = true /\ transport_made = tr) as (Hn & Ha & Htr).
  { unfold transport_made, notifies, tr. rewrite Hobs. destruct t as [t|]; [destruct Ht as [-> ->]|rewrite Ht]; done. }
  assert (forall a, manager_for cfg = a -> manager_made = is_made a) as Hm.
  { intros a <-. unfold manager_made. by rewrite Hobs, Ha. }
  apply builds_next.
  { intros e He. split; [eauto using refuses|]. unfold made. by rewrite (Hm _ He), Hf, Hl, Htr. }
  intros manager Hmanager. specialize (Hm _ Hmanager). cbn [is_made] in Hm.
  assert (forall l, MkOwned true l tr true true (Some db) = made db l) as Hmade by (intros l; unfold made; by rewrite Hm, Hf, Hl, Htr).
  apply (builds_owns _ _ _ (stage db true true tr true)); [intros o acts (dsn & -> & ->); by exists dsn|].
  do 3 (apply builds_next; [intros ? ?; split; [eauto using refuses|by rewrite Hmade]|]; intros ? _).
  eapply (builds_then _ _ _ (fun l o acts => o = MkOwned true None tr true true (Some db) /\
    exists dsn, acts = [BOpen dsn (Ok db); BListen (sv_ListenAddress (cf_Server cfg)) (Ok l)])).
  { intros w o acts (dsn & -> & ->). unfold build_attempt. cbn [fst snd b_Listen logged_build]. unfold noting. cbn [fst snd].
    destruct (b_Listen _ _ w) as [[l|e] w1]; cbn; [split; [done|by exists dsn]|]. split; [done|]. rewrite Hmade. by apply held_no_listener. }
  intros l. apply (builds_owns _ _ _ (fun o acts => o = MkOwned true (Some l) tr true true (Some db) /\
    exists dsn, acts = [BOpen dsn (Ok db); BListen (sv_ListenAddress (cf_Server cfg)) (Ok l)])); [intros o acts [-> H]; by split|].
  eapply builds_then; [apply builds_accept|].
  { intros e o acts He [-> [dsn ->]]. rewrite Hmade. apply held_everything; [done|]. by eapply refuses_runtime. }
  intros rt w o acts [[-> H] Hrt]. cbn. by split.
Qed.
End Owns.

(** The resources of a running service, in the order of their release_owned. *)
Definition service_releases (transport : bool) (closeErr : option error) : list doing :=
  [DoNotificationsClose; DoListenerClose; DoCloseIdle 0; DoCloseIdle 1] ++ (if transport then [DoCloseIdle 2] else []) ++
  [DoStateClose closeErr; DoDestroy].

Lemma level_valid {lib : TextLibrary} s :
  existsb (String.eqb s) ["debug"; "info"; "warn"; "error"]%string = true -> exists l, logsafe.New s = Ok l.
Proof.
  intros H. apply existsb_exists in H as (x & Hx & ->%String.eqb_eq). apply list_elem_of_In in Hx.
  repeat (apply elem_of_cons in Hx as [->|Hx]; [by eexists|]). by apply elem_of_nil in Hx.
Qed.

Lemma Config_level {lib : TextLibrary} cfg c : Config_Validate cfg = Ok c ->
  existsb (String.eqb (Config.lg_Level (cf_Logging c))) ["debug"; "info"; "warn"; "error"]%string = true.
Proof.
  intros H. unfold Config_Validate in H. steps H. injection H as <-. cbn [cf_Logging].
  match goal with E : validate_notifications _ = Ok _ |- _ => unfold validate_notifications in E; steps E end. done.
Qed.

Section Loses.
Context {lib : TextLibrary} {http : HttpLibrary} {urls : UrlLibrary} {codec : CredentialsCodec}.
Context {D : Type} `{!Scripts D} {W : Type} `{!FileSystem W} `{!SqlDriver D W} `{!BuildWorld W}.
Context (clock : Z -> Time) (dir : result error (list DirEntry)) (build : Info) (now : Time).
Abbreviation LW := (W * list build_act)%type.

(** A build, from its configuration on. *)
Lemma BuildProduction_spec cfg (w : W) :
  match BuildProduction (W:=LW) clock dir build now cfg (w, []) with
  | (Err e, (_, acts)) =>
      e = ErrProductionBuild /\
      (acts = [] /\ (forall c credentials, Config_Validate cfg = Ok c ->
         (Load (W:=LW) (loader_for c) (cs_CredentialsFile (cf_CrowdSec c)) (w, [])).1 <> Ok credentials) \/
       exists c credentials o before, Config_Validate cfg = Ok c /\
         (Load (W:=LW) (loader_for c) (cs_CredentialsFile (cf_CrowdSec c)) (w, [])).1 = Ok credentials /\
         held build c credentials o before /\ acts = before ++ releases o)
  | (Ok p, (_, acts)) => exists c, Config_Validate cfg = Ok c /\ produced c (pd_credentials p) p acts
  end.
Proof.
  unfold BuildProduction. destruct (Config_Validate cfg) as [c|] eqn:Ec; [|cbn; split; [done|by left]].
  destruct (logsafe.New _) as [logger|e] eqn:El.
  2: { exfalso. destruct (level_valid (Config.lg_Level (cf_Logging c))) as [l Hl]; [by eapply Config_level|]. by rewrite Hl in El. }
  pose proof (Load_silent (Act := build_act) (loader_for c) (cs_CredentialsFile (cf_CrowdSec c)) w []) as Hl.
  destruct (Load _ _ _) as [[credentials|e] [w1 acts1]] eqn:Eload; cbn in Hl; subst acts1.
  2: { split; [done|]. left. split; [done|]. intros c' cr [= <-]. by rewrite Eload. }
  pose proof (build_body_builds clock dir build now c credentials logger w1 owns_nothing [] (conj eq_refl eq_refl)) as H.
  destruct (build_body _ _ _ _ _ _ _ _) as [[p|e] [[w2 acts2] o2]].
  - exists c. split; [done|]. destruct H as [Ha Hc Ht Hr]. by split; rewrite ?Hc.
  - destruct H as [-> H]. pose proof (release_log (D:=D) o2 (w2, acts2)) as Hrel.
    destruct (release_owned o2 (w2, acts2)) as [w3 acts3]. split; [done|]. right. exists c, credentials, o2, acts2.
    by rewrite Eload.
Qed.

(** The run of a runtime that was built. *)
Lemma produced_releases c credentials p acts V (v : RuntimeWorld V) (x : V) : produced c credentials p acts ->
  exists closeErr, List.filter is_release (Runtime_Run (pd_runtime p) false (x, [])).2.2 =
    service_releases (bool_decide (pd_transport p <> None)) closeErr.
Proof.
  intros [_ _ Ht Hr]. destruct (Runtime_Run_log (pd_runtime p) (x, [])) as (l & Erun & Htr). rewrite Erun. cbn [snd app].
  apply trace_releases in Htr as [closeErr ->]. exists closeErr. unfold service_releases, released.
  unfold runtime_for, NewRuntime in Hr. destruct (_ || _); [done|]. injection Hr as <-. cbn [rt_idleClosers].
  destruct (pd_transport p) as [t|]; [destruct Ht as [-> _]|rewrite Ht]; reflexivity.
Qed.

(** C11: nothing that the service acquires is lost.  A build that fails before the
    credentials are loaded acquires nothing; one that fails later releases, last
    and once, exactly what it had: the credentials always, the store and the
    listener if they were opened, and the client, the fetcher, the transport and
    the notifications, each if it had been made, which depends on the settings
    alone: on whether it and all that come before it are accepted.  One that
    succeeds releases nothing, has opened the store and the listener of the
    configuration, and when its runtime has run, however that ended, all of it has
    been released, once and in order. *)
Theorem production_loses_nothing cfg (w : W) :
  match BuildProduction (W:=LW) clock dir build now cfg (w, []) with
  | (Err e, (_, acts)) =>
      e = ErrProductionBuild /\
      (acts = [] /\ (forall c credentials, Config_Validate cfg = Ok c ->
         (Load (W:=LW) (loader_for c) (cs_CredentialsFile (cf_CrowdSec c)) (w, [])).1 <> Ok credentials) \/
       exists c credentials o before, Config_Validate cfg = Ok c /\
         (Load (W:=LW) (loader_for c) (cs_CredentialsFile (cf_CrowdSec c)) (w, [])).1 = Ok credentials /\
         held build c credentials o before /\ acts = before ++ releases o)
  | (Ok p, (_, acts)) =>
      exists c, Config_Validate cfg = Ok c /\ produced c (pd_credentials p) p acts /\
      forall V (v : RuntimeWorld V) (x : V), exists closeErr,
        List.filter is_release (Runtime_Run (pd_runtime p) false (x, [])).2.2 =
        service_releases (bool_decide (pd_transport p <> None)) closeErr
  end.
Proof.
  pose proof (BuildProduction_spec cfg w) as H. destruct (BuildProduction _ _ _ _ _ _) as [[p|e] [w' acts]]; [|exact H].
  destruct H as (c & Hc & Hp). exists c. split_and!; [done|done|]. intros V v x. by eapply produced_releases.
Qed.
End Loses.
