(* ===== verification/ProductionReady.v ===== *)
(** * A validated configuration is built

    Every constructor that the build calls accepts what validation let pass,
    with the settings about which validation asks for less than they do: such a
    configuration fails to be built only when the environment fails.  The engine
    validates the configuration again, in its canonical form: what validation
    makes is accepted again, but for an allowed host with a zone. *)

From S2P Require Import FetcherRun.
From S2P Require Export ProductionRun NetIPText.

(** ** Validation accepts what it made *)

(** The characters of a canonical host. *)
Definition host_char (c : ascii) : bool := is_alnum c || existsb (Ascii.eqb c) ["-"; "."; ":"]%char.

Lemma host_char_facts c : host_char c = true ->
  printable c = true /\ (byte_of c <? 128) = true /\ host_char (lower_char c) = true /\
  existsb (Ascii.eqb c) ["013"; "010"; "000"; "/"; "\"; "@"; "?"; "#"]%char = false /\
  Ascii.eqb (lower_char c) "." = Ascii.eqb c ".".
Proof. destruct c as [[] [] [] [] [] [] [] []]; vm_compute; intros H; (discriminate H || by repeat split). Qed.

Lemma label_char_facts c : is_alnum c || Ascii.eqb c "-" = true -> host_char c = true /\
  is_alnum (lower_char c) || Ascii.eqb (lower_char c) "-" = true /\ Ascii.eqb c "." = false /\
  (is_alnum c = true -> is_alnum (lower_char c) = true).
Proof. destruct c as [[] [] [] [] [] [] [] []]; vm_compute; intros H; (discriminate H || by repeat split). Qed.

Lemma contains_byte_none c s : all_chars host_char s = true -> host_char c = false -> contains_byte c s = false.
Proof.
  intros Hs Hc. unfold contains_byte. rewrite cut_byte_none; [done|]. eapply all_chars_impl; [|exact Hs].
  intros d Hd. apply negb_true_iff, Ascii.eqb_neq. intros ->. congruence.
Qed.

Lemma map_chars_len f s : len (map_chars f s) = len s.
Proof. unfold len. f_equal. induction s as [|c s IH]; [done|]. cbn. by rewrite IH. Qed.

(** A text that validation leaves as it is, but for its case. *)
Record tidy (s : string) : Prop := MkTidy {
  td_chars : all_chars host_char s = true; td_end : ends_with "." s = false; td_some : s <> ""%string; td_len : len s <= 253 }.

Section Hosts.
Context {lib : TextLibrary}.

Lemma tidy_lower s : tidy s -> ToLower (trim_dot s) = map_chars lower_char s.
Proof.
  intros [Hc He _ _]. unfold trim_dot, ToLower. rewrite He. replace (is_ascii s) with true; [done|]. symmetry.
  eapply all_chars_impl; [|exact Hc]. intros c (_ & ? & _)%host_char_facts. done.
Qed.

Lemma tidy_accepted s : tidy s ->
  (exists a, ParseAddr (map_chars lower_char s) = Some a) \/
  forallb hostLabelPattern (split_on "." ""%string (map_chars lower_char s)) = true ->
  exists h, canonical_host s = Ok h.
Proof.
  intros Ht H. unfold canonical_host. rewrite (tidy_lower s Ht). destruct Ht as [Hc _ Hn Hl].
  rewrite trim_space_printable, String.eqb_refl
    by (eapply all_chars_impl; [|exact Hc]; intros c (? & _)%host_char_facts; done).
  rewrite (proj2 (String.eqb_neq _ _) Hn).
  replace (contains_any _ s) with false.
  2: { symmetry. unfold contains_any. cbn [existsb]. rewrite !(contains_byte_none _ s Hc) by reflexivity. done. }
  cbn [orb negb check rbind]. rewrite map_chars_len, (proj2 (Z.ltb_ge _ _)) by lia.
  rewrite (proj2 (String.eqb_neq _ _)) by (by destruct s). cbn [orb negb check rbind].
  destruct (ParseAddr _) as [a|]; [by eexists|]. destruct H as [[a H]|H]; [done|]. rewrite H. by eexists.
Qed.

Lemma split_on_chars (p : ascii -> bool) s : forall cur,
  Forall (fun l => all_chars p l = true) (split_on "." cur s) ->
  all_chars p cur = true /\ all_chars (fun c => p c || Ascii.eqb c ".") s = true.
Proof.
  induction s as [|c s IH]; intros cur; cbn [split_on].
  { intros H%List.Forall_cons_iff. by destruct H. }
  cbn [all_chars]. destruct (Ascii.eqb c ".") eqn:E.
  - intros [H1 H2]%List.Forall_cons_iff. apply IH in H2 as [_ H2]. rewrite H2, orb_true_r. done.
  - intros [H1 H2]%IH. rewrite all_chars_app in H1. cbn in H1. rewrite andb_true_r in H1.
    apply andb_true_iff in H1 as [-> ->]. by rewrite H2.
Qed.

Lemma split_on_end s : forall cur, ends_with "." s = true -> In ""%string (split_on "." cur s).
Proof.
  unfold ends_with. induction s as [|c s IH]; intros cur H; [done|]. cbn [last_char] in H. cbn [split_on].
  destruct s as [|d s]; [rewrite H; right; by left|]. destruct (Ascii.eqb c "."); [right|]; by apply IH.
Qed.

Lemma map_chars_app f s t : map_chars f (s +:+ t) = map_chars f s +:+ map_chars f t.
Proof. induction s as [|c s IH]; [done|]. rewrite !string_cons_app. cbn. by rewrite IH. Qed.

Lemma split_on_lower s : forall cur, all_chars host_char s = true ->
  split_on "." (map_chars lower_char cur) (map_chars lower_char s) = map (map_chars lower_char) (split_on "." cur s).
Proof.
  induction s as [|c s IH]; intros cur H; [done|]. cbn in H. apply andb_true_iff in H as [Hc Hs].
  destruct (host_char_facts c Hc) as (_ & _ & _ & _ & E). cbn [map_chars split_on]. rewrite E.
  destruct (Ascii.eqb c "."); cbn [map]; [f_equal; by apply (IH ""%string)|]. rewrite <- IH by done. by rewrite map_chars_app.
Qed.

Lemma label_lower s : hostLabelPattern s = true -> hostLabelPattern (map_chars lower_char s) = true.
Proof.
  unfold hostLabelPattern. destruct s as [|c s]; [done|]. cbn [map_chars].
  assert (forall s, last_char (map_chars lower_char s) = lower_char <$> last_char s) as Hl.
  { clear. induction s as [|c [|d s] IH]; [done..|]. exact IH. }
  rewrite (Hl (String c s) : last_char (String (lower_char c) (map_chars lower_char s)) = _).
  destruct (last_char (String c s)) as [d|]; [|done]. cbn [fmap option_fmap option_map].
  pose proof (map_chars_len lower_char (String c s)) as E. cbn [map_chars] in E. rewrite E. intros H.
  repeat (apply andb_true_iff in H as [H ?]).
  assert (forall x, is_alnum x = true -> is_alnum (lower_char x) = true) as Ha.
  { intros x Hx. apply label_char_facts; by rewrite Hx. }
  rewrite !Ha by done. cbn [andb]. apply andb_true_iff. split; [done|].
  assert (forall s, all_chars (fun c => is_alnum c || Ascii.eqb c "-") s = true ->
    all_chars (fun c => is_alnum c || Ascii.eqb c "-") (map_chars lower_char s) = true) as Hall; [|by apply (Hall (String c s))].
  clear. induction s as [|c s IH]; [done|]. cbn. intros [Hc Hs]%andb_true_iff. rewrite (IH Hs), andb_true_r. by apply label_char_facts.
Qed.

(** A name, once accepted, is accepted. *)
Lemma labels_accepted s : forallb hostLabelPattern (split_on "." ""%string s) = true -> s <> ""%string -> len s <= 253 ->
  exists h, canonical_host s = Ok h.
Proof.
  intros H Hn Hl. rewrite forallb_forall in H.
  assert (all_chars host_char s = true) as Hc.
  { destruct (split_on_chars (fun c => is_alnum c || Ascii.eqb c "-") s ""%string) as [_ Hs].
    - apply List.Forall_forall. intros l Hin%H. unfold hostLabelPattern in Hin. destruct l as [|c l]; [done|].
      destruct (last_char _); [|done]. by apply andb_true_iff in Hin as [_ Hin].
    - eapply all_chars_impl; [|exact Hs]. cbn beta. intros c [Hc|Hc]%orb_true_iff; [by apply label_char_facts|].
      unfold host_char. cbn [existsb]. rewrite Hc. by rewrite !orb_true_r. }
  apply tidy_accepted.
  - split; [done| |done|done]. apply not_true_is_false. intros He%(split_on_end s ""%string). by apply H in He.
  - right. pose proof (split_on_lower s ""%string Hc) as E. cbn [map_chars] in E. rewrite E. apply forallb_forall. intros l (l0 & <- & Hin)%in_map_iff. by apply label_lower, H.
Qed.
End Hosts.

(** *** Addresses *)

Definition low_char (c : ascii) : bool := is_digit c || in_range 97 102 (byte_of c) || existsb (Ascii.eqb c) ["."; ":"]%char.

Lemma low_char_facts c : low_char c = true -> host_char c = true /\ lower_char c = c.
Proof. destruct c as [[] [] [] [] [] [] [] []]; vm_compute; intros H; (discriminate H || by repeat split). Qed.

(** The text of an address, at most [n] bytes long. *)
Definition low_text (n : Z) (s : string) : Prop := all_chars low_char s = true /\ len s <= n.
Definition low_end (s : string) : Prop := s <> ""%string /\ ends_with "." s = false.

Lemma low_text_app n m s t : low_text n s -> low_text m t -> low_text (n + m) (s +:+ t).
Proof. intros [Hs Hn] [Ht Hm]. split; [by rewrite all_chars_app, Hs, Ht|]. rewrite len_app. lia. Qed.

Lemma low_end_app s t : low_end t -> low_end (s +:+ t).
Proof.
  intros [Hn He]. induction s as [|c s [Hn' He']]; [done|]. rewrite string_cons_app. split; [done|].
  unfold ends_with in *. cbn [last_char]. by destruct (s +:+ t).
Qed.

Lemma low_tidy n s : low_text n s -> low_end s -> n <= 253 -> tidy s /\ map_chars lower_char s = s.
Proof.
  intros [Hc Hl] [Hn He] H. split.
  - split; [|done|done|lia]. eapply all_chars_impl; [|exact Hc]. intros c (? & _)%low_char_facts. done.
  - clear -Hc. induction s as [|c s IH]; [done|]. cbn in Hc |- *. apply andb_true_iff in Hc as [Hc Hs].
    rewrite IH by done. by destruct (low_char_facts c Hc) as [_ ->].
Qed.

Lemma octet_low o : 0 <= o < 256 -> low_text 3 (itoa o) /\ low_end (itoa o).
Proof.
  intros Ho. assert (Forall (fun o => low_text 3 (itoa o) /\ low_end (itoa o)) (seqZ 0 256)) as HF.
  { let l := eval vm_compute in (seqZ 0 256) in change (seqZ 0 256) with l.
    repeat constructor; first [by vm_compute | intros H; vm_compute in H; discriminate H]. }
  rewrite List.Forall_forall in HF. apply HF, list_elem_of_In, elem_of_seqZ. lia.
Qed.

Lemma string4_low v : low_text 15 (string4 v) /\ low_end (string4 v).
Proof.
  unfold string4. assert (low_text 1 ".") as Hd by by vm_compute. split.
  - replace 15 with (3 + (1 + (3 + (1 + (3 + (1 + 3)))))) by done.
    repeat (apply low_text_app; [by apply octet_low, v4u8_range || done|]). by apply octet_low, v4u8_range.
  - do 6 apply low_end_app. by apply octet_low, v4u8_range.
Qed.

Lemma hex_digit_low d : 0 <= d < 16 -> low_char (hex_digit d) = true /\ Ascii.eqb (hex_digit d) "." = false.
Proof.
  intros Hd. assert (Forall (fun d => low_char (hex_digit d) = true /\ Ascii.eqb (hex_digit d) "." = false) (seqZ 0 16)) as HF.
  { let l := eval vm_compute in (seqZ 0 16) in change (seqZ 0 16) with l. repeat constructor. }
  rewrite List.Forall_forall in HF. apply HF, list_elem_of_In, elem_of_seqZ. lia.
Qed.

Lemma hex16_low g : low_text 4 (hex16 g) /\ low_end (hex16 g).
Proof.
  pose proof (fun i => hex_digit_low _ (nibble_range g i)) as H. unfold hex16, low_text, low_end, ends_with.
  destruct (4095 <? g); [|destruct (255 <? g); [|destruct (15 <? g)]];
    cbn [String.string_of_list_ascii all_chars last_char]; rewrite ?(proj1 (H _)), ?(proj2 (H _));
    (split; split; [done|unfold len; cbn [String.length]; lia|done|done]).
Qed.

Lemma join_low gs : low_text (5 * Z.of_nat (List.length gs)) (join_groups gs) /\ (gs <> [] -> low_end (join_groups gs)).
Proof.
  induction gs as [|g gs [IH1 IH2]]; [done|]. destruct (hex16_low g) as [[Hc Hl] He]. destruct gs as [|h gs].
  - split; [|done]. split; [done|]. change (join_groups [g]) with (hex16 g). cbn [List.length]. lia.
  - change (join_groups (g :: h :: gs)) with (hex16 g +:+ ":" +:+ join_groups (h :: gs)). split.
    + replace (5 * Z.of_nat (List.length (g :: h :: gs))) with (4 + (1 + 5 * Z.of_nat (List.length (h :: gs)))) by (cbn [List.length]; lia).
      apply low_text_app; [done|]. by apply low_text_app.
    + intros _. do 2 apply low_end_app. by apply IH2.
Qed.

Lemma string6_low v : low_text 82 (string6 v) /\ low_end (string6 v).
Proof.
  unfold string6. pose proof (length_groups6 v) as Hl. destruct (best_run _ _ _) as [st k]. destruct (k =? 0)%nat.
  - destruct (join_low (groups6 v)) as [[Hc Hn] He]. rewrite Hl in Hn. split; [split; [done|lia]|]. apply He. intros E. by rewrite E in Hl.
  - destruct (join_low (take st (groups6 v))) as [[Hc Hn] _], (join_low (drop (st + k) (groups6 v))) as [[Hc' Hn'] He].
    rewrite length_take, Hl in Hn. rewrite length_drop, Hl in Hn'. split.
    + replace 82 with (40 + (2 + 40)) by done. apply low_text_app; [split; [done|lia]|]. apply low_text_app; [done|split; [done|lia]].
    + apply low_end_app. destruct (drop _ _) as [|g gs]; [done|]. by apply low_end_app, He.
Qed.

Section Addresses.
Context {lib : TextLibrary}.

(** With a zone it need not be: a space before the last dot is accepted, and left
    at the end of the text. *)
Example zone_not_again : canonical_host "fe80::1%x ." = Ok "fe80::1%x "%string /\
  canonical_host "fe80::1%x " = Err (configError config.ErrValidation "crowdsec.allowed_http_hosts").
Proof. by vm_compute. Qed.

(** An address without a zone, once printed, is accepted. *)
Lemma address_accepted a : addr_wf a -> a <> AddrZero -> Is4In6 a = false -> contains_byte "%" (addr_String a) = false ->
  exists h, canonical_host (addr_String a) = Ok h.
Proof.
  intros Hwf Hz H46 Hp.
  assert (Zone a = ""%string /\ exists n, low_text n (addr_String a) /\ low_end (addr_String a) /\ n <= 253) as (Hzone & n & Ht & He & Hn).
  { destruct a as [|v|v z]; [done| |].
    - split; [done|]. exists 15. by destruct (string4_low v).
    - unfold addr_String in Hp |- *. rewrite H46 in *. destruct z as [|c z].
      + split; [done|]. exists 82. cbn [zone_suffix]. rewrite string_app_nil. by destruct (string6_low v).
      + exfalso. cbn [zone_suffix] in Hp. unfold contains_byte in Hp. destruct (string6_facts v) as [_ E].
        assert (forall t, cut_byte "%" (string6 v +:+ "%" +:+ t) <> None) as Hc; [|by specialize (Hc (String c z)); destruct (cut_byte _ _)].
        clear. induction (string6 v) as [|d s IH]; intros t; [done|]. rewrite string_cons_app. cbn [cut_byte].
        destruct (Ascii.eqb d "%"); [done|]. specialize (IH t). by destruct (cut_byte _ _) as [[]|]. }
  destruct (low_tidy n _ Ht He Hn) as [Htidy E]. apply tidy_accepted; [done|]. left. exists a. rewrite E. by apply ParseAddr_String.
Qed.

(** Every host that was accepted and has no zone is accepted. *)
Lemma canonical_host_again s h : canonical_host s = Ok h -> contains_byte "%" h = false -> exists h', canonical_host h = Ok h'.
Proof.
  unfold canonical_host at 1. intros H Hp. steps H. to_prop. destruct (ParseAddr _) as [addr|] eqn:E.
  - injection H as <-. apply ParseAddr_wf in E as [Hwf Hz]. destruct (Unmap_wf addr Hwf Hz) as [Hu Hu'].
    apply address_accepted; [done..| |done]. apply Unmap_not_4In6.
  - steps H. injection H as <-. apply labels_accepted; [done|by apply String.eqb_neq|done].
Qed.

Lemma canonical_hosts_ok values : forall seen acc l, canonical_hosts seen acc values = Ok l ->
  Forall (fun h => exists s, canonical_host s = Ok h) acc ->
  Forall (fun h => exists s, canonical_host s = Ok h) l /\ (List.length l <= List.length acc + List.length values)%nat.
Proof.
  induction values as [|s values IH]; intros seen acc l H Ha; cbn [canonical_hosts] in H; [injection H as <-; split; [done|cbn; lia]|].
  steps H. case_bool_decide; apply IH in H as [H Hn]; [split; [done|cbn; lia]|done|split; [done|]|].
  - rewrite length_app in Hn. cbn in *. lia.
  - apply List.Forall_app. split; [done|]. repeat constructor. by exists s.
Qed.

Lemma canonical_hosts_total values : Forall (fun s => exists h, canonical_host s = Ok h) values ->
  forall seen acc, exists l, canonical_hosts seen acc values = Ok l.
Proof.
  induction 1 as [|s values [h Hh] Hv IH]; intros seen acc; cbn [canonical_hosts]; [by eexists|]. rewrite Hh. cbn [rbind].
  case_bool_decide; apply IH.
Qed.

Lemma canonicalHTTPHosts_again values hosts : canonicalHTTPHosts values = Ok hosts ->
  Forall (fun h => contains_byte "%" h = false) hosts -> exists hosts', canonicalHTTPHosts hosts = Ok hosts'.
Proof.
  unfold canonicalHTTPHosts at 1. intros H Hp. steps H. injection H as <-. apply canonical_hosts_ok in Hs0 as [Ha Hl]; [|done].
  unfold canonicalHTTPHosts. rewrite (Permutation_length (sort_func_perm cmp_string a0)). cbn in Hl. to_prop.
  rewrite (proj2 (Z.ltb_ge _ _)) by lia. cbn [negb check rbind].
  destruct (canonical_hosts_total (sort_func cmp_string a0)) with (seen := ∅ : gset string) (acc := @nil string) as [l ->]; [|by eexists].
  apply List.Forall_forall. intros h Hin. rewrite List.Forall_forall in Hp, Ha. specialize (Hp h Hin).
  rewrite <- list_elem_of_In, (elem_of_sort_func cmp_string), list_elem_of_In in Hin. destruct (Ha h Hin) as [s Hsrc].
  by eapply canonical_host_again.
Qed.

(** *** The whole configuration *)

Lemma fill_limits_again v f : fill_limits v (fill_limits v f) = fill_limits v f.
Proof. unfold fill_limits. cbn. repeat case_match; congruence. Qed.

Lemma validate_feeds_again v : forall feeds seen i l, validate_feeds v seen i feeds = Ok l -> validate_feeds v seen i l = Ok l.
Proof.
  induction feeds as [|f feeds IH]; intros seen i l H; cbn [validate_feeds] in H; [by injection H as <-|].
  steps H. injection H as <-. cbn [validate_feeds]. rewrite fill_limits_again, Hs, Hs0. cbn [check rbind]. by rewrite (IH _ _ _ Hs1).
Qed.

Lemma canonical_cidrs_total cidrs : Forall (fun p => IsValid p = true) cidrs ->
  forall seen i, exists l, canonical_cidrs seen i cidrs = Ok l.
Proof.
  induction 1 as [|p cidrs Hp Hv IH]; intros seen i; cbn [canonical_cidrs]; [by eexists|]. rewrite Hp. cbn [check rbind].
  case_bool_decide; [apply IH|]. destruct (IH ({[Masked p]} ∪ seen) (i + 1)) as [l ->]. by eexists.
Qed.

Lemma validate_limits_feeds cfg c v : cf_Feeds c = fill_limits v <$> cf_Feeds cfg -> cf_Validation c = cf_Validation cfg ->
  cf_Decisions c = cf_Decisions cfg -> (exists hosts, cf_CrowdSec c = set_hosts hosts (cf_CrowdSec cfg)) ->
  validate_limits c = validate_limits cfg.
Proof.
  unfold validate_limits. intros -> -> -> [hosts ->]. rewrite length_fmap. by destruct (cf_Feeds cfg).
Qed.

(** Validation accepts what it made, when no allowed host has a zone. *)
Lemma Config_Validate_again cfg c : (forall p, p ∈ al_CIDRs (cf_Allowlists cfg) -> IsValid p = true -> prefix_wf p) ->
  Config_Validate cfg = Ok c -> Forall (fun h => contains_byte "%" h = false) (cs_AllowedHTTPHosts (cf_CrowdSec c)) ->
  exists c', Config_Validate c = Ok c'.
Proof.
  intros Hw H Hh. pose proof (Config_Validate_canonical cfg c Hw H) as (_ & _ & _ & Hp & _). unfold Config_Validate in H. steps H.
  injection H as <-. cbn [cf_CrowdSec cf_Allowlists al_CIDRs cs_AllowedHTTPHosts set_hosts] in Hh, Hp.
  match goal with E : canonicalHTTPHosts _ = Ok _ |- _ => apply canonicalHTTPHosts_again in E as [hosts Ehosts]; [|exact Hh] end.
  match goal with E : validate_feeds _ _ _ _ = Ok _ |- _ => pose proof (validate_feeds_ok _ _ _ _ _ E) as (El & _); apply validate_feeds_again in E end.
  destruct (canonical_cidrs_total (sort_func prefix_Compare a7)) with (seen := ∅ : gset Prefix) (i := 0) as [cidrs Ecidrs].
  { eapply Forall_impl; [|exact Hp]. intros p. unfold allowlist_ok. intros. to_prop. done. }
  unfold Config_Validate. cbn [cf_Server cf_Schedule cf_Database cf_CrowdSec cf_Decisions cf_Feeds cf_Allowlists cf_Validation
    cf_Logging cf_Notifications al_CIDRs cs_AllowedHTTPHosts set_hosts].
  match goal with |- context [validate_limits ?c] => rewrite (validate_limits_feeds cfg c (cf_Validation cfg)) by (done || by eexists) end.
  repeat match goal with E : ?r = Ok _ |- context [rbind ?r' _] => change r' with r; rewrite E; cbn [rbind] end.
  by eexists.
Qed.
End Addresses.

(** ** The constructors *)

(** What the constructors ask for beyond validation; for the engine, that no
    allowed host has a zone. *)
Record buildable {lib : TextLibrary} {http : HttpLibrary} {urls : UrlLibrary} (c : Config) : Prop := MkBuildable {
  bu_zones : Forall (fun h => contains_byte "%" h = false) (cs_AllowedHTTPHosts (cf_CrowdSec c));
  bu_agent : validUserAgent (vc_UserAgent (cf_Validation c)) = true;
  bu_names : Forall (fun name => len name <= 64) (enabledFeedNames c);
  bu_notifications : let n := cf_Notifications c in nc_Enabled n = true ->
    1 <= len (nc_ServerURL n) <= 2048 /\ validToken (nc_Token n) = true /\
    (forall u, Fetcher.url_Parse (nc_ServerURL n) = Ok u -> url_RawQuery u = ""%string) }.

Section Ready.
Context {lib : TextLibrary} {http : HttpLibrary} {urls : UrlLibrary}.

Lemma header_control s : has_control s = false -> hasHeaderControl s = false.
Proof.
  unfold has_control, hasHeaderControl. induction (runes s) as [|r rs IH]; [done|]. cbn.
  intros [-> H]%orb_false_iff. cbn. by apply IH.
Qed.

Lemma lapi_client_ready cfg c credentials l : Config_Validate cfg = Ok c -> validUserAgent (vc_UserAgent (cf_Validation c)) = true ->
  usable l credentials -> exists client, lapi_client c credentials = Ok client.
Proof.
  intros H Hu [(Hl & _ & _) (Hp & _ & _) (raw & u & _ & _ & _ & _ & _ & _ & Hs)]. open_validated H. unfold lapi_client, lapi_New.
  cbn. rewrite Hu, (proj2 (String.eqb_neq _ _) Hl), (proj2 (String.eqb_neq _ _) Hp). cbn [orb negb].
  change (64 * 2 ^ 20) with (Z.shiftl 64 20).
  repeat match goal with |- context [?a <=? ?b] => rewrite (proj2 (Z.leb_gt a b)) by lia
                       | |- context [?a <? ?b] => rewrite (proj2 (Z.ltb_ge a b)) by lia end.
  cbn [orb]. destruct Hs as [->|[-> _]]; by eexists.
Qed.

(** The guards of a constructor, from bounds that are known. *)
Ltac guards_hold :=
  repeat match goal with |- context [?a <=? ?b] => first [rewrite (proj2 (Z.leb_gt a b)) by lia | rewrite (proj2 (Z.leb_le a b)) by lia]
                       | |- context [?a <? ?b] => first [rewrite (proj2 (Z.ltb_ge a b)) by lia | rewrite (proj2 (Z.ltb_lt a b)) by lia] end;
  cbn [orb andb negb].

Lemma severity_valid s : existsb (String.eqb s) ["info"; "warning"; "error"]%string = true -> validSeverity s = true.
Proof.
  intros H. apply existsb_exists in H as (x & Hx & ->%String.eqb_eq). apply list_elem_of_In in Hx.
  repeat (apply elem_of_cons in Hx as [->|Hx]; [done|]). by apply elem_of_nil in Hx.
Qed.

(** What needs nothing but validation. *)
Lemma parts_ready cfg c : Config_Validate cfg = Ok c ->
  (exists l, logsafe.New (Config.lg_Level (cf_Logging c)) = Ok l) /\
  (forall credentials l, usable l credentials -> exists r, reconciler_for c credentials = Ok r) /\
  (exists t, tracker_for c = Ok t) /\ (exists m, manager_for c = Ok m) /\ (exists j, job_for c = Ok j) /\
  (exists s, scheduler_for c = Ok s) /\ NewServer (server_options c) = Ok (server_options c) /\
  (exists rt, runtime_for c = Ok rt) /\ Z.of_nat (List.length (cf_Feeds c)) <= 256 /\
  (nc_Enabled (cf_Notifications c) = true -> topicPattern (nc_Topic (cf_Notifications c)) = true /\
     0 < nc_RequestTimeout (cf_Notifications c) <= 2 * Minute /\
     validateRemoteURL "notifications.server_url" (nc_ServerURL (cf_Notifications c)) (nc_AllowHTTP (cf_Notifications c))
       (vc_AllowHTTP (cf_Validation c)) = Ok tt) /\
  (validUserAgent (vc_UserAgent (cf_Validation c)) = true -> exists f, NewFetcher (fetcher_options c) = Ok f).
Proof.
  intros H. open_validated H. unfold validate_notifications in *. steps Hs8. cbn [forallb] in *. to_prop.
  assert (Z.of_nat (List.length a6) = Z.of_nat (List.length (cf_Feeds cfg))) as Hlen by (rewrite Hlimits; by rewrite length_fmap).
  split_and!.
  - by apply level_valid.
  - intros credentials l [(Hl & Hll & Hc) _ _]. unfold reconciler_for, Reconcile.New. cbn.
    rewrite (proj2 (String.eqb_neq _ _) Hl), Hc. guards_hold. by eexists.
  - unfold tracker_for, Tracker_New. cbn. guards_hold. by eexists.
  - unfold manager_for, NewManager. cbv zeta. rewrite severity_valid by done. cbn. guards_hold. by eexists.
  - unfold job_for, NewSyncJob. cbn. guards_hold. by eexists.
  - unfold scheduler_for, Scheduler_New, validRetry. cbn. guards_hold. by eexists.
  - unfold server_options, NewServer, validServerTimeout. cbn. guards_hold. done.
  - unfold runtime_for, NewRuntime. cbn. guards_hold. by eexists.
  - rewrite Hlen. lia.
  - intros He. rewrite He in *. steps Hs8. split_and!; [done|lia|lia|].
    destruct (validateRemoteURL _ _ _ _) as [[]|]; done.
  - intros Hu. unfold fetcher_options, NewFetcher, fetcher_validUserAgent.
    cbn [fo_UserAgent fo_MaxRedirects fo_ConnectTimeout fo_DNSLookupTimeout fo_TLSHandshakeTimeout fo_ResponseHeaderTimeout
      cf_Validation cf_CrowdSec cs_ConnectTimeout cs_RequestTimeout set_hosts] in *.
    assert (hasHeaderControl (vc_UserAgent (cf_Validation cfg)) = false) as Hhc.
    { apply header_control. unfold validUserAgent in Hu. by to_prop. }
    assert (vc_UserAgent (cf_Validation cfg) <> ""%string) as Hne by (intros E; by rewrite E in *).
    rewrite Hhc, (proj2 (String.eqb_neq _ _) Hne).
    match goal with E : count_byte "/" _ = 1 |- _ => rewrite E end. guards_hold. by eexists.
Qed.

(** *** The feeds of the metrics *)

Lemma add_feeds_ok feeds : forall m, Forall (fun name => ValidFeedName name = true) feeds -> NoDup feeds ->
  (forall name, name ∈ feeds -> m !! name = None) -> exists m', add_feeds feeds m = Some m'.
Proof.
  induction feeds as [|name feeds IH]; intros m Hv Hn Hm; cbn [add_feeds]; [by eexists|].
  apply List.Forall_cons_iff in Hv as [-> Hv]. apply list.NoDup_cons in Hn as [Hi Hn]. cbn [negb].
  rewrite bool_decide_false by (rewrite Hm by left; by intros [? ?]).
  apply IH; [done|done|]. intros other Ho. rewrite lookup_insert_ne by (intros ->; done). apply Hm. by right.
Qed.

Lemma metrics_ready cfg c build : Config_Validate cfg = Ok c -> Forall (fun name => len name <= 64) (enabledFeedNames c) ->
  exists g, metrics_New build (enabledFeedNames c) = Ok g.
Proof.
  intros H Hlen. destruct (parts_ready cfg c H) as (_ & _ & _ & _ & _ & _ & _ & _ & H256 & _).
  assert (NoDup (enabledFeedNames c) /\ Forall (fun name => match_feed_name name = true) (enabledFeedNames c)) as [Hn Hm].
  { unfold Config_Validate in H. steps H. injection H as <-. unfold enabledFeedNames. cbn [cf_Feeds] in *.
    match goal with E : validate_feeds _ _ _ _ = Ok _ |- _ => apply validate_feeds_ok in E as (_ & Hn & _ & Hv) end. split.
    - apply (NoDup_fmap_1 ToLower). rewrite <- list_fmap_compose. clear - Hn. induction a6 as [|f fs IH]; [constructor|].
      rewrite fmap_cons in Hn. apply list.NoDup_cons in Hn as [Hf Hn]. cbn [List.filter]. destruct (fc_Enabled f); [|by apply IH].
      rewrite fmap_cons. apply list.NoDup_cons. split; [|by apply IH]. intros Hin. apply Hf.
      apply list_elem_of_fmap in Hin as (g & E & Hg). cbn in E. rewrite E. apply list_elem_of_fmap. exists g. split; [done|].
      apply list_elem_of_In, filter_In in Hg as [Hg _]. by apply list_elem_of_In.
    - apply List.Forall_forall. intros name Hin. apply in_map_iff in Hin as (f & <- & Hf). apply filter_In in Hf as [Hf _].
      rewrite List.Forall_forall in Hv. destruct (Hv f Hf) as [i Hi]. by destruct (validateFeed_name _ _ _ Hi). }
  unfold metrics_New, metrics_maxFeeds.
  assert (List.length (enabledFeedNames c) <= List.length (cf_Feeds c))%nat as Hle.
  { unfold enabledFeedNames. rewrite length_map. apply List.filter_length_le. }
  rewrite (proj2 (Z.ltb_ge _ _)) by lia. destruct (add_feeds_ok (sort_func cmp_string (enabledFeedNames c)) ∅) as [m ->].
  - apply List.Forall_forall. intros name Hin. rewrite <- list_elem_of_In, (elem_of_sort_func cmp_string), list_elem_of_In in Hin.
    rewrite List.Forall_forall in Hlen, Hm. specialize (Hlen name Hin). unfold ValidFeedName. rewrite Hm by done. lia.
  - by apply (NoDup_sort_func cmp_string).
  - intros. apply lookup_empty.
  - by eexists.
Qed.

(** *** The transport of the notifications *)

Lemma transport_ready cfg c : Config_Validate cfg = Ok c -> buildable c -> nc_Enabled (cf_Notifications c) = true ->
  exists t, NewHTTPTransport (transport_options c) = Ok t.
Proof.
  intros H [_ _ _ Hb] He. specialize (Hb He). destruct Hb as (Hlen & Htok & Hq).
  apply parts_ready in H as (_ & _ & _ & _ & _ & _ & _ & _ & _ & H & _). destruct (H He) as (Ht & Hr & Hu).
  unfold NewHTTPTransport, transport_options. cbn [ho_ServerURL ho_Topic ho_Token ho_Timeout ho_AllowHTTP].
  rewrite Ht, Htok. rewrite (proj2 (Z.eqb_neq (len _) 0)) by lia. guards_hold.
  unfold validateRemoteURL in Hu. rewrite url_Parse_agrees in Hu. destruct (Fetcher.url_Parse _) as [u|] eqn:Eu; [|done].
  specialize (Hq u eq_refl). steps Hu. apply andb_true_iff in Hs as [Hs1' Hs2']. apply negb_true_iff in Hs1', Hs2', Hs0.
  apply orb_false_iff in Hs0 as [Hu1 Hu2]. apply negb_false_iff in Hu2. rewrite Hs1', Hs2', Hu1, Hq, Hu2.
  unfold has_break in Hu. apply negb_true_iff in Hu. rewrite Hu. cbn [negb orb].
  destruct (String.eqb (u_Scheme (url_fields u)) "https"); cbn [negb andb orb] in *; [by eexists|].
  apply negb_true_iff in Hs1. apply orb_false_iff in Hs1 as [Hs1 _]. rewrite Hs1. by eexists.
Qed.
End Ready.

(** *** The credentials *)

Section Builds.
Context {lib : TextLibrary} {http : HttpLibrary} {urls : UrlLibrary} {codec : CredentialsCodec}.

Lemma load_open_usable {W} `{!FileSystem W} l n before file (w : W) c w' :
  load_open l n before file w = (Ok c, w') -> usable l c.
Proof.
  unfold load_open. intros H. repeat (apply mthen_ok in H as (? & ? & _ & H)).
  destruct (read_credentials l _) as [c'|e] eqn:E; [|done]. injection H as <- _. by eapply read_credentials_usable.
Qed.

Lemma Load_usable {W} `{!FileSystem W} l path (w : W) c w' : Load l path w = (Ok c, w') -> usable l c.
Proof.
  unfold Load. intros H. repeat (apply mthen_ok in H as (? & ? & _ & H)).
  destruct (load_open _ _ _ _ _) as [r w1] eqn:E. injection H as -> _. by eapply load_open_usable.
Qed.

Lemma refuses_nothing cfg c credentials l build : (forall p, p ∈ al_CIDRs (cf_Allowlists cfg) -> IsValid p = true -> prefix_wf p) ->
  Config_Validate cfg = Ok c -> buildable c -> usable l credentials ->
  ~ refuses build c credentials.
Proof.
  intros Hw Hv Hb Hu. pose proof (parts_ready cfg c Hv) as (_ & Hrec & [t Ht] & [m Hm] & [j Hj] & [sc Hsc] & Hsv & [rt Hrt] & _ & _ & Hf).
  destruct (Config_Validate_again cfg c Hw Hv (bu_zones c Hb)) as [c' Hagain]. destruct (Hf (bu_agent c Hb)) as [f Hfetch]. destruct (Hrec credentials l Hu) as [r Hr].
  destruct (lapi_client_ready cfg c credentials l Hv (bu_agent c Hb) Hu) as [client Hc].
  destruct (metrics_ready cfg c build Hv (bu_names c Hb)) as [g Hg].
  intros []; try congruence.
  - unfold Engine_New in *. by rewrite Hagain in *.
  - destruct (transport_ready cfg c Hv Hb) as [tr Htr]; [done|congruence].
Qed.

Context {D : Type} `{!Scripts D} {W : Type} `{!FileSystem W} `{!SqlDriver D W} `{!BuildWorld W}.
Context (clock : Z -> Time) (dir : result error (list DirEntry)) (build : Info) (now : Time).

(** C12: a validated configuration is built.  When its user agent is one that the
    clients accept (a name, a slash and a version, without control characters), the
    names of its enabled feeds have at most 64 characters, no host it allows plain
    HTTP has a zone (of such a host the second validation, inside the build, may not
    accept what the first one made), and, where it notifies, the server URL has at
    most 2048 characters and no query and the token is one that can be sent, then a
    build fails only because the credentials could not be loaded, the store could
    not be opened, or the address of the configuration could not be listened on,
    after the store was opened; what had been made is then released. *)
Theorem validated_builds cfg c (Hw : forall p, p ∈ al_CIDRs (cf_Allowlists cfg) -> IsValid p = true -> prefix_wf p)
    (Hv : Config_Validate cfg = Ok c) (Hb : buildable c) (w : W) :
  match BuildProduction (W:=W * list build_act) clock dir build now cfg (w, []) with
  | (Ok p, _) => True
  | (Err _, (_, acts)) =>
      (exists e, (Load (W:=W * list build_act) (loader_for c) (cs_CredentialsFile (cf_CrowdSec c)) (w, [])).1 = Err e) \/
      (exists l, no_store l /\ acts = l ++ releases owns_nothing) \/
      (exists dsn db e, acts = [BOpen dsn (Ok db); BListen (sv_ListenAddress (cf_Server c)) (Err e)] ++
         releases (MkOwned true None (nc_Enabled (cf_Notifications c)) true true (Some db)))
  end.
Proof.
  pose proof (BuildProduction_spec clock dir build now cfg w) as H.
  destruct (BuildProduction _ _ _ _ _ _) as [[p|e] [w' acts]]; [done|]. destruct H as [_ [[-> Hl]|(c' & cr & o & before & Hc & Hl & Hh & ->)]].
  - left. destruct (Load _ _ _) as [[cr|e'] ?] eqn:El; [|by exists e']. exfalso. apply (Hl c cr Hv). by rewrite El.
  - assert (c' = c) as -> by congruence. destruct (Load _ _ _) as [[cr'|e'] ?] eqn:El; cbn in Hl; [|done]. injection Hl as ->.
    apply Load_usable in El. pose proof (refuses_nothing cfg c cr _ build Hw Hv Hb El) as Hno.
    right. destruct Hh as [|? ? ?|dsn db e0 Hm|? ? ? ? ?]; [left; eauto|done| |done]. right. exists dsn, db, e0.
    by rewrite (made_before_listening _ _ _ _ Hm).
Qed.
End Builds.
