(* ===== verification/ProductionExamples.v ===== *)
(** * Builds, evaluated

    The defaults are built; two configurations that pass validation never can
    be. *)

From S2P Require Export ProductionReady.
Import ConfigExamples.

(** A URL is its text, with what the parser found. *)
#[local] Instance ex_http : HttpLibrary := {|
  url := string * URL;
  url_ParseRequestURI raw := match url_parse raw with Some u => Ok (raw, u) | None => Err (Foreign "url") end;
  Fetcher.url_Parse raw := match url_parse raw with Some u => Ok (raw, u) | None => Err (Foreign "url") end;
  url_Resolve _ raw := match url_parse raw with Some u => Some (raw, u) | None => None end;
  url_String u := u.1;
  url_fields u := u.2;
  url_Address u := u_Host u.2;
  url_Referer _ _ := "";
  mime_ParseMediaType s := Some s |}.

#[local] Instance ex_urls : UrlLibrary.
Proof.
  refine {| url_Path _ := "";
    url_RawQuery (u : @url ex_http) := match cut_byte "?" u.1 with Some (_, query) => query | None => "" end;
    url_JoinPath (u : @url ex_http) element := (u.1 +:+ "/" +:+ element, u.2);
    url_WithHost (u : @url ex_http) host :=
      (u.1, MkURL (u_Scheme u.2) host (u_Hostname u.2) (u_User u.2) (u_Fragment u.2)) |}%string.
  - intros raw. unfold Fetcher.url_Parse, url_fields. cbn [ex_http]. by destruct (url_parse raw).
  - done.
  - done.
Defined.

(** Every file holds the same credentials. *)
#[local] Instance ex_stored_credentials : CredentialsCodec := {|
  yaml_decode body := Ok (MkRawCredentials "https://lapi.example" "machine" body, YamlEOF) |}.

#[local] Instance ex_scripts : Scripts unit := {| exec_script _ d := Ok d |}.

(** A system where everything works; its state is whether the port is taken. *)
#[local] Instance ex_system_files : FileSystem bool := {|
  f_Lstat _ w := (Ok (MkFileInfo true 384 6 (1, 1)), w);
  f_Open _ w := (Ok 3, w);
  f_Stat _ w := (Ok (MkFileInfo true 384 6 (1, 1)), w);
  f_ReadAll _ _ w := (Ok "secret"%string, w);
  f_Close _ w := w |}.
#[local] Instance ex_driver : SqlDriver unit bool := {|
  sq_Lstat _ w := (Ok true, w);
  sq_Open _ w := (Ok 7, w);
  sq_Ping _ w := (Ok tt, w);
  sq_Exec _ _ w := (Ok tt, w);
  sq_Schema A _ (body : M (MW unit) error A) w := ((body (MkMW (MkMDB None tt) [])).1, w);
  sq_Rows _ _ w := (Ok (MkTextRows [Ok "ok"%string] None), w);
  sq_Chmod _ _ w := (Ok tt, w);
  sq_Close _ (w : bool) := (None, w) |}.
#[local] Instance ex_system : BuildWorld bool := {|
  b_Listen _ _ (w : bool) := (if w then Err (Foreign "address in use") else Ok 9, true);
  b_Listener_Close _ _ := false;
  b_Manager_Close w := w;
  b_CloseIdleConnections _ w := w;
  b_Destroy w := w |}.

Definition ex_dir : result error (list DirEntry) := Ok [MkDirEntry "001_initial.sql" false (Ok "CREATE TABLE feeds"%string)].
Definition ex_build : Info := MkInfo "crowdshield" "1.2.3" "unknown" "unknown" "go1.25" "linux" "amd64".
Definition ex_build_at : Time := 63000000000 * Second.
Definition ex_produce (cfg : Config) (taken : bool) :=
  BuildProduction (W:=bool * list build_act) (fun _ => ex_build_at) ex_dir ex_build ex_build_at cfg (taken, []).

(** The result of a build without its parts. *)
Definition outline (cfg : Config) (taken : bool) : bool * list build_act :=
  let '(r, (_, acts)) := ex_produce cfg taken in (accepted r, acts).

Definition ex_dsn : string :=
  "file:///data/crowdshield.db?_pragma=foreign_keys%281%29&_pragma=busy_timeout%285000%29&_pragma=trusted_schema%280%29&mode=rwc".

Example defaults_built : outline ex_config false = (true, [BOpen ex_dsn (Ok 7); BListen ":9090" (Ok 9)]).
Proof. vm_compute. reflexivity. Qed.

(** The port is taken: everything is released. *)
Example port_taken : outline ex_config true =
  (false, [BOpen ex_dsn (Ok 7); BListen ":9090" (Err (Foreign "address in use")); BManagerClose; BCloseIdle IdleFetcher;
           BCloseIdle IdleLAPI; BClose 7; BDestroy]).
Proof. vm_compute. reflexivity. Qed.

Lemma ex_buildable : buildable (ex_valid ex_config).
Proof.
  split.
  - apply (bool_decide_unpack _). vm_compute. exact I.
  - vm_compute. reflexivity.
  - apply (bool_decide_unpack _). vm_compute. exact I.
  - intros n H. exfalso. revert H. vm_compute. discriminate.
Qed.

Lemma validated_builds_witness :
  Config_Validate ex_config = Ok (ex_valid ex_config) /\ buildable (ex_valid ex_config) /\
  match BuildProduction (W:=bool * list build_act) (fun _ => ex_build_at) ex_dir ex_build ex_build_at ex_config (true, []) with
  | (Ok p, _) => True
  | (Err _, (_, acts)) =>
      (exists e, (Load (W:=bool * list build_act) (loader_for (ex_valid ex_config))
         (cs_CredentialsFile (cf_CrowdSec (ex_valid ex_config))) (true, [])).1 = Err e) \/
      (exists l, no_store l /\ acts = l ++ releases owns_nothing) \/
      (exists dsn db e, acts = [BOpen dsn (Ok db); BListen (sv_ListenAddress (cf_Server (ex_valid ex_config))) (Err e)] ++
         releases (MkOwned true None (nc_Enabled (cf_Notifications (ex_valid ex_config))) true true (Some db)))
  end.
Proof.
  assert (Config_Validate ex_config = Ok (ex_valid ex_config)) as Hv by (vm_compute; reflexivity).
  assert (forall p, p ∈ al_CIDRs (cf_Allowlists ex_config) -> IsValid p = true -> prefix_wf p) as Hw.
  { assert (forallb prefix_wfb (al_CIDRs (cf_Allowlists ex_config)) = true) as Hw by (vm_compute; reflexivity).
    intros p Hp _. apply prefix_wfb_true. rewrite forallb_forall in Hw. by apply Hw, list_elem_of_In. }
  split; [exact Hv|]. split; [exact ex_buildable|].
  exact (@validated_builds ex_text ex_http ex_urls ex_stored_credentials unit ex_scripts bool ex_system_files ex_driver ex_system (fun _ => ex_build_at) ex_dir ex_build ex_build_at ex_config (ex_valid ex_config) Hw Hv ex_buildable true).
Defined.

(** *** Validated, and never built

    The user agent needs only one slash, the URL of the notifications may have a
    query, and a host with a zone is not accepted the second time. *)

Definition with_hosts (hosts : list string) (c : Config) : Config :=
  MkConfig (cf_Server c) (cf_Schedule c) (cf_Database c) (set_hosts hosts (cf_CrowdSec c)) (cf_Decisions c) (cf_Feeds c)
    (cf_Allowlists c) (cf_Validation c) (cf_Logging c) (cf_Notifications c).

Definition with_agent (agent : string) (c : Config) : Config :=
  let v := cf_Validation c in
  MkConfig (cf_Server c) (cf_Schedule c) (cf_Database c) (cf_CrowdSec c) (cf_Decisions c) (cf_Feeds c) (cf_Allowlists c)
    (MkValidationConfig (vc_AllowHTTP v) (vc_MaxRedirects v) (vc_MaxFeeds v) (vc_MaxFeedNameLength v) (vc_MaxMalformedLines v)
       (vc_MaxMalformedRatio v) (vc_MaxLineBytes v) agent (vc_DNSLookupTimeout v)) (cf_Logging c) (cf_Notifications c).

Definition with_notifications (url : string) (c : Config) : Config :=
  let n := cf_Notifications c in
  MkConfig (cf_Server c) (cf_Schedule c) (cf_Database c) (cf_CrowdSec c) (cf_Decisions c) (cf_Feeds c) (cf_Allowlists c)
    (cf_Validation c) (cf_Logging c)
    (MkNotificationsConfig true url "alerts" (nc_AllowHTTP n) (nc_RequestTimeout n) (nc_Cooldown n) (nc_MinimumSeverity n)
       (nc_FailureThreshold n) (nc_RecoveryNotifications n) (nc_SuspiciousChangeNotifications n) (nc_StaleSyncNotifications n)
       (nc_StaleSyncAfter n) (nc_StartupNotification n) (nc_SuccessNotification n) (nc_FirstSuccessNotification n) (nc_Token n)).

Example agent_never_built :
  accepted (Config_Validate (with_agent "crowd shield/1.0" ex_config)) = true /\
  (forall credentials, accepted (lapi_client (with_agent "crowd shield/1.0" ex_config) credentials) = false) /\
  (outline (with_agent "crowd shield/1.0" ex_config) false).1 = false.
Proof.
  split; [vm_compute; reflexivity|]. split; [|vm_compute; reflexivity].
  intros [login password scheme path]. unfold lapi_client, lapi_New.
  change (validUserAgent (vc_UserAgent (cf_Validation (with_agent "crowd shield/1.0" ex_config)))) with false.
  cbn [negb]. by rewrite !orb_true_r.
Qed.

Example zone_never_built :
  accepted (Config_Validate (with_hosts ["fe80::1%x ."%string] ex_config)) = true /\
  (outline (with_hosts ["fe80::1%x."%string] ex_config) false).1 = true /\
  (outline (with_hosts ["fe80::1%x ."%string] ex_config) false).1 = false.
Proof. vm_compute. auto. Qed.

Example query_never_built :
  accepted (Config_Validate (with_notifications "https://ntfy.example/?auth=x" ex_config)) = true /\
  (outline (with_notifications "https://ntfy.example/" ex_config) false).1 = true /\
  (outline (with_notifications "https://ntfy.example/?auth=x" ex_config) false).1 = false.
Proof. vm_compute. auto. Qed.
