(* ===== verification/ConfigEnv.v ===== *)
(** * The settings of the environment ([config/env.go])

    A variable [CROWDSHIELD_...] replaces one setting: the table of the variables,
    the parser of each kind of value, the switch of a feed, and the loop over the
    environment, which refuses what it does not know.  A pointer to a field of the
    configuration is a lens.  Parsing a float and the upper case of a text that is
    not ASCII are parameters. *)

From S2P Require Export Config GoTime.

(** [strconv.ParseFloat(_, 64)] ([None] is an error), and [strings.ToUpper] of a
    text that is not ASCII. *)
Class ConvLibrary : Type := { ParseFloat : string -> option float64; unicode_upper : string -> string }.

(** ** A field of a structure *)

(** The structure with a field replaced by what a function makes of it. *)
Class Field {R T : Type} (field : R -> T) : Type := set_field : (T -> T) -> R -> R.
Arguments set_field {R T} field {_} f r.

(** Each structure rebuilt from its fields. *)
Ltac eta_of R :=
  lazymatch R with
  | ServerConfig => constr:((fun r : ServerConfig => MkServerConfig (sv_ListenAddress r) (sv_ReadHeaderTimeout r) (sv_ReadTimeout r)
  (sv_WriteTimeout r) (sv_IdleTimeout r) (sv_ShutdownTimeout r) (sv_LAPIUnreachableGrace r) (sv_ReadinessMaxSyncAge r)))
  | RetryConfig => constr:((fun r : RetryConfig => MkRetryConfig (rt_MaxAttempts r) (rt_InitialBackoff r) (rt_MaxBackoff r)))
  | ScheduleConfig => constr:((fun r : ScheduleConfig => MkScheduleConfig (sc_Interval r) (sc_StartupJitter r) (sc_RunImmediately r) (sc_Retry r)))
  | DatabaseConfig => constr:((fun r : DatabaseConfig => MkDatabaseConfig (dbc_Path r) (dbc_BusyTimeout r) (dbc_IntegrityCheckOnStart r)
  (dbc_HistoryRetention r) (dbc_MaxHistoryEntries r)))
  | CrowdSecConfig => constr:((fun r : CrowdSecConfig => MkCrowdSecConfig (cs_CredentialsFile r) (cs_AllowedHTTPHosts r) (cs_RequestTimeout r)
  (cs_ConnectTimeout r) (cs_MaxResponseBytes r) (cs_BatchSize r) (cs_AuthRefreshBefore r)))
  | DecisionsConfig => constr:((fun r : DecisionsConfig => MkDecisionsConfig (dc_Duration r) (dc_MissingGraceRuns r) (dc_RefreshBefore r)))
  | ValidationConfig => constr:((fun r : ValidationConfig => MkValidationConfig (vc_AllowHTTP r) (vc_MaxRedirects r) (vc_MaxFeeds r)
  (vc_MaxFeedNameLength r) (vc_MaxMalformedLines r) (vc_MaxMalformedRatio r) (vc_MaxLineBytes r) (vc_UserAgent r)
  (vc_DNSLookupTimeout r)))
  | LoggingConfig => constr:((fun r : LoggingConfig => MkLoggingConfig (lg_Level r) (lg_Format r)))
  | NotificationsConfig => constr:((fun r : NotificationsConfig => MkNotificationsConfig (nc_Enabled r) (nc_ServerURL r) (nc_Topic r) (nc_AllowHTTP r)
  (nc_RequestTimeout r) (nc_Cooldown r) (nc_MinimumSeverity r) (nc_FailureThreshold r) (nc_RecoveryNotifications r)
  (nc_SuspiciousChangeNotifications r) (nc_StaleSyncNotifications r) (nc_StaleSyncAfter r) (nc_StartupNotification r)
  (nc_SuccessNotification r) (nc_FirstSuccessNotification r) (nc_Token r)))
  | FeedConfig => constr:((fun r : FeedConfig => MkFeedConfig (fc_Name r) (fc_Enabled r) (fc_URL r) (fc_Format r) (fc_Family r) (fc_Timeout r)
  (fc_MaxDownloadBytes r) (fc_ExpectedMinEntries r) (fc_ExpectedMaxEntries r) (fc_MaxGrowthRatio r) (fc_MaxShrinkRatio r)
  (fc_Attribution r) (fc_MinUpdateInterval r) (fc_AllowHTTP r) (fc_ContentTypes r) (fc_RequireFinalNewline r)
  (fc_MaxMalformedLines r) (fc_MaxMalformedRatio r)))
  | Config => constr:((fun r : Config => MkConfig (cf_Server r) (cf_Schedule r) (cf_Database r) (cf_CrowdSec r) (cf_Decisions r)
  (cf_Feeds r) (cf_Allowlists r) (cf_Validation r) (cf_Logging r) (cf_Notifications r)))
  end.

(** The constructor applied to the other fields and to the new value of this one. *)
Ltac solve_field :=
  lazymatch goal with
  | |- @Field ?R _ ?field =>
      let e := eta_of R in
      let p := eval pattern field in e in
      lazymatch p with
      | ?g _ => let s := eval cbv beta in (fun f => g (fun r => f (field r))) in exact s
      end
  end.
#[export] Hint Extern 0 (Field _) => solve_field : typeclass_instances.

(** [func(c *Config) *T]: what the pointer reads and what a store through it
    leaves. *)
Record Lens (A : Type) : Type := MkLens { l_get : Config -> A; l_set : A -> Config -> Config }.
Arguments MkLens {A}.
Arguments l_get {A}.
Arguments l_set {A}.

(** [&c.Section.Field] *)
Definition at_field {S A} (section : Config -> S) `{!Field section} (field : S -> A) `{!Field field} : Lens A :=
  MkLens (fun c => field (section c)) (fun a => set_field section (set_field field (fun _ => a))).

(** [&c.Schedule.Retry.Field] *)
Definition at_retry {A} (field : RetryConfig -> A) `{!Field field} : Lens A :=
  MkLens (fun c => field (sc_Retry (cf_Schedule c)))
    (fun a => set_field cf_Schedule (set_field sc_Retry (set_field field (fun _ => a)))).

(** ** Parsing a value *)

Definition envFailure (key : string) : config_error := configError config.ErrEnvironment key.

(** [strconv.ParseBool] *)
Definition ParseBool (s : string) : option bool :=
  if existsb (String.eqb s) ["1"; "t"; "T"; "true"; "TRUE"; "True"] then Some true
  else if existsb (String.eqb s) ["0"; "f"; "F"; "false"; "FALSE"; "False"] then Some false
  else None.

Definition parsed {A} (key : string) (o : option A) : result config_error A :=
  match o with Some a => Ok a | None => Err (envFailure key) end.

Definition parseBoolEnv (key value : string) : result config_error bool := parsed key (ParseBool value).
Definition parseIntEnv (key value : string) : result config_error Z := parsed key (atoi value).
Definition parseInt64Env (key value : string) : result config_error Z := parsed key (atoi value).
Definition parseDurationEnv (key value : string) : result config_error Duration := parsed key (parse_duration value).

Definition envSetter : Type := Config -> string -> result config_error Config.

Definition durationSetter (key : string) (target : Lens Duration) : envSetter := fun c value =>
  let? p := parseDurationEnv key value in Ok (l_set target p c).
Definition boolSetter (key : string) (target : Lens bool) : envSetter := fun c value =>
  let? p := parseBoolEnv key value in Ok (l_set target p c).
Definition intSetter (key : string) (target : Lens Z) : envSetter := fun c value =>
  let? p := parseIntEnv key value in Ok (l_set target p c).
Definition int64Setter (key : string) (target : Lens Z) : envSetter := fun c value =>
  let? p := parseInt64Env key value in Ok (l_set target p c).
Definition stringSetter (target : Lens string) : envSetter := fun c value => Ok (l_set target value c).

(** [NewSecret]: a [Secret] is its value. *)
Definition NewSecret (value : string) : string := value.
Definition tokenSetter : envSetter := fun c value => Ok (l_set (at_field cf_Notifications nc_Token) (NewSecret value) c).

(** ** The table *)

(** The kind of a setting, with its place. *)
Inductive target : Type :=
| TDuration (l : Lens Duration) | TBool (l : Lens bool) | TInt (l : Lens Z) | TInt64 (l : Lens Z)
| TFloat (l : Lens float64) | TString (l : Lens string) | TToken.

Definition server_targets : list (string * target) :=
  [("CROWDSHIELD_SERVER_LISTEN_ADDRESS", TString (at_field cf_Server sv_ListenAddress));
   ("CROWDSHIELD_SERVER_READ_HEADER_TIMEOUT", TDuration (at_field cf_Server sv_ReadHeaderTimeout));
   ("CROWDSHIELD_SERVER_READ_TIMEOUT", TDuration (at_field cf_Server sv_ReadTimeout));
   ("CROWDSHIELD_SERVER_WRITE_TIMEOUT", TDuration (at_field cf_Server sv_WriteTimeout));
   ("CROWDSHIELD_SERVER_IDLE_TIMEOUT", TDuration (at_field cf_Server sv_IdleTimeout));
   ("CROWDSHIELD_SERVER_SHUTDOWN_TIMEOUT", TDuration (at_field cf_Server sv_ShutdownTimeout));
   ("CROWDSHIELD_SERVER_LAPI_UNREACHABLE_GRACE", TDuration (at_field cf_Server sv_LAPIUnreachableGrace));
   ("CROWDSHIELD_SERVER_READINESS_MAX_SYNC_AGE", TDuration (at_field cf_Server sv_ReadinessMaxSyncAge))]%string.

Definition schedule_targets : list (string * target) :=
  [("CROWDSHIELD_SCHEDULE_INTERVAL", TDuration (at_field cf_Schedule sc_Interval));
   ("CROWDSHIELD_SCHEDULE_STARTUP_JITTER", TDuration (at_field cf_Schedule sc_StartupJitter));
   ("CROWDSHIELD_SCHEDULE_RUN_IMMEDIATELY", TBool (at_field cf_Schedule sc_RunImmediately));
   ("CROWDSHIELD_SCHEDULE_RETRY_MAX_ATTEMPTS", TInt (at_retry rt_MaxAttempts));
   ("CROWDSHIELD_SCHEDULE_RETRY_INITIAL_BACKOFF", TDuration (at_retry rt_InitialBackoff));
   ("CROWDSHIELD_SCHEDULE_RETRY_MAX_BACKOFF", TDuration (at_retry rt_MaxBackoff))]%string.

Definition database_targets : list (string * target) :=
  [("CROWDSHIELD_DATABASE_PATH", TString (at_field cf_Database dbc_Path));
   ("CROWDSHIELD_DATABASE_BUSY_TIMEOUT", TDuration (at_field cf_Database dbc_BusyTimeout));
   ("CROWDSHIELD_DATABASE_INTEGRITY_CHECK_ON_STARTUP", TBool (at_field cf_Database dbc_IntegrityCheckOnStart));
   ("CROWDSHIELD_DATABASE_HISTORY_RETENTION", TDuration (at_field cf_Database dbc_HistoryRetention));
   ("CROWDSHIELD_DATABASE_MAX_HISTORY_ENTRIES", TInt (at_field cf_Database dbc_MaxHistoryEntries))]%string.

Definition crowdsec_targets : list (string * target) :=
  [("CROWDSHIELD_CROWDSEC_CREDENTIALS_FILE", TString (at_field cf_CrowdSec cs_CredentialsFile));
   ("CROWDSHIELD_CROWDSEC_REQUEST_TIMEOUT", TDuration (at_field cf_CrowdSec cs_RequestTimeout));
   ("CROWDSHIELD_CROWDSEC_CONNECT_TIMEOUT", TDuration (at_field cf_CrowdSec cs_ConnectTimeout));
   ("CROWDSHIELD_CROWDSEC_MAX_RESPONSE_BYTES", TInt64 (at_field cf_CrowdSec cs_MaxResponseBytes));
   ("CROWDSHIELD_CROWDSEC_BATCH_SIZE", TInt (at_field cf_CrowdSec cs_BatchSize));
   ("CROWDSHIELD_CROWDSEC_AUTH_REFRESH_BEFORE", TDuration (at_field cf_CrowdSec cs_AuthRefreshBefore));
   ("CROWDSHIELD_DECISIONS_DURATION", TDuration (at_field cf_Decisions dc_Duration));
   ("CROWDSHIELD_DECISIONS_MISSING_GRACE_RUNS", TInt (at_field cf_Decisions dc_MissingGraceRuns));
   ("CROWDSHIELD_DECISIONS_REFRESH_BEFORE", TDuration (at_field cf_Decisions dc_RefreshBefore))]%string.

Definition validation_targets : list (string * target) :=
  [("CROWDSHIELD_VALIDATION_ALLOW_HTTP", TBool (at_field cf_Validation vc_AllowHTTP));
   ("CROWDSHIELD_VALIDATION_MAX_REDIRECTS", TInt (at_field cf_Validation vc_MaxRedirects));
   ("CROWDSHIELD_VALIDATION_MAX_FEEDS", TInt (at_field cf_Validation vc_MaxFeeds));
   ("CROWDSHIELD_VALIDATION_MAX_FEED_NAME_LENGTH", TInt (at_field cf_Validation vc_MaxFeedNameLength));
   ("CROWDSHIELD_VALIDATION_MAX_MALFORMED_LINES", TInt (at_field cf_Validation vc_MaxMalformedLines));
   ("CROWDSHIELD_VALIDATION_MAX_MALFORMED_RATIO", TFloat (at_field cf_Validation vc_MaxMalformedRatio));
   ("CROWDSHIELD_VALIDATION_MAX_LINE_BYTES", TInt (at_field cf_Validation vc_MaxLineBytes));
   ("CROWDSHIELD_VALIDATION_USER_AGENT", TString (at_field cf_Validation vc_UserAgent));
   ("CROWDSHIELD_VALIDATION_DNS_LOOKUP_TIMEOUT", TDuration (at_field cf_Validation vc_DNSLookupTimeout));
   ("CROWDSHIELD_LOGGING_LEVEL", TString (at_field cf_Logging lg_Level))]%string.

Definition notifications_targets : list (string * target) :=
  [("CROWDSHIELD_NOTIFICATIONS_ENABLED", TBool (at_field cf_Notifications nc_Enabled));
   ("CROWDSHIELD_NOTIFICATIONS_SERVER_URL", TString (at_field cf_Notifications nc_ServerURL));
   ("CROWDSHIELD_NOTIFICATIONS_TOPIC", TString (at_field cf_Notifications nc_Topic));
   ("CROWDSHIELD_NOTIFICATIONS_ALLOW_HTTP", TBool (at_field cf_Notifications nc_AllowHTTP));
   ("CROWDSHIELD_NOTIFICATIONS_REQUEST_TIMEOUT", TDuration (at_field cf_Notifications nc_RequestTimeout));
   ("CROWDSHIELD_NOTIFICATIONS_COOLDOWN", TDuration (at_field cf_Notifications nc_Cooldown));
   ("CROWDSHIELD_NOTIFICATIONS_MINIMUM_SEVERITY", TString (at_field cf_Notifications nc_MinimumSeverity));
   ("CROWDSHIELD_NOTIFICATIONS_FAILURE_THRESHOLD", TInt (at_field cf_Notifications nc_FailureThreshold));
   ("CROWDSHIELD_NOTIFICATIONS_RECOVERY_NOTIFICATIONS", TBool (at_field cf_Notifications nc_RecoveryNotifications));
   ("CROWDSHIELD_NOTIFICATIONS_SUSPICIOUS_CHANGE_NOTIFICATIONS", TBool (at_field cf_Notifications nc_SuspiciousChangeNotifications));
   ("CROWDSHIELD_NOTIFICATIONS_STALE_SYNC_NOTIFICATIONS", TBool (at_field cf_Notifications nc_StaleSyncNotifications));
   ("CROWDSHIELD_NOTIFICATIONS_STALE_SYNC_AFTER", TDuration (at_field cf_Notifications nc_StaleSyncAfter));
   ("CROWDSHIELD_NOTIFICATIONS_STARTUP_NOTIFICATION", TBool (at_field cf_Notifications nc_StartupNotification));
   ("CROWDSHIELD_NOTIFICATIONS_SUCCESS_NOTIFICATION", TBool (at_field cf_Notifications nc_SuccessNotification));
   ("CROWDSHIELD_NOTIFICATIONS_FIRST_SUCCESS_NOTIFICATION", TBool (at_field cf_Notifications nc_FirstSuccessNotification));
   ("CROWDSHIELD_NOTIFICATIONS_TOKEN", TToken)]%string.

Definition environment_targets : list (string * target) :=
  server_targets ++ schedule_targets ++ database_targets ++ crowdsec_targets ++ validation_targets ++ notifications_targets.

(** [strings.Cut(_, "=")] *)
Definition cut_entry (entry : string) : string * string * bool :=
  match cut_byte "=" entry with Some (key, value) => (key, value, true) | None => (entry, ""%string, false) end.

(** [strings.TrimSuffix] *)
Fixpoint trim_suffix (suffix s : string) : string :=
  if String.eqb s suffix then "" else match s with String c s' => String c (trim_suffix suffix s') | "" => "" end.

Definition upper_char (c : ascii) : ascii := if is_lower c then chr (byte_of c - 32) else c.

(** [strings.ReplaceAll(_, "-", "_")] *)
Definition underscores (s : string) : string := map_chars (fun c => if Ascii.eqb c "-" then "_"%char else c) s.

Definition enable_feed (b : bool) (f : FeedConfig) : FeedConfig := set_field fc_Enabled (fun _ => b) f.

Definition replace_feeds (feeds : list FeedConfig) (c : Config) : Config := set_field cf_Feeds (fun _ => feeds) c.

Section Environment.
Context {conv : ConvLibrary}.

Definition parseFloatEnv (key value : string) : result config_error float64 := parsed key (ParseFloat value).

Definition floatSetter (key : string) (target : Lens float64) : envSetter := fun c value =>
  let? p := parseFloatEnv key value in Ok (l_set target p c).

Definition setter_of (key : string) (t : target) : envSetter :=
  match t with
  | TDuration l => durationSetter key l | TBool l => boolSetter key l | TInt l => intSetter key l
  | TInt64 l => int64Setter key l | TFloat l => floatSetter key l | TString l => stringSetter l | TToken => tokenSetter
  end.

Definition supportedEnvironment : gmap string envSetter :=
  foldl (fun setters kt => <[kt.1 := setter_of kt.1 kt.2]> setters) ∅ environment_targets.

Definition ToUpper (s : string) : string := if is_ascii s then map_chars upper_char s else unicode_upper s.

(** The name of a feed in the name of its variable. *)
Definition encoded_name (f : FeedConfig) : string := ToUpper (underscores (fc_Name f)).

(** The part of the key that names a feed. *)
Definition feed_key (key : string) : option string :=
  match cut_prefix "CROWDSHIELD_FEED_" key with
  | Some rest => if has_suffix "_ENABLED" key then Some (trim_suffix "_ENABLED" rest) else None
  | None => None
  end.

(** The loop over the feeds; [None] when no feed has this name. *)
Fixpoint switch_feed (key encoded value : string) (feeds : list FeedConfig) : option (result config_error (list FeedConfig)) :=
  match feeds with
  | [] => None
  | f :: rest =>
      if negb (String.eqb encoded (encoded_name f)) then
        match switch_feed key encoded value rest with
        | Some (Ok l) => Some (Ok (f :: l))
        | o => o
        end
      else Some (let? b := parseBoolEnv key value in Ok (enable_feed b f :: rest))
  end.

(** [None] when the key is not that of a feed. *)
Definition applyFeedEnvironment (c : Config) (key value : string) : option (result config_error Config) :=
  match feed_key key with
  | None => None
  | Some encoded =>
      Some match switch_feed key encoded value (cf_Feeds c) with
           | Some r => let? feeds := r in Ok (replace_feeds feeds c)
           | None => Err (envFailure key)
           end
  end.

(** The body of the loop. *)
Definition apply_variable (setters : gmap string envSetter) (c : Config) (entry : string) : result config_error Config :=
  let '(key, value, ok) := cut_entry entry in
  if match cut_prefix "CROWDSHIELD_" key with None => true | _ => false end then Ok c
  else if negb ok then Err (envFailure key)
  else if String.eqb key "CROWDSHIELD_CONFIG" then Ok c
  else match setters !! key with
       | Some setter => setter c value
       | None =>
           match applyFeedEnvironment c key value with
           | Some r => r
           | None => Err (envFailure key)
           end
       end.

Fixpoint apply_variables (setters : gmap string envSetter) (c : Config) (entries : list string) : result config_error Config :=
  match entries with
  | [] => Ok c
  | entry :: rest => let? c := apply_variable setters c entry in apply_variables setters c rest
  end.

Definition applyEnvironment (c : Config) (entries : list string) : result config_error Config :=
  apply_variables supportedEnvironment c entries.
End Environment.
