(* ===== verification/ConfigEnvRun.v ===== *)
(** * What the environment changes

    Every variable of the table has its own setting: storing a value changes what
    this setting reads and no other.  From there, what the loop over the
    environment leaves, and what it refuses. *)

From S2P Require Export ConfigEnv.

(** ** Reading and storing by kind *)

Inductive setting : Type :=
| VDuration (d : Duration) | VBool (b : bool) | VNumber (z : Z) | VFloat (f : float64) | VText (s : string).

Definition read_target (t : target) (c : Config) : setting :=
  match t with
  | TDuration l => VDuration (l_get l c) | TBool l => VBool (l_get l c) | TInt l | TInt64 l => VNumber (l_get l c)
  | TFloat l => VFloat (l_get l c) | TString l => VText (l_get l c)
  | TToken => VText (nc_Token (cf_Notifications c))
  end.

Definition store_target (t : target) (v : setting) (c : Config) : Config :=
  match t, v with
  | TDuration l, VDuration d => l_set l d c | TBool l, VBool b => l_set l b c
  | TInt l, VNumber z | TInt64 l, VNumber z => l_set l z c
  | TFloat l, VFloat f => l_set l f c | TString l, VText s => l_set l s c
  | TToken, VText s => l_set (at_field cf_Notifications nc_Token) s c
  | _, _ => c
  end.

(** The value is of the kind of the setting. *)
Definition kind_matches (t : target) (v : setting) : bool :=
  match t, v with
  | TDuration _, VDuration _ | TBool _, VBool _ | TInt _, VNumber _ | TInt64 _, VNumber _ | TFloat _, VFloat _
  | TString _, VText _ | TToken, VText _ => true
  | _, _ => false
  end.

Definition settings_of (c : Config) : list setting := (fun kt => read_target kt.2 c) <$> environment_targets.

(** What no variable of the table reaches. *)
Definition untouched (c : Config) : list string * list FeedConfig * AllowlistsConfig * string :=
  (cs_AllowedHTTPHosts (cf_CrowdSec c), cf_Feeds c, cf_Allowlists c, lg_Format (cf_Logging c)).

(** A configuration is its settings and the rest. *)
Lemma settings_determine c1 c2 : settings_of c1 = settings_of c2 -> untouched c1 = untouched c2 -> c1 = c2.
Proof.
  destruct c1 as [[] [? ? ? []] [] [] [] ? ? [] [] []], c2 as [[] [? ? ? []] [] [] [] ? ? [] [] []].
  unfold settings_of, untouched. cbn. intros H1 H2. by simplify_eq.
Qed.


(** Storing a value into a setting changes this setting only. *)
Lemma store_settings i key t v c : environment_targets !! i = Some (key, t) -> kind_matches t v = true ->
  settings_of (store_target t v c) = <[i := v]> (settings_of c) /\ untouched (store_target t v c) = untouched c.
Proof.
  destruct c as [[] [? ? ? []] [] [] [] ? ? [] [] []].
  do 54 (destruct i as [|i]; [cbn [lookup list_lookup environment_targets server_targets schedule_targets database_targets
    crowdsec_targets validation_targets notifications_targets app]; intros [= <- <-]; destruct v; (discriminate || (intros _; by split))|]).
  intros H. apply lookup_lt_Some in H. cbn in H. lia.
Qed.

Lemma targets_distinct : NoDup (environment_targets.*1).
Proof. apply (bool_decide_unpack _). by vm_compute. Qed.

#[local] Arguments environment_targets : simpl never.
#[local] Arguments supportedEnvironment : simpl never.

(** The last insertions are the map's, whatever it held before. *)
Lemma foldl_insert_None {A B} (f : string -> A -> B) (l : list (string * A)) (m : gmap string B) k :
  k ∉ l.*1 -> foldl (fun m kt => <[kt.1 := f kt.1 kt.2]> m) m l !! k = m !! k.
Proof.
  revert m. induction l as [|[k' a] l IH]; intros m; cbn; [done|]. rewrite list.not_elem_of_cons. intros [Hne Hk].
  rewrite IH by done. by rewrite lookup_insert_ne.
Qed.

Lemma foldl_insert_Some {A B} (f : string -> A -> B) (l : list (string * A)) (m : gmap string B) i k a :
  NoDup (l.*1) -> l !! i = Some (k, a) -> foldl (fun m kt => <[kt.1 := f kt.1 kt.2]> m) m l !! k = Some (f k a).
Proof.
  revert m i. induction l as [|[k' a'] l IH]; intros m i; [done|]. rewrite fmap_cons, list.NoDup_cons. intros [Hk Hl].
  destruct i as [|i]; cbn; [|intros H; by eapply IH]. intros [= -> ->]. rewrite foldl_insert_None by done. apply lookup_insert_eq.
Qed.

(** ** What an entry does *)

Inductive entry_effect : Type :=
| Ignored                               (* not a variable of this program *)
| Sets (i : nat) (v : setting)          (* the setting of this index takes this value *)
| Switches (i : nat) (b : bool)         (* the feed of this index is switched *)
| Refused.

(** The index of the variable in the table. *)
Definition variable_of (key : string) : option (nat * target) :=
  (fun ikt => (ikt.1, ikt.2.2)) <$> list_find (fun kt => kt.1 = key) environment_targets.

Lemma variable_of_Some key i t : variable_of key = Some (i, t) -> environment_targets !! i = Some (key, t).
Proof.
  unfold variable_of. destruct (list_find _ _) as [[j [k t']]|] eqn:E; [|done]. cbn. intros [= -> ->].
  apply list_find_Some in E as (E & Hk & _). cbn in Hk. by subst k.
Qed.

Lemma variable_of_None key : variable_of key = None -> key ∉ environment_targets.*1.
Proof.
  unfold variable_of. destruct (list_find _ _) eqn:E; [done|]. intros _. apply list_find_None in E.
  rewrite list_elem_of_fmap. intros ([k t] & -> & Hin). rewrite list.Forall_forall in E. by apply (E _ Hin).
Qed.

Section Effects.
Context {conv : ConvLibrary}.

Definition parse_target (t : target) (value : string) : option setting :=
  match t with
  | TDuration _ => VDuration <$> parse_duration value | TBool _ => VBool <$> ParseBool value
  | TInt _ | TInt64 _ => VNumber <$> atoi value | TFloat _ => VFloat <$> ParseFloat value
  | TString _ | TToken => Some (VText value)
  end.

(** The effect depends on the names of the feeds only. *)
Definition effect_of (names : list string) (entry : string) : entry_effect :=
  let '(key, value, ok) := cut_entry entry in
  if match cut_prefix "CROWDSHIELD_" key with None => true | _ => false end then Ignored
  else if negb ok then Refused
  else if String.eqb key "CROWDSHIELD_CONFIG" then Ignored
  else match variable_of key with
       | Some (i, t) => match parse_target t value with Some v => Sets i v | None => Refused end
       | None =>
           match feed_key key with
           | Some encoded =>
               match list_find (fun name => encoded = name) names, ParseBool value with
               | Some (i, _), Some b => Switches i b
               | _, _ => Refused
               end
           | None => Refused
           end
       end.

Definition encoded_names (c : Config) : list string := encoded_name <$> cf_Feeds c.

Lemma setter_of_spec key t c value :
  setter_of key t c value =
  match parse_target t value with Some v => Ok (store_target t v c) | None => Err (envFailure key) end.
Proof.
  destruct t; cbn; [unfold durationSetter, parseDurationEnv|unfold boolSetter, parseBoolEnv|unfold intSetter, parseIntEnv|
    unfold int64Setter, parseInt64Env|unfold floatSetter, parseFloatEnv| |]; try (by destruct (parse_duration value)); try done.
  - by destruct (ParseBool value).
  - by destruct (atoi value).
  - by destruct (atoi value).
  - by destruct (ParseFloat value).
Qed.

Lemma parse_target_kind t value v : parse_target t value = Some v -> kind_matches t v = true.
Proof.
  destruct t; cbn; [destruct (parse_duration _)|destruct (ParseBool _)|destruct (atoi _)|destruct (atoi _)|destruct (ParseFloat _)| |];
    cbn; by intros [= <-].
Qed.

Lemma supported_variable key :
  supportedEnvironment !! key = (fun it => setter_of key it.2) <$> variable_of key.
Proof.
  destruct (variable_of key) as [[i t]|] eqn:E.
  - apply variable_of_Some in E. exact (foldl_insert_Some setter_of _ ∅ i key t targets_distinct E).
  - apply variable_of_None in E. exact (foldl_insert_None setter_of _ ∅ key E).
Qed.

(** The feeds after a switch of the one of index [i]. *)
Lemma switch_feed_spec key encoded value feeds :
  switch_feed key encoded value feeds =
  match list_find (fun name => encoded = name) (encoded_name <$> feeds) with
  | None => None
  | Some (i, _) => Some (match ParseBool value with
                         | Some b => Ok (alter (enable_feed b) i feeds)
                         | None => Err (envFailure key)
                         end)
  end.
Proof.
  induction feeds as [|f feeds IH]; [done|]. cbn [switch_feed fmap list_fmap list_find].
  destruct (String.eqb_spec encoded (encoded_name f)) as [->|Hne]; cbn [negb].
  - rewrite decide_True by done. unfold parseBoolEnv. by destruct (ParseBool value).
  - rewrite decide_False by done. unfold fmap in IH. rewrite IH.
    destruct (list_find _ _) as [[i n]|]; [|done]. cbn. by destruct (ParseBool value).
Qed.

(** ** One entry *)

(** What an effect leaves of a configuration. *)
Definition effected (e : entry_effect) (c c' : Config) : Prop :=
  match e with
  | Ignored => c' = c
  | Sets i v => settings_of c' = <[i := v]> (settings_of c) /\ untouched c' = untouched c
  | Switches i b => settings_of c' = settings_of c /\
      untouched c' = (cs_AllowedHTTPHosts (cf_CrowdSec c), alter (enable_feed b) i (cf_Feeds c), cf_Allowlists c, lg_Format (cf_Logging c))
  | Refused => False
  end.

Lemma apply_variable_spec c entry :
  match apply_variable supportedEnvironment c entry with
  | Ok c' => effected (effect_of (encoded_names c) entry) c c'
  | Err e => effect_of (encoded_names c) entry = Refused /\ e = envFailure (cut_entry entry).1.1
  end.
Proof.
  unfold apply_variable, effect_of. destruct (cut_entry entry) as [[key value] ok]. cbn [fst snd].
  destruct (cut_prefix "CROWDSHIELD_" key); [|done]. destruct ok; cbn [negb]; [|done].
  destruct (String.eqb key "CROWDSHIELD_CONFIG"); [done|]. rewrite supported_variable.
  destruct (variable_of key) as [[i t]|] eqn:Ev; cbn [fmap option_fmap option_map snd].
  - rewrite setter_of_spec. destruct (parse_target t value) as [v|] eqn:Ep; [|done]. cbn.
    eapply store_settings; [by apply variable_of_Some|by eapply parse_target_kind].
  - unfold applyFeedEnvironment. destruct (feed_key key) as [encoded|]; [|done]. rewrite switch_feed_spec.
    unfold encoded_names. destruct (list_find _ _) as [[i n]|]; [|done]. by destruct (ParseBool value).
Qed.

Lemma encoded_names_alter b i (feeds : list FeedConfig) : encoded_name <$> alter (enable_feed b) i feeds = encoded_name <$> feeds.
Proof. revert i. induction feeds as [|f feeds IH]; intros [|i]; cbn; [done..|]. f_equal. apply IH. Qed.

Lemma effected_encoded_names e c c' : effected e c c' -> encoded_names c' = encoded_names c.
Proof.
  unfold encoded_names, untouched. destruct e as [|i v|i b|]; cbn; [by intros ->| | |done]; intros [_ H]; simplify_eq; [congruence|].
  injection H as _ -> _ _. apply encoded_names_alter.
Qed.

(** ** The whole environment *)

(** The values the entries give to the setting, and to the switch of the feed, of index [i]. *)
Definition given (names : list string) (i : nat) (entries : list string) : list setting :=
  omap (fun entry => match effect_of names entry with Sets j v => if decide (j = i) then Some v else None | _ => None end) entries.

Definition switched (names : list string) (i : nat) (entries : list string) : list bool :=
  omap (fun entry => match effect_of names entry with Switches j b => if decide (j = i) then Some b else None | _ => None end) entries.

(** The configuration with what the entries say: each setting has the last value
    it was given, each feed the last position of its switch, all else is as before. *)
Record overridden (c c' : Config) (entries : list string) : Prop := {
  ov_settings : forall i, settings_of c' !! i = match list.last (given (encoded_names c) i entries) with
                                                | Some v => Some v | None => settings_of c !! i end;
  ov_feeds : forall i, cf_Feeds c' !! i = (fun f => enable_feed (default (fc_Enabled f) (list.last (switched (encoded_names c) i entries))) f) <$> cf_Feeds c !! i;
  ov_hosts : cs_AllowedHTTPHosts (cf_CrowdSec c') = cs_AllowedHTTPHosts (cf_CrowdSec c);
  ov_allowlists : cf_Allowlists c' = cf_Allowlists c;
  ov_format : lg_Format (cf_Logging c') = lg_Format (cf_Logging c) }.

Lemma apply_variables_app setters c es es' :
  apply_variables setters c (es ++ es') = let? c1 := apply_variables setters c es in apply_variables setters c1 es'.
Proof. revert c. induction es as [|e es IH]; intros c; cbn [app apply_variables rbind]; [done|]. by destruct (apply_variable setters c e); cbn. Qed.

Lemma apply_variables_names c es c' : apply_variables supportedEnvironment c es = Ok c' -> encoded_names c' = encoded_names c.
Proof.
  revert c. induction es as [|e es IH]; intros c; cbn [apply_variables]; [by intros [= ->]|].
  pose proof (apply_variable_spec c e) as H. destruct (apply_variable _ c e) as [c1|]; [|done]. cbn [rbind]. intros ->%IH.
  by eapply effected_encoded_names.
Qed.

Lemma overridden_nil c : overridden c c [].
Proof. split; cbn; try done; intros i. by destruct (cf_Feeds c !! i) as [[]|]. Qed.

Lemma effected_settings e c c' i v : effected e c c' -> e = Sets i v -> settings_of c' = <[i := v]> (settings_of c).
Proof. intros H ->. apply H. Qed.

(** One more entry. *)
Lemma overridden_snoc c c1 c2 es e :
  overridden c c1 es -> effected (effect_of (encoded_names c) e) c1 c2 ->
  (forall i v, effect_of (encoded_names c) e = Sets i v -> (i < List.length (settings_of c))%nat) ->
  overridden c c2 (es ++ [e]).
Proof.
  intros [H1 H2 H3 H4 H5] He Hi. unfold untouched in He.
  assert (List.length (settings_of c1) = List.length (settings_of c)) as Hlen by (unfold settings_of; by rewrite !length_fmap).
  destruct (effect_of (encoded_names c) e) as [|i v|i b|] eqn:E; cbn in He; [subst c2|destruct He as [Hs Hu]..|done];
    [| |]; try (injection Hu as Eh Ef Ea El); split; try congruence; intros j; unfold given, switched;
    rewrite omap_app; cbn; rewrite E; rewrite ?app_nil_r; try rewrite Hs; try rewrite Ef; try apply H1; try apply H2.
  - destruct (decide (i = j)) as [->|Hne].
    + rewrite list.last_snoc. rewrite list_lookup_insert_eq; [done|]. rewrite Hlen. by eapply Hi.
    + rewrite app_nil_r, list_lookup_insert_ne by done. apply H1.
  - destruct (decide (i = j)) as [->|Hne].
    + rewrite list.last_snoc, list_lookup_alter_eq, H2. by destruct (cf_Feeds c !! j).
    + rewrite app_nil_r, list_lookup_alter_ne by done. apply H2.
Qed.

Lemma effect_index names e i v : effect_of names e = Sets i v -> (i < List.length environment_targets)%nat.
Proof.
  unfold effect_of. destruct (cut_entry e) as [[key value] ok]. destruct (cut_prefix _ key); [|done]. destruct (negb ok); [done|].
  destruct (String.eqb _ _); [done|]. destruct (variable_of key) as [[j t]|] eqn:Ev.
  - destruct (parse_target t value); [|done]. intros [= <- _]. apply variable_of_Some in Ev. by eapply lookup_lt_Some.
  - destruct (feed_key key); [|done]. destruct (list_find _ _) as [[]|]; [|done]. by destruct (ParseBool value).
Qed.

(** C22: the environment.  It is applied only if every entry of this program is
    understood, and then each setting has the last value an entry of its own
    variable gives it, or the value it had; each feed is switched as the last
    entry of its own name says; nothing else is changed.  Otherwise the error
    names the variable of the first entry that is refused, never its value. *)
Theorem applyEnvironment_exact c entries :
  match applyEnvironment c entries with
  | Ok c' => Forall (fun entry => effect_of (encoded_names c) entry <> Refused) entries /\ overridden c c' entries
  | Err e =>
      exists before entry after, entries = before ++ entry :: after /\ effect_of (encoded_names c) entry = Refused /\
        Forall (fun entry => effect_of (encoded_names c) entry <> Refused) before /\ e = envFailure (cut_entry entry).1.1
  end.
Proof.
  unfold applyEnvironment. induction entries as [|entry es IH] using rev_ind.
  { cbn. split; [constructor|apply overridden_nil]. }
  rewrite apply_variables_app. destruct (apply_variables _ c es) as [c1|e] eqn:E; cbn [rbind].
  - destruct IH as [Hf Ho]. apply apply_variables_names in E. cbn [apply_variables].
    pose proof (apply_variable_spec c1 entry) as Hs. rewrite E in Hs.
    destruct (apply_variable _ c1 entry) as [c2|e]; cbn [rbind].
    + split.
      * apply List.Forall_app. split; [done|]. constructor; [|done]. intros Hr. by rewrite Hr in Hs.
      * eapply overridden_snoc; [done..|]. intros i v Hi. unfold settings_of. rewrite length_fmap. by eapply effect_index.
    + destruct Hs as [Hr ->]. by exists es, entry, [].
  - destruct IH as (before & bad & after & -> & Hr & Hf & ->). exists before, bad, (after ++ [entry]).
    by rewrite <- app_assoc.
Qed.
End Effects.
