(* ===== verification/ConfigLoad.v ===== *)
(** * Loading the configuration ([config/load.go], [duration.go], [cidr.go],
      [secret.go])

    The texts of the file that become durations, prefixes and secrets, and the
    loader: one bounded document, the environment over it, the validation.  The
    file system is that of [Credentials]; the YAML decoder is a function with the
    laws that follow from how it calls [UnmarshalYAML]. *)

From S2P Require Export ConfigEnv Credentials.

(** ** Texts of the file *)

(** A [*yaml.Node], as far as the methods read it. *)
Record yaml_Node : Type := MkNode { yn_Scalar : bool; yn_Tag : string; yn_Value : string }.

Definition is_text (node : yaml_Node) : bool := yn_Scalar node && String.eqb (yn_Tag node) "!!str".

Definition Duration_UnmarshalYAML (node : yaml_Node) : result error Duration :=
  if negb (is_text node) then Err (Foreign "duration must be a string")
  else match ParseDuration (yn_Value node) with
       | Err _ => Err (Foreign "invalid duration")
       | Ok parsed => Ok parsed
       end.

Definition CIDR_UnmarshalYAML (node : yaml_Node) : result error Prefix :=
  if negb (is_text node) then Err (Foreign "CIDR must be a string")
  else match ParsePrefix (yn_Value node) with
       | None => Err (Foreign "invalid CIDR")
       | Some prefix => Ok (Masked prefix)
       end.

(** [MarshalYAML] and [String]. *)
Definition Duration_MarshalYAML (d : Duration) : string := duration_String d.
Definition CIDR_MarshalYAML (p : Prefix) : string := prefix_String p.

(** A [Secret] is its value: the way it is printed does not depend on it. *)
Definition IsSet (secret : string) : bool := negb (String.eqb secret "").
Definition Reveal (secret : string) : string := secret.
Definition Secret_String (secret : string) : string := "[REDACTED]".
Definition Secret_GoString (secret : string) : string := "config.Secret{[REDACTED]}".
Definition Secret_MarshalText (secret : string) : string := "[REDACTED]".
Definition Secret_MarshalYAML (secret : string) : string := "[REDACTED]".

(** ** What an error says *)

(** The text of a class. *)
Definition config_category_text (c : config.ErrorCategory) : string :=
  match c with
  | config.ErrConfigSize => "config_size" | config.ErrYAML => "yaml_invalid" | config.ErrYAMLDocument => "yaml_multiple_documents"
  | config.ErrEnvironment => "environment_invalid" | config.ErrDuration => "duration_invalid"
  | config.ErrFeedName => "feed_name_invalid" | config.ErrFeedURL => "feed_url_invalid"
  | config.ErrFeedThreshold => "feed_threshold_invalid" | config.ErrAllowlist => "allowlist_invalid"
  | config.ErrPath => "path_invalid" | config.ErrServer => "server_invalid"
  | config.ErrNotification => "notification_invalid" | config.ErrValidation => "validation_invalid"
  end.

(** [Error]; [None] is a nil pointer.  The cause and the rejected value are not
    part of it. *)
Definition config_error_text (e : option config_error) : string :=
  match e with
  | None => "configuration error"
  | Some e =>
      if String.eqb (ce_Field e) "" then "configuration: " +:+ config_category_text (Config.ce_Category e)
      else if 0 <=? ce_Index e
      then "configuration " +:+ ce_Field e +:+ "[" +:+ itoa (ce_Index e) +:+ "]: " +:+ config_category_text (Config.ce_Category e)
      else "configuration " +:+ ce_Field e +:+ ": " +:+ config_category_text (Config.ce_Category e)
  end.

Definition config_IsCategory (e : config_error) (category : config.ErrorCategory) : bool :=
  String.eqb (config_category_text (Config.ce_Category e)) (config_category_text category).

(** ** The decoder *)

(** What [Decode] fails with: [io.EOF], when there is no document, or an error
    with a text. *)
Inductive yaml_failure : Type := DecodeEOF | DecodeError (text : string).

(** The durations, the whole numbers and the prefixes of a configuration. *)
Definition feed_durations (f : FeedConfig) : list Duration := [fc_Timeout f; fc_MinUpdateInterval f].
Definition durations_of (c : Config) : list Duration :=
  let s := cf_Server c in let n := cf_Notifications c in let r := sc_Retry (cf_Schedule c) in
  [sv_ReadHeaderTimeout s; sv_ReadTimeout s; sv_WriteTimeout s; sv_IdleTimeout s; sv_ShutdownTimeout s;
   sv_LAPIUnreachableGrace s; sv_ReadinessMaxSyncAge s; sc_Interval (cf_Schedule c); sc_StartupJitter (cf_Schedule c);
   rt_InitialBackoff r; rt_MaxBackoff r; dbc_BusyTimeout (cf_Database c); dbc_HistoryRetention (cf_Database c);
   cs_RequestTimeout (cf_CrowdSec c); cs_ConnectTimeout (cf_CrowdSec c); cs_AuthRefreshBefore (cf_CrowdSec c);
   dc_Duration (cf_Decisions c); dc_RefreshBefore (cf_Decisions c); vc_DNSLookupTimeout (cf_Validation c);
   nc_RequestTimeout n; nc_Cooldown n; nc_StaleSyncAfter n] ++ flat_map feed_durations (cf_Feeds c).

Definition feed_numbers (f : FeedConfig) : list Z :=
  [fc_MaxDownloadBytes f; fc_ExpectedMinEntries f; fc_ExpectedMaxEntries f; fc_MaxMalformedLines f].
Definition numbers_of (c : Config) : list Z :=
  let v := cf_Validation c in
  [rt_MaxAttempts (sc_Retry (cf_Schedule c)); dbc_MaxHistoryEntries (cf_Database c); cs_MaxResponseBytes (cf_CrowdSec c);
   cs_BatchSize (cf_CrowdSec c); dc_MissingGraceRuns (cf_Decisions c); vc_MaxRedirects v; vc_MaxFeeds v;
   vc_MaxFeedNameLength v; vc_MaxMalformedLines v; vc_MaxLineBytes v; nc_FailureThreshold (cf_Notifications c)] ++
  flat_map feed_numbers (cf_Feeds c).

(** [config_decode c body] is the first document decoded over [c] with known
    fields only, and what follows it.  A field that the document does not name
    keeps its value, one of a new element of a list is zero; a duration or a
    prefix that it names comes from the method; a number fits its type; the
    token is not a field of the document. *)
Class ConfigCodec : Type := {
  config_decode : Config -> string -> result yaml_failure (Config * yaml_end);
  decoded_durations : forall c body c' rest, config_decode c body = Ok (c', rest) ->
    Forall (fun d => In d (durations_of c) \/ d = 0 \/ exists node, Duration_UnmarshalYAML node = Ok d) (durations_of c');
  decoded_numbers : forall c body c' rest, config_decode c body = Ok (c', rest) ->
    Forall (fun z => In z (numbers_of c) \/ in_int64 z) (numbers_of c');
  decoded_prefixes : forall c body c' rest, config_decode c body = Ok (c', rest) ->
    Forall (fun p => In p (al_CIDRs (cf_Allowlists c)) \/ IsValid p = false \/ exists node, CIDR_UnmarshalYAML node = Ok p)
      (al_CIDRs (cf_Allowlists c'));
  decoded_token : forall c body c' rest, config_decode c body = Ok (c', rest) ->
    nc_Token (cf_Notifications c') = nc_Token (cf_Notifications c) }.

(** ** The loader *)

Definition DefaultPath : string := "/config/crowdshield.yaml".
Definition DefaultMaxConfigBytes : Z := Z.shiftl 1 20.

(** [cl_Environ] is [None] for a nil function. *)
Record ConfigLoader : Type := MkConfigLoader { cl_Version : string; cl_MaxBytes : Z; cl_Environ : option (list string) }.

Definition decodeCategory (text : string) : config.ErrorCategory :=
  if contains_text "invalid CIDR" text || contains_text "CIDR must" text then config.ErrAllowlist
  else if contains_text "invalid duration" text || contains_text "duration must" text then config.ErrDuration
  else config.ErrYAML.

(** An operation of the file system whose error is a cause. *)
Definition config_tried {W A} (c : config.ErrorCategory) (m : M W error A) : M W config_error A :=
  fun w => match m w with (Ok a, w') => (Ok a, w') | (Err _, w') => (Err (configError c "config"), w') end.

Definition config_demand {W} (ok : bool) (c : config.ErrorCategory) : M W config_error unit :=
  if ok then mok tt else mfail (configError c "config").

Section Load.
Context {lib : TextLibrary} {conv : ConvLibrary} {codec : ConfigCodec} {W : Type} `{!FileSystem W}.
(** [os.Environ()] *)
Context (os_Environ : list string).

(** [DefaultLoader] *)
Definition DefaultLoader (version : string) : ConfigLoader := MkConfigLoader version DefaultMaxConfigBytes (Some os_Environ).

(** The text, the environment, the validation. *)
Definition read_config (l : ConfigLoader) (body : string) : result config_error Config :=
  match config_decode (Defaults (cl_Version l)) body with
  | Err DecodeEOF => Err (configError config.ErrYAML "config")
  | Err (DecodeError text) => Err (configError (decodeCategory text) "config")
  | Ok (_, YamlMore _) => Err (configError config.ErrYAMLDocument "config")
  | Ok (cfg, YamlEOF) =>
      let? cfg := applyEnvironment cfg (default os_Environ (cl_Environ l)) in
      Config_Validate cfg
  end.

Definition max_bytes (l : ConfigLoader) : Z := if cl_MaxBytes l <=? 0 then DefaultMaxConfigBytes else cl_MaxBytes l.

(** From the open file on. *)
Definition load_config_file (l : ConfigLoader) (file : Z) : M W config_error Config :=
  let! stat := config_tried config.ErrPath (f_Stat file) in
  let! _ := config_demand (fi_Regular stat) config.ErrPath in
  let! _ := config_demand (negb (max_bytes l <? fi_Size stat)) config.ErrConfigSize in
  let! body := config_tried config.ErrYAML (f_ReadAll file (int64_wrap (max_bytes l + 1))) in
  let! _ := config_demand (negb (max_bytes l <? len body)) config.ErrConfigSize in
  match read_config l body with Ok c => mok c | Err e => mfail e end.

Definition LoadConfig (l : ConfigLoader) (path : string) : M W config_error Config :=
  let path := if String.eqb path "" then DefaultPath else path in
  let! file := config_tried config.ErrPath (f_Open path) in
  fun w => let '(r, w) := load_config_file l file w in (r, f_Close file w).
End Load.
