(* ===== verification/ConfigLoadRun.v ===== *)
(** * What a loaded configuration is

    The file is read once, within its limit, and closed; the configuration comes
    from its text and the environment alone; and whatever they say, every number
    of it lies between the bounds the rest of the program relies on. *)

From S2P Require Export ConfigLoad ConfigEnvRun Credentials ConfigReady.

#[local] Arguments environment_targets : simpl never.
#[local] Arguments supportedEnvironment : simpl never.

(** ** Numbers that fit *)

Lemma atoi_range s z : atoi s = Some z -> in_int64 z.
Proof.
  unfold atoi, in_int64. intros H.
  assert (exists x, (if (min_int64 <=? x) && (x <=? max_int64) then Some x else None) = Some z) as [x Hx].
  { destruct s as [|[[] [] [] [] [] [] [] []] s];
      repeat match type of H with context [digits_value ?t] => destruct (digits_value t); [|discriminate H] end; eexists; exact H. }
  destruct (_ && _) eqn:E in Hx; [|done]. injection Hx as <-. to_prop. lia.
Qed.

Definition setting_fits (v : setting) : Prop :=
  match v with VDuration d => in_int64 d | VNumber z => in_int64 z | _ => True end.

(** Every duration and every number is an [int64]. *)
Definition fits (c : Config) : Prop := Forall in_int64 (durations_of c) /\ Forall in_int64 (numbers_of c).

Definition feed_fits (f : FeedConfig) : Prop := Forall in_int64 (feed_durations f ++ feed_numbers f).

Lemma Forall_flat_map {A B} (P : B -> Prop) (f : A -> list B) (xs : list A) :
  Forall P (flat_map f xs) <-> Forall (fun a => Forall P (f a)) xs.
Proof.
  induction xs as [|x xs IH]; cbn; [split; constructor|]. rewrite List.Forall_app, List.Forall_cons_iff. by rewrite IH.
Qed.

Lemma fits_settings c : fits c <-> Forall setting_fits (settings_of c) /\ Forall feed_fits (cf_Feeds c).
Proof.
  unfold fits, durations_of, numbers_of, feed_fits. rewrite !List.Forall_app, !Forall_flat_map.
  assert (Forall (fun f => Forall in_int64 (feed_durations f ++ feed_numbers f)) (cf_Feeds c) <->
    Forall (fun f => Forall in_int64 (feed_durations f)) (cf_Feeds c) /\ Forall (fun f => Forall in_int64 (feed_numbers f)) (cf_Feeds c)) as ->.
  { rewrite !List.Forall_forall. setoid_rewrite List.Forall_app.
    split; [intros H; split; intros f Hf; by destruct (H f Hf)|intros [H1 H2] f Hf; split; [by apply H1|by apply H2]]. }
  unfold settings_of, environment_targets. cbn [fmap list_fmap app server_targets schedule_targets database_targets crowdsec_targets
    validation_targets notifications_targets read_target fst snd l_get at_field at_retry].
  rewrite !List.Forall_cons_iff. cbn [setting_fits].
  split; intros; repeat match goal with H : _ /\ _ |- _ => destruct H as [? ?] end;
    repeat lazymatch goal with |- _ /\ _ => split end; first [assumption|exact I|constructor].
Qed.

Section Fits.
Context {conv : ConvLibrary}.

Lemma effect_fits names e i v : effect_of names e = Sets i v -> setting_fits v.
Proof.
  unfold effect_of. destruct (cut_entry e) as [[key value] ok]. destruct (cut_prefix _ key); [|done]. destruct (negb ok); [done|].
  destruct (String.eqb _ _); [done|]. destruct (variable_of key) as [[j t]|] eqn:Ev.
  - destruct (parse_target t value) as [v'|] eqn:Ep; [|done]. intros [= _ <-]. destruct t; cbn in Ep;
      [destruct (parse_duration value) eqn:Hv|destruct (ParseBool value)|destruct (atoi value) eqn:Hv|destruct (atoi value) eqn:Hv|
       destruct (ParseFloat value)| |]; cbn in Ep; try discriminate Ep; injection Ep as <-; cbn; try done;
      [by eapply parse_duration_range|by eapply atoi_range..].
  - destruct (feed_key key); [|done]. destruct (list_find _ _) as [[]|]; [|done]. by destruct (ParseBool value).
Qed.

(** The environment cannot bring in a number that does not fit. *)
Lemma applyEnvironment_fits c entries c' : fits c -> applyEnvironment c entries = Ok c' -> fits c'.
Proof.
  rewrite !fits_settings. unfold applyEnvironment. revert c. induction entries as [|e es IH]; intros c Hc; cbn [apply_variables];
    [by intros [= <-]|].
  pose proof (apply_variable_spec c e) as Hs. destruct (apply_variable _ c e) as [c1|]; [|done]. cbn [rbind]. apply IH. clear IH.
  destruct Hc as [Hc Hf]. unfold untouched in Hs. destruct (effect_of (encoded_names c) e) as [|i v|i b|] eqn:E; cbn in Hs; [by subst c1|destruct Hs as [-> Hu]..|done];
    injection Hu as _ Ef _ _; rewrite Ef; split; try done.
  - apply list.Forall_insert; [done|]. by eapply effect_fits.
  - apply list.Forall_alter; done.
Qed.
End Fits.

(** ** The whole of a load *)

Section Loaded.
Context {lib : TextLibrary} {conv : ConvLibrary} {codec : ConfigCodec}.
Context (os_Environ : list string).

(** The decoded document fits, since the defaults do. *)
Lemma defaults_fit version : fits (Defaults version).
Proof.
  split; apply List.Forall_forall; intros z Hz; cbn in Hz;
    repeat (destruct Hz as [<-|Hz]; [vm_compute; by split|]); done.
Qed.

Lemma unmarshalled_fits node d : Duration_UnmarshalYAML node = Ok d -> in_int64 d.
Proof.
  unfold Duration_UnmarshalYAML, ParseDuration. destruct (negb _); [done|].
  destruct (parse_duration _) as [x|] eqn:E; [|done]. intros [= <-]. by eapply parse_duration_range.
Qed.

Lemma decoded_fits c body c' rest : fits c -> config_decode c body = Ok (c', rest) -> fits c'.
Proof.
  intros [Hd Hn] H. rewrite List.Forall_forall in Hd, Hn. split.
  - eapply List.Forall_impl; [|by eapply decoded_durations]. intros d [Hin|[->|[node Hu]]]; [by apply Hd|done|].
    by eapply unmarshalled_fits.
  - eapply List.Forall_impl; [|by eapply decoded_numbers]. intros z [Hin|Hz]; [by apply Hn|done].
Qed.

(** A configuration comes from a document with nothing after it, the
    environment over it, and the validation of both. *)
Definition comes_from (l : ConfigLoader) (body : string) (c : Config) : Prop :=
  exists document settings,
    config_decode (Defaults (cl_Version l)) body = Ok (document, YamlEOF) /\
    applyEnvironment document (default os_Environ (cl_Environ l)) = Ok settings /\ Config_Validate settings = Ok c.

Lemma read_config_from l body c : read_config os_Environ l body = Ok c -> comes_from l body c.
Proof.
  unfold read_config. destruct (config_decode _ body) as [[document []]|[]] eqn:Ed; try done.
  destruct (applyEnvironment _ _) as [settings|] eqn:Ea; [|done]. cbn [rbind]. intros H. by exists document, settings.
Qed.

Lemma comes_from_fits l body c : comes_from l body c ->
  exists settings, fits settings /\ Config_Validate settings = Ok c.
Proof.
  intros (document & settings & Hd & Ha & Hv). exists settings. split; [|done].
  eapply applyEnvironment_fits; [|done]. eapply decoded_fits; [|done]. apply defaults_fit.
Qed.

(** What is done with the open file, and what comes of it; [limit] is read at
    most, and a byte more to see that it is not all. *)
Inductive config_read (l : ConfigLoader) (file : Z) : list file_act -> result config_error Config -> Prop :=
| no_stat e : config_read l file [ActStat file (Err e)] (Err (configError config.ErrPath "config"))
| not_regular info : fi_Regular info = false -> config_read l file [ActStat file (Ok info)] (Err (configError config.ErrPath "config"))
| too_large info : fi_Regular info = true -> max_bytes l < fi_Size info ->
    config_read l file [ActStat file (Ok info)] (Err (configError config.ErrConfigSize "config"))
| unreadable info e : fi_Regular info = true -> fi_Size info <= max_bytes l ->
    config_read l file [ActStat file (Ok info); ActRead file (int64_wrap (max_bytes l + 1)) (Err e)] (Err (configError config.ErrYAML "config"))
| grown info body : fi_Regular info = true -> fi_Size info <= max_bytes l -> max_bytes l < len body ->
    config_read l file [ActStat file (Ok info); ActRead file (int64_wrap (max_bytes l + 1)) (Ok body)]
      (Err (configError config.ErrConfigSize "config"))
| whole info body : fi_Regular info = true -> fi_Size info <= max_bytes l -> len body <= max_bytes l ->
    config_read l file [ActStat file (Ok info); ActRead file (int64_wrap (max_bytes l + 1)) (Ok body)] (read_config os_Environ l body).

Inductive config_trace (l : ConfigLoader) (path : string) : list file_act -> result config_error Config -> Prop :=
| config_unopened e : config_trace l path [ActOpen path (Err e)] (Err (configError config.ErrPath "config"))
| config_opened file acts r : config_read l file acts r -> config_trace l path (ActOpen path (Ok file) :: acts ++ [ActClose file]) r.

Context {W : Type} `{!FileSystem W}.

Lemma load_config_file_trace l file (w : W) acts0 :
  let '(r, (_, acts)) := load_config_file os_Environ l file (w, acts0) in
  exists acts', acts = acts0 ++ acts' /\ config_read l file acts' r.
Proof.
  unfold load_config_file, mthen, config_tried, config_demand. cbn [f_Stat files_logged fst snd].
  destruct (f_Stat file w) as [[info|e] w1]; [|eexists; split; [done|constructor]].
  destruct (fi_Regular info) eqn:Hr; cbn [mok mfail]; unfold mok, mfail; [|eexists; split; [done|by constructor]].
  destruct (Z.ltb_spec (max_bytes l) (fi_Size info)); cbn [negb]; [eexists; split; [done|by constructor]|].
  cbn [f_ReadAll files_logged fst snd].
  destruct (f_ReadAll file _ w1) as [[body|e] w2]; [|rewrite <- app_assoc; eexists; split; [done|by constructor]].
  destruct (Z.ltb_spec (max_bytes l) (len body)); cbn [negb]; rewrite <- app_assoc; [eexists; split; [done|by constructor]|].
  pose proof (whole l file info body Hr ltac:(lia) ltac:(lia)) as Hw.
  destruct (read_config os_Environ l body) as [c|e]; eexists; (split; [done|exact Hw]).
Qed.

(** C24: loading the configuration.  The file is opened once, read once if it is
    regular and within the limit, never more than a byte past the limit, and
    closed once whatever happens; a configuration comes only from a text that was
    read whole, holds one document and nothing after it, with the environment
    applied over it and the validation passed over both. *)
Theorem LoadConfig_checked l path (w : W) :
  let '(r, (_, acts)) := LoadConfig os_Environ l path (w, []) in
  config_trace l (if String.eqb path "" then DefaultPath else path) acts r /\
  (forall c, r = Ok c -> exists body, (exists file limit, In (ActRead file limit (Ok body)) acts) /\ len body <= max_bytes l /\
     comes_from l body c).
Proof.
  set (path' := if String.eqb path "" then DefaultPath else path).
  assert (forall acts r, config_trace l path' acts r -> forall c, r = Ok c ->
    exists body, (exists file limit, In (ActRead file limit (Ok body)) acts) /\ len body <= max_bytes l /\ comes_from l body c) as Hu.
  { intros acts r [|file acts' r' Hr] c; [done|]. destruct Hr as [| | | | |info body _ _ Hl]; try done. intros Hc%read_config_from.
    exists body. split; [|done]. exists file, (int64_wrap (max_bytes l + 1)). cbn. tauto. }
  enough (let '(r, (_, acts)) := LoadConfig os_Environ l path (w, []) in config_trace l path' acts r) as H.
  { destruct (LoadConfig _ l path (w, [])) as [r [w' acts]]. split; [done|]. by eapply Hu. }
  unfold LoadConfig. fold path'. unfold mthen, config_tried. cbn [f_Open files_logged fst snd].
  destruct (f_Open path' w) as [[file|e] w1]; [|constructor].
  pose proof (load_config_file_trace l file w1 ([] ++ [ActOpen path' (Ok file)])) as Ht.
  destruct (load_config_file _ l file _) as [r [w3 acts]]. destruct Ht as (acts' & -> & Hr). cbn [f_Close files_logged fst snd].
  rewrite <- app_assoc. by constructor.
Qed.

Lemma LoadConfig_from l path (w : W) c w' : LoadConfig os_Environ l path w = (Ok c, w') -> exists body, comes_from l body c.
Proof.
  unfold LoadConfig, load_config_file, mthen, config_tried, config_demand. destruct (f_Open _ w) as [[file|] w1]; [|done].
  destruct (f_Stat file w1) as [[info|] w2]; [|done]. destruct (fi_Regular info); [|done]. unfold mok at 1.
  destruct (negb (_ <? fi_Size info)); [|done]. unfold mok at 1. destruct (f_ReadAll file _ w2) as [[body|] w3]; [|done].
  destruct (negb (_ <? len body)); [|done]. unfold mok at 1. destruct (read_config os_Environ l body) as [c'|] eqn:E; [|done].
  intros [= -> _]. exists body. by apply read_config_from.
Qed.

(** ** Bounds *)

(** Each number of a configuration between its bounds. *)
Definition within (b : Z * Z * Z) : Prop := let '(lo, value, hi) := b in lo <= value <= hi.

Definition feed_bounds (f : FeedConfig) : list (Z * Z * Z) :=
  [(1, fc_Timeout f, 10 * Minute); (1, fc_MinUpdateInterval f, max_int64); (1, fc_MaxDownloadBytes f, Z.shiftl 64 20);
   (1, fc_ExpectedMinEntries f, fc_ExpectedMaxEntries f); (1, fc_ExpectedMaxEntries f, 10000000);
   (0, fc_MaxMalformedLines f, max_int64); (1, len (fc_Name f), 128); (1, len (fc_Attribution f), 2048)].

Definition timing_bounds (c : Config) : list (Z * Z * Z) :=
  let s := cf_Server c in let r := sc_Retry (cf_Schedule c) in let cs := cf_CrowdSec c in let n := cf_Notifications c in
  [(1, sv_ReadHeaderTimeout s, 10 * Minute); (1, sv_ReadTimeout s, 10 * Minute); (1, sv_WriteTimeout s, 10 * Minute);
   (1, sv_IdleTimeout s, 10 * Minute); (1, sv_ShutdownTimeout s, 10 * Minute);
   (1, sv_LAPIUnreachableGrace s, sv_ReadinessMaxSyncAge s); (1, sv_ReadinessMaxSyncAge s, 30 * 24 * Hour);
   (1, sc_Interval (cf_Schedule c), 30 * 24 * Hour); (0, sc_StartupJitter (cf_Schedule c), sc_Interval (cf_Schedule c));
   (1, rt_InitialBackoff r, rt_MaxBackoff r); (1, rt_MaxBackoff r, 24 * Hour);
   (1, dbc_BusyTimeout (cf_Database c), Minute); (Hour, dbc_HistoryRetention (cf_Database c), 10 * 365 * 24 * Hour);
   (1, cs_ConnectTimeout cs, Z.min Minute (cs_RequestTimeout cs)); (1, cs_RequestTimeout cs, 2 * Minute);
   (1, cs_AuthRefreshBefore cs, Hour - 1);
   (Minute, dc_Duration (cf_Decisions c), 7 * 24 * Hour); (1, dc_RefreshBefore (cf_Decisions c), dc_Duration (cf_Decisions c) - 1);
   (1, vc_DNSLookupTimeout (cf_Validation c), max_int64);
   (1, nc_RequestTimeout n, 2 * Minute); (1, nc_Cooldown n, 30 * 24 * Hour); (1, nc_StaleSyncAfter n, 30 * 24 * Hour)].

Definition count_bounds (c : Config) : list (Z * Z * Z) :=
  let cs := cf_CrowdSec c in let v := cf_Validation c in
  [(1, rt_MaxAttempts (sc_Retry (cf_Schedule c)), 10); (1, dbc_MaxHistoryEntries (cf_Database c), 1000000);
   (1024, cs_MaxResponseBytes cs, Z.shiftl 64 20); (1, cs_BatchSize cs, 500); (1, dc_MissingGraceRuns (cf_Decisions c), 100);
   (0, vc_MaxRedirects v, 10); (1, vc_MaxFeeds v, 256); (1, vc_MaxFeedNameLength v, 128); (0, vc_MaxMalformedLines v, max_int64);
   (1024, vc_MaxLineBytes v, Z.shiftl 1 20); (1, nc_FailureThreshold (cf_Notifications c), 100);
   (1, Z.of_nat (List.length (cf_Feeds c)), vc_MaxFeeds v)].

Definition bounds_of (c : Config) : list (Z * Z * Z) :=
  timing_bounds c ++ count_bounds c ++ flat_map feed_bounds (cf_Feeds c).

(** A ratio of the configuration is a number of this range. *)
Definition ratio_within (lo hi : Z) (r : float64) : Prop :=
  float_finite r = true /\ float_lt r (float_of_int lo) = false /\ float_lt (float_of_int hi) r = false.

Lemma fits_feeds_fill v c : fits c -> in_int64 (vc_MaxMalformedLines v) -> Forall feed_fits (fill_limits v <$> cf_Feeds c).
Proof.
  intros [_ Hf]%fits_settings Hv. apply list.Forall_fmap. eapply List.Forall_impl; [|exact Hf]. unfold feed_fits, compose.
  intros f. unfold feed_numbers. cbn. rewrite !List.Forall_cons_iff. intros (? & ? & ? & ? & ? & ? & ?).
  destruct (fc_MaxMalformedLines f =? 0); repeat (split; [done|]); done.
Qed.

Lemma float_lt_of_le a b : float_le a b = false -> float_lt a b = false.
Proof. unfold float_le, float_lt, SFleb, SFltb. by destruct (SFcompare a b) as [[]|]. Qed.

Lemma len_pos s : s <> ""%string -> 1 <= len s.
Proof. destruct s; [done|]. unfold len. cbn [String.length]. lia. Qed.

Lemma validateFeed_bounds v i f : in_int64 (fc_MinUpdateInterval f) -> in_int64 (fc_MaxMalformedLines f) -> vc_MaxFeedNameLength v <= 128 ->
  validateFeed v i f = Ok tt ->
  Forall within (feed_bounds f) /\ ratio_within 1 100 (fc_MaxGrowthRatio f) /\ ratio_within 0 1 (fc_MaxShrinkRatio f) /\
  ratio_within 0 1 (fc_MaxMalformedRatio f).
Proof.
  unfold in_int64. intros Hm Hl Hn H. unfold validateFeed in H. steps H. unfold positiveDuration, ratio_within in *. to_prop.
assert (1 <= len (fc_Name f)) by (unfold len in *; lia).
  assert (1 <= len (fc_Attribution f)).
  { apply len_pos. intros E. rewrite E in H7. done. }
  split_and!; try done; [|by apply float_lt_of_le]. unfold feed_bounds. repeat (constructor; [cbn; lia|]). constructor.
Qed.

(** What validation does not bound. *)
Lemma fits_unbounded c : fits c -> in_int64 (vc_DNSLookupTimeout (cf_Validation c)) /\ in_int64 (vc_MaxMalformedLines (cf_Validation c)).
Proof.
  intros [Hd Hn]. rewrite List.Forall_forall in Hd, Hn. split; [apply Hd|apply Hn]; unfold durations_of, numbers_of; cbn; tauto.
Qed.

Lemma validated_settings settings c : fits settings -> Config_Validate settings = Ok c ->
  Forall within (timing_bounds c) /\ Forall within (count_bounds c) /\ ratio_within 0 1 (vc_MaxMalformedRatio (cf_Validation c)).
Proof.
  intros [Hdns Hlines]%fits_unbounded H. unfold in_int64 in *. open_validated H. unfold validate_notifications in Hs8. steps Hs8.
  clear Hf Hnodup Hs7 Hs4 Hs Hs3. destruct_and!.
  assert (1 <= Z.of_nat (List.length (cf_Feeds settings))) by (destruct (cf_Feeds settings); [done|cbn [List.length]; lia]).
  cbn [forallb] in Hs9. to_prop. subst a6.
  split_and!; [| |done]; unfold timing_bounds, count_bounds;
    cbn [cf_Server cf_Schedule cf_Database cf_CrowdSec cf_Decisions cf_Feeds cf_Validation cf_Notifications set_hosts
         cs_BatchSize cs_RequestTimeout cs_ConnectTimeout cs_MaxResponseBytes cs_AuthRefreshBefore];
    rewrite ?length_fmap; repeat (apply List.Forall_cons; [unfold within; lia|]); constructor.
Qed.

Lemma validated_feeds settings c : fits settings -> Config_Validate settings = Ok c ->
  Forall (fun f => Forall within (feed_bounds f) /\ ratio_within 1 100 (fc_MaxGrowthRatio f) /\
    ratio_within 0 1 (fc_MaxShrinkRatio f) /\ ratio_within 0 1 (fc_MaxMalformedRatio f)) (cf_Feeds c).
Proof.
  intros Hfit H. destruct (fits_unbounded _ Hfit) as [_ Hlines].
  pose proof (fits_feeds_fill (cf_Validation settings) settings Hfit Hlines) as Hfill. open_validated H. subst a6.
  rewrite List.Forall_forall in Hfill, Hf |- *. intros f Hin. destruct (Hf f Hin) as [i Hi].
  pose proof (Hfill f Hin) as Hff. unfold feed_fits, feed_durations, feed_numbers in Hff. cbn [app] in Hff.
  rewrite !List.Forall_cons_iff in Hff. eapply validateFeed_bounds; [| | |exact Hi]; [tauto..|lia].
Qed.

(** C23: bounds.  Whatever the file and the environment say, in a configuration
    that is loaded every duration and every number lies between its bounds, so
    that no sum or product the program makes of them leaves its type; every ratio
    is a finite number of its range. *)
Theorem LoadConfig_bounded l path (w : W) c w' : LoadConfig os_Environ l path w = (Ok c, w') ->
  Forall within (bounds_of c) /\ ratio_within 0 1 (vc_MaxMalformedRatio (cf_Validation c)) /\
  Forall (fun f => ratio_within 1 100 (fc_MaxGrowthRatio f) /\ ratio_within 0 1 (fc_MaxShrinkRatio f) /\
    ratio_within 0 1 (fc_MaxMalformedRatio f)) (cf_Feeds c).
Proof.
  intros (body & Hb)%LoadConfig_from. apply comes_from_fits in Hb as (settings & Hfit & H).
  destruct (validated_settings _ _ Hfit H) as (Ht & Hc & Hr). pose proof (validated_feeds _ _ Hfit H) as Hf.
  split_and!; [|done|].
  - unfold bounds_of. rewrite !List.Forall_app, Forall_flat_map. split_and!; [done..|].
    eapply List.Forall_impl; [|exact Hf]. by intros f [? _].
  - eapply List.Forall_impl; [|exact Hf]. by intros f [_ ?].
Qed.
End Loaded.

Module LoadExamples.
Import ConfigExamples.

#[local] Instance ex_conv : ConvLibrary := {| ParseFloat s := None; unicode_upper s := s |}.

(** A decoder that knows one document, of no settings. *)
Definition ex_decode (c : Config) (body : string) : result yaml_failure (Config * yaml_end) :=
  if String.eqb body "{}" then Ok (c, YamlEOF)
  else if String.eqb body "" then Err DecodeEOF else Err (DecodeError "yaml: unmarshal errors: invalid duration").

Lemma ex_decode_same c body c' rest : ex_decode c body = Ok (c', rest) -> c' = c.
Proof. unfold ex_decode. repeat destruct (String.eqb _ _); try done. by intros [= -> _]. Qed.

Lemma Forall_self {A} (l : list A) (P : A -> Prop) : Forall (fun a => In a l \/ P a) l.
Proof. apply List.Forall_forall. intros a Ha. by left. Qed.

#[local] Program Instance ex_decoder : ConfigCodec := {| config_decode := ex_decode |}.
Next Obligation. intros c body c' rest ->%ex_decode_same. apply Forall_self. Qed.
Next Obligation. intros c body c' rest ->%ex_decode_same. apply Forall_self. Qed.
Next Obligation. intros c body c' rest ->%ex_decode_same. apply Forall_self. Qed.
Next Obligation. by intros c body c' rest ->%ex_decode_same. Qed.

(** Files by name; the handle is the length of the name. *)
#[local] Instance ex_disk : FileSystem (list (string * string)) := {|
  f_Lstat path w := (Err (Foreign "unused"), w);
  f_Open path w := match list_find (fun f => f.1 = path) w with Some (i, _) => (Ok (Z.of_nat i), w) | None => (Err (Foreign "open"), w) end;
  f_Stat h w := match w !! Z.to_nat h with Some f => (Ok (MkFileInfo true 420 (len f.2) (1, h)), w) | None => (Err (Foreign "stat"), w) end;
  f_ReadAll h n w := match w !! Z.to_nat h with Some f => (Ok f.2, w) | None => (Err (Foreign "read"), w) end;
  f_Close h w := w |}.

Definition ex_loader (environ : list string) : ConfigLoader := MkConfigLoader "1.2.3" 0 (Some environ).
Definition ex_environ : list string :=
  ["PATH=/bin"; "CROWDSHIELD_CONFIG=/etc/other.yaml"; "CROWDSHIELD_SCHEDULE_INTERVAL=3h"; "CROWDSHIELD_NOTIFICATIONS_TOKEN=a=b";
   "CROWDSHIELD_SCHEDULE_INTERVAL=12h30m"; "CROWDSHIELD_FEED_FIREHOL_LEVEL1_ENABLED=false"; "CROWDSHIELD_CROWDSEC_BATCH_SIZE=+100"].

Definition ex_load (environ : list string) (body : string) : result config_error Config :=
  (LoadConfig [] (ex_loader environ) "" [(DefaultPath, body)]).1.

Definition ex_seen (r : result config_error Config) : option (Duration * Z * string * list (string * bool)) :=
  match r with
  | Ok c => Some (sc_Interval (cf_Schedule c), cs_BatchSize (cf_CrowdSec c), nc_Token (cf_Notifications c),
                  (fun f => (fc_Name f, fc_Enabled f)) <$> cf_Feeds c)
  | Err _ => None
  end.

Example ex_loaded : ex_seen (ex_load ex_environ "{}") =
  Some (12 * Hour + 30 * Minute, 100, "a=b", [("spamhaus-drop-ipv4", true); ("spamhaus-drop-ipv6", true); ("firehol-level1", false)])%string.
Proof. vm_compute. reflexivity. Qed.
Example ex_unknown_variable : ex_load ["CROWDSHIELD_SCHEDULE_INTERVALL=3h"] "{}" =
  Err (configError config.ErrEnvironment "CROWDSHIELD_SCHEDULE_INTERVALL").
Proof. vm_compute. reflexivity. Qed.
Example ex_overflow : ex_load ["CROWDSHIELD_CROWDSEC_BATCH_SIZE=9223372036854775808"] "{}" =
  Err (configError config.ErrEnvironment "CROWDSHIELD_CROWDSEC_BATCH_SIZE").
Proof. vm_compute. reflexivity. Qed.
Example ex_no_feed : ex_load ["CROWDSHIELD_FEED_OTHER_ENABLED=true"] "{}" =
  Err (configError config.ErrEnvironment "CROWDSHIELD_FEED_OTHER_ENABLED").
Proof. vm_compute. reflexivity. Qed.
Example ex_bad_text : ex_load [] "x" = Err (configError config.ErrDuration "config").
Proof. vm_compute. reflexivity. Qed.

Lemma LoadConfig_bounded_witness :
  exists c, ex_load ex_environ "{}" = Ok c /\ Forall within (bounds_of c).
Proof.
  exists (match ex_load ex_environ "{}" with Ok c => c | Err _ => Defaults "" end).
  split; [vm_compute; reflexivity|].
  apply (@LoadConfig_bounded ex_text ex_conv ex_decoder [] (list (string * string)) ex_disk (ex_loader ex_environ) ""
    [(DefaultPath, "{}")] _ [(DefaultPath, "{}")]).
  vm_compute. reflexivity.
Defined.
End LoadExamples.
