(* ===== verification/OneShot.v ===== *)
(** * One synchronisation from the command line ([internal/app/operator.go],
      [operator_dry_store.go])

    The commands [validate-config] and [sync]: the credentials, the store, the
    client, the reconciler, the fetcher and the engine are made in the order of
    the code, each released when its function returns.  The clock, the open
    store and what the client sends are the operations of a world. *)

From S2P Require Export Production SyncJob.

Definition ErrOperatorConfig : error := Foreign "operator configuration invalid".
Definition ErrOperatorSync : error := Foreign "operator synchronization failed".
Definition errOperatorReadOnly : error := Foreign "operator state is read-only".

(** [cli.SyncRequest] *)
Record SyncRequest : Type := MkSyncRequest { sq_Feed : string; sq_DryRun : bool }.

(** The operations of an open store, of a client and of a fetcher are those of
    their interfaces; [w_NotExist path] is [os.IsNotExist] of the error of
    [os.Stat(path)]; [w_CompleteSyncRun] is given its timeout. *)
Class OneShotWorld (W : Type) : Type := {
  w_now : W -> Time * W;
  w_NotExist : string -> W -> bool * W;
  w_feeds : Z -> FeedStore W;
  w_state : Z -> StateStore W;
  w_RecoverInterruptedSyncRuns : Z -> Time -> M W error Z;
  w_BeginSyncRun : Z -> SyncMode -> string -> Time -> M W error Z;
  w_CompleteSyncRun : Z -> Duration -> Z -> ops_Result -> M W error unit;
  w_Authenticate : Client -> M W error unit;
  w_lapi : Client -> LapiClient W;
  w_token : TokenSource W;
  w_fetch : forall {http : HttpLibrary}, Fetcher -> FetchClient W }.

(** ** The store that is not there *)

(** [emptyOperatorStore]: nothing to read, nothing can be written. *)
Definition emptyFeedStore (W : Type) : FeedStore W := {|
  f_EnsureFeeds _ _ := mfail errOperatorReadOnly;
  f_ApplyFeedSnapshot _ _ _ _ := mfail errOperatorReadOnly;
  f_RecordFeedNotModified _ _ _ _ := mfail errOperatorReadOnly;
  f_RecordFeedFailure _ _ _ _ := mfail errOperatorReadOnly;
  f_ListFeeds := mok [];
  f_ListActiveEntries := mok [] |}.

Definition emptyStateStore (W : Type) : StateStore W := {|
  s_ListActiveEntries := mok [];
  s_ApplyEnforcementPlan _ _ := mfail errOperatorReadOnly;
  s_ListEnforcementObjects := mok [];
  s_ListActiveDecisions := mok [];
  s_ListLiveDecisions := mok [];
  s_MarkDecisionExpired _ _ := mfail errOperatorReadOnly;
  s_BeginOperation _ := mfail errOperatorReadOnly;
  s_OpenOperations := mok [];
  s_RecordVerifiedOperation _ _ _ := mfail errOperatorReadOnly;
  s_CompleteOperation _ _ := mfail errOperatorReadOnly;
  s_SetOperationStatus _ _ _ _ := mfail errOperatorReadOnly |}.

(** [operatorDryStore]: a store that was opened, or the empty one. *)
Inductive operatorDryStore : Type := ReadStore (db : Z) | EmptyStore.

Definition operatorFailure (now : Time) (failure : FailureCategory) (retryable : bool) : ops_Result :=
  MkOpsResult OutcomeFailed failure retryable now now no_counts [].

(** [defer] *)
Definition deferred {W A} (release : W -> W) (m : W -> A * W) : W -> A * W := fun w => let '(a, w) := m w in (a, release w).

Section OneShot.
Context {lib : TextLibrary} {http : HttpLibrary} {urls : UrlLibrary} {codec : CredentialsCodec}.
Context {spamhaus : SpamhausCodec} {definitions_codec : DefinitionCodec}.
Context {D : Type} `{!Scripts D} {W : Type} `{!FileSystem W} `{!SqlDriver D W} `{!BuildWorld W} `{!OneShotWorld W}.
Context (clock : Z -> Time) (dir : result error (list DirEntry)).
(** [options.Fetcher] *)
Context (given_fetcher : option (FetchClient W)).

(** What the commands return: a result and an error. *)
Definition Answer : Type := ops_Result * option error.
Definition failed_with (now : Time) (failure : FailureCategory) (retryable : bool) : W -> Answer * W :=
  fun w => ((operatorFailure now failure retryable, None), w).

Definition ValidateCLIConfig (ctx_Err : W -> option error) (cfg : Config) (w : W) : option error * W :=
  match ctx_Err w with
  | Some _ => (Some ErrOperatorConfig, w)
  | None =>
      match Config_Validate cfg with
      | Err _ => (Some ErrOperatorConfig, w)
      | Ok cfg =>
          match Load (loader_for cfg) (cs_CredentialsFile (cf_CrowdSec cfg)) w with
          | (Err _, w) => (Some ErrOperatorConfig, w)
          | (Ok loaded, w) =>
              let w := b_Destroy w in
              match ctx_Err w with Some _ => (Some ErrOperatorConfig, w) | None => (None, w) end
          end
      end
  end.

Definition newOperatorFetcher (cfg : Config) : result error Fetcher := NewFetcher (fetcher_options cfg).

(** The reconciler of a store and a client; it reads the clock when it runs. *)
Definition reconcile_client (state : StateStore W) (client : Client) (rc : Reconciler) : ReconcileClient W := {|
  r_Run options w :=
    let '(now, w) := w_now w in
    @Run W state (w_lapi client) w_token rc options now false w |}.

(** [engine.Run] *)
Definition run_engine (feeds : FeedStore W) (state : StateStore W) (fetch : FetchClient W) (client : Client) (rc : Reconciler)
    (cfg : Config) (options : SyncOptions) (w : W) : (SyncReport * option error) * W :=
  let '(now, w) := w_now w in
  @Engine_Run W feeds fetch (reconcile_client state client rc) spamhaus definitions_codec cfg options now w.

(** From the open store on: the client, the reconciler, the fetcher and the
    engine, then [body]; the idle connections are closed when it is done. *)
Definition with_engine (cfg : Config) (credentials : Credentials) (startedAt : Time)
    (body : Client -> Reconciler -> FetchClient W -> Config -> W -> Answer * W) : W -> Answer * W :=
  match lapi_client cfg credentials with
  | Err _ => failed_with startedAt FailureConfig false
  | Ok client =>
      deferred (b_CloseIdleConnections IdleLAPI)
        match reconciler_for cfg credentials with
        | Err _ => failed_with startedAt FailureInternal false
        | Ok reconciler =>
            let engine fetch :=
              match Engine_New cfg with
              | Err _ => failed_with startedAt FailureConfig false
              | Ok engine => body client reconciler fetch engine
              end in
            match given_fetcher with
            | Some fetch => engine fetch
            | None =>
                match newOperatorFetcher cfg with
                | Err _ => failed_with startedAt FailureConfig false
                | Ok fetcher => deferred (b_CloseIdleConnections IdleFetcher) (engine (w_fetch fetcher))
                end
            end
        end
  end.

(** ** The dry run *)

Definition dry_store_feeds (store : operatorDryStore) : FeedStore W :=
  match store with ReadStore db => w_feeds db | EmptyStore => emptyFeedStore W end.
Definition dry_store_state (store : operatorDryStore) : StateStore W :=
  match store with ReadStore db => w_state db | EmptyStore => emptyStateStore W end.

(** The run, the decisions in force, and the result. *)
Definition dry_body (request : SyncRequest) (startedAt : Time) (store : operatorDryStore)
    (client : Client) (rc : Reconciler) (fetch : FetchClient W) (cfg : Config) (w : W) : Answer * W :=
  let '((report, runErr), w) :=
    run_engine (dry_store_feeds store) (dry_store_state store) fetch client rc cfg (MkSyncOptions (sq_Feed request) true) w in
  let '(active, w) := @s_ListActiveDecisions W (dry_store_state store) w in
  let '(runErr, count) := match active with
                          | Ok active => (runErr, Z.of_nat (List.length active))
                          | Err _ => (Some (syncError syncer.ErrState None), 0)
                          end in
  let '(now, w) := w_now w in
  let completedAt := normalizedCompletion startedAt now in
  match ResultFromSync report runErr startedAt completedAt count with
  | Ok result => ((result, None), w)
  | Err _ => ((operatorFailure completedAt FailureInternal false, Some ErrOperatorSync), w)
  end.

(** With the credentials: a database that is not there is an empty store. *)
Definition sync_dry (cfg : Config) (request : SyncRequest) (startedAt : Time) (credentials : Credentials) (w : W) : Answer * W :=
  match OpenReadOnly (D:=D) dir (store_options cfg) w with
  | (Err _, w) =>
      let '(missing, w) := w_NotExist (dbc_Path (cf_Database cfg)) w in
      if negb missing then failed_with startedAt FailureDatabase true w
      else with_engine cfg credentials startedAt (dry_body request startedAt EmptyStore) w
  | (Ok db, w) =>
      deferred (fun w => (store_Close (D:=D) db w).2)
        (with_engine cfg credentials startedAt (dry_body request startedAt (ReadStore db))) w
  end.

(** ** The run that enforces *)

Definition enforce_body (request : SyncRequest) (startedAt : Time) (db : Z) (finalize : Duration)
    (client : Client) (rc : Reconciler) (fetch : FetchClient W) (cfg : Config) (w : W) : Answer * W :=
  match w_BeginSyncRun db SyncModeEnforce (sq_Feed request) startedAt w with
  | (Err _, w) => failed_with startedAt FailureDatabase true w
  | (Ok runID, w) =>
      let '(authenticated, w) := w_Authenticate client w in
      let '((report, runErr), w) :=
        match authenticated with
        | Err e => ((no_sync_report, Some e), w)
        | Ok _ => run_engine (w_feeds db) (w_state db) fetch client rc cfg (MkSyncOptions (sq_Feed request) false) w
        end in
      let '((runErr, activeDecisions), w) :=
        if match runErr with Some e => is_Canceled e | None => false end then ((runErr, 0), w)
        else match @s_ListActiveDecisions W (w_state db) w with
             | (Ok active, w) => ((runErr, Z.of_nat (List.length active)), w)
             | (Err _, w) => ((Some (syncError syncer.ErrState None), 0), w)
             end in
      let '(now, w) := w_now w in
      let completedAt := normalizedCompletion startedAt now in
      let result := match ResultFromSync report runErr startedAt completedAt activeDecisions with
                    | Ok result => result
                    | Err _ => fixedFailureResult FailureInternal false startedAt completedAt no_result
                    end in
      let '(completed, w) := w_CompleteSyncRun db finalize runID result w in
      let result := match completed with
                    | Ok _ => result
                    | Err _ => fixedFailureResult FailureDatabase true startedAt completedAt result
                    end in
      ((result, None), w)
  end.

(** With the open store. *)
Definition enforce_open (cfg : Config) (request : SyncRequest) (startedAt : Time) (credentials : Credentials) (db : Z) (w : W)
  : Answer * W :=
  match w_RecoverInterruptedSyncRuns db startedAt w with
  | (Err _, w) => failed_with startedAt FailureDatabase true w
  | (Ok _, w) =>
      with_engine cfg credentials startedAt (enforce_body request startedAt db (dbc_BusyTimeout (cf_Database cfg))) w
  end.

Definition sync_enforce (cfg : Config) (request : SyncRequest) (startedAt : Time) (credentials : Credentials) (w : W) : Answer * W :=
  match Open (D:=D) clock dir (store_options cfg) w with
  | (Err _, w) => failed_with startedAt FailureDatabase true w
  | (Ok db, w) =>
      deferred (fun w => (store_Close (D:=D) db w).2) (enforce_open cfg request startedAt credentials db) w
  end.

(** ** The command *)

(** Both runs with the credentials of the file. *)
Definition with_credentials (cfg : Config) (startedAt : Time) (body : Credentials -> W -> Answer * W) (w : W) : Answer * W :=
  match Load (loader_for cfg) (cs_CredentialsFile (cf_CrowdSec cfg)) w with
  | (Err _, w) => failed_with startedAt FailureConfig false w
  | (Ok credentials, w) => deferred b_Destroy (body credentials) w
  end.

Definition syncCLIWithOptions (cfg : Config) (request : SyncRequest) (w : W) : Answer * W :=
  let '(startedAt, w) := w_now w in
  if time_IsZero startedAt then ((no_result, Some ErrOperatorSync), w)
  else
    match Config_Validate cfg with
    | Err _ => failed_with startedAt FailureConfig false w
    | Ok cfg =>
        if negb (String.eqb (sq_Feed request) "") && negb (ValidFeedName (sq_Feed request))
        then failed_with startedAt FailureConfig false w
        else with_credentials cfg startedAt
               ((if sq_DryRun request then sync_dry else sync_enforce) cfg request startedAt) w
    end.
End OneShot.
