(* ===== verification/OneShotRun.v ===== *)
(** * What one synchronisation does and answers

    The answer of the command is always a valid result; a log of what it does
    shows that whatever it opens is closed, once and in order, that a run that was
    begun is completed, and that a dry run only reads. *)

From S2P Require Export OneShot Logged SyncerStore.

(** ** The answer *)

Lemma operatorFailure_valid now failure retryable : ValidFailureCategory failure = true -> time_IsZero now = false ->
  Result_Validate (operatorFailure now failure retryable) = None.
Proof.
  intros Hf Hz. unfold operatorFailure. apply Result_Validate_parts; cbn; try done.
  unfold time_Sub. rewrite Z.sub_diag. by vm_compute.
Qed.

(** What the command can answer: a valid result, or the error of the command with
    a result that is not a success. *)
Definition answers (dry : bool) (a : ops_Result * option error) : Prop :=
  (a.2 = None /\ Result_Validate a.1 = None) \/
  (a.2 = Some ErrOperatorSync /\ (a.1 = SyncJob.no_result \/ dry = true /\ exists t, a.1 = operatorFailure t FailureInternal false)).

Section Answer.
Context {lib : TextLibrary} {http : HttpLibrary} {urls : UrlLibrary} {codec : CredentialsCodec}.
Context {spamhaus : SpamhausCodec} {definitions_codec : DefinitionCodec}.
Context {D : Type} `{!Scripts D} {W : Type} `{!FileSystem W} `{!SqlDriver D W} `{!BuildWorld W} `{!OneShotWorld W}.
Context (clock : Z -> Time) (dir : result error (list DirEntry)) (given_fetcher : option (FetchClient W)).

(** A command whose answers are of this kind. *)
Definition replies (P : ops_Result * option error -> Prop) (m : W -> Answer * W) : Prop := forall w, P (m w).1.

Lemma replies_failed dry startedAt failure retryable : ValidFailureCategory failure = true -> time_IsZero startedAt = false ->
  replies (answers dry) (failed_with startedAt failure retryable).
Proof. intros Hf Hz w. left. split; [done|]. by apply operatorFailure_valid. Qed.

Lemma replies_deferred P release (m : W -> Answer * W) : replies P m -> replies P (deferred release m).
Proof. intros H w. unfold deferred. specialize (H w). by destruct (m w). Qed.

Lemma replies_engine dry cfg credentials startedAt body : time_IsZero startedAt = false ->
  (forall client rc fetch c, replies (answers dry) (body client rc fetch c)) ->
  replies (answers dry) (with_engine given_fetcher cfg credentials startedAt body).
Proof.
  intros Hz Hb. unfold with_engine. destruct (lapi_client _ _) as [client|]; [|by apply replies_failed]. apply replies_deferred.
  destruct (reconciler_for _ _) as [rc|]; [|by apply replies_failed].
  assert (forall fetch, replies (answers dry)
    match Engine_New cfg with Ok engine => body client rc fetch engine | Err _ => failed_with startedAt FailureConfig false end) as He.
  { intros fetch. destruct (Engine_New cfg); [apply Hb|by apply replies_failed]. }
  destruct given_fetcher; [apply He|]. destruct (newOperatorFetcher cfg); [|by apply replies_failed]. apply replies_deferred, He.
Qed.

Lemma replies_dry request startedAt store client rc fetch cfg : replies (answers true) (dry_body request startedAt store client rc fetch cfg).
Proof.
  intros w. unfold dry_body. destruct (run_engine _ _ _ _ _ _ _ _) as [[report runErr] w1].
  destruct (s_ListActiveDecisions w1) as [active w2]. destruct (w_now w2) as [now w3].
  destruct (match active with Ok _ => _ | Err _ => _ end) as [runErr' n].
  destruct (ResultFromSync _ _ _ _ _) as [r|e] eqn:E; cbn.
  - left. by apply ResultFromSync_valid in E as [? _].
  - right. split; [done|]. right. split; [done|]. by eexists.
Qed.

Lemma replies_enforce request startedAt db finalize client rc fetch cfg : time_IsZero startedAt = false ->
  replies (answers false) (enforce_body request startedAt db finalize client rc fetch cfg).
Proof.
  intros Hz w. unfold enforce_body. destruct (w_BeginSyncRun _ _ _ _ w) as [[run|e] w1]; [|by apply replies_failed].
  destruct (w_Authenticate client w1) as [auth w2].
  destruct (match auth with Ok _ => _ | Err _ => _ end) as [[report runErr] w3].
  destruct (if match runErr with Some e => is_Canceled e | None => false end then _ else _) as [[runErr' n] w4].
  destruct (w_now w4) as [now w5]. destruct (w_CompleteSyncRun _ _ _ _ w5) as [completed w6]. left. split; [done|]. cbn [fst].
  destruct completed; [|by apply fixedFailureResult_valid].
  destruct (ResultFromSync _ _ _ _ _) as [r|] eqn:E; [by apply ResultFromSync_valid in E as [? _]|by apply fixedFailureResult_valid].
Qed.

(** the answer of a synchronisation.  Whatever the store, the network and the
    clock do, the command answers a valid result without an error; or, only when
    the clock shows nothing or a dry run has a report that logs up to no result,
    its own error with a result that is no success. *)
Theorem syncCLI_answer cfg request (w : W) :
  answers (sq_DryRun request) (syncCLIWithOptions (D:=D) clock dir given_fetcher cfg request w).1.
Proof.
  unfold syncCLIWithOptions. destruct (w_now w) as [startedAt w1]. destruct (time_IsZero startedAt) eqn:Hz.
  { right. split; [done|]. by left. }
  destruct (Config_Validate cfg) as [c|]; [|by apply replies_failed]. destruct (_ && _); [by apply replies_failed|].
  unfold with_credentials. destruct (Load _ _ w1) as [[credentials|] w2]; [|by apply replies_failed].
  apply replies_deferred. destruct (sq_DryRun request); intros w3.
  - unfold sync_dry. destruct (OpenReadOnly _ _ w3) as [[db|] w4].
    + apply (replies_deferred (answers true)), replies_engine; [done|]. intros. apply replies_dry.
    + destruct (w_NotExist _ w4) as [missing w5]. destruct missing; [|by apply replies_failed].
      apply replies_engine; [done|]. intros. apply replies_dry.
  - unfold sync_enforce. destruct (Open _ _ _ w3) as [[db|] w4]; [|by apply replies_failed].
    apply (replies_deferred (answers false)). intros w5. unfold enforce_open. destruct (w_RecoverInterruptedSyncRuns _ _ w5) as [[n|] w6]; [|by apply replies_failed].
    apply replies_engine; [done|]. intros. by apply replies_enforce.
Qed.
End Answer.

(** ** What is done *)

Inductive run_act : Type :=
| ROpen (dsn : string) (r : result error Z) | RClose (db : Z)         (* the database *)
| RSchema | RPrepare                                                  (* its schema; its pragmas and its permissions *)
| RIdle (c : idle_client) | RDestroy                                  (* what is released *)
| RRead | RFetch | RWrite | RSend | RToken                            (* reading the store and the feeds; the rest of the work *)
| RRecover (db : Z) (r : result error Z) | RBegin (db : Z) (feed : string) (r : result error Z)
| RAuthenticate (r : result error unit) | RComplete (db : Z) (run : Z) (stored : ops_Result) (r : result error unit).

(** The work of a dry run, and that of any run. *)
Definition reading (a : run_act) : bool := match a with RRead | RFetch => true | _ => false end.
Definition working (a : run_act) : bool := match a with RRead | RFetch | RWrite | RSend | RToken => true | _ => false end.

Section Log.
Context {D W : Type}.
Abbreviation LW := (W * list run_act)%type.
Abbreviation as_act a := (fun _ => a).

Definition log_feeds (s : FeedStore W) : FeedStore LW := {|
  f_EnsureFeeds definitions now := noting (f_EnsureFeeds definitions now) (as_act RWrite);
  f_ApplyFeedSnapshot name snapshot grace now := noting (f_ApplyFeedSnapshot name snapshot grace now) (as_act RWrite);
  f_RecordFeedNotModified name etag modified now := noting (f_RecordFeedNotModified name etag modified now) (as_act RWrite);
  f_RecordFeedFailure name category now next := noting (f_RecordFeedFailure name category now next) (as_act RWrite);
  f_ListFeeds := noting f_ListFeeds (as_act RRead);
  f_ListActiveEntries := noting f_ListActiveEntries (as_act RRead) |}.

Definition log_state (s : StateStore W) : StateStore LW := {|
  s_ListActiveEntries := noting s_ListActiveEntries (as_act RRead);
  s_ApplyEnforcementPlan objects now := noting (s_ApplyEnforcementPlan objects now) (as_act RWrite);
  s_ListEnforcementObjects := noting s_ListEnforcementObjects (as_act RRead);
  s_ListActiveDecisions := noting s_ListActiveDecisions (as_act RRead);
  s_ListLiveDecisions := noting s_ListLiveDecisions (as_act RRead);
  s_MarkDecisionExpired row now := noting (s_MarkDecisionExpired row now) (as_act RWrite);
  s_BeginOperation op := noting (s_BeginOperation op) (as_act RWrite);
  s_OpenOperations := noting s_OpenOperations (as_act RRead);
  s_RecordVerifiedOperation token alert now := noting (s_RecordVerifiedOperation token alert now) (as_act RWrite);
  s_CompleteOperation token now := noting (s_CompleteOperation token now) (as_act RWrite);
  s_SetOperationStatus token status category now := noting (s_SetOperationStatus token status category now) (as_act RWrite) |}.

Definition log_client (c : LapiClient W) : LapiClient LW := {|
  l_CreateAlert request := noting (l_CreateAlert request) (as_act RSend);
  l_GetAlert id := noting (l_GetAlert id) (as_act RSend);
  l_ExpireDecision id := noting (l_ExpireDecision id) (as_act RSend);
  l_FindOperation feed token := noting (l_FindOperation feed token) (as_act RSend) |}.

Definition log_token (t : TokenSource W) : TokenSource LW := {| t_token := noting t_token (as_act RToken) |}.
Definition log_fetch (f : FetchClient W) : FetchClient LW := {| f_Fetch request := noting (f_Fetch request) (as_act RFetch) |}.

#[export] Instance run_driver `{!SqlDriver D W} : SqlDriver D LW := {|
  sq_Lstat path := quiet (sq_Lstat (D:=D) path);
  sq_Open dsn := noting (sq_Open (D:=D) dsn) (ROpen dsn);
  sq_Ping db := quiet (sq_Ping (D:=D) db);
  sq_Exec db pragma := noting (sq_Exec (D:=D) db pragma) (as_act RPrepare);
  sq_Schema A db body := noting (sq_Schema A db body) (as_act RSchema);
  sq_Rows db sql := quiet (sq_Rows (D:=D) db sql);
  sq_Chmod path mode := noting (sq_Chmod (D:=D) path mode) (as_act RPrepare);
  sq_Close db wl := let '(e, w) := sq_Close (D:=D) db wl.1 in (e, (w, wl.2 ++ [RClose db])) |}.

#[export] Instance run_build `{!BuildWorld W} : BuildWorld LW := {|
  b_Listen network address := quiet (b_Listen network address);
  b_Listener_Close l wl := (b_Listener_Close l wl.1, wl.2);
  b_Manager_Close wl := (b_Manager_Close wl.1, wl.2);
  b_CloseIdleConnections c wl := (b_CloseIdleConnections c wl.1, wl.2 ++ [RIdle c]);
  b_Destroy wl := (b_Destroy wl.1, wl.2 ++ [RDestroy]) |}.

#[export] Instance run_oneshot `{!OneShotWorld W} : OneShotWorld LW := {|
  w_now wl := let '(t, w) := w_now wl.1 in (t, (w, wl.2));
  w_NotExist path wl := let '(b, w) := w_NotExist path wl.1 in (b, (w, wl.2));
  w_feeds db := log_feeds (w_feeds db);
  w_state db := log_state (w_state db);
  w_RecoverInterruptedSyncRuns db t := noting (w_RecoverInterruptedSyncRuns db t) (RRecover db);
  w_BeginSyncRun db mode feed t := noting (w_BeginSyncRun db mode feed t) (RBegin db feed);
  w_CompleteSyncRun db timeout run r := noting (w_CompleteSyncRun db timeout run r) (RComplete db run r);
  w_Authenticate client := noting (w_Authenticate client) RAuthenticate;
  w_lapi client := log_client (w_lapi client);
  w_token := log_token w_token;
  w_fetch _ fetcher := log_fetch (w_fetch fetcher) |}.

(** From here on the log grew by acts of a kind. *)
Definition grew (kind : run_act -> bool) (acts0 : list run_act) (wl : LW) : Prop :=
  exists new, wl.2 = acts0 ++ new /\ forallb kind new = true.

Lemma grew_noting {A} kind acts0 (m : M W error A) note : (forall r, kind (note r) = true) -> keepsW (grew kind acts0) (noting m note).
Proof.
  intros Hn [w acts] r [w' acts'] H (new & E & Hf). unfold noting in H. cbn in *. destruct (m w) as [r0 w0]. injection H as <- <- <-.
  exists (new ++ [note r0]). split; [by rewrite E, app_assoc|]. rewrite forallb_app, Hf. cbn. by rewrite Hn.
Qed.
End Log.

(** ** The shape of a command *)

(** An attempt to open the database that fails; what is done between. *)
Inductive open_fails (prep : run_act -> bool) : list run_act -> Prop :=
| fails_before : open_fails prep []
| fails_to_open dsn e : open_fails prep [ROpen dsn (Err e)]
| fails_after dsn db l : forallb prep l = true -> open_fails prep (ROpen dsn (Ok db) :: l ++ [RClose db]).

Definition preparing (a : run_act) : bool := match a with RSchema | RPrepare => true | _ => false end.
Definition only_schema (a : run_act) : bool := match a with RSchema => true | _ => false end.

(** The fetcher that the command made, where it was given none, is closed. *)
Definition closes_fetcher (given : bool) : list run_act := if given then [] else [RIdle IdleFetcher].

(** What [with_engine] logs to what its body does. *)
Inductive engine_trace (given : bool) (startedAt : Time) (body : Answer -> list run_act -> Prop) : Answer -> list run_act -> Prop :=
| engine_no_client : engine_trace given startedAt body (operatorFailure startedAt FailureConfig false, None) []
| engine_no_reconciler : engine_trace given startedAt body (operatorFailure startedAt FailureInternal false, None) [RIdle IdleLAPI]
| engine_no_fetcher : given = false -> engine_trace given startedAt body (operatorFailure startedAt FailureConfig false, None) [RIdle IdleLAPI]
| engine_refused :
    engine_trace given startedAt body (operatorFailure startedAt FailureConfig false, None) (closes_fetcher given ++ [RIdle IdleLAPI])
| engine_ran a l : body a l -> engine_trace given startedAt body a (l ++ closes_fetcher given ++ [RIdle IdleLAPI]).

(** A dry run reads the store and the feeds, and nothing else. *)
Definition dry_trace (a : Answer) (l : list run_act) : Prop := forallb reading l = true.

(** A run that was begun works only when it is authenticated, and is completed
    with a valid result, the one that is answered. *)
Inductive enforce_trace (startedAt : Time) (db : Z) (feed : string) : Answer -> list run_act -> Prop :=
| not_begun e : enforce_trace startedAt db feed (operatorFailure startedAt FailureDatabase true, None) [RBegin db feed (Err e)]
| begun run auth work stored completed r :
    forallb (match auth with Ok _ => working | Err _ => reading end) work = true -> Result_Validate stored = None ->
    match completed with Ok _ => r = stored | Err _ => rs_Outcome r = OutcomeFailed /\ rs_Failure r = FailureDatabase end ->
    enforce_trace startedAt db feed (r, None)
      ([RBegin db feed (Ok run); RAuthenticate auth] ++ work ++ [RComplete db run stored completed]).

Inductive command_trace (given : bool) (request : SyncRequest) : Answer -> list run_act -> Prop :=
| command_refused a : a.1 = SyncJob.no_result \/ (exists t, a.1 = operatorFailure t FailureConfig false) -> command_trace given request a []
| dry_unreadable t l : sq_DryRun request = true -> open_fails only_schema l ->
    command_trace given request (operatorFailure t FailureDatabase true, None) (l ++ [RDestroy])
| dry_missing t a l l' : sq_DryRun request = true -> open_fails only_schema l -> engine_trace given t dry_trace a l' ->
    command_trace given request a (l ++ l' ++ [RDestroy])
| dry_opened t a dsn db prep l : sq_DryRun request = true -> forallb only_schema prep = true -> engine_trace given t dry_trace a l ->
    command_trace given request a (ROpen dsn (Ok db) :: prep ++ l ++ [RClose db; RDestroy])
| not_opened t l : sq_DryRun request = false -> open_fails preparing l ->
    command_trace given request (operatorFailure t FailureDatabase true, None) (l ++ [RDestroy])
| not_recovered t dsn db prep e : sq_DryRun request = false -> forallb preparing prep = true ->
    command_trace given request (operatorFailure t FailureDatabase true, None)
      (ROpen dsn (Ok db) :: prep ++ [RRecover db (Err e); RClose db; RDestroy])
| enforced t a dsn db prep n l : sq_DryRun request = false -> forallb preparing prep = true ->
    engine_trace given t (enforce_trace t db (sq_Feed request)) a l ->
    command_trace given request a (ROpen dsn (Ok db) :: prep ++ RRecover db (Ok n) :: l ++ [RClose db; RDestroy]).

Section Trace.
Context {lib : TextLibrary} {http : HttpLibrary} {urls : UrlLibrary} {codec : CredentialsCodec}.
Context {spamhaus : SpamhausCodec} {definitions_codec : DefinitionCodec}.
Context {D : Type} `{!Scripts D} {W : Type} `{!FileSystem W} `{!SqlDriver D W} `{!BuildWorld W} `{!OneShotWorld W}.
Context (clock : Z -> Time) (dir : result error (list DirEntry)) (given_fetcher : option (FetchClient W)).
Abbreviation LW := (W * list run_act)%type.
Abbreviation given := (bool_decide (is_Some given_fetcher)).

(** A program that logs to the log as [P] replies. *)
Definition logs {A} (m : LW -> A * LW) (P : A -> list run_act -> Prop) : Prop :=
  forall w acts, let '(a, (_, acts')) := m (w, acts) in exists new, acts' = acts ++ new /\ P a new.

Lemma logs_deferred {A} (release : LW -> LW) act (m : LW -> A * LW) (P Q : A -> list run_act -> Prop) :
  (forall wl, (release wl).2 = wl.2 ++ [act]) -> logs m P -> (forall a l, P a l -> Q a (l ++ [act])) -> logs (deferred release m) Q.
Proof.
  intros Hr Hm HQ w acts. unfold deferred. specialize (Hm w acts). destruct (m (w, acts)) as [a [w1 acts1]].
  destruct Hm as (new & -> & HP). specialize (Hr (w1, acts ++ new)). destruct (release _) as [w2 acts2]. cbn in Hr. subst acts2.
  exists (new ++ [act]). rewrite <- app_assoc. auto.
Qed.

Lemma logs_weaken {A} (m : LW -> A * LW) (P Q : A -> list run_act -> Prop) : logs m P -> (forall a l, P a l -> Q a l) -> logs m Q.
Proof.
  intros Hm H w acts. specialize (Hm w acts). destruct (m (w, acts)) as [a [w1 acts1]]. destruct Hm as (new & -> & HP). eauto.
Qed.

Lemma logs_failed t failure retryable (P : Answer -> list run_act -> Prop) :
  P (operatorFailure t failure retryable, None) [] -> logs (failed_with t failure retryable) P.
Proof. intros HP w acts. exists []. by rewrite app_nil_r. Qed.

Lemma logs_failed_exactly t failure retryable :
  logs (failed_with t failure retryable) (fun a l => a = (operatorFailure t failure retryable, None) /\ l = []).
Proof. intros w acts. exists []. by rewrite app_nil_r. Qed.

(** ** The engine *)

Lemma keeps_failing {A} (I : LW -> Prop) e : keepsW I (mfail (A:=A) e).
Proof. by intros w r w' [= _ <-]. Qed.
Lemma keeps_nothing {A} (I : LW -> Prop) (a : A) : keepsW I (mok a).
Proof. by intros w r w' [= _ <-]. Qed.

(** The store, logged, or the empty one. *)
Definition logged_feeds (feeds : FeedStore LW) : Prop := (exists s, feeds = log_feeds s) \/ feeds = emptyFeedStore LW.
Definition logged_state (state : StateStore LW) : Prop := (exists s, state = log_state s) \/ state = emptyStateStore LW.

Section Grow.
Context (kind : run_act -> bool) (acts0 : list run_act).
Hypothesis (Hread : forall a, reading a = true -> kind a = true).

Ltac grows := first [apply keeps_failing|apply keeps_nothing|apply grew_noting; intros; auto].

Lemma feeds_read feeds fetch : logged_feeds feeds -> engine_reads (W:=LW) (grew kind acts0) (FeedStore0 := feeds) (FetchClient0 := log_fetch fetch).
Proof. intros [[s ->]| ->]; split; intros; cbn; grows. Qed.

Lemma feeds_write feeds : (forall a, working a = true -> kind a = true) -> logged_feeds feeds ->
  engine_writes (W:=LW) (grew kind acts0) (FeedStore0 := feeds).
Proof. intros Hw [[s ->]| ->]; split; intros; cbn; grows. Qed.

Lemma state_calls state client : (forall a, working a = true -> kind a = true) -> logged_state state ->
  @calls_keep LW state (w_lapi client) w_token (grew kind acts0).
Proof.
  intros Hw [[s ->]| ->]; split; intros; cbn; try grows; right; intros; cbn; grows.
Qed.

Lemma reconcile_grows state client rc dry : logged_state state -> (dry = false -> forall a, working a = true -> kind a = true) ->
  @keeps_reconcile LW (reconcile_client state client rc) (grew kind acts0) dry.
Proof.
  intros Hs Hw options [w acts] out w' Hdry H Hi. unfold reconcile_client in H. cbn [r_Run w_now run_oneshot fst snd] in H.
  destruct (w_now w) as [now w1]. assert (grew kind acts0 (w1, acts)) as Hi1 by exact Hi. destruct dry.
  - revert H Hi1. apply (@run_dry_keeps LW state (w_lapi client) w_token rc); [| | |done];
      destruct Hs as [[s ->]| ->]; cbn; grows.
  - revert H Hi1. apply (@run_keeps LW state (w_lapi client) w_token rc). by apply state_calls; [apply Hw|].
Qed.

Lemma engine_grows feeds state fetch client rc cfg options :
  logged_feeds feeds -> logged_state state -> (so_DryRun options = false -> forall a, working a = true -> kind a = true) ->
  forall w, let '(_, (_, acts')) := run_engine feeds state (log_fetch fetch) client rc cfg options (w, acts0) in
  exists new, acts' = acts0 ++ new /\ forallb kind new = true.
Proof.
  intros Hf Hs Hw w. unfold run_engine. cbn [w_now run_oneshot fst snd]. destruct (w_now w) as [now w1].
  destruct (Engine_Run _ _ _ _) as [out [w2 acts2]] eqn:E.
  apply (@engine_keeps LW feeds (log_fetch fetch) (reconcile_client state client rc) spamhaus definitions_codec cfg (grew kind acts0)) in E.
  - exact E.
  - by apply feeds_read.
  - intros Hd. apply feeds_write; [by apply Hw|done].
  - by apply reconcile_grows.
  - exists []. by rewrite app_nil_r.
Qed.
End Grow.

Definition logged_fetch (fetch : FetchClient LW) : Prop := exists f, fetch = log_fetch f.
Definition given_logged : option (FetchClient LW) := log_fetch <$> given_fetcher.

Lemma logs_dry request startedAt store client rc fetch cfg : logged_fetch fetch ->
  logs (dry_body request startedAt store client rc fetch cfg) dry_trace.
Proof.
  intros [f ->] w acts. unfold dry_body.
  assert (logged_feeds (dry_store_feeds (W:=LW) store)) as Hf by (destruct store; [left; by eexists|by right]).
  assert (logged_state (dry_store_state (W:=LW) store)) as Hs by (destruct store; [left; by eexists|by right]).
  pose proof (engine_grows reading acts (fun a H => H) _ _ f client rc cfg (MkSyncOptions (sq_Feed request) true) Hf Hs
    (fun H => ltac:(discriminate H)) w) as He.
  destruct (run_engine _ _ _ _ _ _ _ _) as [[report runErr] [w1 acts1]]. destruct He as (new & -> & Hn).
  assert (grew reading acts (w1, acts ++ new)) as Hg by (by exists new).
  assert (keepsW (grew reading acts) (s_ListActiveDecisions (StateStore := dry_store_state (W:=LW) store))) as Hk.
  { destruct store; cbn; [by apply grew_noting|apply keeps_nothing]. }
  destruct (s_ListActiveDecisions _) as [active [w2 acts2]] eqn:Ea. destruct (Hk _ _ _ Ea Hg) as (new2 & E2 & Hn2).
  cbn in E2. subst acts2. cbn [w_now run_oneshot fst snd]. destruct (w_now w2) as [now w3].
  destruct (match active with Ok _ => _ | Err _ => _ end) as [runErr' n].
  destruct (ResultFromSync _ _ _ _ _); by exists new2.
Qed.

Lemma logs_enforce request startedAt db finalize client rc fetch cfg : time_IsZero startedAt = false -> logged_fetch fetch ->
  logs (enforce_body request startedAt db finalize client rc fetch cfg) (enforce_trace startedAt db (sq_Feed request)).
Proof.
  intros Hz [f ->] w acts. unfold enforce_body. cbn [w_BeginSyncRun run_oneshot]. unfold noting at 1. cbn [fst snd].
  destruct (w_BeginSyncRun _ _ _ _ w) as [[run|e] w1]; [|exists [RBegin db (sq_Feed request) (Err e)]; split; [done|constructor]].
  cbn [w_Authenticate run_oneshot]. unfold noting at 1. cbn [fst snd]. destruct (w_Authenticate client w1) as [auth w2].
  set (acts1 := (acts ++ [RBegin db (sq_Feed request) (Ok run)]) ++ [RAuthenticate auth]).
  set (kind := match auth with Ok _ => working | Err _ => reading end).
  assert (forall a, reading a = true -> kind a = true) as Hread by (intros []; unfold kind; by destruct auth).
  assert (let '(_, (_, acts')) := match auth with
      | Err e => ((no_sync_report, Some e), (w2, acts1))
      | Ok _ => run_engine (w_feeds (W:=LW) db) (w_state (W:=LW) db) (log_fetch f) client rc cfg (MkSyncOptions (sq_Feed request) false) (w2, acts1)
      end in exists new, acts' = acts1 ++ new /\ forallb kind new = true) as He.
  { unfold kind. destruct auth; [|exists []; by rewrite app_nil_r].
    apply (engine_grows working acts1); [by intros []|left; by eexists|left; by eexists|done]. }
  destruct (match auth with Ok _ => _ | Err _ => _ end) as [[report runErr] [w3 acts3]]. destruct He as (work & -> & Hwork).
  assert (let '(_, (_, acts')) := (if match runErr with Some e => is_Canceled e | None => false end then ((runErr, 0), (w3, acts1 ++ work))
     else match s_ListActiveDecisions (StateStore := w_state (W:=LW) db) (w3, acts1 ++ work) with
          | (Ok active, w) => ((runErr, Z.of_nat (List.length active)), w)
          | (Err _, w) => ((Some (syncError syncer.ErrState None), 0), w)
          end) in exists new, acts' = acts1 ++ new /\ forallb kind new = true) as Ha.
  { destruct (match runErr with Some e => is_Canceled e | None => false end); [by exists work|].
    destruct (s_ListActiveDecisions _) as [active [w4 acts4]] eqn:Ea.
    assert (grew kind acts1 (w3, acts1 ++ work)) as Hg by (by exists work).
    pose proof (grew_noting kind acts1 _ (fun _ => RRead) ltac:(intros; by apply Hread) _ _ _ Ea Hg) as Hr. destruct active; exact Hr. }
  destruct (if match runErr with Some e => is_Canceled e | None => false end then _ else _) as [[runErr' n] [w4 acts4]].
  destruct Ha as (work' & -> & Hwork'). cbn [w_now run_oneshot fst snd]. destruct (w_now w4) as [now w5]. cbn [w_CompleteSyncRun run_oneshot].
  set (stored := match ResultFromSync _ _ _ _ _ with Ok r => r | Err _ => _ end). unfold noting. cbn [fst snd].
  assert (Result_Validate stored = None) as Hv.
  { unfold stored. destruct (ResultFromSync _ _ _ _ _) eqn:E; [by apply ResultFromSync_valid in E as [? _]|by apply fixedFailureResult_valid]. }
  destruct (w_CompleteSyncRun db finalize run stored w5) as [completed w6].
  exists ([RBegin db (sq_Feed request) (Ok run); RAuthenticate auth] ++ work' ++ [RComplete db run stored completed]).
  split; [unfold acts1; by rewrite <- !app_assoc|]. apply begun; [done|done|].
  destruct completed; [done|]. unfold fixedFailureResult. cbv zeta. by case_match.
Qed.

Lemma logs_with_engine startedAt cfg credentials body P :
  (forall client rc fetch c, logged_fetch fetch -> logs (body client rc fetch c) P) ->
  logs (with_engine given_logged cfg credentials startedAt body) (engine_trace given startedAt P).
Proof.
  intros Hb. unfold with_engine. destruct (lapi_client _ _) as [client|]; [|apply logs_failed; constructor].
  destruct (reconciler_for _ _) as [rc|].
  2:{ eapply (logs_deferred _ (RIdle IdleLAPI)); [done|apply logs_failed_exactly|].
      intros a l [-> ->]. constructor. }
  assert (forall fetch, logged_fetch fetch ->
    logs match Engine_New cfg with Ok engine => body client rc fetch engine | Err _ => failed_with startedAt FailureConfig false end
      (fun a l => engine_trace given startedAt P a
        (l ++ closes_fetcher given ++ [RIdle IdleLAPI]))) as He.
  { intros fetch Hf. destruct (Engine_New cfg) as [engine|].
    - eapply logs_weaken; [by apply Hb|]. intros a l Ha. by apply engine_ran.
    - apply logs_failed. by apply engine_refused. }
  unfold given_logged. destruct given_fetcher as [f|]; cbn [fmap option_fmap option_map].
  { rewrite bool_decide_true in * by done.
    eapply (logs_deferred _ (RIdle IdleLAPI)); [done|apply He; by eexists|]. intros a l Ha. exact Ha. }
  rewrite bool_decide_false in * by (by intros [? ?]).
  destruct (newOperatorFetcher cfg) as [fetcher|].
  2:{ eapply (logs_deferred _ (RIdle IdleLAPI)); [done|apply logs_failed_exactly|].
      intros a l [-> ->]. by constructor. }
  eapply (logs_deferred _ (RIdle IdleLAPI)); [done| |intros a l Ha; exact Ha].
  eapply (logs_deferred _ (RIdle IdleFetcher)); [done|apply He; by eexists|].
  intros a l Ha. by rewrite <- app_assoc.
Qed.

(** ** Opening the database *)

(** What is noted is a preparation. *)
Definition prepares {E A} (prep : run_act -> bool) (m : M LW E A) : Prop :=
  forall w acts, exists l, (m (w, acts)).2.2 = acts ++ l /\ forallb prep l = true.

Lemma prepares_silent {E A} prep (m : M LW E A) : silent m -> prepares prep m.
Proof. intros H w acts. exists []. by rewrite H, app_nil_r. Qed.
Lemma prepares_noting {E A} prep (m : M W E A) note : (forall r, prep (note r) = true) -> prepares prep (noting m note).
Proof.
  intros H w acts. unfold noting. cbn. destruct (m w) as [r w1]. exists [note r]. cbn. by rewrite H.
Qed.
Lemma prepares_driven {A} prep c (m : M LW error A) : prepares prep m -> prepares prep (driven c m).
Proof. intros H w acts. destruct (H w acts) as (l & El & Hl). exists l. unfold driven. by destruct (m (w, acts)) as [[a|e] [w1 acts1]]. Qed.
Lemma prepares_then {E A B} prep (m : M LW E A) (k : A -> M LW E B) :
  prepares prep m -> (forall a, prepares prep (k a)) -> prepares prep (mthen m k).
Proof.
  intros Hm Hk w acts. unfold mthen. destruct (Hm w acts) as (l & El & Hl).
  destruct (m (w, acts)) as [[a|e] [w1 acts1]]; cbn in El; subst acts1; [|by exists l].
  destruct (Hk a w1 (acts ++ l)) as (l' & El' & Hl'). exists (l ++ l'). rewrite El', <- app_assoc, forallb_app, Hl. done.
Qed.
Lemma prepares_for {A} prep (f : A -> M LW error unit) xs : (forall x, prepares prep (f x)) -> prepares prep (mfor f xs).
Proof. intros H. induction xs as [|x xs IH]; [by apply prepares_silent|]. by apply prepares_then. Qed.

Lemma Open_body_prepares o db : prepares preparing (Open_body (W:=LW) (D:=D) clock dir o db).
Proof.
  unfold Open_body. apply prepares_then; [apply prepares_driven, prepares_silent, silent_quiet|intros _].
  apply prepares_then; [apply prepares_for; intros pragma; by apply prepares_driven, prepares_noting|intros _].
  destruct (All dir); [|by apply prepares_silent]. apply prepares_then; [by apply prepares_noting|intros _].
  apply prepares_then; [apply prepares_silent; silence|intros _]. by apply prepares_driven, prepares_noting.
Qed.

Lemma OpenReadOnly_body_prepares o db : prepares only_schema (OpenReadOnly_body (W:=LW) (D:=D) dir o db).
Proof.
  unfold OpenReadOnly_body. apply prepares_then; [apply prepares_driven, prepares_silent, silent_quiet|intros _].
  apply prepares_then; [by apply prepares_noting|intros _]. apply prepares_silent; silence.
Qed.

(** A database that is opened, or the attempt that fails. *)
Definition open_trace (prep : run_act -> bool) (r : result error Z) (l : list run_act) : Prop :=
  match r with
  | Ok db => exists dsn p, l = ROpen dsn (Ok db) :: p /\ forallb prep p = true
  | Err _ => open_fails prep l
  end.

Lemma opened_shape prep dsn (body : Z -> M LW error unit) : (forall db, prepares prep (body db)) ->
  logs (let! db := driven state.ErrOpen (sq_Open (D:=D) dsn) in opened (D:=D) db (body db)) (open_trace prep).
Proof.
  intros Hb w acts. unfold mthen, driven. cbn [sq_Open run_driver]. unfold noting. cbn [fst snd].
  destruct (sq_Open dsn w) as [[db|e] w1]; [|exists [ROpen dsn (Err e)]; split; [done|constructor]].
  unfold opened. destruct (Hb db w1 (acts ++ [ROpen dsn (Ok db)])) as (l & E & Hl).
  destruct (body db _) as [[[]|e] [w2 acts2]]; cbn in E; subst acts2.
  - exists (ROpen dsn (Ok db) :: l). rewrite <- app_assoc. split; [done|]. by exists dsn, l.
  - cbn [sq_Close run_driver fst snd]. destruct (sq_Close _ w2) as [e' w3]. exists (ROpen dsn (Ok db) :: l ++ [RClose db]).
    rewrite <- !app_assoc. split; [done|]. by constructor.
Qed.

Lemma logs_Open o : logs (Open (W:=LW) (D:=D) clock dir o) (open_trace preparing).
Proof.
  unfold Open. destruct (dataSourceName o) as [dsn|e]; [|intros w acts; exists []; rewrite app_nil_r; split; [done|constructor]].
  apply opened_shape. intros db. apply Open_body_prepares.
Qed.

Lemma logs_OpenReadOnly o : logs (OpenReadOnly (W:=LW) (D:=D) dir o) (open_trace only_schema).
Proof.
  intros w acts. unfold OpenReadOnly. unfold mthen at 1.
  assert (silent (readOnlyDataSourceName (W:=LW) (D:=D) o)) as Hs by (unfold readOnlyDataSourceName; silence).
  specialize (Hs w acts). destruct (readOnlyDataSourceName o (w, acts)) as [[dsn|e] [w1 acts1]]; cbn in Hs; subst acts1.
  - apply (opened_shape only_schema dsn (OpenReadOnly_body dir o)). intros db. apply OpenReadOnly_body_prepares.
  - exists []. rewrite app_nil_r. split; [done|constructor].
Qed.

(** ** The command *)

Lemma logs_sync_dry cfg request startedAt credentials : sq_DryRun request = true ->
  logs (sync_dry (W:=LW) (D:=D) dir given_logged cfg request startedAt credentials)
    (fun a l => command_trace given request a (l ++ [RDestroy])).
Proof.
  intros Hd w acts. unfold sync_dry. pose proof (logs_OpenReadOnly (store_options cfg) w acts) as Ho.
  destruct (OpenReadOnly dir _ _) as [[db|e] [w1 acts1]]; destruct Ho as (l & -> & Hl); cbn [open_trace] in Hl.
  - destruct Hl as (dsn & p & -> & Hp).
    assert (logs (deferred (fun w => (store_Close (D:=D) db w).2)
      (with_engine given_logged cfg credentials startedAt (dry_body request startedAt (ReadStore db))))
      (fun a l => command_trace given request a (ROpen dsn (Ok db) :: p ++ l ++ [RDestroy]))) as H.
    { eapply (logs_deferred _ (RClose db)).
      - intros [w2 acts2]. unfold store_Close. cbn. destruct (sq_Close db w2) as [[e|] w3]; done.
      - apply logs_with_engine. intros. by apply logs_dry.
      - intros a l Ha. rewrite <- app_assoc. by eapply dry_opened. }
    specialize (H w1 (acts ++ ROpen dsn (Ok db) :: p)). destruct (deferred _ _ _) as [a [w2 acts2]].
    destruct H as (l & -> & H). exists (ROpen dsn (Ok db) :: p ++ l). rewrite <- app_assoc. split; [done|].
    cbn. by rewrite <- app_assoc.
  - cbn [w_NotExist run_oneshot fst snd]. destruct (w_NotExist _ w1) as [missing w2]. destruct missing; cbn [negb].
    + assert (logs (with_engine given_logged cfg credentials startedAt (dry_body request startedAt EmptyStore)) (engine_trace given startedAt dry_trace)) as H
        by (apply logs_with_engine; intros; by apply logs_dry).
      specialize (H w2 (acts ++ l)). destruct (with_engine _ _ _ _ _ _) as [a [w3 acts3]]. destruct H as (l' & -> & H).
      exists (l ++ l'). rewrite !app_assoc. split; [done|]. rewrite <- app_assoc. by eapply dry_missing.
    + exists l. split; [done|]. by apply dry_unreadable.
Qed.

Lemma logs_sync_enforce cfg request startedAt credentials : sq_DryRun request = false -> time_IsZero startedAt = false ->
  logs (sync_enforce (W:=LW) (D:=D) clock dir given_logged cfg request startedAt credentials)
    (fun a l => command_trace given request a (l ++ [RDestroy])).
Proof.
  intros Hd Hz w acts. unfold sync_enforce. pose proof (logs_Open (store_options cfg) w acts) as Ho.
  destruct (Open clock dir _ _) as [[db|e] [w1 acts1]]; destruct Ho as (l & -> & Hl); cbn [open_trace] in Hl.
  2:{ exists l. split; [done|]. by apply not_opened. }
  destruct Hl as (dsn & p & -> & Hp).
  set (m := enforce_open given_logged cfg request startedAt credentials db).
  assert (logs (deferred (fun w => (store_Close (D:=D) db w).2) m)
    (fun a l => command_trace given request a (ROpen dsn (Ok db) :: p ++ l ++ [RDestroy]))) as H.
  { eapply (logs_deferred _ (RClose db) m (fun a l => command_trace given request a (ROpen dsn (Ok db) :: p ++ l ++ [RClose db; RDestroy]))).
    - intros [w2 acts2]. unfold store_Close. cbn. destruct (sq_Close db w2) as [[e|] w3]; done.
    - intros w2 acts2. unfold m, enforce_open. cbn [w_RecoverInterruptedSyncRuns run_oneshot]. unfold noting at 1. cbn [fst snd].
      destruct (w_RecoverInterruptedSyncRuns db startedAt w2) as [[n|e] w3].
      + pose proof (logs_with_engine startedAt cfg credentials
          (enforce_body request startedAt db (dbc_BusyTimeout (cf_Database cfg))) (enforce_trace startedAt db (sq_Feed request))
          (fun client rc fetch c Hf => logs_enforce request startedAt db _ client rc fetch c Hz Hf) w3 (acts2 ++ [RRecover db (Ok n)])) as He.
        destruct (with_engine _ _ _ _ _ _) as [a [w4 acts4]]. destruct He as (l & -> & Hl). exists (RRecover db (Ok n) :: l).
        rewrite <- app_assoc. split; [done|]. by eapply enforced.
      + exists [RRecover db (Err e)]. split; [done|]. by apply not_recovered.
    - intros a l Ha. by rewrite <- app_assoc. }
  specialize (H w1 (acts ++ ROpen dsn (Ok db) :: p)). destruct (deferred _ _ _) as [a [w2 acts2]].
  destruct H as (l & -> & H). exists (ROpen dsn (Ok db) :: p ++ l). rewrite <- app_assoc. split; [done|].
  cbn. by rewrite <- app_assoc.
Qed.

(** C18: what a synchronisation does.  Nothing happens before the credentials are
    loaded; the database is opened once and closed once, after the connections of
    the fetcher and then of the client, and the credentials are destroyed last; a
    dry run reads the store and the feeds and nothing else, and works on an empty
    store only when the database is not there; a run that enforces recovers the
    interrupted runs before it begins its own, works only when it is
    authenticated, and completes the run it began, once, with a valid result that
    is the one it answers. *)
Theorem syncCLI_trace cfg request (w : W) :
  let '(a, (_, acts)) := syncCLIWithOptions (D:=D) clock dir given_logged cfg request (w, []) in command_trace given request a acts.
Proof.
  unfold syncCLIWithOptions. cbn [w_now run_oneshot fst snd]. destruct (w_now w) as [startedAt w1].
  destruct (time_IsZero startedAt) eqn:Hz; [apply command_refused; by left|].
  destruct (Config_Validate cfg) as [c|]; [|apply command_refused; right; by eexists].
  destruct (_ && _); [apply command_refused; right; by eexists|].
  unfold with_credentials. pose proof (Load_silent (Act := run_act) (loader_for c) (cs_CredentialsFile (cf_CrowdSec c)) w1 []) as Hl.
  destruct (Load _ _ _) as [[credentials|e] [w2 acts2]]; cbn in Hl; subst acts2; [|apply command_refused; right; by eexists].
  assert (logs (deferred b_Destroy ((if sq_DryRun request then sync_dry (W:=LW) (D:=D) dir given_logged else sync_enforce (W:=LW) (D:=D) clock dir given_logged)
      c request startedAt credentials)) (command_trace given request)) as H.
  { eapply (logs_deferred _ RDestroy _ (fun a l => command_trace given request a (l ++ [RDestroy]))); [done| |by intros].
    destruct (sq_DryRun request) eqn:Hd; [by apply logs_sync_dry|by apply logs_sync_enforce]. }
  specialize (H w2 []). destruct (deferred _ _ _) as [a [w3 acts3]]. destruct H as (new & -> & H). exact H.
Qed.
End Trace.
