(* ===== verification/Cli.v ===== *)
(** * The command line ([internal/cli], [cmd/crowdshield/main.go],
      [internal/buildinfo])

    Each command parses its flags, loads and validates the configuration, calls
    one action, validates what it answers, prints it as text or JSON and returns
    an exit code.  The two streams and the actions are operations over a world. *)

From S2P Require Export ConfigEnv Feed Metrics OneShot ConfigLoad Operator Healthcheck.

(** ** What the commands use of [flag] and [encoding/json]

    The parser of a flag set, with its values, and the encoder of the values the
    commands print. *)

(** ** [flag.FlagSet.Parse] *)

Inductive flag_value : Type := FlagText (s : string) | FlagBool (b : bool) | FlagDuration (d : Duration).

(** [Value.Set]: the new value is of the kind of the old one. *)
Definition set_value (old : flag_value) (text : string) : option flag_value :=
  match old with
  | FlagText _ => Some (FlagText text)
  | FlagBool _ => FlagBool <$> ParseBool text
  | FlagDuration _ => FlagDuration <$> parse_duration text
  end.

(** What an argument is: not a flag, [--], a bad flag, or a flag with its value
    if that is in the same argument. *)
Inductive argument : Type := ArgPlain | ArgEnd | ArgBad | ArgFlag (name : string) (value : option string).

Definition named_flag (name : string) : argument :=
  match name with
  | String c _ =>
      if Ascii.eqb c "-" || Ascii.eqb c "=" then ArgBad
      else match cut_byte "=" name with
           | Some (name, value) => ArgFlag name (Some value)
           | None => ArgFlag name None
           end
  | EmptyString => ArgBad
  end.

Definition classify (s : string) : argument :=
  match s with
  | String a (String b rest) =>
      if negb (Ascii.eqb a "-") then ArgPlain
      else if Ascii.eqb b "-" then (if String.eqb rest "" then ArgEnd else named_flag rest)
      else named_flag (String b rest)
  | _ => ArgPlain
  end.

(** The values of the flags, and the arguments that are left; [None] is any
    error, [-help] of a set without it included. *)
Fixpoint parse_flags (flags : gmap string flag_value) (args : list string) : option (gmap string flag_value * list string) :=
  match args with
  | [] => Some (flags, [])
  | s :: rest =>
      match classify s with
      | ArgPlain => Some (flags, args)
      | ArgEnd => Some (flags, rest)
      | ArgBad => None
      | ArgFlag name value =>
          match flags !! name, value with
          | None, _ => None
          | Some (FlagBool _), None => parse_flags (<[name := FlagBool true]> flags) rest
          | Some old, Some text =>
              match set_value old text with
              | Some new => parse_flags (<[name := new]> flags) rest
              | None => None
              end
          | Some old, None =>
              match rest with
              | [] => None
              | text :: rest =>
                  match set_value old text with
                  | Some new => parse_flags (<[name := new]> flags) rest
                  | None => None
                  end
              end
          end
      end
  end.

(** Reading a flag of its kind. *)
Definition flag_text (flags : gmap string flag_value) (name : string) : string :=
  match flags !! name with Some (FlagText s) => s | _ => "" end.
Definition flag_bool (flags : gmap string flag_value) (name : string) : bool :=
  match flags !! name with Some (FlagBool b) => b | _ => false end.
Definition flag_duration (flags : gmap string flag_value) (name : string) : Duration :=
  match flags !! name with Some (FlagDuration d) => d | _ => 0 end.

(** ** [json.NewEncoder(_).Encode(_)] *)

Inductive json : Type :=
| JNull | JText (s : string) | JNumber (z : Z) | JBool (b : bool) | JList (l : list json) | JObject (fields : list (string * json)).

(** A rune in a string, with the bytes that encode it: the escapes of JSON, those
    of HTML, and the replacement of what is not UTF-8. *)
Definition json_rune (r : Z * bool * list ascii) : string :=
  let '(code, ok, bytes) := r in
  if negb ok then "\ufffd"
  else if code =? 34 then String "092" quote
  else if code =? 92 then String "092" (String "092" "")
  else if code =? 8 then "\b" else if code =? 12 then "\f" else if code =? 10 then "\n" else if code =? 13 then "\r"
  else if code =? 9 then "\t"
  else if (code <? 32) || existsb (Z.eqb code) [38; 60; 62] then "\u00" +:+ hex_encode [code]
  else if code =? 8232 then "\u2028" else if code =? 8233 then "\u2029"
  else String.string_of_list_ascii bytes.

Definition json_quoted (s : string) : string := quote +:+ String.concat "" (map json_rune (runes s)) +:+ quote.

Definition bool_text (b : bool) : string := if b then "true" else "false".

Fixpoint json_text (j : json) : string :=
  match j with
  | JNull => "null"
  | JText s => json_quoted s
  | JNumber z => itoa z
  | JBool b => bool_text b
  | JList l => "[" +:+ String.concat "," (map json_text l) +:+ "]"
  | JObject fields => "{" +:+ String.concat "," (map (fun f => json_quoted f.1 +:+ ":" +:+ json_text f.2) fields) +:+ "}"
  end.

(** [json:",omitempty"] of a text. *)
Definition omitempty (name value : string) : list (string * json) := if String.eqb value "" then [] else [(name, JText value)].

Example json_1 : json_text (JList [JText "x<y"; JNumber (-3); JBool true]) = ("[" +:+ quote +:+ "x\u003cy" +:+ quote +:+ ",-3,true]")%string.
Proof. vm_compute. reflexivity. Qed.
Example flags_1 :
  parse_flags (list_to_map [("config", FlagText "d"); ("json", FlagBool false)]%string) ["--json"; "-config=a=b"; "--"; "-x"]%string =
  Some (list_to_map [("config", FlagText "a=b"); ("json", FlagBool true)], ["-x"])%string.
Proof. vm_compute. reflexivity. Qed.
Example flags_2 : parse_flags (list_to_map [("config", FlagText "d")]%string) ["-config"]%string = None.
Proof. reflexivity. Qed.

(** ** The vocabulary of the command line *)

Definition ExitSuccess : Z := 0.
Definition ExitOperational : Z := 1.
Definition ExitUsage : Z := 2.
Definition ExitNotReady : Z := 3.
Definition ExitOwnership : Z := 4.

Definition Usage : string :=
  "usage: crowdshield <run|sync|status|validate-config|list-feeds|explain|prune|db|healthcheck|version|help> [options]".

Definition PruneConfirmation : string := "DELETE-EXPIRED-CROWDSHIELD-HISTORY".
Definition defaultHealthcheckURL : string := "http://127.0.0.1:9090/healthz".
Definition defaultHealthcheckTimeout : Duration := 2 * Second.

(** Writing to a stream says whether it worked. *)
Class Console (W : Type) : Type := { c_Out : string -> W -> bool * W; c_Err : string -> W -> bool * W }.

(** [Actions]; [None] is a nil function. *)
Record Actions (W : Type) : Type := MkActions {
  ac_ValidateConfig : option (Config -> W -> option error * W);
  ac_Run : option (Config -> bool -> W -> option error * W);
  ac_Status : option (Config -> M W error CliStatus);
  ac_Sync : option (Config -> SyncRequest -> W -> (ops_Result * option error) * W);
  ac_ListFeeds : option (Config -> M W error (list CliFeedStatus));
  ac_Explain : option (Config -> string -> M W error ExplainResult);
  ac_Prune : option (Config -> bool -> M W error CliPruneResult);
  ac_DBCheck : option (Config -> W -> option error * W) }.
Arguments MkActions {W}.
Arguments ac_ValidateConfig {W}.
Arguments ac_Run {W}.
Arguments ac_Status {W}.
Arguments ac_Sync {W}.
Arguments ac_ListFeeds {W}.
Arguments ac_Explain {W}.
Arguments ac_Prune {W}.
Arguments ac_DBCheck {W}.

Record CliOptions (W : Type) : Type := MkCliOptions {
  co_Version : Info; co_LoadConfig : option (string -> M W config_error Config); co_Actions : Actions W }.
Arguments MkCliOptions {W}.
Arguments co_Version {W}.
Arguments co_LoadConfig {W}.
Arguments co_Actions {W}.

(** [buildinfo.Info.String] *)
Definition Info_String (i : Info) : string :=
  bi_Name i +:+ " " +:+ bi_Version i +:+ " (revision " +:+ bi_Revision i +:+ ", built " +:+ bi_BuildDate i +:+ ", " +:+
  bi_GoVersion i +:+ " " +:+ bi_GOOS i +:+ "/" +:+ bi_GOARCH i +:+ ")".

(** [buildinfo.Current], from the variables set at link time and the runtime. *)
Definition buildinfo_Current (version revision date go goos goarch : string) : Info :=
  MkInfo "crowdshield" version revision date go goos goarch.

(** ** What is printed *)

(** [name=value] *)
Definition pair_text (f : string * string) : string := f.1 +:+ "=" +:+ f.2.
Definition line_of (fields : list (string * string)) : string := String.concat " " (map pair_text fields).

(** [outputForSync], as names and numbers. *)
Definition sync_counts (r : ops_Result) : list (string * Z) :=
  let c := rs_Counts r in
  [("feeds_succeeded", cn_FeedsSucceeded c); ("feeds_failed", cn_FeedsFailed c); ("feeds_unchanged", cn_FeedsUnchanged c);
   ("feeds_not_due", cn_FeedsNotDue c); ("added", cn_Added c); ("refreshed", cn_Refreshed c); ("removed", cn_Removed c);
   ("rejected", cn_Rejected c); ("skipped", cn_Skipped c); ("lapi_requests", cn_LAPIRequests c);
   ("active_decisions", cn_ActiveDecisions c)]%string.

Definition sync_text (r : ops_Result) : string :=
  line_of ([("outcome", rs_Outcome r); ("failure", rs_Failure r)]%string ++ map (fun f => (f.1, itoa f.2)) (sync_counts r)) +:+ newline.
Definition sync_json (r : ops_Result) : json :=
  JObject ([("outcome"%string, JText (rs_Outcome r))] ++ omitempty "failure" (rs_Failure r) ++
           map (fun f => (f.1, JNumber f.2)) (sync_counts r)).

Definition syncExit (r : ops_Result) : Z :=
  if String.eqb (rs_Failure r) FailureConfig then ExitUsage
  else if String.eqb (rs_Failure r) FailureOwnership then ExitOwnership
  else if String.eqb (rs_Outcome r) OutcomeSuccess then ExitSuccess
  else if String.eqb (rs_Outcome r) OutcomeDegraded then ExitNotReady
  else ExitOperational.

(** [.UTC().Format(time.RFC3339)], empty for the zero time. *)
Definition time_text (t : Time) : string := if time_IsZero t then "" else Notify.Format_RFC3339 t.
Definition optional (name value : string) : list string := if String.eqb value "" then [] else [" " +:+ pair_text (name, value)].

(** What is printed for a feed, a write at a time. *)
Definition feed_writes (f : CliFeedStatus) : list string :=
  [line_of [("name", fst_Name f); ("enabled", bool_text (fst_Enabled f)); ("consecutive_failures", itoa (fst_ConsecutiveFailures f))]%string] ++
  optional "last_success" (time_text (fst_LastSuccess f)) ++ optional "last_failure" (fst_LastFailure f) ++ [newline].
Definition feed_json (f : CliFeedStatus) : json :=
  JObject ([("name", JText (fst_Name f)); ("enabled", JBool (fst_Enabled f))]%string ++
           omitempty "last_success" (time_text (fst_LastSuccess f)) ++
           [("consecutive_failures"%string, JNumber (fst_ConsecutiveFailures f))] ++ omitempty "last_failure" (fst_LastFailure f)).

Definition explain_kind_text (k : ExplainKind) : string := match k with ExplainIP => "ip" | ExplainRange => "range" end.

(** The answer with its contributors in order. *)
Definition sorted_contributors (r : ExplainResult) : ExplainResult :=
  MkExplainResult (xr_Canonical r) (xr_Kind r) (xr_Desired r) (xr_Allowlisted r) (xr_Covered r) (xr_CoveringPrefix r)
    (sort_func cmp_string (xr_Contributors r)) (xr_Owned r) (xr_OwnershipConflict r).

Definition explain_writes (r : ExplainResult) : list string :=
  [line_of [("canonical", xr_Canonical r); ("kind", explain_kind_text (xr_Kind r)); ("desired", bool_text (xr_Desired r));
            ("allowlisted", bool_text (xr_Allowlisted r)); ("covered", bool_text (xr_Covered r)); ("owned", bool_text (xr_Owned r));
            ("ownership_conflict", bool_text (xr_OwnershipConflict r))]%string] ++
  (if xr_Covered r then [" " +:+ pair_text ("covering_prefix"%string, xr_CoveringPrefix r)] else []) ++
  [" " +:+ pair_text ("contributors"%string, String.concat "," (xr_Contributors r)) +:+ newline].
(** A slice that nothing was appended to is nil. *)
Definition strings_json (l : list string) : json := match l with [] => JNull | _ => JList (map JText l) end.
Definition explain_json (r : ExplainResult) : json :=
  JObject ([("canonical", JText (xr_Canonical r)); ("kind", JText (explain_kind_text (xr_Kind r))); ("desired", JBool (xr_Desired r));
            ("allowlisted", JBool (xr_Allowlisted r)); ("covered", JBool (xr_Covered r))]%string ++
           omitempty "covering_prefix" (xr_CoveringPrefix r) ++
           [("contributors", strings_json (xr_Contributors r)); ("owned", JBool (xr_Owned r));
            ("ownership_conflict", JBool (xr_OwnershipConflict r))]%string).

Definition prune_fields (r : CliPruneResult) : list (string * Z) :=
  let c := cpr_Counts r in
  [("sync_runs", pr_SyncRuns c); ("operations", pr_Operations c); ("decisions", pr_Decisions c); ("alerts", pr_Alerts c);
   ("enforcement_objects", pr_EnforcementObjects c); ("feed_entries", pr_FeedEntries c);
   ("ownership_conflicts", cpr_OwnershipConflicts r)]%string.
Definition prune_mode (confirmed : bool) (r : CliPruneResult) : string :=
  if 0 <? cpr_OwnershipConflicts r then "blocked" else if confirmed then "applied" else "plan".
Definition prune_text (mode : string) (r : CliPruneResult) : string :=
  line_of (("mode"%string, mode) :: map (fun f => (f.1, itoa f.2)) (prune_fields r)) +:+ newline.
Definition prune_json (mode : string) (r : CliPruneResult) : json :=
  JObject (("mode"%string, JText mode) :: map (fun f => (f.1, JNumber f.2)) (prune_fields r)).

Definition reason_text (r : StatusReason) : string :=
  match r with
  | CliReady => "ready" | CliSyncPending => "sync_pending" | CliSyncStale => "sync_stale"
  | CliDatabase => "database_unavailable" | CliRuntime => "runtime_unavailable"
  end.
Definition state_text (s : CliStatus) : string := if cst_Ready s then "ready" else "not_ready".
Definition status_writes (s : CliStatus) : list string :=
  [line_of [("status", state_text s); ("reason", reason_text (cst_Reason s)); ("active_decisions", itoa (cst_ActiveDecisions s))]%string] ++
  optional "last_safe_sync" (time_text (cst_LastSafeSync s)) ++ optional "last_outcome" (cst_LastOutcome s) ++
  optional "last_failure" (cst_LastFailure s) ++ [newline].
Definition status_json (s : CliStatus) : json :=
  JObject ([("status", JText (state_text s)); ("reason", JText (reason_text (cst_Reason s)))]%string ++
           omitempty "last_safe_sync" (time_text (cst_LastSafeSync s)) ++
           [("active_decisions"%string, JNumber (cst_ActiveDecisions s))] ++
           omitempty "last_outcome" (cst_LastOutcome s) ++ omitempty "last_failure" (cst_LastFailure s)).

(** ** The commands *)

Definition flag_set (flags : list (string * flag_value)) : gmap string flag_value :=
  list_to_map (("config"%string, FlagText DefaultPath) :: flags).
Definition json_flag : string * flag_value := ("json"%string, FlagBool false).
Definition no_arguments (_ : gmap string flag_value) (rest : list string) : bool := match rest with [] => true | _ => false end.

Definition validExplainInput (value : string) : bool :=
  match ParseAddr value with
  | Some address => negb (bool_decide (address = AddrZero))
  | None => match ParsePrefix value with Some prefix => IsValid prefix | None => false end
  end.

(** The feeds in the order of their names, each valid and its name its own. *)
Fixpoint feeds_listable (seen : gset string) (feeds : list CliFeedStatus) : bool :=
  match feeds with
  | [] => true
  | f :: rest =>
      match CliFeedStatus_Validate f with
      | Some _ => false
      | None => negb (bool_decide (fst_Name f ∈ seen)) && feeds_listable ({[fst_Name f]} ∪ seen) rest
      end
  end.
Definition name_order (a b : CliFeedStatus) : Z := cmp_string (fst_Name a) (fst_Name b).
Definition listed_feeds (feeds : list CliFeedStatus) : option (list CliFeedStatus) :=
  let sorted := sort_func name_order feeds in
  if (256 <? Z.of_nat (length feeds)) || negb (feeds_listable ∅ sorted) then None else Some sorted.

Section Commands.
Context {lib : TextLibrary} {http : HttpLibrary} {urls : UrlLibrary} {local : HealthcheckLibrary}.
Context {W : Type} `{!Console W} `{!HealthcheckNet W}.

(** A write whose error is dropped. *)
Definition fprint (stream : string -> W -> bool * W) (text : string) (w : W) : W := (stream text w).2.
Definition fprint_all (texts : list string) (w : W) : W := fold_left (fun w text => fprint c_Out text w) texts w.

(** [writeUsage(stdout)]; a refusal writes a line to the other stream. *)
Definition complain (message : string) (code : Z) (w : W) : Z * W := (code, fprint c_Err (message +:+ newline) w).
Definition refuse_usage : W -> Z * W := complain Usage ExitUsage.

(** What a command prints, as JSON or a write at a time, and its exit code. *)
Definition present (asJSON : bool) (j : json) (texts : list string) (code : Z) (w : W) : Z * W :=
  if asJSON then let '(ok, w) := c_Out (json_text j +:+ newline) w in (if ok then code else ExitOperational, w)
  else (code, fprint_all texts w).

(** The start of every command that needs the configuration: its flags, its
    arguments, the file, the validation. *)
Definition with_config (options : CliOptions W) (flags : gmap string flag_value)
    (accepts : gmap string flag_value -> list string -> bool) (args : list string)
    (command : gmap string flag_value -> list string -> Config -> W -> Z * W) (w : W) : Z * W :=
  match parse_flags flags args, co_LoadConfig options with
  | Some (flags, rest), Some load =>
      if accepts flags rest then
        match load (flag_text flags "config") w with
        | (Err _, w) => complain "configuration invalid" ExitUsage w
        | (Ok loaded, w) =>
            match Config_Validate loaded with
            | Err _ => complain "configuration invalid" ExitUsage w
            | Ok loaded => command flags rest loaded w
            end
        end
      else refuse_usage w
  | _, _ => refuse_usage w
  end.

(** An action that may be missing, whose answer must be valid. *)
Definition ask {A} (message : string) (action : option (Config -> M W error A)) (valid : A -> option error)
    (k : A -> W -> Z * W) (cfg : Config) (w : W) : Z * W :=
  match action with
  | None => complain message ExitOperational w
  | Some action =>
      match action cfg w with
      | (Err _, w) => complain message ExitOperational w
      | (Ok a, w) => match valid a with Some _ => complain message ExitOperational w | None => k a w end
      end
  end.

Definition validateConfig (args : list string) (options : CliOptions W) : W -> Z * W :=
  with_config options (flag_set []) no_arguments args (fun _ _ cfg w =>
    let '(e, w) := match ac_ValidateConfig (co_Actions options) with Some action => action cfg w | None => (None, w) end in
    match e with
    | Some _ => complain "configuration invalid" ExitUsage w
    | None => (ExitSuccess, fprint c_Out ("configuration valid" +:+ newline) w)
    end).

Definition runCommand (args : list string) (options : CliOptions W) : W -> Z * W :=
  with_config options (flag_set [("run-once"%string, FlagBool false)]) no_arguments args (fun flags _ cfg w =>
    match ac_Run (co_Actions options) with
    | None => complain "runtime failed" ExitOperational w
    | Some action =>
        match action cfg (flag_bool flags "run-once") w with
        | (Some _, w) => complain "runtime failed" ExitOperational w
        | (None, w) => (ExitSuccess, w)
        end
    end).

Definition statusCommand (args : list string) (options : CliOptions W) : W -> Z * W :=
  with_config options (flag_set [json_flag]) no_arguments args (fun flags _ =>
    ask "status unavailable" (ac_Status (co_Actions options)) CliStatus_Validate (fun status =>
      present (flag_bool flags "json") (status_json status) (status_writes status)
        (if cst_Ready status then ExitSuccess else ExitNotReady))).

(** [action(ctx, loaded, request)] *)
Definition settled {A B} (action : option (Config -> B -> W -> (A * option error) * W)) (b : B) : option (Config -> M W error A) :=
  (fun action cfg w => match action cfg b w with ((_, Some e), w) => (Err e, w) | ((a, None), w) => (Ok a, w) end) <$> action.
Definition applied {A B} (action : option (Config -> B -> M W error A)) (b : B) : option (Config -> M W error A) :=
  (fun action cfg => action cfg b) <$> action.

Definition syncCommand (args : list string) (options : CliOptions W) : W -> Z * W :=
  with_config options
    (flag_set [("dry-run"%string, FlagBool false); ("feed"%string, FlagText ""); json_flag])
    (fun flags rest => no_arguments flags rest &&
       (String.eqb (flag_text flags "feed") "" || ValidFeedName (flag_text flags "feed"))) args
    (fun flags _ =>
       let request := MkSyncRequest (flag_text flags "feed") (flag_bool flags "dry-run") in
       ask "synchronization failed" (settled (ac_Sync (co_Actions options)) request) Result_Validate (fun result =>
         present (flag_bool flags "json") (sync_json result) [sync_text result] (syncExit result))).

Definition listFeedsCommand (args : list string) (options : CliOptions W) : W -> Z * W :=
  with_config options (flag_set [json_flag]) no_arguments args (fun flags _ =>
    ask "feed status unavailable" (ac_ListFeeds (co_Actions options)) (fun _ => None) (fun feeds =>
      match listed_feeds feeds with
      | None => complain "feed status unavailable" ExitOperational
      | Some feeds =>
          present (flag_bool flags "json") (JList (map feed_json feeds)) (flat_map feed_writes feeds) ExitSuccess
      end)).

Definition explainCommand (args : list string) (options : CliOptions W) : W -> Z * W :=
  with_config options (flag_set [json_flag]) (fun _ rest => match rest with [input] => validExplainInput input | _ => false end)
    args (fun flags rest =>
    ask "explanation unavailable" (applied (ac_Explain (co_Actions options)) (nth 0 rest "")) ExplainResult_Validate (fun result =>
      let result := sorted_contributors result in
      present (flag_bool flags "json") (explain_json result) (explain_writes result)
        (if xr_OwnershipConflict result then ExitOwnership else ExitSuccess))).

Definition pruneCommand (args : list string) (options : CliOptions W) : W -> Z * W :=
  with_config options (flag_set [("confirm"%string, FlagText ""); json_flag])
    (fun flags rest => no_arguments flags rest &&
       (String.eqb (flag_text flags "confirm") "" || String.eqb (flag_text flags "confirm") PruneConfirmation)) args
    (fun flags _ =>
       let confirmed := String.eqb (flag_text flags "confirm") PruneConfirmation in
       ask "prune unavailable" (applied (ac_Prune (co_Actions options)) confirmed) CliPruneResult_Validate (fun result =>
         let mode := prune_mode confirmed result in
         present (flag_bool flags "json") (prune_json mode result) [prune_text mode result]
           (if 0 <? cpr_OwnershipConflicts result then ExitOwnership else ExitSuccess))).

Definition dbCommand (args : list string) (options : CliOptions W) (w : W) : Z * W :=
  match args with
  | command :: args =>
      if String.eqb command "check" then
        with_config options (flag_set []) no_arguments args (fun _ _ cfg w =>
          match ac_DBCheck (co_Actions options) with
          | None => complain "database check failed" ExitOperational w
          | Some action =>
              match action cfg w with
              | (Some _, w) => complain "database check failed" ExitOperational w
              | (None, w) => (ExitSuccess, fprint c_Out ("database ok" +:+ newline) w)
              end
          end) w
      else refuse_usage w
  | [] => refuse_usage w
  end.

Definition healthcheckCommand (args : list string) (w : W) : Z * W :=
  match parse_flags (list_to_map [("url"%string, FlagText defaultHealthcheckURL);
                                  ("timeout"%string, FlagDuration defaultHealthcheckTimeout)]) args with
  | Some (flags, []) =>
      match runHealthcheck (flag_text flags "url") (flag_duration flags "timeout") w with
      | (Err e, w) =>
          if is_Foreign "invalid healthcheck options" e then refuse_usage w else complain "healthcheck failed" ExitOperational w
      | (Ok _, w) => (ExitSuccess, w)
      end
  | _ => refuse_usage w
  end.

(** [nil_argument] is that the context or a stream is nil. *)
Definition Execute (nil_argument : bool) (args : list string) (options : CliOptions W) (w : W) : Z * W :=
  if nil_argument then (ExitUsage, w)
  else
    match args with
    | [] => refuse_usage w
    | command :: args =>
        if String.eqb command "help" then
          (if no_arguments ∅ args then (ExitSuccess, fprint c_Out (Usage +:+ newline) w) else refuse_usage w)
        else if String.eqb command "version" then
          (if no_arguments ∅ args then (ExitSuccess, fprint c_Out (Info_String (co_Version options) +:+ newline) w) else refuse_usage w)
        else if String.eqb command "validate-config" then validateConfig args options w
        else if String.eqb command "run" then runCommand args options w
        else if String.eqb command "status" then statusCommand args options w
        else if String.eqb command "sync" then syncCommand args options w
        else if String.eqb command "list-feeds" then listFeedsCommand args options w
        else if String.eqb command "explain" then explainCommand args options w
        else if String.eqb command "prune" then pruneCommand args options w
        else if String.eqb command "db" then dbCommand args options w
        else if String.eqb command "healthcheck" then healthcheckCommand args w
        else refuse_usage w
    end.
End Commands.

(** ** The program ([cmd/crowdshield/main.go])

    The actions of the service, over one world.  [dir] is the directory of the
    scripts, [clock] what the store reads, [runtime_world] the world of a service
    that was built, [observed_at] the time at which it observes its events; the two signals that cancel the context are not modelled. *)
Section Main.
Context {lib : TextLibrary} {http : HttpLibrary} {urls : UrlLibrary} {local : HealthcheckLibrary} {conv : ConvLibrary}.
Context {config_codec : ConfigCodec} {credentials_codec : CredentialsCodec}.
Context {spamhaus : SpamhausCodec} {definitions_codec : DefinitionCodec} {D : Type} `{!Scripts D} {W : Type} `{!FileSystem W}.
Context `{!SqlDriver D W} `{!BuildWorld W} `{!OneShotWorld W} `{!OperatorState W} `{!Console W} `{!HealthcheckNet W}.
Context (clock : Z -> Time) (dir : result error (list DirEntry)) (ctx_Err : W -> option error).
Context (runtime_world : Production -> RuntimeWorld W) (os_Environ : list string) (version : Info) (observed_at : Time).

(** A command that reads the clock. *)
Definition timed {A} (command : Config -> Time -> M W error A) (cfg : Config) : M W error A :=
  fun w => let '(now, w) := w_now w in command cfg now w.

Definition SyncCLI (cfg : Config) (request : SyncRequest) : W -> (ops_Result * option error) * W :=
  syncCLIWithOptions (D:=D) clock dir None cfg request.

Definition erased (r : result error unit) : option error := match r with Ok _ => None | Err e => Some e end.

(** [RunCLI]; a single synchronisation says that it is complete. *)
Definition RunCLI (cfg : Config) (runOnce : bool) (w : W) : option error * W :=
  match runCLI (D:=D) clock dir version observed_at runtime_world (fun cfg w =>
          match SyncCLI cfg (MkSyncRequest "" false) w with ((_, Some e), w) => (Err e, w) | ((a, None), w) => (Ok a, w) end) runOnce cfg w with
  | (Err e, w) => (Some e, w)
  | (Ok _, w) => (None, if runOnce then fprint c_Out ("synchronization complete" +:+ newline) w else w)
  end.

Definition productionOptions : CliOptions W := {|
  co_Version := version;
  co_LoadConfig := Some (LoadConfig os_Environ (DefaultLoader os_Environ (bi_Version version)));
  co_Actions := {|
    ac_ValidateConfig := Some (ValidateCLIConfig ctx_Err);
    ac_Run := Some RunCLI;
    ac_Sync := Some SyncCLI;
    ac_Status := Some (timed statusCLIWithOptions);
    ac_ListFeeds := Some ListFeedsCLI;
    ac_Explain := Some ExplainCLI;
    ac_Prune := Some (fun cfg confirmed => timed (fun cfg => pruneCLIWithOptions cfg confirmed) cfg);
    ac_DBCheck := Some (fun cfg w => let '(r, w) := DBCheckCLI cfg w in (erased r, w)) |} |}.

Definition runContext (args : list string) : W -> Z * W := Execute false args productionOptions.
End Main.
