(* ===== verification/CliRun.v ===== *)
(** * What the command line does ([internal/cli])

    A world that notes the configuration that was loaded, the action that was
    called with what it answered, and every write to the two streams.  The
    theorems say which sequences of these a command line can cause. *)

From S2P Require Export Cli.

(** ** The flags that a command line spells *)

(** An argument gives the flag [name] the value [text]. *)
Definition spells (name text : string) (args : list string) : Prop :=
  exists arg, In arg args /\ (arg = text \/ arg = "-" +:+ name +:+ "=" +:+ text \/ arg = "--" +:+ name +:+ "=" +:+ text)%string.

Lemma spells_incl name text args args' : incl args args' -> spells name text args -> spells name text args'.
Proof. intros H (arg & Hin & Ha). exists arg. auto. Qed.

Lemma cut_byte_joined b s x y : cut_byte b s = Some (x, y) -> s = x +:+ String b y.
Proof.
  revert x y. induction s as [|c s IH]; intros x y; cbn; [done|]. destruct (Ascii.eqb c b) eqn:E.
  - intros [= <- <-]. by apply Ascii.eqb_eq in E as ->.
  - destruct (cut_byte b s) as [[x' y']|]; [|done]. intros [= <- <-]. change (String c s = String c (x' +:+ String b y')). f_equal. by apply IH.
Qed.

Lemma named_flag_value s name text : named_flag s = ArgFlag name (Some text) -> s = (name +:+ "=" +:+ text)%string.
Proof.
  destruct s as [|c s]; [done|]. unfold named_flag. destruct (_ || _); [done|].
  destruct (cut_byte _ _) as [[x y]|] eqn:E; [|done]. intros [= <- <-]. by apply cut_byte_joined in E.
Qed.

Lemma classify_value s name text : classify s = ArgFlag name (Some text) ->
  s = ("-" +:+ name +:+ "=" +:+ text)%string \/ s = ("--" +:+ name +:+ "=" +:+ text)%string.
Proof.
  destruct s as [|a [|b s]]; [done..|]. unfold classify. destruct (Ascii.eqb a "-") eqn:Ea; [|done].
  apply Ascii.eqb_eq in Ea as ->. cbn [negb]. destruct (Ascii.eqb b "-") eqn:Eb.
  - apply Ascii.eqb_eq in Eb as ->. destruct (String.eqb s "") eqn:Es; [done|]. intros H%named_flag_value. right. by rewrite H.
  - intros H%named_flag_value. left. by rewrite H.
Qed.

Lemma set_value_text old text t : set_value old text = Some (FlagText t) -> t = text.
Proof. destruct old; cbn; [by intros [= <-]|by destruct (ParseBool text)|by destruct (parse_duration text)]. Qed.

(** What is left is the end of the arguments, and a flag of a set has the text it
    had or one that the arguments spell. *)
Lemma parse_flags_spelled name text args : forall flags flags' rest, parse_flags flags args = Some (flags', rest) ->
  incl rest args /\ (flags' !! name = Some (FlagText text) -> flags !! name = Some (FlagText text) \/ spells name text args).
Proof.
  induction args as [args IH] using (induction_ltof1 _ (@length string)). intros flags flags' rest. unfold ltof in IH.
  destruct args as [|s args]; cbn [parse_flags]; [intros [= <- <-]; split; [apply incl_refl|by left]|].
  assert (forall n new flags0 args0, (length args0 < length (s :: args))%nat -> incl args0 (s :: args) ->
    (n = name -> new = FlagText text -> spells name text (s :: args)) ->
    parse_flags (<[n := new]> flags0) args0 = Some (flags', rest) ->
    incl rest (s :: args) /\ (flags' !! name = Some (FlagText text) -> flags0 !! name = Some (FlagText text) \/ spells name text (s :: args)))
    as Hset.
  { intros n new flags0 args0 Hlen Hincl Hnew H. apply IH in H as [Hi Ht]; [|done]. split; [by eapply incl_tran|].
    intros [H|H]%Ht; [|right; by eapply spells_incl].
    destruct (decide (n = name)) as [->|Hn]; [|rewrite lookup_insert_ne in H; auto].
    rewrite lookup_insert_eq in H. injection H as H. right. auto. }
  destruct (classify s) as [| | |n [v|]] eqn:Ec.
  - intros [= <- <-]. split; [apply incl_refl|by left].
  - intros [= <- <-]. split; [apply incl_tl, incl_refl|by left].
  - done.
  - assert (forall old, match set_value old v with Some new => parse_flags (<[n := new]> flags) args | None => None end = Some (flags', rest) ->
      incl rest (s :: args) /\ (flags' !! name = Some (FlagText text) -> flags !! name = Some (FlagText text) \/ spells name text (s :: args)))
      as Hv.
    { intros old. destruct (set_value old v) as [new|] eqn:Es; [|done]. apply Hset; [cbn; lia|apply incl_tl, incl_refl|].
      intros -> ->. apply set_value_text in Es as ->. apply classify_value in Ec. exists s. split; [by left|auto]. }
    destruct (flags !! n) as [[]|]; [by apply Hv..|done].
  - destruct (flags !! n) as [old|] eqn:En; [|done].
    assert (match args with
            | [] => None
            | v :: args => match set_value old v with Some new => parse_flags (<[n := new]> flags) args | None => None end
            end = Some (flags', rest) ->
      incl rest (s :: args) /\ (flags' !! name = Some (FlagText text) -> flags !! name = Some (FlagText text) \/ spells name text (s :: args)))
      as Hv.
    { destruct args as [|v args']; [done|]. destruct (set_value old v) as [new|] eqn:Es; [|done].
      apply Hset; [cbn; lia|do 2 apply incl_tl; apply incl_refl|].
      intros -> ->. apply set_value_text in Es as ->. exists v. split; [cbn; auto|auto]. }
    destruct old; [by apply Hv| |by apply Hv]. apply Hset; [cbn; lia|apply incl_tl, incl_refl|done].
Qed.

(** ** The list of the feeds *)

Lemma feeds_listable_spec seen feeds : feeds_listable seen feeds = true <->
  Forall (fun f => CliFeedStatus_Validate f = None) feeds /\ NoDup (map fst_Name feeds) /\ Forall (fun f => fst_Name f ∉ seen) feeds.
Proof.
  revert seen. induction feeds as [|f feeds IH]; intros seen; cbn; [split; [repeat constructor|done]|].
  rewrite !list.Forall_cons, list.NoDup_cons. destruct (CliFeedStatus_Validate f); [split; [done|by intros ([] & _)]|].
  rewrite andb_true_iff, negb_true_iff, bool_decide_eq_false, IH.
  assert (Forall (fun g => fst_Name g ∉ ({[fst_Name f]} ∪ seen : gset string)) feeds <->
    (fst_Name f ∉ map fst_Name feeds) /\ Forall (fun g => fst_Name g ∉ seen) feeds) as Hf; [|intuition].
  rewrite !list.Forall_forall, list_elem_of_fmap. set_solver.
Qed.

#[export] Instance name_order_laws : CmpLaws name_order.
Proof. apply (cmp_on_laws fst_Name cmp_string); apply _. Qed.

(** Feeds are listed when there are no more than 256, each is valid and no two
    have the same name; then they are all listed, in the order of their names. *)
Lemma listed_feeds_spec feeds :
  match listed_feeds feeds with
  | Some sorted => Z.of_nat (length feeds) <= 256 /\ Forall (fun f => CliFeedStatus_Validate f = None) feeds /\ NoDup (map fst_Name feeds) /\
      sorted ≡ₚ feeds /\ StronglySorted (cmp_le name_order) sorted
  | None => ~ (Z.of_nat (length feeds) <= 256 /\ Forall (fun f => CliFeedStatus_Validate f = None) feeds /\ NoDup (map fst_Name feeds))
  end.
Proof.
  unfold listed_feeds. pose proof (sort_func_perm name_order feeds) as Hp. set (sorted := sort_func name_order feeds) in *.
  pose proof (feeds_listable_spec ∅ sorted) as Hs.
  assert (Forall (fun f => fst_Name f ∉ (∅ : gset string)) sorted) as He by (apply list.Forall_forall; set_solver).
  assert (Forall (fun f => CliFeedStatus_Validate f = None) sorted <-> Forall (fun f => CliFeedStatus_Validate f = None) feeds) as Hv by (by rewrite Hp).
  assert (NoDup (map fst_Name sorted) <-> NoDup (map fst_Name feeds)) as Hn by (by rewrite Hp).
  rewrite Hv, Hn in Hs. destruct (256 <? _) eqn:El; cbn [orb]; [lia|]. destruct (feeds_listable ∅ sorted); cbn [negb].
  - destruct Hs as [Hs _]. destruct (Hs eq_refl) as (? & ? & _). split_and!; [lia|done|done|done|apply sort_func_sorted; apply _].
  - intros (_ & ? & ?). enough (false = true) by done. by apply Hs.
Qed.

(** ** What a command line causes *)

(** A call of an action, with what it answered. *)
Inductive cli_call : Type :=
| CallValidate (cfg : Config) (e : option error)
| CallRun (cfg : Config) (once : bool) (e : option error)
| CallStatus (cfg : Config) (r : result error CliStatus)
| CallSync (cfg : Config) (request : SyncRequest) (r : ops_Result * option error)
| CallListFeeds (cfg : Config) (r : result error (list CliFeedStatus))
| CallExplain (cfg : Config) (input : string) (r : result error ExplainResult)
| CallPrune (cfg : Config) (confirmed : bool) (r : result error CliPruneResult)
| CallDBCheck (cfg : Config) (e : option error).

Inductive cli_act : Type :=
| CLoad (path : string) (r : result config_error Config) | CCall (call : cli_call) | COut (text : string) | CErr (text : string).

Definition call_config (call : cli_call) : Config :=
  match call with
  | CallValidate cfg _ | CallRun cfg _ _ | CallStatus cfg _ | CallSync cfg _ _ | CallListFeeds cfg _ | CallExplain cfg _ _
  | CallPrune cfg _ _ | CallDBCheck cfg _ => cfg
  end.

(** The action answered, its answer is valid and is worth this exit code. *)
Definition answers_with (call : cli_call) (code : Z) : Prop :=
  match call with
  | CallValidate _ None | CallRun _ _ None | CallDBCheck _ None => code = ExitSuccess
  | CallStatus _ (Ok s) => CliStatus_Validate s = None /\ code = (if cst_Ready s then ExitSuccess else ExitNotReady)
  | CallSync _ _ (r, None) => Result_Validate r = None /\ code = syncExit r
  | CallListFeeds _ (Ok feeds) => code = ExitSuccess /\
      (Z.of_nat (length feeds) <= 256 /\ Forall (fun f => CliFeedStatus_Validate f = None) feeds /\ NoDup (map fst_Name feeds))
  | CallExplain _ _ (Ok r) => ExplainResult_Validate r = None /\ code = (if xr_OwnershipConflict r then ExitOwnership else ExitSuccess)
  | CallPrune _ _ (Ok r) => CliPruneResult_Validate r = None /\ code = (if 0 <? cpr_OwnershipConflicts r then ExitOwnership else ExitSuccess)
  | _ => False
  end.
Definition unanswered (call : cli_call) : Prop := forall code, ~ answers_with call code.

(** The flags of each command, beside [config], with their defaults. *)
Definition flags_of (command : string) : option (list (string * flag_value)) :=
  if existsb (String.eqb command) ["validate-config"; "db"]%string then Some []
  else if String.eqb command "run" then Some [("run-once", FlagBool false)]%string
  else if String.eqb command "sync" then Some [("dry-run", FlagBool false); ("feed", FlagText ""); json_flag]%string
  else if String.eqb command "prune" then Some [("confirm", FlagText ""); json_flag]%string
  else if existsb (String.eqb command) ["status"; "list-feeds"; "explain"]%string then Some [json_flag]
  else None.

(** The values of the flags and the other arguments of a command line, if it is
    one of [command]; [db] has a subcommand. *)
Definition read_line (args : list string) (command : string) : option (gmap string flag_value * list string) :=
  match args, flags_of command with
  | first :: args, Some flags =>
      if String.eqb first command then
        (if String.eqb command "db" then
           match args with
           | sub :: args => if String.eqb sub "check" then parse_flags (flag_set flags) args else None
           | [] => None
           end
         else parse_flags (flag_set flags) args)
      else None
  | _, _ => None
  end.

Definition command_of (call : cli_call) : string :=
  match call with
  | CallValidate _ _ => "validate-config" | CallRun _ _ _ => "run" | CallStatus _ _ => "status" | CallSync _ _ _ => "sync"
  | CallListFeeds _ _ => "list-feeds" | CallExplain _ _ _ => "explain" | CallPrune _ _ _ => "prune" | CallDBCheck _ _ => "db"
  end.

(** The call that these flags and arguments ask for. *)
Definition wanted (call : cli_call) (flags : gmap string flag_value) (rest : list string) : Prop :=
  match call with
  | CallRun _ once _ => rest = [] /\ once = flag_bool flags "run-once"
  | CallSync _ request _ => rest = [] /\ request = MkSyncRequest (flag_text flags "feed") (flag_bool flags "dry-run") /\
      (flag_text flags "feed" = ""%string \/ ValidFeedName (flag_text flags "feed") = true)
  | CallExplain _ input _ => rest = [input] /\ validExplainInput input = true
  | CallPrune _ confirmed _ => rest = [] /\ flag_text flags "confirm" = (if confirmed then PruneConfirmation else ""%string)
  | _ => rest = []
  end.

(** The arguments ask for the call, and for this file. *)
Definition asked (args : list string) (call : cli_call) : Prop :=
  exists flags rest, read_line args (command_of call) = Some (flags, rest) /\ wanted call flags rest.
Definition asked_file (args : list string) (path : string) : Prop :=
  exists command flags rest, read_line args command = Some (flags, rest) /\ path = flag_text flags "config".

(** There is an action for the call. *)
Definition offered {W} (actions : Actions W) (call : cli_call) : bool :=
  match call with
  | CallValidate _ _ => bool_decide (is_Some (ac_ValidateConfig actions)) | CallRun _ _ _ => bool_decide (is_Some (ac_Run actions))
  | CallStatus _ _ => bool_decide (is_Some (ac_Status actions)) | CallSync _ _ _ => bool_decide (is_Some (ac_Sync actions))
  | CallListFeeds _ _ => bool_decide (is_Some (ac_ListFeeds actions)) | CallExplain _ _ _ => bool_decide (is_Some (ac_Explain actions))
  | CallPrune _ _ _ => bool_decide (is_Some (ac_Prune actions)) | CallDBCheck _ _ => bool_decide (is_Some (ac_DBCheck actions))
  end.

(** The only lines that are written to the other stream. *)
Definition complaints : list string :=
  [Usage; "configuration invalid"; "runtime failed"; "status unavailable"; "synchronization failed"; "feed status unavailable";
   "explanation unavailable"; "prune unavailable"; "database check failed"; "healthcheck failed"]%string.
Definition complaint (message : string) : cli_act := CErr (message +:+ newline).

(** What a command does with a valid configuration: it has no action, or calls it;
    it says that this failed, or prints the answer and exits with what it is worth,
    or the JSON could not be written. *)
Inductive command_acts (asked : cli_call -> Prop) (offered : cli_call -> bool) : Config -> Z -> list cli_act -> Prop :=
| CaMissing cfg call message : asked call -> offered call = false -> In message complaints ->
    command_acts asked offered cfg ExitOperational [complaint message]
| CaUnchecked cfg : asked (CallValidate cfg None) -> offered (CallValidate cfg None) = false ->
    command_acts asked offered cfg ExitSuccess [COut ("configuration valid" +:+ newline)]
| CaFailed cfg call message code : asked call -> call_config call = cfg -> unanswered call -> In message complaints ->
    code = (match call with CallValidate _ _ => ExitUsage | _ => ExitOperational end) ->
    command_acts asked offered cfg code [CCall call; complaint message]
| CaAnswered cfg call code texts : asked call -> call_config call = cfg -> answers_with call code ->
    command_acts asked offered cfg code (CCall call :: map COut texts)
| CaUnwritten cfg call code text : asked call -> call_config call = cfg -> answers_with call code ->
    command_acts asked offered cfg ExitOperational [CCall call; COut text].

(** What a command line causes: a refusal, when it asks for nothing or there is no
    loader; a text; a health check; or the file it names is loaded, and if that is
    valid the action it asks for is called with it in its canonical form, and if
    that answers its answer is printed. *)
Inductive cli_trace {lib : TextLibrary} {W} (options : CliOptions W) (args : list string) : Z -> list cli_act -> Prop :=
| CtRefused : (co_LoadConfig options = None \/ forall call, ~ asked args call) -> args <> ["help"%string] -> args <> ["version"%string] ->
    cli_trace options args ExitUsage [complaint Usage]
| CtHelp : args = ["help"%string] -> cli_trace options args ExitSuccess [COut (Usage +:+ newline)]
| CtVersion : args = ["version"%string] -> cli_trace options args ExitSuccess [COut (Info_String (co_Version options) +:+ newline)]
| CtHealthy more : args = "healthcheck"%string :: more -> cli_trace options args ExitSuccess []
| CtUnhealthy more : args = "healthcheck"%string :: more -> cli_trace options args ExitOperational [complaint "healthcheck failed"]
| CtUnloaded path r : asked_file args path -> (forall loaded cfg, r = Ok loaded -> Config_Validate loaded <> Ok cfg) ->
    cli_trace options args ExitUsage [CLoad path r; complaint "configuration invalid"]
| CtLoaded path loaded cfg code acts : asked_file args path -> Config_Validate loaded = Ok cfg ->
    command_acts (asked args) (offered (co_Actions options)) cfg code acts ->
    cli_trace options args code (CLoad path (Ok loaded) :: acts).

Section Traced.
Context {lib : TextLibrary} {http : HttpLibrary} {urls : UrlLibrary} {local : HealthcheckLibrary}.
Context {W : Type} `{!Console W} `{!HealthcheckNet W}.

Definition CliW : Type := W * list cli_act.

Definition cnoted {A} (act : A -> cli_act) (m : W -> A * W) (wl : CliW) : A * CliW :=
  let '(a, w) := m wl.1 in (a, (w, wl.2 ++ [act a])).
#[export] Instance console_logged : Console CliW := {|
  c_Out text := cnoted (fun _ => COut text) (c_Out text);
  c_Err text := cnoted (fun _ => CErr text) (c_Err text) |}.
#[export] Instance healthcheck_quiet : HealthcheckNet CliW := {|
  hc_RoundTrip q wl := let '(a, w) := hc_RoundTrip q wl.1 in (a, (w, wl.2)) |}.

Definition called {A} (call : A -> cli_call) : (W -> A * W) -> CliW -> A * CliW := cnoted (fun a => CCall (call a)).
Definition logged_actions (a : Actions W) : Actions CliW := {|
  ac_ValidateConfig := (fun f cfg => called (CallValidate cfg) (f cfg)) <$> ac_ValidateConfig a;
  ac_Run := (fun f cfg once => called (CallRun cfg once) (f cfg once)) <$> ac_Run a;
  ac_Status := (fun f cfg => called (CallStatus cfg) (f cfg)) <$> ac_Status a;
  ac_Sync := (fun f cfg request => called (CallSync cfg request) (f cfg request)) <$> ac_Sync a;
  ac_ListFeeds := (fun f cfg => called (CallListFeeds cfg) (f cfg)) <$> ac_ListFeeds a;
  ac_Explain := (fun f cfg input => called (CallExplain cfg input) (f cfg input)) <$> ac_Explain a;
  ac_Prune := (fun f cfg confirmed => called (CallPrune cfg confirmed) (f cfg confirmed)) <$> ac_Prune a;
  ac_DBCheck := (fun f cfg => called (CallDBCheck cfg) (f cfg)) <$> ac_DBCheck a |}.
Definition logged_options (o : CliOptions W) : CliOptions CliW := {|
  co_Version := co_Version o;
  co_LoadConfig := (fun load path => cnoted (CLoad path) (load path)) <$> co_LoadConfig o;
  co_Actions := logged_actions (co_Actions o) |}.

(** A command that starts with a log has an exit code and a log. *)
Definition reaches (P : Z -> list cli_act -> Prop) (a : Z * CliW) : Prop := P a.1 a.2.2.

Lemma fprint_all_logged texts (wl : CliW) : (fprint_all texts wl).2 = wl.2 ++ map COut texts.
Proof.
  unfold fprint_all. revert wl. induction texts as [|t texts IH]; intros [w l]; cbn [fold_left map]; [by rewrite app_nil_r|].
  rewrite IH. unfold fprint. cbn. unfold cnoted. cbn. destruct (c_Out t w). cbn. by rewrite <- app_assoc.
Qed.

Lemma fprint_out_logged text (wl : CliW) : (fprint c_Out text wl).2 = wl.2 ++ [COut text].
Proof. exact (fprint_all_logged [text] wl). Qed.

Lemma complain_logged message code (wl : CliW) :
  (complain message code wl).1 = code /\ (complain message code wl).2.2 = wl.2 ++ [complaint message].
Proof. unfold complain, fprint. cbn. unfold cnoted. by destruct (c_Err _ _). Qed.

Lemma complain_reaches P message code (wl : CliW) : P code (wl.2 ++ [complaint message]) -> reaches P (complain message code wl).
Proof. unfold reaches. by destruct (complain_logged message code wl) as [-> ->]. Qed.

(** From the configuration on: [cfg] is what the command is run with. *)
Definition acted (Q : Z -> list cli_act -> Prop) (command : CliW -> Z * CliW) : Prop :=
  forall w l, reaches (fun code acts => exists more, acts = l ++ more /\ Q code more) (command (w, l)).

Lemma acted_complain Q message code : Q code [complaint message] -> acted Q (complain message code).
Proof. intros H w l. apply complain_reaches. eauto. Qed.

(** A refusal of a line that asks for nothing. *)
Lemma refuse_reaches (options : CliOptions W) args (w : W) : (co_LoadConfig options = None \/ forall call, ~ asked args call) ->
  args <> ["help"%string] -> args <> ["version"%string] -> reaches (cli_trace options args) (refuse_usage (w, [])).
Proof. intros. apply complain_reaches. by constructor. Qed.

(** The start of a command, whose flags and arguments are those of the line [line]. *)
Lemma with_config_traced (options : CliOptions W) command line flags accepts args body (w : W) :
  read_line line command = parse_flags flags args -> line <> ["help"%string] -> line <> ["version"%string] ->
  (forall call, asked line call -> command_of call = command) ->
  (forall call flags' rest, command_of call = command -> wanted call flags' rest -> accepts flags' rest = true) ->
  (forall flags' rest cfg, parse_flags flags args = Some (flags', rest) -> accepts flags' rest = true ->
     acted (command_acts (asked line) (offered (co_Actions options)) cfg) (body flags' rest cfg)) ->
  reaches (cli_trace options line) (with_config (logged_options options) flags accepts args body (w, [])).
Proof.
  intros Hg Hh Hv Ho Hw H. unfold with_config.
  assert ((co_LoadConfig options = None \/ forall call, ~ asked line call) -> reaches (cli_trace options line) (refuse_usage (w, []))) as Hu
    by (intros; by apply refuse_reaches).
  destruct (parse_flags flags args) as [[flags' rest]|] eqn:Ep.
  2: { apply Hu. right. intros call Ha. pose proof (Ho call Ha) as Ec. destruct Ha as (f & r & Ha & _). congruence. }
  cbn [co_LoadConfig logged_options]. destruct (co_LoadConfig options) as [load|] eqn:El; cbn [fmap option_fmap option_map]; [|by apply Hu; left].
  assert (forall path, path = flag_text flags' "config" -> asked_file line path) as Hf by (intros path ->; by exists command, flags', rest).
  destruct (accepts flags' rest) eqn:Ea.
  - unfold cnoted. cbn [fst snd]. set (path := flag_text flags' "config"). destruct (load path w) as [[loaded|e] w'].
    + destruct (Config_Validate loaded) as [cfg|] eqn:Ev.
      * pose proof (H _ _ cfg eq_refl Ea w' [CLoad path (Ok loaded)]) as (more & E & Hm). unfold reaches. cbn [app]. rewrite E. by apply (CtLoaded _ _ _ _ cfg); [apply Hf| |].
      * apply complain_reaches. apply CtUnloaded; [by apply Hf|]. congruence.
    + apply complain_reaches. by apply CtUnloaded; [apply Hf|].
  - apply Hu. right. intros call Ha. pose proof (Ho call Ha) as Ec. destruct Ha as (f & r & Ha & Hr). rewrite Ec, Hg in Ha.
    injection Ha as <- <-. rewrite (Hw call _ _ Ec Hr) in Ea. done.
Qed.

(** ** The commands *)

(** What a command causes once its action was called. *)
Definition after_call (ask : cli_call -> Prop) (off : cli_call -> bool) (cfg : Config) (call : cli_call) (code : Z) (more : list cli_act) : Prop :=
  command_acts ask off cfg code (CCall call :: more).

Section Asking.
Context (ask' : cli_call -> Prop) (off : cli_call -> bool) (cfg : Config).

Lemma present_acted call asJSON j texts code : ask' call -> call_config call = cfg -> answers_with call code ->
  acted (after_call ask' off cfg call) (present asJSON j texts code).
Proof.
  intros Ha Hc Hw w l. unfold present, reaches. destruct asJSON.
  - cbn [c_Out console_logged]. unfold cnoted. cbn [fst snd]. destruct (c_Out _ w) as [ok w']. cbn [fst snd].
    eexists. split; [done|]. destruct ok; [by eapply (CaAnswered _ _ _ _ _ [_])|by eapply CaUnwritten].
  - cbn [fst snd]. rewrite fprint_all_logged. eexists. split; [done|]. by apply CaAnswered.
Qed.

Lemma failed_acted call message : ask' call -> call_config call = cfg -> unanswered call -> In message complaints ->
  (forall c e, call <> CallValidate c e) -> acted (after_call ask' off cfg call) (complain message ExitOperational).
Proof. intros Ha Hc Hu Hm Hn. apply acted_complain. apply CaFailed; [done..|]. by destruct call; [exfalso; eapply Hn| | | | | | |]. Qed.

Lemma missing_acted call message : ask' call -> off call = false -> In message complaints ->
  acted (command_acts ask' off cfg) (complain message ExitOperational).
Proof. intros Ha Ho Hm. apply acted_complain. by eapply CaMissing. Qed.

(** A call, and then what the command does with the answer. *)
Lemma called_acted {A} (mk : A -> cli_call) (m : W -> A * W) (k : A -> CliW -> Z * CliW) :
  (forall a, acted (after_call ask' off cfg (mk a)) (k a)) ->
  acted (command_acts ask' off cfg) (fun wl => let '(a, wl) := called mk m wl in k a wl).
Proof.
  intros H w l. unfold called, cnoted. cbn [fst snd]. destruct (m w) as [a w']. destruct (H a w' (l ++ [CCall (mk a)])) as (more & E & Hm).
  unfold reaches. cbn beta iota. rewrite E, <- app_assoc. by eexists.
Qed.

Lemma acted_ext Q m m' : (forall wl, m wl = m' wl) -> acted Q m' -> acted Q m.
Proof. intros E H w l. unfold reaches. rewrite E. apply H. Qed.

(** The commands that ask an action and check its answer. *)
Lemma ask_acted {A B} message (action : option (Config -> M CliW error A)) valid (k : A -> CliW -> Z * CliW)
    (mk : B -> cli_call) (take : B -> result error A) (b0 : B) :
  In message complaints -> (action = None -> off (mk b0) = false) ->
  (forall f, action = Some f -> exists m, forall wl, f cfg wl = (let '(b, wl) := called mk m wl in (take b, wl))) ->
  (forall b, ask' (mk b) /\ call_config (mk b) = cfg /\ (forall c e, mk b <> CallValidate c e)) ->
  (forall b, match take b with
             | Err _ => unanswered (mk b)
             | Ok a => match valid a with Some _ => unanswered (mk b) | None => acted (after_call ask' off cfg (mk b)) (k a) end
             end) ->
  acted (command_acts ask' off cfg) (ask message action valid k cfg).
Proof.
  intros Hm Ho Ha Hk Ht. unfold ask. destruct action as [f|]; [|eapply missing_acted; [apply (Hk b0)|by apply Ho|done]].
  destruct (Ha f eq_refl) as [m Hf].
  eapply (acted_ext _ _ (fun wl => let '(b, wl) := called mk m wl in
            match take b with
            | Err _ => complain message ExitOperational wl
            | Ok a => match valid a with Some _ => complain message ExitOperational wl | None => k a wl end
            end)); [intros wl; rewrite Hf; by destruct (called mk m wl)|].
  apply (called_acted mk m (fun b wl => match take b with
            | Err _ => complain message ExitOperational wl
            | Ok a => match valid a with Some _ => complain message ExitOperational wl | None => k a wl end
            end)).
  intros b. specialize (Ht b). destruct (Hk b) as (? & ? & ?). destruct (take b) as [a|]; [destruct (valid a); [|done]|]; by apply failed_acted.
Qed.

(** The actions that answer an error or nothing. *)
Lemma plain_acted message (mk : option error -> cli_call) (m : W -> option error * W) (code : Z) (good : CliW -> CliW) (texts : list string) :
  In message complaints -> (forall e, ask' (mk e) /\ call_config (mk e) = cfg) -> answers_with (mk None) ExitSuccess ->
  (forall e, unanswered (mk (Some e))) -> (forall e, code = match mk e with CallValidate _ _ => ExitUsage | _ => ExitOperational end) ->
  (forall wl, (good wl).2 = wl.2 ++ map COut texts) ->
  acted (command_acts ask' off cfg) (fun wl => let '(e, wl) := called mk m wl in
    match e with Some _ => complain message code wl | None => (ExitSuccess, good wl) end).
Proof.
  intros Hm Hk Hw Hu Hc Hg. apply (called_acted mk m (fun e wl => match e with Some _ => complain message code wl | None => (ExitSuccess, good wl) end)).
  intros e. destruct (Hk e) as [? ?]. destruct e.
  - apply acted_complain. by apply CaFailed.
  - intros w l. unfold reaches. cbn [fst snd]. rewrite Hg. eexists. split; [done|]. by apply CaAnswered.
Qed.
End Asking.

(** An action of the command line, as [ask] takes it. *)
Lemma fmap_taken {X Y} (f : X -> Y) (o : option X) y : f <$> o = Some y -> exists x, o = Some x /\ f x = y.
Proof. destruct o; [|done]. cbn. intros [= <-]. eauto. Qed.
Lemma fmap_missing {X Y} (f : X -> Y) (o : option X) : f <$> o = None -> o = None.
Proof. by destruct o. Qed.

Ltac in_complaints := unfold complaints; repeat first [left; reflexivity | right].
Ltac not_answered := intros ? ?; cbn in *; intuition congruence.
Ltac is_missing := let H := fresh in intros H; repeat apply fmap_missing in H; cbn [offered]; by rewrite H.
(** The only call that a line of a command asks for. *)
Ltac only_call := intros [] (? & ? & ? & _); try done; discriminate.
(** What it asks for is accepted. *)
Ltac plain_line := intros [] ? ? ?; try done; cbn [wanted]; intros; destruct_and?; subst; done.
(** The call is asked for, by what was read. *)
Ltac reads := intros; cbn [call_config]; split_and?; try done; eexists _, _; split; [eassumption|cbn [wanted]; eauto].

Lemma validateConfig_traced args (options : CliOptions W) (w : W) :
  reaches (cli_trace options ("validate-config"%string :: args)) (validateConfig args (logged_options options) (w, [])).
Proof.
  eapply (with_config_traced _ "validate-config"); [done|done|done|only_call|plain_line|].
  intros flags rest cfg Hp Ha. destruct rest; [|done]. cbn [ac_ValidateConfig co_Actions logged_options logged_actions].
  destruct (ac_ValidateConfig (co_Actions options)) as [f|] eqn:Ef; cbn [fmap option_fmap option_map].
  - apply (plain_acted _ _ _ _ (CallValidate cfg) (f cfg) ExitUsage (fprint c_Out ("configuration valid" +:+ newline)) [("configuration valid" +:+ newline)%string]);
      [in_complaints|reads|done|intros ? ? []|done|intros; apply fprint_out_logged].
  - intros w' l. unfold reaches. cbn [fst snd]. rewrite fprint_out_logged. eexists. split; [done|]. apply CaUnchecked; [reads|].
    cbn [offered]. rewrite Ef. done.
Qed.

Lemma runCommand_traced args (options : CliOptions W) (w : W) :
  reaches (cli_trace options ("run"%string :: args)) (runCommand args (logged_options options) (w, [])).
Proof.
  eapply (with_config_traced _ "run"); [done|done|done|only_call|plain_line|].
  intros flags rest cfg Hp Ha. destruct rest; [|done]. cbn [ac_Run co_Actions logged_options logged_actions].
  destruct (ac_Run (co_Actions options)) as [f|] eqn:Ef; cbn [fmap option_fmap option_map].
  2: { apply (missing_acted _ _ _ (CallRun cfg (flag_bool flags "run-once") None)); [reads|by cbn [offered]; rewrite Ef|in_complaints]. }
  eapply acted_ext; [|apply (plain_acted _ _ _ "runtime failed" (CallRun cfg (flag_bool flags "run-once"))
      (f cfg (flag_bool flags "run-once")) ExitOperational (fun wl => wl) []);
      [in_complaints|reads|done|intros ? ? []|done|intros; by rewrite app_nil_r]].
  intros wl. cbn beta iota. destruct (called _ _ wl) as [[e|] wl']; done.
Qed.

Lemma dbCommand_traced args (options : CliOptions W) (w : W) :
  reaches (cli_trace options ("db"%string :: args)) (dbCommand args (logged_options options) (w, [])).
Proof.
  assert ((forall sub more, args = sub :: more -> String.eqb sub "check" = false) ->
    reaches (cli_trace options ("db"%string :: args)) (refuse_usage (w, []))) as Hu.
  { intros Hn. apply refuse_reaches; [right|done|done]. intros [] (fl & rs & Hg & _); try done.
    unfold read_line in Hg. cbn in Hg. destruct args as [|sub more]; [done|]. by rewrite (Hn _ _ eq_refl) in Hg. }
  unfold dbCommand. destruct args as [|sub args]; [by apply Hu|]. destruct (String.eqb sub "check") eqn:E; [|by apply Hu; intros ? ? [= <- <-]].
  eapply (with_config_traced _ "db"); [unfold read_line; cbn; by rewrite E|done|done|only_call|plain_line|].
  intros flags rest cfg Hp Ha. destruct rest; [|done]. cbn [ac_DBCheck co_Actions logged_options logged_actions].
  assert (read_line ("db"%string :: sub :: args) "db" = Some (flags, [])) as Hg by (unfold read_line; cbn; by rewrite E).
  destruct (ac_DBCheck (co_Actions options)) as [f|] eqn:Ef; cbn [fmap option_fmap option_map].
  2: { apply (missing_acted _ _ _ (CallDBCheck cfg None)); [reads|by cbn [offered]; rewrite Ef|in_complaints]. }
  eapply acted_ext; [|apply (plain_acted _ _ _ "database check failed" (CallDBCheck cfg) (f cfg) ExitOperational
      (fprint c_Out ("database ok" +:+ newline)) [("database ok" +:+ newline)%string]);
      [in_complaints|reads|done|intros ? ? []|done|intros; apply fprint_out_logged]].
  intros wl. cbn beta iota. destruct (called _ _ wl) as [[e|] wl']; done.
Qed.

Lemma statusCommand_traced args (options : CliOptions W) (w : W) :
  reaches (cli_trace options ("status"%string :: args)) (statusCommand args (logged_options options) (w, [])).
Proof.
  eapply (with_config_traced _ "status"); [done|done|done|only_call|plain_line|].
  intros flags rest cfg Hp Ha. destruct rest; [|done]. cbn [ac_Status co_Actions logged_options logged_actions].
  apply (ask_acted _ _ _ _ _ _ _ (CallStatus cfg) id (Err contract)); [in_complaints|is_missing| |reads|].
  { intros f (g & _ & <-)%fmap_taken. exists (g cfg). intros wl. by destruct (called _ _ wl). }
  intros [s|e]; [|intros ? []]. cbn [id]. destruct (CliStatus_Validate s) eqn:E; [not_answered|]. apply present_acted; [reads|done|done].
Qed.

Lemma listFeedsCommand_traced args (options : CliOptions W) (w : W) :
  reaches (cli_trace options ("list-feeds"%string :: args)) (listFeedsCommand args (logged_options options) (w, [])).
Proof.
  eapply (with_config_traced _ "list-feeds"); [done|done|done|only_call|plain_line|].
  intros flags rest cfg Hp Ha. destruct rest; [|done]. cbn [ac_ListFeeds co_Actions logged_options logged_actions].
  apply (ask_acted _ _ _ _ _ _ _ (CallListFeeds cfg) id (Err contract)); [in_complaints|is_missing| |reads|].
  { intros f (g & _ & <-)%fmap_taken. exists (g cfg). intros wl. by destruct (called _ _ wl). }
  intros [feeds|e]; [|intros ? []]. cbn [id]. pose proof (listed_feeds_spec feeds) as H. destruct (listed_feeds feeds).
  - destruct H as (? & ? & ? & _). apply present_acted; [reads|done|done].
  - apply failed_acted; [reads|done|not_answered|in_complaints|done].
Qed.

Lemma syncCommand_traced args (options : CliOptions W) (w : W) :
  reaches (cli_trace options ("sync"%string :: args)) (syncCommand args (logged_options options) (w, [])).
Proof.
  eapply (with_config_traced _ "sync"); [done|done|done|only_call| |].
  { intros [] ? ? ?; try done. cbn [wanted]. intros (-> & _ & [-> | ->]); [done|apply orb_true_r]. }
  intros flags rest cfg Hp Ha. cbn [ac_Sync co_Actions logged_options logged_actions].
  apply andb_true_iff in Ha as [Hn Hf]. destruct rest; [clear Hn|done]. set (request := MkSyncRequest _ _).
  assert (flag_text flags "feed" = ""%string \/ ValidFeedName (flag_text flags "feed") = true) as Hfeed
    by (apply orb_true_iff in Hf as [Hf%String.eqb_eq|Hf]; auto).
  assert (forall r, asked ("sync"%string :: args) (CallSync cfg request r)) as Hk by reads.
  apply (ask_acted _ _ _ _ _ _ _ (CallSync cfg request) (fun p => match p.2 with Some e => Err e | None => Ok p.1 end) (SyncJob.no_result, None));
    [in_complaints|is_missing| |done|].
  - intros f (g & (g' & _ & <-)%fmap_taken & <-)%fmap_taken. exists (g' cfg request). intros wl.
    by destruct (called _ _ wl) as [[a [e|]] wl'].
  - intros [r [e|]]; cbn beta iota delta [fst snd]; [intros ? []|]. destruct (Result_Validate r) eqn:E; [not_answered|].
    by apply present_acted.
Qed.

Lemma explainCommand_traced args (options : CliOptions W) (w : W) :
  reaches (cli_trace options ("explain"%string :: args)) (explainCommand args (logged_options options) (w, [])).
Proof.
  eapply (with_config_traced _ "explain"); [done|done|done|only_call|plain_line|].
  intros flags rest cfg Hp Ha. cbn [ac_Explain co_Actions logged_options logged_actions].
  destruct rest as [|input [|]]; [done| |done]. cbn [nth].
  assert (forall r, asked ("explain"%string :: args) (CallExplain cfg input r)) as Hk by reads.
  apply (ask_acted _ _ _ _ _ _ _ (CallExplain cfg input) id (Err contract)); [in_complaints|is_missing| |done|].
  { intros f (g & (g' & _ & <-)%fmap_taken & <-)%fmap_taken. exists (g' cfg input). intros wl. by destruct (called _ _ wl). }
  intros [r|e]; [|intros ? []]. cbn [id]. destruct (ExplainResult_Validate r) eqn:E; [not_answered|]. by apply present_acted.
Qed.

Lemma pruneCommand_traced args (options : CliOptions W) (w : W) :
  reaches (cli_trace options ("prune"%string :: args)) (pruneCommand args (logged_options options) (w, [])).
Proof.
  eapply (with_config_traced _ "prune"); [done|done|done|only_call| |].
  { intros [] ? ? ?; try done. cbn [wanted]. intros (-> & ->). by destruct confirmed. }
  intros flags rest cfg Hp Ha. cbn [ac_Prune co_Actions logged_options logged_actions].
  apply andb_true_iff in Ha as [Hn Hf]. destruct rest; [clear Hn|done]. set (confirmed := String.eqb _ _).
  assert (flag_text flags "confirm" = (if confirmed then PruneConfirmation else ""%string)) as Hc.
  { unfold confirmed. destruct (String.eqb_spec (flag_text flags "confirm") PruneConfirmation); [done|].
    rewrite orb_false_r in Hf. by apply String.eqb_eq. }
  assert (forall r, asked ("prune"%string :: args) (CallPrune cfg confirmed r)) as Hk by reads.
  apply (ask_acted _ _ _ _ _ _ _ (CallPrune cfg confirmed) id (Err contract)); [in_complaints|is_missing| |done|].
  { intros f (g & (g' & _ & <-)%fmap_taken & <-)%fmap_taken. exists (g' cfg confirmed). intros wl. by destruct (called _ _ wl). }
  intros [r|e]; [|intros ? []]. cbn [id]. destruct (CliPruneResult_Validate r) eqn:E; [not_answered|]. by apply present_acted.
Qed.

(** The request of the health check is not noted, and its answer is not printed. *)
Lemma runHealthcheck_quiet raw timeout (wl : CliW) : (runHealthcheck raw timeout wl).2.2 = wl.2.
Proof.
  unfold runHealthcheck. repeat case_match; try done. unfold mtry. cbn [hc_RoundTrip healthcheck_quiet].
  destruct (hc_RoundTrip _ wl.1) as [[response|] w]; cbn; [by case_match|done].
Qed.

(** What [runHealthcheck] makes of a line is not noted. *)
Lemma healthcheckCommand_traced (options : CliOptions W) args (w : W) :
  reaches (cli_trace options ("healthcheck"%string :: args)) (healthcheckCommand args (w, [])).
Proof.
  assert (forall wl : CliW, wl.2 = [] -> reaches (cli_trace options ("healthcheck"%string :: args)) (refuse_usage wl)) as Hu.
  { intros wl E. apply complain_reaches. rewrite E. constructor; [right|done|done]. by intros [] (fl & rs & Hg & _). }
  unfold healthcheckCommand. destruct (parse_flags _ _) as [[flags [|]]|]; [|by apply Hu..].
  pose proof (runHealthcheck_quiet (flag_text flags "url") (flag_duration flags "timeout") (w, [])) as Hq.
  destruct (runHealthcheck _ _ _) as [[u|e] wl]; cbn [fst snd] in Hq.
  - unfold reaches. cbn [fst snd]. rewrite Hq. by eapply CtHealthy.
  - destruct (is_Foreign _ _); [by apply Hu|]. apply complain_reaches. rewrite Hq. by eapply CtUnhealthy.
Qed.

(** A line that is no command of the service is refused. *)
Lemma unknown_refused (options : CliOptions W) command args (w : W) : flags_of command = None ->
  command :: args <> ["help"%string] -> command :: args <> ["version"%string] ->
  reaches (cli_trace options (command :: args)) (refuse_usage (w, [])).
Proof.
  intros Hn Hh Hv. apply refuse_reaches; [right|done|done]. intros call (f & r & Hg & _). unfold read_line in Hg.
  destruct (flags_of (command_of call)) eqn:Ef; [|done]. destruct (String.eqb_spec command (command_of call)); [congruence|done].
Qed.

Lemma Execute_reaches args (options : CliOptions W) (w : W) : reaches (cli_trace options args) (Execute false args (logged_options options) (w, [])).
Proof.
  unfold Execute. destruct args as [|command args].
  { apply refuse_reaches; [right|done|done]. intros call (f & r & Hg & _). unfold read_line in Hg. done. }
  cbn [co_Version logged_options].
  destruct (String.eqb_spec command "help") as [->|Hh].
  { destruct args; [unfold reaches; cbn [no_arguments fst snd]; rewrite fprint_out_logged; by apply CtHelp|by apply unknown_refused]. }
  destruct (String.eqb_spec command "version") as [->|Hv].
  { destruct args; [unfold reaches; cbn [no_arguments fst snd]; rewrite fprint_out_logged; by apply CtVersion|by apply unknown_refused]. }
  destruct (String.eqb_spec command "validate-config") as [->|H1]; [apply validateConfig_traced|].
  destruct (String.eqb_spec command "run") as [->|H2]; [apply runCommand_traced|].
  destruct (String.eqb_spec command "status") as [->|H3]; [apply statusCommand_traced|].
  destruct (String.eqb_spec command "sync") as [->|H4]; [apply syncCommand_traced|].
  destruct (String.eqb_spec command "list-feeds") as [->|H5]; [apply listFeedsCommand_traced|].
  destruct (String.eqb_spec command "explain") as [->|H6]; [apply explainCommand_traced|].
  destruct (String.eqb_spec command "prune") as [->|H7]; [apply pruneCommand_traced|].
  destruct (String.eqb_spec command "db") as [->|H8]; [apply dbCommand_traced|].
  destruct (String.eqb_spec command "healthcheck") as [->|H9]; [apply healthcheckCommand_traced|].
  apply unknown_refused; [|congruence|congruence]. unfold flags_of. cbn [existsb].
  by rewrite !(proj2 (String.eqb_neq _ _)) by done.
Qed.


(** What may be in a log: nothing on the other stream but a line of the list, and
    no confirmed pruning that the arguments do not spell. *)
Definition contained (args : list string) (act : cli_act) : Prop :=
  match act with
  | CErr text => exists message, In message complaints /\ text = (message +:+ newline)%string
  | CCall (CallPrune _ true _) => spells "confirm" PruneConfirmation args
  | _ => True
  end.

Lemma asked_contained args call : asked args call -> contained args (CCall call).
Proof.
  destruct call as [| | | | | |cfg [] r|]; try done. destruct args as [|command args]; intros (flags & rest & Hg & Hw); [done|].
  unfold read_line in Hg. cbn [command_of flags_of existsb String.eqb Ascii.eqb Bool.eqb orb] in Hg.
  destruct (String.eqb _ _); [|done]. destruct Hw as [_ Hc]. apply (parse_flags_spelled "confirm" PruneConfirmation) in Hg as [_ Ht].
  unfold flag_text in Hc. destruct (flags !! "confirm"%string) as [[]|]; [|done..]. subst s.
  destruct (Ht eq_refl) as [H|H]; [done|]. eapply spells_incl; [|exact H]. apply incl_tl, incl_refl.
Qed.

Lemma complaint_contained args message : In message complaints -> contained args (complaint message).
Proof. intros H. by exists message. Qed.

Lemma syncExit_known r : ExitSuccess <= syncExit r <= ExitOwnership.
Proof. unfold syncExit. repeat case_match; done. Qed.

Lemma answers_with_known call code : answers_with call code -> ExitSuccess <= code <= ExitOwnership.
Proof.
  pose proof syncExit_known as Hs.
  destruct call as [? []|? ? []|? []|? ? [? []]|? []|? ? []|? ? []|? []]; cbn; try done; try (by intros ->); try (by intros [-> _]);
    intros [_ ->]; try apply Hs; by case_match.
Qed.

Lemma command_acts_contained args off cfg code acts : command_acts (asked args) off cfg code acts ->
  ExitSuccess <= code <= ExitOwnership /\ Forall (contained args) acts.
Proof.
  intros H. inversion H; subst; (split; [|repeat (apply list.Forall_cons; split)]); try apply list.Forall_nil_2; try done;
    try (by apply complaint_contained); try (by apply asked_contained); try (by eapply answers_with_known).
  - by case_match.
  - apply list.Forall_forall. intros act Ha. by apply list_elem_of_fmap in Ha as (? & -> & _).
Qed.

(** C20: A command line exits with one of the five documented codes; whatever the
    errors of the actions say, it writes nothing to the error stream but lines of
    a fixed list; and it lets history be deleted only if one of its arguments
    spells the exact confirmation. *)
Theorem Execute_contained args (options : CliOptions W) (w : W) :
  let '(code, (_, acts)) := Execute false args (logged_options options) (w, []) in
  ExitSuccess <= code <= ExitOwnership /\ Forall (contained args) acts.
Proof.
  pose proof (Execute_reaches args options w) as H. destruct (Execute _ _ _ _) as [code [w' acts]]. unfold reaches in H. cbn [fst snd] in H.
  assert (forall message, In message complaints -> contained args (complaint message)) as Hc by (intros; by apply complaint_contained).
  inversion H as [| | | | |? ? Hf Hr|? ? ? ? ? Hf Hv Ha]; subst; [split; [done|]..|].
  - constructor; [apply Hc; in_complaints|constructor].
  - by repeat constructor.
  - by repeat constructor.
  - constructor.
  - constructor; [apply Hc; in_complaints|constructor].
  - constructor; [done|]. constructor; [apply Hc; in_complaints|constructor].
  - apply command_acts_contained in Ha as [Hk Hacts]. split; [done|]. by constructor.
Qed.
End Traced.

(** ** Command lines that run *)

Module CliExamples.
(** A world that notes what is written, and no health check. *)
#[local] Instance cx_console : Console (list string) := {| c_Out text w := (true, w ++ [text]); c_Err text w := (true, w ++ [text]) |}.

Section Run.
Context {lib : TextLibrary} {http : HttpLibrary} {urls : UrlLibrary} {local : HealthcheckLibrary}.
#[local] Instance cx_health : HealthcheckNet (list string) := {| hc_RoundTrip _ := mfail errHealthcheckFailed |}.
Definition cx_options : CliOptions (list string) := {|
  co_Version := MkInfo "crowdshield" "1.2.3" "abc123" "2026" "go1.26.5" "linux" "amd64";
  co_LoadConfig := Some (fun _ => mfail (configError config.ErrPath "config"));
  co_Actions := MkActions None None None None None None None None |}.
Example cx_version : Execute false ["version"%string] cx_options [] =
  (ExitSuccess, ["crowdshield 1.2.3 (revision abc123, built 2026, go1.26.5 linux/amd64)" +:+ newline])%string.
Proof. reflexivity. Qed.
Example cx_prune_phrase : Execute false ["prune"; "-confirm=yes"]%string cx_options [] = (ExitUsage, [Usage +:+ newline])%string.
Proof. vm_compute. reflexivity. Qed.
Example cx_dry cfg r : asked ["sync"; "--dry-run"; "-feed"; "drop"]%string (CallSync cfg (MkSyncRequest "drop" true) r) /\
  asked_file ["sync"; "--config=/etc/c.yaml"]%string "/etc/c.yaml".
Proof.
  split; [|exists "sync"%string; do 2 eexists; split; [vm_compute; reflexivity|vm_compute; reflexivity]].
  eexists _, _. split; [vm_compute; reflexivity|]. cbn [wanted]. repeat split; try (vm_compute; reflexivity).
  right. vm_compute. reflexivity.
Qed.
Example cx_unloaded : Execute false ["prune"; "--confirm"; "DELETE-EXPIRED-CROWDSHIELD-HISTORY"; "-json"]%string cx_options [] =
  (ExitUsage, ["configuration invalid" +:+ newline])%string.
Proof. vm_compute. reflexivity. Qed.
End Run.
Example cx_prune_json : json_text (prune_json "plan" (MkCliPrune (MkPruneResult 1 2 0 0 0 0) 0)) =
  ("{" +:+ quote +:+ "mode" +:+ quote +:+ ":" +:+ quote +:+ "plan" +:+ quote +:+ "," +:+ quote +:+ "sync_runs" +:+ quote +:+ ":1," +:+
   quote +:+ "operations" +:+ quote +:+ ":2," +:+ quote +:+ "decisions" +:+ quote +:+ ":0," +:+ quote +:+ "alerts" +:+ quote +:+ ":0," +:+
   quote +:+ "enforcement_objects" +:+ quote +:+ ":0," +:+ quote +:+ "feed_entries" +:+ quote +:+ ":0," +:+
   quote +:+ "ownership_conflicts" +:+ quote +:+ ":0}")%string.
Proof. vm_compute. reflexivity. Qed.
End CliExamples.
